(* ===== verification/_CoqProject ===== *)
-Q . S2P
Prelude.v
Interp.v
GF256.v
GFShare.v
Cards.v
Bits.v
Table.v
Summary.v
Utils.v
Poker.v
Pots.v
Funds.v
Betting.v
Hand.v
Keys.v
Account.v
Merkle.v
Stream.v
Ramcoder.v
Coding.v
Search.v
Field25519.v
Ladder.v
Sha256.v
Donna.v
Prime25519.v
Concrete.v
Salsa.v
Poly1305.v
Tweet.v
Box.v
SaM.v
Signature.v
Message.v
Coin.v
Deal.v
Handshake.v
Poll.v
