(* ===== verification/Prelude.v ===== *)
(** * SuperNET: a verification library for the C core

    SuperNET is a C program of plugins around a message bus.  The part with logic
    of its own that this library verifies is Pangea, poker without a trusted
    dealer: players at a table shuffle, encrypt and deal a deck among themselves,
    bet, show and settle, all by messages; and the code below it: secret sharing,
    the algebra of the cards down to the limbs of the curve's arithmetic and the
    hash of the card keys, hand ranking, the signed, sealed and packed messages
    between the nodes, bit streams and searches, bit and text utilities, account
    addresses, Merkle trees, proofs of work, and the coin transactions the chips
    are paid with.

    ** Reading the model

    A C integer is a [Z] kept at its width by explicit conversions ([u8] ... [s64]
    below); bytes are [Z]s below 256.  A signed result that does not fit wraps, as
    the compilers of the code define it; where that happens the definition says so.  An array is a list.  A function that
    indexes arrays lives in the option monad and [None] means undefined behaviour:
    an access outside an array, a division by zero, a write behind a buffer, a
    shift by more than the width of a word.  So
    [f x = Some y] says both that the C function stays within its memory and what
    it computes.  C's error returns are ordinary values (-1, or an inner [None]).
    Loops are [for_] below, or fixpoints on the number of rounds left; a loop that
    C bounds by random numbers ([Shuffle], [cards777_initdeck], [init_sharenrs])
    takes the list of the numbers drawn, and the theorems say how many good draws
    are enough.  Structures are records with the update notation
    [r <| field := v |>]; global state (a node of the game) is passed explicitly,
    and the messages a node sends are collected in its field [n_out].

    ** The files and the code they model (paths below src/plugins/)

    - [Prelude], [Interp]: integers, records, arrays, loops, bytes; Lagrange
      interpolation over an abstract field.
    - [GF256], [GFShare] (utils/libgfshare.c): the logarithm tables of GF(256),
      contexts, splitting a secret and recovering it from M shares.
    - [Cards], [Keys] (games/cards777.c, utils/curve25519.c): a card is a private
      key whose second byte is its number.  [Cards] has the shuffle, a player's
      blinding layer, its removal and the sharing of blinding factors; [Keys] the
      host's deck, key derivation, encoding, opening and validating a card.  The
      curve and the hash are the interfaces [FieldOps] and [CurveOps]: their laws
      are what the library promises (the exchange of keys agrees, a factor
      cancels); [XorOps] and [ToyOps] are concrete instances for the witnesses.
    - [Field25519], [Ladder], [Donna] (utils/curve25519.c,
      utils/curve25519-donna.c): the field of integers modulo 2^255 - 19 twice,
      in five limbs of 51 bits and in ten signed limbs of 25 and 26 bits, with
      the Montgomery ladder over each; [Ladder] states x25519 as one function of
      integers and has the loop both ladders share.  [Sha256] (curve25519.c): the
      hash, incremental and at once, against its FIPS definition.
      [Prime25519] proves that the modulus is prime, and [Concrete] makes the
      code of these files an instance of [FieldOps] and [CurveOps].
    - [Salsa], [Poly1305], [Tweet], [Box] (utils/tweetnacl.c): the stream cipher,
      the one-time authenticator, a third ladder on sixteen limbs, and the boxes
      made of them.
    - [SaM] (utils/SaM.c): the ternary sponge, proofs of work and the cipher.
    - [Signature] (utils/bits777.c): account keys and numbers, signatures, lock
      hashes.  [Message] (common/hostnet777.c): a message packed, signed, sealed
      and framed, and the way back.
    - [Poker] (games/pangea/poker.c): ranking of five and seven cards, piles, and
      the text of a hand.
    - [Table] (common/hostnet777.c structures, games/pangea/pangea777.c): the
      records of a table, the translation between positions in a hand and seats,
      the order of play, adding players.
    - [Summary] (pangeafunds.c): the log of a hand and its parser.
    - [Pots], [Funds], [Betting], [Hand] (games/pangea/pangeafunds.c): side pots
      and their division; the handlers of bets, blinds, turns, showdown and
      settlement; their invariants; whole hands as sequences of operations.
    - [Deal] (pangea777.c): the handlers that make, pass on and open a deck, and
      the host's timer.  [Handshake]: host and players agree on a new hand.
      [Poll]: decoding and dispatch of a received message, and a node's loop.
    - [Bits] (utils/bits777.c, common/hostnet777.c): bit arrays, bloom filter,
      CRC-32, message envelopes.  [Utils] (utils/utils777.c): hexadecimal, base
      32, number sets, dates.
      [Stream] (utils/huffstream.c): reading and writing a buffer bit by bit;
      [Search] (the same file): Boyer-Moore search, the collection of patterns.
    - [Ramcoder], [Coding] (utils/ramcoder.c): the adaptive arithmetic coder of the
      messages; its loops against the arithmetic of the interval, and whole
      messages encoded and decoded.
    - [Account] (utils/NXT777.c, utils/cJSON.c): account numbers and their
      Reed-Solomon addresses.  [Merkle] (utils/merkle.c): hash trees, built,
      compared and changed, over an abstract hash.
    - [Coin] (coins/cointx.c, InstantDEX/subatomic.h): raw transactions, scripts.

    [Poll] calls the handlers of [Deal] and [Funds]; these keep the state of
    [Table], write the log of [Summary], settle with [Pots] and draw on [Keys],
    [Cards], [GFShare] and [Poker]; a table's joint account is made by [Coin].
    [Message] carries what the handlers send: it draws on [Ramcoder] and [Coding],
    on [Signature], on [Box] and on the envelope of [Bits].  Joining the two - a
    network of nodes with messages lost or reordered - is not stated; the
    handlers' theorems take the messages as they arrive.

    ** What the theorems show

    - Money: every branch of a bet; a whole hand conserves chips; a contested pot
      is shared equally by the best hands; pots layer the bets; rakes are bounded;
      a finished hand is settled once, and the next one follows - as long as every
      hand in the showdown has a text.  A hand with an unknown card has none, and
      reading its last character reads before the array: an end of [pangea_finish]
      with a theorem of its own.
    - Cards: whatever the order of shuffling, each position opens for its owner,
      its audit validates and no card is lost or doubled; shares recover the
      blinding factors; the nodes agree on players, keys and check product.
    - Arithmetic: each operation on limbs, its words wrapping, computes its
      operation modulo 2^255 - 19, so the three ladders are x25519; the inversion
      inverts because the modulus is prime; the hash is SHA-256.  Of the laws of [CurveOps] the only one [Concrete] takes as a
      hypothesis is the commutation of x25519, a theorem about elliptic curves.
    - Secrets: a sealed box opens to its message, with every other end of opening
      stated; the cipher and the authenticator are the published ones; a signature
      is accepted, and can be forged by anybody, since the key it is checked with
      is public; a signed message arrives as it was sent, one without a sender is
      readable by everybody; a proof of work is what its check accepts.
    - Ranking: order independence, totality and the rank stored for a player.
    - Formats: round trips of transactions, message envelopes, logs, hexadecimal
      text, audits, addresses, numbers in a bit stream and messages in the
      arithmetic coder; CRC-32 equals its bitwise definition, Boyer-Moore search
      finds what trying every place finds, a changed hash tree is the tree built
      anew.
    - Errors: negative bets, the overflow of the message buffer, the write behind
      the seed of the coder, the reads before an array and behind a packet, the
      test vectors of SaM that the code does not meet; each is a theorem or an
      example about the code as it is.

    ** Bounds and fuel

    Fixpoints with a count take the number of rounds of the C loop (at most nine
    players, 52 cards, the length of a text), so they always end as the C loop
    does.  Tables have nine seats, logs 65536 bytes.  [zbuf_from] and
    [unzbuf_from] get one unit per byte or character and use at most that.  The loops
    of the arithmetic coder get 17 units: every round doubles the interval.  The
    searches of [Search] and [Ramcoder] shift forward or shorten their range in every
    round.

    ** Not modelled

    The network (nanomsg sockets and queues), JSON parsing and printing
    (cJSON), process start-up, files, RPC to coin daemons, HTTP and floating-point
    prices (InstantDEX, prices, peggy), databases, and the third-party code in
    the tree (the coin daemon, nanomsg, chess engine, raft, hash libraries).  A
    hash, a curve operation, an address encoding or the parse of a JSON request
    is a parameter.  The values that the operating system supplies (time, random
    bytes) are arguments.  utils/sha256.c, the library file that the hash
    of curve25519.c was taken from, is the parameter [calc_sha256] of [Signature]. *)

From Stdlib Require Export Lia.
From stdpp Require Export base list numbers option.

#[global] Open Scope Z_scope.

(** ** Machine integers

    C integers are [Z] values kept in range by explicit conversions: [u8 x] is
    the value of [(uint8_t)x], [s64 x] that of [(int64_t)x] (two's complement). *)

Definition wrapU (w x : Z) : Z := x mod 2 ^ w.
Definition wrapS (w x : Z) : Z := (x + 2 ^ (w - 1)) mod 2 ^ w - 2 ^ (w - 1).

Definition u8 (x : Z) : Z := wrapU 8 x.
Definition u16 (x : Z) : Z := wrapU 16 x.
Definition u32 (x : Z) : Z := wrapU 32 x.
Definition u64 (x : Z) : Z := wrapU 64 x.
Definition s8 (x : Z) : Z := wrapS 8 x.
Definition s32 (x : Z) : Z := wrapS 32 x.
Definition s64 (x : Z) : Z := wrapS 64 x.

Lemma wrapU_small w x : 0 <= x < 2 ^ w -> wrapU w x = x.
Proof. intros H. apply Z.mod_small, H. Qed.

Lemma wrapU_range w x : 0 <= w -> 0 <= wrapU w x < 2 ^ w.
Proof. intros H. apply Z.mod_pos_bound. lia. Qed.

Lemma wrapS_small w x : 0 < w -> - 2 ^ (w - 1) <= x < 2 ^ (w - 1) -> wrapS w x = x.
Proof.
  intros Hw H. unfold wrapS.
  assert (2 ^ w = 2 * 2 ^ (w - 1)) as E.
  { rewrite <- Z.pow_succ_r by lia. f_equal. lia. }
  rewrite Z.mod_small; lia.
Qed.

Lemma wrapS_range w x : 0 < w -> - 2 ^ (w - 1) <= wrapS w x < 2 ^ (w - 1).
Proof.
  intros Hw. unfold wrapS.
  assert (2 ^ w = 2 * 2 ^ (w - 1)) as E.
  { rewrite <- Z.pow_succ_r by lia. f_equal. lia. }
  pose proof (Z.mod_pos_bound (x + 2 ^ (w - 1)) (2 ^ w)). lia.
Qed.

Lemma u8_small x : 0 <= x < 256 -> u8 x = x.
Proof. apply (wrapU_small 8). Qed.
Lemma u16_small x : 0 <= x < 65536 -> u16 x = x.
Proof. apply (wrapU_small 16). Qed.
Lemma u32_small x : 0 <= x < 4294967296 -> u32 x = x.
Proof. apply (wrapU_small 32). Qed.
Lemma u64_small x : 0 <= x < 18446744073709551616 -> u64 x = x.
Proof. apply (wrapU_small 64). Qed.
Lemma s8_small x : -128 <= x < 128 -> s8 x = x.
Proof. apply (wrapS_small 8). lia. Qed.
Lemma s32_small x : -2147483648 <= x < 2147483648 -> s32 x = x.
Proof. apply (wrapS_small 32). lia. Qed.
Lemma s64_small x : -9223372036854775808 <= x < 9223372036854775808 -> s64 x = x.
Proof. apply (wrapS_small 64). lia. Qed.
Lemma u8_range x : 0 <= u8 x < 256.
Proof. apply (wrapU_range 8). lia. Qed.
Lemma u32_range x : 0 <= u32 x < 4294967296.
Proof. apply (wrapU_range 32). lia. Qed.
Lemma u64_range x : 0 <= u64 x < 18446744073709551616.
Proof. apply (wrapU_range 64). lia. Qed.
Lemma s64_range x : -9223372036854775808 <= s64 x < 9223372036854775808.
Proof. apply (wrapS_range 64). lia. Qed.

Create Rewrite HintDb wrap.
#[export] Hint Rewrite u8_small u16_small u32_small u64_small s8_small s32_small s64_small
  using lia : wrap.

(** Remove every conversion whose argument [lia] shows to be in range. *)
Ltac unwrap := repeat progress autorewrite with wrap in *.

(** ** Record update

    [r <| f := v |>] is [r] with field [f] set to [v], [r <| f ::= g |>] with [g]
    applied to it.  A record type gets the notation from an [Eta] instance, its
    eta-expansion; the updaters are derived by instance search. *)

Class Eta (R : Type) := eta : R -> R.
Class Upd {R T} (proj : R -> T) := upd : (T -> T) -> R -> R.

Ltac derive_upd R T proj :=
  let f := constr:(fun (g : T -> T) (r : R) => ltac:(
    let e := eval cbv [eta] in (eta r) in
    let e := eval hnf in e in
    let e := eval cbv beta in e in
    let e := eval pattern (proj r) in e in
    match e with
    | ?h _ => let t := eval cbv beta in (h (g (proj r))) in exact t
    end)) in
  exact f.

#[export] Hint Extern 1 (@Upd ?R ?T ?proj) => derive_upd R T proj : typeclass_instances.

Declare Scope record_scope.
Notation "r <| p := v |>" := (upd (proj:=p) (fun _ => v) r)
  (at level 12, left associativity, p at level 11) : record_scope.
Notation "r <| p ::= g |>" := (upd (proj:=p) g r)
  (at level 12, left associativity, p at level 11) : record_scope.
#[global] Open Scope record_scope.

(** ** Arrays

    A C array is a list; an access outside it is undefined behaviour, which the
    model makes visible as [None].  A function in the option monad therefore
    returns [Some _] exactly when the C function stays within its arrays. *)

Definition aget {A} (l : list A) (i : Z) : option A :=
  if i <? 0 then None else l !! Z.to_nat i.

Definition aset {A} (l : list A) (i : Z) (x : A) : option (list A) :=
  if (i <? 0) || (Z.of_nat (length l) <=? i) then None
  else Some (<[Z.to_nat i := x]> l).

Lemma aget_Some {A} (l : list A) i x :
  aget l i = Some x <-> 0 <= i /\ l !! Z.to_nat i = Some x.
Proof.
  unfold aget. destruct (Z.ltb_spec i 0); split; intros Hx; [done|lia| |].
  - split; [lia|done].
  - apply Hx.
Qed.

Lemma aget_of_nat {A} (l : list A) (n : nat) : aget l (Z.of_nat n) = l !! n.
Proof. unfold aget. destruct (Z.ltb_spec (Z.of_nat n) 0); [lia|]. by rewrite Nat2Z.id. Qed.

Lemma aget_in_range {A} (l : list A) i :
  0 <= i < Z.of_nat (length l) -> is_Some (aget l i).
Proof.
  intros H. unfold aget. destruct (Z.ltb_spec i 0); [lia|].
  apply lookup_lt_is_Some. lia.
Qed.

Lemma aget_range {A} (l : list A) i x :
  aget l i = Some x -> 0 <= i < Z.of_nat (length l).
Proof. intros [? Hl]%aget_Some. apply lookup_lt_Some in Hl. lia. Qed.

Lemma aset_in_range {A} (l : list A) i x :
  0 <= i < Z.of_nat (length l) -> aset l i x = Some (<[Z.to_nat i := x]> l).
Proof.
  intros H. unfold aset.
  destruct (Z.ltb_spec i 0), (Z.leb_spec (Z.of_nat (length l)) i); simpl; (done || lia).
Qed.

Lemma aset_Some {A} (l : list A) i x l' :
  aset l i x = Some l' ->
  0 <= i < Z.of_nat (length l) /\ l' = <[Z.to_nat i := x]> l.
Proof.
  unfold aset. destruct (Z.ltb_spec i 0), (Z.leb_spec (Z.of_nat (length l)) i);
    simpl; intros [= <-]; (done || lia).
Qed.

(** ** Sums *)

Definition sumZ (l : list Z) : Z := foldr Z.add 0 l.

Lemma sumZ_app l k : sumZ (l ++ k) = sumZ l + sumZ k.
Proof. unfold sumZ. induction l; simpl; lia. Qed.

Lemma sumZ_insert l (i : nat) x y :
  l !! i = Some y -> sumZ (<[i := x]> l) = sumZ l - y + x.
Proof.
  revert i. induction l as [|a l IH]; intros [|i] H; simplify_eq/=; [lia|].
  specialize (IH _ H). lia.
Qed.

Lemma sumZ_nonneg l : Forall (Z.le 0) l -> 0 <= sumZ l.
Proof. unfold sumZ. induction 1; simpl; lia. Qed.

Lemma sumZ_lookup_le l (i : nat) x :
  Forall (Z.le 0) l -> l !! i = Some x -> x <= sumZ l.
Proof.
  intros H. revert i. induction H as [|a l Ha Hl IH]; intros [|i] Hi; simplify_eq/=.
  - pose proof (sumZ_nonneg _ Hl). lia.
  - specialize (IH _ Hi). lia.
Qed.

Lemma sumZ_replicate n x : sumZ (replicate n x) = Z.of_nat n * x.
Proof. unfold sumZ. induction n; simpl; lia. Qed.

Lemma sumZ_zip_add l k :
  length l = length k -> sumZ (zip_with Z.add l k) = sumZ l + sumZ k.
Proof.
  revert k. unfold sumZ. induction l; intros [|? ?] H; simplify_eq/=; [done|].
  rewrite IHl by done. lia.
Qed.

(** ** Counting loops

    [for_ f i n s] runs [s := f k s] for [k = i .. i+n-1], stopping with [None]
    at the first undefined step. *)

Fixpoint for_ {S} (f : Z -> S -> option S) (i : Z) (n : nat) (s : S) : option S :=
  match n with
  | O => Some s
  | Datatypes.S n' => s' ← f i s; for_ f (i + 1) n' s'
  end.

(** A step that fails in every state the steps before it can leave. *)
Lemma for_fails {S} (P : S -> Prop) (f : Z -> S -> option S) k n : (forall i s s', P s -> f i s = Some s' -> P s') -> (forall s, P s -> f k s = None) ->
  forall i s, i <= k < i + Z.of_nat n -> P s -> for_ f i n s = None.
Proof.
  intros Hstep Hk. induction n as [|n IH]; intros i s Hi Hs; [lia|]. cbn [for_]. destruct (decide (i = k)) as [->|Hne]; [by rewrite Hk|].
  destruct (f i s) as [s'|] eqn:E; [|done]. cbn [mbind option_bind]. apply IH; [lia|by eapply Hstep].
Qed.

(** *** Two runs side by side *)

Lemma bind_rel {A A' B B'} (R : A -> A' -> Prop) (Q : B -> B' -> Prop) r r' f f' : option_Forall2 R r r' ->
  (forall a a', R a a' -> option_Forall2 Q (f a) (f' a')) -> option_Forall2 Q (r ≫= f) (r' ≫= f').
Proof. intros [a a' Ha|] Hf; cbn [mbind option_bind]; [by apply Hf|constructor]. Qed.

Lemma for_rel {S S'} (R : S -> S' -> Prop) f f' n : (forall i s s', R s s' -> option_Forall2 R (f i s) (f' i s')) ->
  forall i s s', R s s' -> option_Forall2 R (for_ f i n s) (for_ f' i n s').
Proof.
  intros Hf. induction n as [|n IH]; intros i s s' Hs; cbn [for_]; [by constructor|]. refine (bind_rel _ _ _ _ _ _ (Hf i s s' Hs) _). apply IH.
Qed.

Lemma for_inv {S} (P : Z -> S -> Prop) (f : Z -> S -> option S) n i s :
  P i s ->
  (forall k s, i <= k < i + Z.of_nat n -> P k s -> exists s', f k s = Some s' /\ P (k + 1) s') ->
  exists s', for_ f i n s = Some s' /\ P (i + Z.of_nat n) s'.
Proof.
  revert i s. induction n as [|n IH]; intros i s HP Hstep.
  - exists s. split; [done|]. by replace (i + Z.of_nat 0) with i by lia.
  - destruct (Hstep i s) as (s1 & E1 & P1); [lia|done|].
    destruct (IH (i + 1) s1) as (s2 & E2 & P2); [done|intros k s' ?; apply Hstep; lia|].
    exists s2. simpl. rewrite E1. split; [done|].
    by replace (i + Z.of_nat (Datatypes.S n)) with (i + 1 + Z.of_nat n) by lia.
Qed.

Lemma for_app {S} (f : Z -> S -> option S) n m i s :
  for_ f i (n + m) s = (s' ← for_ f i n s; for_ f (i + Z.of_nat n) m s').
Proof.
  revert i s. induction n as [|n IH]; intros i s.
  - change (for_ f i m s = for_ f (i + 0) m s). by rewrite Z.add_0_r.
  - change (for_ f i (Datatypes.S n + m) s)
      with (s' ← f i s; for_ f (i + 1) (n + m) s').
    change (for_ f i (Datatypes.S n) s) with (s' ← f i s; for_ f (i + 1) n s').
    destruct (f i s) as [s1|]; [|done].
    change (for_ f (i + 1) (n + m) s1 =
      (s' ← for_ f (i + 1) n s1; for_ f (i + Z.of_nat (Datatypes.S n)) m s')).
    rewrite IH. by replace (i + Z.of_nat (Datatypes.S n)) with (i + 1 + Z.of_nat n) by lia.
Qed.

(** [memcpy(dst + off, src, n)] between distinct arrays. *)
Definition memcpy (dst : list Z) (off : Z) (src : list Z) (soff n : Z) : option (list Z) :=
  if (off <? 0) || (soff <? 0) || (n <? 0) || (Z.of_nat (length dst) <? off + n)
     || (Z.of_nat (length src) <? soff + n)
  then None
  else Some (take (Z.to_nat off) dst ++ take (Z.to_nat n) (drop (Z.to_nat soff) src)
             ++ drop (Z.to_nat (off + n)) dst).

Definition memset (dst : list Z) (off c n : Z) : option (list Z) :=
  memcpy dst off (replicate (Z.to_nat n) c) 0 n.

Lemma memcpy_eq dst off src soff n : 0 <= off -> 0 <= soff -> 0 <= n -> off + n <= Z.of_nat (length dst) ->
  soff + n <= Z.of_nat (length src) ->
  memcpy dst off src soff n = Some (take (Z.to_nat off) dst ++ take (Z.to_nat n) (drop (Z.to_nat soff) src) ++ drop (Z.to_nat (off + n)) dst).
Proof.
  intros. unfold memcpy.
  destruct (Z.ltb_spec off 0), (Z.ltb_spec soff 0), (Z.ltb_spec n 0), (Z.ltb_spec (Z.of_nat (length dst)) (off + n)),
    (Z.ltb_spec (Z.of_nat (length src)) (soff + n)); lia || done.
Qed.

Lemma memcpy_in_range dst off src soff n :
  0 <= off -> 0 <= soff -> 0 <= n -> off + n <= Z.of_nat (length dst) ->
  soff + n <= Z.of_nat (length src) ->
  exists dst', memcpy dst off src soff n = Some dst' /\ length dst' = length dst /\
    forall j, dst' !! j = if decide (off <= Z.of_nat j < off + n)
                          then src !! Z.to_nat (Z.of_nat j - off + soff) else dst !! j.
Proof.
  intros ? ? ? ? ?. unfold memcpy.
  destruct (Z.ltb_spec off 0), (Z.ltb_spec soff 0), (Z.ltb_spec n 0),
    (Z.ltb_spec (Z.of_nat (length dst)) (off + n)),
    (Z.ltb_spec (Z.of_nat (length src)) (soff + n)); try lia. simpl.
  eexists. split; [reflexivity|]. split.
  { rewrite !length_app, !length_take, !length_drop. lia. }
  intros j. case_decide.
  - rewrite lookup_app_r by (rewrite length_take; lia). rewrite length_take.
    rewrite lookup_app_l by (rewrite length_take, length_drop; lia).
    rewrite lookup_take_lt, lookup_drop by lia. f_equal. lia.
  - destruct (decide (Z.of_nat j < off)).
    + rewrite lookup_app_l by (rewrite length_take; lia). rewrite lookup_take_lt by lia. done.
    + rewrite lookup_app_r by (rewrite length_take; lia). rewrite length_take.
      rewrite lookup_app_r by (rewrite length_take, length_drop; lia).
      rewrite length_take, length_drop, lookup_drop. f_equal. lia.
Qed.

(** A loop that rewrites the window [base, base+n) of an array element by element. *)
Lemma for_update (f : Z -> list Z -> option (list Z)) (g : Z -> Z -> Z) base n s :
  0 <= base -> base + Z.of_nat n <= Z.of_nat (length s) ->
  (forall k t x, 0 <= k < Z.of_nat n -> length t = length s ->
     s !! Z.to_nat (base + k) = Some x -> t !! Z.to_nat (base + k) = Some x ->
     f k t = aset t (base + k) (g k x)) ->
  exists s', for_ f 0 n s = Some s' /\ length s' = length s /\
    forall j, s' !! j = if decide (base <= Z.of_nat j < base + Z.of_nat n)
                        then g (Z.of_nat j - base) <$> s !! j else s !! j.
Proof.
  intros Hb Hlen Hf.
  destruct (for_inv (fun k t => length t = length s /\
    forall j, t !! j = if decide (base <= Z.of_nat j < base + k)
                       then g (Z.of_nat j - base) <$> s !! j else s !! j) f n 0 s)
    as (s' & E & Hs'); [| |by exists s'].
  - split; [done|]. intros j. by rewrite decide_False by lia.
  - intros k t Hk [Ht Hl].
    assert (is_Some (s !! Z.to_nat (base + k))) as [x Hx] by (apply lookup_lt_is_Some; lia).
    rewrite (Hf k t x); [|lia|done|done|by rewrite Hl, decide_False by lia].
    rewrite aset_in_range by lia. eexists. split; [done|].
    split; [by rewrite length_insert|]. intros j.
    destruct (decide (j = Z.to_nat (base + k))) as [->|Hne].
    + rewrite list_lookup_insert_eq by lia. rewrite decide_True by lia. rewrite Hx. simpl.
      do 2 f_equal. lia.
    + rewrite list_lookup_insert_ne by lia. rewrite Hl.
      destruct (decide (base <= Z.of_nat j < base + k)), (decide (base <= Z.of_nat j < base + (k + 1)));
        (done || lia).
Qed.

Lemma for_ext {S} (f g : Z -> S -> option S) i n s :
  (forall k t, i <= k < i + Z.of_nat n -> f k t = g k t) -> for_ f i n s = for_ g i n s.
Proof.
  revert i s. induction n as [|n IH]; intros i s H; [done|].
  simpl. rewrite H by lia. destruct (g i s); [|done]. simpl. apply IH. intros. apply H. lia.
Qed.

(** Two nested loops that advance one counter. *)
Lemma for_grid {S} (P : Z -> S -> Prop) (f : Z -> Z -> S -> option S) n m s :
  0 <= n -> 0 <= m -> P 0 s ->
  (forall i j s, 0 <= i < n -> 0 <= j < m -> P (i * m + j) s ->
     exists s', f i j s = Some s' /\ P (i * m + j + 1) s') ->
  exists s', for_ (fun i st => for_ (f i) 0 (Z.to_nat m) st) 0 (Z.to_nat n) s = Some s' /\
    P (n * m) s'.
Proof.
  intros Hn Hm H0 Hstep.
  destruct (for_inv (fun i => P (i * m)) (fun i st => for_ (f i) 0 (Z.to_nat m) st)
    (Z.to_nat n) 0 s) as (s' & E & H); [done| |].
  - intros i t Hi Ht.
    destruct (for_inv (fun j => P (i * m + j)) (f i) (Z.to_nat m) 0 t) as (t' & E & H).
    + by rewrite Z.add_0_r.
    + intros j u Hj Hu. destruct (Hstep i j u) as (u' & E & H); [lia|lia|done|].
      exists u'. by rewrite Z.add_assoc.
    + exists t'. split; [done|].
      by replace ((i + 1) * m) with (i * m + (0 + Z.of_nat (Z.to_nat m))) by lia.
  - exists s'. split; [done|]. by replace (n * m) with ((0 + Z.of_nat (Z.to_nat n)) * m) by lia.
Qed.

(** Drawing without replacement: take entry [r] of the first [S k], moving the
    last of them into its place. *)
Lemma draw_perm {A} (l : list A) (r k : nat) x y :
  (r <= k)%nat -> l !! r = Some x -> l !! k = Some y ->
  x :: take k (<[r:=y]> l) ≡ₚ take (S k) l.
Proof.
  intros Hr Hx Hy. rewrite (take_S_r l k y Hy).
  destruct (decide (r = k)) as [->|Hne].
  - rewrite take_insert_ge by lia. simplify_eq. by rewrite Permutation_app_comm.
  - rewrite take_insert_lt by lia.
    assert (take k l !! r = Some x) as Hx' by (rewrite lookup_take_lt; [done|lia]).
    rewrite <- (take_drop_middle _ _ _ Hx').
    rewrite insert_app_r_alt; rewrite length_take_le by (rewrite length_take;
      apply lookup_lt_Some in Hx'; rewrite length_take in Hx'; lia); [|lia].
    rewrite Nat.sub_diag. simpl. rewrite <- !Permutation_middle.
    rewrite app_nil_r. apply perm_swap.
Qed.

Lemma aget_nth {A} (l : list A) i x0 : 0 <= i < Z.of_nat (length l) -> aget l i = Some (nth (Z.to_nat i) l x0).
Proof.
  intros H. apply aget_Some. split; [lia|].
  destruct (lookup_lt_is_Some_2 l (Z.to_nat i)) as [y E]; [lia|].
  rewrite E. by rewrite (nth_lookup_Some _ _ _ _ E).
Qed.

(** Take exactly [n] elements off the front. *)
Definition take_exact {A} (n : nat) (l : list A) : option (list A) :=
  if (n <=? length l)%nat then Some (take n l) else None.

Lemma take_exact_Some {A} n (l k : list A) :
  take_exact n l = Some k -> (n <= length l)%nat /\ k = take n l.
Proof. unfold take_exact. destruct (Nat.leb_spec n (length l)); by intros [= <-]. Qed.

Lemma aget_lookup {A} (l : list A) i x : 0 <= i -> l !! Z.to_nat i = Some x -> aget l i = Some x.
Proof. intros Hi H. by apply aget_Some. Qed.

Lemma aget_is_Some {A} (l : list A) i : 0 <= i < Z.of_nat (length l) ->
  exists x, l !! Z.to_nat i = Some x /\ aget l i = Some x.
Proof.
  intros H. destruct (lookup_lt_is_Some_2 l (Z.to_nat i)) as [x Hx]; [lia|].
  exists x. split; [done|]. apply aget_lookup; [lia|done].
Qed.

Lemma take_exact_le {A} n (l : list A) :
  (n <= length l)%nat -> take_exact n l = Some (take n l).
Proof. intros H. unfold take_exact. destruct (Nat.leb_spec n (length l)); [done|lia]. Qed.

(** A byte array. *)
Definition is_byte (x : Z) : Prop := 0 <= x < 256.
Definition bytes (l : list Z) : Prop := Forall is_byte l.

#[export] Instance is_byte_dec x : Decision (is_byte x).
Proof. unfold is_byte. apply _. Defined.
#[export] Instance bytes_dec l : Decision (bytes l).
Proof. unfold bytes. apply _. Defined.

(** Little-endian bytes of an integer, as [memcpy] of an integer object writes them. *)
Fixpoint le_bytes (n : nat) (x : Z) : list Z :=
  match n with O => [] | S n => x mod 256 :: le_bytes n (x / 256) end.

Fixpoint le_int (l : list Z) : Z :=
  match l with [] => 0 | b :: l => b + 256 * le_int l end.

Lemma length_le_bytes n x : length (le_bytes n x) = n.
Proof. revert x. induction n; intros; simpl; auto. Qed.

Lemma le_bytes_ok n x : bytes (le_bytes n x).
Proof.
  revert x. induction n; intros; constructor; [|apply IHn].
  unfold is_byte. pose proof (Z.mod_pos_bound x 256). lia.
Qed.

Lemma le_int_bytes n x : le_int (le_bytes n x) = x mod 256 ^ Z.of_nat n.
Proof.
  revert x. induction n as [|n IH]; intros x; simpl le_int; simpl le_bytes.
  - rewrite Z.mod_1_r. done.
  - simpl. rewrite IH. replace (256 ^ Z.of_nat (S n)) with (256 * 256 ^ Z.of_nat n).
    + assert (0 < 256 ^ Z.of_nat n) by (apply Z.pow_pos_nonneg; lia).
      rewrite Z.rem_mul_r by lia. done.
    + rewrite Nat2Z.inj_succ, Z.pow_succ_r by lia. done.
Qed.

Lemma le_bytes_int l : bytes l -> le_bytes (length l) (le_int l) = l.
Proof.
  induction 1 as [|b l Hb Hl IH]; [done|]. unfold is_byte in Hb. simpl.
  rewrite (Z.mul_comm 256), Z.mod_add, Z.mod_small, Z.div_add, Z.div_small, Z.add_0_l by lia.
  by rewrite IH.
Qed.

Lemma le_int_range l : bytes l -> 0 <= le_int l < 256 ^ Z.of_nat (length l).
Proof.
  induction 1 as [|b l Hb Hl IH]; [simpl; lia|]. unfold is_byte in Hb. simpl le_int.
  simpl length. rewrite Nat2Z.inj_succ, Z.pow_succ_r by lia. lia.
Qed.

(** Decide a goal of the form [_ = true] by computation. *)
Ltac compute_true := vm_compute; reflexivity.

(** Discharge a hypothesis at a concrete input: arithmetic, computation, or a
    decidable proposition. *)
Ltac concrete :=
  first [ lia
        | lazymatch goal with |- _ = _ => vm_compute; reflexivity end
        | apply (bool_decide_unpack _); vm_compute; exact I ].

(** Case analysis on the boolean comparisons of the goal and the hypotheses. *)
Ltac case_cmp :=
  repeat match goal with
  | |- context [?a <? ?b] => destruct (Z.ltb_spec a b)
  | |- context [?a <=? ?b] => destruct (Z.leb_spec a b)
  | |- context [?a =? ?b] => destruct (Z.eqb_spec a b)
  | H : context [?a <? ?b] |- _ => destruct (Z.ltb_spec a b)
  | H : context [?a <=? ?b] |- _ => destruct (Z.leb_spec a b)
  | H : context [?a =? ?b] |- _ => destruct (Z.eqb_spec a b)
  end.
