(* ===== verification/Interp.v ===== *)
(** * Interp: Lagrange interpolation over an arbitrary field

    The mathematics behind secret recombination: a polynomial of degree below
    the number of distinct points given is determined by its values there.
    Nothing of this file mentions the program; [GFShare] instantiates it. *)

From S2P Require Import Prelude.
From Stdlib Require Import Field.

Section Interp.
Context {F : Type} {f0 f1 : F} {fadd fmul fsub fdiv : F -> F -> F} {fopp finv : F -> F}.
Context (Fth : field_theory f0 f1 fadd fmul fsub fopp fdiv finv (@eq F)).
Context {F_eq_dec : EqDecision F}.

Add Field Ffield : Fth.

Lemma fmul_integral a b : fmul a b = f0 -> a <> f0 -> b = f0.
Proof.
  intros H Ha. transitivity (fmul (finv a) (fmul a b)); [field; done|].
  rewrite H. ring.
Qed.

Lemma fsub_eq a b : fsub a b = f0 -> a = b.
Proof. intros H. transitivity (fadd (fsub a b) b); [ring|]. rewrite H. ring. Qed.

(** Evaluation of a coefficient list, constant coefficient first. *)
Definition eval (p : list F) (x : F) : F :=
  foldr (fun a acc => fadd a (fmul x acc)) f0 p.

Lemma eval_0 p : eval p f0 = default f0 (head p).
Proof. destruct p; simpl; [done|ring]. Qed.

(** Synthetic division by [X - a]. *)
Lemma eval_factor p a :
  exists q, length q = pred (length p) /\
    forall x, eval p x = fadd (eval p a) (fmul (fsub x a) (eval q x)).
Proof.
  induction p as [|c p (q & Hlen & Hq)]; simpl.
  - exists []. split; [done|]. intros x. simpl. ring.
  - destruct p as [|d p].
    + exists []. split; [done|]. intros x. simpl. ring.
    + exists (eval (d :: p) a :: q). split; [simpl in *; lia|].
      intros x. change (eval (eval (d :: p) a :: q) x)
        with (fadd (eval (d :: p) a) (fmul x (eval q x))).
      rewrite Hq. ring.
Qed.

Lemma eval_roots p xs :
  NoDup xs -> (length p <= length xs)%nat -> (forall x, x ∈ xs -> eval p x = f0) ->
  forall x, eval p x = f0.
Proof.
  intros Hnd. revert p. induction Hnd as [|a xs Ha Hnd IH]; intros p Hlen Hroot x.
  - destruct p; simpl in *; [done|lia].
  - destruct (eval_factor p a) as (q & Hq & Hf).
    assert (eval p a = f0) as Hpa by (apply Hroot; left).
    assert (forall z, eval q z = f0) as Hq0.
    { apply IH; [simpl in Hlen; lia|]. intros b Hb.
      apply (fmul_integral (fsub b a)).
      - pose proof (Hroot b ltac:(by right)) as Hb0. rewrite Hf, Hpa in Hb0.
        rewrite <- Hb0. ring.
      - intros E. apply fsub_eq in E. by subst. }
    rewrite Hf, Hpa, Hq0. ring.
Qed.

Lemma eval_scale c p x : eval (fmul c <$> p) x = fmul c (eval p x).
Proof.
  induction p as [|a p IH]; [simpl; ring|].
  rewrite fmap_cons. change (fadd (fmul c a) (fmul x (eval (fmul c <$> p) x)) =
    fmul c (fadd a (fmul x (eval p x)))).
  rewrite IH. ring.
Qed.

Lemma eval_add p q :
  exists r, (length r = Nat.max (length p) (length q))%nat /\
    forall x, fadd (eval p x) (eval q x) = eval r x.
Proof.
  revert q. induction p as [|a p IH]; intros q.
  - exists q. split; [done|]. intros x. simpl. ring.
  - destruct q as [|b q].
    + exists (a :: p). split; [simpl; lia|]. intros x. simpl. ring.
    + destruct (IH q) as (r & Hr & Hx). exists (fadd a b :: r).
      split; [simpl; lia|]. intros x. simpl. rewrite <- Hx. ring.
Qed.

(** [isPoly n f]: [f] is a polynomial function of degree below [n]. *)
Definition isPoly (n : nat) (f : F -> F) : Prop :=
  exists p, (length p <= n)%nat /\ forall x, f x = eval p x.

Lemma isPoly_eval p n : (length p <= n)%nat -> isPoly n (eval p).
Proof. intros H. by exists p. Qed.

Lemma isPoly_ext n f g : isPoly n f -> (forall x, g x = f x) -> isPoly n g.
Proof. intros (p & Hp & Hf) E. exists p. split; [done|]. intros x. by rewrite E. Qed.

Lemma isPoly_scale n c f : isPoly n f -> isPoly n (fun x => fmul c (f x)).
Proof.
  intros (p & Hp & Hf). exists (fmul c <$> p). split; [by rewrite length_fmap|].
  intros x. by rewrite Hf, eval_scale.
Qed.

Lemma isPoly_add n f g : isPoly n f -> isPoly n g -> isPoly n (fun x => fadd (f x) (g x)).
Proof.
  intros (p & Hp & Hf) (q & Hq & Hg).
  destruct (eval_add p q) as (r & Hr & Hx). exists r. split; [lia|].
  intros x. by rewrite Hf, Hg, Hx.
Qed.

Lemma isPoly_linear n a b f :
  isPoly n f -> isPoly (S n) (fun x => fmul (fadd b (fmul a x)) (f x)).
Proof.
  intros Hf.
  assert (isPoly (S n) (fun x => fmul x (f x))) as Hx.
  { destruct Hf as (p & Hp & Hf). exists (f0 :: p). split; [simpl; lia|].
    intros x. rewrite Hf. simpl. ring. }
  assert (isPoly (S n) f) as Hf'.
  { destruct Hf as (p & Hp & Hf). exists p. split; [lia|done]. }
  apply (isPoly_ext _ (fun x => fadd (fmul b (f x)) (fmul a (fmul x (f x))))).
  - by apply isPoly_add; apply isPoly_scale.
  - intros x. ring.
Qed.

(** The Lagrange basis polynomial of [xi] among [xs], evaluated at [x]. *)
Definition lbasis (xs : list F) (xi x : F) : F :=
  foldr (fun xj acc => if decide (xj = xi) then acc
                       else fmul (fdiv (fsub x xj) (fsub xi xj)) acc) f1 xs.

Lemma fdiv_def a b : fdiv a b = fmul a (finv b).
Proof. apply (Fdiv_def Fth). Qed.

Lemma lbasis_notin_poly xs xi :
  xi ∉ xs -> isPoly (S (length xs)) (lbasis xs xi).
Proof.
  induction xs as [|xj xs IH]; intros Hin.
  - exists [f1]. split; [simpl; lia|]. intros x. simpl. ring.
  - apply not_elem_of_cons in Hin as [Hne Hin].
    apply (isPoly_ext _ _ _ (isPoly_linear _ (finv (fsub xi xj))
      (fopp (fmul xj (finv (fsub xi xj)))) _ (IH Hin))).
    intros x. simpl. rewrite decide_False by congruence. rewrite fdiv_def. ring.
Qed.

Lemma lbasis_in_poly xs xi :
  NoDup xs -> xi ∈ xs -> isPoly (length xs) (lbasis xs xi).
Proof.
  induction 1 as [|xj xs Hj Hnd IH]; intros Hin; [by apply not_elem_of_nil in Hin|].
  destruct (decide (xj = xi)) as [->|Hne].
  - apply (isPoly_ext _ _ _ (lbasis_notin_poly xs xi Hj)).
    intros x. simpl. by rewrite decide_True.
  - apply elem_of_cons in Hin as [->|Hin]; [done|].
    apply (isPoly_ext _ _ _ (isPoly_linear _ (finv (fsub xi xj))
      (fopp (fmul xj (finv (fsub xi xj)))) _ (IH Hin))).
    intros x. simpl. rewrite decide_False by done. rewrite fdiv_def. ring.
Qed.

Lemma lbasis_self xs xi : lbasis xs xi xi = f1.
Proof.
  induction xs as [|xj xs IH]; simpl; [done|].
  destruct (decide (xj = xi)) as [E|Hne]; [done|].
  rewrite IH. field. intros E. apply fsub_eq in E. congruence.
Qed.

Lemma lbasis_other xs xi x : x ∈ xs -> x <> xi -> lbasis xs xi x = f0.
Proof.
  induction xs as [|xj xs IH]; intros Hin Hne; [by apply not_elem_of_nil in Hin|].
  simpl. apply elem_of_cons in Hin as [->|Hin].
  - rewrite decide_False by done.
    replace (fsub xj xj) with f0 by ring. rewrite fdiv_def. ring.
  - destruct (decide (xj = xi)); [by apply IH|]. rewrite IH by done. ring.
Qed.

(** The interpolating combination of the values [y]. *)
Definition lagrange (xs zs : list F) (y : F -> F) (x : F) : F :=
  foldr (fun xi acc => fadd (fmul (y xi) (lbasis xs xi x)) acc) f0 zs.

Lemma lagrange_poly xs zs y :
  NoDup xs -> zs ⊆ xs -> isPoly (length xs) (lagrange xs zs y).
Proof.
  intros Hnd. induction zs as [|z zs IH]; intros Hsub.
  - exists []. split; [simpl; lia|done].
  - apply (isPoly_add _ (fun x => fmul (y z) (lbasis xs z x)) (lagrange xs zs y)).
    + apply isPoly_scale, lbasis_in_poly; [done|]. apply Hsub. left.
    + apply IH. intros x Hx. apply Hsub. by right.
Qed.

Lemma lagrange_notin xs zs y x :
  x ∈ xs -> x ∉ zs -> lagrange xs zs y x = f0.
Proof.
  intros Hx. induction zs as [|z zs IH]; intros Hn; simpl; [done|].
  apply not_elem_of_cons in Hn as [Hne Hn].
  rewrite IH, lbasis_other by done. ring.
Qed.

Lemma lagrange_at xs zs y x :
  NoDup zs -> x ∈ xs -> x ∈ zs -> lagrange xs zs y x = y x.
Proof.
  intros Hnd Hx. induction Hnd as [|z zs Hz Hnd IH]; intros Hin; simpl.
  - by apply not_elem_of_nil in Hin.
  - apply elem_of_cons in Hin as [->|Hin].
    + rewrite lagrange_notin, lbasis_self by done. ring.
    + rewrite IH, lbasis_other by (congruence || done). ring.
Qed.

(** A polynomial of degree below the number of points is recovered from its
    values at those points; at [0] this is its constant coefficient. *)
Lemma lagrange_recovers xs p x :
  NoDup xs -> (length p <= length xs)%nat -> lagrange xs xs (eval p) x = eval p x.
Proof.
  intros Hnd Hlen.
  assert (isPoly (length xs)
    (fun x => fadd (lagrange xs xs (eval p) x) (fmul (fopp f1) (eval p x)))) as (q & Hq & Hf).
  { apply isPoly_add.
    - by apply lagrange_poly.
    - apply isPoly_scale. by apply isPoly_eval. }
  assert (eval q x = f0) as H0.
  { apply (eval_roots q xs Hnd Hq). intros z Hz. rewrite <- Hf.
    rewrite lagrange_at by done. ring. }
  rewrite <- Hf in H0. apply fsub_eq. rewrite <- H0. ring.
Qed.

(** Both folds taken from the other end, the order in which loops run them. *)
Lemma lbasis_snoc xs xj xi x :
  lbasis (xs ++ [xj]) xi x =
    if decide (xj = xi) then lbasis xs xi x
    else fmul (fdiv (fsub x xj) (fsub xi xj)) (lbasis xs xi x).
Proof.
  induction xs as [|a xs IH]; simpl; [done|].
  rewrite IH. destruct (decide (a = xi)), (decide (xj = xi)); (done || ring).
Qed.

Lemma lagrange_snoc xs zs z y x :
  lagrange xs (zs ++ [z]) y x = fadd (lagrange xs zs y x) (fmul (y z) (lbasis xs z x)).
Proof. induction zs as [|a zs IH]; simpl; [ring|]. rewrite IH. ring. Qed.

Lemma eval_snoc p c x : eval (c :: p) x = fadd (fmul x (eval p x)) c.
Proof. simpl. ring. Qed.
End Interp.
