(* ===== verification/GF256.v ===== *)
(** * GF256: the log/exp tables of libgfshare.c as the field GF(2^8)

    [ctx_logs] and [ctx_exps] are the two tables of [src/plugins/utils/libgfshare.c]
    that the secret-sharing code multiplies with: a nonzero product is
    [ctx_exps[ctx_logs[a] + ctx_logs[b]]].  This file shows that the product so
    computed, with exclusive or as addition, is a field, from table checks linear in
    the size of the tables: each entry of [ctx_exps] is the double of the one before
    it, and the two tables are inverse to each other. *)

From S2P Require Import Prelude.
From Stdlib Require Import Field.

Definition ctx_logs : list Z := [
   0; 0; 1; 25; 2; 50; 26; 198; 3; 223; 51; 238; 27; 104; 199; 75;
   4; 100; 224; 14; 52; 141; 239; 129; 28; 193; 105; 248; 200; 8; 76; 113;
   5; 138; 101; 47; 225; 36; 15; 33; 53; 147; 142; 218; 240; 18; 130; 69;
   29; 181; 194; 125; 106; 39; 249; 185; 201; 154; 9; 120; 77; 228; 114; 166;
   6; 191; 139; 98; 102; 221; 48; 253; 226; 152; 37; 179; 16; 145; 34; 136;
   54; 208; 148; 206; 143; 150; 219; 189; 241; 210; 19; 92; 131; 56; 70; 64;
   30; 66; 182; 163; 195; 72; 126; 110; 107; 58; 40; 84; 250; 133; 186; 61;
   202; 94; 155; 159; 10; 21; 121; 43; 78; 212; 229; 172; 115; 243; 167; 87;
   7; 112; 192; 247; 140; 128; 99; 13; 103; 74; 222; 237; 49; 197; 254; 24;
   227; 165; 153; 119; 38; 184; 180; 124; 17; 68; 146; 217; 35; 32; 137; 46;
   55; 63; 209; 91; 149; 188; 207; 205; 144; 135; 151; 178; 220; 252; 190; 97;
   242; 86; 211; 171; 20; 42; 93; 158; 132; 60; 57; 83; 71; 109; 65; 162;
   31; 45; 67; 216; 183; 123; 164; 118; 196; 23; 73; 236; 127; 12; 111; 246;
   108; 161; 59; 82; 41; 157; 85; 170; 251; 96; 134; 177; 187; 204; 62; 90;
   203; 89; 95; 176; 156; 169; 160; 81; 11; 245; 22; 235; 122; 117; 44; 215;
   79; 174; 213; 233; 230; 231; 173; 232; 116; 214; 244; 234; 168; 80; 88; 175
  ].

Definition ctx_exps : list Z := [
   1; 2; 4; 8; 16; 32; 64; 128; 29; 58; 116; 232; 205; 135; 19; 38;
   76; 152; 45; 90; 180; 117; 234; 201; 143; 3; 6; 12; 24; 48; 96; 192;
   157; 39; 78; 156; 37; 74; 148; 53; 106; 212; 181; 119; 238; 193; 159; 35;
   70; 140; 5; 10; 20; 40; 80; 160; 93; 186; 105; 210; 185; 111; 222; 161;
   95; 190; 97; 194; 153; 47; 94; 188; 101; 202; 137; 15; 30; 60; 120; 240;
   253; 231; 211; 187; 107; 214; 177; 127; 254; 225; 223; 163; 91; 182; 113; 226;
   217; 175; 67; 134; 17; 34; 68; 136; 13; 26; 52; 104; 208; 189; 103; 206;
   129; 31; 62; 124; 248; 237; 199; 147; 59; 118; 236; 197; 151; 51; 102; 204;
   133; 23; 46; 92; 184; 109; 218; 169; 79; 158; 33; 66; 132; 21; 42; 84;
   168; 77; 154; 41; 82; 164; 85; 170; 73; 146; 57; 114; 228; 213; 183; 115;
   230; 209; 191; 99; 198; 145; 63; 126; 252; 229; 215; 179; 123; 246; 241; 255;
   227; 219; 171; 75; 150; 49; 98; 196; 149; 55; 110; 220; 165; 87; 174; 65;
   130; 25; 50; 100; 200; 141; 7; 14; 28; 56; 112; 224; 221; 167; 83; 166;
   81; 162; 89; 178; 121; 242; 249; 239; 195; 155; 43; 86; 172; 69; 138; 9;
   18; 36; 72; 144; 61; 122; 244; 245; 247; 243; 251; 235; 203; 139; 11; 22;
   44; 88; 176; 125; 250; 233; 207; 131; 27; 54; 108; 216; 173; 71; 142; 1;
   2; 4; 8; 16; 32; 64; 128; 29; 58; 116; 232; 205; 135; 19; 38; 76;
   152; 45; 90; 180; 117; 234; 201; 143; 3; 6; 12; 24; 48; 96; 192; 157;
   39; 78; 156; 37; 74; 148; 53; 106; 212; 181; 119; 238; 193; 159; 35; 70;
   140; 5; 10; 20; 40; 80; 160; 93; 186; 105; 210; 185; 111; 222; 161; 95;
   190; 97; 194; 153; 47; 94; 188; 101; 202; 137; 15; 30; 60; 120; 240; 253;
   231; 211; 187; 107; 214; 177; 127; 254; 225; 223; 163; 91; 182; 113; 226; 217;
   175; 67; 134; 17; 34; 68; 136; 13; 26; 52; 104; 208; 189; 103; 206; 129;
   31; 62; 124; 248; 237; 199; 147; 59; 118; 236; 197; 151; 51; 102; 204; 133;
   23; 46; 92; 184; 109; 218; 169; 79; 158; 33; 66; 132; 21; 42; 84; 168;
   77; 154; 41; 82; 164; 85; 170; 73; 146; 57; 114; 228; 213; 183; 115; 230;
   209; 191; 99; 198; 145; 63; 126; 252; 229; 215; 179; 123; 246; 241; 255; 227;
   219; 171; 75; 150; 49; 98; 196; 149; 55; 110; 220; 165; 87; 174; 65; 130;
   25; 50; 100; 200; 141; 7; 14; 28; 56; 112; 224; 221; 167; 83; 166; 81;
   162; 89; 178; 121; 242; 249; 239; 195; 155; 43; 86; 172; 69; 138; 9; 18;
   36; 72; 144; 61; 122; 244; 245; 247; 243; 251; 235; 203; 139; 11; 22; 44;
   88; 176; 125; 250; 233; 207; 131; 27; 54; 108; 216; 173; 71; 142
  ].

(** Table access; the indices the code forms are shown to be in range. *)
Definition log (x : Z) : Z := nth (Z.to_nat x) ctx_logs 0.
Definition exp (i : Z) : Z := nth (Z.to_nat i) ctx_exps 0.

(** The product the code computes from the tables. *)
Definition gmul (a b : Z) : Z :=
  if (a =? 0) || (b =? 0) then 0 else exp (log a + log b).

(** ** Multiplication by the generator *)

Definition xtime (b : Z) : Z :=
  if Z.testbit b 7 then Z.lxor (Z.shiftl b 1) 285 else Z.shiftl b 1.

Lemma xtime_lxor b c : xtime (Z.lxor b c) = Z.lxor (xtime b) (xtime c).
Proof.
  assert (forall b, xtime b = Z.lxor (Z.shiftl b 1) (if Z.testbit b 7 then 285 else 0)) as E.
  { intros a. unfold xtime. destruct (Z.testbit a 7); [done|]. by rewrite Z.lxor_0_r. }
  rewrite !E, Z.lxor_spec, Z.shiftl_lxor.
  generalize (Z.shiftl b 1), (Z.shiftl c 1). intros x y.
  apply Z.bits_inj'. intros n Hn. rewrite !Z.lxor_spec.
  destruct (Z.testbit b 7), (Z.testbit c 7); simpl xorb;
    rewrite ?Z.bits_0; destruct (Z.testbit 285 n), (Z.testbit x n), (Z.testbit y n); done.
Qed.

Lemma xtime_0 : xtime 0 = 0.
Proof. done. Qed.

Lemma xtime_iter_lxor n b c :
  Nat.iter n xtime (Z.lxor b c) = Z.lxor (Nat.iter n xtime b) (Nat.iter n xtime c).
Proof. induction n as [|n IH]; [done|]. simpl. by rewrite IH, xtime_lxor. Qed.

Lemma xtime_iter_0 n : Nat.iter n xtime 0 = 0.
Proof. induction n as [|n IH]; [done|]. simpl. by rewrite IH. Qed.

(** ** Table checks *)

(** Each entry of [ctx_exps] doubles the one before it. *)
Fixpoint doubles (l : list Z) : bool :=
  match l with
  | a :: (b :: _) as t => (b =? xtime a) && doubles t
  | _ => true
  end.

Definition ctx_exps_doubles_chk : doubles ctx_exps = true := ltac:(compute_true).

Lemma doubles_nth l n :
  doubles l = true -> (S n < length l)%nat -> nth (S n) l 0 = xtime (nth n l 0).
Proof.
  revert n. induction l as [|a [|b l] IH]; intros n H Hn; simpl in Hn; [lia|lia|].
  change ((b =? xtime a) && doubles (b :: l) = true) in H.
  apply andb_prop in H as [->%Z.eqb_eq H].
  destruct n as [|n]; [done|]. apply (IH n H). simpl. lia.
Qed.

Lemma exp_succ i : 0 <= i < 509 -> exp (i + 1) = xtime (exp i).
Proof.
  intros H. unfold exp. replace (Z.to_nat (i + 1)) with (S (Z.to_nat i)) by lia.
  apply doubles_nth; [exact ctx_exps_doubles_chk|].
  change (length ctx_exps) with 510%nat. lia.
Qed.

Lemma exp_iter (n : nat) i :
  0 <= i -> i + Z.of_nat n <= 509 -> exp (i + Z.of_nat n) = Nat.iter n xtime (exp i).
Proof.
  intros Hi. induction n as [|n IH]; intros H; [by rewrite Z.add_0_r|].
  replace (i + Z.of_nat (S n)) with (i + Z.of_nat n + 1) by lia.
  rewrite exp_succ, IH by lia. done.
Qed.

(** [P k x] for every entry [x] at position [k] of a table. *)
Fixpoint entries (P : Z -> Z -> bool) (k : Z) (l : list Z) : bool :=
  match l with
  | [] => true
  | x :: l => P k x && entries P (k + 1) l
  end.

Lemma entries_nth P l k n :
  entries P k l = true -> (n < length l)%nat -> P (k + Z.of_nat n) (nth n l 0) = true.
Proof.
  revert k n. induction l as [|a l IH]; intros k n H Hn; simpl in *; [lia|].
  apply andb_prop in H as [Ha Hl]. destruct n as [|n]; [by rewrite Z.add_0_r|].
  replace (k + Z.of_nat (S n)) with (k + 1 + Z.of_nat n) by lia.
  apply IH; [done|lia].
Qed.

Definition ctx_logs_chk :
  entries (fun k x => (0 <=? x) && (x <? 255) && ((k =? 0) || (exp x =? k))) 0 ctx_logs = true
  := ltac:(compute_true).

Definition ctx_exps_chk :
  entries (fun k x => (0 <? x) && (x <? 256) && (log x =? k mod 255)) 0 ctx_exps = true
  := ltac:(compute_true).

Lemma log_range x : 0 <= x < 256 -> 0 <= log x < 255.
Proof.
  intros H.
  pose proof (entries_nth _ _ 0 (Z.to_nat x) ctx_logs_chk) as P.
  change (length ctx_logs) with 256%nat in P. specialize (P ltac:(lia)).
  rewrite Z.add_0_l, Z2Nat.id in P by lia. fold (log x) in P.
  destruct (Z.leb_spec 0 (log x)), (Z.ltb_spec (log x) 255); simpl in P; (done || lia).
Qed.

Lemma exp_log x : 0 < x < 256 -> exp (log x) = x.
Proof.
  intros H.
  pose proof (entries_nth _ _ 0 (Z.to_nat x) ctx_logs_chk) as P.
  change (length ctx_logs) with 256%nat in P. specialize (P ltac:(lia)).
  rewrite Z.add_0_l, Z2Nat.id in P by lia. fold (log x) in P.
  apply andb_prop in P as [_ P]. apply orb_prop in P as [P|P]; apply Z.eqb_eq in P; lia.
Qed.

Lemma exp_range i : 0 <= i < 510 -> 0 < exp i < 256.
Proof.
  intros H.
  pose proof (entries_nth _ _ 0 (Z.to_nat i) ctx_exps_chk) as P.
  change (length ctx_exps) with 510%nat in P. specialize (P ltac:(lia)).
  fold (exp i) in P. apply andb_prop in P as [P _].
  apply andb_prop in P as [P1%Z.ltb_lt P2%Z.ltb_lt]. lia.
Qed.

Lemma log_exp i : 0 <= i < 510 -> log (exp i) = i mod 255.
Proof.
  intros H.
  pose proof (entries_nth _ _ 0 (Z.to_nat i) ctx_exps_chk) as P.
  change (length ctx_exps) with 510%nat in P. specialize (P ltac:(lia)).
  rewrite Z.add_0_l, Z2Nat.id in P by lia. fold (exp i) in P.
  apply andb_prop in P as [_ P%Z.eqb_eq]. done.
Qed.

Lemma exp_mod i : 0 <= i < 510 -> exp (i mod 255) = exp i.
Proof.
  intros H. rewrite <- (log_exp i), exp_log; [done| |done]. by apply exp_range.
Qed.

(** ** The field laws of the product *)

Lemma gmul_byte a b : is_byte a -> is_byte b -> is_byte (gmul a b).
Proof.
  unfold is_byte, gmul. intros Ha Hb.
  destruct (Z.eqb_spec a 0), (Z.eqb_spec b 0); simpl; [lia..|].
  pose proof (log_range a Ha). pose proof (log_range b Hb).
  pose proof (exp_range (log a + log b)). lia.
Qed.

Lemma gmul_comm a b : gmul a b = gmul b a.
Proof. unfold gmul. by rewrite orb_comm, Z.add_comm. Qed.

Lemma gmul_0_l b : gmul 0 b = 0.
Proof. done. Qed.

Lemma gmul_1_l b : is_byte b -> gmul 1 b = b.
Proof.
  unfold is_byte, gmul. intros H. change (log 1) with 0.
  destruct (Z.eqb_spec b 0) as [->|Hb]; simpl; [done|]. apply exp_log. lia.
Qed.

(** The product by a nonzero byte is repeated doubling, hence linear. *)
Lemma gmul_iter a b :
  0 < a < 256 -> is_byte b -> gmul a b = Nat.iter (Z.to_nat (log a)) xtime b.
Proof.
  unfold is_byte, gmul. intros Ha Hb.
  destruct (Z.eqb_spec a 0); [lia|]. destruct (Z.eqb_spec b 0) as [->|Hnb]; simpl.
  - by rewrite xtime_iter_0.
  - pose proof (log_range a). pose proof (log_range b).
    rewrite <- (exp_log b) at 2 by lia. rewrite <- exp_iter by lia.
    f_equal. lia.
Qed.

Lemma lxor_byte a b : is_byte a -> is_byte b -> is_byte (Z.lxor a b).
Proof.
  unfold is_byte. intros Ha Hb. split; [apply Z.lxor_nonneg; lia|].
  destruct (Z.eqb_spec (Z.lxor a b) 0) as [->|Hne]; [lia|].
  apply (Z.log2_lt_pow2 (Z.lxor a b) 8).
  { assert (0 <= Z.lxor a b) by (apply Z.lxor_nonneg; lia). lia. }
  pose proof (Z.log2_lxor a b ltac:(lia) ltac:(lia)).
  assert (forall c, 0 <= c < 256 -> Z.log2 c < 8) as Hlog.
  { intros c Hc. destruct (Z.eqb_spec c 0) as [->|]; [done|].
    apply Z.log2_lt_pow2; simpl; lia. }
  pose proof (Hlog a Ha). pose proof (Hlog b Hb). lia.
Qed.

Lemma gmul_lxor_r a b c :
  is_byte a -> is_byte b -> is_byte c -> gmul a (Z.lxor b c) = Z.lxor (gmul a b) (gmul a c).
Proof.
  intros Ha Hb Hc. destruct (Z.eqb_spec a 0) as [->|Hne]; [done|].
  assert (0 < a < 256) as Ha' by (unfold is_byte in Ha; lia).
  pose proof (lxor_byte b c Hb Hc). rewrite !gmul_iter by done.
  apply xtime_iter_lxor.
Qed.

Lemma gmul_assoc a b c :
  is_byte a -> is_byte b -> is_byte c -> gmul a (gmul b c) = gmul (gmul a b) c.
Proof.
  unfold is_byte. intros Ha Hb Hc. unfold gmul.
  destruct (Z.eqb_spec a 0) as [->|Hna], (Z.eqb_spec b 0) as [->|Hnb],
    (Z.eqb_spec c 0) as [->|Hnc]; simpl; rewrite ?orb_true_r; try done.
  pose proof (log_range a Ha) as La. pose proof (log_range b Hb) as Lb.
  pose proof (log_range c Hc) as Lc.
  pose proof (exp_range (log a + log b) ltac:(lia)) as Eab.
  pose proof (exp_range (log b + log c) ltac:(lia)) as Ebc.
  simpl. destruct (Z.eqb_spec (exp (log b + log c)) 0); [lia|].
  destruct (Z.eqb_spec (exp (log a + log b)) 0); [lia|]. simpl.
  rewrite !log_exp by lia.
  pose proof (Z.mod_pos_bound (log b + log c) 255). pose proof (Z.mod_pos_bound (log a + log b) 255).
  rewrite <- (exp_mod (log a + (log b + log c) mod 255)) by lia.
  rewrite <- (exp_mod ((log a + log b) mod 255 + log c)) by lia.
  rewrite Zplus_mod_idemp_r, Zplus_mod_idemp_l. f_equal. f_equal. lia.
Qed.

Definition ginv (a : Z) : Z := if a =? 0 then 0 else exp (255 - log a).

Lemma ginv_byte a : is_byte a -> is_byte (ginv a).
Proof.
  unfold is_byte, ginv. intros Ha. destruct (Z.eqb_spec a 0); [lia|].
  pose proof (log_range a Ha). pose proof (exp_range (255 - log a)). lia.
Qed.

Lemma gmul_ginv_l a : is_byte a -> a <> 0 -> gmul (ginv a) a = 1.
Proof.
  unfold is_byte, ginv. intros Ha Hne. destruct (Z.eqb_spec a 0); [lia|].
  pose proof (log_range a Ha). pose proof (exp_range (255 - log a) ltac:(lia)).
  unfold gmul. destruct (Z.eqb_spec (exp (255 - log a)) 0); [lia|].
  destruct (Z.eqb_spec a 0); [lia|]. simpl. rewrite log_exp by lia.
  pose proof (Z.mod_pos_bound (255 - log a) 255).
  rewrite <- (exp_mod ((255 - log a) mod 255 + log a)) by lia.
  rewrite Zplus_mod_idemp_l. replace (255 - log a + log a) with 255 by lia. done.
Qed.

(** ** The field of bytes *)

Definition is_byteb (x : Z) : bool := (0 <=? x) && (x <? 256).

Lemma is_byteb_spec x : is_byteb x = true <-> is_byte x.
Proof. unfold is_byteb, is_byte. rewrite andb_true_iff, Z.leb_le, Z.ltb_lt. done. Qed.

Definition gf : Type := {x : Z | is_byteb x = true}.

Lemma gf_byte (a : gf) : is_byte (`a).
Proof. destruct a as [a Ha]. by apply is_byteb_spec. Qed.

Definition mkgf (x : Z) (H : is_byte x) : gf := exist _ x (proj2 (is_byteb_spec x) H).

Lemma gf_eq (a b : gf) : `a = `b -> a = b.
Proof.
  destruct a as [a Ha], b as [b Hb]. simpl. intros ->. f_equal.
  apply (Eqdep_dec.UIP_dec Bool.bool_dec).
Qed.

#[export] Instance gf_eq_dec : EqDecision gf.
Proof.
  intros a b. destruct (decide (`a = `b)) as [E|E].
  - left. by apply gf_eq.
  - right. congruence.
Defined.

Definition gf0 : gf := mkgf 0 ltac:(unfold is_byte; lia).
Definition gf1 : gf := mkgf 1 ltac:(unfold is_byte; lia).
Definition gfadd (a b : gf) : gf := mkgf (Z.lxor (`a) (`b)) (lxor_byte _ _ (gf_byte a) (gf_byte b)).
Definition gfmul (a b : gf) : gf := mkgf (gmul (`a) (`b)) (gmul_byte _ _ (gf_byte a) (gf_byte b)).
Definition gfinv (a : gf) : gf := mkgf (ginv (`a)) (ginv_byte _ (gf_byte a)).
Definition gfdiv (a b : gf) : gf := gfmul a (gfinv b).

Lemma gf_field :
  field_theory gf0 gf1 gfadd gfmul gfadd (fun a => a) gfdiv gfinv (@eq gf).
Proof.
  split; [split|..].
  - intros a. apply gf_eq. simpl. done.
  - intros a b. apply gf_eq. apply Z.lxor_comm.
  - intros a b c. apply gf_eq. simpl. by rewrite Z.lxor_assoc.
  - intros a. apply gf_eq. apply gmul_1_l, gf_byte.
  - intros a b. apply gf_eq. apply gmul_comm.
  - intros a b c. apply gf_eq. apply gmul_assoc; apply gf_byte.
  - intros a b c. apply gf_eq. simpl.
    rewrite !(gmul_comm _ (`c)). apply gmul_lxor_r; apply gf_byte.
  - done.
  - intros a. apply gf_eq. simpl. apply Z.lxor_nilpotent.
  - intros H. apply (f_equal proj1_sig) in H. done.
  - done.
  - intros a Ha. apply gf_eq. simpl. apply gmul_ginv_l; [apply gf_byte|].
    intros E. apply Ha. by apply gf_eq.
Qed.
