(* ===== verification/GFShare.v ===== *)
(** * GFShare: Shamir secret sharing over GF(256)

    Models [plugins/utils/libgfshare.c] (splitting, recombination, choice of
    share numbers) on the tables and the field of [GF256].  Memory blocks are
    lists of bytes and every access is bounds-checked ([None] on an access
    outside a block).  The fresh contents of [malloc]'d memory and the random
    bytes of [gfshare_fill_rand] are arguments. *)

From Stdlib Require Import Field.
From S2P Require Import Prelude GF256 Interp.

Record gfshare_ctx := mk_gfshare_ctx {
  sharecount : Z;
  threshold : Z;
  size : Z;
  buffersize : Z;
  sharenrs : list Z;
  buffer : list Z;
}.

#[export] Instance eta_gfshare_ctx : Eta gfshare_ctx := fun r =>
  mk_gfshare_ctx (sharecount r) (threshold r) (size r) (buffersize r) (sharenrs r) (buffer r).

(** [blank] is the indeterminate content of the block [malloc] returns: 255
    bytes of share numbers, then [threshold * size] bytes of buffer. *)
Definition _gfshare_ctx_init_core (blank : Z -> list Z) (nrs : list Z)
    (count thresh sz : Z) : option gfshare_ctx :=
  nrs' ← memcpy (blank 255) 0 nrs 0 count;
  Some (mk_gfshare_ctx count thresh sz (u32 (thresh * sz)) nrs' (blank (u32 (thresh * sz)))).

(** [Some None] is the [NULL] result. *)
Definition gfshare_ctx_init_enc (blank : Z -> list Z) (nrs : list Z)
    (count thresh sz : Z) : option (option gfshare_ctx) :=
  nz ← for_ (fun i bad => x ← aget nrs i; Some (bad || (x =? 0))) 0 (Z.to_nat count) false;
  if (nz : bool) then Some None
  else Some <$> _gfshare_ctx_init_core blank nrs count thresh sz.

(** The third argument of [_gfshare_ctx_init_core] is an [unsigned char]. *)
Definition gfshare_ctx_init_dec (blank : Z -> list Z) (nrs : list Z) (count sz : Z)
  : option gfshare_ctx :=
  ctx ← _gfshare_ctx_init_core blank nrs count (u8 count) sz;
  Some (ctx <| threshold := 0 |>).

Definition gfshare_ctx_enc_setsecret (rnd : list Z) (ctx : gfshare_ctx) (secret : list Z)
  : option gfshare_ctx :=
  let at_ := u32 ((threshold ctx - 1) * size ctx) in
  b ← memcpy (buffer ctx) at_ secret 0 (size ctx);
  b ← memcpy b 0 rnd 0 at_;
  Some (ctx <| buffer := b |>).

(** One row of Horner's rule: the share byte times the share number, plus the
    coefficient, [share] being the bytes from offset [base] of an array. *)
Definition horner_byte (ilog share_byte coef : Z) : option Z :=
  if share_byte =? 0 then Some (Z.lxor share_byte coef)
  else l ← aget ctx_logs share_byte;
       e ← aget ctx_exps (u32 (ilog + l));
       Some (Z.lxor e coef).

Definition calc_share (buf : list Z) (sz M ilog : Z) (share : list Z) (base : Z)
  : option (list Z) :=
  share ← for_ (fun pos share =>
            b ← aget buf pos;
            aset share (base + pos) b) 0 (Z.to_nat (u32 sz)) share;
  for_ (fun coefficient share =>
          for_ (fun pos share =>
                  b ← aget buf (coefficient * sz + pos);
                  share_byte ← aget share (base + pos);
                  r ← horner_byte ilog share_byte b;
                  aset share (base + pos) r) 0 (Z.to_nat (u32 sz)) share)
       1 (Z.to_nat (u32 M - 1)) share.

Definition gfshare_ctx_enc_getshare (ctx : gfshare_ctx) (sharenr : Z) (share : list Z)
  : option (list Z) :=
  x ← aget (sharenrs ctx) sharenr;
  ilog ← aget ctx_logs x;
  calc_share (buffer ctx) (size ctx) (threshold ctx) ilog share 0.

Definition calc_shares (rnd shares secret : list Z) (sz width M N : Z) (nrs : list Z)
  : option (list Z) :=
  let buf := replicate (Z.to_nat (M * width)) 0 in
  shares ← memset shares 0 0 (N * width);
  buf ← memcpy buf ((M - 1) * sz) secret 0 sz;
  buf ← memcpy buf 0 rnd 0 ((M - 1) * sz);
  for_ (fun i shares =>
          x ← aget nrs i;
          ilog ← aget ctx_logs x;
          calc_share buf sz M ilog shares (i * width)) 0 (Z.to_nat N) shares.

Definition gfshare_ctx_dec_newshares (ctx : gfshare_ctx) (nrs : list Z) : option gfshare_ctx :=
  nrs' ← memcpy (sharenrs ctx) 0 nrs 0 (sharecount ctx);
  Some (ctx <| sharenrs := nrs' |>).

Definition gfshare_ctx_dec_giveshare (ctx : gfshare_ctx) (sharenr : Z) (share : list Z) (soff : Z)
  : option gfshare_ctx :=
  b ← memcpy (buffer ctx) (u32 (sharenr * size ctx)) share soff (size ctx);
  Some (ctx <| buffer := b |>).

(** [Li_top += ...; if ( Li_top >= 0xff ) Li_top -= 0xff;] *)
Definition logadd (acc l : Z) : Z :=
  let a := u32 (acc + l) in if 255 <=? a then a - 255 else a.

(** The inner loop over [j]: logarithms of numerator and denominator of L(i). *)
Definition extract_logs (nrs : list Z) (N i sharei : Z) : option (Z * Z) :=
  for_ (fun j '(Li_top, Li_bottom) =>
          if i =? j then Some (Li_top, Li_bottom)
          else sharej ← aget nrs j;
               if sharej =? 0 then Some (Li_top, Li_bottom)
               else lt ← aget ctx_logs sharej;
                    lb ← aget ctx_logs (Z.lxor sharei sharej);
                    Some (logadd Li_top lt, logadd Li_bottom lb)) 0 (Z.to_nat (u32 N)) (0, 0).

Definition gfshare_extract (secretbuf nrs : list Z) (N : Z) (buf : list Z) (sz width : Z)
  : option (list Z) :=
  secretbuf ← memset secretbuf 0 0 width;
  for_ (fun i secretbuf =>
          sharei ← aget nrs i;
          if sharei =? 0 then Some secretbuf
          else '(Li_top, Li_bottom) ← extract_logs nrs N i sharei;
               let Li_top := if Li_top <? Li_bottom then u32 (Li_top + 255) else Li_top in
               let Li_top := u32 (Li_top - Li_bottom) in
               for_ (fun j secretbuf =>
                       b ← aget buf (u32 (width * i) + j);
                       s ← aget secretbuf j;
                       if b =? 0 then Some secretbuf
                       else l ← aget ctx_logs b;
                            e ← aget ctx_exps (u32 (Li_top + l));
                            aset secretbuf j (Z.lxor s e)) 0 (Z.to_nat (u32 sz)) secretbuf)
       0 (Z.to_nat (u32 N)) secretbuf.

Definition gfshare_ctx_dec_extract (ctx : gfshare_ctx) (secretbuf : list Z) : option (list Z) :=
  gfshare_extract secretbuf (sharenrs ctx) (sharecount ctx) (buffer ctx) (size ctx) (size ctx).

(** Drawing without replacement from the first [remains] entries of [valid]. *)
Definition draw_one (r i : Z) (st : list Z * list Z * Z) : option (list Z * list Z * Z) :=
  let '(nrs, valid, remains) := st in
  x ← aget valid r;
  nrs ← aset nrs i x;
  y ← aget valid (remains - 1);
  valid ← aset valid r y;
  Some (nrs, valid, remains - 1).

Definition has_dup (nrs : list Z) (m : Z) : option bool :=
  for_ (fun i d =>
    for_ (fun j d =>
      if i =? j then Some d
      else x ← aget nrs i; y ← aget nrs j;
           Some (d || (negb (x =? 0) && (x =? y)))) 0 (Z.to_nat m) d)
    0 (Z.to_nat m) false.

(** [orig] is only tested against the null pointer; [rands] are the successive
    results of [rand()], [junk] the initial content of [valid].  The result is
    the share numbers and the return code. *)
Definition init_sharenrs (randvals rands junk nrs : list Z) (orig : option (list Z)) (m n : Z)
  : option (list Z * Z) :=
  if (n <? m) || (255 <=? n) then Some (nrs, -1)
  else
    nrs ← memset nrs 0 0 n;
    '(nrs, remains, orign) ←
      (if match orig with None => n =? m | Some _ => false end then
         let valid := (fun i => Z.of_nat i + 1) <$> seq 0 255 in
         '(nrs, _, remains) ←
           for_ (fun i '(nrs, valid, remains) =>
                   v ← aget randvals i;
                   draw_one (Z.rem v remains) i (nrs, valid, remains))
                0 (Z.to_nat n) (nrs, valid, 255);
         Some (nrs, remains, 255)
       else
         valid ← memcpy junk 0 nrs 0 n;
         nrs ← memset nrs 0 0 n;
         '(nrs, _, remains) ←
           for_ (fun i '(nrs, valid, remains) =>
                   v ← aget rands i;
                   draw_one (Z.rem (Z.shiftr v 8) remains) i (nrs, valid, remains))
                0 (Z.to_nat m) (nrs, valid, n);
         Some (nrs, remains, n));
    if negb (remains =? orign - m) then Some (nrs, -1)
    else d ← has_dup nrs m;
         Some (nrs, if (d : bool) then -1 else 0).

(** ** Splitting *)

(** The coefficients at byte position [pos], row by row. *)
Definition column (buf : list Z) (sz : Z) (M : nat) (pos : Z) : list Z :=
  (fun k => nth (Z.to_nat (Z.of_nat k * sz + pos)) buf 0) <$> seq 0 M.

(** Horner's rule over a column, the leading coefficient first. *)
Definition horner (x : Z) (col : list Z) : Z :=
  foldl (fun acc c => Z.lxor (gmul x acc) c) 0 col.

Lemma column_S buf sz M pos :
  column buf sz (S M) pos =
    column buf sz M pos ++ [nth (Z.to_nat (Z.of_nat M * sz + pos)) buf 0].
Proof. unfold column. by rewrite seq_S, fmap_app. Qed.

Lemma nth_byte l i : bytes l -> is_byte (nth i l 0).
Proof.
  intros H. rewrite nth_lookup. destruct (l !! i) as [x|] eqn:E; simpl.
  - by apply (Forall_lookup_1 _ _ _ _ H E).
  - unfold is_byte. lia.
Qed.

Lemma column_bytes buf sz M pos : bytes buf -> bytes (column buf sz M pos).
Proof.
  intros H. apply Forall_fmap, Forall_true. intros k. by apply nth_byte.
Qed.

Lemma foldl_byte x col acc :
  is_byte x -> is_byte acc -> bytes col ->
  is_byte (foldl (fun acc c => Z.lxor (gmul x acc) c) acc col).
Proof.
  intros Hx Ha Hc. revert acc Ha. induction Hc as [|c col Hc Hcol IH]; intros acc Ha; [done|].
  simpl. apply IH, lxor_byte; [|done]. by apply gmul_byte.
Qed.

Lemma byte_0 : is_byte 0.
Proof. unfold is_byte. lia. Qed.

Lemma horner_range x col : is_byte x -> bytes col -> is_byte (horner x col).
Proof. intros Hx Hc. apply foldl_byte; [done|apply byte_0|done]. Qed.

Lemma aget_logs b : is_byte b -> aget ctx_logs b = Some (log b).
Proof. intros H. apply aget_nth. unfold is_byte in H. change (length ctx_logs) with 256%nat. lia. Qed.

Lemma aget_exps i : 0 <= i < 510 -> aget ctx_exps i = Some (exp i).
Proof. intros H. apply aget_nth. change (length ctx_exps) with 510%nat. lia. Qed.

Lemma horner_byte_spec x b c :
  is_byte x -> x <> 0 -> is_byte b ->
  horner_byte (log x) b c = Some (Z.lxor (gmul x b) c).
Proof.
  intros Hx Hx0 Hb. unfold horner_byte, gmul.
  destruct (Z.eqb_spec x 0); [lia|]. destruct (Z.eqb_spec b 0) as [->|]; simpl; [done|].
  rewrite aget_logs by done. simpl.
  pose proof (log_range x Hx). pose proof (log_range b Hb).
  rewrite u32_small by lia. by rewrite aget_exps by lia.
Qed.

(** [calc_share] stays within its arrays and writes, at each position, the value
    of the column's polynomial at the share number. *)
Lemma calc_share_spec buf sz M x share base :
  0 < M < 2147483648 -> 0 <= sz < 2147483648 -> M * sz <= Z.of_nat (length buf) ->
  bytes buf -> is_byte x -> x <> 0 -> 0 <= base -> base + sz <= Z.of_nat (length share) ->
  exists share', calc_share buf sz M (log x) share base = Some share' /\
    length share' = length share /\
    forall j, share' !! j =
      if decide (base <= Z.of_nat j < base + sz)
      then Some (horner x (column buf sz (Z.to_nat M) (Z.of_nat j - base))) else share !! j.
Proof.
  intros HM Hsz Hbuf Hb Hx Hx0 Hbase Hlen. unfold calc_share.
  rewrite !u32_small by lia.
  destruct (for_update
    (fun pos share => b ← aget buf pos; aset share (base + pos) b)
    (fun pos _ => nth (Z.to_nat pos) buf 0) base (Z.to_nat sz) share) as (s1 & E1 & L1 & S1);
    [lia|lia| |].
  { intros k t y Hk _ _ _. rewrite (aget_nth _ _ 0) by nia. done. }
  rewrite E1. change (Some s1 ≫= ?f) with (f s1). cbv beta.
  destruct (for_inv (fun k t => length t = length share /\
    forall j, t !! j = if decide (base <= Z.of_nat j < base + sz)
      then Some (horner x (column buf sz (Z.to_nat k) (Z.of_nat j - base))) else share !! j)
    (fun coefficient share =>
          for_ (fun pos share =>
                  b ← aget buf (coefficient * sz + pos);
                  share_byte ← aget share (base + pos);
                  r ← horner_byte (log x) share_byte b;
                  aset share (base + pos) r) 0 (Z.to_nat sz) share)
    (Z.to_nat (M - 1)) 1 s1) as (s2 & E2 & L2 & S2).
  - split; [done|]. intros j. rewrite S1, !Z2Nat.id by lia. case_decide; [|done].
    destruct (lookup_lt_is_Some_2 share j) as [y ->]; [lia|]. simpl. f_equal.
    replace (0 * sz + (Z.of_nat j - base)) with (Z.of_nat j - base) by lia.
    change (nth (Z.to_nat (Z.of_nat j - base)) buf 0 = Z.lxor (gmul x 0) (nth (Z.to_nat (0 + (Z.of_nat j - base))) buf 0)).
    by rewrite gmul_comm, gmul_0_l, Z.lxor_0_l.
  - intros k t Hk [Lt St].
    destruct (for_update (fun pos share =>
                  b ← aget buf (k * sz + pos);
                  share_byte ← aget share (base + pos);
                  r ← horner_byte (log x) share_byte b;
                  aset share (base + pos) r)
       (fun pos b => Z.lxor (gmul x b) (nth (Z.to_nat (k * sz + pos)) buf 0))
       base (Z.to_nat sz) t) as (s2 & E2 & L2 & S2); [lia|lia| |].
    { intros p t' y Hp _ Hy Hy'.
      assert (0 <= (M - 1 - k) * sz) by (apply Z.mul_nonneg_nonneg; lia).
      assert (0 <= k * sz) by (apply Z.mul_nonneg_nonneg; lia).
      assert (0 <= k * sz + p < Z.of_nat (length buf)) by lia. rewrite (aget_nth buf _ 0) by lia. simpl.
      rewrite (proj2 (aget_Some t' (base + p) y)) by (split; [lia|done]). simpl.
      rewrite St, decide_True in Hy by lia. simplify_eq.
      rewrite horner_byte_spec; [done..|].
      apply horner_range; [done|]. by apply column_bytes. }
    exists s2. split; [done|]. split; [congruence|].
    intros j. rewrite S2, !Z2Nat.id, St by lia. case_decide; [|done]. simpl. f_equal.
    replace (Z.to_nat (k + 1)) with (S (Z.to_nat k)) by lia.
    rewrite column_S. unfold horner. rewrite foldl_app. simpl.
    by rewrite Z2Nat.id by lia.
  - exists s2. replace (1 + Z.of_nat (Z.to_nat (M - 1))) with M in S2 by lia. done.
Qed.

Lemma memcpy_bytes_window dst off src soff n dst' :
  bytes dst -> bytes (take (Z.to_nat n) (drop (Z.to_nat soff) src)) ->
  memcpy dst off src soff n = Some dst' -> bytes dst'.
Proof.
  unfold memcpy, bytes. intros Hd Hs. case_match; [done|]. intros [= <-].
  repeat apply Forall_app_2; auto using Forall_take, Forall_drop.
Qed.

Lemma memcpy_bytes dst off src soff n dst' :
  bytes dst -> bytes src -> memcpy dst off src soff n = Some dst' -> bytes dst'.
Proof.
  intros Hd Hs. apply memcpy_bytes_window; [done|]. by apply Forall_take, Forall_drop.
Qed.

Lemma bytes_replicate_0 n : bytes (replicate n 0).
Proof. apply Forall_replicate, byte_0. Qed.

(** The polynomial buffer: random rows, then the secret. *)
Lemma share_buffer_spec buf0 rnd secret sz M :
  0 < M -> 0 <= sz -> M * sz <= Z.of_nat (length buf0) ->
  (M - 1) * sz <= Z.of_nat (length rnd) -> sz <= Z.of_nat (length secret) ->
  bytes buf0 -> bytes rnd -> bytes secret ->
  exists buf1 buf, memcpy buf0 ((M - 1) * sz) secret 0 sz = Some buf1 /\
    memcpy buf1 0 rnd 0 ((M - 1) * sz) = Some buf /\
    length buf = length buf0 /\ bytes buf /\
    forall pos, 0 <= pos < sz -> nth (Z.to_nat ((M - 1) * sz + pos)) buf 0
                                 = nth (Z.to_nat pos) secret 0.
Proof.
  intros HM Hsz Hb Hr Hs B0 Br Bs.
  assert (0 <= (M - 1) * sz) by (apply Z.mul_nonneg_nonneg; lia).
  destruct (memcpy_in_range buf0 ((M - 1) * sz) secret 0 sz) as (b1 & E1 & L1 & S1); [lia..|].
  destruct (memcpy_in_range b1 0 rnd 0 ((M - 1) * sz)) as (b2 & E2 & L2 & S2); [lia..|].
  exists b1, b2. split; [done|]. split; [done|]. split; [lia|].
  split; [eauto using memcpy_bytes|].
  intros pos Hpos. rewrite !nth_lookup, S2, decide_False, S1, decide_True by lia.
  do 3 f_equal. lia.
Qed.

(** What splitting promises: one buffer whose last row is the secret, and every
    share the values of the buffer's polynomials at its share number. *)
Definition shares_of (buf secret shares nrs : list Z) (sz width M N : Z) : Prop :=
  bytes buf /\
  (forall pos, 0 <= pos < sz ->
     nth (Z.to_nat ((M - 1) * sz + pos)) buf 0 = nth (Z.to_nat pos) secret 0) /\
  (forall i x pos, 0 <= i < N -> nrs !! Z.to_nat i = Some x -> 0 <= pos < sz ->
     shares !! Z.to_nat (i * width + pos) = Some (horner x (column buf sz (Z.to_nat M) pos))).

Definition good_nr (x : Z) : Prop := is_byte x /\ x <> 0.

#[export] Instance good_nr_dec x : Decision (good_nr x).
Proof. unfold good_nr. apply _. Defined.

Lemma calc_shares_spec rnd shares secret sz width M N nrs :
  0 < M < 2147483648 -> 0 <= sz <= width -> width < 2147483648 -> 0 <= N ->
  N * width <= Z.of_nat (length shares) ->
  (M - 1) * sz <= Z.of_nat (length rnd) -> sz <= Z.of_nat (length secret) ->
  bytes rnd -> bytes secret ->
  N <= Z.of_nat (length nrs) -> Forall good_nr (take (Z.to_nat N) nrs) ->
  exists buf shares', calc_shares rnd shares secret sz width M N nrs = Some shares' /\
    length shares' = length shares /\ shares_of buf secret shares' nrs sz width M N.
Proof.
  intros HM Hsz Hw HN Hsh Hr Hs Br Bs Hnl Hnrs. unfold calc_shares, memset.
  assert (0 <= N * width) by (apply Z.mul_nonneg_nonneg; lia).
  destruct (memcpy_in_range shares 0 (replicate (Z.to_nat (N * width)) 0) 0 (N * width))
    as (s0 & E0 & L0 & _); [lia|lia|lia|lia|rewrite length_replicate; lia|].
  assert (M * sz <= M * width) by (apply Z.mul_le_mono_nonneg_l; lia).
  destruct (share_buffer_spec (replicate (Z.to_nat (M * width)) 0) rnd secret sz M)
    as (b1 & buf & E1 & E2 & L2 & B2 & T2);
    [lia|lia|rewrite length_replicate; lia|lia|lia|apply bytes_replicate_0|done..|].
  rewrite E0. cbn [mbind option_bind]. rewrite E1. cbn [mbind option_bind]. rewrite E2.
  cbn [mbind option_bind].
  destruct (for_inv (fun k t => length t = length shares /\
    forall i x pos, 0 <= i < k -> nrs !! Z.to_nat i = Some x -> 0 <= pos < sz ->
      t !! Z.to_nat (i * width + pos) = Some (horner x (column buf sz (Z.to_nat M) pos)))
    (fun i shares => x ← aget nrs i; ilog ← aget ctx_logs x;
          calc_share buf sz M ilog shares (i * width)) (Z.to_nat N) 0 s0)
    as (s2 & E3 & L3 & S3).
  - split; [lia|]. intros; lia.
  - intros k t Hk [Lt St].
    destruct (lookup_lt_is_Some_2 nrs (Z.to_nat k)) as [x Hx]; [lia|].
    assert (good_nr x) as [Bx Nx].
    { eapply (Forall_lookup_1 _ _ (Z.to_nat k)); [exact Hnrs|]. rewrite lookup_take_lt by lia. done. }
    rewrite (proj2 (aget_Some nrs k x)) by (split; [lia|done]). simpl.
    rewrite aget_logs by done. simpl.
    assert (0 <= k * width) by (apply Z.mul_nonneg_nonneg; lia).
    assert ((k + 1) * width <= N * width) by (apply Z.mul_le_mono_nonneg_r; lia).
    destruct (calc_share_spec buf sz M x t (k * width)) as (t' & E' & L' & S');
      [lia|lia|rewrite L2, length_replicate; lia|done|done|done|lia|lia|].
    exists t'. split; [done|]. split; [lia|].
    intros i y pos Hi Hy Hp. rewrite S'. destruct (decide (i = k)) as [->|Hne].
    + rewrite decide_True by lia. simplify_eq. do 3 f_equal. lia.
    + assert ((i + 1) * width <= k * width) by (apply Z.mul_le_mono_nonneg_r; lia).
      assert (0 <= i * width) by (apply Z.mul_nonneg_nonneg; lia).
      rewrite decide_False by lia. apply St; (done || lia).
  - exists buf, s2. split; [done|]. split; [done|]. split; [done|]. split; [done|].
    intros i x pos Hi. apply S3. lia.
Qed.

(** ** Recombination *)

Definition gfz (x : Z) : gf := mkgf (u8 x) (u8_range x).

Lemma gfz_byte x : is_byte x -> proj1_sig (gfz x) = x.
Proof. intros H. apply u8_small, H. Qed.

Lemma gfz_inj x y : is_byte x -> is_byte y -> gfz x = gfz y -> x = y.
Proof. intros Hx Hy E. by rewrite <- (gfz_byte x), <- (gfz_byte y), E. Qed.

Lemma gfz_lxor x y : is_byte x -> is_byte y -> gfz (Z.lxor x y) = gfadd (gfz x) (gfz y).
Proof. intros Hx Hy. apply gf_eq. simpl. rewrite !u8_small; [done|done|done|by apply lxor_byte]. Qed.

Lemma gfz_gmul x y : is_byte x -> is_byte y -> gfz (gmul x y) = gfmul (gfz x) (gfz y).
Proof. intros Hx Hy. apply gf_eq. simpl. rewrite !u8_small; [done|done|done|by apply gmul_byte]. Qed.

Abbreviation geval := (eval (f0:=gf0) (fadd:=gfadd) (fmul:=gfmul)).
Abbreviation glbasis := (lbasis (f1:=gf1) (fmul:=gfmul) (fsub:=gfadd) (fdiv:=gfdiv)).
Abbreviation glagrange := (lagrange (f0:=gf0) (f1:=gf1) (fadd:=gfadd) (fmul:=gfmul) (fsub:=gfadd) (fdiv:=gfdiv)).

Lemma horner_eval x col :
  is_byte x -> bytes col -> gfz (horner x col) = geval (gfz <$> reverse col) (gfz x).
Proof.
  intros Hx. induction col as [|c col IH] using rev_ind; intros Hc.
  - by apply gf_eq.
  - apply Forall_app in Hc as [Hc Hc1]. rewrite Forall_singleton in Hc1.
    unfold horner. rewrite foldl_app. change (gfz (Z.lxor (gmul x (horner x col)) c) = geval (gfz <$> reverse (col ++ [c])) (gfz x)).
    rewrite reverse_snoc, fmap_cons, (eval_snoc gf_field), <- IH by done.
    pose proof (horner_range x col Hx Hc).
    rewrite gfz_lxor, gfz_gmul; auto using gmul_byte.
Qed.

Lemma logadd_spec t l : 0 <= t < 255 -> 0 <= l < 255 ->
  0 <= logadd t l < 255 /\ exp (logadd t l) = gmul (exp t) (exp l).
Proof.
  intros Ht Hl. unfold logadd, gmul. rewrite u32_small by lia.
  pose proof (exp_range t). pose proof (exp_range l).
  destruct (Z.eqb_spec (exp t) 0), (Z.eqb_spec (exp l) 0); try lia. simpl.
  rewrite !log_exp, !Z.mod_small by lia.
  destruct (Z.leb_spec 255 (t + l)); split; try lia.
  rewrite <- (exp_mod (t + l)) by lia. f_equal.
  rewrite (Z.mod_eq (t + l) 255) by lia.
  replace ((t + l) / 255) with 1; [lia|]. apply Z.div_unique with (t + l - 255); lia.
Qed.

Definition gexp (t : Z) : gf := gfz (exp t).

Lemma gexp_nonzero t : 0 <= t < 510 -> gexp t <> gf0.
Proof.
  intros H E. pose proof (exp_range t H). apply (f_equal proj1_sig) in E.
  unfold gexp in E. rewrite gfz_byte in E by (unfold is_byte; lia). simpl in E. lia.
Qed.

Lemma gexp_logadd t l : 0 <= t < 255 -> 0 <= l < 255 ->
  gexp (logadd t l) = gfmul (gexp t) (gexp l).
Proof.
  intros Ht Hl. destruct (logadd_spec t l Ht Hl) as [_ E]. unfold gexp. rewrite E.
  pose proof (exp_range t). pose proof (exp_range l).
  apply gfz_gmul; unfold is_byte; lia.
Qed.

Lemma gexp_log x : good_nr x -> gexp (log x) = gfz x.
Proof. intros [Hx Hx0]. unfold gexp. rewrite exp_log; [done|]. unfold is_byte in Hx. lia. Qed.

Add Field gf_field_tac : gf_field.

Lemma gexp_quot t b : 0 <= t < 255 -> 0 <= b < 255 ->
  let d := u32 ((if t <? b then u32 (t + 255) else t) - b) in
  0 <= d < 255 /\ gexp d = gfdiv (gexp t) (gexp b).
Proof.
  intros Ht Hb d.
  assert (0 <= d < 255 /\ logadd d b = t) as [Hd E].
  { subst d. destruct (Z.ltb_spec t b).
    - rewrite (u32_small (t + 255)), u32_small by lia. split; [lia|].
      unfold logadd. rewrite u32_small by lia. destruct (Z.leb_spec 255 (t + 255 - b + b)); lia.
    - rewrite u32_small by lia. split; [lia|].
      unfold logadd. rewrite u32_small by lia. destruct (Z.leb_spec 255 (t - b + b)); lia. }
  split; [done|]. rewrite <- E, gexp_logadd by lia.
  field. apply gexp_nonzero. lia.
Qed.

(** The share numbers actually provided among the first [k]. *)
Definition points (nrs : list Z) (k : nat) : list Z := filter (fun x => x <> 0) (take k nrs).

Lemma points_S nrs k x : nrs !! k = Some x ->
  points nrs (S k) = points nrs k ++ (if decide (x = 0) then [] else [x]).
Proof.
  intros H. unfold points. rewrite (take_S_r _ _ _ H), list.filter_app. f_equal.
  destruct (decide (x = 0)) as [->|Hx].
  - by rewrite filter_cons_False by tauto.
  - by rewrite filter_cons_True by done.
Qed.

Lemma points_good nrs k x : bytes nrs -> x ∈ points nrs k -> good_nr x.
Proof.
  intros Hb [Hx0 Hx]%list_elem_of_filter. apply elem_of_take in Hx as (i & Hx & _).
  split; [|done]. by apply (Forall_lookup_1 _ _ _ _ Hb Hx).
Qed.

Lemma points_lt nrs n (i k : nat) x y : NoDup (points nrs n) -> (i < k < n)%nat ->
  nrs !! i = Some x -> x <> 0 -> nrs !! k = Some y -> y <> 0 -> x <> y.
Proof.
  intros Hnd Hik Hx Hx0 Hy Hy0 ->.
  assert (NoDup (points nrs (S k))) as Hk.
  { unfold points in *. replace (take n nrs) with (take (S k) nrs ++ drop (S k) (take n nrs)) in Hnd.
    - rewrite list.filter_app in Hnd. by apply list.NoDup_app in Hnd as [? _].
    - rewrite <- (take_drop (S k) (take n nrs)) at 2. f_equal. rewrite take_take. f_equal. lia. }
  rewrite (points_S _ _ _ Hy), decide_False in Hk by done.
  apply list.NoDup_app in Hk as (_ & Hk & _). apply (Hk y); [|by left].
  unfold points. apply list_elem_of_filter. split; [done|].
  apply elem_of_take. exists i. split; [done|lia].
Qed.

Lemma points_distinct nrs n (i k : nat) x y : NoDup (points nrs n) -> (i < n)%nat -> (k < n)%nat ->
  i <> k -> nrs !! i = Some x -> x <> 0 -> nrs !! k = Some y -> y <> 0 -> x <> y.
Proof.
  intros Hnd Hi Hk Hne Hx Hx0 Hy Hy0.
  destruct (decide (i < k)%nat); [eapply points_lt|apply not_eq_sym; eapply points_lt]; eauto; lia.
Qed.

Lemma extract_logs_spec nrs N i xi :
  0 <= N < 4294967296 -> N <= Z.of_nat (length nrs) ->
  bytes nrs -> 0 <= i < N -> nrs !! Z.to_nat i = Some xi -> xi <> 0 ->
  NoDup (points nrs (Z.to_nat N)) ->
  exists t b, extract_logs nrs N i xi = Some (t, b) /\ 0 <= t < 255 /\ 0 <= b < 255 /\
    gfdiv (gexp t) (gexp b) = glbasis (gfz <$> points nrs (Z.to_nat N)) (gfz xi) gf0.
Proof.
  intros HN Hlen Hb Hi Hxi Hxi0 Hnd. unfold extract_logs. rewrite u32_small by lia.
  destruct (for_inv (fun k '(t, b) => 0 <= t < 255 /\ 0 <= b < 255 /\
     gfdiv (gexp t) (gexp b) = glbasis (gfz <$> points nrs (Z.to_nat k)) (gfz xi) gf0)
    (fun j '(Li_top, Li_bottom) =>
          if i =? j then Some (Li_top, Li_bottom)
          else sharej ← aget nrs j;
               if sharej =? 0 then Some (Li_top, Li_bottom)
               else lt ← aget ctx_logs sharej;
                    lb ← aget ctx_logs (Z.lxor xi sharej);
                    Some (logadd Li_top lt, logadd Li_bottom lb)) (Z.to_nat N) 0 (0, 0))
    as ([t b] & E & H); [| |exists t, b; split; [done|]; by rewrite Z2Nat.id in H by lia].
  - split; [lia|]. split; [lia|]. by apply gf_eq.
  - intros k [t b] Hk (Ht & Hb' & Hq).
    destruct (lookup_lt_is_Some_2 nrs (Z.to_nat k)) as [xk Hxk]; [lia|].
    assert (is_byte xi) as Bi by by apply (Forall_lookup_1 _ _ _ _ Hb Hxi).
    assert (is_byte xk) as Bk by by apply (Forall_lookup_1 _ _ _ _ Hb Hxk).
    replace (Z.to_nat (k + 1)) with (S (Z.to_nat k)) by lia.
    rewrite (points_S _ _ _ Hxk), fmap_app.
    destruct (Z.eqb_spec i k) as [->|Hne].
    + exists (t, b). split; [done|]. simplify_eq. rewrite decide_False by done.
      split; [done|]. split; [done|]. simpl. rewrite (lbasis_snoc gf_field).
      by rewrite decide_True by done.
    + rewrite (proj2 (aget_Some nrs k xk)) by (split; [lia|done]). simpl.
      destruct (Z.eqb_spec xk 0) as [->|Hk0].
      { exists (t, b). split; [done|]. rewrite decide_True by done. by rewrite app_nil_r. }
      rewrite decide_False by done.
      assert (xk <> xi) as Hd by (apply (points_distinct nrs (Z.to_nat N) (Z.to_nat k) (Z.to_nat i)); (done || lia)).
      assert (good_nr (Z.lxor xi xk)) as Gx.
      { split; [by apply lxor_byte|]. intros E%Z.lxor_eq. congruence. }
      rewrite !aget_logs by first [done|apply Gx]. simpl.
      pose proof (log_range xk Bk). pose proof (log_range _ (proj1 Gx)).
      destruct (logadd_spec t (log xk)) as [Rt _]; [lia..|].
      destruct (logadd_spec b (log (Z.lxor xi xk))) as [Rb _]; [lia..|].
      eexists (_, _). split; [reflexivity|]. split; [done|]. split; [done|].
      rewrite !gexp_logadd, !gexp_log, gfz_lxor by done.
      simpl. rewrite (lbasis_snoc gf_field), decide_False, <- Hq
        by (intros E; apply Hd, gfz_inj; done).
      assert (gfadd (gfz xi) (gfz xk) <> gf0) as Hs.
      { rewrite <- gfz_lxor, <- gexp_log by done.
        apply gexp_nonzero. lia. }
      pose proof (gexp_nonzero b).
      field. split; [apply H1; lia|done].
Qed.

(** One share's contribution to the secret, byte by byte. *)
Lemma extract_row_spec buf off sz d secretbuf :
  0 <= off -> 0 <= sz < 4294967296 -> off + sz <= Z.of_nat (length buf) ->
  sz <= Z.of_nat (length secretbuf) -> bytes buf -> 0 <= d < 255 ->
  exists secretbuf',
    for_ (fun j secretbuf =>
            b ← aget buf (off + j);
            s ← aget secretbuf j;
            if b =? 0 then Some secretbuf
            else l ← aget ctx_logs b;
                 e ← aget ctx_exps (u32 (d + l));
                 aset secretbuf j (Z.lxor s e)) 0 (Z.to_nat (u32 sz)) secretbuf
      = Some secretbuf' /\ length secretbuf' = length secretbuf /\
    forall j, secretbuf' !! j =
      if decide (Z.of_nat j < sz)
      then (fun s => Z.lxor s (gmul (exp d) (nth (Z.to_nat (off + Z.of_nat j)) buf 0)))
             <$> secretbuf !! j
      else secretbuf !! j.
Proof.
  intros Hoff Hsz Hbuf Hs Bb Hd. rewrite u32_small by lia.
  destruct (for_update (fun j secretbuf =>
            b ← aget buf (off + j);
            s ← aget secretbuf j;
            if b =? 0 then Some secretbuf
            else l ← aget ctx_logs b;
                 e ← aget ctx_exps (u32 (d + l));
                 aset secretbuf j (Z.lxor s e))
     (fun j s => Z.lxor s (gmul (exp d) (nth (Z.to_nat (off + j)) buf 0)))
     0 (Z.to_nat sz) secretbuf) as (s' & E & L & H); [lia|lia| |].
  - intros k t x Hk Ht _ Hx. simpl in Hx.
    rewrite (aget_nth buf _ 0) by lia. simpl.
    rewrite (proj2 (aget_Some t k x)) by (split; [lia|done]). simpl.
    pose proof (nth_byte buf (Z.to_nat (off + k)) Bb) as Hb.
    set (b := nth _ _ _) in *. destruct (Z.eqb_spec b 0) as [E|Hb0].
    + rewrite E, gmul_comm, gmul_0_l, Z.lxor_0_r.
      rewrite aset_in_range by lia. rewrite list_insert_id by done. done.
    + rewrite aget_logs by done. simpl. pose proof (log_range b Hb).
      rewrite u32_small, aget_exps by lia. simpl. do 2 f_equal.
      unfold gmul. pose proof (exp_range d).
      destruct (Z.eqb_spec (exp d) 0), (Z.eqb_spec b 0); try lia. simpl.
      by rewrite log_exp, Z.mod_small by lia.
  - exists s'. split; [done|]. split; [done|]. intros j. rewrite H.
    destruct (decide (Z.of_nat j < sz)).
    + rewrite decide_True, Z.sub_0_r by lia. done.
    + by rewrite decide_False by lia.
Qed.

(** The rows [buf] holds are values of the polynomials [polys] at the share
    numbers provided. *)
Definition rows_ok (nrs buf : list Z) (polys : Z -> list gf) (sz N : Z) : Prop :=
  forall i x j, 0 <= i < N -> nrs !! Z.to_nat i = Some x -> x <> 0 -> 0 <= j < sz ->
    gfz (nth (Z.to_nat (sz * i + j)) buf 0) = geval (polys j) (gfz x).

(** [gfshare_extract] computes the constant coefficient of every polynomial
    whose degree is below the number of shares provided. *)
Lemma gfshare_extract_spec secretbuf nrs N buf sz polys :
  0 <= N < 4294967296 -> N <= Z.of_nat (length nrs) -> bytes nrs -> bytes buf ->
  NoDup (points nrs (Z.to_nat N)) ->
  0 <= sz -> sz * N < 4294967296 -> sz * N <= Z.of_nat (length buf) ->
  sz < 4294967296 -> sz <= Z.of_nat (length secretbuf) ->
  (forall j, (length (polys j) <= length (points nrs (Z.to_nat N)))%nat) ->
  rows_ok nrs buf polys sz N ->
  exists out, gfshare_extract secretbuf nrs N buf sz sz = Some out /\
    length out = length secretbuf /\
    forall j, 0 <= j < sz -> out !! Z.to_nat j = Some (proj1_sig (geval (polys j) gf0)).
Proof.
  intros HN Hlen Bn Bb Hnd Hsz Hov Hbuf Hsz2 Hsec Hdeg Hrows.
  unfold gfshare_extract, memset.
  destruct (memcpy_in_range secretbuf 0 (replicate (Z.to_nat sz) 0) 0 sz) as (s0 & E0 & L0 & S0);
    [lia|lia|lia|lia|rewrite length_replicate; lia|].
  rewrite E0. cbn [mbind option_bind]. rewrite (u32_small N) by lia.
  set (xs := points nrs (Z.to_nat N)) in *.
  match goal with |- context [for_ ?f 0 _ _] =>
    destruct (for_inv (fun k t => length t = length secretbuf /\
      forall j, 0 <= j < sz -> t !! Z.to_nat j =
        Some (proj1_sig (glagrange (gfz <$> xs) (gfz <$> points nrs (Z.to_nat k))
                           (geval (polys j)) gf0))) f (Z.to_nat N) 0 s0)
    as (out & E & L & H)
  end.
  - split; [done|]. intros j Hj. rewrite S0, decide_True by lia.
    rewrite lookup_replicate_2 by lia. done.
  - intros k t Hk [Lt St].
    destruct (lookup_lt_is_Some_2 nrs (Z.to_nat k)) as [x Hx]; [lia|].
    rewrite (proj2 (aget_Some nrs k x)) by (split; [lia|done]). simpl.
    replace (Z.to_nat (k + 1)) with (S (Z.to_nat k)) by lia.
    rewrite (points_S _ _ _ Hx).
    destruct (Z.eqb_spec x 0) as [->|Hx0].
    { exists t. rewrite decide_True by done. by rewrite app_nil_r. }
    rewrite decide_False by done.
    destruct (extract_logs_spec nrs N k x) as (tt & bb & El & Ht & Hb & Hq); [done..|lia|done|done|done|].
    rewrite El. simpl. destruct (gexp_quot tt bb Ht Hb) as [Hd Ed].
    set (d := u32 (_ - bb)) in *.
    assert (0 <= sz * k) by (apply Z.mul_nonneg_nonneg; lia).
    assert (sz * (k + 1) <= sz * N) by (apply Z.mul_le_mono_nonneg_l; lia).
    rewrite (u32_small (sz * k)) by lia.
    destruct (extract_row_spec buf (sz * k) sz d t) as (t' & E' & L' & S'); [lia..|done|lia|].
    exists t'. split; [done|]. split; [lia|].
    intros j Hj. rewrite S', decide_True, St, Z2Nat.id by lia. simpl. f_equal.
    rewrite fmap_app. simpl. rewrite (lagrange_snoc gf_field). simpl.
    fold xs in Hq. rewrite <- Hq, <- Ed, <- (Hrows k x j) by (done || lia). simpl.
    pose proof (exp_range d). pose proof (nth_byte buf (Z.to_nat (sz * k + j)) Bb) as B.
    unfold is_byte in B. rewrite !u8_small by lia. by rewrite (gmul_comm (exp d)).
  - exists out. split; [done|]. split; [done|]. intros j Hj. rewrite H, Z2Nat.id by lia.
    fold xs. f_equal. f_equal. apply (lagrange_recovers gf_field); [|by rewrite length_fmap].
    apply NoDup_fmap_2_strong; [|done]. intros a b Ha Hb. apply gfz_inj.
    + apply (points_good _ _ _ Bn Ha).
    + apply (points_good _ _ _ Bn Hb).
Qed.

(** ** Round trip *)

Lemma points_elem nrs k x : x ∈ points nrs k <-> x <> 0 /\ exists i, (i < k)%nat /\ nrs !! i = Some x.
Proof.
  unfold points. rewrite list_elem_of_filter, elem_of_take. naive_solver.
Qed.

(** [nrs'] offers a selection of the share numbers [nrs]: each entry is kept or
    zeroed. *)
Definition selects (nrs nrs' : list Z) (N : Z) : Prop :=
  forall i x, (i < Z.to_nat N)%nat -> nrs' !! i = Some x -> x = 0 \/ nrs !! i = Some x.

Lemma points_NoDup nrs nrs' N :
  NoDup (take (Z.to_nat N) nrs) -> selects nrs nrs' N -> N <= Z.of_nat (length nrs') ->
  NoDup (points nrs' (Z.to_nat N)).
Proof.
  intros Hnd Hsel Hlen.
  assert (forall k, (k <= Z.to_nat N)%nat -> NoDup (points nrs' k)) as H; [|by apply H].
  induction k as [|k IH]; intros Hk; [constructor|].
  destruct (lookup_lt_is_Some_2 nrs' k) as [x Hx]; [lia|].
  rewrite (points_S _ _ _ Hx). destruct (decide (x = 0)) as [|Hx0].
  { rewrite app_nil_r. apply IH. lia. }
  apply list.NoDup_app. split; [apply IH; lia|]. split; [|apply NoDup_singleton].
  intros y [_ (i & Hi & Hy)]%points_elem ->%list_elem_of_singleton.
  destruct (Hsel i x) as [?|Hy']; [lia|done|done|].
  destruct (Hsel k x) as [?|Hx']; [lia|done|done|].
  assert (i = k) as ->; [|lia].
  eapply (NoDup_lookup _ _ _ x Hnd); rewrite lookup_take_lt; (done || lia).
Qed.

Definition share_polys (buf : list Z) (sz M : Z) (j : Z) : list gf :=
  gfz <$> reverse (column buf sz (Z.to_nat M) j).

Lemma share_polys_secret buf sz M j :
  0 < M -> 0 <= sz -> 0 <= j -> bytes buf ->
  proj1_sig (geval (share_polys buf sz M j) gf0) = nth (Z.to_nat ((M - 1) * sz + j)) buf 0.
Proof.
  intros HM Hsz Hj Hb. rewrite (eval_0 gf_field). unfold share_polys.
  replace (Z.to_nat M) with (S (Z.to_nat (M - 1))) by lia.
  rewrite column_S, reverse_snoc. simpl. rewrite Z2Nat.id by lia.
  by apply u8_small, nth_byte.
Qed.

Lemma rows_bytes buf nrs shares secret sz M N i x j :
  shares_of buf secret shares nrs sz sz M N ->
  0 <= i < N -> nrs !! Z.to_nat i = Some x -> is_byte x -> 0 <= j < sz ->
  exists b, shares !! Z.to_nat (i * sz + j) = Some b /\ is_byte b /\
    gfz b = geval (share_polys buf sz M j) (gfz x).
Proof.
  intros (Bb & _ & Hrow) Hi Hx Bx Hj. eexists. split; [by apply Hrow|].
  pose proof (column_bytes buf sz (Z.to_nat M) j Bb) as Bc.
  split; [by apply horner_range|]. unfold share_polys. by apply horner_eval.
Qed.

(** Recombination of a buffer that holds the provided rows. *)
Lemma recombine buf secret shares nrs sz M N nrs' buf' secretbuf :
  shares_of buf secret shares nrs sz sz M N ->
  0 < M -> 0 <= N < 4294967296 -> 0 <= sz < 4294967296 ->
  sz * N < 4294967296 -> sz * N <= Z.of_nat (length buf') ->
  Forall good_nr (take (Z.to_nat N) nrs) -> NoDup (take (Z.to_nat N) nrs) ->
  selects nrs nrs' N -> bytes nrs' -> bytes buf' -> N <= Z.of_nat (length nrs') ->
  M <= Z.of_nat (length (points nrs' (Z.to_nat N))) ->
  (forall i x j, 0 <= i < N -> nrs' !! Z.to_nat i = Some x -> x <> 0 -> 0 <= j < sz ->
     buf' !! Z.to_nat (sz * i + j) = shares !! Z.to_nat (i * sz + j)) ->
  sz <= Z.of_nat (length secret) -> sz <= Z.of_nat (length secretbuf) ->
  exists out, gfshare_extract secretbuf nrs' N buf' sz sz = Some out /\
    length out = length secretbuf /\ take (Z.to_nat sz) out = take (Z.to_nat sz) secret.
Proof.
  intros Hof HM HN Hsz Hov Hbuf Hg Hnd Hsel Bn Bb' Hlen HM' Hrows Hs Hsb.
  destruct (gfshare_extract_spec secretbuf nrs' N buf' sz (share_polys buf sz M))
    as (out & E & L & H); [lia|done|done|done|by eapply points_NoDup|lia..| | |].
  - intros j. unfold share_polys. rewrite length_fmap, length_reverse.
    unfold column. rewrite length_fmap, length_seq. lia.
  - intros i x j Hi Hx Hx0 Hj.
    destruct (Hsel (Z.to_nat i) x) as [?|Hx']; [lia|done|done|].
    assert (is_byte x) as Bx by by apply (Forall_lookup_1 _ _ _ _ Bn Hx).
    destruct (rows_bytes buf nrs shares secret sz M N i x j Hof Hi Hx' Bx Hj)
      as (b & Hb & _ & Hev).
    by rewrite (nth_lookup_Some _ _ 0 b) by (rewrite (Hrows i x) by done; done).
  - exists out. split; [done|]. split; [done|].
    destruct Hof as (Bb & Hsec & _).
    apply list_eq. intros j. destruct (decide (Z.of_nat j < sz)) as [Hj|Hj].
    + rewrite !lookup_take_lt by lia. specialize (H (Z.of_nat j) ltac:(lia)).
      rewrite Nat2Z.id in H. rewrite H, share_polys_secret, Hsec by (done || lia).
      rewrite Nat2Z.id. destruct (lookup_lt_is_Some_2 secret j) as [y Hy]; [lia|].
      by rewrite Hy, (nth_lookup_Some _ _ _ _ Hy).
    + rewrite !lookup_take_ge by lia. done.
Qed.

(** C11: the secret-sharing round trip.  Splitting [secret] (of [sz] bytes) with
    threshold [M] among [N] holders of distinct nonzero share numbers succeeds
    inside its arrays, and recombining from any selection of at least [M] of the
    numbers, the decoder's buffer holding the selected shares, returns exactly
    the secret; entries not selected may hold anything. *)
Theorem calc_shares_extract rnd shares secret sz M N nrs nrs' buf' secretbuf :
  0 < M < 2147483648 -> 0 <= N < 4294967296 -> 0 <= sz < 2147483648 ->
  sz * N < 4294967296 -> N * sz <= Z.of_nat (length shares) ->
  (M - 1) * sz <= Z.of_nat (length rnd) -> sz <= Z.of_nat (length secret) ->
  bytes rnd -> bytes secret -> N <= Z.of_nat (length nrs) ->
  Forall good_nr (take (Z.to_nat N) nrs) -> NoDup (take (Z.to_nat N) nrs) ->
  selects nrs nrs' N -> bytes nrs' -> N <= Z.of_nat (length nrs') ->
  M <= Z.of_nat (length (points nrs' (Z.to_nat N))) ->
  bytes buf' -> sz * N <= Z.of_nat (length buf') -> sz <= Z.of_nat (length secretbuf) ->
  exists shares', calc_shares rnd shares secret sz sz M N nrs = Some shares' /\
    ((forall i x j, 0 <= i < N -> nrs' !! Z.to_nat i = Some x -> x <> 0 -> 0 <= j < sz ->
        buf' !! Z.to_nat (sz * i + j) = shares' !! Z.to_nat (i * sz + j)) ->
     exists out, gfshare_extract secretbuf nrs' N buf' sz sz = Some out /\
       take (Z.to_nat sz) out = take (Z.to_nat sz) secret).
Proof.
  intros HM HN Hsz Hov Hsh Hr Hs Br Bs Hnl Hg Hnd Hsel Bn' Hnl' HM' Bb' Hbuf' Hsb.
  destruct (calc_shares_spec rnd shares secret sz sz M N nrs)
    as (buf & shares' & E & L & Hof); [lia..|done|done|lia|done|].
  exists shares'. split; [done|]. intros Hrows.
  destruct (recombine buf secret shares' nrs sz M N nrs' buf' secretbuf)
    as (out & Eo & _ & T); [done|lia..|done|done|done|done|done|lia|lia|done|lia|lia|].
  by exists out.
Qed.

(** ** Choosing share numbers *)

Lemma draw_one_spec (r i k : Z) nrs valid :
  0 <= r < k -> k <= Z.of_nat (length valid) -> 0 <= i < Z.of_nat (length nrs) ->
  exists nrs' valid', draw_one r i (nrs, valid, k) = Some (nrs', valid', k - 1) /\
    length nrs' = length nrs /\ length valid' = length valid /\
    take (Z.to_nat (i + 1)) nrs' ++ take (Z.to_nat (k - 1)) valid'
      ≡ₚ take (Z.to_nat i) nrs ++ take (Z.to_nat k) valid.
Proof.
  intros Hr Hk Hi. unfold draw_one.
  destruct (lookup_lt_is_Some_2 valid (Z.to_nat r)) as [x Hx]; [lia|].
  destruct (lookup_lt_is_Some_2 valid (Z.to_nat (k - 1))) as [y Hy]; [lia|].
  rewrite (proj2 (aget_Some valid r x)) by (split; [lia|done]). simpl.
  rewrite aset_in_range by lia. simpl.
  rewrite (proj2 (aget_Some valid (k - 1) y)) by (split; [lia|done]). simpl.
  rewrite aset_in_range by lia. simpl.
  do 2 eexists. split; [reflexivity|]. split; [by rewrite length_insert|].
  split; [by rewrite length_insert|].
  replace (Z.to_nat (i + 1)) with (S (Z.to_nat i)) by lia.
  rewrite (take_S_r _ _ x) by (rewrite list_lookup_insert_eq; [done|lia]).
  rewrite take_insert_ge, <- app_assoc by lia. simpl. f_equiv.
  rewrite (draw_perm valid _ _ x y) by (done || lia). f_equiv. lia.
Qed.

Lemma draw_loop_spec (pick : Z -> Z -> option Z) nrs valid n R :
  0 <= n <= R -> R <= Z.of_nat (length valid) -> n <= Z.of_nat (length nrs) ->
  (forall i k, 0 <= i < n -> 0 < k -> exists r, pick i k = Some r /\ 0 <= r < k) ->
  exists nrs' valid',
    for_ (fun i '(nrs, valid, k) => r ← pick i k; draw_one r i (nrs, valid, k))
         0 (Z.to_nat n) (nrs, valid, R) = Some (nrs', valid', R - n) /\
    length nrs' = length nrs /\
    take (Z.to_nat n) nrs' ++ take (Z.to_nat (R - n)) valid' ≡ₚ take (Z.to_nat R) valid.
Proof.
  intros Hn HR Hl Hpick.
  destruct (for_inv (fun i '(nrs', valid', k) => k = R - i /\ length nrs' = length nrs /\
      length valid' = length valid /\
      take (Z.to_nat i) nrs' ++ take (Z.to_nat k) valid' ≡ₚ take (Z.to_nat R) valid)
    (fun i '(nrs, valid, k) => r ← pick i k; draw_one r i (nrs, valid, k))
    (Z.to_nat n) 0 (nrs, valid, R)) as ([[nrs' valid'] k] & E & -> & L & L' & P).
  - rewrite Z.sub_0_r. done.
  - intros i [[nrs1 valid1] k] Hi (-> & L & L' & P).
    destruct (Hpick i (R - i)) as (r & Er & Hr); [lia..|]. rewrite Er. simpl.
    destruct (draw_one_spec r i (R - i) nrs1 valid1) as (nrs2 & valid2 & E2 & L2 & L2' & P2); [lia..|].
    eexists. split; [exact E2|]. split; [lia|]. split; [lia|]. split; [lia|]. by rewrite P2.
  - exists nrs', valid'. replace (0 + Z.of_nat (Z.to_nat n)) with n in * by lia. done.
Qed.

Lemma has_dup_spec nrs m : 0 <= m <= Z.of_nat (length nrs) ->
  (forall i j x, (i < Z.to_nat m)%nat -> (j < Z.to_nat m)%nat -> i <> j ->
     nrs !! i = Some x -> nrs !! j = Some x -> x = 0) ->
  has_dup nrs m = Some false.
Proof.
  intros Hm Hnd. unfold has_dup.
  match goal with |- for_ ?f _ _ _ = _ =>
    destruct (for_inv (fun _ d => d = false) f (Z.to_nat m) 0 false) as (d & E & ->);
      [done| |exact E] end.
  intros i d Hi ->.
  match goal with |- context [for_ ?f _ _ _] =>
    destruct (for_inv (fun _ d => d = false) f (Z.to_nat m) 0 false) as (d & E & ->);
      [done| |by exists false] end.
  intros j d Hj ->. destruct (Z.eqb_spec i j) as [->|Hne]; [by exists false|].
  destruct (lookup_lt_is_Some_2 nrs (Z.to_nat i)) as [x Hx]; [lia|].
  destruct (lookup_lt_is_Some_2 nrs (Z.to_nat j)) as [y Hy]; [lia|].
  rewrite (proj2 (aget_Some nrs i x)) by (split; [lia|done]).
  rewrite (proj2 (aget_Some nrs j y)) by (split; [lia|done]). simpl.
  exists false. split; [|done]. f_equal. simpl.
  destruct (Z.eqb_spec x y) as [->|]; [|apply andb_false_r].
  rewrite (Hnd (Z.to_nat i) (Z.to_nat j) y) by (done || lia). done.
Qed.

Definition fullset : list Z := (fun i => Z.of_nat i + 1) <$> seq 0 255.

Lemma fullset_good : Forall good_nr fullset /\ NoDup fullset.
Proof.
  split.
  - apply Forall_fmap, list.Forall_forall. intros i Hi%elem_of_seq. unfold good_nr, is_byte; simpl. lia.
  - apply NoDup_fmap_2; [|apply NoDup_seq]. intros i j. lia.
Qed.

(** Drawing from all the nonzero bytes. *)
Lemma sharenrs_full randvals rands junk nrs n :
  0 <= n < 255 -> length nrs = 255%nat -> bytes randvals -> n <= Z.of_nat (length randvals) ->
  exists nrs', init_sharenrs randvals rands junk nrs None n n = Some (nrs', 0) /\
    length nrs' = 255%nat /\ Forall good_nr (take (Z.to_nat n) nrs') /\
    NoDup (take (Z.to_nat n) nrs').
Proof.
  intros Hn Hl Br Hr. unfold init_sharenrs.
  replace ((n <? n) || (255 <=? n)) with false
    by (destruct (Z.ltb_spec n n), (Z.leb_spec 255 n); (done || lia)).
  unfold memset.
  destruct (memcpy_in_range nrs 0 (replicate (Z.to_nat n) 0) 0 n) as (s0 & E0 & L0 & _);
    [lia|lia|lia|lia|rewrite length_replicate; lia|].
  rewrite E0. cbn [mbind option_bind]. rewrite Z.eqb_refl.
  fold fullset.
  destruct (draw_loop_spec (fun i k => v ← aget randvals i; Some (Z.rem v k)) s0 fullset n 255)
    as (nrs' & valid' & E & L & P); [lia|done|lia| |].
  { intros i k Hi Hk. rewrite (aget_nth _ _ 0) by lia. eexists. split; [done|].
    pose proof (nth_byte randvals (Z.to_nat i) Br) as B. unfold is_byte in B.
    apply Z.rem_bound_pos; lia. }
  match goal with |- context [for_ ?f 0 (Z.to_nat n) (s0, fullset, 255)] =>
    replace (for_ f 0 (Z.to_nat n) (s0, fullset, 255)) with (Some (nrs', valid', 255 - n)) end.
  2:{ rewrite <- E. apply for_ext. intros i [[a b] k] _. by destruct (aget randvals i). }
  cbn [mbind option_bind]. rewrite Z.eqb_refl. cbn [negb].
  assert (NoDup (take (Z.to_nat n) nrs') /\ Forall good_nr (take (Z.to_nat n) nrs')) as [Hnd Hg].
  { change (take (Z.to_nat 255) fullset) with fullset in P.
    destruct fullset_good as [G D]. rewrite <- P in D.
    apply (Permutation_Forall (symmetry P)) in G.
    apply list.NoDup_app in D as [D _]. apply Forall_app in G as [G _]. done. }
  rewrite (has_dup_spec nrs' n); [|lia|].
  2:{ intros i j x Hi Hj Hne Hx Hy. destruct Hne.
      eapply (NoDup_lookup _ _ _ x Hnd); by rewrite lookup_take_lt. }
  exists nrs'. simpl.
  split; [done|]. split; [lia|done].
Qed.

(** a full set ([m = n], no original numbers) of up to 254 share numbers is
    always produced with return code 0: [n] distinct nonzero bytes, whatever
    the random bytes. *)
Theorem init_sharenrs_fullset randvals rands junk nrs n :
  0 <= n < 255 -> length nrs = 255%nat -> bytes randvals -> n <= Z.of_nat (length randvals) ->
  exists nrs', init_sharenrs randvals rands junk nrs None n n = Some (nrs', 0) /\
    length nrs' = 255%nat /\ Forall good_nr (take (Z.to_nat n) nrs') /\
    NoDup (take (Z.to_nat n) nrs').
Proof. apply sharenrs_full. Qed.

(** When original numbers are given, [valid] is copied from the array that was
    just cleared, not from [orig]: every number drawn is 0 ("not provided"),
    and the call still reports success. *)
Theorem init_sharenrs_orig_ignored randvals rands junk nrs orig m n :
  0 <= m <= n -> n < 255 -> length nrs = 255%nat -> length junk = 255%nat ->
  Forall (Z.le 0) rands -> m <= Z.of_nat (length rands) ->
  exists nrs', init_sharenrs randvals rands junk nrs (Some orig) m n = Some (nrs', 0) /\
    take (Z.to_nat m) nrs' = replicate (Z.to_nat m) 0.
Proof.
  intros Hm Hn Hl Hj Hr Hrl. unfold init_sharenrs.
  replace ((n <? m) || (255 <=? n)) with false
    by (destruct (Z.ltb_spec n m), (Z.leb_spec 255 n); (done || lia)).
  unfold memset.
  destruct (memcpy_in_range nrs 0 (replicate (Z.to_nat n) 0) 0 n) as (s0 & E0 & L0 & S0);
    [lia|lia|lia|lia|rewrite length_replicate; lia|].
  rewrite E0. cbn [mbind option_bind].
  destruct (memcpy_in_range junk 0 s0 0 n) as (valid & E1 & L1 & S1); [lia..|].
  rewrite E1. cbn [mbind option_bind].
  destruct (memcpy_in_range s0 0 (replicate (Z.to_nat n) 0) 0 n) as (s1 & E2 & L2 & S2);
    [lia|lia|lia|lia|rewrite length_replicate; lia|].
  rewrite E2. cbn [mbind option_bind].
  destruct (draw_loop_spec (fun i k => v ← aget rands i; Some (Z.rem (Z.shiftr v 8) k)) s1 valid m n)
    as (nrs' & valid' & E & L & P); [lia|lia|lia| |].
  { intros i k Hi Hk. rewrite (aget_nth _ _ 0) by lia. eexists. split; [done|].
    apply Z.rem_bound_pos; [|lia]. apply Z.shiftr_nonneg.
    destruct (lookup_lt_is_Some_2 rands (Z.to_nat i)) as [v Hv]; [lia|].
    rewrite (nth_lookup_Some _ _ _ _ Hv). apply (Forall_lookup_1 _ _ _ _ Hr Hv). }
  match goal with |- context [for_ ?f 0 (Z.to_nat m) (s1, valid, n)] =>
    replace (for_ f 0 (Z.to_nat m) (s1, valid, n)) with (Some (nrs', valid', n - m)) end.
  2:{ rewrite <- E. apply for_ext. intros i [[a b] k] _. by destruct (aget rands i). }
  cbn [mbind option_bind]. rewrite Z.eqb_refl. cbn [negb].
  replace (take (Z.to_nat n) valid) with (replicate (Z.to_nat n) 0) in P.
  2:{ apply list_eq. intros j. destruct (decide (j < Z.to_nat n)%nat) as [Hlt|Hge].
      - rewrite lookup_take_lt, S1, decide_True, S0, decide_True by lia. f_equal. lia.
      - rewrite lookup_take_ge by lia. apply lookup_replicate_None. lia. }
  assert (take (Z.to_nat m) nrs' = replicate (Z.to_nat m) 0) as Hz.
  { symmetry. apply replicate_as_elem_of. split; [rewrite length_take; lia|]. intros x Hx.
    assert (x ∈ replicate (Z.to_nat n) 0) as [? _]%elem_of_replicate; [|done].
    rewrite <- P. apply elem_of_app. by left. }
  rewrite (has_dup_spec nrs' m); [|lia|].
  - by exists nrs'.
  - intros i j x Hi _ _ Hx _. rewrite <- (lookup_take_lt _ (Z.to_nat m)), Hz in Hx by lia.
    by apply lookup_replicate_1 in Hx as [-> _].
Qed.

(** ** Witnesses *)

Lemma calc_shares_extract_witness :
  exists shares', calc_shares [3; 200] (replicate 6 0) [7; 9] 2 2 2 3 [1; 5; 9] = Some shares' /\
    exists out, gfshare_extract [0; 0] [1; 0; 9] 3
        (take 2 shares' ++ [77; 78] ++ drop 4 shares') 2 2 = Some out /\
      take 2 out = [7; 9].
Proof.
  destruct (calc_shares_extract [3; 200] (replicate 6 0) [7; 9] 2 2 3 [1; 5; 9] [1; 0; 9]
    [4; 193; 77; 78; 28; 207] [0; 0]) as (shares' & E & H).
  13: { intros [|[|[|i]]] x Hi Hx; vm_compute in Hi, Hx; simplify_eq/=; auto; lia. }
  1-18: concrete.
  - exists shares'. split; [exact E|]. vm_compute in E. injection E as <-.
    destruct H as (out & Eo & T).
    + intros i x j Hi Hx Hx0 Hj.
      assert (i = 0 \/ i = 1 \/ i = 2) as [-> | [-> | ->]] by lia;
      assert (j = 0 \/ j = 1) as [-> | ->] by lia; vm_compute in Hx; vm_compute; congruence.
    + exists out. split; [exact Eo|exact T].
Defined.

Lemma init_sharenrs_fullset_witness :
  exists nrs', init_sharenrs [7; 7; 250] [] [] (replicate 255 0) None 3 3 = Some (nrs', 0) /\
    length nrs' = 255%nat /\ Forall good_nr (take 3 nrs') /\ NoDup (take 3 nrs').
Proof. apply (init_sharenrs_fullset [7; 7; 250] [] [] (replicate 255 0) 3); concrete. Defined.

(** Asked for two of the numbers 5, 9 and 12, the call returns zeros. *)
Lemma init_sharenrs_orig_ignored_witness :
  exists nrs', init_sharenrs [] [600; 300] (replicate 255 77) (replicate 255 0) (Some [5; 9; 12]) 2 3 = Some (nrs', 0) /\
    take 2 nrs' = [0; 0].
Proof. apply (init_sharenrs_orig_ignored [] [600; 300] (replicate 255 77) (replicate 255 0) [5; 9; 12] 2 3); concrete. Defined.
