(* ===== verification/Cards.v ===== *)
(** * Cards: the mental-poker deck of [plugins/games/cards777.c]

    The shuffle of the deck, the layer of multiplicative blinding each player
    adds, its removal, and the sharing of the blinding factors among the players
    with [GFShare].  The curve's field multiplication and inversion are used
    through the interface [FieldOps]. *)

From S2P Require Import Prelude GF256 Interp GFShare.

(** A 32-byte value of the C union [bits256], as its bytes. *)
Definition bits256 : Type := list Z.
Definition bits256_ok (x : bits256) : Prop := length x = 32%nat /\ bytes x.
#[export] Instance bits256_ok_dec x : Decision (bits256_ok x).
Proof. unfold bits256_ok. apply _. Defined.
Definition zero256 : bits256 := replicate 32 0.

Definition CARDS777_MAXPLAYERS : Z := 9.
Definition CARDS777_MAXCARDS : Z := 52.

(** What the card code relies on of [fmul_donna] and [crecip_donna]: canonical
    values form a set closed under them in which a nonzero factor cancels. *)
Class FieldOps := {
  fmul_donna : bits256 -> bits256 -> bits256;
  crecip_donna : bits256 -> bits256;
  canonical : bits256 -> Prop;
  fmul_cancel : forall x c, canonical x -> x <> zero256 -> canonical c ->
    fmul_donna x (fmul_donna (crecip_donna x) c) = c;
}.

(** ** Shuffling *)

(** One draw: [permi[i] = desti[pos]; desti[pos] = desti[numcards-1-i];
    desti[numcards-1-i] = -1]. *)
Definition shuffle_step (rnd : list Z) (numcards i : Z) (st : list Z * list Z)
  : option (list Z * list Z) :=
  let '(permi, desti) := st in
  x ← aget rnd i;
  let pos := Z.rem x ((numcards - 1 - i) + 1) in
  d ← aget desti pos;
  permi ← aset permi i d;
  l ← aget desti (numcards - 1 - i);
  desti ← aset desti pos l;
  desti ← aset desti (numcards - 1 - i) (-1);
  Some (permi, desti).

Definition cards777_shuffle (rnd : list Z) (junk : list Z) (shuffled cards : list bits256)
    (numcards N : Z) : option (list bits256 * Z) :=
  desti ← for_ (fun i desti => aset desti i i) 0 (Z.to_nat numcards)
            (replicate (Z.to_nat CARDS777_MAXCARDS) 0);
  '(permi, _) ← for_ (shuffle_step rnd numcards) 0 (Z.to_nat numcards) (junk, desti);
  '(shuffled, _) ← for_ (fun i st =>
      for_ (fun j '(shuffled, nonz) =>
              p ← aget permi i;
              c ← aget cards (p * N + j);
              shuffled ← aset shuffled nonz c;
              Some (shuffled, nonz + 1)) 0 (Z.to_nat N) st)
    0 (Z.to_nat numcards) (shuffled, 0);
  Some (shuffled, 0).

(** ** Layers *)

Section Layer.
  Context `{!FieldOps}.

(** [seeds] are the successive values of [xoverz_donna(rand256(1))]. *)
Definition cards777_layer (seeds : list bits256) (layered xoverz incards : list bits256)
    (numcards N : Z) : option (list bits256 * list bits256) :=
  '(layered, xoverz, _) ← for_ (fun i st =>
      for_ (fun k '(layered, xoverz, nonz) =>
              z ← aget seeds nonz;
              xoverz ← aset xoverz nonz z;
              x ← aget xoverz nonz;
              let z_x := crecip_donna x in
              c ← aget incards nonz;
              layered ← aset layered nonz (fmul_donna z_x c);
              Some (layered, xoverz, nonz + 1)) 0 (Z.to_nat N) st)
    0 (Z.to_nat numcards) (layered, xoverz, 0);
  Some (layered, xoverz).

(** The result is the value of [*seedp] and the returned card. *)
Fixpoint decode_from (xoverz : list bits256) (destplayer : Z) (cipher : bits256)
    (outcards : list bits256) (N i : Z) (n : nat) : option (bits256 * bits256) :=
  match n with
  | O => Some (zero256, zero256)
  | S n =>
      let ind := i * N + destplayer in
      o ← aget outcards ind;
      if decide (o = cipher) then x ← aget xoverz ind; Some (x, fmul_donna x cipher)
      else decode_from xoverz destplayer cipher outcards N (i + 1) n
  end.

Definition cards777_decode (xoverz : list bits256) (destplayer : Z) (cipher : bits256)
    (outcards : list bits256) (numcards N : Z) : option (bits256 * bits256) :=
  decode_from xoverz destplayer cipher outcards N 0 (Z.to_nat numcards).
End Layer.

(** ** Sharing the blinding factors *)

(** [&allshares[j * size]] is the offset [j * size] into [allshares]. *)
Definition cards777_calcmofn (rnd allshares : list Z) (myshares nrs : list Z) (M : Z)
    (xoverz : list bits256) (numcards N : Z) : option (list Z * list Z * Z) :=
  let sz := N * 32 * numcards in
  allshares ← calc_shares rnd allshares (concat xoverz) sz sz M N nrs;
  myshares ← for_ (fun j my => aset my j (j * sz)) 0 (Z.to_nat N) myshares;
  Some (allshares, myshares, sz).

(** [shares[i]] is an offset into the block [mem], [None] the null pointer. *)
Definition cards777_recover (blank : Z -> list Z) (mem : list Z) (shares : list (option Z))
    (nrs : list Z) (M numcards N : Z) : option (list Z) :=
  let sz := N * 32 * numcards in
  let recover := replicate (Z.to_nat sz) 0 in
  recovernrs ← for_ (fun i rec =>
      s ← aget shares i;
      match s with
      | None => Some rec
      | Some _ => x ← aget nrs i; aset rec i x
      end) 0 (Z.to_nat N) (replicate 255 0);
  G ← gfshare_ctx_init_dec blank recovernrs N sz;
  G ← for_ (fun i G =>
      s ← aget shares i;
      match s with
      | None => Some G
      | Some off => gfshare_ctx_dec_giveshare G (u8 i) mem off
      end) 0 (Z.to_nat N) G;
  G ← gfshare_ctx_dec_newshares G recovernrs;
  gfshare_ctx_dec_extract G recover.

(** ** Theorems: the shuffle *)

Lemma shuffle_step_spec rnd numcards i permi desti :
  0 <= i < numcards -> numcards <= Z.of_nat (length desti) -> i < Z.of_nat (length permi) ->
  bytes rnd -> i < Z.of_nat (length rnd) ->
  exists permi' desti', shuffle_step rnd numcards i (permi, desti) = Some (permi', desti') /\
    length permi' = length permi /\ length desti' = length desti /\
    take (Z.to_nat (i + 1)) permi' ++ take (Z.to_nat (numcards - (i + 1))) desti'
      ≡ₚ take (Z.to_nat i) permi ++ take (Z.to_nat (numcards - i)) desti.
Proof.
  intros Hi Hd Hp Br Hr. unfold shuffle_step.
  destruct (aget_is_Some rnd i) as (x & Hx & Ex); [lia|]. rewrite Ex. simpl.
  assert (is_byte x) as Bx by by apply (Forall_lookup_1 _ _ _ _ Br Hx). unfold is_byte in Bx.
  assert (0 <= Z.rem x (numcards - 1 - i + 1) < numcards - i) as Hpos.
  { pose proof (Z.rem_bound_pos x (numcards - 1 - i + 1)). lia. }
  set (pos := Z.rem _ _) in *.
  destruct (aget_is_Some desti pos) as (d & Hd' & ->); [lia|]. simpl.
  rewrite aset_in_range by lia. simpl.
  destruct (aget_is_Some desti (numcards - 1 - i)) as (l & Hl & ->); [lia|]. simpl.
  rewrite aset_in_range by lia. simpl. rewrite aset_in_range by (rewrite length_insert; lia). simpl.
  do 2 eexists. split; [reflexivity|]. rewrite !length_insert. split; [done|]. split; [done|].
  replace (Z.to_nat (i + 1)) with (S (Z.to_nat i)) by lia.
  rewrite (take_S_r _ _ d) by (rewrite list_lookup_insert_eq; [done|lia]).
  rewrite take_insert_ge, <- app_assoc by lia. simpl. f_equiv.
  rewrite take_insert_ge by lia.
  replace (Z.to_nat (numcards - (i + 1))) with (Z.to_nat (numcards - 1 - i)) by lia.
  rewrite (draw_perm desti _ _ d l) by (done || lia). f_equiv. lia.
Qed.

Definition positions (n : Z) : list Z := Z.of_nat <$> seq 0 (Z.to_nat n).

Lemma init_desti_spec n : 0 <= n <= 52 ->
  exists desti, for_ (fun i desti => aset desti i i) 0 (Z.to_nat n)
      (replicate (Z.to_nat CARDS777_MAXCARDS) 0) = Some desti /\
    length desti = 52%nat /\ take (Z.to_nat n) desti = positions n.
Proof.
  intros Hn.
  destruct (for_update (fun i d => aset d i i) (fun i _ => i) 0 (Z.to_nat n)
    (replicate (Z.to_nat CARDS777_MAXCARDS) 0)) as (d & E & L & H).
  - lia.
  - rewrite length_replicate. unfold CARDS777_MAXCARDS. lia.
  - done.
  - exists d. rewrite length_replicate in L. split; [done|]. split; [done|].
    apply list_eq. intros j. unfold positions. rewrite list_lookup_fmap.
    destruct (decide (j < Z.to_nat n)%nat) as [Hj|Hj].
    + rewrite lookup_take_lt, H, decide_True, lookup_replicate_2, lookup_seq_lt
        by (unfold CARDS777_MAXCARDS; lia). simpl. f_equal. lia.
    + rewrite lookup_take_ge, lookup_seq_ge by lia. done.
Qed.

(** The rows of the deck move whole. *)
Lemma shuffle_rows rnd junk shuffled cards numcards N :
  0 <= numcards <= 52 -> 0 <= N -> length junk = 52%nat ->
  bytes rnd -> numcards <= Z.of_nat (length rnd) ->
  numcards * N <= Z.of_nat (length cards) -> numcards * N <= Z.of_nat (length shuffled) ->
  exists p shuffled', cards777_shuffle rnd junk shuffled cards numcards N = Some (shuffled', 0) /\
    p ≡ₚ positions numcards /\ length shuffled' = length shuffled /\
    forall i j pi, 0 <= i < numcards -> 0 <= j < N -> p !! Z.to_nat i = Some pi ->
      shuffled' !! Z.to_nat (i * N + j) = cards !! Z.to_nat (pi * N + j).
Proof.
  intros Hn HN Hj Br Hr Hc Hs. unfold cards777_shuffle.
  destruct (init_desti_spec numcards Hn) as (desti & E0 & L0 & T0). rewrite E0. simpl.
  destruct (for_inv (fun i '(permi, desti) => length permi = 52%nat /\ length desti = 52%nat /\
      take (Z.to_nat i) permi ++ take (Z.to_nat (numcards - i)) desti ≡ₚ positions numcards)
    (shuffle_step rnd numcards) (Z.to_nat numcards) 0 (junk, desti))
    as ([permi desti'] & E1 & L1 & L1' & P1).
  - rewrite Z.sub_0_r, T0. done.
  - intros i [a b] Hi (La & Lb & Pab).
    destruct (shuffle_step_spec rnd numcards i a b) as (a' & b' & E & La' & Lb' & P'); [lia..|done|lia|].
    exists (a', b'). split; [done|]. split; [lia|]. split; [lia|]. by rewrite P'.
  - rewrite E1. simpl. replace (0 + Z.of_nat (Z.to_nat numcards)) with numcards in P1 by lia.
    rewrite Z.sub_diag, app_nil_r in P1. set (p := take (Z.to_nat numcards) permi) in *.
    assert (forall i, 0 <= i < numcards -> exists pi, aget permi i = Some pi /\
        p !! Z.to_nat i = Some pi /\ 0 <= pi < numcards) as Hp.
    { intros i Hi. destruct (aget_is_Some permi i) as (pi & Hpi & Epi); [lia|].
      exists pi. assert (p !! Z.to_nat i = Some pi) as Hpi'
        by (unfold p; rewrite lookup_take_lt; [done|lia]).
      split; [done|]. split; [done|]. apply list_elem_of_lookup_2 in Hpi'.
      rewrite P1 in Hpi'. unfold positions in Hpi'.
      apply list_elem_of_fmap in Hpi' as (k & -> & Hk). apply elem_of_seq in Hk. lia. }
    exists p.
    match goal with |- context [for_ (fun i st => for_ (@?f i) 0 _ st) 0 _ _] =>
    destruct (for_grid (fun k '(sh, nonz) => nonz = k /\ length sh = length shuffled /\
      forall i j pi, 0 <= i < numcards -> 0 <= j < N -> i * N + j < k ->
        p !! Z.to_nat i = Some pi ->
        sh !! Z.to_nat (i * N + j) = cards !! Z.to_nat (pi * N + j)) f numcards N
        (shuffled, 0)) as ([sh nonz] & E2 & _ & L2 & H2) end.
    + lia.
    + lia.
    + split; [done|]. split; [done|]. intros; nia.
    + intros i j [sh nonz] Hi Hj' (-> & Lsh & Hsh).
      destruct (Hp i Hi) as (pi & Epi & Hpi & Rpi). rewrite Epi. simpl.
      assert (pi * N + j < numcards * N) by nia. assert (i * N + j < numcards * N) by nia.
      destruct (aget_is_Some cards (pi * N + j)) as (c & Hcc & Ec); [nia|]. rewrite Ec. simpl.
      rewrite aset_in_range by nia. simpl. eexists. split; [reflexivity|].
      split; [done|]. split; [by rewrite length_insert|].
      intros i' j' pi' Hi' Hj'' Hlt Hpi'. destruct (decide (i' * N + j' = i * N + j)) as [Eq|Ne].
      * assert (i' = i) by nia. subst i'. assert (j' = j) by lia. subst j'. simplify_eq.
        rewrite list_lookup_insert_eq by nia. done.
      * rewrite list_lookup_insert_ne by nia. apply Hsh; (done || lia).
    + rewrite E2. simpl. exists sh. split; [done|]. split; [done|]. split; [done|].
      intros i j pi Hi Hj'. apply H2; [done|done|nia].
Qed.

(** shuffling permutes the deck: for some permutation [p] of the card
    positions, the row of [N] values of card [p(i)] ends up, whole and in order,
    as row [i]; the random bytes only choose [p].  No access is out of bounds
    for decks of up to 52 cards. *)
Theorem cards777_shuffle_perm rnd junk shuffled cards numcards N :
  0 <= numcards <= 52 -> 0 <= N -> length junk = 52%nat ->
  bytes rnd -> numcards <= Z.of_nat (length rnd) ->
  numcards * N <= Z.of_nat (length cards) -> numcards * N <= Z.of_nat (length shuffled) ->
  exists p shuffled', cards777_shuffle rnd junk shuffled cards numcards N = Some (shuffled', 0) /\
    p ≡ₚ positions numcards /\ length shuffled' = length shuffled /\
    forall i j pi, 0 <= i < numcards -> 0 <= j < N -> p !! Z.to_nat i = Some pi ->
      shuffled' !! Z.to_nat (i * N + j) = cards !! Z.to_nat (pi * N + j).
Proof. apply shuffle_rows. Qed.

(** ** Theorems: layers *)

Section LayerTheorems.
Context `{!FieldOps}.

Lemma cards777_layer_spec seeds layered xoverz incards numcards N :
  0 <= numcards -> 0 <= N ->
  numcards * N <= Z.of_nat (length seeds) -> numcards * N <= Z.of_nat (length layered) ->
  numcards * N <= Z.of_nat (length xoverz) -> numcards * N <= Z.of_nat (length incards) ->
  exists layered' xoverz',
    cards777_layer seeds layered xoverz incards numcards N = Some (layered', xoverz') /\
    length layered' = length layered /\ length xoverz' = length xoverz /\
    forall t s c, 0 <= t < numcards * N -> seeds !! Z.to_nat t = Some s ->
      incards !! Z.to_nat t = Some c ->
      xoverz' !! Z.to_nat t = Some s /\
      layered' !! Z.to_nat t = Some (fmul_donna (crecip_donna s) c).
Proof.
  intros Hn HN Hs Hl Hx Hi. unfold cards777_layer.
  match goal with |- context [for_ (fun i st => for_ (@?f i) 0 _ st) 0 _ _] =>
  destruct (for_grid (fun k '(la, xo, nonz) => nonz = k /\ length la = length layered /\
    length xo = length xoverz /\
    forall t s c, 0 <= t < k -> seeds !! Z.to_nat t = Some s ->
      incards !! Z.to_nat t = Some c ->
      xo !! Z.to_nat t = Some s /\ la !! Z.to_nat t = Some (fmul_donna (crecip_donna s) c))
    f numcards N (layered, xoverz, 0)) as ([[la xo] nonz] & E & _ & L1 & L2 & Hrow) end.
  - lia.
  - lia.
  - repeat (split; [done|]). intros; lia.
  - intros i k [[la xo] nonz] Hi' Hk (-> & L1 & L2 & Hrow).
    assert (i * N + k < numcards * N) by nia.
    destruct (aget_is_Some seeds (i * N + k)) as (s & Hss & ->); [nia|]. simpl.
    rewrite aset_in_range by nia. simpl.
    rewrite (aget_lookup (<[Z.to_nat (i * N + k):=s]> xo) _ s); [|nia|by rewrite list_lookup_insert_eq by nia]. simpl.
    destruct (aget_is_Some incards (i * N + k)) as (c & Hcc & ->); [nia|]. simpl.
    rewrite aset_in_range by nia. simpl. eexists. split; [reflexivity|].
    cbv beta iota. rewrite !length_insert. repeat (split; [done|]).
    intros t s' c' Ht Hs' Hc'. destruct (decide (t = i * N + k)) as [->|Hne].
    + simplify_eq. rewrite !list_lookup_insert_eq by nia. done.
    + rewrite !list_lookup_insert_ne by nia. apply Hrow; (done || lia).
  - rewrite E. simpl. by exists la, xo.
Qed.

Lemma decode_from_skip xoverz d cipher outcards N n i m s :
  aget outcards ((i + Z.of_nat n) * N + d) = Some cipher ->
  aget xoverz ((i + Z.of_nat n) * N + d) = Some s ->
  (forall k, i <= k < i + Z.of_nat n -> exists o, aget outcards (k * N + d) = Some o /\ o <> cipher) ->
  (n < m)%nat ->
  decode_from xoverz d cipher outcards N i m = Some (s, fmul_donna s cipher).
Proof.
  revert i m. induction n as [|n IH]; intros i [|m] Ho Hs Hk Hm; try lia; simpl.
  - rewrite Z.add_0_r in Ho, Hs. rewrite Ho. simpl. rewrite decide_True by done.
    by rewrite Hs.
  - destruct (Hk i) as (o & -> & Hne); [lia|]. simpl. rewrite decide_False by done.
    apply IH; [by replace (i + 1 + Z.of_nat n) with (i + Z.of_nat (S n)) by lia..| |lia].
    intros k Hk'. apply Hk. lia.
Qed.

(** decoding undoes the layer: the player who added the layer recovers,
    from the blinded card [i] meant for [dest], the card as it was before, and
    the blinding factor used, as long as no earlier card for [dest] has the
    same blinded value. *)
Theorem cards777_decode_layer seeds layered xoverz incards numcards N i dest s c :
  0 <= i < numcards -> 0 <= dest < N ->
  numcards * N <= Z.of_nat (length seeds) -> numcards * N <= Z.of_nat (length layered) ->
  numcards * N <= Z.of_nat (length xoverz) -> numcards * N <= Z.of_nat (length incards) ->
  seeds !! Z.to_nat (i * N + dest) = Some s -> incards !! Z.to_nat (i * N + dest) = Some c ->
  canonical s -> s <> zero256 -> canonical c ->
  exists layered' xoverz',
    cards777_layer seeds layered xoverz incards numcards N = Some (layered', xoverz') /\
    exists blinded, layered' !! Z.to_nat (i * N + dest) = Some blinded /\
      ((forall k, 0 <= k < i -> layered' !! Z.to_nat (k * N + dest) <> Some blinded) ->
       cards777_decode xoverz' dest blinded layered' numcards N = Some (s, c)).
Proof.
  intros Hi Hd Hs Hl Hx Hc Es Ec Cs Ns Cc.
  destruct (cards777_layer_spec seeds layered xoverz incards numcards N)
    as (la & xo & E & L1 & L2 & Hrow); [lia..|].
  assert (i * N + dest < numcards * N) by nia.
  exists la, xo. split; [done|].
  destruct (Hrow (i * N + dest) s c) as [Hxo Hla]; [nia|done|done|].
  eexists. split; [exact Hla|]. intros Hfirst. unfold cards777_decode.
  rewrite (decode_from_skip _ _ _ _ _ (Z.to_nat i) _ _ s); [|..].
  - by rewrite fmul_cancel.
  - rewrite Z2Nat.id, Z.add_0_l by lia. apply aget_lookup; [nia|done].
  - rewrite Z2Nat.id, Z.add_0_l by lia. apply aget_lookup; [nia|done].
  - intros k Hk. assert (k * N + dest < numcards * N) by nia.
    destruct (aget_is_Some la (k * N + dest)) as (o & Ho & Eo); [nia|].
    exists o. split; [done|]. intros ->. by apply (Hfirst k); [lia|].
  - lia.
Qed.
End LayerTheorems.

(** ** Theorems: sharing *)

Lemma concat_bits256 (l : list bits256) : Forall bits256_ok l ->
  length (concat l) = (32 * length l)%nat /\ bytes (concat l).
Proof.
  induction 1 as [|x l [Hx Bx] Hl [IH1 IH2]]; simpl; [split; [done|constructor]|].
  rewrite length_app, IH1, Hx. split; [lia|]. by apply Forall_app.
Qed.

Lemma calcmofn_spec rnd allshares myshares nrs M xoverz numcards N :
  let sz := N * 32 * numcards in
  0 < M < 2147483648 -> 0 <= N -> 0 <= numcards -> sz < 2147483648 ->
  N * sz <= Z.of_nat (length allshares) -> N <= Z.of_nat (length myshares) ->
  (M - 1) * sz <= Z.of_nat (length rnd) -> bytes rnd ->
  Forall bits256_ok xoverz -> numcards * N <= Z.of_nat (length xoverz) ->
  N <= Z.of_nat (length nrs) -> Forall good_nr (take (Z.to_nat N) nrs) ->
  exists buf all my,
    cards777_calcmofn rnd allshares myshares nrs M xoverz numcards N = Some (all, my, sz) /\
    length all = length allshares /\
    shares_of buf (concat xoverz) all nrs sz sz M N /\
    forall j, 0 <= j < N -> aget my j = Some (j * sz).
Proof.
  intros sz HM HN Hnc Hsz Hall Hmy Hr Br Hx Hxl Hnl Hg. unfold cards777_calcmofn. fold sz.
  destruct (concat_bits256 xoverz Hx) as [Lx Bx].
  destruct (calc_shares_spec rnd allshares (concat xoverz) sz sz M N nrs)
    as (buf & all & E & L & Hof); [lia|lia|lia|lia|lia|lia|lia|done|done|lia|done|].
  rewrite E. simpl.
  destruct (for_update (fun j my => aset my j (j * sz)) (fun j _ => j * sz) 0 (Z.to_nat N) myshares)
    as (my & Em & Lm & Hm); [lia|lia|done|].
  rewrite Em. simpl. exists buf, all, my. split; [done|]. split; [done|]. split; [done|].
  intros j Hj. apply aget_lookup; [lia|]. rewrite Hm, decide_True by lia.
  destruct (lookup_lt_is_Some_2 myshares (Z.to_nat j)) as [y ->]; [lia|]. simpl. f_equal. lia.
Qed.

(** Number of non-null entries among the first [N]. *)
Definition provided (shares : list (option Z)) (N : Z) : nat :=
  length (filter is_Some (take (Z.to_nat N) shares)).

Lemma recovernrs_spec (shares : list (option Z)) nrs N :
  0 <= N <= 255 -> N <= Z.of_nat (length shares) -> N <= Z.of_nat (length nrs) ->
  exists rec, for_ (fun i rec =>
      s ← aget shares i;
      match s with
      | None => Some rec
      | Some _ => x ← aget nrs i; aset rec i x
      end) 0 (Z.to_nat N) (replicate 255 0) = Some rec /\ length rec = 255%nat /\
    forall i : nat, rec !! i = if decide (i < Z.to_nat N)%nat
      then match shares !! i with Some (Some _) => nrs !! i | _ => Some 0 end
      else replicate 255 0 !! i.
Proof.
  intros HN Hs Hn.
  match goal with |- context [for_ ?f _ _ _] =>
  destruct (for_update f (fun i x => match shares !! Z.to_nat i with
      Some (Some _) => nth (Z.to_nat i) nrs 0 | _ => x end) 0 (Z.to_nat N) (replicate 255 0))
    as (rec & E & L & H) end.
  - lia.
  - rewrite length_replicate. lia.
  - intros k t x Hk Lt _ Hx. simpl in Hx.
    destruct (aget_is_Some shares k) as (s & Es & ->); [lia|]. simpl. rewrite Es.
    destruct s as [off|].
    + rewrite (aget_nth nrs _ 0) by lia. done.
    + apply lookup_lt_Some in Hx as Hl. simpl. rewrite aset_in_range by lia.
      by rewrite list_insert_id.
  - exists rec. split; [done|]. rewrite L, length_replicate. split; [done|].
    intros i. rewrite H. destruct (decide (i < Z.to_nat N)%nat) as [Hi|Hi].
    + rewrite decide_True, lookup_replicate_2, Z.sub_0_r, Nat2Z.id by lia. simpl.
      destruct (shares !! i) as [[off|]|] eqn:Es; [|done..].
      destruct (lookup_lt_is_Some_2 nrs i) as [x Hx]; [lia|].
      by rewrite Hx, (nth_lookup_Some _ _ _ _ Hx).
    + by rewrite decide_False by lia.
Qed.

Lemma provided_points (shares : list (option Z)) nrs rec N :
  N <= Z.of_nat (length shares) -> N <= Z.of_nat (length rec) ->
  N <= Z.of_nat (length nrs) -> Forall good_nr (take (Z.to_nat N) nrs) ->
  (forall i : nat, (i < Z.to_nat N)%nat -> rec !! i =
     match shares !! i with Some (Some _) => nrs !! i | _ => Some 0 end) ->
  length (points rec (Z.to_nat N)) = provided shares N.
Proof.
  intros Hs Hr Hn Hg Hrec. unfold provided.
  assert (forall k, (k <= Z.to_nat N)%nat ->
    length (points rec k) = length (filter is_Some (take k shares))) as H; [|by apply H].
  induction k as [|k IH]; intros Hk; [done|].
  destruct (lookup_lt_is_Some_2 shares k) as [s Es]; [lia|].
  destruct (lookup_lt_is_Some_2 rec k) as [x Ex]; [lia|].
  destruct (lookup_lt_is_Some_2 nrs k) as [y Ey]; [lia|].
  rewrite (points_S _ _ _ Ex), (take_S_r _ _ _ Es), list.filter_app, !length_app, IH by lia.
  f_equal. rewrite Hrec, Es in Ex by lia. destruct s as [off|].
  - assert (x = y) as -> by congruence.
    assert (good_nr y) as [_ Hy].
    { apply (Forall_lookup_1 _ _ k _ Hg). rewrite lookup_take_lt; [done|lia]. }
    rewrite decide_False by done. by rewrite filter_cons_True by done.
  - assert (x = 0) as -> by congruence. rewrite decide_True by done.
    by rewrite filter_cons_False by (intros [? ?]; done).
Qed.

(** The loop that gives the decoder the shares at hand. *)
Lemma giveshares_spec (shares : list (option Z)) (mem : list Z) N sz G0 :
  0 <= N <= 255 -> 0 <= sz -> N * sz < 4294967296 -> N <= Z.of_nat (length shares) ->
  size G0 = sz -> N * sz <= Z.of_nat (length (buffer G0)) -> bytes (buffer G0) ->
  (forall i off, 0 <= i < N -> shares !! Z.to_nat i = Some (Some off) ->
     0 <= off /\ off + sz <= Z.of_nat (length mem) /\
     bytes (take (Z.to_nat sz) (drop (Z.to_nat off) mem))) ->
  exists b, for_ (fun i G =>
      s ← aget shares i;
      match s with
      | None => Some G
      | Some off => gfshare_ctx_dec_giveshare G (u8 i) mem off
      end) 0 (Z.to_nat N) G0 = Some (G0 <| buffer := b |>) /\
    length b = length (buffer G0) /\ bytes b /\
    forall i off j, 0 <= i < N -> shares !! Z.to_nat i = Some (Some off) -> 0 <= j < sz ->
      b !! Z.to_nat (sz * i + j) = mem !! Z.to_nat (off + j).
Proof.
  intros HN Hsz Hov Hs HG Hb Bb Hoff.
  match goal with |- context [for_ ?f _ _ _] =>
  destruct (for_inv (fun k G => exists b, G = (G0 <| buffer := b |>) /\
    length b = length (buffer G0) /\ bytes b /\
    forall i off j, 0 <= i < k -> shares !! Z.to_nat i = Some (Some off) -> 0 <= j < sz ->
      b !! Z.to_nat (sz * i + j) = mem !! Z.to_nat (off + j)) f (Z.to_nat N) 0 G0)
    as (G & E & b & -> & L & B & H) end.
  - exists (buffer G0). split; [by destruct G0|]. do 2 (split; [done|]). intros; lia.
  - intros k G Hk (b & -> & L & B & H).
    destruct (aget_is_Some shares k) as (s & Es & ->); [lia|]. simpl.
    destruct s as [off|].
    + destruct (Hoff k off) as (Ho1 & Ho2 & Ho3); [lia|done|].
      unfold gfshare_ctx_dec_giveshare. simpl. rewrite HG.
      assert (0 <= k * sz) by nia. assert (k * sz + sz <= N * sz) by nia.
      rewrite u8_small, u32_small by lia.
      destruct (memcpy_in_range b (k * sz) mem off sz) as (b' & Eb & Lb & Hb'); [lia..|].
      rewrite Eb. simpl. eexists. split; [reflexivity|]. exists b'. split; [done|].
      split; [lia|]. split; [eapply memcpy_bytes_window; [| |exact Eb]; by rewrite ?Z.add_0_r|].
      intros i off' j Hi Hs' Hj. rewrite Hb'. destruct (decide (i = k)) as [->|Hne].
      * simplify_eq. rewrite decide_True by lia. f_equal. lia.
      * assert ((i + 1) * sz <= k * sz) by nia. assert (0 <= i * sz) by nia.
        rewrite decide_False by lia. apply H; (done || lia).
    + eexists. split; [reflexivity|]. exists b. do 3 (split; [done|]).
      intros i off j Hi Hs' Hj. destruct (decide (i = k)) as [->|Hne]; [simplify_eq|].
      apply H; (done || lia).
  - exists b. split; [done|]. split; [done|]. split; [done|]. intros i off j Hi. apply H. lia.
Qed.

(** What [malloc] gives: a block of the requested size holding bytes. *)
Definition blank_ok (blank : Z -> list Z) : Prop :=
  forall n, 0 <= n -> length (blank n) = Z.to_nat n /\ bytes (blank n).

Lemma dec_init_spec blank rec N sz :
  blank_ok blank -> 0 <= N <= 255 -> 0 <= sz -> N * sz < 4294967296 ->
  length rec = 255%nat -> bytes rec ->
  exists nrs', gfshare_ctx_init_dec blank rec N sz =
    Some (mk_gfshare_ctx N 0 sz (N * sz) nrs' (blank (N * sz))) /\ length nrs' = 255%nat /\
    bytes nrs'.
Proof.
  intros Hbl HN Hsz Hov Lr Br. unfold gfshare_ctx_init_dec, _gfshare_ctx_init_core.
  assert (0 <= N * sz) by nia. rewrite u8_small, u32_small by lia.
  destruct (Hbl 255) as [L255 B255]; [lia|].
  destruct (memcpy_in_range (blank 255) 0 rec 0 N) as (nrs' & E & L & _); [lia..|].
  rewrite E. simpl. exists nrs'. split; [done|]. split; [lia|].
  eapply memcpy_bytes; [| |exact E]; done.
Qed.

Lemma recovernrs_bytes (shares : list (option Z)) nrs rec N :
  Forall good_nr (take (Z.to_nat N) nrs) ->
  (forall i : nat, rec !! i = if decide (i < Z.to_nat N)%nat
      then match shares !! i with Some (Some _) => nrs !! i | _ => Some 0 end
      else replicate 255 0 !! i) -> bytes rec.
Proof.
  intros Hg Hrec. apply Forall_lookup_2. intros i x Hx. rewrite Hrec in Hx.
  case_decide; [|apply lookup_replicate_1 in Hx as [-> _]; apply byte_0].
  destruct (shares !! i) as [[off|]|]; simplify_eq; try apply byte_0.
  apply (Forall_lookup_1 _ _ i x Hg). by rewrite lookup_take_lt.
Qed.

Lemma share_window_bytes buf secret shares nrs sz M N i :
  shares_of buf secret shares nrs sz sz M N -> 0 <= i < N -> 0 <= sz ->
  N <= Z.of_nat (length nrs) -> Forall good_nr (take (Z.to_nat N) nrs) ->
  bytes (take (Z.to_nat sz) (drop (Z.to_nat (i * sz)) shares)).
Proof.
  intros Hof Hi Hsz Hnl Hg. destruct (lookup_lt_is_Some_2 nrs (Z.to_nat i)) as [x Hx]; [lia|].
  assert (good_nr x) as [Bx _].
  { apply (Forall_lookup_1 _ _ (Z.to_nat i) _ Hg). rewrite lookup_take_lt; [done|lia]. }
  apply Forall_lookup_2. intros j y Hy.
  destruct (decide (Z.of_nat j < sz)); [|by rewrite lookup_take_ge in Hy by lia].
  rewrite lookup_take_lt, lookup_drop in Hy by lia.
  destruct (rows_bytes _ _ _ _ _ _ _ i x (Z.of_nat j) Hof Hi Hx Bx) as (b & Hb & Bb & _); [lia|].
  replace (Z.to_nat (i * sz + Z.of_nat j)) with (Z.to_nat (i * sz) + j)%nat in Hb by nia.
  by simplify_eq.
Qed.

(** C28: any [M] of the [N] players can rebuild a player's blinding factors.
    After [cards777_calcmofn] has split them, [cards777_recover], given the
    shares of at least [M] players (null pointers elsewhere), returns exactly
    the bytes of [xoverz]. *)
Theorem cards777_recover_calcmofn blank rnd allshares myshares nrs M xoverz numcards N shares :
  let sz := N * 32 * numcards in
  blank_ok blank -> 0 < M <= N -> N < 255 -> 0 <= numcards -> N * sz < 2147483648 ->
  N * sz <= Z.of_nat (length allshares) -> N <= Z.of_nat (length myshares) ->
  (M - 1) * sz <= Z.of_nat (length rnd) -> bytes rnd ->
  Forall bits256_ok xoverz -> Z.of_nat (length xoverz) = numcards * N ->
  N <= Z.of_nat (length nrs) ->
  Forall good_nr (take (Z.to_nat N) nrs) -> NoDup (take (Z.to_nat N) nrs) ->
  N <= Z.of_nat (length shares) -> M <= Z.of_nat (provided shares N) ->
  exists all my,
    cards777_calcmofn rnd allshares myshares nrs M xoverz numcards N = Some (all, my, sz) /\
    ((forall i off, 0 <= i < N -> shares !! Z.to_nat i = Some (Some off) -> aget my i = Some off) ->
     cards777_recover blank all shares nrs M numcards N = Some (concat xoverz)).
Proof.
  intros sz Hbl HM HN Hnc Hov Hall Hmy Hr Br Hx Hxl Hnl Hg Hnd Hsl Hprov.
  assert (0 <= sz) by (unfold sz; nia). assert (sz <= N * sz) by nia.
  destruct (calcmofn_spec rnd allshares myshares nrs M xoverz numcards N)
    as (buf & all & my & E & L & Hof & Hmy'); [lia|lia|lia|fold sz; lia|done|done|done|done|done|lia|lia|done|].
  fold sz in Hof, E, Hmy'. exists all, my. split; [done|]. intros Hsh.
  destruct (concat_bits256 xoverz Hx) as [Lx Bx].
  unfold cards777_recover. fold sz.
  destruct (recovernrs_spec shares nrs N) as (rec & Er & Lr & Hrec); [lia..|].
  pose proof (recovernrs_bytes _ _ _ _ Hg Hrec) as Brec.
  rewrite Er. cbn [mbind option_bind].
  destruct (dec_init_spec blank rec N sz) as (nrs' & Ei & Ln & Bn); [done|lia|lia|lia|done|done|].
  rewrite Ei. cbn [mbind option_bind]. destruct (Hbl (N * sz)) as [Lb Bb]; [lia|].
  destruct (giveshares_spec shares all N sz (mk_gfshare_ctx N 0 sz (N * sz) nrs' (blank (N * sz))))
    as (b & Eg & Lgb & Bgb & Hgb); [lia|lia|lia|lia|done|simpl; lia|done| |].
  { intros i off Hi Hs. apply (Hsh i off Hi) in Hs. rewrite Hmy' in Hs by done.
    simplify_eq. split; [nia|]. split; [nia|]. eapply share_window_bytes; done. }
  rewrite Eg. cbn [mbind option_bind]. unfold gfshare_ctx_dec_newshares. simpl.
  destruct (memcpy_in_range nrs' 0 rec 0 N) as (rec' & Ec & Lc & Hc); [lia..|].
  rewrite Ec. simpl. unfold gfshare_ctx_dec_extract. simpl.
  assert (forall i : nat, (i < Z.to_nat N)%nat -> rec' !! i =
     match shares !! i with Some (Some _) => nrs !! i | _ => Some 0 end) as Hrec'.
  { intros i Hi. rewrite Hc, decide_True by lia.
    replace (Z.to_nat (Z.of_nat i - 0 + 0)) with i by lia. by rewrite Hrec, decide_True by lia. }
  destruct (recombine buf (concat xoverz) all nrs sz M N rec' b (replicate (Z.to_nat sz) 0))
    as (out & Eo & Lo & To); try done; try (simpl in *; lia).
  - intros i x Hi Hx0. rewrite Hrec' in Hx0 by done.
    destruct (shares !! i) as [[?|]|]; [right; done|left; congruence..].
  - eapply memcpy_bytes; [| |exact Ec]; done.
  - erewrite provided_points; (done || lia).
  - intros i x j Hi Hx0 Hne Hj. rewrite Hrec' in Hx0 by lia.
    destruct (shares !! Z.to_nat i) as [[off|]|] eqn:Es; simplify_eq.
    rewrite (Hgb i off j) by done. apply (Hsh i off Hi) in Es. rewrite Hmy' in Es by done.
    by simplify_eq.
  - rewrite length_replicate. lia.
  - rewrite Eo. f_equal. rewrite length_replicate in Lo.
    rewrite <- (take_ge out (Z.to_nat sz)), To by lia. apply take_ge. lia.
Qed.

(** ** Witnesses *)

(** Bytewise exclusive or is a concrete group with the laws of [FieldOps]. *)
Definition xor256 (a b : bits256) : bits256 := zip_with Z.lxor a b.

Lemma xor256_cancel x c : length x = length c -> xor256 x (xor256 x c) = c.
Proof.
  revert c. induction x as [|a x IH]; intros [|b c] H; simplify_eq/=; [done|].
  by rewrite IH, <- Z.lxor_assoc, Z.lxor_nilpotent, Z.lxor_0_l.
Qed.

Definition XorOps : FieldOps.
Proof.
  refine {| fmul_donna := xor256; crecip_donna := fun x => x;
            canonical := fun x => length x = 32%nat |}.
  intros x c Hx _ Hc. apply xor256_cancel. congruence.
Defined.

Definition byte32 (b : Z) : bits256 := replicate 32 b.

Lemma blank_ok_zero : blank_ok (fun n => replicate (Z.to_nat n) 0).
Proof. intros n Hn. split; [apply length_replicate|apply bytes_replicate_0]. Qed.

Lemma cards777_shuffle_perm_witness :
  exists p shuffled', cards777_shuffle [200; 3] (replicate 52 0) (replicate 4 zero256)
      (byte32 <$> [10; 11; 20; 21]) 2 2 = Some (shuffled', 0) /\ p ≡ₚ positions 2 /\
    length shuffled' = 4%nat /\
    forall i j pi, 0 <= i < 2 -> 0 <= j < 2 -> p !! Z.to_nat i = Some pi ->
      shuffled' !! Z.to_nat (i * 2 + j) = (byte32 <$> [10; 11; 20; 21]) !! Z.to_nat (pi * 2 + j).
Proof.
  apply (cards777_shuffle_perm [200; 3] (replicate 52 0) (replicate 4 zero256)
    (byte32 <$> [10; 11; 20; 21]) 2 2); concrete.
Defined.

Lemma cards777_decode_layer_witness :
  exists layered' xoverz',
    @cards777_layer XorOps (byte32 <$> [1; 2]) [zero256; zero256] [zero256; zero256]
      (byte32 <$> [70; 80]) 2 1 = Some (layered', xoverz') /\
    @cards777_decode XorOps xoverz' 0 (byte32 82) layered' 2 1 = Some (byte32 2, byte32 80).
Proof.
  destruct (@cards777_decode_layer XorOps (byte32 <$> [1; 2]) [zero256; zero256] [zero256; zero256]
      (byte32 <$> [70; 80]) 2 1 1 0 (byte32 2) (byte32 80)) as (l & x & E & b & Hb & H);
    [first [concrete | vm_compute; reflexivity]..|].
  exists l, x. split; [exact E|]. vm_compute in E. injection E as <- <-.
  vm_compute in Hb. injection Hb as <-. apply H.
  intros k Hk. assert (k = 0) as -> by lia. vm_compute. congruence.
Defined.

Lemma cards777_recover_calcmofn_witness :
  exists all my,
    cards777_calcmofn (replicate 64 5) (replicate 128 0) [0; 0] [3; 8] 2
      (byte32 <$> [70; 80]) 1 2 = Some (all, my, 64) /\
    cards777_recover (fun n => replicate (Z.to_nat n) 0) all [Some 0; Some 64] [3; 8] 2 1 2
      = Some (concat (byte32 <$> [70; 80])).
Proof.
  destruct (cards777_recover_calcmofn (fun n => replicate (Z.to_nat n) 0) (replicate 64 5)
    (replicate 128 0) [0; 0] [3; 8] 2 (byte32 <$> [70; 80]) 1 2 [Some 0; Some 64])
    as (all & my & E & H); [exact blank_ok_zero|concrete..|].
  exists all, my. split; [exact E|]. vm_compute in E. injection E as <- <-.
  apply H. intros i off Hi Ho. assert (i = 0 \/ i = 1) as [-> | ->] by lia;
    vm_compute in Ho; injection Ho as <-; reflexivity.
Defined.
