(* ===== verification/Bits.v ===== *)
(** * Bits: bit arrays, Hamming weights, Bloom filters and the CRC

    Models [plugins/utils/bits777.c] and the bit-by-bit copy and the message
    envelope of [plugins/common/hostnet777.c].  A bit array is an array of bytes;
    [bits + base] is the array from byte [base] on. *)

From S2P Require Import Prelude.

(** ** The macros *)

Definition SETBIT (bits : list Z) (base bitoffset : Z) : option (list Z) :=
  let i := base + Z.shiftr bitoffset 3 in
  b ← aget bits i; aset bits i (u8 (Z.lor b (Z.shiftl 1 (Z.land bitoffset 7)))).

Definition GETBIT (bits : list Z) (base bitoffset : Z) : option Z :=
  b ← aget bits (base + Z.shiftr bitoffset 3);
  Some (Z.land b (Z.shiftl 1 (Z.land bitoffset 7))).

Definition CLEARBIT (bits : list Z) (base bitoffset : Z) : option (list Z) :=
  let i := base + Z.shiftr bitoffset 3 in
  b ← aget bits i; aset bits i (u8 (Z.ldiff b (Z.shiftl 1 (Z.land bitoffset 7)))).

(** ** Weights *)

Definition bitweight (x : Z) : Z :=
  foldl (fun wt i => if negb (Z.land (Z.shiftl 1 i) x =? 0) then wt + 1 else wt) 0
        (Z.of_nat <$> seq 0 64).

(** [a.ulongs[i]] of a union over [bytes]. *)
Definition ulong (bytes : list Z) (i : Z) : Z := le_int (take 8 (drop (Z.to_nat (8 * i)) bytes)).

Definition wt384 (a b : list Z) : Z :=
  foldl (fun n i => n + bitweight (Z.lxor (ulong a i) (ulong b i))) 0 (Z.of_nat <$> seq 0 6).

Definition spectrum384 (spectrum a b : list Z) : option (list Z * Z) :=
  for_ (fun i '(spectrum, n) =>
          x ← GETBIT a 0 i; y ← GETBIT b 0 i;
          if negb (Z.lxor x y =? 0) then
            c ← aget spectrum i; spectrum ← aset spectrum i (s32 (c + 1)); Some (spectrum, n + 1)
          else Some (spectrum, n)) 0 384 (spectrum, 0).

(** ** Bloom filters *)

Definition NUM_BLOOMPRIMES : Z := 8.
Definition bloomprimes : list Z := [79559; 79631; 79691; 79697; 79811; 79841; 79901; 79997].

(** [struct bloombits] is one block: eight rows of [79997/8 + 1] bytes, then
    eight bytes of padding. *)
Definition BLOOMROW : Z := 79997 / 8 + 1.
Definition BLOOMSIZE : Z := NUM_BLOOMPRIMES * BLOOMROW + 8.

Definition set_bloombits (bloom : list Z) (nxt64bits : Z) : option (list Z) :=
  for_ (fun i bloom => p ← aget bloomprimes i; SETBIT bloom (i * BLOOMROW) (nxt64bits mod p))
       0 (Z.to_nat NUM_BLOOMPRIMES) bloom.

Fixpoint in_bloombits_from (bloom : list Z) (nxt64bits i : Z) (n : nat) : option Z :=
  match n with
  | O => Some 1
  | S n =>
      p ← aget bloomprimes i;
      b ← GETBIT bloom (i * BLOOMROW) (nxt64bits mod p);
      if b =? 0 then Some 0 else in_bloombits_from bloom nxt64bits (i + 1) n
  end.

Definition in_bloombits (bloom : list Z) (nxt64bits : Z) : option Z :=
  in_bloombits_from bloom nxt64bits 0 (Z.to_nat NUM_BLOOMPRIMES).

(** [dest[i] |= src[i]] on the 64-bit words of the two blocks. *)
Definition merge_word (src : list Z) (i : Z) (dest : list Z) : option (list Z) :=
  if (Z.of_nat (length src) <? 8 * i + 8) || (Z.of_nat (length dest) <? 8 * i + 8) then None
  else memcpy dest (8 * i) (le_bytes 8 (Z.lor (ulong dest i) (ulong src i))) 0 8.

Definition merge_bloombits (dest src : list Z) : option (list Z) :=
  for_ (merge_word src) 0 (Z.to_nat (BLOOMSIZE / 8)) dest.

(** ** CRC-32 *)

Definition crc32_tab : list Z := [
  0; 1996959894; 3993919788; 2567524794; 124634137; 1886057615; 3915621685; 2657392035;
  249268274; 2044508324; 3772115230; 2547177864; 162941995; 2125561021; 3887607047; 2428444049;
  498536548; 1789927666; 4089016648; 2227061214; 450548861; 1843258603; 4107580753; 2211677639;
  325883990; 1684777152; 4251122042; 2321926636; 335633487; 1661365465; 4195302755; 2366115317;
  997073096; 1281953886; 3579855332; 2724688242; 1006888145; 1258607687; 3524101629; 2768942443;
  901097722; 1119000684; 3686517206; 2898065728; 853044451; 1172266101; 3705015759; 2882616665;
  651767980; 1373503546; 3369554304; 3218104598; 565507253; 1454621731; 3485111705; 3099436303;
  671266974; 1594198024; 3322730930; 2970347812; 795835527; 1483230225; 3244367275; 3060149565;
  1994146192; 31158534; 2563907772; 4023717930; 1907459465; 112637215; 2680153253; 3904427059;
  2013776290; 251722036; 2517215374; 3775830040; 2137656763; 141376813; 2439277719; 3865271297;
  1802195444; 476864866; 2238001368; 4066508878; 1812370925; 453092731; 2181625025; 4111451223;
  1706088902; 314042704; 2344532202; 4240017532; 1658658271; 366619977; 2362670323; 4224994405;
  1303535960; 984961486; 2747007092; 3569037538; 1256170817; 1037604311; 2765210733; 3554079995;
  1131014506; 879679996; 2909243462; 3663771856; 1141124467; 855842277; 2852801631; 3708648649;
  1342533948; 654459306; 3188396048; 3373015174; 1466479909; 544179635; 3110523913; 3462522015;
  1591671054; 702138776; 2966460450; 3352799412; 1504918807; 783551873; 3082640443; 3233442989;
  3988292384; 2596254646; 62317068; 1957810842; 3939845945; 2647816111; 81470997; 1943803523;
  3814918930; 2489596804; 225274430; 2053790376; 3826175755; 2466906013; 167816743; 2097651377;
  4027552580; 2265490386; 503444072; 1762050814; 4150417245; 2154129355; 426522225; 1852507879;
  4275313526; 2312317920; 282753626; 1742555852; 4189708143; 2394877945; 397917763; 1622183637;
  3604390888; 2714866558; 953729732; 1340076626; 3518719985; 2797360999; 1068828381; 1219638859;
  3624741850; 2936675148; 906185462; 1090812512; 3747672003; 2825379669; 829329135; 1181335161;
  3412177804; 3160834842; 628085408; 1382605366; 3423369109; 3138078467; 570562233; 1426400815;
  3317316542; 2998733608; 733239954; 1555261956; 3268935591; 3050360625; 752459403; 1541320221;
  2607071920; 3965973030; 1969922972; 40735498; 2617837225; 3943577151; 1913087877; 83908371;
  2512341634; 3803740692; 2075208622; 213261112; 2463272603; 3855990285; 2094854071; 198958881;
  2262029012; 4057260610; 1759359992; 534414190; 2176718541; 4139329115; 1873836001; 414664567;
  2282248934; 4279200368; 1711684554; 285281116; 2405801727; 4167216745; 1634467795; 376229701;
  2685067896; 3608007406; 1308918612; 956543938; 2808555105; 3495958263; 1231636301; 1047427035;
  2932959818; 3654703836; 1088359270; 936918000; 2847714899; 3736837829; 1202900863; 817233897;
  3183342108; 3401237130; 1404277552; 615818150; 3134207493; 3453421203; 1423857449; 601450431;
  3009837614; 3294710456; 1567103746; 711928724; 3020668471; 3272380065; 1510334235; 755167117].

Definition _crc32 (crc : Z) (buf : list Z) : Z :=
  Z.lxor (foldl (fun crc b =>
      Z.lxor (nth (Z.to_nat (Z.land (Z.lxor crc b) 255)) crc32_tab 0) (Z.shiftr crc 8))
    (Z.lxor crc (2 ^ 32 - 1)) buf) (2 ^ 32 - 1).

(** ** Bitwise copy and the message envelope *)

(** [len] bytes are copied bit by bit into [dest + doff], cleared first.
    Reversal of direction is the caller's exchange of the two arrays. *)
Definition hostnet777_copybits (dest : list Z) (doff : Z) (src : list Z) (soff len : Z)
  : option (list Z) :=
  dest ← memset dest doff 0 len;
  for_ (fun i dest =>
          b ← GETBIT src soff i;
          if b =? 0 then Some dest else SETBIT dest doff i) 0 (Z.to_nat (8 * len)) dest.

(** The fields of the envelope, as the bytes of the C objects. *)
Record envelope := mk_envelope {
  e_destbits : list Z;
  e_senderpub : list Z;
  e_senderbits : list Z;
  e_timestamp : list Z;
  e_sig : list Z;
}.

(** One call of [hostnet777_copybits], from the object to the buffer or back. *)
Definition serialize_field (reverse : bool) (obj buf : list Z) (off len : Z)
  : option (list Z * list Z) :=
  if reverse then obj ← hostnet777_copybits obj 0 buf off len; Some (obj, buf)
  else buf ← hostnet777_copybits buf off obj 0 len; Some (obj, buf).

(** The result is the fields, the buffer and the size of the envelope. *)
Definition hostnet777_serialize (reverse : bool) (e : envelope) (buf : list Z)
  : option (envelope * list Z * Z) :=
  '(destbits, buf) ← serialize_field reverse (e_destbits e) buf 0 8;
  '(senderpub, buf) ← serialize_field reverse (e_senderpub e) buf 8 32;
  '(senderbits, buf) ← serialize_field reverse (e_senderbits e) buf 40 8;
  '(timestamp, buf) ← serialize_field reverse (e_timestamp e) buf 48 4;
  if negb (le_int senderbits =? 0) then
    '(sig, buf) ← serialize_field reverse (e_sig e) buf 52 32;
    Some (mk_envelope destbits senderpub senderbits timestamp sig, buf, 84)
  else
    sig ← memset (e_sig e) 0 0 32;
    Some (mk_envelope destbits senderpub senderbits timestamp sig, buf, 52).

(** ** Lemmas on bits *)

Lemma land_7 i : Z.land i 7 = i mod 8.
Proof. change 7 with (Z.ones 3). by rewrite Z.land_ones. Qed.

Lemma shiftr_3 i : Z.shiftr i 3 = i / 8.
Proof. by rewrite Z.shiftr_div_pow2. Qed.

Lemma land_bit_0 b j : 0 <= j -> (Z.land b (Z.shiftl 1 j) =? 0) = negb (Z.testbit b j).
Proof.
  intros Hj. rewrite Z.shiftl_1_l. destruct (Z.eqb_spec (Z.land b (2 ^ j)) 0) as [E|E].
  - apply (f_equal (fun x => Z.testbit x j)) in E.
    rewrite Z.land_spec, Z.pow2_bits_true, Z.bits_0, andb_true_r in E by lia. by rewrite E.
  - destruct (Z.testbit b j) eqn:Hb; [done|]. destruct E. apply Z.bits_inj'. intros k Hk.
    rewrite Z.land_spec, Z.bits_0, Z.pow2_bits_eqb by lia.
    destruct (Z.eqb_spec j k) as [->|]; [by rewrite Hb|apply andb_false_r].
Qed.

Lemma byte_testbit_high b j : is_byte b -> 8 <= j -> Z.testbit b j = false.
Proof.
  intros Hb Hj. unfold is_byte in Hb. destruct (decide (b = 0)) as [->|]; [apply Z.bits_0|].
  apply Z.bits_above_log2; [lia|]. assert (Z.log2 b < 8); [|lia]. apply Z.log2_lt_pow2; lia.
Qed.

Lemma byte_of_bits b : 0 <= b -> (forall j, 8 <= j -> Z.testbit b j = false) -> is_byte b.
Proof.
  intros Hb Hj. unfold is_byte. split; [done|]. destruct (decide (b < 256)) as [|Hge]; [done|].
  assert (8 <= Z.log2 b) as Hl by (apply Z.log2_le_pow2; lia).
  specialize (Hj (Z.log2 b) Hl). rewrite Z.bit_log2 in Hj by lia. done.
Qed.

Lemma lor_bit_byte b j : is_byte b -> 0 <= j < 8 -> is_byte (Z.lor b (Z.shiftl 1 j)).
Proof.
  intros Hb Hj. rewrite Z.shiftl_1_l. apply byte_of_bits.
  - apply Z.lor_nonneg. unfold is_byte in Hb. split; [lia|]. apply Z.pow_nonneg. lia.
  - intros k Hk. rewrite Z.lor_spec, byte_testbit_high, Z.pow2_bits_eqb by (done || lia).
    destruct (Z.eqb_spec j k); [lia|done].
Qed.

(** Taking one more low bit of [x]. *)
Lemma low_bits_succ x j : 0 <= j ->
  Z.land x (Z.ones (j + 1)) =
    if Z.testbit x j then Z.lor (Z.land x (Z.ones j)) (Z.shiftl 1 j) else Z.land x (Z.ones j).
Proof.
  intros Hj. apply Z.bits_inj'. intros k Hk. rewrite Z.shiftl_1_l.
  transitivity (Z.testbit x k && (k <? j + 1)).
  { rewrite Z.land_spec. f_equal.
    destruct (Z.ltb_spec k (j + 1)); [apply Z.ones_spec_low|apply Z.ones_spec_high]; lia. }
  assert (Z.testbit (Z.land x (Z.ones j)) k = Z.testbit x k && (k <? j)) as El.
  { rewrite Z.land_spec. f_equal.
    destruct (Z.ltb_spec k j); [apply Z.ones_spec_low|apply Z.ones_spec_high]; lia. }
  destruct (Z.testbit x j) eqn:Hx; rewrite ?Z.lor_spec, El, ?Z.pow2_bits_eqb by lia.
  all: destruct (Z.ltb_spec k (j + 1)), (Z.ltb_spec k j); try lia;
    rewrite ?andb_true_r, ?andb_false_r, ?orb_false_r; try done.
  all: try (replace k with j by lia; by rewrite ?Hx, ?Z.eqb_refl).
  all: destruct (Z.eqb_spec j k); try lia; by rewrite ?orb_false_r.
Qed.

Lemma land_byte_ones b : is_byte b -> Z.land b (Z.ones 8) = b.
Proof. intros Hb. unfold is_byte in Hb. rewrite Z.land_ones by lia. apply Z.mod_small. lia. Qed.

Lemma land_ones_byte b j : is_byte b -> 0 <= j -> is_byte (Z.land b (Z.ones j)).
Proof.
  intros Hb Hj. unfold is_byte in *. rewrite Z.land_ones by lia.
  pose proof (Z.mod_pos_bound b (2 ^ j)). assert (0 < 2 ^ j) by (apply Z.pow_pos_nonneg; lia).
  pose proof (Z.mod_le b (2 ^ j)). lia.
Qed.

(** ** The bitwise copy is [memcpy] *)

(** Bits of byte [t] of the source already copied after [i] steps. *)
Definition copied (i t : Z) : Z := Z.max 0 (Z.min 8 (i - 8 * t)).

Lemma copybits_step src soff i b : 0 <= i ->
  aget src (soff + i / 8) = Some b ->
  GETBIT src soff i = Some (Z.land b (Z.shiftl 1 (i mod 8))).
Proof. intros Hi Hb. unfold GETBIT. by rewrite shiftr_3, land_7, Hb. Qed.

Lemma copied_next i : 0 <= i ->
  copied i (i / 8) = i mod 8 /\ copied (i + 1) (i / 8) = i mod 8 + 1.
Proof.
  intros Hi. unfold copied. pose proof (Z.div_mod i 8). pose proof (Z.mod_pos_bound i 8). lia.
Qed.

Lemma copied_other i t : 0 <= i -> t <> i / 8 -> copied (i + 1) t = copied i t.
Proof.
  intros Hi Ht. unfold copied.
  pose proof (Z.div_mod i 8 ltac:(lia)). pose proof (Z.mod_pos_bound i 8 ltac:(lia)).
  destruct (Z.lt_total t (i / 8)) as [|[|]]; lia.
Qed.

Definition copy_inv (dest src : list Z) (doff soff len i : Z) (t : list Z) : Prop :=
  length t = length dest /\
  forall k, t !! k = if decide (doff <= Z.of_nat k < doff + len)
    then (fun x => Z.land x (Z.ones (copied i (Z.of_nat k - doff))))
           <$> src !! Z.to_nat (Z.of_nat k - doff + soff)
    else dest !! k.

Lemma copy_inv_step dest src doff soff len i t :
  0 <= doff -> 0 <= soff -> doff + len <= Z.of_nat (length dest) ->
  soff + len <= Z.of_nat (length src) -> bytes src -> 0 <= i < 8 * len ->
  copy_inv dest src doff soff len i t ->
  exists t', (b ← GETBIT src soff i; if b =? 0 then Some t else SETBIT t doff i) = Some t' /\
    copy_inv dest src doff soff len (i + 1) t'.
Proof.
  intros Hd Hs Hdl Hsl Bs Hi [Lt Ht].
  assert (0 <= i / 8 < len) as Hq by (split; [apply Z.div_pos; lia|apply Z.div_lt_upper_bound; lia]).
  pose proof (Z.mod_pos_bound i 8 ltac:(lia)) as Hm.
  destruct (copied_next i) as [C1 C2]; [lia|].
  destruct (aget_is_Some src (soff + i / 8)) as (b & Hb & Eb); [lia|].
  assert (is_byte b) as Bb by by apply (Forall_lookup_1 _ _ _ _ Bs Hb).
  rewrite (copybits_step src soff i b) by (done || lia). cbn [mbind option_bind].
  rewrite land_bit_0 by lia.
  set (k := Z.to_nat (doff + i / 8)).
  assert (t !! k = Some (Z.land b (Z.ones (i mod 8)))) as Hk.
  { rewrite Ht, decide_True by (unfold k; lia).
    replace (Z.of_nat k - doff) with (i / 8) by (unfold k; lia).
    rewrite Z.add_comm, Hb, C1. done. }
  assert (forall t', length t' = length t ->
     t' !! k = Some (Z.land b (Z.ones (i mod 8 + 1))) ->
     (forall j, j <> k -> t' !! j = t !! j) -> copy_inv dest src doff soff len (i + 1) t') as Hfin.
  { intros t' L' Hk' Hne. split; [congruence|]. intros j. destruct (decide (j = k)) as [->|Hj].
    - rewrite Hk', decide_True by (unfold k; lia).
      replace (Z.of_nat k - doff) with (i / 8) by (unfold k; lia).
      rewrite (Z.add_comm _ soff), Hb, C2. done.
    - rewrite Hne, Ht by done. case_decide; [|done].
      rewrite copied_other; [done|lia|]. unfold k in Hj. lia. }
  pose proof (low_bits_succ b (i mod 8) ltac:(lia)) as Hlow.
  destruct (Z.testbit b (i mod 8)); cbn [negb].
  - assert (aget t (doff + i / 8) = Some (Z.land b (Z.ones (i mod 8)))) as Et
      by (apply aget_lookup; [lia|exact Hk]).
    unfold SETBIT. rewrite shiftr_3, land_7, Et.
    cbn [mbind option_bind].
    rewrite u8_small by (apply lor_bit_byte; [apply land_ones_byte|]; (done || lia)).
    rewrite aset_in_range by lia. eexists. split; [reflexivity|]. fold k.
    apply Hfin; [by rewrite length_insert| |].
    + rewrite list_lookup_insert_eq by (unfold k; lia). by rewrite Hlow.
    + intros j Hj. by rewrite list_lookup_insert_ne.
  - exists t. split; [done|]. apply Hfin; [done| |done]. by rewrite Hlow.
Qed.

(** The bit loop copies the bytes: [hostnet777_copybits] is [memcpy]. *)
Lemma copybits_memcpy dest doff src soff len :
  0 <= doff -> 0 <= soff -> 0 <= len -> doff + len <= Z.of_nat (length dest) ->
  soff + len <= Z.of_nat (length src) -> bytes src ->
  hostnet777_copybits dest doff src soff len = memcpy dest doff src soff len.
Proof.
  intros Hd Hs Hl Hdl Hsl Bs. unfold hostnet777_copybits, memset.
  destruct (memcpy_in_range dest doff (replicate (Z.to_nat len) 0) 0 len) as (d0 & E0 & L0 & H0);
    [lia|lia|lia|lia|rewrite length_replicate; lia|].
  rewrite E0. cbn [mbind option_bind].
  destruct (for_inv (copy_inv dest src doff soff len)
    (fun i dest => b ← GETBIT src soff i; if b =? 0 then Some dest else SETBIT dest doff i)
    (Z.to_nat (8 * len)) 0 d0) as (t & -> & [Lt Ht]).
  - split; [done|]. intros k. rewrite H0. case_decide; [|done].
    destruct (lookup_lt_is_Some_2 src (Z.to_nat (Z.of_nat k - doff + soff))) as [x ->]; [lia|].
    rewrite lookup_replicate_2 by lia. simpl. f_equal.
    replace (copied 0 (Z.of_nat k - doff)) with 0 by (unfold copied; lia). by rewrite Z.land_0_r.
  - intros i t Hi Hinv. apply copy_inv_step; (done || lia).
  - destruct (memcpy_in_range dest doff src soff len) as (d1 & -> & L1 & H1); [lia..|].
    f_equal. apply list_eq. intros k. rewrite Ht, H1. case_decide; [|done].
    destruct (src !! Z.to_nat (Z.of_nat k - doff + soff)) as [x|] eqn:Hx; [|done]. simpl.
    f_equal. replace (copied _ _) with 8 by (unfold copied; lia). apply land_byte_ones.
    by apply (Forall_lookup_1 _ _ _ _ Bs Hx).
Qed.

Lemma memcpy_write pre mid post obj :
  length obj = length mid ->
  memcpy (pre ++ mid ++ post) (Z.of_nat (length pre)) obj 0 (Z.of_nat (length obj))
    = Some (pre ++ obj ++ post).
Proof.
  intros HL. unfold memcpy. rewrite !length_app.
  destruct (Z.ltb_spec (Z.of_nat (length pre)) 0); [lia|].
  destruct (Z.ltb_spec (Z.of_nat (length obj)) 0); [lia|].
  destruct (Z.ltb_spec (Z.of_nat (length pre + (length mid + length post)))
              (Z.of_nat (length pre) + Z.of_nat (length obj))); [lia|].
  destruct (Z.ltb_spec (Z.of_nat (length obj)) (0 + Z.of_nat (length obj))); [lia|].
  cbn [orb]. f_equal. rewrite !Nat2Z.id, take_app_length. f_equal.
  rewrite drop_0, take_ge by lia. f_equal.
  replace (Z.to_nat (Z.of_nat (length pre) + Z.of_nat (length obj)))
    with (length pre + length mid)%nat by lia.
  by rewrite drop_app_add, drop_app_length.
Qed.

Lemma memcpy_read pre obj post dst :
  length dst = length obj ->
  memcpy dst 0 (pre ++ obj ++ post) (Z.of_nat (length pre)) (Z.of_nat (length obj)) = Some obj.
Proof.
  intros HL. unfold memcpy. rewrite !length_app.
  destruct (Z.ltb_spec (Z.of_nat (length pre)) 0); [lia|].
  destruct (Z.ltb_spec (Z.of_nat (length obj)) 0); [lia|].
  destruct (Z.ltb_spec (Z.of_nat (length dst)) (0 + Z.of_nat (length obj))); [lia|].
  destruct (Z.ltb_spec (Z.of_nat (length pre + (length obj + length post)))
              (Z.of_nat (length pre) + Z.of_nat (length obj))); [lia|].
  cbn [orb]. f_equal. rewrite !Nat2Z.id, drop_app_length, take_app_length.
  change (Z.to_nat 0) with 0%nat. rewrite drop_ge by lia. by rewrite take_0, app_nil_r.
Qed.

(** [n] bytes. *)
Definition obj_ok (n : nat) (x : list Z) : Prop := length x = n /\ bytes x.

#[export] Instance obj_ok_dec n x : Decision (obj_ok n x).
Proof. unfold obj_ok. apply _. Defined.

Lemma field_write pre mid post obj off n :
  obj_ok n obj -> length mid = n -> off = Z.of_nat (length pre) ->
  serialize_field false obj (pre ++ mid ++ post) off (Z.of_nat n) = Some (obj, pre ++ obj ++ post).
Proof.
  intros [L B] Lm ->. unfold serialize_field. subst n.
  rewrite copybits_memcpy, memcpy_write; [done|done|lia|lia|lia|rewrite !length_app; lia|lia|done].
Qed.

Lemma field_read pre post obj obj0 off n :
  obj_ok n obj -> length obj0 = n -> off = Z.of_nat (length pre) -> bytes pre -> bytes post ->
  serialize_field true obj0 (pre ++ obj ++ post) off (Z.of_nat n) = Some (obj, pre ++ obj ++ post).
Proof.
  intros [L B] L0 -> Bp Bq. unfold serialize_field. subst n.
  rewrite copybits_memcpy, memcpy_read; [done|done|lia|lia|lia|lia|rewrite !length_app; lia|].
  by repeat apply Forall_app_2.
Qed.

Record envelope_ok (e : envelope) : Prop := mk_envelope_ok {
  eo_destbits : obj_ok 8 (e_destbits e);
  eo_senderpub : obj_ok 32 (e_senderpub e);
  eo_senderbits : obj_ok 8 (e_senderbits e);
  eo_timestamp : obj_ok 4 (e_timestamp e);
  eo_sig : obj_ok 32 (e_sig e);
}.

(** What a receiver sees of an envelope: without a sender the signature is zero. *)
Definition received (e : envelope) : envelope :=
  if le_int (e_senderbits e) =? 0
  then mk_envelope (e_destbits e) (e_senderpub e) (e_senderbits e) (e_timestamp e) (replicate 32 0)
  else e.

Lemma split_at {A} (l : list A) (n : nat) : (n <= length l)%nat ->
  exists a b, l = a ++ b /\ length a = n.
Proof.
  intros H. exists (take n l), (drop n l). by rewrite take_drop, length_take_le.
Qed.

Definition payload (e : envelope) : list Z :=
  e_destbits e ++ e_senderpub e ++ e_senderbits e ++ e_timestamp e ++
  (if le_int (e_senderbits e) =? 0 then [] else e_sig e).

Lemma memset_whole l : length l = 32%nat -> memset l 0 0 32 = Some (replicate 32 0).
Proof.
  intros L. unfold memset. rewrite <- (app_nil_r l), <- (app_nil_l (l ++ [])).
  exact (memcpy_write [] l [] (replicate 32 0) (eq_sym L)).
Qed.

Lemma serialize_write e buf : envelope_ok e -> (84 <= length buf)%nat ->
  exists rest n, hostnet777_serialize false e buf = Some (received e, payload e ++ rest, n) /\
    n = Z.of_nat (length (payload e)) /\ rest = drop (length (payload e)) buf.
Proof.
  intros [Hd Hp Hs Ht Hg] Hbuf.
  destruct (split_at buf 8) as (b1 & r1 & -> & L1); [lia|]. rewrite length_app in Hbuf.
  destruct (split_at r1 32) as (b2 & r2 & -> & L2); [lia|]. rewrite length_app in Hbuf.
  destruct (split_at r2 8) as (b3 & r3 & -> & L3); [lia|]. rewrite length_app in Hbuf.
  destruct (split_at r3 4) as (b4 & r4 & -> & L4); [lia|]. rewrite length_app in Hbuf.
  destruct (split_at r4 32) as (b5 & r5 & -> & L5); [lia|].
  pose proof (field_write [] b1 (b2 ++ b3 ++ b4 ++ b5 ++ r5) _ 0 8 Hd L1 eq_refl) as E1.
  pose proof (field_write (e_destbits e) b2 (b3 ++ b4 ++ b5 ++ r5) _ 8 32 Hp L2
    ltac:(rewrite (proj1 Hd); done)) as E2.
  pose proof (field_write (e_destbits e ++ e_senderpub e) b3 (b4 ++ b5 ++ r5) _ 40 8 Hs L3
    ltac:(rewrite length_app, (proj1 Hd), (proj1 Hp); done)) as E3.
  pose proof (field_write (e_destbits e ++ e_senderpub e ++ e_senderbits e) b4 (b5 ++ r5) _ 48 4 Ht L4
    ltac:(rewrite !length_app, (proj1 Hd), (proj1 Hp), (proj1 Hs); done)) as E4.
  pose proof (field_write (e_destbits e ++ e_senderpub e ++ e_senderbits e ++ e_timestamp e) b5 r5 _ 52 32 Hg L5
    ltac:(rewrite !length_app, (proj1 Hd), (proj1 Hp), (proj1 Hs), (proj1 Ht); done)) as E5.
  change (Z.of_nat 8) with 8 in *. change (Z.of_nat 32) with 32 in *. change (Z.of_nat 4) with 4 in *.
  rewrite <- ?app_assoc in *. simpl app in E1.
  unfold hostnet777_serialize. rewrite E1. cbn [mbind option_bind]. rewrite E2.
  cbn [mbind option_bind]. rewrite E3. cbn [mbind option_bind]. rewrite E4.
  cbn [mbind option_bind]. unfold received, payload.
  destruct (Z.eqb_spec (le_int (e_senderbits e)) 0) as [Hz|Hz]; cbn [negb].
  - rewrite memset_whole by apply Hg. cbn [mbind option_bind].
    exists (b5 ++ r5), 52. rewrite app_nil_r, <- !app_assoc. split; [done|].
    rewrite !length_app, (proj1 Hd), (proj1 Hp), (proj1 Hs), (proj1 Ht). split; [done|].
    rewrite !app_assoc. rewrite <- (app_assoc _ b5 r5). rewrite drop_app_length'; [done|].
    rewrite !length_app. lia.
  - rewrite E5. cbn [mbind option_bind]. exists r5, 84. rewrite <- !app_assoc. destruct e.
    split; [done|]. simpl in *.
    rewrite !length_app, (proj1 Hd), (proj1 Hp), (proj1 Hs), (proj1 Ht), (proj1 Hg).
    split; [done|]. rewrite !app_assoc. rewrite drop_app_length'; [done|]. rewrite !length_app. lia.
Qed.

Lemma serialize_read e e0 rest : envelope_ok e -> envelope_ok e0 -> bytes rest ->
  hostnet777_serialize true e0 (payload e ++ rest)
    = Some (received e, payload e ++ rest, Z.of_nat (length (payload e))).
Proof.
  intros He He0 Br.
  destruct He as [Hd Hp Hs Ht Hg]. destruct He0 as [Hd0 Hp0 Hs0 Ht0 Hg0].
  set (tl := if le_int (e_senderbits e) =? 0 then [] else e_sig e).
  assert (bytes tl) as Btl by (unfold tl; case_match; [constructor|apply Hg]).
  pose proof (field_read [] (e_senderpub e ++ e_senderbits e ++ e_timestamp e ++ tl ++ rest) _ _ 0 8
    Hd (proj1 Hd0) eq_refl ltac:(constructor)
    ltac:(repeat apply Forall_app_2; (apply Hp || apply Hs || apply Ht || done))) as E1.
  pose proof (field_read (e_destbits e) (e_senderbits e ++ e_timestamp e ++ tl ++ rest) _ _ 8 32
    Hp (proj1 Hp0) ltac:(rewrite (proj1 Hd); done) (proj2 Hd)
    ltac:(repeat apply Forall_app_2; (apply Hs || apply Ht || done))) as E2.
  pose proof (field_read (e_destbits e ++ e_senderpub e) (e_timestamp e ++ tl ++ rest) _ _ 40 8
    Hs (proj1 Hs0) ltac:(rewrite length_app, (proj1 Hd), (proj1 Hp); done)
    ltac:(apply Forall_app_2; [apply Hd|apply Hp])
    ltac:(repeat apply Forall_app_2; (apply Ht || done))) as E3.
  pose proof (field_read (e_destbits e ++ e_senderpub e ++ e_senderbits e) (tl ++ rest) _ _ 48 4
    Ht (proj1 Ht0) ltac:(rewrite !length_app, (proj1 Hd), (proj1 Hp), (proj1 Hs); done)
    ltac:(repeat apply Forall_app_2; [apply Hd|apply Hp|apply Hs])
    ltac:(repeat apply Forall_app_2; done)) as E4.
  pose proof (field_read (e_destbits e ++ e_senderpub e ++ e_senderbits e ++ e_timestamp e) rest _ _ 52 32
    Hg (proj1 Hg0) ltac:(rewrite !length_app, (proj1 Hd), (proj1 Hp), (proj1 Hs), (proj1 Ht); done)
    ltac:(repeat apply Forall_app_2; [apply Hd|apply Hp|apply Hs|apply Ht]) Br) as E5.
  change (Z.of_nat 8) with 8 in *. change (Z.of_nat 32) with 32 in *. change (Z.of_nat 4) with 4 in *.
  rewrite <- ?app_assoc in *. simpl app in E1.
  unfold hostnet777_serialize, payload. fold tl. rewrite <- ?app_assoc.
  rewrite E1. cbn [mbind option_bind]. rewrite E2.
  cbn [mbind option_bind]. rewrite E3. cbn [mbind option_bind]. rewrite E4.
  cbn [mbind option_bind]. unfold received. subst tl.
  destruct (Z.eqb_spec (le_int (e_senderbits e)) 0) as [Hz|Hz]; cbn [negb].
  - rewrite memset_whole by apply Hg0. cbn [mbind option_bind]. do 2 f_equal.
    rewrite !length_app, (proj1 Hd), (proj1 Hp), (proj1 Hs), (proj1 Ht). done.
  - rewrite E5. cbn [mbind option_bind]. destruct e. do 2 f_equal. simpl in *.
    rewrite !length_app, (proj1 Hd), (proj1 Hp), (proj1 Hs), (proj1 Ht), (proj1 Hg). done.
Qed.

(** the message envelope round trip.  Serializing an envelope into a buffer
    and reading it back yields the same destination, public key, sender,
    timestamp and signature (an anonymous envelope, sender 0, carries no
    signature and reads back a zero one); both report the same size, 84 or 52
    bytes, and the rest of the buffer is untouched. *)
Theorem hostnet777_serialize_roundtrip e e0 buf :
  envelope_ok e -> envelope_ok e0 -> (84 <= length buf)%nat -> bytes buf ->
  exists buf' n, hostnet777_serialize false e buf = Some (received e, buf', n) /\
    hostnet777_serialize true e0 buf' = Some (received e, buf', n) /\
    n = (if le_int (e_senderbits e) =? 0 then 52 else 84) /\
    drop (Z.to_nat n) buf' = drop (Z.to_nat n) buf.
Proof.
  intros He He0 Hl Bb.
  destruct (serialize_write e buf He Hl) as (rest & n & E & En & Er).
  exists (payload e ++ rest), n. split; [done|].
  rewrite serialize_read by (done || (subst rest; by apply Forall_drop)). subst n.
  split; [done|]. rewrite Nat2Z.id. split.
  - unfold payload. destruct He as [[Hd _] [Hp _] [Hs _] [Ht _] [Hg _]].
    destruct (Z.eqb_spec (le_int (e_senderbits e)) 0);
      rewrite !length_app, Hd, Hp, Hs, Ht, ?Hg; done.
  - by rewrite drop_app_length, <- Er.
Qed.

(** ** CRC-32 *)

(** One bit of the reflected CRC-32 division. *)
Definition crc_bit (x : Z) : Z :=
  if Z.odd x then Z.lxor (Z.shiftr x 1) 3988292384 else Z.shiftr x 1.

Definition crc_byte (crc b : Z) : Z := Nat.iter 8 crc_bit (Z.lxor crc b).

(** The CRC defined bit by bit. *)
Definition crc32_ref (buf : list Z) : Z :=
  Z.lxor (foldl crc_byte (2 ^ 32 - 1) buf) (2 ^ 32 - 1).

Definition crc32_tab_chk :
  forallb (fun i => nth (Z.to_nat i) crc32_tab 0 =? Nat.iter 8 crc_bit i)
    (Z.of_nat <$> seq 0 256) = true := ltac:(compute_true).

Lemma crc32_tab_entry i : is_byte i -> nth (Z.to_nat i) crc32_tab 0 = Nat.iter 8 crc_bit i.
Proof.
  intros Hi. unfold is_byte in Hi. pose proof crc32_tab_chk as H. rewrite forallb_forall in H.
  apply Z.eqb_eq, H. apply list_elem_of_In, list_elem_of_fmap. exists (Z.to_nat i).
  split; [lia|]. apply elem_of_seq. lia.
Qed.

Lemma crc_bit_lxor x y : crc_bit (Z.lxor x y) = Z.lxor (crc_bit x) (crc_bit y).
Proof.
  unfold crc_bit. rewrite Z.shiftr_lxor.
  replace (Z.odd (Z.lxor x y)) with (xorb (Z.odd x) (Z.odd y))
    by (rewrite <- !Z.bit0_odd, Z.lxor_spec; done).
  destruct (Z.odd x), (Z.odd y); cbn [xorb]; apply Z.bits_inj'; intros k Hk;
    rewrite !Z.lxor_spec;
    destruct (Z.testbit (Z.shiftr x 1) k), (Z.testbit (Z.shiftr y 1) k),
      (Z.testbit 3988292384 k); reflexivity.
Qed.

Lemma crc_bits_lxor n x y :
  Nat.iter n crc_bit (Z.lxor x y) = Z.lxor (Nat.iter n crc_bit x) (Nat.iter n crc_bit y).
Proof. induction n as [|n IH]; simpl; [done|]. by rewrite IH, crc_bit_lxor. Qed.

(** Bits above the lowest [n] only move down. *)
Lemma crc_bits_shift (n : nat) q : Nat.iter n crc_bit (Z.shiftl q (Z.of_nat n)) = q.
Proof.
  induction n as [|n IH]; [apply Z.shiftl_0_r|].
  rewrite Nat.iter_succ_r. unfold crc_bit at 2.
  replace (Z.odd (Z.shiftl q (Z.of_nat (S n)))) with false.
  - rewrite Z.shiftr_shiftl_l by lia.
    replace (Z.of_nat (S n) - 1) with (Z.of_nat n) by lia. exact IH.
  - rewrite <- Z.bit0_odd, Z.shiftl_spec_low by lia. done.
Qed.

Lemma crc_step_table crc b : is_byte b -> 0 <= crc ->
  Z.lxor (nth (Z.to_nat (Z.land (Z.lxor crc b) 255)) crc32_tab 0) (Z.shiftr crc 8) = crc_byte crc b.
Proof.
  intros Hb Hc. unfold crc_byte. change 255 with (Z.ones 8).
  set (x := Z.lxor crc b).
  assert (x = Z.lxor (Z.land x (Z.ones 8)) (Z.shiftl (Z.shiftr x 8) 8)) as Ex.
  { apply Z.bits_inj'. intros k Hk.
    rewrite Z.lxor_spec, Z.land_spec, Z.shiftl_spec by lia.
    destruct (decide (k < 8)).
    - rewrite Z.ones_spec_low, (Z.testbit_neg_r _ (k - 8)) by lia.
      by rewrite andb_true_r, xorb_false_r.
    - rewrite Z.ones_spec_high, Z.shiftr_spec by lia. rewrite andb_false_r, xorb_false_l.
      f_equal. lia. }
  rewrite crc32_tab_entry.
  - rewrite Ex at 2. rewrite crc_bits_lxor.
    pose proof (crc_bits_shift 8 (Z.shiftr x 8)) as Hs. change (Z.of_nat 8) with 8 in Hs. rewrite Hs. f_equal. unfold x. rewrite Z.shiftr_lxor.
    unfold is_byte in Hb. rewrite (Z.shiftr_div_pow2 b), (Z.div_small b) by lia.
    by rewrite Z.lxor_0_r.
  - unfold is_byte. rewrite Z.land_ones by lia. apply Z.mod_pos_bound. lia.
Qed.

Lemma crc_bits_nonneg n x : 0 <= x -> 0 <= Nat.iter n crc_bit x.
Proof.
  intros Hx. induction n as [|n IH]; [done|]. simpl. unfold crc_bit at 1.
  assert (0 <= Z.shiftr (Nat.iter n crc_bit x) 1) by (by apply Z.shiftr_nonneg).
  destruct (Z.odd _); [|done]. by apply Z.lxor_nonneg.
Qed.

(** the table-driven [_crc32] computes the CRC-32 defined bit by bit (the
    reflected polynomial 0xEDB88320): every table entry is right and the
    table look-up of a byte is eight bit steps.  Checksums extend: continuing
    from the checksum of a prefix gives the checksum of the whole. *)
Theorem crc32_correct a b : bytes a -> bytes b ->
  _crc32 0 a = crc32_ref a /\ _crc32 (_crc32 0 a) b = _crc32 0 (a ++ b).
Proof.
  intros Ha Hb.
  assert (forall l crc, bytes l -> 0 <= crc ->
    0 <= foldl crc_byte crc l /\
    foldl (fun crc b =>
      Z.lxor (nth (Z.to_nat (Z.land (Z.lxor crc b) 255)) crc32_tab 0) (Z.shiftr crc 8)) crc l
    = foldl crc_byte crc l) as H.
  { intros l crc Hl. revert crc. induction Hl as [|x l Hx Hl IH]; intros crc Hc; [done|].
    cbn [foldl]. rewrite crc_step_table by done. apply IH, crc_bits_nonneg, Z.lxor_nonneg.
    unfold is_byte in Hx. lia. }
  unfold _crc32, crc32_ref. rewrite Z.lxor_0_l. split.
  - by rewrite (proj2 (H a (2 ^ 32 - 1) Ha ltac:(lia))).
  - rewrite Z.lxor_assoc, Z.lxor_nilpotent, Z.lxor_0_r, foldl_app. done.
Qed.

(** ** Bloom filters *)

(** Bit [k] of a block is set. *)
Definition bit_set (l : list Z) (k : Z) : Prop :=
  exists b, l !! Z.to_nat (k / 8) = Some b /\ Z.testbit b (k mod 8) = true.

Definition bloom_ok (l : list Z) : Prop := Z.of_nat (length l) = BLOOMSIZE /\ bytes l.

(** The bit that row [i] keeps for [x]. *)
Definition bloom_key (x i : Z) : Z :=
  8 * (i * BLOOMROW) + x mod (nth (Z.to_nat i) bloomprimes 1).

Definition in_bloom (l : list Z) (x : Z) : Prop := forall i, 0 <= i < 8 -> bit_set l (bloom_key x i).

Lemma bloomprime i : 0 <= i < 8 -> exists p, aget bloomprimes i = Some p /\
  nth (Z.to_nat i) bloomprimes 1 = p /\ 0 < p <= 79997.
Proof.
  intros Hi. assert (i = 0 \/ i = 1 \/ i = 2 \/ i = 3 \/ i = 4 \/ i = 5 \/ i = 6 \/ i = 7) as H by lia.
  destruct_or! H; subst i; eexists; (split; [reflexivity|]); split; (reflexivity || lia).
Qed.

Lemma bloom_key_range x i : 0 <= i < 8 -> 0 <= bloom_key x i / 8 < BLOOMSIZE.
Proof.
  intros Hi. destruct (bloomprime i Hi) as (p & _ & Ep & Hp). unfold bloom_key. rewrite Ep.
  pose proof (Z.mod_pos_bound x p ltac:(lia)).
  change BLOOMROW with 10000. change BLOOMSIZE with 80008. split.
  - apply Z.div_pos; lia.
  - apply Z.div_lt_upper_bound; lia.
Qed.

Lemma key_split base off : 0 <= off ->
  (8 * base + off) / 8 = base + off / 8 /\ (8 * base + off) mod 8 = off mod 8.
Proof.
  intros Ho. rewrite Z.add_comm, (Z.mul_comm 8), Z.div_add, Z.mod_add by lia. lia.
Qed.

Lemma SETBIT_spec l base off : 0 <= base -> 0 <= off -> bytes l ->
  base + off / 8 < Z.of_nat (length l) ->
  exists l', SETBIT l base off = Some l' /\ length l' = length l /\ bytes l' /\
    bit_set l' (8 * base + off) /\ forall k, 0 <= k -> bit_set l k -> bit_set l' k.
Proof.
  intros Hb Ho Bl Hlen. unfold SETBIT. rewrite shiftr_3, land_7.
  assert (0 <= off / 8) by (apply Z.div_pos; lia).
  pose proof (Z.mod_pos_bound off 8 ltac:(lia)).
  destruct (aget_is_Some l (base + off / 8)) as (b & Hlb & ->); [lia|]. cbn [mbind option_bind].
  assert (is_byte b) as Bb by by apply (Forall_lookup_1 _ _ _ _ Bl Hlb).
  assert (is_byte (Z.lor b (Z.shiftl 1 (off mod 8)))) as Bn by by apply lor_bit_byte.
  rewrite aset_in_range, u8_small by (done || lia). eexists. split; [reflexivity|].
  split; [apply length_insert|]. split; [by apply Forall_insert|].
  destruct (key_split base off Ho) as [K1 K2]. split.
  - exists (Z.lor b (Z.shiftl 1 (off mod 8))). rewrite K1, K2. split.
    + apply list_lookup_insert_eq. lia.
    + rewrite Z.lor_spec, Z.shiftl_1_l, Z.pow2_bits_true by lia. apply orb_true_r.
  - intros k Hk (c & Hc & Ht). unfold bit_set.
    destruct (decide (Z.to_nat (k / 8) = Z.to_nat (base + off / 8))) as [E|E].
    + rewrite E in *. simplify_eq. eexists. split; [apply list_lookup_insert_eq; lia|].
      by rewrite Z.lor_spec, Ht.
    + exists c. by rewrite list_lookup_insert_ne.
Qed.

Lemma set_bloombits_spec l x : bloom_ok l ->
  exists l', set_bloombits l x = Some l' /\ bloom_ok l' /\ in_bloom l' x /\
    forall y, in_bloom l y -> in_bloom l' y.
Proof.
  intros [Ll Bl]. unfold set_bloombits.
  match goal with |- context [for_ ?f _ _ _] =>
  destruct (for_inv (fun i t => bloom_ok t /\ (forall j, 0 <= j < i -> bit_set t (bloom_key x j)) /\
     forall k, 0 <= k -> bit_set l k -> bit_set t k) f (Z.to_nat NUM_BLOOMPRIMES) 0 l)
    as (l' & E & Hok & Hin & Hmono) end.
  - split; [done|]. split; [intros; lia|done].
  - intros i t Hi ([Lt Bt] & Hin & Hmono).
    change (0 + Z.of_nat (Z.to_nat NUM_BLOOMPRIMES)) with 8 in Hi.
    destruct (bloomprime i Hi) as (p & Ep & Enp & Hp). rewrite Ep. cbn [mbind option_bind].
    pose proof (bloom_key_range x i Hi) as Hr. unfold bloom_key in Hr. rewrite Enp in Hr.
    pose proof (Z.mod_pos_bound x p ltac:(lia)).
    rewrite (proj1 (key_split (i * BLOOMROW) (x mod p) ltac:(lia))) in Hr.
    destruct (SETBIT_spec t (i * BLOOMROW) (x mod p)) as (t' & -> & Lt' & Bt' & Hk & Hm);
      [change BLOOMROW with 10000; lia|lia|done|lia|].
    exists t'. split; [done|]. split; [split; [lia|done]|]. split.
    + intros j Hj. destruct (decide (j = i)) as [->|Hne].
      * unfold bloom_key. by rewrite Enp.
      * apply Hm; [|apply Hin; lia]. destruct (bloomprime j) as (q & _ & Eq & Hq); [lia|].
        unfold bloom_key. rewrite Eq. pose proof (Z.mod_pos_bound x q ltac:(lia)).
        change BLOOMROW with 10000. lia.
    + intros k Hk0 Hk1. by apply Hm, Hmono.
  - exists l'. split; [done|]. split; [done|]. split; [exact Hin|].
    intros y Hy i Hi. apply Hmono; [|by apply Hy].
    destruct (bloomprime i Hi) as (q & _ & Eq & Hq). unfold bloom_key. rewrite Eq.
    pose proof (Z.mod_pos_bound y q ltac:(lia)). change BLOOMROW with 10000. lia.
Qed.

Lemma in_bloombits_spec l x : bloom_ok l ->
  exists r, in_bloombits l x = Some r /\ (r = 1 \/ r = 0) /\ (r = 1 <-> in_bloom l x).
Proof.
  intros [Ll Bl]. unfold in_bloombits.
  assert (forall (n : nat) i, 0 <= i -> i + Z.of_nat n = 8 ->
    exists r, in_bloombits_from l x i n = Some r /\ (r = 1 \/ r = 0) /\
      (r = 1 <-> forall j, i <= j < 8 -> bit_set l (bloom_key x j))) as H.
  { induction n as [|n IH]; intros i Hi Hn.
    - exists 1. split; [done|]. split; [by left|]. split; [|done]. intros _ j. lia.
    - cbn [in_bloombits_from]. destruct (bloomprime i) as (p & Ep & Enp & Hp); [lia|].
      rewrite Ep. cbn [mbind option_bind].
      pose proof (Z.mod_pos_bound x p ltac:(lia)).
      pose proof (bloom_key_range x i ltac:(lia)) as Hr.
      destruct (key_split (i * BLOOMROW) (x mod p)) as [K1 K2]; [lia|].
      assert (bloom_key x i = 8 * (i * BLOOMROW) + x mod p) as Ek by (unfold bloom_key; by rewrite Enp).
      rewrite Ek, K1 in Hr.
      destruct (aget_is_Some l (i * BLOOMROW + x mod p / 8)) as (b & Hb & Eb); [lia|].
      unfold GETBIT. rewrite shiftr_3, land_7, Eb. cbn [mbind option_bind].
      rewrite land_bit_0 by (apply Z.mod_pos_bound; lia).
      assert (bit_set l (bloom_key x i) <-> Z.testbit b (x mod p mod 8) = true) as Hbit.
      { unfold bit_set. rewrite Ek, K1, K2, Hb. naive_solver. }
      destruct (Z.testbit b (x mod p mod 8)); cbn [negb].
      + destruct (IH (i + 1)) as (r & E & Hr1 & Hiff); [lia|lia|]. exists r.
        split; [done|]. split; [done|]. rewrite Hiff. split.
        * intros Ha j Hj. destruct (decide (j = i)) as [->|]; [by apply Hbit|apply Ha; lia].
        * intros Ha j Hj. apply Ha. lia.
      + exists 0. split; [done|]. split; [by right|]. split; [done|].
        intros Ha. exfalso. specialize (Ha i ltac:(lia)). apply Hbit in Ha. done. }
  destruct (H (Z.to_nat NUM_BLOOMPRIMES) 0) as (r & E & Hr & Hiff); [lia|done|].
  by exists r.
Qed.

(** The 64-bit or of two words is the bytewise or. *)
Lemma le_bytes_lor n a b : length a = n -> length b = n -> bytes a -> bytes b ->
  le_bytes n (Z.lor (le_int a) (le_int b)) = zip_with Z.lor a b.
Proof.
  revert a b. induction n as [|n IH]; intros [|x a] [|y b] La Lb Ba Bb; try done.
  inversion Ba as [|? ? Bx Ba']; inversion Bb as [|? ? By Bb']; subst.
  cbn [le_int le_bytes zip_with].
  assert (forall x l, is_byte x -> (x + 256 * le_int l) mod 256 = x /\
    (x + 256 * le_int l) / 256 = le_int l) as Hdm.
  { intros z l Hz. unfold is_byte in Hz.
    rewrite (Z.mul_comm 256), Z.mod_add, Z.mod_small, Z.div_add, Z.div_small by lia. lia. }
  destruct (Hdm x a Bx) as [Mx Dx]. destruct (Hdm y b By) as [My Dy].
  f_equal.
  - change 256 with (2 ^ 8) at 3. rewrite <- Z.land_ones, Z.land_lor_distr_l by lia.
    rewrite !Z.land_ones by lia. change (2 ^ 8) with 256. by rewrite Mx, My.
  - change 256 with (2 ^ 8) at 3. rewrite <- Z.shiftr_div_pow2, Z.shiftr_lor by lia.
    rewrite !Z.shiftr_div_pow2 by lia. change (2 ^ 8) with 256. rewrite Dx, Dy.
    apply IH; (done || (simpl in *; lia)).
Qed.

Definition merged_upto (dest src t : list Z) (i : Z) : Prop :=
  length t = length dest /\
  forall k, t !! k = if decide (Z.of_nat k < i)
    then (x ← dest !! k; y ← src !! k; Some (Z.lor x y)) else dest !! k.

Lemma merge_word_spec dest src t i : 0 <= i -> bytes dest -> bytes src ->
  8 * i + 8 <= Z.of_nat (length dest) -> length src = length dest ->
  merged_upto dest src t (8 * i) ->
  exists t', merge_word src i t = Some t' /\ merged_upto dest src t' (8 * (i + 1)).
Proof.
  intros Hi Bd Bs Hlen Hls [Lt Ht]. unfold merge_word.
  destruct (Z.ltb_spec (Z.of_nat (length src)) (8 * i + 8)); [lia|].
  destruct (Z.ltb_spec (Z.of_nat (length t)) (8 * i + 8)); [lia|]. cbn [orb].
  set (o := Z.to_nat (8 * i)).
  assert (take 8 (drop o t) = take 8 (drop o dest)) as Etd.
  { apply list_eq. intros j. destruct (decide (j < 8)%nat) as [Hj|Hj].
    - rewrite !lookup_take_lt, !lookup_drop, Ht, decide_False by (unfold o; lia). done.
    - by rewrite !lookup_take_ge by lia. }
  assert (length (take 8 (drop o dest)) = 8%nat) as Ld
    by (rewrite length_take, length_drop; unfold o; lia).
  assert (length (take 8 (drop o src)) = 8%nat) as Ls
    by (rewrite length_take, length_drop; unfold o; lia).
  unfold ulong. fold o. rewrite Etd.
  rewrite le_bytes_lor; [|done|done|by apply Forall_take, Forall_drop|by apply Forall_take, Forall_drop].
  set (w := zip_with _ _ _).
  assert (length w = 8%nat) as Lw by (unfold w; rewrite length_zip_with; lia).
  destruct (memcpy_in_range t (8 * i) w 0 8) as (t' & E & Lt' & Ht'); [lia..|].
  exists t'. split; [done|]. split; [lia|]. intros k. rewrite Ht', Ht.
  destruct (decide (8 * i <= Z.of_nat k < 8 * i + 8)) as [Hk|Hk].
  - rewrite decide_True by lia. unfold w. rewrite lookup_zip_with.
    rewrite !lookup_take_lt, !lookup_drop by lia.
    replace (o + Z.to_nat (Z.of_nat k - 8 * i + 0))%nat with k by (unfold o; lia). done.
  - destruct (decide (Z.of_nat k < 8 * i)), (decide (Z.of_nat k < 8 * (i + 1))); (done || lia).
Qed.

Lemma merge_bloombits_spec d s : bloom_ok d -> bloom_ok s ->
  exists d', merge_bloombits d s = Some d' /\ bloom_ok d' /\
    forall x, in_bloom d x \/ in_bloom s x -> in_bloom d' x.
Proof.
  intros [Ld Bd] [Ls Bs]. unfold merge_bloombits.
  destruct (for_inv (fun i t => merged_upto d s t (8 * i)) (merge_word s)
    (Z.to_nat (BLOOMSIZE / 8)) 0 d) as (d' & E & L & H).
  - split; [done|]. intros k. by rewrite decide_False by lia.
  - intros i t Hi Hm. change (BLOOMSIZE / 8) with 10001 in Hi. change BLOOMSIZE with 80008 in Ld, Ls.
    apply merge_word_spec; (done || lia).
  - change (8 * (0 + Z.of_nat (Z.to_nat (BLOOMSIZE / 8)))) with 80008 in H.
    change BLOOMSIZE with 80008 in Ld, Ls.
    assert (forall k x y, d !! k = Some x -> s !! k = Some y -> d' !! k = Some (Z.lor x y)) as Hor.
    { intros k x y Hx Hy. apply lookup_lt_Some in Hx as Hk.
      rewrite H, decide_True, Hx, Hy by lia. done. }
    exists d'. split; [done|]. split.
    + split; [change BLOOMSIZE with 80008; lia|]. apply Forall_lookup_2. intros k z Hz.
      apply lookup_lt_Some in Hz as Hk. rewrite L in Hk.
      destruct (lookup_lt_is_Some_2 d k Hk) as [x Hx].
      destruct (lookup_lt_is_Some_2 s k) as [y Hy]; [lia|].
      rewrite (Hor k x y Hx Hy) in Hz. simplify_eq.
      apply (Forall_lookup_1 _ _ _ _ Bd) in Hx. apply (Forall_lookup_1 _ _ _ _ Bs) in Hy.
      unfold is_byte in Hx, Hy. apply byte_of_bits.
      * apply Z.lor_nonneg. lia.
      * intros j Hj. by rewrite Z.lor_spec, !byte_testbit_high.
    + intros x Hx i Hi. pose proof (bloom_key_range x i Hi) as Hr.
      change BLOOMSIZE with 80008 in Hr. unfold bit_set.
      destruct (aget_is_Some d (bloom_key x i / 8)) as (a & Ha & _); [lia|].
      destruct (aget_is_Some s (bloom_key x i / 8)) as (b & Hb & _); [lia|].
      exists (Z.lor a b). split; [by apply Hor|]. rewrite Z.lor_spec.
      destruct Hx as [Hx|Hx]; destruct (Hx i Hi) as (c & Hc & Ht); simplify_eq; rewrite Ht;
        [done|apply orb_true_r].
Qed.

(** Any sequence of insertions and merges. *)
Inductive bloom_op := Insert (x : Z) | Merge (other : list Z).

Definition run_bloom (ops : list bloom_op) (l : list Z) : option (list Z) :=
  foldl (fun s op => l ← s; match op with
    | Insert x => set_bloombits l x
    | Merge o => merge_bloombits l o
    end) (Some l) ops.

(** Bloom filters have no false negatives.  After any sequence of insertions
    and merges, every number inserted, every number the filter answered for
    before, and every number a merged filter answered for, is reported present. *)
Theorem bloom_no_false_negative ops l x :
  bloom_ok l -> (forall o, Merge o ∈ ops -> bloom_ok o) ->
  Insert x ∈ ops \/ in_bloombits l x = Some 1 \/
    (exists o, Merge o ∈ ops /\ in_bloombits o x = Some 1) ->
  exists l', run_bloom ops l = Some l' /\ bloom_ok l' /\ in_bloombits l' x = Some 1.
Proof.
  intros Hl Hops Hin.
  assert (forall ops l, bloom_ok l -> (forall o, Merge o ∈ ops -> bloom_ok o) ->
    exists l', run_bloom ops l = Some l' /\ bloom_ok l' /\
      (Insert x ∈ ops \/ in_bloom l x \/ (exists o, Merge o ∈ ops /\ in_bloom o x) ->
       in_bloom l' x)) as H.
  { clear. intros ops. induction ops as [|op ops IH]; intros l Hl Hops.
    - exists l. split; [done|]. split; [done|].
      intros [H|[H|(o & H & _)]]; [by apply not_elem_of_nil in H|done|by apply not_elem_of_nil in H].
    - assert (exists l1, match op with Insert y => set_bloombits l y | Merge o => merge_bloombits l o end
          = Some l1 /\ bloom_ok l1 /\ (op = Insert x \/ in_bloom l x \/
            (exists o, op = Merge o /\ in_bloom o x) -> in_bloom l1 x)) as (l1 & E1 & Hok1 & H1).
      { destruct op as [y|o].
        - destruct (set_bloombits_spec l y Hl) as (l1 & E & Hok & Hy & Hm).
          exists l1. split; [done|]. split; [done|].
          intros [H|[H|(o & H & _)]]; [by simplify_eq|by apply Hm|done].
        - destruct (merge_bloombits_spec l o Hl) as (l1 & E & Hok & Hm); [apply Hops; left|].
          exists l1. split; [done|]. split; [done|].
          intros [H|[H|(o' & H & Ho)]]; [done|by apply Hm; left|simplify_eq; by apply Hm; right]. }
      destruct (IH l1 Hok1) as (l2 & E2 & Hok2 & H2); [intros o Ho; apply Hops; by right|].
      exists l2. split; [unfold run_bloom; cbn [foldl mbind option_bind]; by rewrite E1|].
      split; [done|]. intros Hx. apply H2.
      destruct Hx as [Hx|[Hx|(o & Hx & Ho)]].
      + apply elem_of_cons in Hx. destruct Hx as [Hx|Hx]; [right; left; apply H1; left; congruence|left; exact Hx].
      + right; left. apply H1. by right; left.
      + apply elem_of_cons in Hx as [<-|Hx]; [right; left; apply H1; right; right; by exists o|].
        right; right. by exists o. }
  destruct (H ops l Hl Hops) as (l' & E & Hok & Hfin). exists l'. split; [done|]. split; [done|].
  destruct (in_bloombits_spec l' x Hok) as (r & -> & _ & Hiff). f_equal. apply Hiff, Hfin.
  destruct Hin as [Hin|[Hin|(o & Ho & Hin)]]; [by left|right; left|right; right; exists o].
  - destruct (in_bloombits_spec l x Hl) as (r' & E' & _ & Hiff'). apply Hiff'. congruence.
  - split; [done|]. destruct (in_bloombits_spec o x (Hops o Ho)) as (r' & E' & _ & Hiff').
    apply Hiff'. congruence.
Qed.

(** ** Hamming weights *)

Fixpoint countb (f : Z -> bool) (i : Z) (n : nat) : Z :=
  match n with O => 0 | S n => Z.b2z (f i) + countb f (i + 1) n end.

Lemma countb_app f i n m : countb f i (n + m) = countb f i n + countb f (i + Z.of_nat n) m.
Proof.
  revert i. induction n as [|n IH]; intros i; cbn [Nat.add countb].
  - by rewrite Z.add_0_r.
  - rewrite IH. replace (i + 1 + Z.of_nat n) with (i + Z.of_nat (S n)) by lia. lia.
Qed.

Lemma countb_ext f g i j n :
  (forall k, 0 <= k < Z.of_nat n -> f (i + k) = g (j + k)) -> countb f i n = countb g j n.
Proof.
  revert i j. induction n as [|n IH]; intros i j H; [done|]. cbn [countb]. f_equal.
  - specialize (H 0 ltac:(lia)). rewrite !Z.add_0_r in H. by rewrite H.
  - apply IH. intros k Hk. rewrite <- !Z.add_assoc. apply H. lia.
Qed.

Lemma countb_nonneg f i n : 0 <= countb f i n <= Z.of_nat n.
Proof. revert i. induction n as [|n IH]; intros i; cbn [countb]; [lia|]. specialize (IH (i + 1)). destruct (f i); simpl; lia. Qed.

Lemma bitweight_count x : bitweight x = countb (Z.testbit x) 0 64.
Proof.
  unfold bitweight.
  assert (forall n s acc, foldl (fun wt i => if negb (Z.land (Z.shiftl 1 i) x =? 0) then wt + 1 else wt)
     acc (Z.of_nat <$> seq s n) = acc + countb (Z.testbit x) (Z.of_nat s) n) as H; [|by rewrite H].
  induction n as [|n IH]; intros s acc; [simpl; lia|].
  cbn [seq fmap list_fmap foldl countb]. rewrite IH, Z.land_comm, land_bit_0 by lia.
  rewrite negb_involutive, Nat2Z.inj_succ, <- Z.add_1_r. destruct (Z.testbit x (Z.of_nat s)); simpl; lia.
Qed.

(** Bit [k] of an array of bytes. *)
Definition abit (l : list Z) (k : Z) : bool := Z.testbit (nth (Z.to_nat (k / 8)) l 0) (k mod 8).

Lemma le_int_testbit l k : bytes l -> 0 <= k -> Z.testbit (le_int l) k = abit l k.
Proof.
  intros Hl. revert k. induction Hl as [|b l Hb Hl IH]; intros k Hk.
  - unfold abit. rewrite Z.bits_0. destruct (Z.to_nat (k / 8)); by rewrite Z.bits_0.
  - assert (0 <= k / 8) by (apply Z.div_pos; lia).
    pose proof (Z.div_mod k 8 ltac:(lia)). pose proof (Z.mod_pos_bound k 8 ltac:(lia)).
    unfold is_byte in Hb. unfold abit. cbn [le_int]. destruct (decide (k < 8)).
    + rewrite Z.div_small, Z.mod_small by lia. cbn [Z.to_nat nth].
      rewrite <- (Z.mod_pow2_bits_low _ 8) by lia. f_equal. change (2 ^ 8) with 256.
      rewrite (Z.mul_comm 256), Z.mod_add, Z.mod_small by lia. done.
    + replace k with ((k - 8) + 8) at 1 by lia. rewrite <- Z.div_pow2_bits by lia.
      change (2 ^ 8) with 256. rewrite (Z.mul_comm 256), Z.div_add, Z.div_small, Z.add_0_l by lia.
      rewrite IH by lia. unfold abit.
      assert ((k - 8) / 8 = k / 8 - 1) as Ed.
      { replace (k - 8) with (k + (-1) * 8) by lia. rewrite Z.div_add by lia. lia. }
      assert ((k - 8) mod 8 = k mod 8) as Em.
      { replace (k - 8) with (k + (-1) * 8) by lia. by rewrite Z.mod_add by lia. }
      rewrite Ed, Em. replace (Z.to_nat (k / 8)) with (S (Z.to_nat (k / 8 - 1))) by lia. done.
Qed.

Lemma ulong_testbit l i k : bytes l -> 0 <= i -> 0 <= k < 64 ->
  Z.testbit (ulong l i) k = abit l (64 * i + k).
Proof.
  intros Hl Hi Hk. unfold ulong. rewrite le_int_testbit by (try apply Forall_take, Forall_drop; (done || lia)).
  unfold abit.
  assert (0 <= k / 8 < 8) as Hd by (split; [apply Z.div_pos; lia|apply Z.div_lt_upper_bound; lia]).
  assert ((64 * i + k) / 8 = 8 * i + k / 8) as ->.
  { replace (64 * i + k) with (k + (8 * i) * 8) by lia. rewrite Z.div_add by lia. lia. }
  assert ((64 * i + k) mod 8 = k mod 8) as ->.
  { replace (64 * i + k) with (k + (8 * i) * 8) by lia. by rewrite Z.mod_add by lia. }
  f_equal. rewrite !nth_lookup, lookup_take_lt, lookup_drop by lia. do 2 f_equal. lia.
Qed.

Definition differ (a b : list Z) (k : Z) : bool := xorb (abit a k) (abit b k).

Lemma wt384_count a b : bytes a -> bytes b -> wt384 a b = countb (differ a b) 0 384.
Proof.
  intros Ha Hb. unfold wt384.
  assert (forall i, 0 <= i -> bitweight (Z.lxor (ulong a i) (ulong b i))
    = countb (differ a b) (64 * i) 64) as H.
  { intros i Hi. rewrite bitweight_count. apply countb_ext. intros k Hk.
    rewrite Z.lxor_spec, Z.add_0_l, !ulong_testbit by (done || lia). done. }
  cbn [seq fmap list_fmap foldl]. rewrite !H by lia.
  change 384%nat with (64 + (64 + (64 + (64 + (64 + 64)))))%nat. rewrite !countb_app. 
  repeat match goal with |- context [countb _ ?z 64] =>
    match z with context [Z.of_nat] => let v := eval vm_compute in z in change z with v end end.
  lia.
Qed.

Lemma land_bit_xor x y j : 0 <= j ->
  (Z.lxor (Z.land x (Z.shiftl 1 j)) (Z.land y (Z.shiftl 1 j)) =? 0)
    = negb (xorb (Z.testbit x j) (Z.testbit y j)).
Proof.
  intros Hj. rewrite <- Z.lxor_spec, <- land_bit_0 by done. f_equal.
  apply Z.bits_inj'. intros k Hk. rewrite Z.lxor_spec, !Z.land_spec, Z.lxor_spec.
  by destruct (Z.testbit x k), (Z.testbit y k), (Z.testbit (Z.shiftl 1 j) k).
Qed.

(** the two Hamming distances agree.  [spectrum384], which walks the 384
    bits of two keys, counts exactly the [wt384] differing bits that the
    word-wise weights give, and adds one to the counter of each such bit. *)
Theorem spectrum384_wt384 spectrum a b :
  length a = 48%nat -> length b = 48%nat -> bytes a -> bytes b ->
  length spectrum = 384%nat -> Forall (fun c => 0 <= c < 2147483647) spectrum ->
  exists spectrum', spectrum384 spectrum a b = Some (spectrum', wt384 a b) /\
    0 <= wt384 a b <= 384 /\
    forall k c, 0 <= k < 384 -> spectrum !! Z.to_nat k = Some c ->
      spectrum' !! Z.to_nat k = Some (c + Z.b2z (differ a b k)).
Proof.
  intros La Lb Ba Bb Ls Hs. unfold spectrum384.
  match goal with |- context [for_ ?f _ _ _] =>
  destruct (for_inv (fun i '(sp, n) => length sp = 384%nat /\
     n = countb (differ a b) 0 (Z.to_nat i) /\
     forall k c, 0 <= k < 384 -> spectrum !! Z.to_nat k = Some c ->
       sp !! Z.to_nat k = Some (if decide (k < i) then c + Z.b2z (differ a b k) else c))
    f 384 0 (spectrum, 0)) as ([sp n] & E & L & -> & H) end.
  - split; [done|]. split; [done|]. intros k c Hk Hc. by rewrite decide_False by lia.
  - intros i [sp n] Hi (L & -> & H).
    assert (0 <= i / 8 < 48) as Hd by (split; [apply Z.div_pos; lia|apply Z.div_lt_upper_bound; lia]).
    unfold GETBIT. rewrite shiftr_3, land_7.
    rewrite (aget_nth a _ 0), (aget_nth b _ 0) by lia. cbn [mbind option_bind].
    rewrite land_bit_xor, negb_involutive by (apply Z.mod_pos_bound; lia).
    change (0 + i / 8) with (i / 8).
    change (xorb _ _) with (differ a b i).
    assert (countb (differ a b) 0 (Z.to_nat (i + 1)) =
      countb (differ a b) 0 (Z.to_nat i) + Z.b2z (differ a b i)) as Hc1.
    { replace (Z.to_nat (i + 1)) with (Z.to_nat i + 1)%nat by lia. rewrite countb_app.
      cbn [countb]. rewrite Z.add_0_l, Z2Nat.id by lia. lia. }
    destruct (lookup_lt_is_Some_2 spectrum (Z.to_nat i)) as [c Hc]; [lia|].
    pose proof (H i c ltac:(lia) Hc) as Hi'. rewrite decide_False in Hi' by lia.
    destruct (differ a b i) eqn:Hdiff.
    + rewrite (aget_lookup sp i c) by (done || lia). cbn [mbind option_bind].
      rewrite aset_in_range by lia. cbn [mbind option_bind].
      eexists. split; [reflexivity|]. split; [by rewrite length_insert|]. split; [by rewrite Hc1|].
      pose proof (Forall_lookup_1 _ _ _ _ Hs Hc) as Rc. cbv beta in Rc.
      rewrite s32_small by lia.
      intros k d Hk Hd'. destruct (decide (k = i)) as [->|Hne].
      * simplify_eq. rewrite list_lookup_insert_eq, decide_True, Hdiff by lia. done.
      * rewrite list_lookup_insert_ne by lia. rewrite (H k d) by done. f_equal.
        destruct (decide (k < i)), (decide (k < i + 1)); (done || lia).
    + eexists. split; [reflexivity|]. split; [done|]. split; [rewrite Hc1; simpl; lia|].
      intros k d Hk Hd'. rewrite (H k d) by done. f_equal.
      destruct (decide (k < i)), (decide (k < i + 1)); try (done || lia).
      assert (k = i) as -> by lia. rewrite Hdiff. simpl. lia.
  - rewrite wt384_count by done. exists sp. split; [exact E|].
    split; [apply (countb_nonneg _ 0 384)|]. intros k c Hk Hc. rewrite (H k c) by done.
    by rewrite decide_True by lia.
Qed.

(** ** Witnesses *)

Lemma hostnet777_serialize_roundtrip_witness :
  let e := mk_envelope (replicate 8 1) (replicate 32 2) (replicate 8 3) (replicate 4 4) (replicate 32 5) in
  let z := mk_envelope (replicate 8 0) (replicate 32 0) (replicate 8 0) (replicate 4 0) (replicate 32 0) in
  exists buf' n, hostnet777_serialize false e (replicate 90 7) = Some (e, buf', n) /\
    hostnet777_serialize true z buf' = Some (e, buf', n) /\ n = 84 /\
    drop (Z.to_nat n) buf' = drop (Z.to_nat n) (replicate 90 7).
Proof.
  apply (hostnet777_serialize_roundtrip
    (mk_envelope (replicate 8 1) (replicate 32 2) (replicate 8 3) (replicate 4 4) (replicate 32 5))
    (mk_envelope (replicate 8 0) (replicate 32 0) (replicate 8 0) (replicate 4 0) (replicate 32 0))
    (replicate 90 7)); [split; concrete|split; concrete|simpl; lia|concrete].
Defined.

(** The check value of CRC-32, of the ASCII digits 1 to 9, is 0xCBF43926. *)
Lemma crc32_correct_witness :
  _crc32 0 [49; 50; 51; 52; 53; 54; 55; 56; 57] = 3421780262 /\
  _crc32 0 [49; 50; 51; 52; 53; 54; 55; 56; 57] = crc32_ref [49; 50; 51; 52; 53; 54; 55; 56; 57].
Proof.
  split; [vm_compute; reflexivity|].
  apply (crc32_correct [49; 50; 51; 52; 53; 54; 55; 56; 57] []); concrete.
Defined.

Lemma bloom_empty_ok : bloom_ok (replicate (Z.to_nat BLOOMSIZE) 0).
Proof.
  split; [rewrite length_replicate; apply Z2Nat.id; vm_compute; discriminate|].
  apply Forall_replicate. unfold is_byte. lia.
Qed.

Lemma bloom_no_false_negative_witness :
  exists l', run_bloom [Insert 4711; Merge (replicate (Z.to_nat BLOOMSIZE) 0); Insert 5]
      (replicate (Z.to_nat BLOOMSIZE) 0) = Some l' /\ bloom_ok l' /\ in_bloombits l' 4711 = Some 1.
Proof.
  apply (bloom_no_false_negative
    [Insert 4711; Merge (replicate (Z.to_nat BLOOMSIZE) 0); Insert 5]
    (replicate (Z.to_nat BLOOMSIZE) 0) 4711).
  - exact bloom_empty_ok.
  - intros o Ho.
    refine (proj1 (list.Forall_forall (fun op => match op with Merge o => bloom_ok o | _ => True end) _)
      _ (Merge o) Ho).
    apply Forall_cons_2; [exact I|]. apply Forall_cons_2; [exact bloom_empty_ok|].
    apply Forall_cons_2; [exact I|]. apply Forall_nil_2.
  - left. left.
Defined.

Lemma spectrum384_wt384_witness :
  exists spectrum', spectrum384 (replicate 384 0) (replicate 48 3) (replicate 48 1)
      = Some (spectrum', 48) /\
    spectrum' !! 1%nat = Some 1.
Proof.
  destruct (spectrum384_wt384 (replicate 384 0) (replicate 48 3) (replicate 48 1))
    as (sp & E & _ & H).
  1-2: apply length_replicate.
  1-2: apply Forall_replicate; unfold is_byte; lia.
  1: apply length_replicate.
  1: apply Forall_replicate; lia.
  exists sp. split; [rewrite E; vm_compute; reflexivity|].
  exact (H 1 0 ltac:(lia) eq_refl).
Defined.
