(* ===== verification/Table.v ===== *)
(** * Table: the state of a Pangea poker table and its address book

    The structures of [plugins/common/hostnet777.c] (hand, public data, private
    data) and [plugins/games/pangea/pangea777.c] (table, node), and the functions
    that translate between a player's position in the hand ([ind]) and its seat
    ([slot]).  Unused fields of the structures are left out. *)

From stdpp Require Export strings.
From S2P Require Import Prelude GF256 Interp GFShare Cards.

#[global] Open Scope Z_scope.

Definition CARDS777_FOLD : Z := -1.
Definition CARDS777_START : Z := 1.
Definition CARDS777_ANTE : Z := 2.
Definition CARDS777_SMALLBLIND : Z := 3.
Definition CARDS777_BIGBLIND : Z := 4.
Definition CARDS777_CHECK : Z := 5.
Definition CARDS777_CALL : Z := 6.
Definition CARDS777_BET : Z := 7.
Definition CARDS777_RAISE : Z := 8.
Definition CARDS777_FULLRAISE : Z := 9.
Definition CARDS777_SENTCARDS : Z := 10.
Definition CARDS777_ALLIN : Z := 11.
Definition CARDS777_FACEUP : Z := 12.
Definition CARDS777_WINNINGS : Z := 13.
Definition CARDS777_RAKES : Z := 14.
Definition CARDS777_CHANGES : Z := 15.
Definition CARDS777_SNAPSHOT : Z := 16.

Definition SATOSHIDEN : Z := 100000000.
Definition PANGEA_MINRAKE_MILLIS : Z := 5.
Definition PANGEA_USERTIMEOUT : Z := 60.
Definition PANGEA_MAX_HOSTRAKE : Z := 5.
Definition PANGEA_BTCMAXRAKE : Z := SATOSHIDEN / 100.
Definition PANGEA_MAXRAKE : Z := 3 * SATOSHIDEN.

(** [x.txid] of a [bits256]: its first eight bytes. *)
Definition txid (x : bits256) : Z := le_int (take 8 x).

Record cards777_handinfo := mk_handinfo {
  h_checkprod : bits256;
  h_cardpubs : list bits256;
  h_final : list bits256;
  h_community256 : list bits256;
  h_cards : list (list bits256);
  h_othercardpubs : list Z;
  h_havemasks : list Z;
  h_betsize : Z;
  h_hostrake : Z;
  h_pangearake : Z;
  h_lastraise : Z;
  h_bets : list Z;
  h_snapshot : list Z;
  h_won : list Z;
  h_handmask : Z;
  h_lastbettor : Z;
  h_startdecktime : Z;
  h_betstarted : Z;
  h_finished : Z;
  h_encodestarted : Z;
  h_cardi : Z;
  h_userinput_starttime : Z;
  h_handranks : list Z;
  h_betstatus : list Z;
  h_actions : list Z;
  h_turnis : list Z;
  h_numactions : Z;
  h_undergun : Z;
  h_community : list Z;
  h_sharenrs : list (list Z);
  h_hands : list (list Z);
}.

#[export] Instance eta_handinfo : Eta cards777_handinfo := fun r => mk_handinfo
  (h_checkprod r) (h_cardpubs r) (h_final r) (h_community256 r) (h_cards r)
  (h_othercardpubs r) (h_havemasks r) (h_betsize r) (h_hostrake r) (h_pangearake r)
  (h_lastraise r) (h_bets r) (h_snapshot r) (h_won r) (h_handmask r) (h_lastbettor r)
  (h_startdecktime r) (h_betstarted r) (h_finished r) (h_encodestarted r) (h_cardi r)
  (h_userinput_starttime r) (h_handranks r) (h_betstatus r) (h_actions r) (h_turnis r)
  (h_numactions r) (h_undergun r) (h_community r) (h_sharenrs r) (h_hands r).

(** [summary] holds the [summarysize] bytes written so far; [newhand] the command of
    the message in that buffer, empty when the buffer is. *)
Record cards777_pubdata := mk_pubdata {
  d_snapshot : list Z;
  d_maxrake : Z;
  d_hostrake : Z;
  d_bigblind : Z;
  d_ante : Z;
  d_pangearake : Z;
  d_summaries : Z;
  d_mismatches : Z;
  d_button : Z;
  d_readymask : Z;
  d_numhands : Z;
  d_rakemillis : Z;
  d_minbuyin : Z;
  d_maxbuyin : Z;
  d_hand : cards777_handinfo;
  d_newhand : string;
  d_coinstr : string;
  d_M : Z;
  d_N : Z;
  d_numcards : Z;
  d_summary : list Z;
}.

#[export] Instance eta_pubdata : Eta cards777_pubdata := fun r => mk_pubdata
  (d_snapshot r) (d_maxrake r) (d_hostrake r) (d_bigblind r) (d_ante r) (d_pangearake r)
  (d_summaries r) (d_mismatches r) (d_button r) (d_readymask r) (d_numhands r)
  (d_rakemillis r) (d_minbuyin r) (d_maxbuyin r) (d_hand r) (d_newhand r) (d_coinstr r)
  (d_M r) (d_N r) (d_numcards r) (d_summary r).

Definition d_summarysize (dp : cards777_pubdata) : Z := Z.of_nat (length (d_summary dp)).

Record cards777_privdata := mk_privdata {
  p_holecards : list bits256;
  p_audits : list bits256;
  p_outcards : list bits256;
  p_xoverz : list bits256;
  p_allshares : list Z;
  p_myshares : list Z;
  p_hole : list Z;
  p_cardis : list Z;
  p_automuck : Z;
  p_autofold : Z;
}.

#[export] Instance eta_privdata : Eta cards777_privdata := fun r => mk_privdata
  (p_holecards r) (p_audits r) (p_outcards r) (p_xoverz r) (p_allshares r) (p_myshares r) (p_hole r) (p_cardis r)
  (p_automuck r) (p_autofold r).

Record pangea_info := mk_pangea_info {
  s_numaddrs : Z;
  s_balances : list Z;
  s_isbot : list Z;
  s_playerpubs : list bits256;
  s_addrs : list Z;
  s_active : list Z;
  s_tableid : Z;
  s_multisigaddr : string;
  s_myslot : Z;
  s_myind : Z;
  s_numactive : Z;
  s_buyinvouts : list Z;
  s_buyinamounts : list Z;
  s_buyintxids : list string;
  s_btcpub : list Z;
  s_btcpubkeys : list (list Z);
  s_coinaddrs : list (list Z);
  s_redeemScript : list Z;
  s_scriptPubKey : list Z;
}.

#[export] Instance eta_pangea_info : Eta pangea_info := fun r => mk_pangea_info
  (s_numaddrs r) (s_balances r) (s_isbot r) (s_playerpubs r) (s_addrs r) (s_active r)
  (s_tableid r) (s_multisigaddr r) (s_myslot r) (s_myind r) (s_numactive r)
  (s_buyinvouts r) (s_buyinamounts r) (s_buyintxids r) (s_btcpub r) (s_btcpubkeys r)
  (s_coinaddrs r) (s_redeemScript r) (s_scriptPubKey r).

(** A message handed to [hostnet777_msg]; [destplayer < 0] is a broadcast.  Only
    the announcement of a new hand carries the list of active accounts. *)
Record message := mk_message {
  m_cmd : string;
  m_dest : Z;
  m_data : list Z;
  m_cardi : Z;
  m_turni : Z;
  m_active : list Z;
}.

(** One participant: [sp], [dp], [priv], its own [H.slot] and the messages it has
    sent, the last first. *)
Record node := mk_node {
  n_sp : pangea_info;
  n_dp : cards777_pubdata;
  n_priv : cards777_privdata;
  n_slot : Z;
  n_out : list message;
}.

#[export] Instance eta_node : Eta node := fun r =>
  mk_node (n_sp r) (n_dp r) (n_priv r) (n_slot r) (n_out r).

(** Update of the hand inside a node. *)
Definition on_hand (f : cards777_handinfo -> cards777_handinfo) (n : node) : node :=
  n <| n_dp := n_dp n <| d_hand := f (d_hand (n_dp n)) |> |>.

Definition n_hand (n : node) : cards777_handinfo := d_hand (n_dp n).

(** ** Address book *)

(** First index of [x] among [l[i .. i+n-1]], or -1. *)
Fixpoint search_from (l : list Z) (x : Z) (i : Z) (n : nat) : option Z :=
  match n with
  | O => Some (-1)
  | S n => y ← aget l i; if y =? x then Some i else search_from l x (i + 1) n
  end.

Definition pangea_search (sp : pangea_info) (nxt64bits : Z) : option Z :=
  search_from (s_active sp) nxt64bits 0 (Z.to_nat (s_numactive sp)).

Definition pangea_tableaddr (sp : pangea_info) (destbits : Z) : option Z :=
  search_from (s_addrs sp) destbits 0 (Z.to_nat (s_numaddrs sp)).

Definition pangea_slotA (sp : pangea_info) : Z := 0.

Definition pangea_slotB (sp : pangea_info) : option Z :=
  a ← aget (s_active sp) 1; pangea_search sp a.

Definition pangea_slot (sp : pangea_info) (ind : Z) : option Z :=
  a ← aget (s_active sp) ind; pangea_tableaddr sp a.

Definition pangea_ind (sp : pangea_info) (slot : Z) : option Z :=
  a ← aget (s_addrs sp) slot; pangea_search sp a.

Definition pangea_lastnode (sp : pangea_info) : option Z :=
  a ← aget (s_active sp) (s_numactive sp - 1); pangea_search sp a.

Definition pangea_nextnode (sp : pangea_info) : Z :=
  if s_myind sp <? s_numactive sp - 1 then s_myind sp + 1 else -1.

Definition pangea_prevnode (sp : pangea_info) : Z :=
  if 0 <? s_myind sp then s_myind sp - 1 else -1.

(** [active = None] is the null pointer: the table's own list is used. *)
Definition pangea_neworder (dp : cards777_pubdata) (sp : pangea_info)
    (active : option (list Z)) (numactive : Z)
  : option (cards777_pubdata * pangea_info * Z) :=
  let '(active, numactive) :=
    match active with
    | None => (s_active sp, s_numactive sp)
    | Some a => (a, numactive)
    end in
  a0 ← aget active 0;
  b0 ← aget (s_addrs sp) 0;
  if negb (a0 =? b0) then Some (dp, sp, -1)
  else
    found ← for_ (fun i (ok : bool) =>
        if ok then
          a ← aget active i;
          s ← pangea_tableaddr sp a;
          _ ← aset (replicate (Z.to_nat CARDS777_MAXPLAYERS) 0) i s;
          Some (0 <=? s)
        else Some false) 1 (Z.to_nat (numactive - 1)) true;
    if negb found then Some (dp, sp, -1)
    else
      act ← for_ (fun i act => a ← aget active i; aset act i a) 0 (Z.to_nat numactive)
              (s_active sp);
      let sp := sp <| s_active := act |> <| s_numactive := numactive |> in
      let dp := dp <| d_N := u8 numactive |> <| d_M := u8 (Z.shiftr numactive 1 + 1) |> in
      myind ← pangea_ind sp (s_myslot sp);
      Some (dp, sp <| s_myind := myind |>, numactive).

Definition pangea_inactivate (dp : cards777_pubdata) (sp : pangea_info) (nxt64bits : Z)
  : option (cards777_pubdata * pangea_info * Z) :=
  '(active, n) ← for_ (fun i '(active, n) =>
      a ← aget (s_active sp) i;
      if a =? nxt64bits then Some (active, n)
      else active ← aset active n a; Some (active, n + 1))
    0 (Z.to_nat (s_numactive sp)) (replicate (Z.to_nat CARDS777_MAXPLAYERS) 0, 0);
  '(dp, sp, _) ← pangea_neworder dp sp (Some active) n;
  Some (dp, sp, n).

(** The seats: the last one whose balance is not positive is open; a player who
    already has a seat is refused. *)
Definition find_openslot (sp : pangea_info) (nxt64bits : Z) : option (option Z) :=
  for_ (fun i st =>
      match st with
      | None => Some None
      | Some openslot =>
          a ← aget (s_addrs sp) i;
          if a =? nxt64bits then Some None
          else b ← aget (s_balances sp) i;
               Some (Some (if b <=? 0 then i else openslot))
      end) 0 (Z.to_nat (s_numaddrs sp)) (Some (-1)).

(** [clientpub] is known by its account number [nxt64bits]; the seat of slot 0
    also announces the new table, which does not change its state. *)
Definition pangea_addplayer (dp : cards777_pubdata) (sp : pangea_info)
    (clientpub : bits256) (nxt64bits : Z) : option (cards777_pubdata * pangea_info * Z) :=
  r ← find_openslot sp nxt64bits;
  match r with
  | None => Some (dp, sp, -1)
  | Some openslot =>
      if (openslot <? 0) || (s_numaddrs sp - 1 <=? s_numactive sp) then Some (dp, sp, -1)
      else
        let dp := dp <| d_readymask := Z.ldiff (d_readymask dp) (Z.shiftl 1 openslot) |> in
        addrs ← aset (s_addrs sp) openslot nxt64bits;
        pubs ← aset (s_playerpubs sp) openslot clientpub;
        act ← aset (s_active sp) (s_numactive sp) nxt64bits;
        let sp := sp <| s_addrs := addrs |> <| s_playerpubs := pubs |> <| s_active := act |>
                     <| s_numactive := s_numactive sp + 1 |> in
        '(dp, sp, _) ← pangea_neworder dp sp None 0;
        Some (dp, sp, 0)
  end.

(** The pair of the minimum and maximum buy-in, 32-bit unsigned. *)
Definition pangea_buyins (minbuyin maxbuyin : Z) : Z * Z :=
  if (minbuyin =? 0) && (maxbuyin =? 0) then (100, 1000)
  else
    let minbuyin := if minbuyin <? 20 then 20 else minbuyin in
    let maxbuyin := if maxbuyin <? minbuyin then u32 (minbuyin * 4) else maxbuyin in
    let maxbuyin := if 1000 <? maxbuyin then 1000 else maxbuyin in
    let minbuyin := if maxbuyin <? minbuyin then maxbuyin else minbuyin in
    (minbuyin, maxbuyin).

(** [memset] to zero of the first [n] entries of an array of [bits256]. *)
Definition zero_prefix (l : list bits256) (n : Z) : option (list bits256) :=
  if (Z.of_nat (length l) <? n) then None
  else Some (replicate (Z.to_nat n) zero256 ++ drop (Z.to_nat n) l).

(** Community and hole cards unknown (0xff), everything else zero. *)
Definition pangea_clearhand (dp : cards777_pubdata) (hand : cards777_handinfo)
    (priv : cards777_privdata) : option (cards777_handinfo * cards777_privdata) :=
  final ← zero_prefix (h_final hand) (d_N dp * d_numcards dp);
  cardpubs ← zero_prefix (h_cardpubs hand) (1 + d_numcards dp);
  let zeros := replicate 9 0 in
  Some (mk_handinfo zero256 cardpubs final
     (replicate 5 zero256) (replicate 9 [zero256; zero256])
     zeros zeros 0 0 0 0 zeros (replicate 10 0) zeros 0 0 0 0 0 0 0 0 zeros
     zeros zeros zeros 0 0 (replicate 5 255) (replicate 9 (replicate 255 0))
     (replicate 9 (replicate 7 255)),
   priv <| p_hole := [255; 255] |> <| p_cardis := [255; 255] |>
        <| p_holecards := [zero256; zero256] |>).

(** [saveflag] selects the direction of the copy between [audit] and row
    [(cardi * N + destplayer) * N] of [audits]; the result is both arrays. *)
Definition pangea_rwaudit (saveflag : bool) (audit audits : list bits256)
    (cardi destplayer N : Z) : option (list bits256 * list bits256) :=
  let base := (cardi * N + destplayer) * N in
  for_ (fun i '(audit, audits) =>
      if saveflag then a ← aget audit i; audits ← aset audits (base + i) a; Some (audit, audits)
      else a ← aget audits (base + i); audit ← aset audit i a; Some (audit, audits))
    0 (Z.to_nat N) (audit, audits).

(** [pangea_sendcmd], less the JSON text around the fields.  The address of a
    direct message is the public key at the destination's seat. *)
Definition pangea_sendcmd (n : node) (cmd : string) (dest : Z) (data : list Z)
    (cardi turni : Z) : option node :=
  _ ← pangea_ind (n_sp n) (n_slot n);
  _ ← (if dest <? 0 then Some zero256
       else slot ← pangea_slot (n_sp n) dest; aget (s_playerpubs (n_sp n)) slot);
  Some (n <| n_out := mk_message cmd dest data cardi turni [] :: n_out n |>).

(** ** A sample table *)

(** Three players in the first three seats. *)
Definition sample_info : pangea_info :=
  mk_pangea_info 3 [500; 300; 900; 0; 0; 0; 0; 0; 0] (replicate 9 0) (replicate 9 zero256)
    [11; 22; 33; 0; 0; 0; 0; 0; 0] [11; 22; 33; 0; 0; 0; 0; 0; 0] 7 "" 0 0 3
    (replicate 9 0) (replicate 9 0) (replicate 9 "") (replicate 33 0) (replicate 9 []) (replicate 9 []) [] [].

(** A hand with the given bets, statuses and ranks. *)
Definition sample_hand (bets st ranks : list Z) : cards777_handinfo :=
  mk_handinfo zero256 [] [] [] [] [] [] 100 0 0 20 bets (replicate 10 0) (replicate 9 0)
    0 0 0 1 0 0 8 0 ranks st (replicate 9 0) (replicate 9 0) 0 0 (replicate 5 1) [] (replicate 9 [12; 25; 38; 3; 4; 51; 7]).

Definition sample_node (bets st ranks : list Z) : node :=
  mk_node sample_info
    (mk_pubdata (replicate 9 0) (SATOSHIDEN * 3) 0 20 0 0 0 0 0 7 1 10 20 1000
       (sample_hand bets st ranks) "" "NXT" 2 3 52 [])
    (mk_privdata [] [] [] [] [] [] [255; 255] [255; 255] 0 0) 0 [].

(** ** Searching *)

Lemma search_from_spec l x i n : 0 <= i -> i + Z.of_nat n <= Z.of_nat (length l) ->
  exists r, search_from l x i n = Some r /\
    ((r = -1 /\ forall j, i <= j < i + Z.of_nat n -> l !! Z.to_nat j <> Some x) \/
     (i <= r < i + Z.of_nat n /\ l !! Z.to_nat r = Some x /\
      forall j, i <= j < r -> l !! Z.to_nat j <> Some x)).
Proof.
  revert i. induction n as [|n IH]; intros i Hi Hlen.
  - exists (-1). split; [done|]. left. split; [done|]. intros; lia.
  - simpl. destruct (aget_is_Some l i) as (y & Hy & ->); [lia|]. simpl.
    destruct (Z.eqb_spec y x) as [->|Hne].
    + exists i. split; [done|]. right. split; [lia|]. split; [done|]. intros; lia.
    + destruct (IH (i + 1)) as (r & E & H); [lia|lia|]. exists r. split; [done|].
      destruct H as [[-> H]|(Hr & Hx & H)]; [left|right].
      * split; [done|]. intros j Hj. destruct (decide (j = i)) as [->|]; [congruence|].
        apply H. lia.
      * split; [lia|]. split; [done|]. intros j Hj.
        destruct (decide (j = i)) as [->|]; [congruence|]. apply H. lia.
Qed.

Lemma search_from_found l x n k : (n <= length l)%nat -> NoDup (take n l) ->
  0 <= k < Z.of_nat n -> l !! Z.to_nat k = Some x -> search_from l x 0 n = Some k.
Proof.
  intros Hn Hnd Hk Hx. destruct (search_from_spec l x 0 n) as (r & E & H); [lia|lia|].
  rewrite E. f_equal. destruct H as [[-> H]|(Hr & Hx' & _)].
  - destruct (H k); [lia|done].
  - assert (Z.to_nat r = Z.to_nat k); [|lia].
    eapply (NoDup_lookup _ _ _ x Hnd); rewrite lookup_take_lt; (done || lia).
Qed.

(** ** Well-formed tables *)

(** Seats and positions are distinct accounts, and every player in the hand has
    a seat. *)
Record table_ok (sp : pangea_info) : Prop := mk_table_ok {
  ok_numaddrs : 0 < s_numaddrs sp <= 9;
  ok_numactive : 0 <= s_numactive sp <= 9;
  ok_addrs_len : length (s_addrs sp) = 9%nat;
  ok_active_len : length (s_active sp) = 9%nat;
  ok_balances_len : length (s_balances sp) = 9%nat;
  ok_pubs_len : length (s_playerpubs sp) = 9%nat;
  ok_addrs : NoDup (take (Z.to_nat (s_numaddrs sp)) (s_addrs sp));
  ok_active : NoDup (take (Z.to_nat (s_numactive sp)) (s_active sp));
  ok_seated : take (Z.to_nat (s_numactive sp)) (s_active sp)
                ⊆ take (Z.to_nat (s_numaddrs sp)) (s_addrs sp);
  ok_myslot : 0 <= s_myslot sp < s_numaddrs sp;
}.

Lemma tableaddr_found sp a : table_ok sp -> a ∈ take (Z.to_nat (s_numaddrs sp)) (s_addrs sp) ->
  exists s, pangea_tableaddr sp a = Some s /\ 0 <= s < s_numaddrs sp /\
    s_addrs sp !! Z.to_nat s = Some a.
Proof.
  intros [] Ha. apply elem_of_take in Ha as (k & Hk & Hlt).
  exists (Z.of_nat k). rewrite Nat2Z.id. split; [|split; [lia|done]].
  unfold pangea_tableaddr. apply search_from_found; [lia|done|lia|by rewrite Nat2Z.id].
Qed.

Lemma tableaddr_total sp a : table_ok sp ->
  exists s, pangea_tableaddr sp a = Some s /\ -1 <= s < s_numaddrs sp /\
    (0 <= s -> a ∈ take (Z.to_nat (s_numaddrs sp)) (s_addrs sp)).
Proof.
  intros []. unfold pangea_tableaddr.
  destruct (search_from_spec (s_addrs sp) a 0 (Z.to_nat (s_numaddrs sp))) as (r & E & H);
    [lia|lia|].
  exists r. split; [done|]. destruct H as [[-> _]|(Hr & Hx & _)]; [lia|].
  split; [lia|]. intros _. apply elem_of_take. exists (Z.to_nat r). split; [done|lia].
Qed.

(** A player's seat is in range, and the seat leads back to the player. *)
Lemma slot_spec sp i : table_ok sp -> 0 <= i < s_numactive sp ->
  exists s, pangea_slot sp i = Some s /\ 0 <= s < s_numaddrs sp /\ pangea_ind sp s = Some i.
Proof.
  intros Hok Hi. pose proof Hok as []. unfold pangea_slot, pangea_ind.
  destruct (aget_is_Some (s_active sp) i) as (a & Ha & ->); [lia|]. simpl.
  destruct (tableaddr_found sp a Hok) as (s & Es & Hs & Hsa).
  { apply ok_seated0, elem_of_take. exists (Z.to_nat i). split; [done|lia]. }
  exists s. split; [done|]. split; [done|].
  rewrite (aget_lookup _ _ a) by (done || lia). simpl.
  unfold pangea_search. apply search_from_found; (done || lia).
Qed.

Lemma ind_total sp s : table_ok sp -> 0 <= s < 9 ->
  exists i, pangea_ind sp s = Some i /\ -1 <= i < s_numactive sp.
Proof.
  intros [] Hs. unfold pangea_ind, pangea_search.
  destruct (aget_is_Some (s_addrs sp) s) as (a & Ha & ->); [lia|]. simpl.
  destruct (search_from_spec (s_active sp) a 0 (Z.to_nat (s_numactive sp))) as (r & E & H);
    [lia|lia|].
  exists r. split; [done|]. lia.
Qed.

Lemma slot_inj sp i j s : table_ok sp -> 0 <= i < s_numactive sp -> 0 <= j < s_numactive sp ->
  pangea_slot sp i = Some s -> pangea_slot sp j = Some s -> i = j.
Proof.
  intros Hok Hi Hj Ei Ej.
  destruct (slot_spec sp i Hok Hi) as (s1 & E1 & _ & I1).
  destruct (slot_spec sp j Hok Hj) as (s2 & E2 & _ & I2). congruence.
Qed.

Lemma sendcmd_broadcast n cmd data cardi turni : table_ok (n_sp n) -> 0 <= n_slot n < 9 ->
  pangea_sendcmd n cmd (-1) data cardi turni =
    Some (n <| n_out := mk_message cmd (-1) data cardi turni [] :: n_out n |>).
Proof.
  intros Hok Hs. unfold pangea_sendcmd.
  by destruct (ind_total (n_sp n) (n_slot n) Hok Hs) as (i & -> & _).
Qed.

(** ** The order of play *)

Lemma neworder_loop sp active k : table_ok sp -> 1 <= k <= 9 -> k <= Z.of_nat (length active) ->
  exists found, for_ (fun i (ok : bool) =>
        if ok then
          a ← aget active i;
          s ← pangea_tableaddr sp a;
          _ ← aset (replicate (Z.to_nat CARDS777_MAXPLAYERS) 0) i s;
          Some (0 <=? s)
        else Some false) 1 (Z.to_nat (k - 1)) true = Some found /\
    (found = true <-> forall i a, 1 <= i < k -> active !! Z.to_nat i = Some a ->
       a ∈ take (Z.to_nat (s_numaddrs sp)) (s_addrs sp)).
Proof.
  intros Hok Hk Hlen.
  match goal with |- context [for_ ?f _ _ _] =>
  destruct (for_inv (fun j (found : bool) => found = true <->
     forall i a, 1 <= i < j -> active !! Z.to_nat i = Some a ->
       a ∈ take (Z.to_nat (s_numaddrs sp)) (s_addrs sp)) f (Z.to_nat (k - 1)) 1 true)
    as (found & E & H) end.
  - split; [|done]. intros _ i a Hi. lia.
  - intros j [|] Hj Hf.
    + destruct (aget_is_Some active j) as (a & Ha & ->); [lia|]. simpl.
      destruct (tableaddr_total sp a Hok) as (s & Es & Hs & Hin). rewrite Es.
      cbn [mbind option_bind].
      rewrite aset_in_range by (simpl; lia).
      cbn [mbind option_bind]. eexists. split; [reflexivity|].
      destruct (Z.leb_spec 0 s) as [H0|H0]; split; try done.
      * intros _ i a' Hi Ha'. destruct (decide (i = j)) as [->|]; [simplify_eq; auto|].
        apply (proj1 Hf eq_refl i); [lia|done].
      * intros Hall. specialize (Hall j a ltac:(lia) Ha).
        destruct (tableaddr_found sp a Hok Hall) as (s' & Es' & ? & _).
        assert (s' = s) as -> by congruence. lia.
    + exists false. split; [done|]. split; [done|]. intros Hall.
      apply Hf. intros i a Hi. apply Hall. lia.
  - exists found. split; [done|]. by replace (1 + Z.of_nat (Z.to_nat (k - 1))) with k in H by lia.
Qed.

Lemma copy_prefix (src dst : list Z) k : 0 <= k <= Z.of_nat (length src) -> k <= Z.of_nat (length dst) ->
  exists out, for_ (fun i act => a ← aget src i; aset act i a) 0 (Z.to_nat k) dst = Some out /\
    length out = length dst /\ take (Z.to_nat k) out = take (Z.to_nat k) src.
Proof.
  intros Hk Hd.
  destruct (for_update (fun i act => a ← aget src i; aset act i a)
    (fun i _ => nth (Z.to_nat i) src 0) 0 (Z.to_nat k) dst) as (out & E & L & H); [lia|lia| |].
  - intros j t x Hj _ _ _. by rewrite (aget_nth src _ 0) by lia.
  - exists out. split; [done|]. split; [done|]. apply list_eq. intros j.
    destruct (decide (j < Z.to_nat k)%nat) as [Hj|Hj]; [|by rewrite !lookup_take_ge by lia].
    rewrite !lookup_take_lt, H, decide_True by lia.
    destruct (lookup_lt_is_Some_2 dst j) as [y ->]; [lia|].
    destruct (lookup_lt_is_Some_2 src j) as [x Hx]; [lia|].
    rewrite Hx. simpl. by rewrite Z.sub_0_r, Nat2Z.id, (nth_lookup_Some _ _ _ _ Hx).
Qed.

Lemma sample_info_ok : table_ok sample_info.
Proof. split; concrete. Qed.

Lemma neworder_ok dp sp active k :
  table_ok sp -> 1 <= k <= 9 -> k <= Z.of_nat (length active) ->
  NoDup (take (Z.to_nat k) active) ->
  exists dp' sp' r, pangea_neworder dp sp (Some active) k = Some (dp', sp', r) /\
    ((r = -1 /\ dp' = dp /\ sp' = sp /\
      ~ (head active = head (s_addrs sp) /\
         take (Z.to_nat k) active ⊆ take (Z.to_nat (s_numaddrs sp)) (s_addrs sp))) \/
     (r = k /\ head active = head (s_addrs sp) /\
      take (Z.to_nat k) (s_active sp') = take (Z.to_nat k) active /\
      s_numactive sp' = k /\ d_N dp' = k /\ k < 2 * d_M dp' /\ d_M dp' <= Z.max 2 k /\
      table_ok sp' /\ pangea_ind sp' (s_myslot sp') = Some (s_myind sp'))).
Proof.
  intros Hok Hk Hlen Hnd. pose proof Hok as []. unfold pangea_neworder.
  destruct (aget_is_Some active 0) as (a0 & Ha0 & Ea0); [lia|].
  destruct (aget_is_Some (s_addrs sp) 0) as (b0 & Hb0 & Eb0); [lia|].
  rewrite Ea0, Eb0. cbn [mbind option_bind].
  assert (head active = Some a0) as Hha by by destruct active.
  assert (head (s_addrs sp) = Some b0) as Hhb by by destruct (s_addrs sp).
  destruct (Z.eqb_spec a0 b0) as [->|Hne]; cbn [negb].
  2:{ exists dp, sp, (-1). split; [done|]. left. do 3 (split; [done|]). intros [Heq _]. congruence. }
  destruct (neworder_loop sp active k Hok) as (found & E & Hf); [lia|done|].
  rewrite E. cbn [mbind option_bind].
  assert (found = true <-> take (Z.to_nat k) active ⊆ take (Z.to_nat (s_numaddrs sp)) (s_addrs sp))
    as Hsub.
  { rewrite Hf. split.
    - intros Hall x Hx. apply elem_of_take in Hx as (i & Hx & Hi).
      destruct (decide (i = 0%nat)) as [->|].
      + assert (x = b0) as -> by (change (Z.to_nat 0) with 0%nat in Ha0; congruence).
        apply elem_of_take. exists 0%nat. split; [done|lia].
      + apply (Hall (Z.of_nat i)); [lia|]. by rewrite Nat2Z.id.
    - intros Hs i a Hi Ha. apply Hs, elem_of_take. exists (Z.to_nat i). split; [done|lia]. }
  destruct found; cbn [negb].
  2:{ exists dp, sp, (-1). split; [done|]. left. do 3 (split; [done|]). intros [_ Hs].
      apply Hsub in Hs. done. }
  destruct (copy_prefix active (s_active sp) k) as (act & Ea & La & Ta); [lia|lia|].
  rewrite Ea. cbn [mbind option_bind].
  set (sp1 := sp <| s_active := act |> <| s_numactive := k |>).
  assert (table_ok sp1) as Hok1.
  { split; simpl; try done; try lia; rewrite ?Ta; [done|by apply Hsub]. }
  destruct (ind_total sp1 (s_myslot sp) Hok1) as (ind & Ei & _); [lia|].
  match goal with |- context [pangea_ind ?s ?m] =>
    change (pangea_ind s m) with (pangea_ind sp1 (s_myslot sp)) end.
  rewrite Ei. cbn [mbind option_bind]. do 3 eexists. split; [reflexivity|]. right.
  assert (0 <= Z.shiftr k 1 <= k /\ k < 2 * (Z.shiftr k 1 + 1)) as [Hsh Hmaj].
  { rewrite Z.shiftr_div_pow2 by lia. change (2 ^ 1) with 2.
    pose proof (Z.div_mod k 2). pose proof (Z.mod_pos_bound k 2). lia. }
  simpl. rewrite !u8_small by lia. split; [done|]. split; [congruence|]. split; [done|].
  do 2 (split; [done|]). split; [done|]. split.
  { rewrite Z.shiftr_div_pow2 in * by lia. change (2 ^ 1) with 2 in *.
    pose proof (Z.div_mod k 2). pose proof (Z.mod_pos_bound k 2). lia. }
  split; [|exact Ei]. destruct Hok1. by split.
Qed.

(** seating a new order of play.  When the host (seat 0) comes first and all
    the accounts given are distinct and seated, [pangea_neworder] succeeds: the
    hand then has exactly these players, in this order, [N] is their number, [M]
    a strict majority of it, the table is well formed again, and [myind] is this
    node's own position.  Otherwise it returns -1 and changes nothing. *)
Theorem pangea_neworder_spec dp sp active k :
  table_ok sp -> 1 <= k <= 9 -> k <= Z.of_nat (length active) ->
  NoDup (take (Z.to_nat k) active) ->
  exists dp' sp' r, pangea_neworder dp sp (Some active) k = Some (dp', sp', r) /\
    ((r = -1 /\ dp' = dp /\ sp' = sp /\
      ~ (head active = head (s_addrs sp) /\
         take (Z.to_nat k) active ⊆ take (Z.to_nat (s_numaddrs sp)) (s_addrs sp))) \/
     (r = k /\ head active = head (s_addrs sp) /\
      take (Z.to_nat k) (s_active sp') = take (Z.to_nat k) active /\
      s_numactive sp' = k /\ d_N dp' = k /\ k < 2 * d_M dp' /\ d_M dp' <= Z.max 2 k /\
      table_ok sp' /\ pangea_ind sp' (s_myslot sp') = Some (s_myind sp'))).
Proof. apply neworder_ok. Qed.

(** The third player moves up. *)
Lemma pangea_neworder_spec_witness :
  exists dp' sp' r,
    pangea_neworder (n_dp (sample_node [] [] [])) sample_info (Some [11; 33; 22]) 3 = Some (dp', sp', r) /\
    (r = -1 \/ take 3 (s_active sp') = [11; 33; 22]).
Proof.
  destruct (pangea_neworder_spec (n_dp (sample_node [] [] [])) sample_info [11; 33; 22] 3)
    as (dp' & sp' & r & E & H); [apply sample_info_ok|concrete|concrete|concrete|].
  exists dp', sp', r. split; [exact E|].
  destruct H as [[-> _]|(_ & _ & T & _)]; [by left|right; exact T].
Defined.

(** The buy-in limits of a table.  For a requested minimum below 2^30 the
    limits chosen satisfy 20 <= minimum <= maximum <= 1000. *)
Theorem pangea_buyins_bounds minbuyin maxbuyin :
  0 <= minbuyin < 2 ^ 30 -> 0 <= maxbuyin < 2 ^ 32 ->
  let '(mn, mx) := pangea_buyins minbuyin maxbuyin in 20 <= mn <= mx /\ mx <= 1000.
Proof.
  intros Hmin Hmax. unfold pangea_buyins.
  destruct (Z.eqb_spec minbuyin 0), (Z.eqb_spec maxbuyin 0); simpl; try lia.
  all: destruct (Z.ltb_spec minbuyin 20); rewrite ?(u32_small (20 * 4)), ?(u32_small (minbuyin * 4)) by lia;
    repeat case_match; lia.
Qed.

Lemma pangea_buyins_bounds_witness :
  let '(mn, mx) := pangea_buyins 50 2000 in 20 <= mn <= mx /\ mx <= 1000.
Proof. apply (pangea_buyins_bounds 50 2000); concrete. Defined.
