(* ===== verification/Summary.v ===== *)
(** * Summary: the binary log of a hand

    [pangea_summary] appends a record (type byte, two argument objects) to
    [dp->summary]; [pangea_parsesummary] reads one record back;
    [pangea_dispsummary] walks a whole log.  The JSON text built from the
    records is not modelled. *)

From S2P Require Import Prelude Bits GF256 Interp GFShare Cards Table.

Definition SUMMARYMAX : Z := 65536.

(** The three copies of [pangea_summary] append to the [summarysize] bytes
    already written ([copybits_memcpy]); past the array they are undefined. *)
Definition pangea_summary (dp : cards777_pubdata) (type : Z) (arg0 arg1 : list Z)
  : option cards777_pubdata :=
  let s := d_summary dp ++ u8 type :: arg0 ++ arg1 in
  if SUMMARYMAX <? Z.of_nat (length s) then None else Some (dp <| d_summary := s |>).

(** What [pangea_parsesummary] leaves in its result parameters: the type, the
    first argument, the bytes of [bits64] and the card.  [pa_len] is the returned
    position, -1 for a zero type byte. *)
Record parsed := mk_parsed {
  pa_len : Z;
  pa_type : Z;
  pa_valA : Z;
  pa_bits64 : list Z;
  pa_card : bits256;
}.

(** [hostnet777_copybits(1,&summary[len],obj,n)] into a fresh object. *)
Definition read_obj (summary : list Z) (len : Z) (n : nat) : option (list Z) :=
  hostnet777_copybits (replicate n 0) 0 summary len (Z.of_nat n).

(** Sizes of the two arguments of a record. *)
Definition arg0_size (type : Z) : nat :=
  if (type =? CARDS777_START) || (type =? CARDS777_SNAPSHOT) then 4
  else if type =? CARDS777_CHANGES then 4
  else if type =? CARDS777_RAKES then 8
  else if type =? CARDS777_FACEUP then 2
  else 1.

(** [handid] is a signed integer, widened to 64 bits. *)
Definition arg0_value (type : Z) (x : list Z) : Z :=
  if (type =? CARDS777_START) || (type =? CARDS777_SNAPSHOT) then u64 (s32 (le_int x))
  else le_int x.

Definition arg1_size (type changes : Z) : nat :=
  if type =? CARDS777_FACEUP then 32
  else if type =? CARDS777_START then 32 * 53
  else if type =? CARDS777_SNAPSHOT then 8 * 9
  else if type =? CARDS777_CHANGES then 8 * Z.to_nat (Z.land changes 15)
  else 8.

Definition pangea_parsesummary (summary : list Z) (len valA0 : Z) : option parsed :=
  t ← read_obj summary len 1;
  let type := le_int t in
  let len := len + 1 in
  if type =? 0 then Some (mk_parsed (-1) type valA0 (replicate 8 0) zero256)
  else
    a ← read_obj summary len (arg0_size type);
    let valA := arg0_value type a in
    let len := len + Z.of_nat (arg0_size type) in
    let sz := arg1_size type (le_int a) in
    b ← read_obj summary len sz;
    Some (if type =? CARDS777_FACEUP
          then mk_parsed (len + Z.of_nat sz) type valA (replicate 8 0) b
          else mk_parsed (len + Z.of_nat sz) type valA b zero256).

(** [while ( len < summarysize )]; [None] also when the fuel runs out. *)
Fixpoint pangea_dispsummary (fuel : nat) (summary : list Z) (summarysize len : Z)
  : option (list parsed) :=
  if len <? summarysize then
    match fuel with
    | O => None
    | S fuel =>
        p ← pangea_parsesummary summary len 0;
        rest ← pangea_dispsummary fuel summary summarysize (pa_len p);
        Some (p :: rest)
    end
  else Some [].

(** ** Round trip *)

(** A record as the callers of [pangea_summary] write it. *)
Record entry := mk_entry { en_type : Z; en_arg0 : list Z; en_arg1 : list Z }.

Definition entry_ok (e : entry) : Prop :=
  0 < en_type e < 256 /\ obj_ok (arg0_size (en_type e)) (en_arg0 e) /\
  obj_ok (arg1_size (en_type e) (le_int (en_arg0 e))) (en_arg1 e).

#[export] Instance entry_ok_dec e : Decision (entry_ok e).
Proof. unfold entry_ok. apply _. Defined.

Definition entry_bytes (e : entry) : list Z := en_type e :: en_arg0 e ++ en_arg1 e.

Definition entry_parsed (e : entry) (pos : Z) : parsed :=
  let len := pos + Z.of_nat (length (entry_bytes e)) in
  let valA := arg0_value (en_type e) (en_arg0 e) in
  if en_type e =? CARDS777_FACEUP
  then mk_parsed len (en_type e) valA (replicate 8 0) (en_arg1 e)
  else mk_parsed len (en_type e) valA (en_arg1 e) zero256.

(** The records of a log, each with the position after it. *)
Fixpoint entries_parsed (es : list entry) (pos : Z) : list parsed :=
  match es with
  | [] => []
  | e :: es => entry_parsed e pos :: entries_parsed es (pos + Z.of_nat (length (entry_bytes e)))
  end.

Lemma read_obj_spec pre obj post : bytes pre -> bytes obj -> bytes post ->
  read_obj (pre ++ obj ++ post) (Z.of_nat (length pre)) (length obj) = Some obj.
Proof.
  intros Bp Bo Bq. unfold read_obj.
  rewrite copybits_memcpy, memcpy_read; [done|apply length_replicate|lia|lia|lia| | |].
  - rewrite length_replicate. lia.
  - rewrite !length_app. lia.
  - by repeat apply Forall_app_2.
Qed.

Lemma entry_bytes_ok e : entry_ok e -> bytes (entry_bytes e).
Proof.
  intros (Ht & [_ B0] & [_ B1]). constructor; [unfold is_byte; lia|]. by apply Forall_app_2.
Qed.

Lemma parsesummary_entry pre e post valA0 : bytes pre -> entry_ok e -> bytes post ->
  pangea_parsesummary (pre ++ entry_bytes e ++ post) (Z.of_nat (length pre)) valA0
    = Some (entry_parsed e (Z.of_nat (length pre))).
Proof.
  intros Bp (Ht & [L0 B0] & [L1 B1]) Bq. unfold pangea_parsesummary, entry_parsed, entry_bytes.
  destruct e as [ty a0 a1]. cbn [en_type en_arg0 en_arg1] in *.
  assert (bytes [ty]) as Bt by (constructor; [unfold is_byte; lia|constructor]).
  pose proof (read_obj_spec pre [ty] (a0 ++ a1 ++ post) Bp Bt
    ltac:(by repeat apply Forall_app_2)) as E0.
  pose proof (read_obj_spec (pre ++ [ty]) a0 (a1 ++ post)
    ltac:(by apply Forall_app_2) B0 ltac:(by apply Forall_app_2)) as E1.
  pose proof (read_obj_spec (pre ++ [ty] ++ a0) a1 post
    ltac:(by repeat apply Forall_app_2) B1 Bq) as E2.
  rewrite <- ?app_assoc in *. cbn [app length] in *. rewrite <- ?app_assoc in *.
  rewrite E0. cbn [mbind option_bind le_int]. rewrite Z.mul_0_r, Z.add_0_r.
  destruct (Z.eqb_spec ty 0); [lia|].
  rewrite length_app in E1. cbn [length] in E1.
  replace (Z.of_nat (length pre) + 1) with (Z.of_nat (length pre + 1)) by lia.
  rewrite <- L0, E1. cbn [mbind option_bind].
  rewrite length_app in E2. cbn [length] in E2.
  replace (Z.of_nat (length pre + 1) + Z.of_nat (length a0))
    with (Z.of_nat (length pre + S (length a0))) by lia.
  rewrite <- L1, E2. cbn [mbind option_bind].
  rewrite length_app.
  replace (Z.of_nat (length pre + S (length a0)) + Z.of_nat (length a1))
    with (Z.of_nat (length pre) + Z.of_nat (S (length a0 + length a1))) by lia.
  done.
Qed.

Lemma dispsummary_entries es pre fuel : bytes pre -> Forall entry_ok es -> (length es <= fuel)%nat ->
  let log := pre ++ concat (entry_bytes <$> es) in
  pangea_dispsummary fuel log (Z.of_nat (length log)) (Z.of_nat (length pre))
    = Some (entries_parsed es (Z.of_nat (length pre))).
Proof.
  intros Bp Hes. revert pre fuel Bp. induction Hes as [|e es He Hes IH]; intros pre fuel Bp Hf log.
  - subst log. cbn [fmap list_fmap concat]. rewrite app_nil_r.
    destruct fuel; cbn [pangea_dispsummary]; by rewrite Z.ltb_irrefl.
  - destruct fuel as [|fuel]; cbn [length] in Hf; [lia|].
    assert (bytes (concat (entry_bytes <$> es))) as Bes.
    { clear -Hes. induction Hes as [|x l Hx Hl IHl]; [constructor|].
      change (concat (entry_bytes <$> x :: l)) with (entry_bytes x ++ concat (entry_bytes <$> l)).
      apply Forall_app_2; [by apply entry_bytes_ok|done]. }
    subst log. cbn [fmap list_fmap concat] in *. cbn [pangea_dispsummary].
    destruct (Z.ltb_spec (Z.of_nat (length pre))
      (Z.of_nat (length (pre ++ entry_bytes e ++ concat (entry_bytes <$> es))))) as [_|Hge].
    2:{ rewrite !length_app in Hge. unfold entry_bytes in Hge at 1. cbn [length] in Hge. lia. }
    rewrite parsesummary_entry by done. cbn [mbind option_bind].
    specialize (IH (pre ++ entry_bytes e) fuel
      ltac:(apply Forall_app_2; [done|by apply entry_bytes_ok]) ltac:(lia)).
    cbv zeta in IH. rewrite <- !app_assoc in IH. cbn [entries_parsed].
    assert (Z.of_nat (length pre) + Z.of_nat (length (entry_bytes e))
      = Z.of_nat (length (pre ++ entry_bytes e))) as Hpos by (rewrite length_app; lia).
    replace (pa_len (entry_parsed e (Z.of_nat (length pre))))
      with (Z.of_nat (length (pre ++ entry_bytes e)))
      by (rewrite <- Hpos; unfold entry_parsed; by case_match).
    by rewrite IH, Hpos.
Qed.

(** Appending a sequence of records. *)
Definition log_entries (dp : cards777_pubdata) (es : list entry) : option cards777_pubdata :=
  foldl (fun s e => dp ← s; pangea_summary dp (en_type e) (en_arg0 e) (en_arg1 e)) (Some dp) es.

Lemma log_entries_summary es dp : Forall entry_ok es ->
  Z.of_nat (length (d_summary dp ++ concat (entry_bytes <$> es))) <= SUMMARYMAX ->
  exists dp', log_entries dp es = Some dp' /\
    d_summary dp' = d_summary dp ++ concat (entry_bytes <$> es).
Proof.
  intros Hes. revert dp. induction Hes as [|e es He Hes IH]; intros dp Hlen.
  - exists dp. split; [done|]. by rewrite app_nil_r.
  - cbn [fmap list_fmap concat] in *. unfold log_entries. cbn [foldl mbind option_bind].
    unfold pangea_summary at 2. destruct He as (Ht & He). rewrite u8_small by lia.
    destruct (Z.ltb_spec SUMMARYMAX
      (Z.of_nat (length (d_summary dp ++ en_type e :: en_arg0 e ++ en_arg1 e)))) as [Hlt|_].
    { unfold entry_bytes in Hlen at 1. rewrite !length_app in *. cbn [length] in *.
      rewrite !length_app in *. lia. }
    destruct (IH (dp <| d_summary := d_summary dp ++ entry_bytes e |>)) as (dp' & E & Hd).
    { cbn. by rewrite <- app_assoc. }
    exists dp'. split; [exact E|]. rewrite Hd. cbn. by rewrite <- app_assoc.
Qed.

(** C34: the log of a hand is a faithful record.  Whatever sequence of records the
    handlers append with [pangea_summary] to an empty summary, as long as it
    fits, walking the log as [pangea_dispsummary] does yields exactly these
    records, in order, each with its type and both arguments. *)
Theorem summary_roundtrip dp es :
  Forall entry_ok es -> d_summary dp = [] ->
  Z.of_nat (length (concat (entry_bytes <$> es))) <= SUMMARYMAX ->
  exists dp', log_entries dp es = Some dp' /\
    pangea_dispsummary (length es) (d_summary dp') (d_summarysize dp') 0
      = Some (entries_parsed es 0).
Proof.
  intros Hes Hd Hlen.
  destruct (log_entries_summary es dp Hes) as (dp' & E & Hs); [by rewrite Hd|].
  exists dp'. split; [done|]. unfold d_summarysize. rewrite Hs, Hd.
  apply (dispsummary_entries es [] (length es)); [constructor|done|done].
Qed.

(** A zero type byte sends the walk to position -1, outside the log: a received
    summary with one is undefined behaviour. *)
Theorem dispsummary_zero_type fuel summary : bytes summary -> head summary = Some 0 ->
  pangea_dispsummary fuel summary (Z.of_nat (length summary)) 0 = None.
Proof.
  intros Bs Hh. destruct summary as [|b l]; [done|]. injection Hh as ->.
  pose proof (read_obj_spec [] [0] l ltac:(constructor)
    ltac:(constructor; [unfold is_byte; lia|constructor]) ltac:(by inversion Bs)) as E0.
  destruct fuel as [|fuel]; [done|]. cbn [pangea_dispsummary].
  destruct (Z.ltb_spec 0 (Z.of_nat (length (0 :: l)))); [|cbn [length] in *; lia].
  unfold pangea_parsesummary at 1. cbn [app length] in E0. change (Z.of_nat 0) with 0 in E0.
  rewrite E0. cbn [mbind option_bind le_int pa_len]. change (0 + 256 * 0 =? 0) with true. cbn iota.
  cbn [mbind option_bind pa_len].
  destruct fuel as [|fuel]; cbn [pangea_dispsummary];
    (destruct (Z.ltb_spec (-1) (Z.of_nat (length (0 :: l)))); [|lia]); [done|].
  cbn [mbind option_bind].
  enough (pangea_parsesummary (0 :: l) (-1) 0 = None) as -> by done.
  unfold pangea_parsesummary, read_obj, hostnet777_copybits.
  change (memset (replicate 1 0) 0 0 (Z.of_nat 1)) with (Some [0]).
  reflexivity.
Qed.

(** A bet and the two rakes. *)
Lemma summary_roundtrip_witness :
  let es := [mk_entry CARDS777_CALL [2] (le_bytes 8 40); mk_entry CARDS777_RAKES (le_bytes 8 3) (le_bytes 8 2)] in
  exists dp', log_entries (n_dp (sample_node [] [] [])) es = Some dp' /\
    pangea_dispsummary 2 (d_summary dp') (d_summarysize dp') 0 = Some (entries_parsed es 0).
Proof.
  intros es. apply (summary_roundtrip (n_dp (sample_node [] [] [])) es); concrete.
Defined.

Lemma dispsummary_zero_type_witness : pangea_dispsummary 100 [0; 7; 1] 3 0 = None.
Proof. apply (dispsummary_zero_type 100 [0; 7; 1]); [concrete|reflexivity]. Defined.
