(* ===== verification/Utils.v ===== *)
(** * Utils: hex, base 32, slot arrays and dates

    Models the integer and string helpers of [plugins/utils/utils777.c].  A C
    string is the memory from its first character on, with a terminating 0; the
    helpers that only read it are given its characters ([cstr]).  The
    floating-point averages, the sorting wrappers around [qsort] and the printing
    helpers of that file are not modelled. *)

From stdpp Require Import sets.
From S2P Require Import Prelude Bits.

(** ** Strings *)

(** The characters before the terminating zero. *)
Fixpoint cstr (mem : list Z) : option (list Z) :=
  match mem with
  | [] => None
  | c :: mem => if c =? 0 then Some [] else s ← cstr mem; Some (c :: s)
  end.

Definition is_digit (c : Z) : bool := (48 <=? c) && (c <=? 57).

Definition is_zeroes (str : list Z) : bool := forallb (fun c => c =? 48) str.

Definition has_backslash (str : list Z) : bool := existsb (fun c => c =? 92) str.

(** The length of a string of digits, 0 for any other. *)
Definition is_decimalstr (str : list Z) : Z :=
  if forallb is_digit str then Z.of_nat (length str) else 0.

(** The ASCII letters; [toupper] and [tolower] of the C locale. *)
Definition toupper (c : Z) : Z := if (97 <=? c) && (c <=? 122) then c - 32 else c.
Definition tolower (c : Z) : Z := if (65 <=? c) && (c <=? 90) then c + 32 else c.
Definition touppercase (str : list Z) : list Z := toupper <$> str.
Definition tolowercase (str : list Z) : list Z := tolower <$> str.

(** Pairs of digits in the reverse order; an odd length reads and writes outside
    the string. *)
Definition reverse_hexstr (str : list Z) : option (list Z) :=
  let n := Z.of_nat (length str) in
  for_ (fun k rev =>
      let i := 2 * k in
      a ← aget str i; rev ← aset rev (n - 2 - i) a;
      b ← aget str (i + 1); aset rev (n - 1 - i) b)
    0 (Z.to_nat ((n + 1) / 2)) (replicate (length str) 0).

Definition _stripwhite (str : list Z) (accept : Z) : list Z :=
  filter (fun c => c = accept \/ ~ (c ∈ [32; 10; 13; 9; 8])) str.

(** On the first [len] characters; quotes go too. *)
Definition stripstr (buf : list Z) (len : Z) : option (list Z) :=
  s ← take_exact (Z.to_nat len) buf;
  Some (filter (fun c => ~ (c ∈ [32; 10; 13; 9; 34])) s).

Definition safechar64 (x : Z) : Z :=
  let x := Z.rem x 64 in
  if x <? 26 then x + 97
  else if x <? 52 then x + 65 - 26
  else if x <? 62 then x + 48 - 52
  else if x =? 62 then 95 else 45.

(** The first eight characters, the first one lowest. *)
Definition stringbits (str : list Z) : Z :=
  foldr (fun c bits => Z.lor (u64 (Z.shiftl bits 8)) (Z.land c 255)) 0 (take 8 str).

(** ** Hexadecimal *)

Definition hexbyte (c : Z) : Z :=
  let c := Z.land c 0xf in if c <? 10 then 48 + c else 97 + c - 10.

Definition _unhex (c : Z) : Z :=
  if (48 <=? c) && (c <=? 57) then c - 48
  else if (97 <=? c) && (c <=? 102) then c - 97 + 10
  else -1.

Definition unhex (c : Z) : Z := _unhex c.

Definition is_hexstr (str : list Z) : bool :=
  match str with [] => false | _ => forallb (fun c => 0 <=? _unhex c) str end.

(** [_decode_hex(&mem[i])], a byte. *)
Definition _decode_hex (mem : list Z) (i : Z) : option Z :=
  a ← aget mem i; b ← aget mem (i + 1);
  Some (u8 (Z.lor (Z.shiftl (unhex a) 4) (unhex b))).

(** [bytes[off ..]] from the [n] pairs of digits at [hex[from ..]]. *)
Definition decode_pairs (mem : list Z) (from : Z) (bytes : list Z) (off n : Z) : option (list Z) :=
  for_ (fun i bytes => b ← _decode_hex mem (from + i * 2); aset bytes (off + i) b) 0 (Z.to_nat n) bytes.

(** [hex] is the memory from the string on; one character after the end of a
    string of [2 n] digits is read too.  The result is [bytes] and the count. *)
Definition decode_hex (bytes : list Z) (n : Z) (hex : list Z) : option (list Z * Z) :=
  str ← cstr hex;
  if negb (is_hexstr str) then bytes ← memset bytes 0 0 n; Some (bytes, n)
  else
    odd ← (if n =? 0 then Some true
           else a ← aget hex (n * 2 + 1);
                if a =? 0 then b ← aget hex (n * 2); Some (negb (b =? 0)) else Some false);
    if (odd : bool) then
      c ← aget hex 0;
      bytes ← aset bytes 0 (u8 (unhex c));
      bytes ← decode_pairs hex 1 bytes 1 n;
      Some (bytes, n + 1)
    else bytes ← decode_pairs hex 0 bytes 0 n; Some (bytes, n).

(** The two digits of a byte. *)
Definition hex_digits (b : Z) : list Z := [hexbyte (Z.land (Z.shiftr b 4) 0xf); hexbyte (Z.land b 0xf)].

(** The text written, without its terminating 0, and the returned length. *)
Definition init_hexbytes_noT (message : list Z) (len : Z) : option (list Z * Z) :=
  if len =? 0 then Some ([], 1)
  else m ← take_exact (Z.to_nat len) message; Some (m ≫= hex_digits, len * 2 + 1).

(** The data of a string of an even number of digits, else none. *)
Definition conv_datastr (data : list Z) (datastr : list Z) : option (list Z * Z * bool) :=
  str ← cstr datastr;
  if is_hexstr str then
    let datalen := Z.of_nat (length str) in
    if (1 <? datalen) && (Z.land datalen 1 =? 0) then
      let datalen := Z.shiftr datalen 1 in
      '(data, _) ← decode_hex data datalen datastr;
      Some (data, datalen, true)
    else Some (data, 0, false)
  else Some (data, 0, false).

(** ** Base 32 *)

Definition base32byte (val : Z) : Z :=
  if val <? 26 then 65 + val else if val <? 32 then 50 + val - 26 else -1.

Definition unbase32 (c : Z) : Z :=
  if (65 <=? c) && (c <=? 90) then c - 65
  else if (50 <=? c) && (c <=? 55) then c - 50 + 26
  else -1.

(** [val5] is an [int] of four bytes; its bits are set at [offset], which passes
    32 from the seventh digit on. *)
Definition init_base32 (token : list Z) (len : Z) : option (list Z * Z) :=
  '(tokenstr, _) ← for_ (fun _ '(tokenstr, offset) =>
      '(val5, offset) ← for_ (fun _ '(val5, offset) =>
          b ← GETBIT token 0 offset;
          val5 ← (if negb (b =? 0) then SETBIT val5 0 offset else Some val5);
          Some (val5, offset + 1)) 0 5 (replicate 4 0, offset);
      Some (tokenstr ++ [s8 (base32byte (s32 (le_int val5)))], offset))
    0 (Z.to_nat len) ([], 0);
  Some (tokenstr, len).

(** The five bits of a digit; the header of the loop resets [val5] to 0. *)
Definition decode_base32_digit (token : list Z) (offset : Z) : option (list Z * Z) :=
  for_ (fun j '(token, offset) =>
      b ← GETBIT (replicate 4 0) 0 j;
      token ← (if negb (b =? 0) then SETBIT token 0 offset else CLEARBIT token 0 offset);
      Some (token, offset + 1)) 0 5 (token, offset).

(** The trailing bits of the last byte: at most seven. *)
Fixpoint clear_rest (token : list Z) (offset : Z) (fuel : nat) : option (list Z * Z) :=
  match fuel with
  | O => Some (token, offset)
  | S fuel =>
      if Z.land offset 7 =? 0 then Some (token, offset)
      else token ← CLEARBIT token 0 offset; clear_rest token (offset + 1) fuel
  end.

(** [None] inside: a character that is not a digit; the token keeps what was written. *)
Definition decode_base32 (token tokenstr : list Z) (len : Z) : option (list Z * Z) :=
  r ← for_ (fun i '(token, offset) =>
      if offset <? 0 then Some (token, offset)
      else
        c ← aget tokenstr i;
        if 0 <=? unbase32 c then decode_base32_digit token offset else Some (token, -1))
    0 (Z.to_nat len) (token, 0);
  let '(token, offset) := (r : list Z * Z) in
  if offset <? 0 then Some (token, -1) else clear_rest token offset 8.

(** ** Sets of numbers in a fixed array

    The entries before the first zero.  The source has the same three functions
    for 16, 32 and 64 bits. *)

(** The index found, or -1, and [*emptyslotp]. *)
Fixpoint find_from (nums : list Z) (val i : Z) (n : nat) : option (Z * Z) :=
  match n with
  | O => Some (-1, -1)
  | S n =>
      x ← aget nums i;
      if x =? 0 then Some (-1, i)
      else if x =? val then Some (i, -1)
      else find_from nums val (i + 1) n
  end.

Definition find_uint64 (nums : list Z) (max val : Z) : option (Z * Z) :=
  find_from nums val 0 (Z.to_nat max).

Definition add_uint64 (nums : list Z) (max val : Z) : option (list Z * Z) :=
  '(i, emptyslot) ← find_uint64 nums max val;
  if 0 <=? i then Some (nums, i)
  else if 0 <=? emptyslot then nums ← aset nums emptyslot val; Some (nums, emptyslot)
  else Some (nums, -1).

Definition remove_uint64 (nums : list Z) (max val : Z) : option (list Z * Z) :=
  '(i, _) ← find_uint64 nums max val;
  if 0 <=? i then nums ← aset nums i 0; Some (nums, i) else Some (nums, -1).

Definition find_uint32 := find_uint64.
Definition add_uint32 := add_uint64.
Definition remove_uint32 := remove_uint64.
Definition find_uint16 := find_uint64.
Definition add_uint16 := add_uint64.
Definition remove_uint16 := remove_uint64.

(** ** Numbers in a byte array *)

Definition _emit_uint (data : list Z) (offset x size : Z) : option (list Z * Z) :=
  '(data, _) ← for_ (fun i '(data, x) =>
      data ← aset data (offset + i) (Z.land x 0xff); Some (data, Z.shiftr x 8))
    0 (Z.to_nat size) (data, x);
  Some (data, offset + size).

(** The number read and the new offset, -1 for another size. *)
Definition _decode_uint (size : Z) (data : list Z) (offset : Z) : option (option Z * Z) :=
  if size =? 1 then b ← aget data offset; Some (Some b, offset + 1)
  else
    x ← for_ (fun i x => b ← aget data (offset + size - i); Some (Z.lor (u64 (Z.shiftl x 8)) b))
          0 (Z.to_nat size) 0;
    Some (if size =? 2 then (Some (u16 x), offset + size)
          else if size =? 4 then (Some (u32 x), offset + size)
          else if size =? 8 then (Some (u64 x), offset + size)
          else (None, -1)).

(** ** Dates as numbers: year, month and day in decimal *)

Definition date_parts (datenum : Z) : Z * Z * Z :=
  (Z.quot datenum 10000, Z.rem (Z.quot datenum 100) 100, Z.rem datenum 100).

Definition is_DST (datenum : Z) : bool :=
  let '(_, month, day) := date_parts datenum in
  ((4 <=? month) && (month <=? 9)) || ((month =? 3) && (29 <=? day)) || ((month =? 10) && (day <? 25)).

(** The parts and the returned value. *)
Definition extract_datenum (datenum : Z) : Z * Z * Z * Z :=
  let '(year, month, day) := date_parts datenum in
  (year, month, day,
   if (2000 <=? year) && (year <=? 2038) && (1 <=? month) && (month <=? 12) && (1 <=? day) && (day <=? 31)
   then datenum else -1).

Definition calc_datenum (year month day : Z) : Z := year * 10000 + month * 100 + day.

Definition lastday : list Z := [0; 31; 28; 31; 30; 31; 30; 31; 31; 30; 31; 30; 31].

(** The day before; [None] inside at the start of the epoch. *)
Definition ecb_decrdate (datenum : Z) : option (option (Z * Z * Z)) :=
  let '(year, month, day) := date_parts datenum in
  let day := day - 1 in
  if day <=? 0 then
    let month := month - 1 in
    let wrap := month <=? 0 in
    let year := if wrap then year - 1 else year in
    if wrap && (year <? 2000) then Some None
    else
      let month := if wrap then 12 else month in
      day ← aget lastday month;
      let day := if (month =? 2) && (Z.rem year 4 =? 0) then day + 1 else day in
      Some (Some (year, month, day))
  else Some (Some (year, month, day)).

Example utils_run :
  init_hexbytes_noT [202; 254] 2 = Some ([99; 97; 102; 101], 5) /\
  decode_hex [0; 0] 2 [99; 97; 102; 101; 0; 0] = Some ([202; 254], 2) /\
  add_uint64 [7; 0; 0] 3 9 = Some ([7; 9; 0], 1) /\
  ecb_decrdate 20160301 = Some (Some (2016, 2, 29)).
Proof. repeat split; vm_compute; reflexivity. Qed.

(** ** Theorems: hexadecimal *)

(** Every byte survives its two digits. *)
Lemma hex_byte_ok b : is_byte b ->
  let h := hexbyte (Z.land (Z.shiftr b 4) 0xf) in let l := hexbyte (Z.land b 0xf) in
  u8 (Z.lor (Z.shiftl (unhex h) 4) (unhex l)) = b /\
  0 <= _unhex h /\ 0 <= _unhex l /\ h <> 0 /\ l <> 0.
Proof.
  intros Hb. unfold is_byte in Hb.
  assert (forallb (fun k => let b := Z.of_nat k in
    let h := hexbyte (Z.land (Z.shiftr b 4) 0xf) in let l := hexbyte (Z.land b 0xf) in
    (u8 (Z.lor (Z.shiftl (unhex h) 4) (unhex l)) =? b) && (0 <=? _unhex h) && (0 <=? _unhex l) &&
    negb (h =? 0) && negb (l =? 0)) (seq 0 256) = true) as HF by (vm_compute; reflexivity).
  rewrite forallb_forall in HF. specialize (HF (Z.to_nat b) ltac:(apply in_seq; lia)).
  cbv zeta beta in HF. rewrite Z2Nat.id in HF by lia. cbv zeta.
  rewrite !andb_true_iff, !negb_true_iff, Z.eqb_eq, !Z.leb_le, !Z.eqb_neq in HF. tauto.
Qed.

Lemma hex_text_cons b m : (b :: m) ≫= hex_digits = hex_digits b ++ (m ≫= hex_digits).
Proof. done. Qed.

Lemma hex_text_chars m : bytes m -> Forall (fun c => 0 <= _unhex c /\ c <> 0) (m ≫= hex_digits).
Proof.
  induction 1 as [|b m Hb Hm IH]; [constructor|]. destruct (hex_byte_ok b Hb) as (_ & H1 & H2 & H3 & H4).
  rewrite hex_text_cons. apply Forall_app. split; [|done]. by repeat constructor.
Qed.

Lemma cstr_text s rest : Forall (fun c => c <> 0) s -> cstr (s ++ 0 :: rest) = Some s.
Proof.
  induction 1 as [|c s Hc Hs IH]; [done|]. cbn [app cstr]. rewrite (proj2 (Z.eqb_neq _ _) Hc), IH. done.
Qed.

Lemma length_hex_text m : length (m ≫= hex_digits) = (2 * length m)%nat.
Proof. induction m as [|b m IH]; [done|]. rewrite hex_text_cons, length_app, IH. simpl. lia. Qed.

Lemma hex_text_lookup m i b : m !! i = Some b ->
  (m ≫= hex_digits) !! (2 * i)%nat = Some (hexbyte (Z.land (Z.shiftr b 4) 0xf)) /\
  (m ≫= hex_digits) !! (2 * i + 1)%nat = Some (hexbyte (Z.land b 0xf)).
Proof.
  revert i. induction m as [|a m IH]; intros [|i] H; [done|done|by injection H as <-|].
  rewrite hex_text_cons. destruct (IH i H) as [H1 H2].
  rewrite <- H1, <- H2. replace (2 * S i)%nat with (2 + 2 * i)%nat by lia. done.
Qed.

Lemma decode_pairs_text m rest buf : bytes m -> (length m <= length buf)%nat ->
  decode_pairs ((m ≫= hex_digits) ++ rest) 0 buf 0 (Z.of_nat (length m)) = Some (m ++ drop (length m) buf).
Proof.
  intros Hm Hl. unfold decode_pairs.
  match goal with |- for_ ?f 0 _ _ = _ =>
  destruct (for_inv (fun k b => b = take (Z.to_nat k) m ++ drop (Z.to_nat k) buf) f
    (Z.to_nat (Z.of_nat (length m))) 0 buf) as (b & E & Hb) end.
  - by rewrite take_0, drop_0.
  - intros k b Hk ->. destruct (lookup_lt_is_Some_2 m (Z.to_nat k)) as [x Hx]; [lia|].
    destruct (hex_text_lookup m _ x Hx) as [H1 H2].
    destruct (hex_byte_ok x) as (Ex & _); [by apply (Forall_lookup_1 _ _ _ _ Hm Hx)|].
    unfold _decode_hex.
    rewrite (aget_lookup _ (0 + k * 2) (hexbyte (Z.land (Z.shiftr x 4) 15)));
      [|lia|replace (Z.to_nat (0 + k * 2)) with (2 * Z.to_nat k)%nat by lia; rewrite lookup_app_l by (rewrite length_hex_text; lia); exact H1].
    rewrite (aget_lookup _ (0 + k * 2 + 1) (hexbyte (Z.land x 15)));
      [|lia|replace (Z.to_nat (0 + k * 2 + 1)) with (2 * Z.to_nat k + 1)%nat by lia; rewrite lookup_app_l by (rewrite length_hex_text; lia); exact H2].
    cbn [mbind option_bind]. rewrite Ex.
    rewrite aset_in_range by (rewrite length_app, length_take, length_drop; lia).
    eexists. split; [reflexivity|]. cbn beta.
    destruct (lookup_lt_is_Some_2 buf (Z.to_nat k)) as [y Hy]; [lia|].
    replace (Z.to_nat (k + 1)) with (S (Z.to_nat k)) by lia. rewrite (take_S_r _ _ _ Hx), (drop_S _ _ _ Hy).
    replace (Z.to_nat (0 + k)) with (length (take (Z.to_nat k) m) + 0)%nat by (rewrite length_take; lia).
    by rewrite insert_app_r, <- app_assoc.
  - rewrite E, Hb. by rewrite Z.add_0_l, !Nat2Z.id, firstn_all.
Qed.

Lemma is_hexstr_text m : bytes m -> m <> [] -> is_hexstr (m ≫= hex_digits) = true.
Proof.
  intros Hm Hne. pose proof (hex_text_chars m Hm) as Hc. unfold is_hexstr.
  destruct (m ≫= hex_digits) as [|c l] eqn:E; [by destruct m|].
  apply forallb_forall. intros x Hx. apply Z.leb_le.
  apply list_elem_of_In in Hx. apply (proj1 (list.Forall_forall _ _) Hc x Hx).
Qed.

Lemma decode_hex_text m buf next rest : bytes m -> m <> [] -> (length m <= length buf)%nat ->
  exists text, init_hexbytes_noT m (Z.of_nat (length m)) = Some (text, 2 * Z.of_nat (length m) + 1) /\
    decode_hex buf (Z.of_nat (length m)) (text ++ 0 :: next :: rest) =
      Some (m ++ drop (length m) buf, Z.of_nat (length m)).
Proof.
  intros Hm Hne Hl. assert (0 < length m)%nat by (destruct m; simpl; [done|lia]).
  unfold init_hexbytes_noT. case_cmp; [lia|]. rewrite Nat2Z.id, take_exact_le, firstn_all by done.
  cbn [mbind option_bind]. exists (m ≫= hex_digits). split; [do 2 f_equal; lia|].
  pose proof (hex_text_chars m Hm) as Hc. pose proof (length_hex_text m) as Lt.
  unfold decode_hex. rewrite cstr_text by (eapply list.Forall_impl; [exact Hc|by intros x [_ ?]]). cbn [mbind option_bind].
  rewrite is_hexstr_text by done.
  cbn [negb]. case_cmp; [lia|].
  rewrite (aget_lookup _ (Z.of_nat (length m) * 2 + 1) next);
    [|lia|rewrite lookup_app_r by lia; rewrite Lt; by replace (Z.to_nat (Z.of_nat (length m) * 2 + 1) - 2 * length m)%nat with 1%nat by lia].
  cbn [mbind option_bind].
  rewrite (aget_lookup _ (Z.of_nat (length m) * 2) 0);
    [|lia|rewrite lookup_app_r by lia; rewrite Lt; by replace (Z.to_nat (Z.of_nat (length m) * 2) - 2 * length m)%nat with 0%nat by lia].
  destruct (next =? 0); cbn [mbind option_bind negb Z.eqb]; by rewrite decode_pairs_text.
Qed.

(** Hexadecimal text is read back: [decode_hex] recovers the bytes that
    [init_hexbytes_noT] wrote, and touches no byte beyond them. *)
Theorem hex_roundtrip m buf next rest : bytes m -> m <> [] -> (length m <= length buf)%nat ->
  exists text, init_hexbytes_noT m (Z.of_nat (length m)) = Some (text, 2 * Z.of_nat (length m) + 1) /\
    decode_hex buf (Z.of_nat (length m)) (text ++ 0 :: next :: rest) =
      Some (m ++ drop (length m) buf, Z.of_nat (length m)).
Proof. apply decode_hex_text. Qed.

Lemma hex_roundtrip_witness : exists text, init_hexbytes_noT [0; 255; 18] 3 = Some (text, 7) /\
  decode_hex [9; 9; 9; 9] 3 (text ++ [0; 77]) = Some ([0; 255; 18; 9], 3).
Proof. apply (hex_roundtrip [0; 255; 18] [9; 9; 9; 9] 77 []); [concrete|discriminate|simpl; lia]. Defined.

(** ** Theorems: sets of numbers *)

(** The first [max] entries are the set [vals], then zeros. *)
Record compact (nums : list Z) (max : Z) (vals : list Z) : Prop := mk_compact {
  co_max : 0 <= max <= Z.of_nat (length nums);
  co_len : Z.of_nat (length vals) <= max;
  co_vals : take (length vals) nums = vals;
  co_nonzero : Forall (fun v => v <> 0) vals;
  co_distinct : NoDup vals;
  co_rest : forall i, Z.of_nat (length vals) <= i < max -> nums !! Z.to_nat i = Some 0;
}.

Lemma find_from_spec nums val n : forall i, 0 <= i -> i + Z.of_nat n <= Z.of_nat (length nums) ->
  exists r e, find_from nums val i n = Some (r, e) /\
    ((i <= r < i + Z.of_nat n /\ e = -1 /\ nums !! Z.to_nat r = Some val /\ val <> 0 /\
      (forall k, i <= k < r -> nums !! Z.to_nat k <> Some 0 /\ nums !! Z.to_nat k <> Some val)) \/
     (r = -1 /\ i <= e < i + Z.of_nat n /\ nums !! Z.to_nat e = Some 0 /\
      (forall k, i <= k < e -> nums !! Z.to_nat k <> Some 0 /\ nums !! Z.to_nat k <> Some val)) \/
     (r = -1 /\ e = -1 /\
      (forall k, i <= k < i + Z.of_nat n -> nums !! Z.to_nat k <> Some 0 /\ nums !! Z.to_nat k <> Some val))).
Proof.
  induction n as [|n IH]; intros i Hi Hl; cbn [find_from].
  - do 2 eexists. split; [reflexivity|]. right. right. split; [done|]. split; [done|]. intros; lia.
  - destruct (aget_is_Some nums i) as (x & Hx & ->); [lia|]. cbn [mbind option_bind].
    destruct (Z.eqb_spec x 0) as [->|Hnz].
    { do 2 eexists. split; [reflexivity|]. right. left. split; [done|]. split; [lia|]. split; [done|]. intros; lia. }
    destruct (Z.eqb_spec x val) as [->|Hne].
    { do 2 eexists. split; [reflexivity|]. left. split; [lia|]. split; [done|]. split; [done|]. split; [done|].
      intros; lia. }
    destruct (IH (i + 1)) as (r & e & -> & H); [lia..|]. do 2 eexists. split; [reflexivity|].
    assert (forall k hi, (forall k, i + 1 <= k < hi -> nums !! Z.to_nat k <> Some 0 /\ nums !! Z.to_nat k <> Some val) ->
      i <= k < hi -> nums !! Z.to_nat k <> Some 0 /\ nums !! Z.to_nat k <> Some val) as Hext.
    { intros k hi Hk Hr. destruct (decide (k = i)) as [->|]; [rewrite Hx; split; congruence|apply Hk; lia]. }
    destruct H as [(Hr & -> & Hv & Hz & H)|[(-> & He & Hv & H)|(-> & -> & H)]]; [left|right; left|right; right].
    + split; [lia|]. do 3 (split; [done|]). intros k' Hk'. by apply (Hext _ r).
    + split; [done|]. split; [lia|]. split; [done|]. intros k' Hk'. by apply (Hext _ e).
    + do 2 (split; [done|]). intros k' Hk'. apply (Hext _ (i + Z.of_nat (S n))); [|done]. intros; apply H; lia.
Qed.

Lemma compact_lookup nums max vals i v : compact nums max vals -> vals !! i = Some v -> nums !! i = Some v.
Proof.
  intros [] Hv. pose proof (lookup_lt_Some _ _ _ Hv). rewrite <- co_vals0 in Hv.
  by rewrite lookup_take_lt in Hv.
Qed.

(** A search in a compact array. *)
Lemma find_compact nums max vals val : compact nums max vals -> val <> 0 ->
  exists r e, find_uint64 nums max val = Some (r, e) /\
    ((val ∈ vals /\ 0 <= r /\ vals !! Z.to_nat r = Some val /\ e = -1) \/
     ((val ∉ vals) /\ r = -1 /\ e = (if Z.of_nat (length vals) <? max then Z.of_nat (length vals) else -1))).
Proof.
  intros Hc Hval. pose proof Hc as []. unfold find_uint64.
  destruct (find_from_spec nums val (Z.to_nat max) 0) as (r & e & -> & H); [lia..|].
  rewrite Z2Nat.id, Z.add_0_l in H by lia. exists r, e. split; [done|].
  assert (forall i, 0 <= i < Z.of_nat (length vals) -> exists v, vals !! Z.to_nat i = Some v /\
    nums !! Z.to_nat i = Some v /\ v <> 0) as Hin.
  { intros i Hi. destruct (lookup_lt_is_Some_2 vals (Z.to_nat i)) as [v Hv]; [lia|]. exists v.
    split; [done|]. split; [by apply (compact_lookup _ _ _ _ _ Hc)|]. apply (Forall_lookup_1 _ _ _ _ co_nonzero0 Hv). }
  assert (forall k, (forall j, 0 <= j < k -> nums !! Z.to_nat j <> Some 0 /\ nums !! Z.to_nat j <> Some val) ->
    Z.of_nat (length vals) <= k -> val ∉ vals) as Hout.
  { intros k Hk Hle Hv. apply list_elem_of_lookup in Hv as [i Hvi]. pose proof (lookup_lt_Some _ _ _ Hvi).
    destruct (Hk (Z.of_nat i)) as [_ Hn]; [lia|]. apply Hn. rewrite Nat2Z.id.
    by apply (compact_lookup _ _ _ _ _ Hc). }
  destruct H as [(Hr & -> & Hv & _ & H)|[(-> & He & Hv & H)|(-> & -> & H)]].
  - left. assert (r < Z.of_nat (length vals)) as Hlt.
    { destruct (Z.lt_ge_cases r (Z.of_nat (length vals))) as [|Hge]; [done|].
      assert (nums !! length vals = Some 0) as H0 by (rewrite <- (Nat2Z.id (length vals)); apply co_rest0; lia).
      destruct (Z.eq_dec r (Z.of_nat (length vals))) as [->|].
      - rewrite Nat2Z.id in Hv. congruence.
      - destruct (H (Z.of_nat (length vals))) as [Hn _]; [lia|]. by rewrite Nat2Z.id in Hn. }
    destruct (Hin r) as (v & Hv1 & Hv2 & _); [lia|]. simplify_eq.
    split; [by apply list_elem_of_lookup_2 in Hv1|]. split; [lia|done].
  - right. assert (Z.of_nat (length vals) <= e) as Hge.
    { destruct (Z.lt_ge_cases e (Z.of_nat (length vals))) as [Hlt|]; [|done].
      destruct (Hin e) as (v & _ & Hv2 & Hnz); [lia|]. congruence. }
    split; [by apply (Hout e)|]. split; [done|].
    destruct (Z.ltb_spec (Z.of_nat (length vals)) max); [|lia].
    destruct (Z.eq_dec e (Z.of_nat (length vals))); [done|].
    destruct (H (Z.of_nat (length vals))) as [Hn _]; [lia|]. rewrite Nat2Z.id in Hn.
    destruct Hn. rewrite <- (Nat2Z.id (length vals)). apply co_rest0. lia.
  - right. split; [by apply (Hout max)|]. split; [done|].
    destruct (Z.ltb_spec (Z.of_nat (length vals)) max); [|done].
    destruct (H (Z.of_nat (length vals))) as [Hn _]; [lia|]. rewrite Nat2Z.id in Hn. destruct Hn.
    rewrite <- (Nat2Z.id (length vals)). apply co_rest0. lia.
Qed.

(** the number arrays are sets: adding finds a member where it is, appends
    another value while there is room and otherwise refuses it; the array stays
    compact, with distinct entries. *)
Theorem add_uint64_set nums max vals val : compact nums max vals -> val <> 0 ->
  exists nums' r, add_uint64 nums max val = Some (nums', r) /\ length nums' = length nums /\
    ((val ∈ vals /\ nums' = nums /\ vals !! Z.to_nat r = Some val /\ compact nums' max vals) \/
     ((val ∉ vals) /\ r = Z.of_nat (length vals) /\ r < max /\ compact nums' max (vals ++ [val])) \/
     ((val ∉ vals) /\ r = -1 /\ Z.of_nat (length vals) = max /\ nums' = nums)).
Proof.
  intros Hc Hval. pose proof Hc as []. unfold add_uint64.
  destruct (find_compact nums max vals val Hc Hval) as (r & e & -> & [(Hin & Hr & Hv & ->)|(Hni & -> & ->)]);
    cbn [mbind option_bind].
  - destruct (Z.leb_spec 0 r); [|lia]. do 2 eexists. split; [reflexivity|]. split; [done|]. by left.
  - destruct (Z.leb_spec 0 (-1)); [lia|]. destruct (Z.ltb_spec (Z.of_nat (length vals)) max).
    + destruct (Z.leb_spec 0 (Z.of_nat (length vals))); [|lia].
      rewrite aset_in_range by lia. cbn [mbind option_bind]. rewrite Nat2Z.id.
      do 2 eexists. split; [reflexivity|]. split; [by rewrite length_insert|]. right. left.
      split; [done|]. split; [done|]. split; [done|].
      assert (length (vals ++ [val]) = S (length vals)) as L by (rewrite length_app; simpl; lia).
      split; rewrite ?L, ?length_insert; [lia|lia| | | |].
      * rewrite (take_S_r _ _ val) by (rewrite list_lookup_insert_eq; [done|lia]).
        by rewrite take_insert_ge, co_vals0.
      * apply Forall_app. split; [done|]. by constructor.
      * apply list.NoDup_app. split; [done|]. split; [|apply NoDup_singleton].
        by intros x Hx ->%list_elem_of_singleton.
      * intros i Hi. rewrite list_lookup_insert_ne by lia. apply co_rest0. lia.
    + destruct (Z.leb_spec 0 (-1)); [lia|]. do 2 eexists. split; [reflexivity|]. split; [done|]. right. right.
      split; [done|]. split; [done|]. split; [lia|done].
Qed.

Lemma sample_compact : compact [7; 9; 0; 0] 3 [7; 9].
Proof.
  split; [simpl; lia|simpl; lia|reflexivity|by repeat constructor|concrete|].
  intros i Hi. simpl in Hi. assert (i = 2) as -> by lia. reflexivity.
Qed.

Lemma add_uint64_set_witness : exists nums' r, add_uint64 [7; 9; 0; 0] 3 5 = Some (nums', r) /\
  r = 2 /\ compact nums' 3 [7; 9; 5].
Proof.
  destruct (add_uint64_set [7; 9; 0; 0] 3 [7; 9] 5 sample_compact) as (nums & r & E & _ & H); [done|].
  exists nums, r. split; [exact E|].
  destruct H as [(Hin & _)|[(_ & Hr & _ & Hc)|(_ & _ & Hl & _)]]; [|by split|simpl in Hl; lia].
  exfalso. set_solver.
Defined.

(** Removal breaks a set: it puts a zero in the middle, so every member after
    the one removed is no longer found. *)
Theorem remove_uint64_hides nums max vals before val after x :
  compact nums max vals -> vals = before ++ val :: after -> x ∈ after ->
  exists nums', remove_uint64 nums max val = Some (nums', Z.of_nat (length before)) /\
    find_uint64 nums' max x = Some (-1, Z.of_nat (length before)).
Proof.
  intros Hc Ev Hx. pose proof Hc as []. set (i := length before).
  assert (vals !! i = Some val) as Hi by (rewrite Ev; by apply list_lookup_middle).
  assert (val <> 0) as Hnz by apply (Forall_lookup_1 _ _ _ _ co_nonzero0 Hi).
  pose proof (lookup_lt_Some _ _ _ Hi) as Hlt.
  unfold remove_uint64. destruct (find_compact nums max vals val Hc Hnz) as (r & e & -> & [(_ & Hr & Hv & ->)|(Hni & _)]);
    [|by apply list_elem_of_lookup_2 in Hi].
  assert (Z.to_nat r = i) as Er by (eapply NoDup_lookup; done).
  cbn [mbind option_bind]. destruct (Z.leb_spec 0 r) as [_|]; [|lia]. rewrite aset_in_range by lia.
  cbn [mbind option_bind]. rewrite Er. exists (<[i := 0]> nums). split; [do 2 f_equal; lia|].
  unfold find_uint64.
  destruct (find_from_spec (<[i := 0]> nums) x (Z.to_nat max) 0) as (r' & e' & -> & H); [rewrite ?length_insert; lia..|].
  rewrite Z2Nat.id, Z.add_0_l in H by lia.
  assert (<[i := 0]> nums !! Z.to_nat (Z.of_nat i) = Some 0) as H0 by (rewrite Nat2Z.id, list_lookup_insert_eq by lia; done).
  assert (forall k, 0 <= k < Z.of_nat i -> exists v, <[i := 0]> nums !! Z.to_nat k = Some v /\ v <> 0 /\ v <> x) as Hb.
  { intros k Hk. destruct (lookup_lt_is_Some_2 vals (Z.to_nat k)) as [v Hvk]; [lia|]. exists v.
    rewrite list_lookup_insert_ne by lia. split; [by apply (compact_lookup _ _ _ _ _ Hc)|].
    split; [apply (Forall_lookup_1 _ _ _ _ co_nonzero0 Hvk)|]. intros ->.
    apply list_elem_of_lookup in Hx as [m Hm].
    assert (vals !! (i + S m)%nat = Some x) as Hxm by (rewrite Ev, lookup_app_r by lia; unfold i; by replace (length before + S m - length before)%nat with (S m) by lia).
    assert (Z.to_nat k = (i + S m)%nat) by (eapply NoDup_lookup; done). lia. }
  destruct H as [(Hr' & -> & Hv' & _ & H)|[(-> & He' & Hv' & H)|(-> & -> & H)]].
  - destruct (Z.lt_trichotomy r' (Z.of_nat i)) as [Hl' | [-> | Hg]].
    + destruct (Hb r') as (v & Ev' & _ & Hvx); [lia|]. congruence.
    + assert (x = 0) as -> by congruence.
      assert (0 ∈ vals) as Hz by (rewrite Ev; set_solver).
      exfalso. exact (proj1 (list.Forall_forall _ _) co_nonzero0 0 Hz eq_refl).
    + destruct (H (Z.of_nat i)) as [Hn _]; [lia|done].
  - destruct (Z.lt_trichotomy e' (Z.of_nat i)) as [Hl' | [-> | Hg]]; [|done|].
    + destruct (Hb e') as (v & Ev' & Hv0 & _); [lia|]. congruence.
    + destruct (H (Z.of_nat i)) as [Hn _]; [lia|done].
  - destruct (H (Z.of_nat i)) as [Hn _]; [lia|done].
Qed.

Lemma remove_uint64_hides_witness : exists nums', remove_uint64 [7; 9; 0; 0] 3 7 = Some (nums', 0) /\
  find_uint64 nums' 3 9 = Some (-1, 0).
Proof. apply (remove_uint64_hides [7; 9; 0; 0] 3 [7; 9] [] 7 [9] 9 sample_compact); [reflexivity|concrete]. Defined.

(** A number of several bytes is read back one byte too far. *)
Lemma decode_uint_off_by_one : _decode_uint 2 [1; 2; 3] 0 = Some (Some (2 + 256 * 3), 2).
Proof. vm_compute. reflexivity. Qed.
