(* ===== verification/Poker.v ===== *)
(** * Poker: ranking hands of cards

    Models [plugins/games/pangea/poker.c]: the five- and seven-card scores and
    the piles of cards.  A card is a number below 52 (13 ranks in each of four
    suits); the evaluators work on masks with one bit per rank.  A score has the
    kind of hand from bit 27, the ranks that make it from bit 13 and the other
    ranks below.  The text of a hand is modelled too: the division of a pot looks at
    its last character. *)

From stdpp Require Import strings.
From S2P Require Import Prelude Bits Utils.

Definition RANK_SHL : Z := 27.
Definition SUBR_SHL : Z := 13.
Definition STRAIGHT_FLUSH_SCORE : Z := Z.shiftl 8 RANK_SHL.
Definition FOUR_KIND_SCORE : Z := Z.shiftl 7 RANK_SHL.
Definition FULL_HOUSE_SCORE : Z := Z.shiftl 6 RANK_SHL.
Definition FLUSH_SCORE : Z := Z.shiftl 5 RANK_SHL.
Definition STRAIGHT_SCORE : Z := Z.shiftl 4 RANK_SHL.
Definition THREE_KIND_SCORE : Z := Z.shiftl 3 RANK_SHL.
Definition TWO_PAIR_SCORE : Z := Z.shiftl 2 RANK_SHL.
Definition TWO_KIND_SCORE : Z := Z.shiftl 1 RANK_SHL.

Definition CardSuit : list Z :=
  [1; 1; 1; 1; 1; 1; 1; 1; 1; 1; 1; 1; 1; 2; 2; 2; 2; 2; 2; 2; 2; 2; 2; 2; 2; 2;
   4; 4; 4; 4; 4; 4; 4; 4; 4; 4; 4; 4; 4; 8; 8; 8; 8; 8; 8; 8; 8; 8; 8; 8; 8; 8].

Definition CardSuitIdx : list Z :=
  [0; 0; 0; 0; 0; 0; 0; 0; 0; 0; 0; 0; 0; 1; 1; 1; 1; 1; 1; 1; 1; 1; 1; 1; 1; 1;
   2; 2; 2; 2; 2; 2; 2; 2; 2; 2; 2; 2; 2; 3; 3; 3; 3; 3; 3; 3; 3; 3; 3; 3; 3; 3].

Definition CardMask : list Z :=
  [1; 2; 4; 8; 16; 32; 64; 128; 256; 512; 1024; 2048; 4096;
   1; 2; 4; 8; 16; 32; 64; 128; 256; 512; 1024; 2048; 4096;
   1; 2; 4; 8; 16; 32; 64; 128; 256; 512; 1024; 2048; 4096;
   1; 2; 4; 8; 16; 32; 64; 128; 256; 512; 1024; 2048; 4096].

(** [x & (x - 1)]: the lowest bit removed. *)
Definition strip (x : Z) : Z := Z.land x (u32 (x - 1)).

Definition shl (x k : Z) : Z := u32 (Z.shiftl x k).

(** One card more: [m1], [m2], [m3], [m4] are the ranks seen at least once, twice,
    three and four times.  The source writes the same assignments out for each
    card, less those whose right side is still zero. *)
Definition kinds_step (m : Z * Z * Z * Z) (c : Z) : Z * Z * Z * Z :=
  let '(m1, m2, m3, m4) := m in
  let m4 := Z.lor m4 (Z.land c m3) in
  let m3 := Z.lor m3 (Z.land c m2) in
  let m2 := Z.lor m2 (Z.land c m1) in
  let m1 := Z.lor m1 c in
  (m1, m2, m3, m4).

Definition kinds (c0 c1 : Z) (cs : list Z) : Z * Z * Z * Z :=
  foldl kinds_step (Z.lor c0 c1, Z.land c1 c0, 0, 0) cs.

Definition FiveCardDrawScoreFast (c0 c1 c2 c3 c4 u : Z) : Z :=
  let u := strip u in
  let '(m1, m2, m3, m4) := kinds c0 c1 [c2; c3; c4] in
  if m2 =? 0 then
    let z := Z.lxor (strip m1) m1 in
    let y := u32 (shl z 5 - z) in
    if m1 =? 0x100F then
      if negb (u =? 0) then STRAIGHT_SCORE + 0xF else STRAIGHT_FLUSH_SCORE + 0xF
    else if y =? m1 then
      if negb (u =? 0) then u32 (STRAIGHT_SCORE + m1) else u32 (STRAIGHT_FLUSH_SCORE + m1)
    else if negb (u =? 0) then m1 else u32 (FLUSH_SCORE + m1)
  else
    let m1 := Z.ldiff m1 m2 in
    if m3 =? 0 then
      if strip m2 =? 0 then u32 (TWO_KIND_SCORE + shl m2 SUBR_SHL + m1)
      else u32 (TWO_PAIR_SCORE + shl m2 SUBR_SHL + m1)
    else
      let m2 := Z.ldiff m2 m3 in
      if m4 =? 0 then
        if m2 =? 0 then u32 (THREE_KIND_SCORE + shl m3 SUBR_SHL + m1)
        else u32 (FULL_HOUSE_SCORE + shl m3 SUBR_SHL + m2)
      else u32 (FOUR_KIND_SCORE + shl m4 SUBR_SHL + m1).

Definition FiveCardDrawScore (h : list Z) : option Z :=
  h0 ← aget h 0; h1 ← aget h 1; h2 ← aget h 2; h3 ← aget h 3; h4 ← aget h 4;
  u0 ← aget CardSuit h0; u1 ← aget CardSuit h1; u2 ← aget CardSuit h2;
  u3 ← aget CardSuit h3; u4 ← aget CardSuit h4;
  c0 ← aget CardMask h0; c1 ← aget CardMask h1; c2 ← aget CardMask h2;
  c3 ← aget CardMask h3; c4 ← aget CardMask h4;
  Some (FiveCardDrawScoreFast c0 c1 c2 c3 c4
          (Z.lor (Z.lor (Z.lor (Z.lor u0 u1) u2) u3) u4)).

(** [f[i] |= c; cc[i]--] for the card's suit [i]. *)
Definition flush_step (st : option (list Z * list Z)) (card : Z * Z) : option (list Z * list Z) :=
  let '(hi, c) := card in
  '(f, cc) ← st;
  i ← aget CardSuitIdx hi;
  fi ← aget f i; f ← aset f i (Z.lor fi c);
  ci ← aget cc i; cc ← aset cc i (ci - 1);
  Some (f, cc).

Definition LG2TAB : list Z := [-1; 0; 1; -1; 2; -1; -1; -1; 3].

(** [while ( cc[s] < -1 ) t &= t - 1, cc[s]++]: one pass for each count below -1. *)
Definition SevenCardDrawFlush (h c : list Z) : option Z :=
  '(f, cc) ← foldl flush_step (Some (replicate 4 0, replicate 4 4)) (zip h c);
  cc0 ← aget cc 0; cc1 ← aget cc 1; cc2 ← aget cc 2; cc3 ← aget cc 3;
  if Z.lor (Z.lor cc0 cc1) (Z.lor cc2 cc3) <? 0 then
    let s := Z.shiftr (Z.lor (Z.lor (Z.land cc0 8) (Z.land cc1 16))
                             (Z.lor (Z.land cc2 32) (Z.land cc3 64))) 3 in
    s ← aget LG2TAB s;
    fs ← aget f s; ccs ← aget cc s;
    let t := Nat.iter (Z.to_nat (-1 - ccs)) strip fs in
    Some (Z.lor fs (shl t SUBR_SHL))
  else Some 0.

Definition SevenCardDrawFlushScore (f : Z) : Z := u32 (FLUSH_SCORE + Z.shiftr f SUBR_SHL).

(** A run of ranks [u] all present in [t]. *)
Definition within (u t : Z) : bool := Z.land u t =? u.

(** The lowest five of a run mask: [u &= ~(u >> 5)] keeps its top five. *)
Definition run (v k : Z) : Z := let u := u32 (shl v k - 1) in Z.ldiff u (Z.shiftr u k).

(** Scores of a seven-card hand with seven, six or five ranks in a row (the mask
    of the run is [u]); [None]: no such run. *)
Definition straight7 (f u : Z) : Z :=
  if negb (f =? 0) then
    let s := Z.land f u in
    let u := Z.lxor (strip s) s in
    let u := u32 (shl u 7 - 1) in
    let u := Z.ldiff u (Z.shiftr u 5) in
    let t := Z.shiftr u 1 in
    let v := Z.shiftr u 2 in
    if within u s then u32 (STRAIGHT_FLUSH_SCORE + u)
    else if within t s then u32 (STRAIGHT_FLUSH_SCORE + t)
    else if within v s then u32 (STRAIGHT_FLUSH_SCORE + v)
    else if within 0x100F f then STRAIGHT_FLUSH_SCORE + 0xF
    else SevenCardDrawFlushScore f
  else u32 (STRAIGHT_SCORE + Z.ldiff u (Z.shiftr u 5)).

Definition straight6 (f u : Z) : Z :=
  if negb (f =? 0) then
    let s := Z.land f u in
    let u := Z.lxor (strip s) s in
    let u := u32 (shl u 6 - 1) in
    let u := Z.ldiff u (Z.shiftr u 5) in
    let t := Z.shiftr u 1 in
    if within u s then u32 (STRAIGHT_FLUSH_SCORE + u)
    else if within t s then u32 (STRAIGHT_FLUSH_SCORE + t)
    else if within 0x100F f then STRAIGHT_FLUSH_SCORE + 0xF
    else SevenCardDrawFlushScore f
  else u32 (STRAIGHT_SCORE + Z.ldiff u (Z.shiftr u 5)).

Definition straight5 (f u : Z) : Z :=
  if negb (f =? 0) then
    let s := Z.land f u in
    let u := Z.lxor (strip s) s in
    let u := u32 (shl u 5 - 1) in
    let u := Z.ldiff u (Z.shiftr u 5) in
    if within u s then u32 (STRAIGHT_FLUSH_SCORE + u)
    else if within 0x100F f then STRAIGHT_FLUSH_SCORE + 0xF
    else SevenCardDrawFlushScore f
  else u32 (STRAIGHT_SCORE + Z.ldiff u (Z.shiftr u 5)).

(** The straights, in the source's order; [None] when the hand has none. *)
Definition straights (t f : Z) : option Z :=
  let s := strip t in
  let v := Z.lxor s t in
  let u := run v 7 in
  if within u t then Some (straight7 f u)
  else
    let u := run v 6 in
    let u := if negb (within u t) then run (Z.lxor (strip s) s) 6 else u in
    if within u t then Some (straight6 f u)
    else
      let u := run v 5 in
      let u := if negb (within u t) then
                 let v := s in
                 let s := strip s in
                 let v := Z.lxor v s in
                 let u := run v 5 in
                 if negb (within u t) then run (Z.lxor s (strip s)) 5 else u
               else u in
      if within u t then Some (straight5 f u)
      else if within 0x100F t then
        Some (if negb (f =? 0) then
                if within 0x100F f then STRAIGHT_FLUSH_SCORE + 0xF else SevenCardDrawFlushScore f
              else STRAIGHT_SCORE + 0xF)
      else None.

(** [while ( (m2= (m1 & (m1-1))) != 0 ) m1 = m2]: the highest bit; a pass removes
    a bit, so 32 passes suffice for a 32-bit mask. *)
Fixpoint top_bit (fuel : nat) (m1 : Z) : option Z :=
  match fuel with
  | O => None
  | S fuel => let m2 := strip m1 in if m2 =? 0 then Some m1 else top_bit fuel m2
  end.

(** Hands without a straight, from the masks of the kinds. *)
Definition of_a_kind (f m1 m2 m3 m4 : Z) : option Z :=
  let m1 := Z.ldiff m1 m2 in
  if m3 =? 0 then
    if negb (f =? 0) then Some (SevenCardDrawFlushScore f)
    else if negb (m2 =? 0) then
      let s := strip m2 in
      if s =? 0 then
        let t := strip m1 in
        let t := strip t in
        Some (u32 (TWO_KIND_SCORE + shl m2 SUBR_SHL + t))
      else
        let t := strip s in
        let '(m2, v) :=
          if negb (t =? 0) then (s, Z.lor m1 (Z.lxor m2 s)) else (m2, strip m1) in
        let v := strip v in
        Some (u32 (TWO_PAIR_SCORE + shl m2 SUBR_SHL + v))
    else Some (strip (strip m1))
  else if negb (m4 =? 0) then
    m1 ← top_bit 33 (Z.lor m1 (Z.ldiff m2 m4));
    Some (u32 (FOUR_KIND_SCORE + shl m4 SUBR_SHL + m1))
  else if Z.ldiff m2 m3 =? 0 then
    let t := strip m3 in
    if negb (t =? 0) then Some (u32 (FULL_HOUSE_SCORE + shl t SUBR_SHL + Z.lxor m3 t))
    else if negb (f =? 0) then Some (SevenCardDrawFlushScore f)
    else Some (u32 (THREE_KIND_SCORE + shl m3 SUBR_SHL + strip (strip m1)))
  else
    let m2 := Z.ldiff m2 m3 in
    let t := strip m2 in
    let t := if t =? 0 then m2 else t in
    Some (u32 (FULL_HOUSE_SCORE + shl m3 SUBR_SHL + t)).

Definition SevenCardDrawScore (h : list Z) : option Z :=
  h ← take_exact 7 h;
  c ← mapM (aget CardMask) h;
  f ← SevenCardDrawFlush h c;
  match c with
  | c0 :: c1 :: cs =>
      let t := foldl Z.lor 0 c in
      match straights t f with
      | Some score => Some score
      | None => let '(m1, m2, m3, m4) := kinds c0 c1 cs in of_a_kind f m1 m2 m3 m4
      end
  | _ => None
  end.

(** The reference evaluator of the source: the best of the 21 five-card hands. *)
Definition SevenCardDrawScoreSlow (h : list Z) : option Z :=
  '(m, _) ← for_ (fun i '(m, h2) =>
      h2 ← for_ (fun k h2 => x ← aget h k; aset h2 k x) 0 (Z.to_nat i) h2;
      for_ (fun j '(m, h2) =>
          h2 ← for_ (fun k h2 => x ← aget h k; aset h2 (k - 1) x) (i + 1) (Z.to_nat (j - (i + 1))) h2;
          h2 ← for_ (fun k h2 => x ← aget h k; aset h2 (k - 2) x) (j + 1) (Z.to_nat (7 - (j + 1))) h2;
          r ← FiveCardDrawScore h2;
          Some (if m <? r then r else m, h2))
        (i + 1) (Z.to_nat (7 - (i + 1))) (m, h2))
    0 6 (0, replicate 5 0);
  Some m.

(** The value [set_handstr] returns: 0 for cards out of range. *)
Definition set_handstr (cards : list Z) : option Z :=
  cards ← take_exact 7 cards;
  if forallb (fun c => (0 <=? c) && (c <? 52)) cards then SevenCardDrawScore cards else Some 0.

(** *** The text of a hand *)

Definition chars (s : string) : list Z := (fun c => Z.of_nat (Ascii.nat_of_ascii c)) <$> String.list_ascii_of_string s.

(** Two characters and a space for every rank, from the highest; bit 0 is shifted out. *)
Definition cardstr_step (c k : Z) (s : list Z * Z) : option (list Z * Z) :=
  let '(cardstr, j) := s in
  let i := 12 - k in
  if negb (Z.land (Z.shiftl 1 i) c =? 0) then
    a ← aget (chars "        1    ") i;
    b ← aget (chars "234567890JQKA") i;
    cardstr ← aset cardstr j a;
    cardstr ← aset cardstr (j + 1) b;
    cardstr ← aset cardstr (j + 2) 32;
    Some (cardstr, j + 3)
  else Some (cardstr, j).

Definition set_cardstr (cardstr : list Z) (c : Z) : option (list Z) :=
  '(cardstr, j) ← for_ (cardstr_step (Z.shiftr c 1)) 0 13 (cardstr, 0);
  aset cardstr j 0.

Definition handstrs : list string :=
  ["high card"; "one pair"; "two pair"; "three of a kind"; "straight"; "flush"; "full house"; "four of a kind"; "straight flush";
   "err"; "err"; "err"; "err"; "err"; "err"; "err"]%string.
Definition kickerstrs : list string :=
  [""; "kickers"; "kicker"; "kickers"; "high"; "high"; "full of"; "kicker"; "high"; "err"; "err"; "err"; "err"; "err"; "err"; "err"]%string.

(** [%c%c] of two characters of a buffer. *)
Definition two_chars (buf : list Z) (i : Z) : option (list Z) := a ← aget buf i; b ← aget buf (i + 1); Some [a; b].

(** What [sprintf] prints with [verbose] off and on. *)
Definition print_hand (kickerstr str : string) (cardstr cardstr2 : list Z) : option (list Z) :=
  if String.eqb kickerstr "high" then x ← two_chars cardstr2 0; Some (x ++ chars " high " ++ chars str)
  else if String.eqb str "full house" then
    x ← two_chars cardstr 0; y ← two_chars cardstr2 0; Some (chars "fullhouse " ++ x ++ chars " " ++ y)
  else if String.eqb str "three of a kind" then x ← two_chars cardstr 0; Some (chars "trip " ++ x)
  else if String.eqb str "two pair" then
    x ← two_chars cardstr 0; y ← two_chars cardstr 3; Some (chars "two pairs " ++ x ++ chars " " ++ y)
  else if String.eqb str "one pair" then x ← two_chars cardstr 0; Some (chars "pair " ++ x)
  else cstr cardstr2.

Definition print_hand_verbose (kickerstr str : string) (cardstr cardstr2 : list Z) : option (list Z) :=
  if String.eqb kickerstr "high" then x ← two_chars cardstr2 0; Some (x ++ chars " high " ++ chars str)
  else if String.eqb str "full house" then
    x ← two_chars cardstr 0; y ← two_chars cardstr2 0; Some (x ++ chars " full of " ++ y)
  else if String.eqb str "three of a kind" then
    x ← two_chars cardstr 0; y ← two_chars cardstr2 0; z ← two_chars cardstr2 3;
    Some (chars "set of " ++ x ++ chars " with kickers " ++ y ++ chars " " ++ z)
  else if String.eqb str "two pair" then
    x ← two_chars cardstr 0; y ← two_chars cardstr 3; z ← two_chars cardstr2 0;
    Some (chars "two pair " ++ x ++ chars " and " ++ y ++ chars " with " ++ z ++ chars " kicker")
  else if String.eqb str "one pair" then
    x ← two_chars cardstr 0; y ← two_chars cardstr2 0; Some (chars "pair of " ++ x ++ chars " with " ++ y ++ chars " kicker")
  else x ← cstr cardstr; y ← cstr cardstr2;
    Some (chars str ++ chars " " ++ x ++ chars " " ++ chars kickerstr ++ chars " " ++ y).

(** The string left in [handstr] and the value of [set_handstr]; [cardstr] and
    [cardstr2] are its two buffers on the stack, with what they happen to contain. *)
Definition handstr_of (cardstr cardstr2 cards : list Z) (verbose : bool) : option (list Z * Z) :=
  cards ← take_exact 7 cards;
  if forallb (fun c => (0 <=? c) && (c <? 52)) cards then
    score ← SevenCardDrawScore cards;
    cardstr ← set_cardstr cardstr (Z.land (Z.shiftr score SUBR_SHL) 8191);
    cardstr2 ← set_cardstr cardstr2 (Z.land score 8191);
    kickerstr ← aget kickerstrs (Z.land (Z.shiftr score RANK_SHL) 15);
    str ← aget handstrs (Z.land (Z.shiftr score RANK_SHL) 15);
    out ← (if verbose then print_hand_verbose kickerstr str cardstr cardstr2 else print_hand kickerstr str cardstr cardstr2);
    handstr ← cstr (out ++ [0]);
    Some (handstr, score)
  else Some ([], 0).

(** ** Piles of cards *)

(** The first [len] entries of the array are the pile. *)
Record CardPileType := mk_pile { cp_len : Z; cp_entry : list Z }.

Definition InitDeck (deck : CardPileType) : option CardPileType :=
  e ← for_ (fun i e => aset e i i) 0 52 (cp_entry deck);
  Some (mk_pile 52 e).

(** One turn of the loop of [Deal]; [h] and [d] are distinct piles. *)
Definition Deal_step (n : Z) (st : CardPileType * CardPileType * Z)
    : option (CardPileType * CardPileType * Z) :=
  let '(h, d, i) := st in
  if (i <? n) && (0 <? cp_len d) then
    let d := mk_pile (cp_len d - 1) (cp_entry d) in
    c ← aget (cp_entry d) (cp_len d);
    e ← aset (cp_entry h) (cp_len h) c;
    Some (mk_pile (cp_len h + 1) e, d, i + 1)
  else Some (h, d, i).

Definition Deal (h d : CardPileType) (n : Z) : option (CardPileType * CardPileType * Z) :=
  for_ (fun _ => Deal_step n) 0 (Z.to_nat n) (h, d, 0).

Definition RAND_MAX : Z := 2147483647.

(** Rejection sampling: the first value of [rand()] below [k]. *)
Fixpoint draw_below (rnd : list Z) (k : Z) : option (Z * list Z) :=
  match rnd with
  | [] => None
  | j :: rnd => if k <=? j then draw_below rnd k else Some (j, rnd)
  end.

(** [rnd] are the successive values of [rand()]; the result has those left over. *)
Definition Shuffle_step (len i : Z) (st : list Z * list Z) : option (list Z * list Z) :=
  let '(e, rnd) := st in
  let left := len - i in
  '(j, rnd) ← draw_below rnd (RAND_MAX / left * left);
  let j := i + Z.rem j left in
  t ← aget e i;
  x ← aget e j;
  e ← aset e i x;
  e ← aset e j t;
  Some (e, rnd).

Definition Shuffle (rnd : list Z) (c : CardPileType) : option (CardPileType * list Z) :=
  '(e, rnd) ← for_ (Shuffle_step (cp_len c)) 0 (Z.to_nat (cp_len c - 1)) (cp_entry c, rnd);
  Some (mk_pile (cp_len c) e, rnd).

Example seven_cards :
  SevenCardDrawScore [0; 1; 2; 3; 12; 20; 33] = Some (STRAIGHT_FLUSH_SCORE + 0xF) /\
  SevenCardDrawScore [0; 13; 26; 3; 16; 20; 33] = SevenCardDrawScoreSlow [0; 13; 26; 3; 16; 20; 33] /\
  SevenCardDrawScore [12; 25; 26; 3; 16; 20; 33] = SevenCardDrawScoreSlow [12; 25; 26; 3; 16; 20; 33].
Proof. repeat split; vm_compute; reflexivity. Qed.

(** ** The order of the cards does not matter *)

Lemma foldl_perm {A B} (f : A -> B -> A) (P : A -> Prop) (Q : B -> Prop) :
  (forall a x, P a -> Q x -> P (f a x)) ->
  (forall a x y, P a -> Q x -> Q y -> f (f a x) y = f (f a y) x) ->
  forall l l' a, l ≡ₚ l' -> Forall Q l -> P a -> foldl f a l = foldl f a l'.
Proof.
  intros Hp Hc l l' a Hl. revert a. induction Hl as [|x l l' Hl IH|x y l|l l' l'' H1 IH1 H2 IH2];
    intros a HQ Ha; simpl.
  - done.
  - apply Forall_cons_1 in HQ as [Hx HQ]. apply IH; auto.
  - apply Forall_cons_1 in HQ as [Hx HQ]. apply Forall_cons_1 in HQ as [Hy HQ].
    by rewrite (Hc a y x).
  - rewrite IH1 by done. apply IH2; [|done]. by rewrite <- H1.
Qed.

(** Equality of two masks, bit by bit. *)
Ltac by_bits :=
  apply Z.bits_inj'; intros ? ?; repeat (rewrite Z.lor_spec || rewrite Z.land_spec);
  repeat match goal with |- context [Z.testbit ?x ?i] => destruct (Z.testbit x i) end; reflexivity.

Lemma kinds_step_comm m a b : kinds_step (kinds_step m a) b = kinds_step (kinds_step m b) a.
Proof. destruct m as [[[m1 m2] m3] m4]. unfold kinds_step. f_equal; [f_equal; [f_equal|]|]; by_bits. Qed.

Lemma kinds_foldl c0 c1 cs : kinds c0 c1 cs = foldl kinds_step (0, 0, 0, 0) (c0 :: c1 :: cs).
Proof.
  unfold kinds. cbn [foldl]. f_equal. unfold kinds_step.
  by rewrite !Z.land_0_r, !Z.lor_0_l.
Qed.

(** A card, its mask and its suit. *)
Definition card_ok (c : Z) : Prop := 0 <= c < 52.
Definition mask_of (c : Z) : Z := nth (Z.to_nat c) CardMask 0.
Definition suit_of (c : Z) : Z := nth (Z.to_nat c) CardSuitIdx 0.

#[export] Instance card_ok_dec c : Decision (card_ok c).
Proof. unfold card_ok. apply _. Defined.

Lemma card_in c : card_ok c -> exists k, (k < 52)%nat /\ c = Z.of_nat k.
Proof. intros H. unfold card_ok in H. exists (Z.to_nat c). lia. Qed.

Lemma CardMask_aget c : card_ok c -> aget CardMask c = Some (mask_of c).
Proof. intros H. apply aget_nth. unfold card_ok in H. simpl. lia. Qed.

Lemma CardSuitIdx_aget c : card_ok c -> aget CardSuitIdx c = Some (suit_of c).
Proof. intros H. apply aget_nth. unfold card_ok in H. simpl. lia. Qed.

Lemma suit_range c : card_ok c -> 0 <= suit_of c < 4.
Proof.
  intros (k & Hk & ->)%card_in. unfold suit_of. rewrite Nat2Z.id.
  assert (Forall (fun x => 0 <= x < 4) CardSuitIdx) as HF by concrete.
  rewrite nth_lookup. destruct (lookup_lt_is_Some_2 CardSuitIdx k) as [x Hx]; [done|].
  rewrite Hx. apply (Forall_lookup_1 _ _ k x HF Hx).
Qed.

(** [flush_step] on the four suits, without the bounds checks. *)
Definition suit_step (st : list Z * list Z) (card : Z) : list Z * list Z :=
  let i := Z.to_nat (suit_of card) in
  (alter (fun x => Z.lor x (mask_of card)) i st.1, alter (fun x => x - 1) i st.2).

Definition four (st : list Z * list Z) : Prop := length st.1 = 4%nat /\ length st.2 = 4%nat.

Lemma alter_insert_lookup (f : Z -> Z) (l : list Z) i x : l !! i = Some x -> <[i := f x]> l = alter f i l.
Proof.
  intros H. apply list_eq. intros j. pose proof (lookup_lt_Some _ _ _ H).
  destruct (decide (i = j)) as [<-|Hne].
  - by rewrite list_lookup_insert_eq, list_lookup_alter_eq, H.
  - by rewrite list_lookup_insert_ne, list_lookup_alter_ne.
Qed.

Lemma flush_step_suit st card : four st -> card_ok card ->
  flush_step (Some st) (card, mask_of card) = Some (suit_step st card).
Proof.
  intros [L1 L2] Hc. destruct st as [f cc]. unfold flush_step, suit_step. cbn [mbind option_bind fst snd] in *.
  rewrite CardSuitIdx_aget by done. cbn [mbind option_bind].
  pose proof (suit_range card Hc) as Hs. set (i := suit_of card) in *.
  destruct (aget_is_Some f i) as (fi & Hfi & ->); [lia|]. cbn [mbind option_bind].
  rewrite aset_in_range by lia. cbn [mbind option_bind].
  destruct (aget_is_Some cc i) as (ci & Hci & ->); [lia|]. cbn [mbind option_bind].
  rewrite aset_in_range by lia. cbn [mbind option_bind].
  by rewrite (alter_insert_lookup (fun x => Z.lor x (mask_of card)) _ _ _ Hfi),
    (alter_insert_lookup (fun x => x - 1) _ _ _ Hci).
Qed.

Lemma suit_step_four st card : four st -> four (suit_step st card).
Proof. intros [? ?]. split; simpl; by rewrite length_alter. Qed.

Lemma alter_comm (f g : Z -> Z) (l : list Z) (i j : nat) : (forall x, f (g x) = g (f x)) ->
  alter f i (alter g j l) = alter g j (alter f i l).
Proof.
  intros H. destruct (decide (i = j)) as [<-|Hne]; [|by apply list_alter_alter_ne].
  rewrite !list_alter_alter_eq. apply list_alter_ext; [|done]. intros x _. apply H.
Qed.

Lemma suit_step_comm st a b : suit_step (suit_step st a) b = suit_step (suit_step st b) a.
Proof.
  unfold suit_step. cbn [fst snd]. f_equal; apply alter_comm; intros x; [by_bits|lia].
Qed.

Lemma flush_foldl h st : four st -> Forall card_ok h ->
  foldl flush_step (Some st) (zip h (mask_of <$> h)) = Some (foldl suit_step st h).
Proof.
  intros Hst Hh. revert st Hst. induction Hh as [|c h Hc Hh IH]; intros st Hst; [done|].
  rewrite fmap_cons. cbn [zip zip_with foldl]. rewrite flush_step_suit by done.
  apply IH. by apply suit_step_four.
Qed.

Lemma mapM_masks h : Forall card_ok h -> mapM (aget CardMask) h = Some (mask_of <$> h).
Proof.
  intros Hh. apply mapM_Some. induction Hh as [|c h Hc Hh IH]; [constructor|].
  rewrite fmap_cons. constructor; [by apply CardMask_aget|done].
Qed.

(** The score from the masks of ranks, suits and kinds. *)
Definition score_from (f : option Z) (t : Z) (m : Z * Z * Z * Z) : option Z :=
  f ← f;
  match straights t f with
  | Some score => Some score
  | None => let '(m1, m2, m3, m4) := m in of_a_kind f m1 m2 m3 m4
  end.

Definition suits_flush (st : list Z * list Z) : option Z :=
  let '(f, cc) := st in
  cc0 ← aget cc 0; cc1 ← aget cc 1; cc2 ← aget cc 2; cc3 ← aget cc 3;
  if Z.lor (Z.lor cc0 cc1) (Z.lor cc2 cc3) <? 0 then
    let s := Z.shiftr (Z.lor (Z.lor (Z.land cc0 8) (Z.land cc1 16))
                             (Z.lor (Z.land cc2 32) (Z.land cc3 64))) 3 in
    s ← aget LG2TAB s;
    fs ← aget f s; ccs ← aget cc s;
    let t := Nat.iter (Z.to_nat (-1 - ccs)) strip fs in
    Some (Z.lor fs (shl t SUBR_SHL))
  else Some 0.

Lemma score7_from h : length h = 7%nat -> Forall card_ok h ->
  SevenCardDrawScore h =
    score_from (suits_flush (foldl suit_step (replicate 4 0, replicate 4 4) h))
      (foldl Z.lor 0 (mask_of <$> h)) (foldl kinds_step (0, 0, 0, 0) (mask_of <$> h)).
Proof.
  intros Hl Hh. unfold SevenCardDrawScore. rewrite take_exact_le, take_ge by lia.
  cbn [mbind option_bind]. rewrite mapM_masks by done. cbn [mbind option_bind].
  unfold SevenCardDrawFlush. rewrite flush_foldl by done. cbn [mbind option_bind].
  fold (suits_flush (foldl suit_step (replicate 4 0, replicate 4 4) h)).
  unfold score_from. destruct (suits_flush _) as [f|]; [|done]. cbn [mbind option_bind].
  destruct h as [|h0 [|h1 h]]; [done|done|]. rewrite !fmap_cons. by rewrite <- kinds_foldl.
Qed.

(** the score of seven cards does not depend on their order: every player,
    whichever cards he holds face down, computes the same rank for the same
    seven cards. *)
Theorem SevenCardDrawScore_perm h h' :
  h ≡ₚ h' -> length h = 7%nat -> Forall card_ok h -> SevenCardDrawScore h = SevenCardDrawScore h'.
Proof.
  intros Hp Hl Hh. rewrite !score7_from; [|by rewrite <- Hp|by rewrite <- Hp|done|done].
  f_equal; [f_equal| |].
  - apply (foldl_perm suit_step (fun _ => True) (fun _ => True)); auto using suit_step_comm.
    by apply Forall_true.
  - apply (foldl_perm Z.lor (fun _ => True) (fun _ => True)); auto.
    + intros. rewrite <- !Z.lor_assoc. f_equal. apply Z.lor_comm.
    + by rewrite Hp.
    + by apply Forall_true.
  - apply (foldl_perm kinds_step (fun _ => True) (fun _ => True)); auto using kinds_step_comm.
    + by rewrite Hp.
    + by apply Forall_true.
Qed.

Lemma SevenCardDrawScore_perm_witness :
  SevenCardDrawScore [12; 25; 3; 16; 20; 33; 38] = SevenCardDrawScore [38; 33; 20; 16; 3; 25; 12].
Proof.
  apply SevenCardDrawScore_perm; [|concrete|concrete].
  apply (reverse_Permutation [38; 33; 20; 16; 3; 25; 12]).
Defined.

(** ** The deck *)

Lemma swap_perm {A} (l : list A) (i j : nat) t x : (i <= j)%nat -> l !! i = Some t -> l !! j = Some x ->
  <[j := t]> (<[i := x]> l) ≡ₚ l.
Proof.
  intros Hij Hi Hj. pose proof (lookup_lt_Some _ _ _ Hj) as Hl.
  rewrite insert_take_drop by (rewrite length_insert; lia).
  rewrite (drop_insert_lt _ (S j)) by lia. rewrite <- Permutation_middle.
  rewrite app_comm_cons, (draw_perm l i j t x) by done. by rewrite take_drop.
Qed.

(** A draw that no card count up to [len] rejects. *)
Definition accepted (len x : Z) : Prop := 0 <= x <= RAND_MAX - len.

#[export] Instance accepted_dec len x : Decision (accepted len x).
Proof. unfold accepted. apply _. Defined.

Lemma draw_accepted len left x rnd : 0 < left <= len -> accepted len x ->
  draw_below (x :: rnd) (RAND_MAX / left * left) = Some (x, rnd).
Proof.
  intros Hl Hx. unfold accepted in Hx. simpl.
  pose proof (Z.div_mod RAND_MAX left). pose proof (Z.mod_pos_bound RAND_MAX left).
  case_cmp; [lia|done].
Qed.

Lemma Shuffle_step_spec len i e x rnd : 0 <= i < len -> len <= Z.of_nat (length e) -> accepted len x ->
  exists j t y, i <= j < len /\ j = i + x mod (len - i) /\
    e !! Z.to_nat i = Some t /\ e !! Z.to_nat j = Some y /\
    Shuffle_step len i (e, x :: rnd) = Some (<[Z.to_nat j := t]> (<[Z.to_nat i := y]> e), rnd).
Proof.
  intros Hi Hl Hx. unfold Shuffle_step. rewrite (draw_accepted len) by (done || lia).
  unfold accepted in Hx. cbn [mbind option_bind]. rewrite Z.rem_mod_nonneg by lia.
  pose proof (Z.mod_pos_bound x (len - i)). set (j := i + x mod (len - i)).
  destruct (aget_is_Some e i) as (t & Ht & ->); [lia|].
  destruct (aget_is_Some e j) as (y & Hy & ->); [lia|]. cbn [mbind option_bind].
  rewrite aset_in_range by lia. cbn [mbind option_bind].
  rewrite aset_in_range by (rewrite length_insert; lia).
  exists j, t, y. repeat split; (done || lia).
Qed.

(** a shuffle only changes the order of the pile: with enough accepted draws
    it ends, the first [len] entries are permuted and the rest of the array is
    left alone. *)
Theorem Shuffle_permutes rnd c :
  0 <= cp_len c <= Z.of_nat (length (cp_entry c)) -> Forall (accepted (cp_len c)) rnd ->
  cp_len c - 1 <= Z.of_nat (length rnd) ->
  exists c' rest, Shuffle rnd c = Some (c', rest) /\ cp_len c' = cp_len c /\
    take (Z.to_nat (cp_len c)) (cp_entry c') ≡ₚ take (Z.to_nat (cp_len c)) (cp_entry c) /\
    drop (Z.to_nat (cp_len c)) (cp_entry c') = drop (Z.to_nat (cp_len c)) (cp_entry c).
Proof.
  destruct c as [len e0]. cbn [cp_len cp_entry]. intros Hl Hr Hn. unfold Shuffle. cbn [cp_len cp_entry].
  destruct (for_inv (fun i '(e, rnd) => Forall (accepted len) rnd /\ len - 1 - i <= Z.of_nat (length rnd) /\
      e ≡ₚ e0 /\ drop (Z.to_nat len) e = drop (Z.to_nat len) e0)
    (Shuffle_step len) (Z.to_nat (len - 1)) 0 (e0, rnd)) as ([e rest] & E & Hr' & _ & Hp & Hd).
  - repeat split; (done || lia).
  - intros i [e r] Hi (Ha & Hlr & Hp & Hd). destruct r as [|x r]; [simpl in Hlr; lia|].
    inversion Ha as [|? ? Hx Ha']; subst. pose proof (Permutation_length Hp) as L.
    destruct (Shuffle_step_spec len i e x r) as (j & t & y & Hj & _ & Ht & Hy & Es); [lia..|done|].
    eexists. split; [exact Es|]. cbn [length] in Hlr. split; [done|]. split; [lia|]. split.
    + rewrite swap_perm by (done || lia). done.
    + by rewrite !drop_insert_lt by lia.
  - rewrite E. cbn [mbind option_bind]. do 2 eexists. split; [reflexivity|]. cbn [cp_len cp_entry].
    split; [done|]. split; [|done].
    apply (Permutation_app_inv_r (drop (Z.to_nat len) e)). rewrite take_drop, Hd, take_drop. exact Hp.
Qed.

Lemma Shuffle_permutes_witness : exists c' rest, Shuffle [7; 2; 9] (mk_pile 4 [0; 1; 2; 3; 4]) = Some (c', rest) /\
    cp_len c' = 4 /\ take 4 (cp_entry c') ≡ₚ [0; 1; 2; 3] /\ drop 4 (cp_entry c') = [4].
Proof. apply (Shuffle_permutes [7; 2; 9] (mk_pile 4 [0; 1; 2; 3; 4])); simpl; [lia| |lia]. concrete. Defined.

(** The part of the pile still to be drawn. *)
Lemma middle_perm (e q : list Z) i len : (i <= len)%nat -> e ≡ₚ q ->
  take i e = take i q -> drop len e = drop len q ->
  drop i (take len e) ≡ₚ drop i (take len q).
Proof.
  intros Hi Hp Ht Hd. apply (Permutation_app_inv_l (take i e)), (Permutation_app_inv_r (drop len e)).
  assert (forall l : list Z, (take i l ++ drop i (take len l)) ++ drop len l = l) as Hl.
  { intros l. replace (take i l) with (take i (take len l)) by (rewrite take_take; f_equal; lia).
    by rewrite take_drop, take_drop. }
  rewrite Hl, Ht, Hd, Hl. done.
Qed.

Lemma Shuffle_from len q n : forall e i, len - 1 - i = Z.of_nat n -> 0 <= i -> len <= Z.of_nat (length e) ->
  2 * len <= RAND_MAX -> e ≡ₚ q -> take (Z.to_nat i) e = take (Z.to_nat i) q ->
  drop (Z.to_nat len) e = drop (Z.to_nat len) q ->
  exists rnd, length rnd = n /\ Forall (accepted len) rnd /\
    for_ (Shuffle_step len) i n (e, rnd) = Some (q, []).
Proof.
  induction n as [|n IH]; intros e i Hn Hi Hl Hm Hp Ht Hd.
  - exists []. repeat split; [constructor|]. cbn [for_]. do 2 f_equal.
    pose proof (middle_perm e q (Z.to_nat i) (Z.to_nat len) ltac:(lia) Hp Ht Hd) as Hmid.
    pose proof (Permutation_length Hp).
    assert (forall l : list Z, length l = length e -> exists a, drop (Z.to_nat i) (take (Z.to_nat len) l) = [a] /\
      l = take (Z.to_nat i) l ++ [a] ++ drop (Z.to_nat len) l) as Hone.
    { intros l Hll. destruct (lookup_lt_is_Some_2 l (Z.to_nat i)) as [a Ha]; [lia|]. exists a.
      replace (Z.to_nat len) with (S (Z.to_nat i)) by lia. split.
      - rewrite (take_S_r _ _ _ Ha), drop_app_le, drop_ge by (rewrite ?length_take; lia). done.
      - symmetry. exact (take_drop_middle _ _ _ Ha). }
    destruct (Hone e) as (a & Ea & Ee); [done|]. destruct (Hone q) as (b & Eb & Eq); [lia|].
    rewrite Ea, Eb in Hmid. apply Permutation_singleton_inj in Hmid as ->. by rewrite Ee, Eq, Ht, Hd.
  - pose proof (Permutation_length Hp).
    destruct (lookup_lt_is_Some_2 q (Z.to_nat i)) as [x Hx]; [lia|].
    assert (x ∈ drop (Z.to_nat i) (take (Z.to_nat len) e)) as Hin.
    { rewrite (middle_perm e q) by (done || lia). apply list_elem_of_lookup. exists 0%nat.
      rewrite lookup_drop, lookup_take_lt by lia. by rewrite Nat.add_0_r. }
    apply list_elem_of_lookup in Hin as [k Hk]. rewrite lookup_drop in Hk.
    apply lookup_take_Some in Hk as [Hk Hlt].
    set (d := Z.of_nat k). assert (accepted len d) as Hacc by (unfold accepted, d; lia).
    destruct (Shuffle_step_spec len i e d []) as (j & t & y & Hj & Ej & Hti & Hy & _); [lia..|done|].
    rewrite Z.mod_small in Ej by lia.
    assert (y = x) as -> by (replace (Z.to_nat j) with (Z.to_nat i + k)%nat in Hy by lia; congruence).
    destruct (IH (<[Z.to_nat j := t]> (<[Z.to_nat i := x]> e)) (i + 1)) as (rnd & Hr & Ha & Er).
    + lia.
    + lia.
    + rewrite !length_insert. lia.
    + done.
    + rewrite swap_perm by (done || lia). done.
    + replace (Z.to_nat (i + 1)) with (S (Z.to_nat i)) by lia.
      rewrite (take_S_r q _ _ Hx), <- Ht. destruct (decide (j = i)) as [->|Hne].
      * rewrite list_insert_insert_eq. rewrite Hti in Hy. simplify_eq.
        rewrite (take_S_r _ _ x) by (rewrite list_lookup_insert_eq; [done|lia]).
        by rewrite take_insert_ge.
      * rewrite take_insert_ge by lia.
        rewrite (take_S_r _ _ x) by (rewrite list_lookup_insert_eq; [done|lia]).
        by rewrite take_insert_ge.
    + by rewrite !drop_insert_lt by lia.
    + exists (d :: rnd). split; [simpl; lia|]. split; [by constructor|]. cbn [for_].
      destruct (Shuffle_step_spec len i e d rnd) as (j' & t' & y' & Hj' & Ej' & Hti' & Hy' & ->); [lia..|done|].
      rewrite Z.mod_small in Ej' by lia. assert (j' = j) as -> by lia. simplify_eq.
      exact Er.
Qed.

(** a shuffle is not biased to some arrangements: every order of the pile is
    the result of some sequence of accepted draws, one draw per card but the
    last. *)
Theorem Shuffle_reaches len e q :
  0 < len <= Z.of_nat (length e) -> 2 * len <= RAND_MAX -> e ≡ₚ q ->
  drop (Z.to_nat len) e = drop (Z.to_nat len) q ->
  exists rnd, Z.of_nat (length rnd) = len - 1 /\ Forall (accepted len) rnd /\
    Shuffle rnd (mk_pile len e) = Some (mk_pile len q, []).
Proof.
  intros Hl Hm Hp Hd.
  destruct (Shuffle_from len q (Z.to_nat (len - 1)) e 0) as (rnd & Hr & Ha & E); [lia..|done|done|done|].
  exists rnd. split; [lia|]. split; [done|]. unfold Shuffle. cbn [cp_len cp_entry]. by rewrite E.
Qed.

Lemma Shuffle_reaches_witness : exists rnd, Z.of_nat (length rnd) = 2 /\ Forall (accepted 3) rnd /\
  Shuffle rnd (mk_pile 3 [5; 6; 7]) = Some (mk_pile 3 [7; 6; 5], []).
Proof.
  apply (Shuffle_reaches 3); [simpl; lia|unfold RAND_MAX; lia| |reflexivity].
  symmetry. apply (reverse_Permutation [5; 6; 7]).
Defined.

(** The cards of a pile. *)
Definition pile (c : CardPileType) : list Z := take (Z.to_nat (cp_len c)) (cp_entry c).

(** Dealing moves cards from the top of the pile to the hand one by one: with
    room in the hand, as many as asked for and present, the last card first, and
    none is lost or doubled. *)
Theorem Deal_moves h d n :
  0 <= n -> 0 <= cp_len h -> 0 <= cp_len d <= Z.of_nat (length (cp_entry d)) ->
  cp_len h + Z.min n (cp_len d) <= Z.of_nat (length (cp_entry h)) ->
  exists h' d' i, Deal h d n = Some (h', d', i) /\ i = Z.min n (cp_len d) /\
    pile d' = take (Z.to_nat (cp_len d - i)) (pile d) /\
    pile h' = pile h ++ reverse (drop (Z.to_nat (cp_len d - i)) (pile d)).
Proof.
  intros Hn Hh Hd Hroom. unfold Deal.
  destruct (for_inv (fun k '(h', d', i) => i = Z.min k (cp_len d) /\ cp_len h' = cp_len h + i /\
      length (cp_entry h') = length (cp_entry h) /\ d' = mk_pile (cp_len d - i) (cp_entry d) /\
      pile h' = pile h ++ reverse (drop (Z.to_nat (cp_len d - i)) (pile d)))
    (fun _ => Deal_step n) (Z.to_nat n) 0 (h, d, 0)) as ([[h' d'] i] & E & Hi & _ & _ & -> & Hp).
  - rewrite Z.min_l by lia. repeat split; [lia|by destruct d; rewrite Z.sub_0_r|].
    rewrite Z.sub_0_r, drop_ge by (unfold pile; rewrite length_take; lia). by rewrite app_nil_r.
  - intros k [[h1 d1] i] Hk (Hi & Hl1 & Hll & -> & Hp). unfold Deal_step. cbn [cp_len cp_entry].
    destruct (Z.ltb_spec 0 (cp_len d - i)) as [Hgt|Hle].
    + assert (i = k) as -> by lia. assert ((k <? n) = true) as -> by lia.
      cbn [andb]. destruct (aget_is_Some (cp_entry d) (cp_len d - k - 1)) as (c & Hc & ->); [lia|].
      cbn [mbind option_bind]. rewrite aset_in_range by lia. cbn [mbind option_bind].
      eexists. split; [reflexivity|]. cbn [cp_len cp_entry].
      split; [lia|]. split; [lia|]. split; [by rewrite length_insert|]. split; [f_equal; lia|].
      assert (pile (mk_pile (cp_len h1 + 1) (<[Z.to_nat (cp_len h1) := c]> (cp_entry h1))) = pile h1 ++ [c]) as ->.
      { unfold pile at 1. cbn [cp_len cp_entry].
        replace (Z.to_nat (cp_len h1 + 1)) with (S (Z.to_nat (cp_len h1))) by lia.
        rewrite (take_S_r _ _ c) by (rewrite list_lookup_insert_eq; [done|lia]).
        by rewrite take_insert_ge. }
      rewrite Hp, <- app_assoc. f_equal.
      assert (pile d !! Z.to_nat (cp_len d - k - 1) = Some c) as Hc'.
      { unfold pile. rewrite lookup_take_lt by lia. done. }
      replace (Z.to_nat (cp_len d - (k + 1))) with (Z.to_nat (cp_len d - k - 1)) by lia.
      rewrite (drop_S _ _ _ Hc'), reverse_cons. do 3 f_equal. lia.
    + rewrite andb_false_r. eexists. split; [reflexivity|]. repeat split; (done || lia).
  - rewrite E. replace (0 + Z.of_nat (Z.to_nat n)) with n in Hi by lia.
    do 3 eexists. split; [reflexivity|]. split; [done|]. split; [|done].
    unfold pile. cbn [cp_len cp_entry]. rewrite take_take. f_equal. lia.
Qed.

Lemma Deal_moves_witness : exists h' d' i, Deal (mk_pile 1 [4; 0; 0; 0]) (mk_pile 3 [7; 8; 9]) 2 = Some (h', d', i) /\
  i = 2 /\ pile d' = [7] /\ pile h' = [4; 9; 8].
Proof.
  destruct (Deal_moves (mk_pile 1 [4; 0; 0; 0]) (mk_pile 3 [7; 8; 9]) 2)
    as (h' & d' & i & E & -> & Hd & Hh); [simpl; lia..|].
  exists h', d', 2. repeat split; [exact E|exact Hd|exact Hh].
Defined.

(** ** The evaluator never leaves its tables *)

(** Sets of the thirteen ranks. *)
Definition rank_mask (x : Z) : Prop := Z.land x 8191 = x.

Lemma rank_mask_range x : rank_mask x -> 0 <= x < 8192.
Proof.
  intros H. rewrite <- H. change 8191 with (Z.ones 13). rewrite Z.land_ones by lia.
  apply Z.mod_pos_bound. lia.
Qed.

Lemma rank_mask_lor x y : rank_mask x -> rank_mask y -> rank_mask (Z.lor x y).
Proof. unfold rank_mask. intros Hx Hy. by rewrite Z.land_lor_distr_l, Hx, Hy. Qed.

Lemma rank_mask_land x y : rank_mask x -> rank_mask (Z.land x y).
Proof. unfold rank_mask. intros Hx. by rewrite <- Z.land_assoc, (Z.land_comm y), Z.land_assoc, Hx. Qed.

Lemma rank_mask_ldiff x y : rank_mask x -> rank_mask (Z.ldiff x y).
Proof.
  unfold rank_mask. intros Hx. rewrite <- Hx at 2. apply Z.bits_inj'. intros n _.
  rewrite !Z.land_spec, !Z.ldiff_spec, Z.land_spec.
  by destruct (Z.testbit x n), (Z.testbit y n), (Z.testbit 8191 n).
Qed.

Lemma mask_of_rank c : card_ok c -> rank_mask (mask_of c).
Proof.
  intros (k & Hk & ->)%card_in. unfold mask_of. rewrite Nat2Z.id.
  assert (Forall rank_mask CardMask) as HF by (unfold rank_mask; repeat constructor).
  rewrite nth_lookup. destruct (lookup_lt_is_Some_2 CardMask k) as [x Hx]; [done|].
  rewrite Hx. apply (Forall_lookup_1 _ _ k x HF Hx).
Qed.

Lemma kinds_foldl_masks l : Forall rank_mask l -> forall m1 m2 m3 m4,
  rank_mask m1 -> rank_mask m2 -> rank_mask m3 -> rank_mask m4 ->
  let '(n1, n2, n3, n4) := foldl kinds_step (m1, m2, m3, m4) l in
  rank_mask n1 /\ rank_mask n2 /\ rank_mask n3 /\ rank_mask n4.
Proof.
  induction 1 as [|c l Hc Hl IH]; intros m1 m2 m3 m4 H1 H2 H3 H4; [done|].
  cbn [foldl]. unfold kinds_step at 2. apply IH; auto using rank_mask_lor, rank_mask_land.
Qed.

(** A pass removes the lowest bit. *)
Lemma strip_clears x k : 0 <= k -> 0 < x < 2 ^ 32 -> x mod 2 ^ k = 0 -> strip x mod 2 ^ (k + 1) = 0.
Proof.
  intros Hk Hx Hm. unfold strip. rewrite u32_small by lia. rewrite <- Z.land_ones by lia.
  apply Z.bits_inj'. intros j Hj. rewrite !Z.land_spec, Z.bits_0.
  destruct (Z.lt_trichotomy j k) as [Hlt | [-> | Hgt]].
  - rewrite <- (Z.mod_pow2_bits_low x k j), Hm, Z.bits_0 by lia. done.
  - rewrite !Z.testbit_odd, !Z.shiftr_div_pow2 by lia.
    assert (0 < 2 ^ k) as Hp by (apply Z.pow_pos_nonneg; lia).
    pose proof (Z.div_mod x (2 ^ k)).
    replace ((x - 1) / 2 ^ k) with (x / 2 ^ k - 1)
      by (apply (Z.div_unique _ _ _ (2 ^ k - 1)); lia).
    rewrite Z.sub_1_r, Z.odd_pred, <- Z.negb_odd. by destruct (Z.odd (x / 2 ^ k)).
  - rewrite Z.ones_spec_high by lia. apply andb_false_r.
Qed.

Lemma top_bit_total fuel : forall x k, 0 <= k <= 13 -> 13 - k < Z.of_nat fuel -> rank_mask x -> x mod 2 ^ k = 0 ->
  is_Some (top_bit fuel x).
Proof.
  induction fuel as [|fuel IH]; intros x k Hk Hf Hx Hm; [lia|].
  cbn [top_bit]. pose proof (rank_mask_range x Hx). case_cmp; [done|].
  assert (x <> 0) by (intros ->; done).
  assert (k <> 13) by (intros ->; rewrite Z.mod_small in Hm; lia).
  apply (IH _ (k + 1)); [lia|lia|by apply rank_mask_land|]. apply strip_clears; [lia|lia|done].
Qed.

Lemma of_a_kind_total f m1 m2 m3 m4 : rank_mask m1 -> rank_mask m2 -> is_Some (of_a_kind f m1 m2 m3 m4).
Proof.
  intros H1 H2. unfold of_a_kind.
  destruct (top_bit_total 33 (Z.lor (Z.ldiff m1 m2) (Z.ldiff m2 m4)) 0) as [x ->];
    [lia|lia|auto using rank_mask_lor, rank_mask_ldiff|apply Z.mod_1_r|].
  cbn [mbind option_bind]. destruct (strip (strip m2) =? 0); cbn [negb]; repeat case_match; done.
Qed.

(** The counts of the suits after [n] cards: each started at four. *)
Definition counts (n : nat) (cc : list Z) : Prop :=
  length cc = 4%nat /\ Forall (fun x => x <= 4) cc /\ sumZ cc = 16 - Z.of_nat n.

Lemma suit_step_counts n st card : card_ok card -> counts n st.2 -> counts (S n) (suit_step st card).2.
Proof.
  intros Hc (Hl & Hf & Hs). pose proof (suit_range card Hc). unfold suit_step. cbn [snd].
  destruct (lookup_lt_is_Some_2 st.2 (Z.to_nat (suit_of card))) as [x Hx]; [lia|].
  rewrite <- (alter_insert_lookup (fun x => x - 1) _ _ _ Hx). cbn beta. split; [|split].
  - by rewrite length_insert.
  - apply Forall_insert; [done|]. pose proof (Forall_lookup_1 _ _ _ _ Hf Hx). simpl in *. lia.
  - rewrite (sumZ_insert _ _ _ x Hx). lia.
Qed.

Lemma suits_foldl h : Forall card_ok h -> forall n st, four st -> counts n st.2 ->
  four (foldl suit_step st h) /\ counts (n + length h) (foldl suit_step st h).2.
Proof.
  induction 1 as [|c h Hc Hh IH]; intros n st Hst Hn; cbn [foldl length].
  - by rewrite Nat.add_0_r.
  - replace (n + S (length h))%nat with (S n + length h)%nat by lia.
    apply IH; [by apply suit_step_four|by apply suit_step_counts].
Qed.

(** At most one suit of seven cards has five or more, and its index is read from
    inside [LG2TAB]. *)
Definition suit_index (a b c d : Z) : bool :=
  if Z.lor (Z.lor a b) (Z.lor c d) <? 0 then
    match aget LG2TAB (Z.shiftr (Z.lor (Z.lor (Z.land a 8) (Z.land b 16))
                                       (Z.lor (Z.land c 32) (Z.land d 64))) 3) with
    | Some s => (0 <=? s) && (s <? 4)
    | None => false
    end
  else true.

Lemma suit_index_ok a b c d : a <= 4 -> b <= 4 -> c <= 4 -> d <= 4 -> a + b + c + d = 9 ->
  suit_index a b c d = true.
Proof.
  intros Ha Hb Hc Hd Hsum.
  assert (forallb (fun a => forallb (fun b => forallb (fun c =>
    let z k := Z.of_nat k - 3 in let d := 9 - z a - z b - z c in
    if (d <=? 4) then suit_index (z a) (z b) (z c) d else true) (seq 0 8)) (seq 0 8)) (seq 0 8) = true)
    as HF by (vm_compute; reflexivity).
  rewrite forallb_forall in HF. specialize (HF (Z.to_nat (a + 3))). rewrite forallb_forall in HF.
  specialize (HF ltac:(apply in_seq; lia) (Z.to_nat (b + 3))). rewrite forallb_forall in HF.
  specialize (HF ltac:(apply in_seq; lia) (Z.to_nat (c + 3)) ltac:(apply in_seq; lia)).
  cbv zeta beta in HF. rewrite !Z2Nat.id in HF by lia. rewrite !Z.add_simpl_r in HF.
  replace (9 - a - b - c) with d in HF by lia. destruct (Z.leb_spec d 4); [done|lia].
Qed.

Lemma suits_flush_total st : four st -> counts 7 st.2 -> is_Some (suits_flush st).
Proof.
  destruct st as [f cc]. intros [Hf _] (Hl & Hc & Hs). cbn [fst snd] in *. unfold suits_flush.
  destruct cc as [|a [|b [|c [|d [|]]]]]; try done. simpl in Hs.
  repeat match goal with H : Forall _ (_ :: _) |- _ => inversion H; clear H; subst end.
  pose proof (suit_index_ok a b c d ltac:(lia) ltac:(lia) ltac:(lia) ltac:(lia) ltac:(lia)) as Hi.
  unfold suit_index in Hi.
  change (aget [a; b; c; d] 0) with (Some a). change (aget [a; b; c; d] 1) with (Some b).
  change (aget [a; b; c; d] 2) with (Some c). change (aget [a; b; c; d] 3) with (Some d).
  cbn [mbind option_bind]. destruct (Z.lor _ _ <? 0); [|done].
  destruct (aget LG2TAB _) as [s|]; [|done]. cbn [mbind option_bind].
  destruct (aget_is_Some f s) as (x & _ & ->); [lia|].
  destruct (aget_is_Some [a; b; c; d] s) as (y & _ & ->); [simpl; lia|]. done.
Qed.

Lemma score7_total h : length h = 7%nat -> Forall card_ok h -> is_Some (SevenCardDrawScore h).
Proof.
  intros Hl Hh. rewrite score7_from by done. unfold score_from.
  destruct (suits_foldl h Hh 0 (replicate 4 0, replicate 4 4)) as [H4 Hc].
  { by split. }
  { repeat split; repeat constructor; simpl; lia. }
  rewrite Hl in Hc. destruct (suits_flush_total _ H4 Hc) as [f ->]. cbn [mbind option_bind].
  destruct (straights _ f); [done|].
  pose proof (kinds_foldl_masks (mask_of <$> h)) as Hm.
  specialize (Hm ltac:(apply Forall_fmap; apply (list.Forall_impl card_ok); [done|intros c Hc'; by apply mask_of_rank])
    0 0 0 0 eq_refl eq_refl eq_refl eq_refl).
  destruct (foldl kinds_step _ _) as [[[n1 n2] n3] n4]. destruct Hm as (H1 & H2 & _).
  by apply of_a_kind_total.
Qed.

(** the evaluator is total: for seven cards of the deck it reads inside its
    tables, its loops end, and it returns a score. *)
Theorem SevenCardDrawScore_total h : length h = 7%nat -> Forall card_ok h -> is_Some (SevenCardDrawScore h).
Proof. apply score7_total. Qed.

Lemma SevenCardDrawScore_total_witness : is_Some (SevenCardDrawScore [51; 0; 13; 26; 39; 7; 8]).
Proof. apply SevenCardDrawScore_total; [reflexivity|concrete]. Defined.

Lemma set_handstr_total cards : length cards = 7%nat -> is_Some (set_handstr cards).
Proof.
  intros Hl. unfold set_handstr. rewrite take_exact_le, take_ge by lia. cbn [mbind option_bind].
  destruct (forallb _ cards) eqn:E; [|done]. apply score7_total; [done|].
  apply list.Forall_forall. intros c Hc. rewrite forallb_forall in E.
  specialize (E c ltac:(by apply list_elem_of_In)). unfold card_ok. lia.
Qed.

(** ** The text of a hand *)

(** The seven cards have a text that is not empty. *)
Definition hand_named (cards : list Z) : bool :=
  match handstr_of (replicate 32 0) (replicate 32 0) cards false with Some (_ :: _, _) => true | _ => false end.

(** Two fillings of a buffer that agree on their first [n] bytes. *)
Definition alike (n : Z) (b b' : list Z) : Prop := 0 <= n /\ length b = length b' /\ take (Z.to_nat n) b = take (Z.to_nat n) b'.

Lemma alike_set n b b' x : alike n b b' -> option_Forall2 (fun c c' => alike (n + 1) c c' /\ aget c n = Some x) (aset b n x) (aset b' n x).
Proof.
  intros (Hn & Hl & Ht). destruct (decide (n < Z.of_nat (length b))) as [Hlt|Hge].
  - rewrite !aset_in_range by lia. constructor. split.
    + split; [lia|]. split; [by rewrite !length_insert|]. replace (Z.to_nat (n + 1)) with (S (Z.to_nat n)) by lia.
      rewrite (take_S_r _ _ x), (take_S_r (<[_ := _]> b') _ x) by (apply list_lookup_insert_eq; lia).
      by rewrite !take_insert_ge, Ht by lia.
    + apply aget_lookup; [done|]. apply list_lookup_insert_eq. lia.
  - unfold aset. destruct (Z.ltb_spec n 0), (Z.leb_spec (Z.of_nat (length b)) n), (Z.leb_spec (Z.of_nat (length b')) n); try lia; constructor.
Qed.

Lemma alike_get n b b' i : alike n b b' -> i < n -> aget b i = aget b' i.
Proof.
  intros (Hn & Hl & Ht) Hi. unfold aget. destruct (Z.ltb_spec i 0); [done|].
  rewrite <- (lookup_take_lt b (Z.to_nat n)), <- (lookup_take_lt b' (Z.to_nat n)) by lia. by rewrite Ht.
Qed.

Lemma cardstr_alike c b b' : length b = length b' ->
  option_Forall2 (fun r r' => exists j, alike (j + 1) r r' /\ 0 <= j /\ aget r j = Some 0) (set_cardstr b c) (set_cardstr b' c).
Proof.
  intros Hl. unfold set_cardstr.
  refine (bind_rel (fun s s' => s.2 = s'.2 /\ alike s.2 s.1 s'.1) _ _ _ _ _ _ _).
  - apply for_rel; [|done]. intros k [r j] [r' j'] [H1 H2]. cbn in H1, H2. subst j'. unfold cardstr_step.
    destruct (negb _); [|by constructor].
    refine (bind_rel eq _ _ _ _ _ _ _); [by destruct (aget _ _); constructor|]. intros a ? <-.
    refine (bind_rel eq _ _ _ _ _ _ _); [by destruct (aget _ _); constructor|]. intros d ? <-.
    refine (bind_rel _ _ _ _ _ _ (alike_set _ _ _ a H2) _). intros r1 r1' [A1 _].
    refine (bind_rel _ _ _ _ _ _ (alike_set _ _ _ d A1) _). intros r2 r2' [A2 _]. replace (j + 1 + 1) with (j + 2) in A2 by lia.
    refine (bind_rel _ _ _ _ _ _ (alike_set _ _ _ 32 A2) _). intros r3 r3' [A3 _]. replace (j + 2 + 1) with (j + 3) in A3 by lia. by constructor.
  - intros [r j] [r' j'] [H1 H2]. cbn in H1, H2. subst j'. pose proof H2 as [Hj _].
    destruct (alike_set _ _ _ 0 H2) as [x x' Hx|]; constructor. destruct Hx as [A Ag]. by exists j.
Qed.

Lemma cstr_alike j b b' : alike (j + 1) b b' -> 0 <= j -> aget b j = Some 0 -> cstr b = cstr b'.
Proof.
  intros (_ & _ & Ht) Hj H0. apply aget_Some in H0 as [_ H0]. replace (Z.to_nat (j + 1)) with (S (Z.to_nat j)) in Ht by lia.
  revert b b' Ht H0. induction (Z.to_nat j) as [|k IH]; intros [|x b] [|x' b'] Ht H0; try done; pose proof (f_equal tail Ht) as Ht'; cbn in Ht'; injection (f_equal head Ht) as <-; cbn [cstr].
  - injection H0 as ->. done.
  - destruct (x =? 0); [done|]. by rewrite (IH b b' Ht' H0).
Qed.

Lemma two_chars_alike j i b b' : alike (j + 1) b b' -> 0 <= j -> option_Forall2 (fun x y => head x <> None /\ head y <> None /\ (i = 0 -> head x = head y)) (two_chars b i) (two_chars b' i).
Proof.
  intros Ha Hj. pose proof Ha as (_ & Hl & _). unfold two_chars.
  assert (forall k, option_Forall2 (fun x y => k = 0 -> x = y) (aget b k) (aget b' k)) as Hg.
  { intros k. destruct (decide (k = 0)) as [->|Hk]; [rewrite (alike_get _ _ _ 0 Ha) by lia; by destruct (aget b' 0); constructor|].
    unfold aget. destruct (k <? 0); [constructor|]. destruct (b !! Z.to_nat k) eqn:E, (b' !! Z.to_nat k) eqn:E'; [by apply Some_Forall2| | |by apply None_Forall2]; exfalso.
    - apply lookup_lt_Some in E. apply lookup_ge_None in E'. lia.
    - apply lookup_lt_Some in E'. apply lookup_ge_None in E. lia. }
  refine (bind_rel _ _ _ _ _ _ (Hg i) _). intros x y Hxy. refine (bind_rel _ _ _ _ _ _ (Hg (i + 1)) _). intros u v _.
  constructor. cbn. split; [done|]. split; [done|]. intros Hi. by rewrite Hxy.
Qed.

Definition same_start (x y : list Z) : Prop := head x = head y.

Lemma print_hand_alike kickerstr str b1 b1' b2 b2' j k : alike (j + 1) b1 b1' -> 0 <= j -> alike (k + 1) b2 b2' -> 0 <= k -> aget b2 k = Some 0 ->
  option_Forall2 same_start (print_hand kickerstr str b1 b2) (print_hand kickerstr str b1' b2').
Proof.
  intros H1 Hj H2 Hk H0. unfold print_hand.
  destruct (String.eqb kickerstr "high").
  { refine (bind_rel _ _ _ _ _ _ (two_chars_alike k 0 _ _ H2 Hk) _). intros x y (Hx & Hy & Hxy). constructor. specialize (Hxy eq_refl).
    destruct x, y; cbn in *; done. }
  destruct (String.eqb str "full house").
  { refine (bind_rel _ _ _ _ _ _ (two_chars_alike j 0 _ _ H1 Hj) _). intros x y _.
    refine (bind_rel _ _ _ _ _ _ (two_chars_alike k 0 _ _ H2 Hk) _). intros u v _. by constructor. }
  destruct (String.eqb str "three of a kind").
  { refine (bind_rel _ _ _ _ _ _ (two_chars_alike j 0 _ _ H1 Hj) _). intros x y _. by constructor. }
  destruct (String.eqb str "two pair").
  { refine (bind_rel _ _ _ _ _ _ (two_chars_alike j 0 _ _ H1 Hj) _). intros x y _.
    refine (bind_rel _ _ _ _ _ _ (two_chars_alike j 3 _ _ H1 Hj) _). intros u v _. by constructor. }
  destruct (String.eqb str "one pair").
  { refine (bind_rel _ _ _ _ _ _ (two_chars_alike j 0 _ _ H1 Hj) _). intros x y _. by constructor. }
  rewrite (cstr_alike k b2 b2' H2 Hk H0). by destruct (cstr b2'); constructor.
Qed.

Lemma cstr_ended x : is_Some (cstr (x ++ [0])).
Proof. induction x as [|c x [s IH]]; [done|]. cbn [app cstr]. rewrite IH. by case_match. Qed.

(** What the buffers on the stack contain decides neither whether the text is empty nor
    the score. *)
Theorem handstr_buffers b1 b2 b1' b2' cards : length b1 = length b1' -> length b2 = length b2' ->
  option_Forall2 (fun r r' => (r.1 = [] <-> r'.1 = []) /\ r.2 = r'.2) (handstr_of b1 b2 cards false) (handstr_of b1' b2' cards false).
Proof.
  intros L1 L2. unfold handstr_of. destruct (take_exact 7 cards) as [h|]; [|constructor]. cbn [mbind option_bind].
  destruct (forallb _ h); [|by constructor]. destruct (SevenCardDrawScore h) as [score|]; [|constructor]. cbn [mbind option_bind].
  refine (bind_rel _ _ _ _ _ _ (cardstr_alike _ _ _ L1) _). intros c1 c1' (j & H1 & Hj & _).
  refine (bind_rel _ _ _ _ _ _ (cardstr_alike _ _ _ L2) _). intros c2 c2' (k & H2 & Hk & H0).
  destruct (aget kickerstrs _) as [ks|]; [|constructor]. cbn [mbind option_bind]. destruct (aget handstrs _) as [st|]; [|constructor]. cbn [mbind option_bind].
  refine (bind_rel _ _ _ _ _ _ (print_hand_alike ks st c1 c1' c2 c2' j k H1 Hj H2 Hk H0) _). intros x y Hxy.
  destruct (cstr_ended x) as [s Es], (cstr_ended y) as [t Et]. rewrite Es, Et. cbn [mbind option_bind]. constructor. split; [|done]. cbn [fst].
  unfold same_start in Hxy. destruct x as [|a x], y as [|b y]; try done; cbn in Es, Et.
  - by injection Es as <-; injection Et as <-.
  - injection Hxy as ->. destruct (b =? 0); [by injection Es as <-; injection Et as <-|].
    destruct (cstr (x ++ [0])), (cstr (y ++ [0])); try done. injection Es as <-. by injection Et as <-.
Qed.

Lemma handstr_buffers_witness :
  option_Forall2 (fun r r' => (r.1 = [] <-> r'.1 = []) /\ r.2 = r'.2) (handstr_of (replicate 32 0) (replicate 32 0) [51; 0; 13; 26; 39; 7; 8] false)
    (handstr_of (replicate 32 7) (replicate 32 9) [51; 0; 13; 26; 39; 7; 8] false).
Proof. apply handstr_buffers; reflexivity. Defined.

(** The value is that of [set_handstr]. *)
Lemma handstr_score b1 b2 cards verbose r : handstr_of b1 b2 cards verbose = Some r -> set_handstr cards = Some r.2.
Proof.
  unfold handstr_of, set_handstr. destruct (take_exact 7 cards) as [h|]; [|done]. cbn [mbind option_bind]. destruct (forallb _ h); [|by intros [= <-]].
  destruct (SevenCardDrawScore h) as [score|]; [|done]. cbn [mbind option_bind]. intros H. repeat (apply bind_Some in H as (? & _ & H)). by injection H as <-.
Qed.

(** An unknown card leaves the text empty, and so does four of a kind with three cards
    of rank 0 besides: the kicker's bit is shifted out. *)
Lemma unknown_unnamed cards : length cards = 7%nat -> Exists (fun c => ~ card_ok c) cards -> hand_named cards = false.
Proof.
  intros Hl H. unfold hand_named, handstr_of. rewrite take_exact_le, take_ge by lia. cbn [mbind option_bind].
  destruct (forallb _ cards) eqn:E; [|done]. rewrite forallb_forall in E. apply Exists_exists in H as (c & Hc & Hn).
  destruct Hn. specialize (E c Hc). unfold card_ok. lia.
Qed.

Example kicker_unnamed : hand_named [12; 25; 38; 51; 0; 13; 26] = false.
Proof. vm_compute. reflexivity. Qed.
