(* ===== verification/Pots.v ===== *)
(** * Pots: side pots, rake and the division of a pot

    Models [pangea_winnings], [pangea_sidepots] and [pangea_splitpot] of
    [plugins/games/pangea/pangeafunds.c].  Amounts are 64-bit; [sidepots] is the
    9 by 9 matrix of the source. *)

From S2P Require Import Prelude Bits GF256 Interp GFShare Cards Table Summary Poker.

(** The results are the share of each winner, [*hostrakep] and [*pangearakep]. *)
Definition pangea_winnings (total numwinners rakemillis maxrake : Z) : Z * Z * Z :=
  let '(split, pangearake) :=
    if 0 <? numwinners then
      let split := u64 (total * u64 (1000 - rakemillis)) / (1000 * numwinners) in
      let pangearake := u64 (total - u64 (split * numwinners)) in
      if maxrake <? pangearake then
        let split := u64 (total - maxrake) / numwinners in
        (split, u64 (total - u64 (split * numwinners)))
      else (split, pangearake)
    else (0, total) in
  if PANGEA_MINRAKE_MILLIS <? rakemillis then
    let rake := u64 (pangearake * (rakemillis - PANGEA_MINRAKE_MILLIS)) / rakemillis in
    (split, rake, u64 (pangearake - rake))
  else (split, 0, pangearake).

(** ** Side pots *)

Definition folded (st : Z) : bool := st =? CARDS777_FOLD.

(** The smallest nonzero stake of a player still in the hand, 0 without one. *)
Definition sidepots_minbet (N : Z) (betstatus row : list Z) : option Z :=
  for_ (fun j minbet =>
      bet ← aget row j;
      if bet =? 0 then Some minbet
      else st ← aget betstatus j;
           if folded st then Some minbet
           else Some (if (minbet =? 0) || (bet <? minbet) then bet else minbet))
    0 (Z.to_nat N) 0.

Definition sidepots_nonz (N : Z) (betstatus row : list Z) (minbet : Z) : option Z :=
  for_ (fun j nonz =>
      bet ← aget row j; st ← aget betstatus j;
      Some (if (minbet <? bet) && negb (folded st) then nonz + 1 else nonz))
    0 (Z.to_nat N) 0.

(** What exceeds [minbet] moves from row [n] to row [n+1]. *)
Definition sidepots_split (N minbet n : Z) (sidepots : list (list Z)) : option (list (list Z)) :=
  for_ (fun j sidepots =>
      row ← aget sidepots n;
      bet ← aget row j;
      if minbet <? bet then
        next ← aget sidepots (n + 1);
        next ← aset next j (u64 (bet - minbet));
        sidepots ← aset sidepots (n + 1) next;
        row ← aset row j minbet;
        aset sidepots n row
      else Some sidepots)
    0 (Z.to_nat N) sidepots.

(** [while ( nonz > 0 )]; every pass is for one more row, so [N] passes suffice
    ([pangea_sidepots_spec]); [None] when the fuel runs out. *)
Fixpoint sidepots_loop (fuel : nat) (N : Z) (betstatus : list Z) (sidepots : list (list Z)) (n : Z)
  : option (list (list Z) * Z) :=
  match fuel with
  | O => None
  | S fuel =>
      row ← aget sidepots n;
      minbet ← sidepots_minbet N betstatus row;
      nonz ← sidepots_nonz N betstatus row minbet;
      sidepots ← (if 0 <? nonz then sidepots_split N minbet n sidepots else Some sidepots);
      if N <=? n + 1 then Some (sidepots, n + 1)
      else if 0 <? nonz then sidepots_loop fuel N betstatus sidepots (n + 1)
      else Some (sidepots, n + 1)
  end.

Definition pangea_sidepots (dp : cards777_pubdata) (bets : list Z) : option (list (list Z) * Z) :=
  row ← for_ (fun j row => b ← aget bets j; aset row j (u64 b)) 0 (Z.to_nat (d_N dp))
          (replicate 9 0);
  sidepots ← aset (replicate 9 (replicate 9 0)) 0 row;
  sidepots_loop (S (Z.to_nat (d_N dp))) (d_N dp) (h_betstatus (d_hand dp)) sidepots 0.

(** ** Dividing a pot *)

Definition n_summary (n : node) (type : Z) (arg0 arg1 : list Z) : option node :=
  dp ← pangea_summary (n_dp n) type arg0 arg1; Some (n <| n_dp := dp |>).

(** Total of the pot and best rank among its contributors still in the hand. *)
Definition splitpot_best (dp : cards777_pubdata) (sidepot : list Z) : option (Z * Z) :=
  for_ (fun j '(total, bestrank) =>
      bet ← aget sidepot j;
      if bet =? 0 then Some (total, bestrank)
      else st ← aget (h_betstatus (d_hand dp)) j;
           if folded st then Some (u64 (total + bet), bestrank)
           else r ← aget (h_handranks (d_hand dp)) j;
                Some (u64 (total + bet), if bestrank <? r then r else bestrank))
    0 (Z.to_nat (d_N dp)) (0, 0).

(** A contestant's hand is also printed, without its last character when that is a
    space: the text of a hand that has none makes the code look in front of [handstr]
    ([None]).  [set_handstr] starts from cleared buffers here, which does not matter
    ([Poker.handstr_buffers]). *)
Definition splitpot_winners (dp : cards777_pubdata) (sidepot : list Z) (bestrank : Z)
  : option (list Z) :=
  for_ (fun j winners =>
      st ← aget (h_betstatus (d_hand dp)) j;
      bet ← aget sidepot j;
      if negb (folded st) && (0 <? bet) then
        r ← aget (h_handranks (d_hand dp)) j;
        hand ← aget (h_hands (d_hand dp)) j;
        '(handstr, _) ← handstr_of (replicate 32 0) (replicate 32 0) hand false;
        _ ← last handstr;
        Some (if r =? bestrank then winners ++ [j] else winners)
      else Some winners)
    0 (Z.to_nat (d_N dp)) [].

Definition maxrakes : list Z := [0; 0; 1; 2; 2; 3; 3; 3; 3; 3].

(** The cap of the rake, by the number of players who bet. *)
Definition splitpot_maxrake (dp : cards777_pubdata) : option Z :=
  n ← for_ (fun j n => b ← aget (h_bets (d_hand dp)) j; Some (if 0 <? b then n + 1 else n))
       0 (Z.to_nat (d_N dp)) 0;
  m ← aget maxrakes n;
  let maxrake := u64 (m * d_bigblind dp) in
  Some (if d_maxrake dp <? maxrake then
          let maxrake := d_maxrake dp in
          if (String.eqb (d_coinstr dp) "BTC") && (maxrake <? PANGEA_BTCMAXRAKE)
          then PANGEA_BTCMAXRAKE
          else if maxrake <? PANGEA_MAXRAKE then PANGEA_MAXRAKE else maxrake
        else maxrake).

(** One winner is paid. *)
Definition pay_winner (split w : Z) (st : node * list Z) : option (node * list Z) :=
  let '(n, won) := st in
  n ← n_summary n CARDS777_WINNINGS (le_bytes 1 w) (le_bytes 8 split);
  slot ← pangea_slot (n_sp n) w;
  b ← aget (s_balances (n_sp n)) slot;
  bal ← aset (s_balances (n_sp n)) slot (s64 (b + split));
  v ← aget won w;
  won ← aset won w (s64 (v + split));
  Some (n <| n_sp := n_sp n <| s_balances := bal |> |>, won).

(** The state is the node and [won]; the result also has the increased
    [*pangearakep] and the host's rake. *)
Definition pangea_splitpot (won : list Z) (pangearake : Z) (sidepot : list Z) (n : node)
    (rakemillis : Z) : option (node * list Z * Z * Z) :=
  let dp := n_dp n in
  '(total, bestrank) ← splitpot_best dp sidepot;
  winners ← splitpot_winners dp sidepot bestrank;
  match winners with
  | [] => Some (n, won, pangearake, 0)
  | _ =>
      maxrake ← splitpot_maxrake dp;
      let '(split, rake, prake) :=
        pangea_winnings total (Z.of_nat (length winners)) rakemillis maxrake in
      '(n, won) ← foldl (fun st w => s ← st; pay_winner split w s) (Some (n, won)) winners;
      Some (n, won, u64 (pangearake + prake), s64 rake)
  end.

(** ** The rake *)

Lemma split_le total k nw : 0 <= total -> 0 <= k <= 1000 -> 0 < nw ->
  0 <= u64 (total * k) / (1000 * nw) /\ u64 (total * k) / (1000 * nw) * nw <= total.
Proof.
  intros Ht Hk Hn.
  pose proof (u64_range (total * k)) as Hr.
  assert (u64 (total * k) <= total * 1000) as Hle.
  { transitivity (total * k); [|nia]. apply Z.mod_le; nia. }
  split; [apply Z.div_pos; lia|].
  pose proof (Z.mul_div_le (u64 (total * k)) (1000 * nw)). nia.
Qed.

(** The winners' share before the rake is split between host and Pangea. *)
Definition winnings_split (total numwinners rakemillis maxrake : Z) : Z * Z :=
  let split := u64 (total * u64 (1000 - rakemillis)) / (1000 * numwinners) in
  let pangearake := u64 (total - u64 (split * numwinners)) in
  if maxrake <? pangearake then
    let split := u64 (total - maxrake) / numwinners in
    (split, u64 (total - u64 (split * numwinners)))
  else (split, pangearake).

Lemma winnings_split_spec total nw rakemillis maxrake :
  0 <= total < 2 ^ 64 -> 0 < nw -> 0 <= rakemillis <= 1000 -> 0 <= maxrake ->
  let '(split, rake) := winnings_split total nw rakemillis maxrake in
  0 <= split /\ 0 <= rake /\ split * nw + rake = total /\ rake <= maxrake + nw - 1.
Proof.
  intros Ht Hn Hr Hm. unfold winnings_split. change (2 ^ 64) with 18446744073709551616 in *.
  rewrite (u64_small (1000 - rakemillis)) by lia.
  destruct (split_le total (1000 - rakemillis) nw) as [S1 S2]; [lia..|].
  set (s1 := u64 (total * (1000 - rakemillis)) / (1000 * nw)) in *.
  assert (0 <= s1 * nw) by nia.
  rewrite (u64_small (s1 * nw)), (u64_small (total - s1 * nw)) by lia.
  destruct (Z.ltb_spec maxrake (total - s1 * nw)); [|lia].
  rewrite (u64_small (total - maxrake)) by lia.
  pose proof (Z.mul_div_le (total - maxrake) nw ltac:(lia)).
  pose proof (Z.mul_succ_div_gt (total - maxrake) nw ltac:(lia)).
  pose proof (Z.div_pos (total - maxrake) nw ltac:(lia) ltac:(lia)).
  set (s2 := (total - maxrake) / nw) in *.
  assert (0 <= s2 * nw <= total - maxrake) by nia.
  rewrite (u64_small (s2 * nw)), (u64_small (total - s2 * nw)) by lia. lia.
Qed.

Lemma rake_share p r : 0 <= p < 2 ^ 64 -> PANGEA_MINRAKE_MILLIS < r -> 
  0 <= u64 (p * (r - PANGEA_MINRAKE_MILLIS)) / r <= p.
Proof.
  unfold PANGEA_MINRAKE_MILLIS. intros Hp Hr. pose proof (u64_range (p * (r - 5))).
  split; [apply Z.div_pos; lia|].
  assert (u64 (p * (r - 5)) <= p * r) as Hle.
  { transitivity (p * (r - 5)); [apply Z.mod_le; nia|nia]. }
  apply Z.div_le_upper_bound; lia.
Qed.

(** The accounting of [pangea_winnings], shared by the theorems below. *)
Lemma pangea_winnings_spec total nw rakemillis maxrake :
  0 <= total < 2 ^ 64 -> 0 < nw -> 0 <= rakemillis <= 1000 -> 0 <= maxrake ->
  let '(split, hostrake, pangearake) := pangea_winnings total nw rakemillis maxrake in
  split * nw + hostrake + pangearake = total /\ 0 <= split /\ 0 <= hostrake /\ 0 <= pangearake /\
  hostrake + pangearake <= maxrake + nw - 1 /\
  (rakemillis <= PANGEA_MINRAKE_MILLIS -> hostrake = 0) /\
  (rakemillis = 0 -> total < 2 ^ 54 -> hostrake + pangearake < nw).
Proof.
  intros Ht Hn Hr Hm. pose proof (winnings_split_spec total nw rakemillis maxrake Ht Hn Hr Hm) as H.
  unfold pangea_winnings. destruct (Z.ltb_spec 0 nw) as [_|]; [|lia].
  fold (winnings_split total nw rakemillis maxrake).
  destruct (winnings_split total nw rakemillis maxrake) as [split rake] eqn:E.
  destruct H as (H1 & H2 & H3 & H4).
  assert (rakemillis = 0 -> total < 2 ^ 54 -> rake < nw) as H0.
  { intros -> Hsmall. unfold winnings_split in E.
    change (2 ^ 64) with 18446744073709551616 in *. change (2 ^ 54) with 18014398509481984 in *.
    rewrite (u64_small (1000 - 0)), (u64_small (total * (1000 - 0))) in E by lia.
    replace (total * (1000 - 0) / (1000 * nw)) with (total / nw) in E
      by (rewrite (Z.mul_comm total), Z.div_mul_cancel_l; lia).
    pose proof (Z.mul_div_le total nw ltac:(lia)). pose proof (Z.mul_succ_div_gt total nw ltac:(lia)).
    pose proof (Z.div_pos total nw ltac:(lia) ltac:(lia)). set (q := total / nw) in *.
    assert (0 <= q * nw) by nia.
    rewrite (u64_small (q * nw)), (u64_small (total - q * nw)) in E by lia.
    destruct (Z.ltb_spec maxrake (total - q * nw)).
    - rewrite (u64_small (total - maxrake)) in E by lia. injection E as E1 E2.
      assert (q <= (total - maxrake) / nw) by (apply Z.div_le_lower_bound; nia). nia.
    - injection E as E1 E2. lia. }
  destruct (Z.ltb_spec PANGEA_MINRAKE_MILLIS rakemillis) as [Hlt|Hge].
  - assert (0 <= split * nw) by nia. pose proof (rake_share rake rakemillis ltac:(lia) Hlt) as Hs.
    change (2 ^ 64) with 18446744073709551616 in *.
    set (h := _ / rakemillis) in *. rewrite (u64_small (rake - h)) by lia. lia.
  - lia.
Qed.

(** dividing a pot loses nothing and keeps the rake under the cap, for every
    64-bit pot, any number of winners and every rake rate up to 100%: the
    winners' shares, the host's rake and Pangea's rake add up to the pot; both
    rakes together exceed the cap by at most the chips that cannot be divided
    evenly; up to the minimal rate the host takes nothing, and without a rake
    only the indivisible chips are kept. *)
Theorem pangea_winnings_conserves total nw rakemillis maxrake :
  0 <= total < 2 ^ 64 -> 0 < nw -> 0 <= rakemillis <= 1000 -> 0 <= maxrake ->
  let '(split, hostrake, pangearake) := pangea_winnings total nw rakemillis maxrake in
  split * nw + hostrake + pangearake = total /\ 0 <= split /\ 0 <= hostrake /\ 0 <= pangearake /\
  hostrake + pangearake <= maxrake + nw - 1 /\
  (rakemillis <= PANGEA_MINRAKE_MILLIS -> hostrake = 0) /\
  (rakemillis = 0 -> total < 2 ^ 54 -> hostrake + pangearake < nw).
Proof. apply pangea_winnings_spec. Qed.

Lemma pangea_winnings_conserves_witness :
  pangea_winnings 1000 3 20 100 = (326, 16, 6) /\
  (let '(split, hostrake, pangearake) := pangea_winnings 1000 3 20 100 in
   split * 3 + hostrake + pangearake = 1000).
Proof.
  split; [reflexivity|]. exact (proj1 (pangea_winnings_conserves 1000 3 20 100
    ltac:(lia) ltac:(lia) ltac:(lia) ltac:(lia))).
Defined.

(** ** Side pots: the loops *)

Lemma countb_le f g i n : (forall k, i <= k < i + Z.of_nat n -> f k = true -> g k = true) ->
  countb f i n <= countb g i n.
Proof.
  revert i. induction n as [|n IH]; intros i H; cbn [countb]; [lia|].
  assert (Z.b2z (f i) <= Z.b2z (g i)).
  { destruct (f i) eqn:E; [rewrite (H i) by (done || lia); done|]. destruct (g i); simpl; lia. }
  specialize (IH (i + 1)). assert (countb f (i + 1) n <= countb g (i + 1) n); [|lia].
  apply IH. intros k Hk. apply H. lia.
Qed.

Lemma countb_lt f g i n k : (forall k, i <= k < i + Z.of_nat n -> f k = true -> g k = true) ->
  i <= k < i + Z.of_nat n -> f k = false -> g k = true -> countb f i n < countb g i n.
Proof.
  revert i. induction n as [|n IH]; intros i H Hk Hf Hg; cbn [countb]; [lia|].
  assert (forall k, i + 1 <= k < i + 1 + Z.of_nat n -> f k = true -> g k = true) as H'
    by (intros j Hj; apply H; lia).
  destruct (decide (k = i)) as [->|Hne].
  - rewrite Hf, Hg. pose proof (countb_le f g (i + 1) n H'). simpl. lia.
  - specialize (IH (i + 1) H' ltac:(lia) Hf Hg).
    assert (Z.b2z (f i) <= Z.b2z (g i)); [|lia].
    destruct (f i) eqn:E; [rewrite (H i) by (done || lia); done|]. destruct (g i); simpl; lia.
Qed.

Lemma countb_pos f i n : 0 < countb f i n -> exists k, i <= k < i + Z.of_nat n /\ f k = true.
Proof.
  revert i. induction n as [|n IH]; intros i; cbn [countb]; [lia|].
  destruct (f i) eqn:E; [exists i; split; [lia|done]|]. intros H.
  destruct (IH (i + 1)) as (k & Hk & Hf); [simpl in H; lia|]. exists k. split; [lia|done].
Qed.

Lemma countb_zero f i n k : countb f i n <= 0 -> i <= k < i + Z.of_nat n -> f k = false.
Proof.
  intros H Hk. destruct (f k) eqn:E; [|done].
  pose proof (countb_lt (fun _ => false) f i n k ltac:(done) Hk eq_refl E) as Hlt.
  pose proof (countb_nonneg (fun _ => false) i n). lia.
Qed.

(** Entry [(r, j)] of the matrix. *)
Definition cell (m : list (list Z)) (r j : Z) : Z := nth (Z.to_nat j) (nth (Z.to_nat r) m []) 0.

Definition amount_ok (x : Z) : Prop := 0 <= x < 2 ^ 64.
Definition row_ok (row : list Z) : Prop := length row = 9%nat /\ Forall amount_ok row.
Definition mat_ok (m : list (list Z)) : Prop := length m = 9%nat /\ Forall row_ok m.

Lemma row_aget row j : row_ok row -> 0 <= j < 9 ->
  aget row j = Some (nth (Z.to_nat j) row 0) /\ amount_ok (nth (Z.to_nat j) row 0).
Proof.
  intros [L H] Hj. rewrite (aget_nth _ _ 0) by lia. split; [done|].
  destruct (lookup_lt_is_Some_2 row (Z.to_nat j)) as [x Hx]; [lia|].
  rewrite (nth_lookup_Some _ _ _ _ Hx). apply (Forall_lookup_1 _ _ _ _ H Hx).
Qed.

Lemma mat_row m r : mat_ok m -> 0 <= r < 9 ->
  aget m r = Some (nth (Z.to_nat r) m []) /\ row_ok (nth (Z.to_nat r) m []).
Proof.
  intros [L H] Hr. rewrite (aget_nth _ _ []) by lia. split; [done|].
  destruct (lookup_lt_is_Some_2 m (Z.to_nat r)) as [x Hx]; [lia|].
  rewrite (nth_lookup_Some _ _ _ _ Hx). apply (Forall_lookup_1 _ _ _ _ H Hx).
Qed.

Lemma cell_ok m r j : mat_ok m -> 0 <= r < 9 -> 0 <= j < 9 -> amount_ok (cell m r j).
Proof.
  intros Hm Hr Hj. destruct (mat_row m r Hm Hr) as [_ Hrow]. by apply (row_aget _ j Hrow).
Qed.

Lemma cell_nonneg m r j : mat_ok m -> 0 <= cell m r j.
Proof.
  intros [L H]. unfold cell. rewrite !nth_lookup.
  destruct (m !! Z.to_nat r) as [row|] eqn:Er; [|by destruct (Z.to_nat j)].
  apply (Forall_lookup_1 _ _ _ _ H) in Er as [_ Hrow]. cbn [from_option]. unfold id.
  destruct (row !! Z.to_nat j) as [x|] eqn:Ex; [|simpl; lia].
  apply (Forall_lookup_1 _ _ _ _ Hrow) in Ex. unfold amount_ok in Ex. simpl. lia.
Qed.

Section Sidepots.
Context (N : Z) (st : list Z) (HN : 1 <= N <= 9) (Hst : length st = 9%nat).

(** Player [j] is still in the hand. *)
Definition active (j : Z) : bool := negb (folded (nth (Z.to_nat j) st 0)).

Lemma st_aget j : 0 <= j < 9 -> aget st j = Some (nth (Z.to_nat j) st 0).
Proof. intros Hj. apply aget_nth. lia. Qed.

Lemma minbet_spec row : row_ok row ->
  exists mb, sidepots_minbet N st row = Some mb /\ 0 <= mb /\
    (mb = 0 -> forall j, 0 <= j < N -> active j = true -> nth (Z.to_nat j) row 0 = 0) /\
    (0 < mb -> (exists j, 0 <= j < N /\ active j = true /\ nth (Z.to_nat j) row 0 = mb) /\
       forall j, 0 <= j < N -> active j = true -> nth (Z.to_nat j) row 0 <> 0 ->
         mb <= nth (Z.to_nat j) row 0).
Proof.
  intros Hrow. unfold sidepots_minbet.
  match goal with |- context [for_ ?f _ _ _] =>
  destruct (for_inv (fun k mb => 0 <= mb /\
    (mb = 0 -> forall j, 0 <= j < k -> active j = true -> nth (Z.to_nat j) row 0 = 0) /\
    (0 < mb -> (exists j, 0 <= j < k /\ active j = true /\ nth (Z.to_nat j) row 0 = mb) /\
       forall j, 0 <= j < k -> active j = true -> nth (Z.to_nat j) row 0 <> 0 ->
         mb <= nth (Z.to_nat j) row 0)) f (Z.to_nat N) 0 0) as (mb & E & H0 & H1 & H2) end.
  - split; [lia|]. split; [intros; lia|lia].
  - intros k mb Hk (H0 & H1 & H2).
    destruct (row_aget row k Hrow) as [-> Hx]; [lia|]. cbn [mbind option_bind].
    set (x := nth (Z.to_nat k) row 0) in *. unfold amount_ok in Hx.
    assert (forall mb', (mb' = mb /\ (active k = false \/ x = 0 \/ (0 < mb /\ mb <= x))) \/
        (mb' = x /\ 0 < x /\ active k = true /\ (mb = 0 \/ x < mb)) ->
      0 <= mb' /\
      (mb' = 0 -> forall j, 0 <= j < k + 1 -> active j = true -> nth (Z.to_nat j) row 0 = 0) /\
      (0 < mb' -> (exists j, 0 <= j < k + 1 /\ active j = true /\ nth (Z.to_nat j) row 0 = mb') /\
       forall j, 0 <= j < k + 1 -> active j = true -> nth (Z.to_nat j) row 0 <> 0 ->
         mb' <= nth (Z.to_nat j) row 0)) as Hstep.
    { intros mb' [[-> Hc]|(-> & Hx0 & Ha & Hc)].
      - split; [done|]. split.
        + intros Hz j Hj Ha. destruct (decide (j = k)) as [->|]; [|apply H1; (done || lia)].
          fold x. destruct Hc as [Hc|[Hc|Hc]]; [congruence|done|lia].
        + intros Hp. destruct (H2 Hp) as [(j & Hj & Hja & Hjx) Hmin]. split.
          * exists j. split; [lia|done].
          * intros i Hi Ha Hne. destruct (decide (i = k)) as [->|]; [|apply Hmin; (done || lia)].
            fold x in Hne |- *. destruct Hc as [Hc|[Hc|Hc]]; [congruence|done|lia].
      - split; [lia|]. split; [lia|]. intros _. split.
        + exists k. split; [lia|done].
        + intros j Hj Hja Hne. destruct (decide (j = k)) as [->|]; [fold x; lia|].
          destruct Hc as [->|Hc].
          * destruct Hne. apply H1; (done || lia).
          * pose proof (proj2 (H2 ltac:(lia)) j ltac:(lia) Hja Hne). lia. }
    destruct (Z.eqb_spec x 0) as [Ex|Ex].
    + exists mb. split; [done|]. apply Hstep. left. auto.
    + rewrite st_aget by lia. cbn [mbind option_bind].
      destruct (folded (nth (Z.to_nat k) st 0)) eqn:Ef.
      * exists mb. split; [done|]. apply Hstep. left. split; [done|]. left.
        unfold active. by rewrite Ef.
      * eexists. split; [reflexivity|]. apply Hstep.
        destruct (Z.eqb_spec mb 0); [|destruct (Z.ltb_spec x mb)]; cbn [orb].
        -- right. split; [done|]. split; [lia|]. unfold active. rewrite Ef. auto.
        -- right. split; [done|]. split; [lia|]. unfold active. rewrite Ef. auto.
        -- left. split; [done|]. right; right. lia.
  - exists mb. replace (0 + Z.of_nat (Z.to_nat N)) with N in * by lia. done.
Qed.

Lemma nonz_spec row mb : row_ok row ->
  sidepots_nonz N st row mb =
    Some (countb (fun j => (mb <? nth (Z.to_nat j) row 0) && active j) 0 (Z.to_nat N)).
Proof.
  intros Hrow. unfold sidepots_nonz.
  match goal with |- context [for_ ?f _ _ _] =>
  destruct (for_inv (fun k nz => nz =
      countb (fun j => (mb <? nth (Z.to_nat j) row 0) && active j) 0 (Z.to_nat k))
    f (Z.to_nat N) 0 0) as (nz & E & ->) end.
  - done.
  - intros k nz Hk ->. destruct (row_aget row k Hrow) as [-> _]; [lia|].
    rewrite st_aget by lia. cbn [mbind option_bind]. eexists. split; [reflexivity|].
    replace (Z.to_nat (k + 1)) with (Z.to_nat k + 1)%nat by lia. rewrite countb_app.
    cbn [countb]. rewrite Z.add_0_l, Z2Nat.id by lia.
    change (negb (folded (nth (Z.to_nat k) st 0))) with (active k).
    destruct ((mb <? nth (Z.to_nat k) row 0) && active k); simpl; lia.
  - rewrite E. f_equal. f_equal. lia.
Qed.

Lemma cell_set m r j v : mat_ok m -> 0 <= r < 9 -> 0 <= j < 9 -> amount_ok v ->
  exists row, aset (nth (Z.to_nat r) m []) j v = Some row /\
    exists m', aset m r row = Some m' /\ mat_ok m' /\
      forall r' j', 0 <= r' -> 0 <= j' ->
        cell m' r' j' = if (r' =? r) && (j' =? j) then v else cell m r' j'.
Proof.
  intros Hm Hr Hj Hv. destruct (mat_row m r Hm Hr) as [_ [Lr Fr]]. destruct Hm as [Lm Fm].
  rewrite aset_in_range by lia. eexists. split; [reflexivity|].
  rewrite aset_in_range by lia. eexists. split; [reflexivity|]. split.
  - split; [by rewrite length_insert|]. apply Forall_insert; [done|].
    split; [by rewrite length_insert|]. by apply Forall_insert.
  - intros r' j' Hr' Hj'. unfold cell. rewrite !nth_lookup. rewrite nth_lookup in Lr.
    destruct (Z.eqb_spec r' r) as [->|Hne]; cbn [andb].
    + rewrite list_lookup_insert_eq by lia. cbn [default from_option id]. unfold id in *.
      destruct (Z.eqb_spec j' j) as [->|Hne].
      * by rewrite list_lookup_insert_eq by lia.
      * by rewrite list_lookup_insert_ne by lia.
    + rewrite list_lookup_insert_ne by lia. done.
Qed.

Lemma split_step m n mb j : mat_ok m -> 0 <= n < 8 -> 0 <= j < 9 -> 0 <= mb ->
  exists m', (row ← aget m n;
    bet ← aget row j;
    if mb <? bet then
      next ← aget m (n + 1);
      next ← aset next j (u64 (bet - mb));
      m ← aset m (n + 1) next;
      row ← aset row j mb;
      aset m n row
    else Some m) = Some m' /\ mat_ok m' /\
    forall r c, 0 <= r -> 0 <= c -> cell m' r c =
      if (c =? j) && (mb <? cell m n j)
      then if r =? n then mb else if r =? n + 1 then cell m n j - mb else cell m r c
      else cell m r c.
Proof.
  intros Hm Hn Hj Hmb. destruct (mat_row m n Hm) as [-> Hrow]; [lia|].
  cbn [mbind option_bind]. destruct (row_aget _ j Hrow Hj) as [-> Hx].
  cbn [mbind option_bind]. fold (cell m n j) in *. unfold amount_ok in Hx.
  destruct (Z.ltb_spec mb (cell m n j)) as [Hlt|Hge].
  2:{ exists m. split; [done|]. split; [done|]. intros r c _ _. by rewrite andb_false_r. }
  destruct (mat_row m (n + 1) Hm) as [-> _]; [lia|]. cbn [mbind option_bind].
  change (2 ^ 64) with 18446744073709551616 in Hx. rewrite u64_small by lia.
  destruct (cell_set m (n + 1) j (cell m n j - mb) Hm) as (next & -> & m1 & E1 & Hm1 & C1);
    [lia|lia|unfold amount_ok; lia|]. cbn [mbind option_bind]. rewrite E1. cbn [mbind option_bind].
  assert (nth (Z.to_nat n) m1 [] = nth (Z.to_nat n) m []) as Hrow1.
  { apply aset_Some in E1 as [_ ->]. rewrite !nth_lookup, list_lookup_insert_ne by lia. done. }
  destruct (cell_set m1 n j mb Hm1) as (row & Er & m2 & E2 & Hm2 & C2);
    [lia|lia|unfold amount_ok; lia|].
  rewrite Hrow1 in Er. rewrite Er. cbn [mbind option_bind]. exists m2. split; [done|].
  split; [done|]. intros r c Hr Hc. rewrite C2, C1 by done.
  destruct (Z.eqb_spec c j), (Z.eqb_spec r n), (Z.eqb_spec r (n + 1));
    cbn [andb]; subst; (done || lia).
Qed.

Lemma split_spec m n mb : mat_ok m -> 0 <= n < 8 -> 0 <= mb ->
  exists m', sidepots_split N mb n m = Some m' /\ mat_ok m' /\
    forall r c, 0 <= r -> 0 <= c -> cell m' r c =
      if (c <? N) && (mb <? cell m n c)
      then if r =? n then mb else if r =? n + 1 then cell m n c - mb else cell m r c
      else cell m r c.
Proof.
  intros Hm Hn Hmb. unfold sidepots_split.
  match goal with |- context [for_ ?f _ _ _] =>
  destruct (for_inv (fun k m' => mat_ok m' /\ forall r c, 0 <= r -> 0 <= c -> cell m' r c =
      if (c <? k) && (mb <? cell m n c)
      then if r =? n then mb else if r =? n + 1 then cell m n c - mb else cell m r c
      else cell m r c) f (Z.to_nat N) 0 m) as (m' & E & Hm' & C) end.
  - split; [done|]. intros r c Hr Hc. destruct (Z.ltb_spec c 0); [lia|done].
  - intros k m1 Hk [Hm1 C1].
    destruct (split_step m1 n mb k Hm1) as (m2 & E2 & Hm2 & C2); [lia|lia|done|].
    exists m2. split; [exact E2|]. split; [done|]. intros r c Hr Hc. rewrite C2 by done.
    assert (cell m1 n k = cell m n k) as Ek.
    { rewrite C1 by lia. by rewrite Z.ltb_irrefl. }
    rewrite Ek.
    destruct (Z.eqb_spec c k) as [->|Hne]; cbn [andb].
    + rewrite C1, Z.ltb_irrefl by lia. cbn [andb].
      destruct (Z.ltb_spec k (k + 1)); [|lia]. done.
    + rewrite C1 by lia.
      destruct (Z.ltb_spec c k), (Z.ltb_spec c (k + 1)); (done || lia).
  - exists m'. replace (0 + Z.of_nat (Z.to_nat N)) with N in C by lia. done.
Qed.

(** Stake of [j] in the [k] rows from [r] on. *)
Fixpoint staked (m : list (list Z)) (j r : Z) (k : nat) : Z :=
  match k with O => 0 | S k => cell m r j + staked m j (r + 1) k end.

Lemma staked_ext m m' j r k :
  (forall i, r <= i < r + Z.of_nat k -> cell m i j = cell m' i j) ->
  staked m j r k = staked m' j r k.
Proof.
  revert r. induction k as [|k IH]; intros r H; [done|]. cbn [staked].
  rewrite H by lia. f_equal. apply IH. intros i Hi. apply H. lia.
Qed.

Lemma staked_nonneg m j r k : mat_ok m -> 0 <= staked m j r k.
Proof.
  intros Hm. revert r. induction k as [|k IH]; intros r; cbn [staked]; [lia|].
  pose proof (cell_nonneg m r j Hm). specialize (IH (r + 1)). lia.
Qed.

(** Players still in the hand with a stake in row [n]. *)
Definition live (m : list (list Z)) (n : Z) : Z :=
  countb (fun j => (0 <? cell m n j) && active j) 0 (Z.to_nat N).

(** What is established of the rows [n .. n'-1] of [m'], given row [n] of [m]. *)
Definition layered (m m' : list (list Z)) (n n' : Z) : Prop :=
  (forall j, 0 <= j < N -> staked m' j n (Z.to_nat (n' - n)) = cell m n j) /\
  (forall r, n <= r < n' -> exists level, 0 <= level /\
     forall j, 0 <= j < N -> active j = true -> cell m' r j = 0 \/ cell m' r j = level) /\
  (0 < live m n -> forall r, n <= r < n' -> 0 < live m' r) /\
  (forall r j, n <= r -> r + 1 < n' -> 0 <= j < N -> active j = true ->
     0 < cell m' (r + 1) j -> 0 < cell m' r j).

Lemma live_step m m' n mb : (forall j, 0 <= j < N -> active j = true ->
    0 < cell m' (n + 1) j -> mb < cell m n j) -> 0 <= mb ->
  (exists j, 0 <= j < N /\ active j = true /\ cell m n j = mb /\ 0 < mb) ->
  live m' (n + 1) < live m n.
Proof.
  intros Hle Hmb (j & Hj & Ha & Hc & Hp). unfold live.
  apply (countb_lt _ _ _ _ j).
  - intros k Hk [H1%Z.ltb_lt H2]%andb_true_iff. rewrite H2, andb_true_r. apply Z.ltb_lt.
    specialize (Hle k ltac:(lia) H2 H1). lia.
  - lia.
  - destruct (Z.ltb_spec 0 (cell m' (n + 1) j)) as [Hlt|]; [|done].
    specialize (Hle j Hj Ha Hlt). lia.
  - rewrite Ha, andb_true_r. apply Z.ltb_lt. lia.
Qed.

(** A last row: nothing exceeds [mb], the smallest live stake. *)
Lemma layered_last m n mb : mat_ok m -> 0 <= n < 9 -> 0 <= mb ->
  (mb = 0 -> forall j, 0 <= j < N -> active j = true -> cell m n j = 0) ->
  (0 < mb -> forall j, 0 <= j < N -> active j = true -> cell m n j <> 0 -> mb <= cell m n j) ->
  (forall j, 0 <= j < N -> active j = true -> cell m n j <= mb) ->
  layered m m n (n + 1).
Proof.
  intros Hm Hn H0 H1 H2 H3. split; [|split; [|split]].
  - intros j Hj. replace (n + 1 - n) with 1 by lia. change (Z.to_nat 1) with 1%nat.
    cbn [staked]. lia.
  - intros r Hr. assert (r = n) as -> by lia. exists mb. split; [done|]. intros j Hj Ha.
    specialize (H3 j Hj Ha). destruct (decide (mb = 0)) as [E|E]; [left; auto|].
    destruct (decide (cell m n j = 0)) as [|Hne]; [by left|right].
    specialize (H2 ltac:(lia) j Hj Ha Hne). lia.
  - intros Hl r Hr. by assert (r = n) as -> by lia.
  - intros r j Hr Hr'. lia.
Qed.

(** One more row in front of rows already layered. *)
Lemma layered_cons m m1 m2 n n' mb : 0 <= n -> n + 1 < n' -> 0 < mb ->
  (forall r c, 0 <= r -> 0 <= c -> cell m1 r c =
      if (c <? N) && (mb <? cell m n c)
      then if r =? n then mb else if r =? n + 1 then cell m n c - mb else cell m r c
      else cell m r c) ->
  (forall c, 0 <= c < N -> cell m (n + 1) c = 0) ->
  (forall c, 0 <= c < N -> 0 <= cell m n c) ->
  (forall j, 0 <= j < N -> active j = true -> cell m n j <> 0 -> mb <= cell m n j) ->
  (exists j, 0 <= j < N /\ active j = true /\ mb < cell m n j) ->
  (forall c, 0 <= c -> cell m2 n c = cell m1 n c) -> mat_ok m2 ->
  layered m1 m2 (n + 1) n' -> layered m m2 n n'.
Proof.
  intros Hn Hn' Hmb C1 Hz Hnn Hmin (j0 & Hj0 & Ha0 & Hlt0) C2 Hm2 (L1 & L2 & L3 & L4).
  assert (forall c, 0 <= c < N -> cell m1 n c = Z.min mb (cell m n c)) as Cn.
  { intros c Hc. rewrite C1 by lia. rewrite Z.eqb_refl.
    destruct (Z.ltb_spec c N), (Z.ltb_spec mb (cell m n c)); cbn [andb]; lia. }
  assert (forall c, 0 <= c < N -> cell m1 (n + 1) c = cell m n c - Z.min mb (cell m n c)) as Cn1.
  { intros c Hc. rewrite C1 by lia. destruct (Z.eqb_spec (n + 1) n); [lia|]. rewrite Z.eqb_refl.
    destruct (Z.ltb_spec c N), (Z.ltb_spec mb (cell m n c)); cbn [andb];
      try lia; rewrite Hz by lia; lia. }
  assert (0 < live m1 (n + 1)) as Hlive.
  { unfold live. pose proof (countb_lt (fun _ => false)
      (fun j => (0 <? cell m1 (n + 1) j) && active j) 0 (Z.to_nat N) j0) as Hc.
    pose proof (countb_nonneg (fun _ => false) 0 (Z.to_nat N)).
    apply Z.le_lt_trans with (countb (fun _ => false) 0 (Z.to_nat N)); [lia|].
    apply Hc; [done|lia|done|]. rewrite Ha0, andb_true_r. apply Z.ltb_lt. rewrite Cn1; lia. }
  split; [|split; [|split]].
  - intros j Hj. replace (Z.to_nat (n' - n)) with (S (Z.to_nat (n' - (n + 1)))) by lia.
    cbn [staked]. rewrite L1, C2, Cn, Cn1 by lia. lia.
  - intros r Hr. destruct (decide (r = n)) as [->|]; [|apply L2; lia].
    exists mb. split; [lia|]. intros j Hj Ha. rewrite C2, Cn by lia.
    specialize (Hnn j Hj). destruct (decide (cell m n j = 0)) as [->|Hne]; [left; lia|].
    specialize (Hmin j Hj Ha Hne). right. lia.
  - intros _ r Hr. destruct (decide (r = n)) as [->|]; [|apply L3; (done || lia)].
    unfold live in *. apply Z.lt_le_trans with (countb (fun j => (0 <? cell m1 (n + 1) j) && active j) 0 (Z.to_nat N)); [done|].
    apply countb_le. intros k Hk [H1%Z.ltb_lt H2]%andb_true_iff.
    rewrite H2, andb_true_r. apply Z.ltb_lt. rewrite C2, Cn by lia. rewrite Cn1 in H1 by lia. lia.
  - intros r j Hr Hr' Hj Ha Hpos. destruct (decide (r = n)) as [->|]; [|apply L4; (done || lia)].
    rewrite C2, Cn by lia. 
    assert (0 < cell m1 (n + 1) j) as Hp.
    { rewrite <- (L1 j Hj). replace (Z.to_nat (n' - (n + 1))) with (S (Z.to_nat (n' - (n + 2)))) by lia.
      cbn [staked]. pose proof (staked_nonneg m2 j (n + 1 + 1) (Z.to_nat (n' - (n + 2))) Hm2). lia. }
    rewrite Cn1 in Hp by lia. lia.
Qed.

(** The loop: with [k] live stakes in row [n] it makes at most [k] more rows. *)
Lemma sidepots_loop_spec fuel m n : mat_ok m -> 0 <= n < N -> N - n <= Z.of_nat fuel ->
  live m n <= N - n -> (forall r c, n < r -> 0 <= c -> cell m r c = 0) ->
  exists m' n', sidepots_loop fuel N st m n = Some (m', n') /\ n < n' <= N /\ mat_ok m' /\
    (forall r c, 0 <= r < n -> 0 <= c -> cell m' r c = cell m r c) /\ layered m m' n n'.
Proof.
  revert m n. induction fuel as [|fuel IH]; intros m n Hm Hn Hf Hl Hz; [lia|].
  cbn [sidepots_loop]. destruct (mat_row m n Hm) as [-> Hrow]; [lia|]. cbn [mbind option_bind].
  destruct (minbet_spec _ Hrow) as (mb & -> & Hmb & H1 & H2). cbn [mbind option_bind].
  rewrite nonz_spec by done. cbn [mbind option_bind].
  set (row := nth (Z.to_nat n) m []) in *.
  assert (forall j, nth (Z.to_nat j) row 0 = cell m n j) as Hc by done.
  set (nz := countb _ 0 (Z.to_nat N)).
  assert (forall j, 0 <= j < N -> 0 <= cell m n j) as Hnn by (intros; by apply cell_nonneg).
  destruct (Z.ltb_spec 0 nz) as [Hnz|Hnz].
  - destruct (countb_pos _ _ _ Hnz) as (j0 & Hj0 & [Hlt0%Z.ltb_lt Ha0]%andb_true_iff).
    rewrite Hc in Hlt0.
    assert (0 < mb) as Hp.
    { destruct (decide (mb = 0)) as [E|]; [|lia].
      specialize (H1 E j0 ltac:(lia) Ha0). rewrite Hc in H1. lia. }
    destruct (H2 Hp) as [(j1 & Hj1 & Ha1 & Hmb1) Hmin]. rewrite Hc in Hmb1.
    assert (n + 1 < N) as Hn1.
    { destruct (decide (n + 1 < N)); [done|]. exfalso.
      pose proof (countb_lt (fun j => (mb <? nth (Z.to_nat j) row 0) && active j)
        (fun j => (0 <? cell m n j) && active j) 0 (Z.to_nat N) j1) as Hlt.
      assert (nz < live m n); [|lia]. apply Hlt; [|lia| |].
      - intros k Hk [Hk1%Z.ltb_lt Hk2]%andb_true_iff. rewrite Hk2, andb_true_r.
        apply Z.ltb_lt. rewrite Hc in Hk1. lia.
      - destruct (Z.ltb_spec mb (nth (Z.to_nat j1) row 0)) as [Hx|]; [rewrite Hc in Hx; lia|done].
      - rewrite Ha1, andb_true_r. apply Z.ltb_lt. lia. }
    destruct (split_spec m n mb Hm) as (m1 & -> & Hm1 & C1); [lia|lia|].
    cbn [mbind option_bind]. destruct (Z.leb_spec N (n + 1)); [lia|].
    assert (live m1 (n + 1) < live m n) as Hdec.
    { apply (live_step m m1 n mb); [|lia|by exists j1].
      intros j Hj _ Hpos. rewrite C1 in Hpos by lia. destruct (Z.eqb_spec (n + 1) n); [lia|].
      destruct (Z.ltb_spec mb (cell m n j)); [done|].
      rewrite andb_false_r, Hz in Hpos by lia. lia. }
    destruct (IH m1 (n + 1)) as (m2 & n' & E & Hn' & Hm2 & Hkeep & Hlay); [done|lia|lia|lia| |].
    { intros r c Hr Hcc. rewrite C1 by lia.
      destruct (Z.eqb_spec r n), (Z.eqb_spec r (n + 1)); try lia.
      rewrite (Hz r c) by lia. by destruct (_ && _). }
    exists m2, n'. split; [done|]. split; [lia|]. split; [done|]. split.
    + intros r c Hr Hcc. rewrite Hkeep, C1 by lia.
      destruct (Z.eqb_spec r n), (Z.eqb_spec r (n + 1)); try lia. by destruct (_ && _).
    + apply (layered_cons m m1 m2 n n' mb); [lia|lia|lia|exact C1| |exact Hnn| | | |done|done].
      * intros c Hcc. apply Hz; lia.
      * intros j Hj Ha Hne. rewrite <- Hc in Hne |- *. by apply Hmin.
      * exists j0. split; [lia|done].
      * intros c Hcc. apply Hkeep; lia.
  - cbn [mbind option_bind].
    assert (layered m m n (n + 1)) as Hlay.
    { apply (layered_last m n mb); try done; try lia.
      - intros Hp. apply (H2 Hp).
      - intros j Hj Ha. pose proof (countb_zero _ _ _ j Hnz ltac:(lia)) as Hzero.
        cbv beta in Hzero. rewrite Ha, andb_true_r in Hzero. apply Z.ltb_ge in Hzero. done. }
    exists m, (n + 1). destruct (Z.leb_spec N (n + 1)); (split; [done|]); split; try lia;
      (split; [done|]); (split; [done|exact Hlay]).
Qed.
End Sidepots.

Definition in_hand (dp : cards777_pubdata) (j : Z) : bool := active (h_betstatus (d_hand dp)) j.

Definition bet_of (bets : list Z) (j : Z) : Z := nth (Z.to_nat j) bets 0.

Definition bets_ok (bets : list Z) : Prop := length bets = 9%nat /\ Forall (fun b => 0 <= b < 2 ^ 63) bets.

#[export] Instance bets_ok_dec bets : Decision (bets_ok bets).
Proof. unfold bets_ok. apply _. Defined.

Lemma mat_ok_zero : mat_ok (replicate 9 (replicate 9 0)).
Proof.
  split; [done|]. apply Forall_replicate. split; [done|]. apply Forall_replicate.
  unfold amount_ok. lia.
Qed.

Lemma cell_zero r j : cell (replicate 9 (replicate 9 0)) r j = 0.
Proof.
  unfold cell. rewrite !nth_lookup.
  destruct (replicate 9 (replicate 9 0) !! Z.to_nat r) as [row|] eqn:E; cbn [from_option]; unfold id.
  - apply lookup_replicate_1 in E as [-> _].
    destruct (replicate 9 0 !! Z.to_nat j) as [x|] eqn:E; [|done].
    by apply lookup_replicate_1 in E as [-> _].
  - by destruct (Z.to_nat j).
Qed.

(** The first row: the bets as unsigned amounts. *)
Lemma sidepots_init dp bets : 1 <= d_N dp <= 9 -> bets_ok bets ->
  exists row m, for_ (fun j row => b ← aget bets j; aset row j (u64 b)) 0 (Z.to_nat (d_N dp))
      (replicate 9 0) = Some row /\
    aset (replicate 9 (replicate 9 0)) 0 row = Some m /\ mat_ok m /\
    (forall c, 0 <= c < d_N dp -> cell m 0 c = bet_of bets c) /\
    (forall r c, 0 < r -> cell m r c = 0).
Proof.
  intros HN [Lb Fb].
  destruct (for_update (fun j row => b ← aget bets j; aset row j (u64 b))
    (fun j _ => bet_of bets j) 0 (Z.to_nat (d_N dp)) (replicate 9 0)) as (row & E & L & H).
  - lia.
  - rewrite length_replicate. lia.
  - intros k t x Hk _ _ _. rewrite (aget_nth bets _ 0) by lia. cbn [mbind option_bind].
    destruct (lookup_lt_is_Some_2 bets (Z.to_nat k)) as [b Hb]; [lia|].
    rewrite (nth_lookup_Some _ _ _ _ Hb). apply (Forall_lookup_1 _ _ _ _ Fb) in Hb as Rb.
    cbv beta in Rb. rewrite u64_small by lia. unfold bet_of.
    by rewrite (nth_lookup_Some _ _ _ _ Hb).
  - exists row. rewrite length_replicate in L.
    rewrite aset_in_range by (rewrite length_replicate; lia).
    eexists. split; [done|]. split; [reflexivity|]. split; [|split].
    + split; [by rewrite length_insert|]. apply Forall_insert; [apply mat_ok_zero|].
      split; [done|]. apply Forall_lookup_2. intros j x Hx. rewrite H in Hx.
      assert (j < 9)%nat as Hj9.
      { destruct (decide (j < 9)%nat) as [|Hge]; [done|].
        rewrite (lookup_ge_None_2 (replicate 9 0) j) in Hx by (rewrite length_replicate; lia).
        by case_decide. }
      rewrite lookup_replicate_2 in Hx by done. case_decide; simplify_eq/=.
      * unfold bet_of. destruct (lookup_lt_is_Some_2 bets (Z.to_nat (Z.of_nat j - 0))) as [b Hb]; [lia|].
        rewrite (nth_lookup_Some _ _ _ _ Hb). apply (Forall_lookup_1 _ _ _ _ Fb) in Hb.
        unfold amount_ok. lia.
      * unfold amount_ok. lia.
    + intros c Hc. unfold cell. rewrite !nth_lookup, list_lookup_insert_eq by (simpl; lia).
      cbn [from_option]. unfold id. rewrite H, decide_True, lookup_replicate_2 by lia. simpl.
      f_equal. lia.
    + intros r c Hr. transitivity (cell (replicate 9 (replicate 9 0)) r c); [|apply cell_zero].
      unfold cell. by rewrite !nth_lookup, list_lookup_insert_ne by lia.
Qed.

(** What a layering of the bets into [n] pots is: each player's stakes over the
    rows add up to his bet; within a row all players still in the hand who have a
    stake have the same; who contests a row also contests the rows before it; and
    once some player still in the hand has bet, every row is contested. *)
Record side_pots (dp : cards777_pubdata) (bets : list Z) (m : list (list Z)) (n : Z) : Prop := mk_side_pots {
  lp_rows : 1 <= n <= d_N dp;
  lp_mat : mat_ok m;
  lp_sum : forall j, 0 <= j < d_N dp -> staked m j 0 (Z.to_nat n) = bet_of bets j;
  lp_level : forall r, 0 <= r < n -> exists level, 0 <= level /\
    forall j, 0 <= j < d_N dp -> in_hand dp j = true -> cell m r j = 0 \/ cell m r j = level;
  lp_nested : forall r j, 0 <= r -> r + 1 < n -> 0 <= j < d_N dp -> in_hand dp j = true ->
    0 < cell m (r + 1) j -> 0 < cell m r j;
  lp_contested : (exists j, 0 <= j < d_N dp /\ in_hand dp j = true /\ 0 < bet_of bets j) ->
    forall r, 0 <= r < n -> exists j, 0 <= j < d_N dp /\ in_hand dp j = true /\ 0 < cell m r j;
}.

Lemma sidepots_layered dp bets :
  1 <= d_N dp <= 9 -> length (h_betstatus (d_hand dp)) = 9%nat -> bets_ok bets ->
  exists m n, pangea_sidepots dp bets = Some (m, n) /\ side_pots dp bets m n.
Proof.
  intros HN Hst Hb. unfold pangea_sidepots.
  destruct (sidepots_init dp bets HN Hb) as (row & m0 & -> & E0 & Hm0 & C0 & Z0).
  cbn [mbind option_bind]. rewrite E0. cbn [mbind option_bind].
  set (st := h_betstatus (d_hand dp)) in *.
  assert (live (d_N dp) st m0 0 <= d_N dp - 0) as Hl.
  { unfold live. pose proof (countb_nonneg (fun j => (0 <? cell m0 0 j) && active st j) 0 (Z.to_nat (d_N dp))). lia. }
  destruct (sidepots_loop_spec (d_N dp) st HN Hst (S (Z.to_nat (d_N dp))) m0 0)
    as (m & n & E & Hn & Hm & _ & (L1 & L2 & L3 & L4)); [done|lia|lia|lia|intros; by apply Z0|].
  exists m, n. split; [exact E|]. split; [lia|done| |exact L2|intros r j Hr; by apply L4|].
  { intros j Hj. rewrite <- C0 by done. rewrite <- L1 by done. by rewrite Z.sub_0_r. }
  intros (j & Hj & Ha & Hp) r Hr.
  assert (0 < live (d_N dp) st m r) as Hlive.
  { apply L3; [|done]. unfold live.
    pose proof (countb_lt (fun _ => false) (fun j => (0 <? cell m0 0 j) && active st j) 0
      (Z.to_nat (d_N dp)) j ltac:(done) ltac:(lia) eq_refl) as Hc.
    pose proof (countb_nonneg (fun _ => false) 0 (Z.to_nat (d_N dp))).
    apply Z.le_lt_trans with (countb (fun _ => false) 0 (Z.to_nat (d_N dp))); [lia|].
    apply Hc. unfold in_hand in Ha. fold st in Ha. rewrite Ha, andb_true_r, C0 by done.
    by apply Z.ltb_lt. }
  destruct (countb_pos _ _ _ Hlive) as (k & Hk & [H1%Z.ltb_lt H2]%andb_true_iff).
  exists k. split; [lia|done].
Qed.

(** C5: side pots.  For every table of up to nine players and all bets below
    2^63, the loop ends within its 9 by 9 matrix, and its rows layer the bets:
    every chip bet is in exactly one pot, nobody contests a pot he has not
    matched, and the pots are nested. *)
Theorem pangea_sidepots_spec dp bets :
  1 <= d_N dp <= 9 -> length (h_betstatus (d_hand dp)) = 9%nat -> bets_ok bets ->
  exists m n, pangea_sidepots dp bets = Some (m, n) /\ side_pots dp bets m n.
Proof. apply sidepots_layered. Qed.

(** A short stack, a folded player and a covered bet. *)
Lemma pangea_sidepots_spec_witness :
  let bets := [100; 40; 250; 0; 0; 0; 0; 0; 0] in
  let dp := n_dp (sample_node bets [0; -1; 0; 0; 0; 0; 0; 0; 0] []) in
  exists m n, pangea_sidepots dp bets = Some (m, n) /\
    (forall j, 0 <= j < 3 -> staked m j 0 (Z.to_nat n) = bet_of bets j).
Proof.
  intros bets dp.
  destruct (pangea_sidepots_spec dp bets) as (m & n & E & H); [concrete..|].
  exists m, n. split; [exact E|exact (lp_sum _ _ _ _ H)].
Defined.

(** ** Dividing a pot *)

Definition rank_of (dp : cards777_pubdata) (j : Z) : Z := nth (Z.to_nat j) (h_handranks (d_hand dp)) 0.
Definition stake (row : list Z) (j : Z) : Z := nth (Z.to_nat j) row 0.

(** Sum of the first [N] entries. *)
Definition pot (row : list Z) (N : Z) : Z := sumZ (stake row <$> positions N).

(** Player [j] contests the pot: still in the hand, with a stake in it. *)
Definition contests (dp : cards777_pubdata) (row : list Z) (j : Z) : bool :=
  in_hand dp j && (0 <? stake row j).

(** The text of the hand of player [j] is not empty. *)
Definition named (dp : cards777_pubdata) (j : Z) : bool := hand_named (nth (Z.to_nat j) (h_hands (d_hand dp)) []).

(** The arrays of a hand have their nine entries. *)
Record hand_ok (h : cards777_handinfo) : Prop := mk_hand_ok {
  ho_betstatus : length (h_betstatus h) = 9%nat;
  ho_actions : length (h_actions h) = 9%nat;
  ho_turnis : length (h_turnis h) = 9%nat;
  ho_handranks : length (h_handranks h) = 9%nat;
  ho_bets : length (h_bets h) = 9%nat;
  ho_won : length (h_won h) = 9%nat;
  ho_snapshot : length (h_snapshot h) = 10%nat;
  ho_ranks : Forall (fun r => 0 <= r < 2 ^ 32) (h_handranks h);
}.

Lemma positions_S k : 0 <= k -> positions (k + 1) = positions k ++ [k].
Proof.
  intros Hk. unfold positions. replace (Z.to_nat (k + 1)) with (S (Z.to_nat k)) by lia.
  rewrite seq_S, fmap_app. simpl. by rewrite Z2Nat.id.
Qed.

Lemma positions_elem n j : j ∈ positions n <-> 0 <= j < n.
Proof.
  unfold positions. rewrite list_elem_of_fmap. split.
  - intros (i & -> & Hi%elem_of_seq). lia.
  - intros H. exists (Z.to_nat j). rewrite elem_of_seq. lia.
Qed.

Lemma positions_NoDup n : NoDup (positions n).
Proof. apply NoDup_fmap_2; [intros i j; lia|apply NoDup_seq]. Qed.

Lemma pot_S row k : 0 <= k -> pot row (k + 1) = pot row k + stake row k.
Proof. intros Hk. unfold pot. rewrite positions_S, fmap_app, sumZ_app by done. simpl. lia. Qed.

Lemma stake_ok row j : row_ok row -> amount_ok (stake row j).
Proof.
  intros [L H]. unfold stake. rewrite nth_lookup. destruct (row !! Z.to_nat j) as [x|] eqn:E.
  - apply (Forall_lookup_1 _ _ _ _ H E).
  - unfold amount_ok. simpl. lia.
Qed.

Lemma pot_mono row k n : row_ok row -> 0 <= k <= n -> 0 <= pot row k <= pot row n.
Proof.
  intros Hrow Hk. replace n with (k + Z.of_nat (Z.to_nat (n - k))) by lia.
  induction (Z.to_nat (n - k)) as [|m IH].
  - rewrite Z.add_0_r. split; [|lia]. unfold pot. apply sumZ_nonneg, Forall_fmap, Forall_true.
    intros j. pose proof (stake_ok row j Hrow) as H. unfold amount_ok in H. simpl. lia.
  - rewrite Nat2Z.inj_succ. replace (k + Z.succ (Z.of_nat m)) with (k + Z.of_nat m + 1) by lia.
    rewrite pot_S by lia. pose proof (stake_ok row (k + Z.of_nat m) Hrow) as H.
    unfold amount_ok in H. lia.
Qed.

Section Split.
Context (dp : cards777_pubdata) (row : list Z).
Context (HN : 1 <= d_N dp <= 9) (Hh : hand_ok (d_hand dp)) (Hrow : row_ok row).
Context (Hpot : pot row (d_N dp) < 2 ^ 64).

Lemma status_aget j : 0 <= j < 9 ->
  exists s, aget (h_betstatus (d_hand dp)) j = Some s /\ negb (folded s) = in_hand dp j.
Proof.
  intros Hj. destruct Hh. rewrite (aget_nth _ _ 0) by lia. by eexists.
Qed.

Lemma rank_aget j : 0 <= j < 9 ->
  aget (h_handranks (d_hand dp)) j = Some (rank_of dp j) /\ 0 <= rank_of dp j < 2 ^ 32.
Proof.
  intros Hj. destruct Hh. rewrite (aget_nth _ _ 0) by lia. split; [done|]. unfold rank_of.
  destruct (lookup_lt_is_Some_2 (h_handranks (d_hand dp)) (Z.to_nat j)) as [r Hr]; [lia|].
  rewrite (nth_lookup_Some _ _ _ _ Hr). apply (Forall_lookup_1 _ _ _ _ ho_ranks0 Hr).
Qed.

Lemma stake_aget j : 0 <= j < 9 -> aget row j = Some (stake row j).
Proof. intros Hj. apply (row_aget row j Hrow Hj). Qed.

(** The best rank is attained by a contestant and none is better. *)
Lemma splitpot_best_spec :
  exists best, splitpot_best dp row = Some (pot row (d_N dp), best) /\ 0 <= best /\
    (forall j, 0 <= j < d_N dp -> contests dp row j = true -> rank_of dp j <= best) /\
    ((exists j, 0 <= j < d_N dp /\ contests dp row j = true) ->
     exists j, 0 <= j < d_N dp /\ contests dp row j = true /\ rank_of dp j = best).
Proof.
  unfold splitpot_best.
  match goal with |- context [for_ ?f _ _ _] =>
  destruct (for_inv (fun k '(t, b) => t = pot row k /\ 0 <= b /\
    (forall j, 0 <= j < k -> contests dp row j = true -> rank_of dp j <= b) /\
    (b = 0 \/ exists j, 0 <= j < k /\ contests dp row j = true /\ rank_of dp j = b))
    f (Z.to_nat (d_N dp)) 0 (0, 0)) as ([t b] & E & -> & H0 & H1 & H2) end.
  - split; [done|]. split; [done|]. split; [intros; lia|by left].
  - intros k [t b] Hk (-> & H0 & H1 & H2). rewrite stake_aget by lia. cbn [mbind option_bind].
    pose proof (stake_ok row k Hrow) as Hs. unfold amount_ok in Hs.
    pose proof (pot_mono row k (d_N dp) Hrow ltac:(lia)) as Hp.
    pose proof (pot_mono row (k + 1) (d_N dp) Hrow ltac:(lia)) as Hp1.
    rewrite pot_S in Hp1 by lia. change (2 ^ 64) with 18446744073709551616 in *.
    assert (forall b', (b' = b \/ (b' = rank_of dp k /\ contests dp row k = true)) ->
      b <= b' -> (contests dp row k = true -> rank_of dp k <= b') ->
      pot row k + stake row k = pot row (k + 1) /\ 0 <= b' /\
      (forall j, 0 <= j < k + 1 -> contests dp row j = true -> rank_of dp j <= b') /\
      (b' = 0 \/ exists j, 0 <= j < k + 1 /\ contests dp row j = true /\ rank_of dp j = b')) as Hst.
    { intros b' Hb' Hbb Hkb. split; [rewrite pot_S by lia; lia|]. split; [lia|]. split.
      - intros j Hj Hc. destruct (decide (j = k)) as [->|]; [by apply Hkb|].
        specialize (H1 j ltac:(lia) Hc). lia.
      - destruct Hb' as [->|[-> Hc]]; [|right; exists k; split; [lia|done]].
        destruct H2 as [->|(j & Hj & Hc & Hr)]; [by left|right; exists j; split; [lia|done]]. }
    unfold contests in Hst at 1 2.
    destruct (Z.eqb_spec (stake row k) 0) as [Ez|Ez].
    + eexists. split; [reflexivity|]. replace (pot row k) with (pot row k + stake row k) by lia.
      apply Hst; [by left|lia|]. rewrite Ez, andb_false_r. done.
    + destruct (status_aget k) as (s & -> & Es); [lia|]. cbn [mbind option_bind].
      destruct (folded s) eqn:Ef; cbn [negb] in Es.
      * eexists. split; [reflexivity|]. rewrite u64_small by lia.
        apply Hst; [by left|lia|]. rewrite <- Es. done.
      * destruct (rank_aget k) as [-> Hr]; [lia|]. cbn [mbind option_bind].
        eexists. split; [reflexivity|]. rewrite u64_small by lia.
        destruct (Z.ltb_spec b (rank_of dp k)); apply Hst; try lia.
        right. split; [done|]. rewrite <- Es. apply Z.ltb_lt; lia.
  - replace (0 + Z.of_nat (Z.to_nat (d_N dp))) with (d_N dp) in * by lia.
    exists b. split; [done|]. split; [done|]. split; [done|].
    intros (j & Hj & Hc). destruct H2 as [->|H2]; [|done].
    exists j. split; [done|]. split; [done|]. specialize (H1 j Hj Hc).
    pose proof (rank_aget j ltac:(lia)). lia.
Qed.

Definition winners_of (best : Z) : list Z :=
  filter (fun j => contests dp row j = true /\ rank_of dp j = best) (positions (d_N dp)).

(** What is read of a hand with a text. *)
Lemma named_text j : 0 <= j -> named dp j = true ->
  exists hand c text score, aget (h_hands (d_hand dp)) j = Some hand /\
    handstr_of (replicate 32 0) (replicate 32 0) hand false = Some (c :: text, score) /\ is_Some (last (c :: text)).
Proof.
  intros Hj. unfold named, hand_named. rewrite nth_lookup. destruct (h_hands (d_hand dp) !! Z.to_nat j) as [hand|] eqn:E; [|done]. cbn [default from_option id].
  destruct (handstr_of (replicate 32 0) (replicate 32 0) hand false) as [[[|c text] score]|] eqn:Et; try done. intros _. exists hand, c, text, score.
  split; [by apply aget_lookup|]. split; [done|]. apply last_is_Some. done.
Qed.

Lemma splitpot_winners_spec best : (forall j, 0 <= j < d_N dp -> contests dp row j = true -> named dp j = true) ->
  splitpot_winners dp row best = Some (winners_of best).
Proof.
  intros Hnamed. unfold splitpot_winners, winners_of.
  match goal with |- context [for_ ?f _ _ _] =>
  destruct (for_inv (fun k w => w =
      filter (fun j => contests dp row j = true /\ rank_of dp j = best) (positions k))
    f (Z.to_nat (d_N dp)) 0 []) as (w & E & ->) end.
  - done.
  - intros k w Hk ->. destruct (status_aget k) as (s & -> & Es); [lia|]. cbn [mbind option_bind].
    rewrite stake_aget by lia. cbn [mbind option_bind].
    rewrite positions_S, list.filter_app by lia.
    assert (negb (folded s) && (0 <? stake row k) = contests dp row k) as Hc
      by (unfold contests; by rewrite Es).
    rewrite Hc. destruct (contests dp row k) eqn:Ec.
    + destruct (rank_aget k) as [-> _]; [lia|]. cbn [mbind option_bind].
      destruct (named_text k ltac:(lia) (Hnamed k ltac:(lia) Ec)) as (hand & c & text & score & -> & Et & [x Ex]).
      cbn [mbind option_bind]. rewrite Et. cbn [mbind option_bind]. rewrite Ex. cbn [mbind option_bind].
      destruct (Z.eqb_spec (rank_of dp k) best).
      * eexists. split; [reflexivity|]. by rewrite (filter_cons_True _ k []) by done.
      * eexists. split; [reflexivity|].
        rewrite (filter_cons_False _ k []), filter_nil, app_nil_r by tauto. done.
    + eexists. split; [reflexivity|].
      rewrite (filter_cons_False _ k []), filter_nil, app_nil_r; [done|]. intros [? _]. congruence.
  - rewrite E. f_equal. f_equal. f_equal. lia.
Qed.

(** A contestant whose hand has no text. *)
Lemma splitpot_winners_unnamed best j : 0 <= j < d_N dp -> contests dp row j = true -> named dp j = false ->
  splitpot_winners dp row best = None.
Proof.
  intros Hj Hc Hn. apply (for_fails (fun _ => True) _ j); [done| |lia|done]. intros w _. destruct (status_aget j) as (s & -> & Es); [lia|]. cbn [mbind option_bind].
  rewrite stake_aget by lia. cbn [mbind option_bind]. unfold contests in Hc. rewrite Es, Hc. destruct (rank_aget j) as [-> _]; [lia|]. cbn [mbind option_bind].
  revert Hn. unfold named, hand_named. rewrite nth_lookup. unfold aget. destruct (Z.ltb_spec j 0); [lia|].
  destruct (h_hands (d_hand dp) !! Z.to_nat j) as [hand|]; [|done]. cbn [default from_option id mbind option_bind].
  by destruct (handstr_of (replicate 32 0) (replicate 32 0) hand false) as [[[|c text] score]|].
Qed.
End Split.

(** A node whose chips and log alone have changed. *)
Definition with_funds (n : node) (bal : list Z) (summary : list Z) : node :=
  n <| n_sp := n_sp n <| s_balances := bal |> |>
    <| n_dp := n_dp n <| d_summary := summary |> |>.

Lemma with_funds_self n : with_funds n (s_balances (n_sp n)) (d_summary (n_dp n)) = n.
Proof. by destruct n as [[] [] ? ? ?]. Qed.

Lemma with_funds_twice n b1 s1 b2 s2 : with_funds (with_funds n b1 s1) b2 s2 = with_funds n b2 s2.
Proof. done. Qed.

Lemma with_funds_table_ok n bal s : length bal = 9%nat -> table_ok (n_sp n) ->
  table_ok (n_sp (with_funds n bal s)).
Proof. intros Hl []. by split. Qed.

(** The seat of a player, for well-formed tables. *)
Definition seat (sp : pangea_info) (i : Z) : Z := default 0 (pangea_slot sp i).

Lemma seat_spec sp i : table_ok sp -> 0 <= i < s_numactive sp ->
  pangea_slot sp i = Some (seat sp i) /\ 0 <= seat sp i < 9.
Proof.
  intros Hok Hi. destruct (slot_spec sp i Hok Hi) as (s & E & Hs & _).
  unfold seat. rewrite E. split; [done|]. pose proof (ok_numaddrs sp Hok). simpl. lia.
Qed.

Lemma seat_inj sp i j : table_ok sp -> 0 <= i < s_numactive sp -> 0 <= j < s_numactive sp ->
  seat sp i = seat sp j -> i = j.
Proof.
  intros Hok Hi Hj E. destruct (seat_spec sp i Hok Hi) as [Ei _].
  destruct (seat_spec sp j Hok Hj) as [Ej _]. rewrite E in Ei. by eapply (slot_inj sp i j).
Qed.

Definition balance (sp : pangea_info) (slot : Z) : Z := nth (Z.to_nat slot) (s_balances sp) 0.

(** Chips that cannot overflow when a pot is paid out. *)
Definition balances_ok (bal : list Z) : Prop := length bal = 9%nat /\ Forall (fun b => 0 <= b < 2 ^ 61) bal.

#[export] Instance balances_ok_dec bal : Decision (balances_ok bal).
Proof. unfold balances_ok. apply _. Defined.

Lemma pay_winner_spec split w n won : table_ok (n_sp n) -> 0 <= w < s_numactive (n_sp n) ->
  0 <= split < 2 ^ 61 -> 0 <= balance (n_sp n) (seat (n_sp n) w) < 2 ^ 61 ->
  length won = 9%nat -> 0 <= stake won w < 2 ^ 61 ->
  Z.of_nat (length (d_summary (n_dp n))) + 10 <= SUMMARYMAX ->
  pay_winner split w (n, won) =
    Some (with_funds n
            (<[Z.to_nat (seat (n_sp n) w) := balance (n_sp n) (seat (n_sp n) w) + split]>
               (s_balances (n_sp n)))
            (d_summary (n_dp n) ++ CARDS777_WINNINGS :: le_bytes 1 w ++ le_bytes 8 split),
          <[Z.to_nat w := stake won w + split]> won).
Proof.
  intros Hok Hw Hs Hb Lw Hwon Hsum. unfold pay_winner, n_summary, pangea_summary.
  change (u8 CARDS777_WINNINGS) with CARDS777_WINNINGS.
  destruct (Z.ltb_spec SUMMARYMAX (Z.of_nat (length
    (d_summary (n_dp n) ++ CARDS777_WINNINGS :: le_bytes 1 w ++ le_bytes 8 split)))) as [Hlt|_].
  { rewrite length_app in Hlt. cbn [length] in Hlt. rewrite length_app, !length_le_bytes in Hlt. lia. }
  cbn [mbind option_bind]. cbn [n_sp].
  destruct (seat_spec (n_sp n) w Hok Hw) as [Eseat Hseat].
  pose proof (ok_balances_len _ Hok). pose proof (ok_numactive _ Hok).
  change (n_sp (n <| n_dp := _ |>)) with (n_sp n). rewrite Eseat. cbn [mbind option_bind].
  rewrite (aget_nth (s_balances (n_sp n)) _ 0), (aget_nth won _ 0) by lia.
  cbn [mbind option_bind].
  change (nth (Z.to_nat (seat (n_sp n) w)) (s_balances (n_sp n)) 0)
    with (balance (n_sp n) (seat (n_sp n) w)).
  fold (stake won w). rewrite !aset_in_range by lia. cbn [mbind option_bind].
  rewrite !s64_small by lia. done.
Qed.

(** Paying every winner of a list once. *)
Definition paid (split : Z) (ws : list Z) (f : Z -> Z) (b : list Z) : list Z :=
  foldl (fun b w => <[Z.to_nat (f w) := nth (Z.to_nat (f w)) b 0 + split]> b) b ws.

Lemma paid_length split ws f b : length (paid split ws f b) = length b.
Proof. revert b. induction ws as [|w ws IH]; intros b; [done|]. simpl. rewrite IH. apply length_insert. Qed.

Lemma paid_sum split ws f b : (forall w, w ∈ ws -> 0 <= f w < Z.of_nat (length b)) ->
  sumZ (paid split ws f b) = sumZ b + split * Z.of_nat (length ws).
Proof.
  revert b. induction ws as [|w ws IH]; intros b H; [simpl; lia|].
  simpl. rewrite IH by (intros; rewrite length_insert; apply H; by right).
  destruct (lookup_lt_is_Some_2 b (Z.to_nat (f w))) as [x Hx]; [specialize (H w ltac:(by left)); lia|].
  rewrite (sumZ_insert _ _ _ x) by done. rewrite (nth_lookup_Some _ _ _ _ Hx). lia.
Qed.

(** Exactly the listed entries grow, each by [split]. *)
Lemma paid_entry split ws f b i : NoDup ws -> (forall w, w ∈ ws -> 0 <= f w < Z.of_nat (length b)) ->
  (forall v w, v ∈ ws -> w ∈ ws -> f v = f w -> v = w) ->
  (forall w, w ∈ ws -> f w = i -> nth (Z.to_nat i) (paid split ws f b) 0 = nth (Z.to_nat i) b 0 + split) /\
  ((forall w, w ∈ ws -> f w <> i) -> 0 <= i -> nth (Z.to_nat i) (paid split ws f b) 0 = nth (Z.to_nat i) b 0).
Proof.
  intros Hnd. revert b. induction Hnd as [|w ws Hw Hnd IH]; intros b Hr Hinj.
  - split; [intros w Hw; by apply not_elem_of_nil in Hw|done].
  - simpl. set (b1 := <[_ := _]> b).
    destruct (IH b1) as [IH1 IH2].
    { intros v Hv. unfold b1. rewrite length_insert. apply Hr. by right. }
    { intros u v Hu Hv. apply Hinj; by right. }
    pose proof (Hr w ltac:(by left)) as Hrw.
    assert (nth (Z.to_nat (f w)) b1 0 = nth (Z.to_nat (f w)) b 0 + split) as Hsame.
    { unfold b1. rewrite nth_lookup at 1. rewrite list_lookup_insert_eq by lia. done. }
    assert (forall k, 0 <= k -> k <> f w -> nth (Z.to_nat k) b1 0 = nth (Z.to_nat k) b 0) as Hother.
    { intros k Hk Hne. unfold b1. rewrite !nth_lookup, list_lookup_insert_ne by lia. done. }
    split.
    + intros v Hv Hi. apply elem_of_cons in Hv as [->|Hv].
      * subst i. rewrite IH2; [done| |lia]. intros u Hu E.
        apply Hinj in E; [subst; done|by right|by left].
      * pose proof (Hr v ltac:(by right)) as Hrv. rewrite (IH1 v Hv Hi). rewrite Hother; [done|lia|].
        intros E. subst i. apply Hinj in E; [subst; done|by right|by left].
    + intros Hi Hi0. rewrite IH2, Hother; [done|done| |intros u Hu; apply Hi; by right|done].
      intros ->. by apply (Hi w); [left|].
Qed.

Lemma nth_insert_other (b : list Z) (i j x : Z) : 0 <= i -> 0 <= j -> i <> j ->
  nth (Z.to_nat i) (<[Z.to_nat j := x]> b) 0 = nth (Z.to_nat i) b 0.
Proof. intros. rewrite !nth_lookup, list_lookup_insert_ne by lia. done. Qed.

Lemma pay_all_spec split ws n won : table_ok (n_sp n) -> NoDup ws ->
  (forall w, w ∈ ws -> 0 <= w < s_numactive (n_sp n)) -> 0 <= split < 2 ^ 61 ->
  (forall w, w ∈ ws -> 0 <= balance (n_sp n) (seat (n_sp n) w) < 2 ^ 61) ->
  length won = 9%nat -> (forall w, w ∈ ws -> 0 <= stake won w < 2 ^ 61) ->
  Z.of_nat (length (d_summary (n_dp n))) + 10 * Z.of_nat (length ws) <= SUMMARYMAX ->
  exists sum', foldl (fun st w => s ← st; pay_winner split w s) (Some (n, won)) ws =
    Some (with_funds n (paid split ws (seat (n_sp n)) (s_balances (n_sp n))) sum',
          paid split ws (fun w => w) won) /\
    Z.of_nat (length sum') = Z.of_nat (length (d_summary (n_dp n))) + 10 * Z.of_nat (length ws).
Proof.
  intros Hok Hnd. revert n won Hok. induction Hnd as [|w ws Hw Hnd IH];
    intros n won Hok Hws Hs Hb Lw Hwon Hsum.
  - exists (d_summary (n_dp n)). cbn [foldl]. unfold paid. cbn [foldl]. rewrite with_funds_self.
    split; [done|]. simpl. lia.
  - cbn [foldl mbind option_bind]. cbn [length] in Hsum.
    rewrite pay_winner_spec; [|done|apply Hws; left|done|apply Hb; left|done|apply Hwon; left|lia].
    set (b1 := <[_ := _]> (s_balances (n_sp n))).
    set (s1 := d_summary (n_dp n) ++ _).
    set (won1 := <[_ := _]> won).
    assert (length b1 = 9%nat) as Lb1 by (unfold b1; rewrite length_insert; apply Hok).
    assert (Z.of_nat (length s1) = Z.of_nat (length (d_summary (n_dp n))) + 10) as Ls1.
    { unfold s1. rewrite length_app. cbn [length]. rewrite length_app, !length_le_bytes. lia. }
    pose proof (Hws w ltac:(by left)) as Hww.
    destruct (IH (with_funds n b1 s1) won1) as (sum' & E & Lsum).
    + by apply with_funds_table_ok.
    + intros v Hv. apply Hws. by right.
    + done.
    + intros v Hv. change (seat (n_sp (with_funds n b1 s1)) v) with (seat (n_sp n) v).
      change (balance (n_sp (with_funds n b1 s1)) (seat (n_sp n) v)) with (nth (Z.to_nat (seat (n_sp n) v)) b1 0).
      pose proof (Hws v ltac:(by right)) as Hvv.
      destruct (seat_spec (n_sp n) v Hok Hvv) as [_ Rv]. destruct (seat_spec (n_sp n) w Hok Hww) as [_ Rw].
      unfold b1. rewrite nth_insert_other; [apply Hb; by right|lia|lia|].
      intros E. apply seat_inj in E; [|done|done|done]. by subst.
    + unfold won1. by rewrite length_insert.
    + intros v Hv. pose proof (Hws v ltac:(by right)) as Hvv. unfold stake, won1.
      rewrite nth_insert_other; [apply Hwon; by right|lia|lia|]. intros ->. done.
    + cbn [n_dp d_summary with_funds]. 
      change (d_summary (n_dp (with_funds n b1 s1))) with s1. lia.
    + exists sum'. split.
      * etransitivity; [exact E|]. by rewrite with_funds_twice.
      * change (d_summary (n_dp (with_funds n b1 s1))) with s1 in Lsum. cbn [length]. lia.
Qed.

(** The cap of the rake is always found. *)
Lemma splitpot_maxrake_spec dp : 1 <= d_N dp <= 9 -> hand_ok (d_hand dp) ->
  0 <= d_maxrake dp -> exists m, splitpot_maxrake dp = Some m /\ 0 <= m.
Proof.
  intros HN Hh Hm. unfold splitpot_maxrake.
  match goal with |- context [for_ ?f _ _ _] =>
  destruct (for_inv (fun k n => 0 <= n <= k) f (Z.to_nat (d_N dp)) 0 0) as (n & E & Hn) end.
  - lia.
  - intros k n Hk Hn. destruct Hh. rewrite (aget_nth _ _ 0) by lia. cbn [mbind option_bind].
    eexists. split; [reflexivity|]. case_match; lia.
  - rewrite E. cbn [mbind option_bind]. rewrite (aget_nth _ _ 0) by (simpl; lia).
    cbn [mbind option_bind]. eexists. split; [reflexivity|].
    pose proof (u64_range (nth (Z.to_nat n) maxrakes 0 * d_bigblind dp)).
    unfold PANGEA_BTCMAXRAKE, PANGEA_MAXRAKE, SATOSHIDEN. repeat case_match; lia.
Qed.

(** The contestants with the highest rank, each listed once, share the pot with
    the two rakes. *)
Record pot_shared (dp : cards777_pubdata) (row ws : list Z) (split rake prake : Z) : Prop := mk_pot_shared {
  ps_some : ws <> [];
  ps_nodup : NoDup ws;
  ps_winners : forall j, j ∈ ws <-> 0 <= j < d_N dp /\ contests dp row j = true /\
    forall k, 0 <= k < d_N dp -> contests dp row k = true -> rank_of dp k <= rank_of dp j;
  ps_total : split * Z.of_nat (length ws) + rake + prake = pot row (d_N dp);
  ps_split : 0 <= split;
  ps_rake : 0 <= rake;
  ps_prake : 0 <= prake;
}.

Lemma splitpot_shared won pangearake row n rakemillis :
  let dp := n_dp n in let sp := n_sp n in
  table_ok sp -> 1 <= d_N dp <= 9 -> s_numactive sp = d_N dp -> hand_ok (d_hand dp) ->
  balances_ok (s_balances sp) -> balances_ok won -> row_ok row -> pot row (d_N dp) < 2 ^ 61 ->
  0 <= rakemillis <= 1000 -> 0 <= d_maxrake dp ->
  Z.of_nat (length (d_summary dp)) + 90 <= SUMMARYMAX ->
  (exists j, 0 <= j < d_N dp /\ contests dp row j = true) ->
  (forall j, 0 <= j < d_N dp -> contests dp row j = true -> named dp j = true) ->
  exists ws split rake prake sum',
    pangea_splitpot won pangearake row n rakemillis =
      Some (with_funds n (paid split ws (seat sp) (s_balances sp)) sum',
            paid split ws (fun w => w) won, u64 (pangearake + prake), rake) /\
    pot_shared dp row ws split rake prake /\
    Z.of_nat (length sum') <= Z.of_nat (length (d_summary dp)) + 90.
Proof.
  intros dp sp Hok HN Hact Hh [Lb Fb] [Lw Fw] Hrow Hpot Hr Hm Hsum Hcont Hnamed.
  change (2 ^ 61) with 2305843009213693952 in *.
  destruct (splitpot_best_spec dp row HN Hh Hrow ltac:(change (2 ^ 64) with 18446744073709551616; lia))
    as (best & Eb & Hb0 & Hbmax & Hbatt).
  pose proof (splitpot_winners_spec dp row HN Hh Hrow best Hnamed) as Ew.
  set (ws := winners_of dp row best) in *.
  assert (forall j, j ∈ ws <-> 0 <= j < d_N dp /\ contests dp row j = true /\ rank_of dp j = best) as Hws.
  { intros j. unfold ws, winners_of. rewrite list_elem_of_filter, positions_elem. tauto. }
  destruct (Hbatt Hcont) as (j0 & Hj0 & Hc0 & Hr0).
  assert (j0 ∈ ws) as Hin by by apply Hws.
  assert (NoDup ws) as Hnd by apply NoDup_filter, positions_NoDup.
  assert (0 < Z.of_nat (length ws) <= 9) as Hlen.
  { split.
    - destruct ws; [by apply not_elem_of_nil in Hin|simpl; lia].
    - assert (length ws <= length (positions (d_N dp)))%nat as Hle by apply length_filter.
      unfold positions in Hle. rewrite length_fmap, length_seq in Hle. lia. }
  destruct (splitpot_maxrake_spec dp HN Hh Hm) as (maxrake & Emr & Hmr).
  pose proof (pot_mono row 0 (d_N dp) Hrow ltac:(lia)) as Hp0.
  pose proof (pangea_winnings_spec (pot row (d_N dp)) (Z.of_nat (length ws)) rakemillis maxrake) as Hwin.
  destruct (pangea_winnings (pot row (d_N dp)) (Z.of_nat (length ws)) rakemillis maxrake)
    as [[split rake] prake] eqn:Epw.
  destruct Hwin as (W1 & W2 & W3 & W4); [change (2 ^ 64) with 18446744073709551616; lia|lia|lia|lia|].
  assert (split <= pot row (d_N dp)) by nia.
  destruct (pay_all_spec split ws n won Hok Hnd) as (sum' & Ep & Lsum).
  - intros w Hw. apply Hws in Hw. unfold sp in *. lia.
  - lia.
  - intros w Hw. apply Hws in Hw. destruct (seat_spec (n_sp n) w Hok) as [_ Rs]; [unfold sp in *; lia|].
    destruct (lookup_lt_is_Some_2 (s_balances (n_sp n)) (Z.to_nat (seat (n_sp n) w))) as [b Hb]; [unfold sp in *; lia|].
    unfold balance. rewrite (nth_lookup_Some _ _ _ _ Hb). apply (Forall_lookup_1 _ _ _ _ Fb Hb).
  - done.
  - intros w Hw. apply Hws in Hw.
    destruct (lookup_lt_is_Some_2 won (Z.to_nat w)) as [b Hb]; [lia|].
    unfold stake. rewrite (nth_lookup_Some _ _ _ _ Hb). apply (Forall_lookup_1 _ _ _ _ Fw Hb).
  - unfold dp in *. lia.
  - exists ws, split, rake, prake, sum'. split; [|split; [|unfold dp in *; lia]].
    + unfold pangea_splitpot. fold dp. rewrite Eb. cbn [mbind option_bind]. rewrite Ew.
      cbn [mbind option_bind]. destruct ws as [|w0 ws'] eqn:Ews; [by apply not_elem_of_nil in Hin|].
      rewrite Emr. cbn [mbind option_bind]. rewrite Epw, Ep. cbn [mbind option_bind].
      rewrite s64_small by lia. done.
    + split; [|done| |lia..].
      * intros E. rewrite E in Hin. by apply not_elem_of_nil in Hin.
      * intros j. rewrite Hws. split.
        -- intros (Hj & Hc & Hrk). split; [done|]. split; [done|]. intros k Hk Hck. rewrite Hrk. by apply Hbmax.
        -- intros (Hj & Hc & Hmax). split; [done|]. split; [done|].
           specialize (Hmax j0 Hj0 Hc0). specialize (Hbmax j Hj Hc). lia.
Qed.

(** Whatever the other pots, a contestant without a text stops the division. *)
Lemma splitpot_unnamed won pangearake row n rakemillis j : 1 <= d_N (n_dp n) <= 9 -> hand_ok (d_hand (n_dp n)) -> row_ok row ->
  0 <= j < d_N (n_dp n) -> contests (n_dp n) row j = true -> named (n_dp n) j = false ->
  pangea_splitpot won pangearake row n rakemillis = None.
Proof.
  intros HN Hh Hrow Hj Hc Hn. unfold pangea_splitpot. destruct (splitpot_best (n_dp n) row) as [[total best]|]; [|done]. cbn [mbind option_bind].
  by rewrite (splitpot_winners_unnamed (n_dp n) row HN Hh Hrow best j).
Qed.

Lemma sample_named bets st ranks j : 0 <= j < 3 -> named (n_dp (sample_node bets st ranks)) j = true.
Proof. intros Hj. assert (j = 0 \/ j = 1 \/ j = 2) as [-> |[-> | ->]] by lia; reflexivity. Qed.

(** C6: a contested pot goes, whole, to the best hands.  The contestants with the
    highest rank, and nobody else, receive equal shares in their seats' balances
    and in [won]; the shares and the two rakes add up to the pot; and nothing
    but balances and the log changes.  That is so if the hand of every contestant has
    a text; a contestant whose hand has none - an unknown card is enough - makes the
    code access [handstr[-1]]. *)
Theorem pangea_splitpot_pays_winners won pangearake row n rakemillis :
  let dp := n_dp n in let sp := n_sp n in
  table_ok sp -> 1 <= d_N dp <= 9 -> s_numactive sp = d_N dp -> hand_ok (d_hand dp) ->
  balances_ok (s_balances sp) -> balances_ok won -> row_ok row -> pot row (d_N dp) < 2 ^ 61 ->
  0 <= rakemillis <= 1000 -> 0 <= d_maxrake dp ->
  Z.of_nat (length (d_summary dp)) + 90 <= SUMMARYMAX ->
  (exists j, 0 <= j < d_N dp /\ contests dp row j = true) ->
  ((forall j, 0 <= j < d_N dp -> contests dp row j = true -> named dp j = true) ->
   exists ws split rake prake sum',
     pangea_splitpot won pangearake row n rakemillis =
       Some (with_funds n (paid split ws (seat sp) (s_balances sp)) sum',
             paid split ws (fun w => w) won, u64 (pangearake + prake), rake) /\
     pot_shared dp row ws split rake prake) /\
  (forall j, 0 <= j < d_N dp -> contests dp row j = true -> named dp j = false ->
   pangea_splitpot won pangearake row n rakemillis = None).
Proof.
  intros dp sp H1 H2 H3 H4 H5 H6 H7 H8 H9 H10 H11 H12. split.
  - intros H13. destruct (splitpot_shared won pangearake row n rakemillis H1 H2 H3 H4 H5 H6 H7 H8 H9 H10 H11 H12 H13)
      as (ws & split & rake & prake & sum' & E & H & _).
    by exists ws, split, rake, prake, sum'.
  - intros j Hj Hc Hn. by apply (splitpot_unnamed won pangearake row n rakemillis j).
Qed.

Lemma pangea_splitpot_pays_winners_witness :
  let n := sample_node [100; 100; 100; 0; 0; 0; 0; 0; 0] [0; -1; 0; 0; 0; 0; 0; 0; 0]
             [7; 9; 7; 0; 0; 0; 0; 0; 0] in
  exists n' won prake rake,
    pangea_splitpot (replicate 9 0) 0 [100; 100; 100; 0; 0; 0; 0; 0; 0] n 10 = Some (n', won, prake, rake).
Proof.
  intros n.
  destruct (pangea_splitpot_pays_winners (replicate 9 0) 0 [100; 100; 100; 0; 0; 0; 0; 0; 0] n 10)
    as [H _].
  - apply sample_info_ok.
  - concrete.
  - concrete.
  - split; concrete.
  - concrete.
  - concrete.
  - concrete.
  - concrete.
  - concrete.
  - concrete.
  - concrete.
  - exists 0. split; [concrete|reflexivity].
  - destruct H as (ws & split & rake & prake & sum' & E & _).
    + intros j Hj _. apply sample_named. exact Hj.
    + do 4 eexists. exact E.
Defined.
