(* ===== verification/Funds.v ===== *)
(** * Funds: betting, blinds and the end of a hand

    The handlers of [plugins/games/pangea/pangeafunds.c] that move chips: folds,
    bets, antes and blinds, turn order, the last player standing, the showdown
    and the settlement of a hand.  A handler is a function on the node's state
    in the option monad ([None]: an access outside an array or a division by
    zero).  The fields of the JSON messages, the clock and [rand()] are
    arguments.  Signed 64-bit results are wrapped, where C leaves an overflow
    undefined; the theorems have hypotheses that exclude it. *)

From S2P Require Import Prelude Bits GF256 Interp GFShare Cards Table Summary Pots.

Definition pangea_fold (n : node) (player : Z) : option node :=
  let h := n_hand n in
  bs ← aset (h_betstatus h) player CARDS777_FOLD;
  acts ← aset (h_actions h) player CARDS777_FOLD;
  b ← aget (h_bets h) player;
  let n := on_hand (fun h => h
      <| h_handmask := u32 (Z.lor (h_handmask h) (Z.shiftl 1 player)) |>
      <| h_betstatus := bs |> <| h_actions := acts |>) n in
  n_summary n CARDS777_FOLD (le_bytes 1 player) (le_bytes 8 b).

Definition pangea_totalbet (dp : cards777_pubdata) : option Z :=
  for_ (fun j total => b ← aget (h_bets (d_hand dp)) j; Some (u64 (total + b)))
       0 (Z.to_nat (d_N dp)) 0.

(** Number of players not folded, and the first of them (-1 without one). *)
Definition pangea_actives (dp : cards777_pubdata) : option (Z * Z) :=
  for_ (fun i '(n, activej) =>
          st ← aget (h_betstatus (d_hand dp)) i;
          Some (if folded st then (n, activej)
                else (n + 1, if activej <? 0 then i else activej)))
       0 (Z.to_nat (d_N dp)) (0, -1).

(** The first half of [pangea_bet]: the amount really staked and the kind of
    action, before the pot is looked at. *)
Definition bet_amount (n : node) (player bet action : Z) : option (node * Z * Z) :=
  let sp := n_sp n in
  let h := n_hand n in
  allin ← (if 0 <? bet then
             slot ← pangea_slot sp player; b ← aget (s_balances sp) slot;
             Some (if b <=? bet then Some b else None)
           else Some None);
  match allin with
  | Some b =>
      bs ← aset (h_betstatus h) player CARDS777_ALLIN;
      Some (on_hand (fun h => h <| h_betstatus := bs |>) n, b, CARDS777_ALLIN)
  | None =>
      if (h_betsize h <? bet) && (h_lastraise h <? bet) && (bet <? s64 (2 * h_lastraise h))
      then Some (n, h_lastraise h, CARDS777_RAISE)
      else Some (n, bet, action)
  end.

(** Raise bookkeeping: [lastraise], [numactions], [betsize], [lastbettor]; the
    result is the hand and the final kind of action. *)
Definition bet_raise (h : cards777_handinfo) (player sum bet action : Z)
  : cards777_handinfo * Z :=
  let '(h, action) :=
    if s64 (2 * h_lastraise h) <=? bet then
      (h <| h_lastraise := bet |> <| h_numactions := 0 |>,
       if action =? CARDS777_CHECK then CARDS777_FULLRAISE else action)
    else (h, action) in
  let sum := u64 (sum + bet) in
  let '(h, action) :=
    if u64 (h_betsize h) <? sum then
      let h := h <| h_numactions := 0 |> <| h_betsize := s64 sum |> <| h_lastbettor := player |> in
      if (u64 (h_lastraise h) <? sum) && (action =? CARDS777_ALLIN)
      then (h <| h_lastraise := s64 sum |>, action)
      else (h, if action =? CARDS777_CHECK then CARDS777_BET else action)
    else (h, action) in
  (h, if (0 <? bet) && (action =? CARDS777_CHECK) then CARDS777_CALL else action).

(** The chips move: the balance at the player's seat, and the entry of [bets]
    with the seat's number. *)
Definition bet_move (n : node) (player bet : Z) : option node :=
  slot ← pangea_slot (n_sp n) player;
  b ← aget (s_balances (n_sp n)) slot;
  bal ← aset (s_balances (n_sp n)) slot (s64 (b - bet));
  v ← aget (h_bets (n_hand n)) slot;
  bets ← aset (h_bets (n_hand n)) slot (s64 (v + bet));
  Some (on_hand (fun h => h <| h_bets := bets |>)
         (n <| n_sp := n_sp n <| s_balances := bal |> |>)).

Definition pangea_bet (n : node) (player bet action : Z) : option (node * Z) :=
  if d_N (n_dp n) =? 0 then None
  else
    let player := Z.rem player (d_N (n_dp n)) in
    st ← aget (h_betstatus (n_hand n)) player;
    if st =? CARDS777_ALLIN then Some (n, CARDS777_ALLIN)
    else if st =? CARDS777_FOLD then Some (n, CARDS777_FOLD)
    else
      '(n, bet, action) ← bet_amount n player bet action;
      b ← aget (h_bets (n_hand n)) player;
      let sum := u64 b in
      if (u64 (sum + bet) <? u64 (h_betsize (n_hand n))) && negb (action =? CARDS777_ALLIN)
      then n ← pangea_fold n player; Some (n, CARDS777_FOLD)
      else
        let '(h, action) := bet_raise (n_hand n) player sum bet action in
        let n := on_hand (fun _ => h) n in
        n ← n_summary n action (le_bytes 1 player) (le_bytes 8 bet);
        n ← bet_move n player bet;
        Some (n, action).

(** ** Antes and blinds *)

Definition pangea_bet_ (n : node) (player bet action : Z) : option node :=
  fst <$> pangea_bet n player bet action.

(** The balances at the start of the hand, logged. *)
Definition antes_snapshot (n : node) : option node :=
  snap ← for_ (fun i snap => b ← aget (s_balances (n_sp n)) i; aset snap i b)
           0 (Z.to_nat (s_numaddrs (n_sp n))) (d_snapshot (n_dp n));
  let n := n <| n_dp := n_dp n <| d_snapshot := snap |> |> in
  n_summary n CARDS777_SNAPSHOT (le_bytes 4 (d_numhands (n_dp n) - 1))
    (concat (le_bytes 8 <$> snap)).

Definition slot_balance (n : node) (i : Z) : option Z :=
  slot ← pangea_slot (n_sp n) i; aget (s_balances (n_sp n)) slot.

Definition antes_foldbroke (n : node) : option node :=
  for_ (fun i n => b ← slot_balance n i; if b <=? 0 then pangea_fold n i else Some n)
       0 (Z.to_nat (d_N (n_dp n))) n.

Definition antes_ante (n : node) : option node :=
  if d_ante (n_dp n) =? 0 then Some n
  else for_ (fun i n =>
        let dp := n_dp n in
        if negb (i =? d_button dp) && negb (i =? u32 (d_button dp + 1) mod d_N dp) then
          b ← slot_balance n i;
          if u64 b <? d_ante dp then pangea_fold n i
          else pangea_bet_ n i (s64 (d_ante dp)) CARDS777_ANTE
        else Some n)
      0 (Z.to_nat (d_N (n_dp n))) n.

(** The players able to post a blind, in order after the button; the others fold. *)
Definition antes_actives (n : node) : option (node * list Z) :=
  for_ (fun i '(n, actives) =>
      let dp := n_dp n in
      let j := u32 (1 + d_button dp + i) mod d_N dp in
      let threshold := match actives with
        | [] => u64 (Z.shiftr (d_bigblind dp) 1 - 1)
        | [_] => u64 (d_bigblind dp - 1)
        | _ => 0
        end in
      b ← slot_balance n j;
      if threshold <? u64 b then Some (n, actives ++ [j])
      else n ← pangea_fold n j; Some (n, actives))
    0 (Z.to_nat (d_N (n_dp n))) (n, []).

Definition pangea_antes (n : node) : option node :=
  n ← antes_snapshot n;
  n ← antes_foldbroke n;
  n ← antes_ante n;
  '(n, actives) ← antes_actives n;
  match actives with
  | a0 :: a1 :: _ =>
      let bigblind := d_bigblind (n_dp n) in
      n ← pangea_bet_ n a0 (s64 (Z.shiftr bigblind 1)) CARDS777_SMALLBLIND;
      let dp := n_dp n in
      let n := n <| n_dp := dp <| d_button := (a0 + d_N dp - 1) mod d_N dp |> |> in
      pangea_bet_ n a1 (s64 bigblind) CARDS777_BIGBLIND
  | _ => Some n
  end.

Definition no_bets (dp : cards777_pubdata) : option bool :=
  for_ (fun i (z : bool) => if z then b ← aget (h_bets (d_hand dp)) i; Some (b =? 0) else Some false)
       0 (Z.to_nat (d_N dp)) true.

Definition pangea_checkantes (n : node) : option node :=
  z ← no_bets (n_dp n);
  if (z : bool) && negb (txid (h_checkprod (n_hand n)) =? 0) then pangea_antes n else Some n.

(** ** Buying in *)

(** The JSON form of an [addfunds] message. *)
Record fundsreq := mk_fundsreq {
  f_amount : Z;
  f_txidstr : option string;
  f_msigaddr : option string;
  f_vout : Z;
}.

Definition str_is (o : option string) (s : string) : bool :=
  match o with Some x => String.eqb x s | None => false end.

(** [inl data] is a message of eight bytes, [inr req] what [cJSON_Parse] makes of
    any other ([None]: not JSON). *)
Definition pangea_addfunds (n : node) (data : list Z + option fundsreq) (senderind : Z)
  : option node :=
  let sp := n_sp n in
  slot ← pangea_slot sp senderind;
  '(sp, amount) ←
    match data with
    | inl bytes => Some (sp, le_int bytes)
    | inr None => Some (sp, 0)
    | inr (Some r) =>
        match f_txidstr r with
        | Some tx =>
            if (0 <? f_amount r) && str_is (f_msigaddr r) (s_multisigaddr sp) then
              if (128 <=? String.length tx)%nat then None
              else
                txs ← aset (s_buyintxids sp) slot tx;
                vouts ← aset (s_buyinvouts sp) slot (s32 (f_vout r));
                amounts ← aset (s_buyinamounts sp) slot (f_amount r);
                Some (sp <| s_buyintxids := txs |> <| s_buyinvouts := vouts |>
                         <| s_buyinamounts := amounts |>, f_amount r)
            else Some (sp, f_amount r)
        | None => Some (sp, f_amount r)
        end
    end;
  b ← aget (s_balances sp) slot;
  bal ← (if b =? 0 then aset (s_balances sp) slot (s64 amount) else Some (s_balances sp));
  pangea_checkantes (n <| n_sp := sp <| s_balances := bal |> |>).

(** ** Settling a hand *)

Definition n_send (n : node) (cmd : string) (data : list Z) (cardi turni : Z) : option node :=
  pangea_sendcmd n cmd (-1) data cardi turni.

Definition pangea_sendsummary (n : node) : option node :=
  n_send n "summary" (d_summary (n_dp n)) 0 0.

(** The pots, one after the other: node, [won], host rake and Pangea rake. *)
Definition finish_pots (sidepots : list (list Z)) (rows rakemillis : Z) (n : node)
  : option (node * list Z * Z * Z) :=
  for_ (fun j '(n, won, rake, prake) =>
          row ← aget sidepots j;
          '(n, won, prake, r) ← pangea_splitpot won prake row n rakemillis;
          Some (n, won, u64 (rake + r), prake))
       0 (Z.to_nat rows) (n, h_won (n_hand n), 0, 0).

(** Balances by position, and the masks of players who went broke or rebought. *)
Definition finish_changes (n : node) : option (list Z * Z * Z) :=
  for_ (fun j '(balances, busted, rebuy) =>
          b ← slot_balance n j;
          slot ← pangea_slot (n_sp n) j;
          s ← aget (d_snapshot (n_dp n)) slot;
          let balances := balances ++ [b] in
          if (0 <? s) && (b <=? 0) then Some (balances, u16 (Z.lor busted (Z.shiftl 1 j)), rebuy)
          else if (s <=? 0) && (0 <? b) then Some (balances, busted, u16 (Z.lor rebuy (Z.shiftl 1 j)))
          else Some (balances, busted, rebuy))
       0 (Z.to_nat (d_N (n_dp n))) ([], 0, 0).

Definition pangea_finish (now : Z) (n : node) : option node :=
  if negb (h_finished (n_hand n) =? 0) then Some n
  else
    '(sidepots, rows) ← pangea_sidepots (n_dp n) (h_bets (n_hand n));
    c0 ← aget (h_community (n_hand n)) 0;
    let rakemillis := if c0 =? 255 then 0 else d_rakemillis (n_dp n) in
    '(n, won, rake, prake) ← finish_pots sidepots rows rakemillis n;
    let dp := n_dp n in
    let n := n <| n_dp := dp
        <| d_hostrake := u64 (d_hostrake dp + rake) |>
        <| d_pangearake := u64 (d_pangearake dp + prake) |> |> in
    let n := on_hand (fun h => h <| h_won := won |> <| h_hostrake := s64 rake |>
        <| h_pangearake := s64 prake |> <| h_finished := u32 now |>) n in
    '(balances, busted, rebuy) ← finish_changes n;
    let changes := Z.lor (Z.lor (u32 (Z.shiftl rebuy 20)) (u32 (Z.shiftl busted 4)))
                         (Z.land (d_N (n_dp n)) 15) in
    n ← n_summary n CARDS777_CHANGES (le_bytes 4 changes) (concat (le_bytes 8 <$> balances));
    n ← n_summary n CARDS777_RAKES (le_bytes 8 rake) (le_bytes 8 prake);
    if n_slot n =? pangea_slotA (n_sp n) then pangea_sendsummary n else Some n.

(** The result is the node and the return value. *)
Definition pangea_lastman (now : Z) (n : node) : option (node * Z) :=
  if h_betstarted (n_hand n) =? 0 then Some (n, 0)
  else
    '(k, _) ← pangea_actives (n_dp n);
    if k <=? 1 then
      if negb (h_finished (n_hand n) =? 0) then Some (n, 1)
      else n ← pangea_finish now n; Some (n, 1)
    else Some (n, 0).

(** ** Turns *)

(** [dp->hand.snapshot[0..N-1] = dp->hand.bets[0..N-1]]. *)
Definition snapshot_bets (n : node) : option node :=
  snap ← for_ (fun i snap => b ← aget (h_bets (n_hand n)) i; aset snap i b)
           0 (Z.to_nat (d_N (n_dp n))) (h_snapshot (n_hand n));
  Some (on_hand (fun h => h <| h_snapshot := snap |>) n).

(** Largest bet, from zero up; amounts are compared as unsigned. *)
Definition max_bet (dp : cards777_pubdata) : option Z :=
  for_ (fun i betsize => b ← aget (h_bets (d_hand dp)) i;
          Some (if betsize <? u64 b then u64 b else betsize))
       0 (Z.to_nat (d_N dp)) 0.

Definition set_snapshot (n : node) (i x : Z) : option node :=
  snap ← aset (h_snapshot (n_hand n)) i x;
  Some (on_hand (fun h => h <| h_snapshot := snap |>) n).

(** The [N+1] amounts sent with turn messages. *)
Definition snapshot_data (n : node) : list Z :=
  concat (le_bytes 8 <$> take (Z.to_nat (d_N (n_dp n)) + 1) (h_snapshot (n_hand n))).

Definition pangea_turn (n : node) (turni cardi senderind : Z) : option node :=
  ts ← aset (h_turnis (n_hand n)) senderind (s8 turni);
  let n := on_hand (fun h => h <| h_turnis := ts |>) n in
  if negb (senderind =? 0) then Some n
  else
    let n := on_hand (fun h => h <| h_cardi := u32 cardi |> <| h_betstarted := 1 |>
                                 <| h_undergun := u8 turni |>) n in
    if n_slot n =? pangea_slotA (n_sp n) then Some n
    else
      n ← pangea_checkantes n;
      n ← snapshot_bets n;
      betsize ← max_bet (n_dp n);
      n ← set_snapshot n (d_N (n_dp n)) (s64 betsize);
      n_send n "confirmturn" (snapshot_data n) cardi turni.

Definition pangea_startbets (n : node) (cardi : Z) : option node :=
  let N := d_N (n_dp n) in
  if N =? 0 then None
  else
    let n := on_hand (fun h => h
        <| h_betstarted := (if h_betstarted h =? 0 then 1 else u32 (h_betstarted h + 1)) |>
        <| h_numactions := 0 |> <| h_cardi := u32 cardi |>
        <| h_actions := replicate 9 0 |> <| h_turnis := replicate 9 (-1) |>
        <| h_undergun := u8 (u32 (d_button (n_dp n) + 3) mod N) |>) n in
    n ← (if N * 2 <? cardi then snapshot_bets n else pangea_checkantes n);
    n ← set_snapshot n N (h_betsize (n_hand n));
    n_send n "turn" (snapshot_data n) cardi (h_undergun (n_hand n)).

(** Skip the players who can no longer act, counting them as having acted: the
    hand and the next player. *)
Fixpoint skip_idle (N i j : Z) (k : nat) (h : cards777_handinfo) : option (cards777_handinfo * Z) :=
  match k with
  | O => Some (h, j)
  | S k =>
      let j := Z.rem (h_undergun h + i) N in
      st ← aget (h_betstatus h) j;
      if (st =? CARDS777_FOLD) || (st =? CARDS777_ALLIN) then
        acts ← aset (h_actions h) j st;
        skip_idle N (i + 1) j k
          (h <| h_actions := acts |> <| h_numactions := u8 (h_numactions h + 1) |>)
      else Some (h, j)
  end.

(** First community card still unknown. *)
Fixpoint unknown_from (community : list Z) (i : Z) (k : nat) : option Z :=
  match k with
  | O => Some i
  | S k => c ← aget community i; if c =? 255 then Some i else unknown_from community (i + 1) k
  end.

(** The host asks for community card [cardi] to be decoded. *)
Definition send_decoded (n : node) (cardi : Z) : option node :=
  let N := d_N (n_dp n) in
  c ← aget (h_final (n_hand n)) (cardi * N);
  n_send n "decoded" (c ++ replicate (Z.to_nat (32 * (N - 1))) 0) cardi (N - 1).

(** First player from [lastbettor] on who has not folded; the last looked at
    when all have. *)
Fixpoint showdown_first (h : cards777_handinfo) (N i j : Z) (k : nat) : option Z :=
  match k with
  | O => Some j
  | S k =>
      let j := u32 (h_lastbettor h + i) mod N in
      st ← aget (h_betstatus h) j;
      if folded st then showdown_first h N (i + 1) j k else Some j
  end.

(** What the host does when the betting round is over. *)
Definition round_over (n : node) : option node :=
  let N := d_N (n_dp n) in
  let cardi := h_cardi (n_hand n) in
  i ← unknown_from (h_community (n_hand n)) 0 5;
  if i =? 0 then for_ (fun k n => send_decoded n (cardi + k)) 0 3 n
  else if (i =? 3) || (i =? 4) then send_decoded n cardi
  else
    j ← showdown_first (n_hand n) N 0 0 (Z.to_nat N);
    let n := on_hand (fun h => h <| h_undergun := u8 j |>) n in
    n_send n "showdown" (le_bytes 8 (h_betsize (n_hand n))) (N * 2 + 5) (h_undergun (n_hand n)).

(** [amount] is the first eight bytes of the message; -1 is the answer to an
    action out of turn. *)
Definition pangea_action (now : Z) (n : node) (action amount senderind : Z) : option (node * Z) :=
  if negb (senderind =? h_undergun (n_hand n)) then Some (n, -1)
  else
    n ← pangea_bet_ n senderind (s64 amount) CARDS777_CHECK;
    acts ← aset (h_actions (n_hand n)) senderind (s8 action);
    let N := d_N (n_dp n) in
    let n := on_hand (fun h => h <| h_actions := acts |>
        <| h_undergun := u8 (Z.rem (h_undergun h + 1) N) |>
        <| h_numactions := u8 (h_numactions h + 1) |>) n in
    '(n, last) ← pangea_lastman now n;
    if 0 <? last then Some (n, 0)
    else if n_slot n =? pangea_slotA (n_sp n) then
      '(h, j) ← skip_idle N 0 0 (Z.to_nat N) (n_hand n);
      let n := on_hand (fun _ => h <| h_undergun := u8 j |>) n in
      n ← (if h_numactions (n_hand n) <? N
           then n_send n "turn" (snapshot_data n) (h_cardi (n_hand n)) (h_undergun (n_hand n))
           else round_over n);
      Some (n, 0)
    else Some (n, 0).

(** ** The player's own turn *)

(** The bot's decision: [r], [r2] are the two values of [rand() % 100]; the result
    is the amount and the kind of action. *)
Definition pangea_bot_decide (n : node) (betsize r r2 : Z) : option (Z * Z) :=
  let sp := n_sp n in
  let h := n_hand n in
  ind ← pangea_ind sp (n_slot n);
  b ← aget (h_bets h) ind;
  let sum := u64 b in
  '(k, _) ← pangea_actives (n_dp n);
  bal ← aget (s_balances sp) (n_slot n);
  if r <? 1 then Some (u64 bal, CARDS777_ALLIN)
  else
    '(amount, action) ←
      (if betsize =? sum then
         if k =? 0 then None
         else if r <? 100 / k then
           let amount := u64 (h_lastraise h) in
           Some (if r2 <? 10 then u64 (2 * amount) else amount, 1)
         else Some (0, 0)
       else if sum <? betsize then
         let amount := betsize - sum in
         total ← pangea_totalbet (n_dp n);
         if u64 (1 + total) =? 0 then None
         else
           let threshold := u64 (300 * amount) / u64 (1 + total) in
           let k := k + 1 in
           if threshold <? Z.quot r k then
             if (u64 (3 * threshold) <? Z.quot r k) && (amount <? u64 (s64 (h_lastraise h * 2)))
             then Some (u64 (s64 (h_lastraise h * 2)), 2)
             else Some (amount, 1)
           else if (amount <? sum / 10) || (amount <=? SATOSHIDEN) then Some (amount, CARDS777_CALL)
           else Some (0, CARDS777_FOLD)
       else Some (0, 0));
    Some (if u64 bal <? amount then (u64 bal, CARDS777_ALLIN) else (amount, action)).

Definition pangea_bot (n : node) (cardi betsize r r2 : Z) : option (node * Z) :=
  '(amount, action) ← pangea_bot_decide n betsize r r2;
  n ← n_send n "action" (le_bytes 8 amount) cardi action;
  Some (n, amount).

Fixpoint all_turnis (turnis : list Z) (turni i : Z) (k : nat) : option bool :=
  match k with
  | O => Some true
  | S k => t ← aget turnis i; if t =? turni then all_turnis turnis turni (i + 1) k else Some false
  end.

(** A player whose turn is confirmed by the host: a bot acts, a player who has
    folded or is all in passes, anyone else is waited for. *)
Definition confirm_own_turn (now r r2 : Z) (n : node) (cardi betsize : Z) : option node :=
  let sp := n_sp n in
  bot ← aget (s_isbot sp) (n_slot n);
  if negb (bot =? 0) then fst <$> pangea_bot n cardi betsize r r2
  else
    ind ← pangea_ind sp (n_slot n);
    st ← aget (h_betstatus (n_hand n)) ind;
    if (st =? CARDS777_FOLD) || (st =? CARDS777_ALLIN) || negb (p_autofold (n_priv n) =? 0)
    then n_send n "action" (le_bytes 8 0) cardi 0
    else Some (on_hand (fun h => h <| h_userinput_starttime := u32 now |>
                 <| h_cardi := u32 cardi |> <| h_betsize := s64 betsize |>) n).

(** Amounts of 64 bits, as they lie in memory. *)
Fixpoint s64s (n : nat) (data : list Z) : option (list Z) :=
  match n with
  | O => Some []
  | S n => x ← take_exact 8 data; l ← s64s n (drop 8 data); Some (s64 (le_int x) :: l)
  end.

Definition pangea_confirmturn (now r r2 : Z) (n : node) (turni cardi : Z) (data : list Z)
    (senderind : Z) : option node :=
  let N := d_N (n_dp n) in
  let slotA := pangea_slotA (n_sp n) in
  '(n, betsize) ←
    (if (senderind =? 0) && negb (n_slot n =? slotA) then
       if (length (h_snapshot (n_hand n)) <? Z.to_nat (N + 1))%nat then None else
       snap ← s64s (Z.to_nat (N + 1)) data;
       let n := on_hand (fun h => h <| h_undergun := u8 turni |> <| h_cardi := u32 cardi |>
          <| h_snapshot := snap ++ drop (Z.to_nat (N + 1)) (h_snapshot h) |>) n in
       betsize ← max_bet (n_dp n);
       Some (on_hand (fun h => h <| h_betsize := s64 betsize |>) n, betsize)
     else Some (n, 0));
  ts ← aset (h_turnis (n_hand n)) senderind (s8 turni);
  let n := on_hand (fun h => h <| h_turnis := ts |>) n in
  all ← all_turnis (h_turnis (n_hand n)) turni 0 (Z.to_nat N);
  '(n, betsize) ←
    (if (n_slot n =? slotA) && (all : bool) then
       betsize ← max_bet (n_dp n);
       n ← set_snapshot n N (s64 betsize);
       let n := on_hand (fun h => h <| h_betsize := s64 betsize |>) n in
       n ← (if negb (senderind =? 0)
            then n_send n "confirmturn" (snapshot_data n) (h_cardi (n_hand n)) (h_undergun (n_hand n))
            else Some n);
       Some (n, betsize)
     else Some (n, betsize));
  if senderind =? 0 then
    ind ← pangea_ind (n_sp n) (n_slot n);
    if h_undergun (n_hand n) =? ind then confirm_own_turn now r r2 n cardi betsize else Some n
  else Some n.

(** ** Summaries of the other players *)

(** [equal] is the comparison of the two printed logs, made when the bytes
    differ; [other] is [pangea_anotherhand], which starts the next hand. *)
Definition pangea_gotsummary (equal : list Z -> list Z -> bool) (other : node -> option node)
    (n : node) (data : list Z) (datalen senderind : Z) : option node :=
  let dp := n_dp n in
  matched ← (if datalen =? d_summarysize dp then
               data ← take_exact (Z.to_nat datalen) data;
               Some (bool_decide (d_summary dp = data) || equal (d_summary dp) data)
             else Some false);
  let bit := Z.shiftl 1 senderind in
  let n := n <| n_dp := (if (matched : bool) then dp <| d_summaries := u64 (Z.lor (d_summaries dp) bit) |>
                         else dp <| d_mismatches := u64 (Z.lor (d_mismatches dp) bit) |>) |> in
  n ← (if (senderind =? 0) && negb (n_slot n =? pangea_slotA (n_sp n))
       then pangea_sendsummary n else Some n);
  let dp := n_dp n in
  if (Z.lor (d_mismatches dp) (d_summaries dp) =? Z.shiftl 1 (d_N dp) - 1) && (n_slot n =? 0)
  then other (n <| n_dp := dp <| d_mismatches := 0 |> <| d_summaries := 0 |> |>)
  else Some n.

(** ** Showdown *)

(** -1 if somebody's rank is better, else whether the player has a rank. *)
Definition pangea_myrank (dp : cards777_pubdata) (senderind : Z) : option Z :=
  myrank ← aget (h_handranks (d_hand dp)) senderind;
  better ← for_ (fun i (b : bool) =>
      if b then Some true
      else if i =? senderind then Some false
      else r ← aget (h_handranks (d_hand dp)) i; Some (myrank <? r))
    0 (Z.to_nat (d_N dp)) false;
  Some (if (better : bool) then -1 else if myrank =? 0 then 0 else 1).

(** Next player to be queried; [None] inside: all have been. *)
Fixpoint showdown_next (N : Z) (k : nat) (h : cards777_handinfo)
  : option (cards777_handinfo * bool) :=
  match k with
  | O => Some (h, true)
  | S k =>
      let h := h <| h_undergun := u8 (Z.rem (h_undergun h + 1) N) |> in
      if h_undergun h =? h_lastbettor h then Some (h, false)
      else st ← aget (h_betstatus h) (h_undergun h);
           if folded st then showdown_next N k h else Some (h, true)
  end.

(** This node shows its hole cards, or folds them when it mucks a losing hand. *)
Definition showdown_show (n : node) (turni cardi : Z) : option node :=
  ind ← pangea_ind (n_sp n) (n_slot n);
  st ← aget (h_betstatus (n_hand n)) ind;
  act ← aget (h_actions (n_hand n)) ind;
  let muck := negb (p_automuck (n_priv n) =? 0) in
  if negb (folded st) &&
     ((negb muck && negb (act =? CARDS777_SENTCARDS)) ||
      ((turni =? ind) && (h_lastbettor (n_hand n) =? ind)))
  then
    rank ← pangea_myrank (n_dp n) ind;
    if muck && (rank <? 0) then n_send n "action" (le_bytes 8 0) cardi CARDS777_FOLD
    else
      c0 ← aget (p_holecards (n_priv n)) 0; c1 ← aget (p_holecards (n_priv n)) 1;
      i0 ← aget (p_cardis (n_priv n)) 0; i1 ← aget (p_cardis (n_priv n)) 1;
      n ← n_send n "faceup" c0 i0 ind;
      n ← n_send n "faceup" c1 i1 ind;
      acts ← aset (h_actions (n_hand n)) ind CARDS777_SENTCARDS;
      Some (on_hand (fun h => h <| h_actions := acts |>) n)
  else Some n.

Definition pangea_showdown (now : Z) (n : node) (turni cardi senderind : Z) : option node :=
  n ← showdown_show n turni cardi;
  '(n, last) ← pangea_lastman now n;
  if 0 <? last then Some n
  else if (n_slot n =? pangea_slotA (n_sp n)) && negb (senderind =? 0) then
    let N := d_N (n_dp n) in
    '(h, go) ← showdown_next N (Z.to_nat N) (n_hand n);
    let n := on_hand (fun _ => h) n in
    if (go : bool) then
      n_send n "showdown" (le_bytes 8 (h_betsize (n_hand n))) cardi (h_undergun (n_hand n))
    else Some n
  else Some n.

(** ** The user's command *)

(** Amount and action of a command string; [jamount] is the amount typed. *)
Definition input_amount (n : node) (actionstr : string) (sum jamount : Z) : option (Z * Z) :=
  let h := n_hand n in
  if String.eqb actionstr "allin" then
    b ← aget (s_balances (n_sp n)) (s_myslot (n_sp n)); Some (u64 b, CARDS777_ALLIN)
  else if String.eqb actionstr "bet" then Some (jamount, 1)
  else
    let checkcall := String.eqb actionstr "check" || String.eqb actionstr "call" in
    if u64 (h_betsize h) =? sum then
      if checkcall then Some (0, 0)
      else if String.eqb actionstr "raise" then
        let amount := u64 (h_lastraise h) in
        Some (if amount <? jamount then jamount else amount, 1)
      else Some (0, 0)
    else if checkcall then Some (u64 (h_betsize h - sum), 1)
    else if String.eqb actionstr "raise" then
      let amount := u64 (h_betsize h - sum) in
      let amount := if amount <? u64 (h_lastraise h) then u64 (h_lastraise h) else amount in
      Some (if amount <? jamount then jamount else amount, 2)
    else Some (0, 0).

Inductive input_result := NotYourTurn | IllegalAction | Submitted.

Definition input_commands : list string :=
  ["check"; "call"; "bet"; "raise"; "allin"; "fold"]%string.

(** [pangea_input] on the table already found, with an action given. *)
Definition pangea_input (n : node) (actionstr : string) (jamount : Z)
  : option (node * input_result) :=
  let sp := n_sp n in
  ind ← pangea_ind sp (s_myslot sp);
  if negb (h_undergun (n_hand n) =? ind) || (h_betsize (n_hand n) =? 0)
  then Some (n, NotYourTurn)
  else if bool_decide (actionstr ∈ input_commands) then
    b ← aget (h_bets (n_hand n)) ind;
    '(amount, action) ← input_amount n actionstr (u64 b) jamount;
    bal ← aget (s_balances sp) (s_myslot sp);
    let '(amount, action) := if u64 bal <? amount then (u64 bal, CARDS777_ALLIN) else (amount, action) in
    n ← n_send n "action" (le_bytes 8 amount) (h_cardi (n_hand n)) action;
    Some (n, Submitted)
  else Some (n, IllegalAction).
