(* ===== verification/Betting.v ===== *)
(** * Betting: what a bet, a fold and the blinds do to the chips

    Theorems about [pangea_bet], [pangea_fold] and [pangea_antes] of Funds.  The
    chips in play are those in the seats' balances and those bet; [betting]
    says what every betting operation leaves alone. *)

From S2P Require Import Prelude Bits GF256 Interp GFShare Cards Table Summary Pots Funds.

Definition chips (n : node) : Z := sumZ (s_balances (n_sp n)) + sumZ (h_bets (n_hand n)).

Definition status_of (h : cards777_handinfo) (i : Z) : Z := nth (Z.to_nat i) (h_betstatus h) 0.

Definition log_size (n : node) : Z := Z.of_nat (length (d_summary (n_dp n))).

(** A table with no debts whose chips cannot overflow a 64-bit integer. *)
Record funds_ok (n : node) : Prop := mk_funds_ok {
  fo_table : table_ok (n_sp n);
  fo_N : 1 <= d_N (n_dp n) <= 9;
  fo_active : s_numactive (n_sp n) = d_N (n_dp n);
  fo_hand : hand_ok (n_hand n);
  fo_balances : Forall (Z.le 0) (s_balances (n_sp n));
  fo_bets : Forall (Z.le 0) (h_bets (n_hand n));
  fo_chips : chips n < 2 ^ 61;
  fo_lastraise : 0 <= h_lastraise (n_hand n) < 2 ^ 61;
  fo_betsize : 0 <= h_betsize (n_hand n) < 2 ^ 61;
}.

(** Two nodes that differ in chips, in the bookkeeping of the betting round and
    in at most [k] more bytes of log; who has folded stays folded. *)
Record betting (k : Z) (n n' : node) : Prop := mk_betting {
  bt_sp : n_sp n' = n_sp n <| s_balances := s_balances (n_sp n') |>;
  bt_dp : n_dp n' = n_dp n
            <| d_button := d_button (n_dp n') |> <| d_hand := n_hand n' |>
            <| d_summary := d_summary (n_dp n') |>;
  bt_priv : n_priv n' = n_priv n;
  bt_slot : n_slot n' = n_slot n;
  bt_out : n_out n' = n_out n;
  bt_ranks : h_handranks (n_hand n') = h_handranks (n_hand n);
  bt_won : h_won (n_hand n') = h_won (n_hand n);
  bt_finished : h_finished (n_hand n') = h_finished (n_hand n);
  bt_chips : chips n' = chips n;
  bt_fold : forall i, status_of (n_hand n) i = CARDS777_FOLD -> status_of (n_hand n') i = CARDS777_FOLD;
  bt_bets : forall i, 0 <= i -> (forall j, 0 <= j < d_N (n_dp n) -> seat (n_sp n) j <> i) ->
    bet_of (h_bets (n_hand n')) i = bet_of (h_bets (n_hand n)) i;
  bt_log : log_size n' <= log_size n + k;
}.

Lemma sp_eta sp : sp = sp <| s_balances := s_balances sp |>.
Proof. by destruct sp. Qed.

Lemma dp_eta dp : dp = dp <| d_button := d_button dp |>
  <| d_hand := d_hand dp |> <| d_summary := d_summary dp |>.
Proof. by destruct dp. Qed.

Lemma betting_refl n : betting 0 n n.
Proof. split; try done; try lia; [apply sp_eta|apply dp_eta]. Qed.

Lemma betting_trans k1 k2 n1 n2 n3 : betting k1 n1 n2 -> betting k2 n2 n3 -> betting (k1 + k2) n1 n3.
Proof.
  intros [] []. split; try congruence; try lia.
  - rewrite bt_sp1, bt_sp0 at 1. done.
  - rewrite bt_dp1, bt_dp0 at 1. done.
  - auto.
  - intros i Hi Hn. rewrite bt_bets1, bt_bets0; [done|done|done|done|].
    rewrite bt_dp0, bt_sp0. exact Hn.
Qed.

Lemma betting_weaken k k' n n' : k <= k' -> betting k n n' -> betting k' n n'.
Proof. intros Hk []. split; try done. lia. Qed.

Lemma betting_N k n n' : betting k n n' -> d_N (n_dp n') = d_N (n_dp n).
Proof. intros []. by rewrite bt_dp0. Qed.

Lemma betting_slot k n n' i : betting k n n' -> pangea_slot (n_sp n') i = pangea_slot (n_sp n) i.
Proof. intros []. by rewrite bt_sp0. Qed.

Lemma betting_seat k n n' i : betting k n n' -> seat (n_sp n') i = seat (n_sp n) i.
Proof. intros H. unfold seat. by rewrite (betting_slot k n n' i H). Qed.

Lemma betting_bigblind k n n' : betting k n n' -> d_bigblind (n_dp n') = d_bigblind (n_dp n).
Proof. intros []. by rewrite bt_dp0. Qed.

Lemma n_summary_room n type a0 a1 :
  log_size n + 1 + Z.of_nat (length a0) + Z.of_nat (length a1) <= SUMMARYMAX ->
  n_summary n type a0 a1 =
    Some (n <| n_dp := n_dp n <| d_summary := d_summary (n_dp n) ++ u8 type :: a0 ++ a1 |> |>).
Proof.
  intros H. unfold n_summary, pangea_summary, log_size in *.
  assert (Z.of_nat (length (d_summary (n_dp n) ++ u8 type :: a0 ++ a1)) =
    Z.of_nat (length (d_summary (n_dp n))) + 1 + Z.of_nat (length a0) + Z.of_nat (length a1)) as E
    by (rewrite length_app; cbn [length]; rewrite length_app; lia).
  rewrite E. destruct (Z.ltb_spec SUMMARYMAX (Z.of_nat (length (d_summary (n_dp n))) + 1 +
    Z.of_nat (length a0) + Z.of_nat (length a1))); [lia|done].
Qed.

Lemma le_sum l i : Forall (Z.le 0) l -> 0 <= nth (Z.to_nat i) l 0 <= sumZ l.
Proof.
  intros H. rewrite nth_lookup. destruct (l !! Z.to_nat i) as [x|] eqn:E; simpl.
  - split; [apply (Forall_lookup_1 _ _ _ _ H E)|by eapply sumZ_lookup_le].
  - pose proof (sumZ_nonneg l H). lia.
Qed.

Lemma funds_balance n i : funds_ok n -> 0 <= balance (n_sp n) i /\ balance (n_sp n) i <= chips n < 2 ^ 61.
Proof.
  intros []. unfold balance, chips in *. pose proof (le_sum _ i fo_balances0).
  pose proof (sumZ_nonneg _ fo_bets0). lia.
Qed.

Lemma funds_bet n i j : funds_ok n -> 0 <= bet_of (h_bets (n_hand n)) i /\
  bet_of (h_bets (n_hand n)) i + balance (n_sp n) j <= chips n < 2 ^ 61.
Proof.
  intros []. unfold balance, bet_of, chips in *. pose proof (le_sum _ i fo_bets0).
  pose proof (le_sum _ j fo_balances0). lia.
Qed.

Lemma funds_seat n i : funds_ok n -> 0 <= i < d_N (n_dp n) ->
  pangea_slot (n_sp n) i = Some (seat (n_sp n) i) /\ 0 <= seat (n_sp n) i < 9.
Proof. intros [] Hi. apply seat_spec; [done|lia]. Qed.

Lemma funds_status n i : funds_ok n -> 0 <= i < 9 ->
  aget (h_betstatus (n_hand n)) i = Some (status_of (n_hand n) i).
Proof. intros [] Hi. destruct fo_hand0. apply aget_nth. lia. Qed.

Lemma funds_aget_bet n i : funds_ok n -> 0 <= i < 9 ->
  aget (h_bets (n_hand n)) i = Some (bet_of (h_bets (n_hand n)) i).
Proof. intros [] Hi. destruct fo_hand0. apply aget_nth. lia. Qed.

Lemma funds_aget_balance n i : funds_ok n -> 0 <= i < 9 ->
  aget (s_balances (n_sp n)) i = Some (balance (n_sp n) i).
Proof. intros [] Hi. destruct fo_table0. apply aget_nth. lia. Qed.

Lemma funds_slot_balance n i : funds_ok n -> 0 <= i < d_N (n_dp n) ->
  slot_balance n i = Some (balance (n_sp n) (seat (n_sp n) i)).
Proof.
  intros Hok Hi. unfold slot_balance. destruct (funds_seat n i Hok Hi) as [-> Hs].
  cbn [mbind option_bind]. by apply funds_aget_balance.
Qed.

(** Keeping [funds_ok] through a betting operation. *)
Lemma funds_ok_betting k n n' : funds_ok n -> betting k n n' -> hand_ok (n_hand n') ->
  Forall (Z.le 0) (s_balances (n_sp n')) -> length (s_balances (n_sp n')) = 9%nat ->
  Forall (Z.le 0) (h_bets (n_hand n')) ->
  0 <= h_lastraise (n_hand n') < 2 ^ 61 -> 0 <= h_betsize (n_hand n') < 2 ^ 61 -> funds_ok n'.
Proof.
  intros [] Hb Hh Hbal Lbal Hbets Hl Hs. pose proof (betting_N k n n' Hb) as HN. destruct Hb.
  split; try done; try (rewrite HN; done).
  - rewrite bt_sp0. destruct fo_table0. by split.
  - rewrite HN, bt_sp0. done.
  - lia.
Qed.

(** ** Folding *)

Lemma status_set h i (x : Z) j : length (h_betstatus h) = 9%nat -> 0 <= i < 9 -> 0 <= j ->
  nth (Z.to_nat j) (<[Z.to_nat i := x]> (h_betstatus h)) 0 = if j =? i then x else status_of h j.
Proof.
  intros Hl Hi Hj. unfold status_of. rewrite !nth_lookup. destruct (Z.eqb_spec j i) as [->|Hne].
  - by rewrite list_lookup_insert_eq by lia.
  - by rewrite list_lookup_insert_ne by lia.
Qed.

Lemma pangea_fold_spec n i : funds_ok n -> 0 <= i < d_N (n_dp n) -> log_size n + 10 <= SUMMARYMAX ->
  exists n', pangea_fold n i = Some n' /\ funds_ok n' /\ betting 10 n n' /\
    s_balances (n_sp n') = s_balances (n_sp n) /\ h_bets (n_hand n') = h_bets (n_hand n) /\
    h_betsize (n_hand n') = h_betsize (n_hand n) /\ d_button (n_dp n') = d_button (n_dp n) /\
    (forall j, 0 <= j -> status_of (n_hand n') j = if j =? i then CARDS777_FOLD else status_of (n_hand n) j).
Proof.
  intros Hok Hi Hlog. pose proof Hok as []. pose proof fo_hand0 as [].
  unfold pangea_fold. rewrite !aset_in_range by lia. cbn [mbind option_bind].
  rewrite funds_aget_bet by (done || lia). cbn [mbind option_bind].
  rewrite n_summary_room by (unfold log_size in *; simpl; lia).
  eexists. split; [reflexivity|].
  match goal with |- funds_ok ?m /\ _ => set (n' := m) end.
  assert (betting 10 n n') as Hb.
  { split; try done.
    - apply sp_eta.
    - intros j Hj. unfold n', status_of. simpl.
      destruct (decide (Z.to_nat j = Z.to_nat i)) as [E|E].
      + rewrite E, nth_lookup, list_lookup_insert_eq by lia. done.
      + rewrite nth_lookup, list_lookup_insert_ne by lia. rewrite <- nth_lookup. done.
    - unfold n', log_size. simpl. rewrite length_app. simpl. lia. }
  split; [|split; [done|]].
  - apply (funds_ok_betting 10 n); try done; [|apply ok_balances_len, fo_table0].
    split; try done; simpl; by rewrite length_insert.
  - do 4 (split; [done|]). intros j Hj. apply status_set; (done || lia).
Qed.

(** ** Betting *)

(** A bet between one and two minimal raises over a smaller current bet is
    cut down to the minimal raise. *)
Definition amount_due (h : cards777_handinfo) (bet : Z) : Z :=
  if (h_betsize h <? bet) && (h_lastraise h <? bet) && (bet <? 2 * h_lastraise h)
  then h_lastraise h else bet.

Lemma amount_due_range h bet : 0 <= bet -> 0 <= h_lastraise h -> 0 <= amount_due h bet <= bet.
Proof. intros. unfold amount_due. case_cmp; simpl; lia. Qed.

Definition goes_allin (n : node) (player bet : Z) : bool :=
  (0 <? bet) && (balance (n_sp n) (seat (n_sp n) player) <=? bet).

Lemma bet_amount_spec n player bet action : funds_ok n -> 0 <= player < d_N (n_dp n) ->
  0 <= bet < 2 ^ 61 -> exists a,
  bet_amount n player bet action =
    (if goes_allin n player bet
     then Some (on_hand (fun h => h <| h_betstatus := <[Z.to_nat player := CARDS777_ALLIN]> (h_betstatus h) |>) n,
                balance (n_sp n) (seat (n_sp n) player), CARDS777_ALLIN)
     else Some (n, amount_due (n_hand n) bet, a)) /\ (a = action \/ a = CARDS777_RAISE).
Proof.
  intros Hok Hp Hb. pose proof Hok as []. unfold bet_amount, goes_allin.
  change (2 ^ 61) with 2305843009213693952 in *.
  rewrite s64_small by lia. fold (amount_due (n_hand n) bet).
  assert (exists a, (if (h_betsize (n_hand n) <? bet) && (h_lastraise (n_hand n) <? bet)
      && (bet <? 2 * h_lastraise (n_hand n))
    then Some (n, h_lastraise (n_hand n), CARDS777_RAISE) else Some (n, bet, action)) =
    Some (n, amount_due (n_hand n) bet, a) /\ (a = action \/ a = CARDS777_RAISE)) as (a & Ea & Ha).
  { unfold amount_due. destruct (_ && _); eexists; (split; [reflexivity|auto]). }
  exists a. split; [|done].
  destruct (Z.ltb_spec 0 bet); cbn [andb mbind option_bind]; [|done].
  destruct (funds_seat n player Hok Hp) as [-> Hs]. cbn [mbind option_bind].
  rewrite funds_aget_balance by done. cbn [mbind option_bind].
  destruct (Z.leb_spec (balance (n_sp n) (seat (n_sp n) player)) bet); [|done].
  destruct fo_hand0. rewrite aset_in_range by lia. done.
Qed.

(** Two hands that differ only in the bookkeeping of raises. *)
Definition raised (h h' : cards777_handinfo) : Prop :=
  h' = h <| h_lastraise := h_lastraise h' |> <| h_numactions := h_numactions h' |>
         <| h_lastbettor := h_lastbettor h' |> <| h_betsize := h_betsize h' |>.

Lemma raised_refl h : raised h h.
Proof. by destruct h. Qed.

Lemma raised_trans h1 h2 h3 : raised h1 h2 -> raised h2 h3 -> raised h1 h3.
Proof. unfold raised. intros -> E. rewrite E at 1. done. Qed.

(** The first test of [bet_raise]. *)
Lemma raise_step1 h bet action : 0 <= bet < 2 ^ 61 -> 0 <= h_lastraise h < 2 ^ 61 ->
  action <> CARDS777_FOLD -> exists h' a',
  (if s64 (2 * h_lastraise h) <=? bet then
      (h <| h_lastraise := bet |> <| h_numactions := 0 |>,
       if action =? CARDS777_CHECK then CARDS777_FULLRAISE else action)
    else (h, action)) = (h', a') /\ raised h h' /\ h_betsize h' = h_betsize h /\
    0 <= h_lastraise h' < 2 ^ 61 /\ a' <> CARDS777_FOLD /\ (a' = CARDS777_ALLIN <-> action = CARDS777_ALLIN).
Proof.
  intros Hb Hl Ha. do 2 eexists. split; [apply surjective_pairing|].
  unfold CARDS777_FOLD, CARDS777_ALLIN, CARDS777_CHECK, CARDS777_FULLRAISE in *.
  destruct (_ <=? bet); cbn [fst snd].
  - split; [by destruct h|]. split; [done|]. split; [done|]. case_cmp; lia.
  - split; [apply raised_refl|]. done.
Qed.

Lemma raise_step2 h player sum action : 0 <= sum < 2 ^ 61 -> 0 <= h_lastraise h < 2 ^ 61 ->
  0 <= h_betsize h < 2 ^ 61 -> action <> CARDS777_FOLD -> exists h' a',
  (if u64 (h_betsize h) <? sum then
      let h := h <| h_numactions := 0 |> <| h_betsize := s64 sum |> <| h_lastbettor := player |> in
      if (u64 (h_lastraise h) <? sum) && (action =? CARDS777_ALLIN)
      then (h <| h_lastraise := s64 sum |>, action)
      else (h, if action =? CARDS777_CHECK then CARDS777_BET else action)
    else (h, action)) = (h', a') /\ raised h h' /\ h_betsize h' = Z.max (h_betsize h) sum /\
    0 <= h_lastraise h' < 2 ^ 61 /\ a' <> CARDS777_FOLD /\ (a' = CARDS777_ALLIN <-> action = CARDS777_ALLIN).
Proof.
  intros Hs Hl Hz Ha. change (2 ^ 61) with 2305843009213693952 in *.
  rewrite (u64_small (h_betsize h)), (s64_small sum) by lia.
  unfold CARDS777_FOLD, CARDS777_ALLIN, CARDS777_CHECK, CARDS777_BET in *.
  destruct (Z.ltb_spec (h_betsize h) sum).
  - rewrite Z.max_r by lia. cbv zeta. destruct (_ && _).
    + do 2 eexists. split; [reflexivity|]. split; [by destruct h|]. do 2 (split; [done|]). done.
    + do 2 eexists. split; [reflexivity|]. split; [by destruct h|]. do 2 (split; [done|]). case_cmp; lia.
  - rewrite Z.max_l by lia. do 2 eexists. split; [reflexivity|]. split; [apply raised_refl|]. done.
Qed.

Lemma bet_raise_spec h player sum bet action :
  0 <= bet < 2 ^ 61 -> 0 <= sum < 2 ^ 61 -> sum + bet < 2 ^ 61 -> action <> CARDS777_FOLD ->
  0 <= h_lastraise h < 2 ^ 61 -> 0 <= h_betsize h < 2 ^ 61 ->
  exists h' a', bet_raise h player sum bet action = (h', a') /\ raised h h' /\
    h_betsize h' = Z.max (h_betsize h) (sum + bet) /\ 0 <= h_lastraise h' < 2 ^ 61 /\
    a' <> CARDS777_FOLD /\ (a' = CARDS777_ALLIN <-> action = CARDS777_ALLIN).
Proof.
  intros Hb Hs Hsb Ha Hl Hz. unfold bet_raise.
  destruct (raise_step1 h bet action Hb Hl Ha) as (h1 & a1 & -> & R1 & B1 & L1 & F1 & A1).
  rewrite (u64_small (sum + bet)) by (change (2 ^ 61) with 2305843009213693952 in *; lia).
  destruct (raise_step2 h1 player (sum + bet) a1) as (h2 & a2 & E2 & R2 & B2 & L2 & F2 & A2);
    [lia|done|by rewrite B1|done|].
  cbv zeta in E2 |- *. rewrite E2.
  do 2 eexists. split; [reflexivity|]. split; [by eapply raised_trans|]. split; [by rewrite B2, B1|].
  split; [done|]. rewrite <- A1, <- A2. clear - F2.
  unfold CARDS777_FOLD, CARDS777_ALLIN, CARDS777_CHECK, CARDS777_CALL in *.
  destruct (0 <? bet); cbn [andb]; case_cmp; lia.
Qed.

Lemma balance_set sp i x j : length (s_balances sp) = 9%nat -> 0 <= i < 9 -> 0 <= j ->
  nth (Z.to_nat j) (<[Z.to_nat i := x]> (s_balances sp)) 0 = if j =? i then x else balance sp j.
Proof.
  intros Hl Hi Hj. unfold balance. rewrite !nth_lookup. destruct (Z.eqb_spec j i) as [->|Hne].
  - by rewrite list_lookup_insert_eq by lia.
  - by rewrite list_lookup_insert_ne by lia.
Qed.

Lemma sumZ_set (l : list Z) i x : 0 <= i < Z.of_nat (length l) ->
  sumZ (<[Z.to_nat i := x]> l) = sumZ l - nth (Z.to_nat i) l 0 + x.
Proof.
  intros Hi. destruct (lookup_lt_is_Some_2 l (Z.to_nat i)) as [y Hy]; [lia|].
  by rewrite (sumZ_insert _ _ _ y), (nth_lookup_Some _ _ _ _ Hy) by done.
Qed.

Lemma bet_move_spec n player bet : funds_ok n -> 0 <= player < d_N (n_dp n) ->
  let slot := seat (n_sp n) player in
  0 <= bet <= balance (n_sp n) slot ->
  exists n', bet_move n player bet = Some n' /\ funds_ok n' /\ betting 0 n n' /\
    s_balances (n_sp n') = <[Z.to_nat slot := balance (n_sp n) slot - bet]> (s_balances (n_sp n)) /\
    h_bets (n_hand n') = <[Z.to_nat slot := bet_of (h_bets (n_hand n)) slot + bet]> (h_bets (n_hand n)) /\
    h_betstatus (n_hand n') = h_betstatus (n_hand n) /\
    h_betsize (n_hand n') = h_betsize (n_hand n).
Proof.
  intros Hok Hp slot Hb. destruct (funds_seat n player Hok Hp) as [Es Hs]. fold slot in Es, Hs.
  pose proof (funds_bet n slot slot Hok) as Hbet. pose proof Hok as [].
  change (2 ^ 61) with 2305843009213693952 in *.
  pose proof (ok_balances_len _ fo_table0). pose proof (ho_bets _ fo_hand0).
  unfold bet_move. rewrite Es. cbn [mbind option_bind].
  rewrite funds_aget_balance, funds_aget_bet by done. cbn [mbind option_bind].
  rewrite !aset_in_range by lia. cbn [mbind option_bind]. rewrite !s64_small by lia.
  eexists. split; [reflexivity|].
  match goal with |- funds_ok ?m /\ _ => set (n' := m) end.
  assert (betting 0 n n') as Hbt.
  { split; try done.
    - unfold chips, n'. simpl. change (h_bets (d_hand (n_dp n))) with (h_bets (n_hand n)).
      rewrite !sumZ_set by lia. unfold balance, bet_of. lia.
    - intros i Hi Hn. unfold n', bet_of. simpl. rewrite nth_insert_other; [done|done|lia|].
      intros ->. by apply (Hn player).
    - unfold n', log_size. simpl. lia. }
  split; [|done].
  apply (funds_ok_betting 0 n); try done.
  - destruct fo_hand0. split; try done. unfold n'. simpl. by rewrite length_insert.
  - unfold n'. simpl. apply Forall_insert; [done|lia].
  - unfold n'. simpl. by rewrite length_insert.
  - unfold n'. simpl. apply Forall_insert; [done|lia].
Qed.

(** The bookkeeping of a bet and its log entry, before the chips move. *)
Lemma bet_log_spec n player h' action bet : funds_ok n -> raised (n_hand n) h' ->
  0 <= h_lastraise h' < 2 ^ 61 -> 0 <= h_betsize h' < 2 ^ 61 -> log_size n + 10 <= SUMMARYMAX ->
  exists n', n_summary (on_hand (fun _ => h') n) action (le_bytes 1 player) (le_bytes 8 bet) = Some n' /\
    funds_ok n' /\ betting 10 n n' /\ n_sp n' = n_sp n /\ h_bets (n_hand n') = h_bets (n_hand n) /\
    h_betstatus (n_hand n') = h_betstatus (n_hand n) /\ h_betsize (n_hand n') = h_betsize h' /\
    d_N (n_dp n') = d_N (n_dp n).
Proof.
  intros Hok Hr Hl Hz Hlog. pose proof Hok as [].
  rewrite n_summary_room by (unfold log_size in *; simpl; lia).
  eexists. split; [reflexivity|].
  match goal with |- funds_ok ?m /\ _ => set (n' := m) end.
  assert (n_hand n' = h') as Eh by done.
  assert (betting 10 n n') as Hb.
  { split; try (by rewrite Eh, Hr); try done.
    - apply sp_eta.
    - unfold chips. by rewrite Eh, Hr.
    - unfold n', log_size. simpl. rewrite length_app. simpl. lia. }
  split; [|rewrite Eh, Hr; done].
  apply (funds_ok_betting 10 n); try done.
  - rewrite Eh, Hr. destruct fo_hand0. by split.
  - apply ok_balances_len, fo_table0.
  - by rewrite Eh, Hr.
Qed.

(** Chips asked for by a bet, after the all-in and minimal-raise rules. *)
Definition bet_due (n : node) (player bet : Z) : Z :=
  if goes_allin n player bet then balance (n_sp n) (seat (n_sp n) player)
  else amount_due (n_hand n) bet.

(** What a bet does, by cases: a player out of the hand or all in does nothing; a
    bet short of the current one folds; any other bet moves the chips due from
    the balance at the player's seat to the bet under the seat's number. *)
Definition bet_outcome (n : node) (player bet : Z) (n' : node) (r : Z) : Prop :=
  let slot := seat (n_sp n) player in
  let st := status_of (n_hand n) player in
  let due := bet_due n player bet in
  let total := bet_of (h_bets (n_hand n)) player + due in
  if (st =? CARDS777_ALLIN) || (st =? CARDS777_FOLD) then n' = n /\ r = st
  else if negb (goes_allin n player bet) && (total <? h_betsize (n_hand n)) then
    r = CARDS777_FOLD /\ status_of (n_hand n') player = CARDS777_FOLD /\
    s_balances (n_sp n') = s_balances (n_sp n) /\ h_bets (n_hand n') = h_bets (n_hand n)
  else
    r <> CARDS777_FOLD /\ (r = CARDS777_ALLIN <-> goes_allin n player bet = true) /\
    (goes_allin n player bet = true -> status_of (n_hand n') player = CARDS777_ALLIN) /\
    s_balances (n_sp n') = <[Z.to_nat slot := balance (n_sp n) slot - due]> (s_balances (n_sp n)) /\
    h_bets (n_hand n') = <[Z.to_nat slot := bet_of (h_bets (n_hand n)) slot + due]> (h_bets (n_hand n)) /\
    h_betsize (n_hand n') = Z.max (h_betsize (n_hand n)) total.

(** Marking a player all in. *)
Lemma allin_spec n player : funds_ok n -> 0 <= player < d_N (n_dp n) ->
  status_of (n_hand n) player <> CARDS777_FOLD ->
  let n' := on_hand (fun h => h <| h_betstatus := <[Z.to_nat player := CARDS777_ALLIN]> (h_betstatus h) |>) n in
  funds_ok n' /\ betting 0 n n' /\ status_of (n_hand n') player = CARDS777_ALLIN.
Proof.
  intros Hok Hp Hst n'. pose proof Hok as []. pose proof (ho_betstatus _ fo_hand0) as Hl.
  assert (forall j, 0 <= j -> status_of (n_hand n') j =
    if j =? player then CARDS777_ALLIN else status_of (n_hand n) j) as Hset.
  { intros j Hj. apply status_set; (done || lia). }
  assert (betting 0 n n') as Hb.
  { split; try done; try (unfold n', log_size; simpl; lia); [apply sp_eta|].
    intros j Hj. destruct (decide (0 <= j)).
    - rewrite Hset by done. destruct (Z.eqb_spec j player) as [->|]; done.
    - unfold status_of in *. replace (Z.to_nat j) with (Z.to_nat 0) in * by lia.
      rewrite (Hset 0) by lia. destruct (Z.eqb_spec 0 player) as [<-|]; done. }
  split; [|split; [done|]].
  - apply (funds_ok_betting 0 n); try done; [|apply ok_balances_len, fo_table0].
    destruct fo_hand0. split; try done. simpl. by rewrite length_insert.
  - rewrite Hset, Z.eqb_refl by lia. done.
Qed.

(** A bet by a player neither folded nor all in, once the chips due are known:
    [n1] is the table with the player marked, if he is all in. *)
Lemma bet_tail_spec n player due action : funds_ok n -> 0 <= player < d_N (n_dp n) ->
  0 <= due <= balance (n_sp n) (seat (n_sp n) player) -> action <> CARDS777_FOLD ->
  log_size n + 10 <= SUMMARYMAX ->
  exists n' r,
    (let '(h, action) := bet_raise (n_hand n) player (bet_of (h_bets (n_hand n)) player) due action in
     n ← n_summary (on_hand (fun _ => h) n) action (le_bytes 1 player) (le_bytes 8 due);
     n ← bet_move n player due;
     Some (n, action)) = Some (n', r) /\ funds_ok n' /\ betting 10 n n' /\
    r <> CARDS777_FOLD /\ (r = CARDS777_ALLIN <-> action = CARDS777_ALLIN) /\
    h_betstatus (n_hand n') = h_betstatus (n_hand n) /\
    let slot := seat (n_sp n) player in
    s_balances (n_sp n') = <[Z.to_nat slot := balance (n_sp n) slot - due]> (s_balances (n_sp n)) /\
    h_bets (n_hand n') = <[Z.to_nat slot := bet_of (h_bets (n_hand n)) slot + due]> (h_bets (n_hand n)) /\
    h_betsize (n_hand n') = Z.max (h_betsize (n_hand n)) (bet_of (h_bets (n_hand n)) player + due).
Proof.
  intros Hok Hp Hdue Ha Hlog. pose proof Hok as [].
  pose proof (funds_bet n player (seat (n_sp n) player) Hok) as Hbet.
  destruct (bet_raise_spec (n_hand n) player (bet_of (h_bets (n_hand n)) player) due action)
    as (h' & a' & -> & Hr & Hz & Hl & Hf & Hall); try done; try lia.
  destruct (bet_log_spec n player h' a' due Hok Hr Hl) as (n1 & -> & Hok1 & Hb1 & Esp & Ebets & Est & Esz & EN);
    [lia|done|].
  cbn [mbind option_bind].
  destruct (bet_move_spec n1 player due Hok1) as (n2 & -> & Hok2 & Hb2 & Ebal & Ebets2 & Est2 & Esz2);
    [by rewrite EN|by rewrite Esp|].
  cbn [mbind option_bind]. exists n2, a'. split; [done|]. split; [done|].
  split; [apply (betting_trans 10 0 n n1 n2 Hb1 Hb2)|].
  rewrite Ebal, Ebets2, Est2, Esz2, Est, Esz, Ebets, Esp, Hz. done.
Qed.

Lemma bet_spec n player bet action : funds_ok n -> 0 <= player < d_N (n_dp n) ->
  0 <= bet < 2 ^ 61 -> action <> CARDS777_FOLD -> action <> CARDS777_ALLIN ->
  log_size n + 10 <= SUMMARYMAX ->
  exists n' r, pangea_bet n player bet action = Some (n', r) /\
    funds_ok n' /\ betting 10 n n' /\ bet_outcome n player bet n' r.
Proof.
  intros Hok Hp Hb Hf Ha Hlog. pose proof Hok as []. unfold pangea_bet, bet_outcome.
  destruct (Z.eqb_spec (d_N (n_dp n)) 0); [lia|]. rewrite Z.rem_small by lia.
  rewrite funds_status by (done || lia). cbn [mbind option_bind].
  destruct (Z.eqb_spec (status_of (n_hand n) player) CARDS777_ALLIN) as [Eall|Nall]; cbn [orb].
  { exists n, CARDS777_ALLIN. split; [done|]. split; [done|].
    split; [by apply (betting_weaken 0), betting_refl|done]. }
  destruct (Z.eqb_spec (status_of (n_hand n) player) CARDS777_FOLD) as [Ef|Nf].
  { exists n, CARDS777_FOLD. split; [done|]. split; [done|].
    split; [by apply (betting_weaken 0), betting_refl|done]. }
  pose proof (funds_balance n (seat (n_sp n) player) Hok) as Hbal.
  pose proof (amount_due_range (n_hand n) bet ltac:(lia) ltac:(lia)) as Hdue.
  pose proof (funds_bet n player (seat (n_sp n) player) Hok) as Hbet.
  change (2 ^ 61) with 2305843009213693952 in *.
  destruct (bet_amount_spec n player bet action Hok Hp Hb) as (a & -> & Hact).
  unfold bet_due. destruct (goes_allin n player bet) eqn:Eg; cbn [mbind option_bind negb andb].
  - destruct (allin_spec n player Hok Hp Nf) as (Hok1 & Hb1 & Est1).
    match type of Hok1 with funds_ok ?m => set (n1 := m) in * end.
    rewrite funds_aget_bet by (done || lia). cbn [mbind option_bind].
    rewrite andb_false_r.
    change (h_bets (n_hand n1)) with (h_bets (n_hand n)). rewrite (u64_small (bet_of _ _)) by lia.
    destruct (bet_tail_spec n1 player (balance (n_sp n) (seat (n_sp n) player)) CARDS777_ALLIN)
      as (n' & r & E & Hok' & Hb' & Hr & Hall & Hst & Ebal & Ebets & Esz); [done|done|simpl; lia|done|done|].
    exists n', r. split; [exact E|]. split; [done|].
    split; [apply (betting_trans 0 10 n n1 n' Hb1 Hb')|]. split; [done|].
    split; [tauto|]. split; [by unfold status_of; rewrite Hst|]. done.
  - rewrite funds_aget_bet by (done || lia). cbn [mbind option_bind].
    rewrite (u64_small (bet_of _ _)), (u64_small (_ + _)), (u64_small (h_betsize _)) by lia.
    assert (a <> CARDS777_ALLIN /\ a <> CARDS777_FOLD) as [Na1 Na2] by by destruct Hact as [-> | ->].
    rewrite (proj2 (Z.eqb_neq _ _) Na1), andb_true_r.
    destruct (_ <? h_betsize _).
    + destruct (pangea_fold_spec n player Hok Hp Hlog) as (n' & -> & Hok' & Hb' & E1 & E2 & _ & _ & E3).
      exists n', CARDS777_FOLD. split; [done|]. split; [done|]. split; [done|]. split; [done|].
      rewrite E3, Z.eqb_refl by lia. done.
    + assert (amount_due (n_hand n) bet <= balance (n_sp n) (seat (n_sp n) player)) as Hle.
      { unfold goes_allin in Eg. apply andb_false_iff in Eg as [Eg%Z.ltb_ge|Eg%Z.leb_gt]; lia. }
      destruct (bet_tail_spec n player (amount_due (n_hand n) bet) a)
        as (n' & r & E & Hok' & Hb' & Hr & Hall & Hst & Ebal & Ebets & Esz); [done|done|lia|done|done|].
      exists n', r. split; [exact E|]. split; [done|]. split; [done|]. split; [done|].
      split; [split; [tauto|done]|]. split; [done|]. done.
Qed.

(** ** Antes and blinds *)

(** A loop of betting operations, each adding at most [c] bytes of log. *)
Lemma betting_loop (f : Z -> node -> option node) (P : node -> Prop) c count n : 0 <= c ->
  funds_ok n -> P n -> log_size n + c * Z.of_nat count <= SUMMARYMAX ->
  (forall i m, 0 <= i < Z.of_nat count -> funds_ok m -> P m -> d_N (n_dp m) = d_N (n_dp n) ->
     log_size m + c <= SUMMARYMAX ->
     exists m', f i m = Some m' /\ funds_ok m' /\ P m' /\ betting c m m') ->
  exists n', for_ f 0 count n = Some n' /\ funds_ok n' /\ P n' /\ betting (c * Z.of_nat count) n n'.
Proof.
  intros Hc Hok HP Hlog Hstep.
  destruct (for_inv (fun i m => funds_ok m /\ P m /\ betting (c * i) n m) f count 0 n)
    as (n' & E & Hok' & HP' & Hb').
  - split; [done|]. split; [done|]. rewrite Z.mul_0_r. apply betting_refl.
  - intros i m Hi (Hm & HPm & Hbm).
    destruct (Hstep i m) as (m' & E & Hm' & HPm' & Hb); [lia|done|done|by eapply betting_N| |].
    { pose proof (bt_log _ _ _ Hbm). nia. }
    exists m'. split; [done|]. split; [done|]. split; [done|].
    replace (c * (i + 1)) with (c * i + c) by lia. by eapply betting_trans.
  - exists n'. rewrite Z.add_0_l in Hb'. done.
Qed.

(** Everyone at a position below [k] whose seat is empty-handed has folded. *)
Definition broke_folded (n : node) (k : Z) : Prop :=
  forall i, 0 <= i < k -> balance (n_sp n) (seat (n_sp n) i) <= 0 ->
    status_of (n_hand n) i = CARDS777_FOLD.

Lemma antes_foldbroke_spec n : funds_ok n -> log_size n + 90 <= SUMMARYMAX ->
  exists n', antes_foldbroke n = Some n' /\ funds_ok n' /\ betting 90 n n' /\
    s_balances (n_sp n') = s_balances (n_sp n) /\ broke_folded n' (d_N (n_dp n)).
Proof.
  intros Hok Hlog. pose proof Hok as []. unfold antes_foldbroke.
  match goal with |- context [for_ ?f _ _ _] => set (F := f) end.
  destruct (for_inv (fun i m => funds_ok m /\ betting (10 * i) n m /\
      s_balances (n_sp m) = s_balances (n_sp n) /\ broke_folded m i) F (Z.to_nat (d_N (n_dp n))) 0 n)
    as (n' & E & Hok' & Hb' & Ebal & Hbr).
  - split; [done|]. split; [apply betting_refl|]. split; [done|]. intros i Hi. lia.
  - intros i m Hi (Hm & Hb & Ebal & Hbr). unfold F.
    pose proof (betting_N _ _ _ Hb) as EN. pose proof (bt_log _ _ _ Hb) as Hl.
    rewrite funds_slot_balance by (done || lia). cbn [mbind option_bind].
    destruct (Z.leb_spec (balance (n_sp m) (seat (n_sp m) i)) 0).
    + destruct (pangea_fold_spec m i Hm) as (m' & -> & Hm' & Hb2 & E1 & _ & _ & _ & E2); [lia|lia|].
      exists m'. split; [done|]. split; [done|].
      replace (10 * (i + 1)) with (10 * i + 10) by lia. split; [by eapply betting_trans|].
      split; [congruence|]. intros j Hj Hz. rewrite E2 by lia.
      destruct (Z.eqb_spec j i) as [->|]; [done|]. apply Hbr; [lia|].
      unfold balance in *. by rewrite E1, (betting_seat _ _ _ j Hb2) in Hz.
    + exists m. split; [done|]. split; [done|]. split; [apply (betting_weaken (10 * i)); [lia|done]|].
      split; [done|]. intros j Hj Hz. destruct (decide (j = i)) as [->|]; [lia|]. apply Hbr; [lia|done].
  - rewrite Z2Nat.id in * by lia. rewrite Z.add_0_l in *. exists n'. split; [done|]. split; [done|].
    split; [apply (betting_weaken (10 * d_N (n_dp n))); [lia|done]|done].
Qed.

Lemma antes_ante_spec n : funds_ok n -> 0 <= d_ante (n_dp n) -> log_size n + 90 <= SUMMARYMAX ->
  exists n', antes_ante n = Some n' /\ funds_ok n' /\ betting 90 n n'.
Proof.
  intros Hok Ha Hlog. pose proof Hok as []. unfold antes_ante.
  destruct (Z.eqb_spec (d_ante (n_dp n)) 0).
  { exists n. split; [done|]. split; [done|]. by apply (betting_weaken 0), betting_refl. }
  destruct (betting_loop (fun i n =>
        let dp := n_dp n in
        if negb (i =? d_button dp) && negb (i =? u32 (d_button dp + 1) mod d_N dp) then
          b ← slot_balance n i;
          if u64 b <? d_ante dp then pangea_fold n i
          else pangea_bet_ n i (s64 (d_ante dp)) CARDS777_ANTE
        else Some n)
    (fun m => d_ante (n_dp m) = d_ante (n_dp n)) 10 (Z.to_nat (d_N (n_dp n))) n)
    as (n' & E & Hok' & _ & Hb'); [lia|done|done|lia| |].
  - intros i m Hi Hm Eante EN Hl. cbv zeta.
    destruct (_ && _).
    2:{ exists m. do 3 (split; [done|]). by apply (betting_weaken 0), betting_refl. }
    rewrite funds_slot_balance by (done || lia). cbn [mbind option_bind].
    pose proof (funds_balance m (seat (n_sp m) i) Hm) as Hbal.
    change (2 ^ 61) with 2305843009213693952 in Hbal.
    rewrite u64_small by lia. rewrite Eante. destruct (Z.ltb_spec (balance (n_sp m) (seat (n_sp m) i)) (d_ante (n_dp n))).
    + destruct (pangea_fold_spec m i Hm) as (m' & -> & Hm' & Hb & _); [lia|lia|].
      exists m'. split; [done|]. split; [done|]. split; [|done]. by rewrite (bt_dp _ _ _ Hb).
    + rewrite s64_small by lia. unfold pangea_bet_.
      destruct (bet_spec m i (d_ante (n_dp n)) CARDS777_ANTE Hm) as (m' & r & -> & Hm' & Hb & _);
        [lia|change (2 ^ 61) with 2305843009213693952; lia|done|done|lia|].
      exists m'. split; [done|]. split; [done|]. split; [|done]. by rewrite (bt_dp _ _ _ Hb).
  - exists n'. split; [exact E|]. split; [done|]. apply (betting_weaken (10 * Z.of_nat (Z.to_nat (d_N (n_dp n))))); [lia|done].
Qed.

Lemma antes_actives_spec n : funds_ok n -> log_size n + 90 <= SUMMARYMAX ->
  exists n' actives, antes_actives n = Some (n', actives) /\ funds_ok n' /\ betting 90 n n' /\
    Forall (fun j => 0 <= j < d_N (n_dp n)) actives.
Proof.
  intros Hok Hlog. pose proof Hok as []. unfold antes_actives.
  match goal with |- context [for_ ?f _ _ _] => set (F := f) end.
  destruct (for_inv (fun i '(m, act) => funds_ok m /\ betting (10 * i) n m /\
      Forall (fun j => 0 <= j < d_N (n_dp n)) act) F (Z.to_nat (d_N (n_dp n))) 0 (n, []))
    as ([n' act] & E & Hok' & Hb' & Hact).
  - split; [done|]. split; [apply betting_refl|]. constructor.
  - intros i [m act] Hi (Hm & Hb & Hact). unfold F. cbv zeta.
    pose proof (betting_N _ _ _ Hb) as EN. pose proof (bt_log _ _ _ Hb) as Hl.
    set (j := u32 (1 + d_button (n_dp m) + i) mod d_N (n_dp m)).
    assert (0 <= j < d_N (n_dp n)) as Hj by (unfold j; rewrite EN; apply Z.mod_pos_bound; lia).
    rewrite funds_slot_balance by (done || lia). cbn [mbind option_bind].
    destruct (_ <? u64 _).
    + eexists (m, act ++ [j]). split; [done|]. split; [done|].
      split; [apply (betting_weaken (10 * i)); [lia|done]|]. apply Forall_app. split; [done|]. by constructor.
    + destruct (pangea_fold_spec m j Hm) as (m' & -> & Hm' & Hb2 & _); [lia|lia|].
      cbn [mbind option_bind]. exists (m', act). split; [done|]. split; [done|].
      replace (10 * (i + 1)) with (10 * i + 10) by lia. split; [by eapply betting_trans|done].
  - exists n', act. split; [exact E|]. split; [done|]. split; [|done].
    apply (betting_weaken (10 * (0 + Z.of_nat (Z.to_nat (d_N (n_dp n)))))); [lia|done].
Qed.

Lemma length_snapshot_bytes l : length (concat (le_bytes 8 <$> l)) = (8 * length l)%nat.
Proof. induction l as [|x l IH]; [done|]. cbn [fmap list_fmap concat]. rewrite length_app, IH, length_le_bytes. simpl. lia. Qed.

Lemma antes_snapshot_spec n : funds_ok n -> length (d_snapshot (n_dp n)) = 9%nat ->
  log_size n + 77 <= SUMMARYMAX ->
  exists snap summary, antes_snapshot n =
      Some (n <| n_dp := n_dp n <| d_snapshot := snap |> <| d_summary := summary |> |>) /\
    take (Z.to_nat (s_numaddrs (n_sp n))) snap = take (Z.to_nat (s_numaddrs (n_sp n))) (s_balances (n_sp n)) /\
    length snap = 9%nat /\ Z.of_nat (length summary) = log_size n + 77.
Proof.
  intros Hok Hs Hlog. pose proof Hok as []. pose proof fo_table0 as [].
  unfold antes_snapshot.
  destruct (copy_prefix (s_balances (n_sp n)) (d_snapshot (n_dp n)) (s_numaddrs (n_sp n)))
    as (snap & -> & Lsnap & Tsnap); [lia|lia|].
  cbn [mbind option_bind]. exists snap.
  rewrite n_summary_room.
  2:{ rewrite length_le_bytes, length_snapshot_bytes, Lsnap, Hs.
      unfold log_size in *. simpl. lia. }
  eexists. split; [reflexivity|]. split; [done|]. split; [lia|].
  rewrite length_app. cbn [length]. rewrite length_app, length_le_bytes, length_snapshot_bytes, Lsnap, Hs.
  unfold log_size. simpl. lia.
Qed.

(** Node facts that do not depend on the log or the snapshot. *)
Lemma funds_ok_snapshot n snap summary : funds_ok n ->
  funds_ok (n <| n_dp := n_dp n <| d_snapshot := snap |> <| d_summary := summary |> |>).
Proof. intros []. by split. Qed.

Lemma funds_ok_button n b : funds_ok n -> funds_ok (n <| n_dp := n_dp n <| d_button := b |> |>).
Proof. intros []. by split. Qed.

Lemma betting_button n b : betting 0 n (n <| n_dp := n_dp n <| d_button := b |> |>).
Proof. split; try done; [apply sp_eta|unfold log_size; simpl; lia]. Qed.

(** A blind: the bet of a player who may already be out of the hand. *)
Lemma blind_spec n j amount action : funds_ok n -> 0 <= j < d_N (n_dp n) -> 0 <= amount < 2 ^ 61 ->
  action <> CARDS777_FOLD -> action <> CARDS777_ALLIN -> log_size n + 10 <= SUMMARYMAX ->
  exists n', pangea_bet_ n j (s64 amount) action = Some n' /\ funds_ok n' /\ betting 10 n n'.
Proof.
  intros Hok Hj Ha Hf Hall Hlog. change (2 ^ 61) with 2305843009213693952 in *.
  rewrite s64_small by lia. unfold pangea_bet_.
  destruct (bet_spec n j amount action) as (n' & r & -> & Hok' & Hb & _); try done.
  by exists n'.
Qed.

(** After the snapshot the blinds are a betting operation. *)
Lemma antes_spec n :
  funds_ok n -> length (d_snapshot (n_dp n)) = 9%nat ->
  0 <= d_ante (n_dp n) -> 0 <= d_bigblind (n_dp n) < 2 ^ 61 -> log_size n + 400 <= SUMMARYMAX ->
  exists snap summary n', let n1 := n <| n_dp := n_dp n <| d_snapshot := snap |> <| d_summary := summary |> |> in
    pangea_antes n = Some n' /\ funds_ok n' /\ betting 290 n1 n' /\
    take (Z.to_nat (s_numaddrs (n_sp n))) snap = take (Z.to_nat (s_numaddrs (n_sp n))) (s_balances (n_sp n)) /\
    length snap = 9%nat /\ Z.of_nat (length summary) = log_size n + 77 /\
    (forall i, 0 <= i < d_N (n_dp n) -> balance (n_sp n) (seat (n_sp n) i) <= 0 ->
       status_of (n_hand n') i = CARDS777_FOLD).
Proof.
  intros Hok Hs Ha Hbb Hlog. pose proof Hok as [_ HN _ _ _ _ _ _ _]. unfold pangea_antes.
  destruct (antes_snapshot_spec n Hok Hs) as (snap & summary & -> & Tsnap & Lsnap & Lsum); [lia|].
  exists snap, summary.
  cbn [mbind option_bind]. pose proof (funds_ok_snapshot n snap summary Hok) as Hok1.
  set (n1 := n <| n_dp := _ |>) in *.
  assert (log_size n1 = log_size n + 77) as Hl1 by done.
  destruct (antes_foldbroke_spec n1 Hok1) as (n2 & -> & Hok2 & Hb2 & Ebal2 & Hbr); [lia|].
  pose proof (bt_log _ _ _ Hb2) as Hl2. cbn [mbind option_bind].
  destruct (antes_ante_spec n2 Hok2) as (n3 & -> & Hok3 & Hb3); [by rewrite (bt_dp _ _ _ Hb2)|lia|].
  pose proof (bt_log _ _ _ Hb3) as Hl3. cbn [mbind option_bind].
  destruct (antes_actives_spec n3 Hok3) as (n4 & act & -> & Hok4 & Hb4 & Hact); [lia|].
  pose proof (bt_log _ _ _ Hb4) as Hl4. cbn [mbind option_bind].
  pose proof (betting_trans _ _ _ _ _ (betting_trans _ _ _ _ _ Hb2 Hb3) Hb4) as Hb.
  assert (forall k n', betting k n2 n' -> forall i, 0 <= i < d_N (n_dp n) ->
    balance (n_sp n) (seat (n_sp n) i) <= 0 -> status_of (n_hand n') i = CARDS777_FOLD) as Hfold.
  { intros k n' H i Hi Hz. apply (bt_fold _ _ _ H), Hbr; [done|].
    unfold balance in *. rewrite Ebal2, (betting_seat _ _ _ i Hb2). exact Hz. }
  assert (forall k n', betting k n4 n' -> betting (90 + 90 + k) n2 n') as Hb24
    by (intros k n' H; eapply betting_trans; [by eapply betting_trans|done]).
  assert (d_bigblind (n_dp n4) = d_bigblind (n_dp n)) as Ebb by by rewrite (betting_bigblind _ _ _ Hb).
  assert (d_N (n_dp n4) = d_N (n_dp n3)) as EN4 by by eapply betting_N.
  assert (0 <= Z.shiftr (d_bigblind (n_dp n)) 1 < 2 ^ 61) as Hsb.
  { rewrite Z.shiftr_div_pow2 by lia. change (2 ^ 1) with 2. split; [apply Z.div_pos; lia|].
    apply Z.div_lt_upper_bound; lia. }
  destruct act as [|a0 [|a1 act]].
  1-2: exists n4; split; [done|]; split; [done|]; split; [eapply betting_weaken; [|exact Hb]; lia|];
    do 3 (split; [done|]); by apply (Hfold 180), (betting_trans 90 90 n2 n3 n4).
  apply Forall_cons in Hact as [H0 Hact]. apply Forall_cons in Hact as [H1 _].
  rewrite Ebb.
  destruct (blind_spec n4 a0 (Z.shiftr (d_bigblind (n_dp n)) 1) CARDS777_SMALLBLIND)
    as (n5 & -> & Hok5 & Hb5); try done; try lia.
  pose proof (bt_log _ _ _ Hb5) as Hl5. cbn [mbind option_bind].
  set (n6 := n5 <| n_dp := _ |>).
  pose proof (funds_ok_button n5 ((a0 + d_N (n_dp n5) - 1) mod d_N (n_dp n5)) Hok5) as Hok6.
  pose proof (betting_button n5 ((a0 + d_N (n_dp n5) - 1) mod d_N (n_dp n5))) as Hb6.
  fold n6 in Hok6, Hb6. pose proof (betting_N _ _ _ Hb5) as EN5. pose proof (bt_log _ _ _ Hb6) as Hl6.
  destruct (blind_spec n6 a1 (d_bigblind (n_dp n)) CARDS777_BIGBLIND) as (n7 & E7 & Hok7 & Hb7); try done; try lia.
  { change (d_N (n_dp n6)) with (d_N (n_dp n5)). lia. }
  rewrite E7. exists n7. split; [done|]. split; [done|].
  pose proof (betting_trans _ _ _ _ _ (betting_trans _ _ _ _ _ Hb5 Hb6) Hb7) as Hb57.
  split.
  { eapply betting_weaken; [|eapply (betting_trans _ _ _ _ _ Hb Hb57)]. lia. }
  do 3 (split; [done|]). by apply (Hfold _ n7 (Hb24 _ _ Hb57)).
Qed.

(** antes and blinds.  From any table without debts whose chips fit the
    machine, [pangea_antes] runs to its end within its arrays and its log, records
    the balances before it as the hand's snapshot, folds every player without
    chips, and moves chips only from balances to bets: their sum is unchanged and
    nobody goes below zero. *)
Theorem pangea_antes_conserves n :
  funds_ok n -> length (d_snapshot (n_dp n)) = 9%nat ->
  0 <= d_ante (n_dp n) -> 0 <= d_bigblind (n_dp n) < 2 ^ 61 -> log_size n + 400 <= SUMMARYMAX ->
  exists n', pangea_antes n = Some n' /\ funds_ok n' /\ chips n' = chips n /\
    take (Z.to_nat (s_numaddrs (n_sp n))) (d_snapshot (n_dp n')) =
      take (Z.to_nat (s_numaddrs (n_sp n))) (s_balances (n_sp n)) /\
    (forall i, 0 <= i < d_N (n_dp n) -> balance (n_sp n) (seat (n_sp n) i) <= 0 ->
       status_of (n_hand n') i = CARDS777_FOLD) /\
    log_size n' <= log_size n + 400.
Proof.
  intros Hok Hs Ha Hbb Hlog.
  destruct (antes_spec n Hok Hs Ha Hbb Hlog) as (snap & summary & n' & E & Hok' & Hb & Ts & _ & Ls & Hf).
  exists n'. split; [done|]. split; [done|]. split; [by rewrite (bt_chips _ _ _ Hb)|].
  split; [by rewrite (bt_dp _ _ _ Hb)|]. split; [done|]. pose proof (bt_log _ _ _ Hb) as Hl.
  match type of Hl with _ <= log_size ?m + _ => change (log_size m) with (Z.of_nat (length summary)) in Hl end.
  lia.
Qed.

(** ** A bet *)

(** C4: a bet, by every case of [bet_outcome].  For a table without debts, any
    player in the hand and any amount from 0 to 2^61, [pangea_bet] succeeds: a
    player who has folded or is all in changes nothing; an amount short of the
    current bet folds without moving chips; an amount of at least the whole
    balance moves all of it and marks the player all in; any other amount, cut
    to the minimal raise where the rule applies, moves from the balance of his
    seat to the bets.  The chips in play are conserved and no balance or bet
    becomes negative. *)
Theorem pangea_bet_spec n player bet action :
  funds_ok n -> 0 <= player < d_N (n_dp n) -> 0 <= bet < 2 ^ 61 ->
  action <> CARDS777_FOLD -> action <> CARDS777_ALLIN -> log_size n + 10 <= SUMMARYMAX ->
  exists n' r, pangea_bet n player bet action = Some (n', r) /\ funds_ok n' /\
    chips n' = chips n /\ bet_outcome n player bet n' r /\
    (forall i, status_of (n_hand n) i = CARDS777_FOLD -> status_of (n_hand n') i = CARDS777_FOLD).
Proof.
  intros. destruct (bet_spec n player bet action) as (n' & r & E & Hok & Hb & Ho); try done.
  exists n', r. split; [done|]. split; [done|]. split; [apply Hb|]. split; [done|]. apply Hb.
Qed.

(** when seats and positions coincide, a player who bets without folding or
    going all in has matched the current bet: his bet then equals [betsize],
    which never decreases. *)
Theorem pangea_bet_matches n player bet action n' r :
  funds_ok n -> 0 <= player < d_N (n_dp n) -> 0 <= bet < 2 ^ 61 ->
  action <> CARDS777_FOLD -> action <> CARDS777_ALLIN -> log_size n + 10 <= SUMMARYMAX ->
  seat (n_sp n) player = player -> pangea_bet n player bet action = Some (n', r) ->
  r <> CARDS777_FOLD -> r <> CARDS777_ALLIN ->
  bet_of (h_bets (n_hand n')) player = h_betsize (n_hand n') /\
  h_betsize (n_hand n) <= h_betsize (n_hand n').
Proof.
  intros Hok Hp Hb Hf Ha Hlog Hseat E Hr1 Hr2.
  destruct (bet_spec n player bet action) as (n2 & r2 & E2 & _ & _ & Ho); try done.
  rewrite E in E2. injection E2 as <- <-. unfold bet_outcome in Ho. cbv zeta in Ho.
  destruct (Z.eqb_spec (status_of (n_hand n) player) CARDS777_ALLIN); cbn [orb] in Ho;
    [destruct Ho; congruence|].
  destruct (Z.eqb_spec (status_of (n_hand n) player) CARDS777_FOLD); cbn [orb] in Ho;
    [destruct Ho; congruence|].
  destruct (goes_allin n player bet); cbn [negb andb] in Ho.
  { destruct Ho as (_ & [_ Hall] & _). by destruct Hr2; apply Hall. }
  case_cmp; [destruct Ho; congruence|]. destruct Ho as (_ & _ & _ & _ & -> & ->).
  destruct Hok. pose proof (ho_bets _ fo_hand0). rewrite Hseat. unfold bet_of at 1.
  rewrite nth_lookup, list_lookup_insert_eq by lia. cbn [from_option]. unfold id. lia.
Qed.

(** When a player's seat is not his position, which [pangea_neworder] allows, his
    bets are entered for another position: the entry that [pangea_bet] itself and
    the side pots read for him never grows. *)
Theorem pangea_bet_other_seat n player bet action n' r :
  funds_ok n -> 0 <= player < d_N (n_dp n) -> 0 <= bet < 2 ^ 61 ->
  action <> CARDS777_FOLD -> action <> CARDS777_ALLIN -> log_size n + 10 <= SUMMARYMAX ->
  seat (n_sp n) player <> player -> pangea_bet n player bet action = Some (n', r) ->
  bet_of (h_bets (n_hand n')) player = bet_of (h_bets (n_hand n)) player.
Proof.
  intros Hok Hp Hb Hf Ha Hlog Hseat E.
  destruct (bet_spec n player bet action) as (n2 & r2 & E2 & _ & _ & Ho); try done.
  rewrite E in E2. injection E2 as <- <-. unfold bet_outcome in Ho. cbv zeta in Ho.
  destruct (_ || _); [by destruct Ho as [-> _]|]. destruct (_ && _).
  { by destruct Ho as (_ & _ & _ & ->). }
  destruct Ho as (_ & _ & _ & _ & -> & _). destruct (funds_seat n player Hok Hp).
  unfold bet_of at 1. rewrite nth_insert_other by lia. done.
Qed.

Lemma bet_raise_bets h player sum bet action : h_bets (bet_raise h player sum bet action).1 = h_bets h.
Proof.
  unfold bet_raise. destruct (_ <=? bet); destruct (u64 (h_betsize _) <? _); try done;
    by destruct ((u64 _ <? _) && _).
Qed.

(** a negative amount, which a message can carry, is not refused: when it
    exceeds what the player has bet, his balance grows by it and his entry of
    [bets] shrinks by it, here below zero. *)
Theorem pangea_bet_negative n player bet :
  funds_ok n -> 0 <= player < d_N (n_dp n) -> - 2 ^ 61 < bet < 0 ->
  bet_of (h_bets (n_hand n)) player + bet < 0 -> log_size n + 10 <= SUMMARYMAX ->
  status_of (n_hand n) player <> CARDS777_FOLD -> status_of (n_hand n) player <> CARDS777_ALLIN ->
  exists n' r, pangea_bet n player bet CARDS777_CHECK = Some (n', r) /\
    balance (n_sp n') (seat (n_sp n) player) = balance (n_sp n) (seat (n_sp n) player) - bet /\
    bet_of (h_bets (n_hand n')) (seat (n_sp n) player) = bet_of (h_bets (n_hand n)) (seat (n_sp n) player) + bet.
Proof.
  intros Hok Hp Hb Hneg Hlog Hf Ha. pose proof Hok as []. unfold pangea_bet.
  change (2 ^ 61) with 2305843009213693952 in *.
  pose proof (funds_bet n player (seat (n_sp n) player) Hok) as Hbet.
  pose proof (funds_bet n (seat (n_sp n) player) (seat (n_sp n) player) Hok) as Hsbet.
  pose proof (funds_balance n (seat (n_sp n) player) Hok) as Hbal.
  change (2 ^ 61) with 2305843009213693952 in *.
  destruct (Z.eqb_spec (d_N (n_dp n)) 0); [lia|]. rewrite Z.rem_small by lia.
  rewrite funds_status by (done || lia). cbn [mbind option_bind].
  rewrite (proj2 (Z.eqb_neq _ _) Ha), (proj2 (Z.eqb_neq _ _) Hf).
  unfold bet_amount. destruct (Z.ltb_spec 0 bet); [lia|]. cbn [mbind option_bind].
  destruct (Z.ltb_spec (h_betsize (n_hand n)) bet); [lia|]. cbn [andb mbind option_bind].
  rewrite funds_aget_bet by (done || lia). cbn [mbind option_bind].
  rewrite (u64_small (bet_of _ _)), (u64_small (h_betsize (n_hand n))) by lia.
  assert (u64 (bet_of (h_bets (n_hand n)) player + bet) =
    bet_of (h_bets (n_hand n)) player + bet + 18446744073709551616) as Eu.
  { symmetry. apply (Zmod_unique _ _ (-1)); change (2 ^ 64) with 18446744073709551616; lia. }
  rewrite Eu. destruct (Z.ltb_spec (bet_of (h_bets (n_hand n)) player + bet + 18446744073709551616)
    (h_betsize (n_hand n))); [lia|]. cbn [andb].
  match goal with |- context [bet_raise ?d ?h ?p ?s ?a] => pose proof (bet_raise_bets d h p s a) as Hbets end.
  destruct (bet_raise _ _ _ _ _) as [h a]. cbn [fst] in Hbets.
  rewrite n_summary_room by (rewrite !length_le_bytes; unfold log_size in *; simpl; lia).
  cbn [mbind option_bind]. unfold bet_move.
  destruct (funds_seat n player Hok Hp) as [Es Hs].
  match goal with |- context [pangea_slot ?s player] => change s with (n_sp n) end.
  rewrite Es. cbn [mbind option_bind].
  match goal with |- context [s_balances ?s] => change s with (n_sp n) end.
  rewrite funds_aget_balance by done. cbn [mbind option_bind].
  pose proof (ok_balances_len _ fo_table0). pose proof (ho_bets _ fo_hand0).
  rewrite aset_in_range by lia. cbn [mbind option_bind].
  match goal with |- context [aget ?l _] => change l with (h_bets h) end. rewrite Hbets.
  rewrite funds_aget_bet by done. cbn [mbind option_bind].
  rewrite aset_in_range by lia. cbn [mbind option_bind]. rewrite !s64_small by lia.
  do 2 eexists. split; [reflexivity|]. split.
  - unfold balance at 1. simpl. by rewrite nth_lookup, list_lookup_insert_eq by lia.
  - unfold bet_of at 1. simpl. by rewrite nth_lookup, list_lookup_insert_eq by lia.
Qed.


(** ** Witnesses *)

Lemma sample_funds_ok bets st ranks : length bets = 9%nat -> length st = 9%nat -> length ranks = 9%nat ->
  Forall (Z.le 0) bets -> sumZ bets < 10000 -> Forall (fun r => 0 <= r < 2 ^ 32) ranks ->
  funds_ok (sample_node bets st ranks).
Proof.
  intros Hb Hs Hr Fb Hsum Fr. split; [apply sample_info_ok|done|done|by split|concrete|done| |done|done].
  - unfold chips. change (sumZ (s_balances (n_sp (sample_node bets st ranks)))) with 1700.
    change (h_bets (n_hand (sample_node bets st ranks))) with bets. lia.
Qed.

Lemma sample_funds : funds_ok (sample_node (replicate 9 0) (replicate 9 0) (replicate 9 0)).
Proof. apply sample_funds_ok; concrete. Qed.

Lemma pangea_antes_conserves_witness :
  let n := sample_node (replicate 9 0) (replicate 9 0) (replicate 9 0) in
  exists n', pangea_antes n = Some n' /\ chips n' = chips n.
Proof.
  intros n. destruct (pangea_antes_conserves n sample_funds) as (n' & E & _ & H & _); [concrete..|].
  by exists n'.
Defined.

Lemma pangea_bet_spec_witness :
  let n := sample_node (replicate 9 0) (replicate 9 0) (replicate 9 0) in
  exists n' r, pangea_bet n 1 300 CARDS777_CHECK = Some (n', r) /\ chips n' = chips n /\
    bet_outcome n 1 300 n' r.
Proof.
  intros n. destruct (pangea_bet_spec n 1 300 CARDS777_CHECK sample_funds)
    as (n' & r & E & _ & H & H' & _); [concrete..|done|done|concrete|].
  exists n', r. split; [exact E|]. split; [exact H|exact H'].
Defined.

Lemma pangea_bet_matches_witness :
  let n := sample_node (replicate 9 0) (replicate 9 0) (replicate 9 0) in
  match pangea_bet n 2 140 CARDS777_CHECK with
  | Some (n', r) => bet_of (h_bets (n_hand n')) 2 = h_betsize (n_hand n') /\ r = CARDS777_FULLRAISE
  | None => False
  end.
Proof.
  intros n. destruct (pangea_bet n 2 140 CARDS777_CHECK) as [[n' r]|] eqn:E; [|done].
  assert (r = CARDS777_FULLRAISE) as -> . { vm_compute in E. by injection E as _ <-. }
  split; [|done]. 
  apply (pangea_bet_matches n 2 140 CARDS777_CHECK n' CARDS777_FULLRAISE sample_funds);
    [concrete|concrete|done|done|concrete|concrete|exact E|done|done].
Defined.

(** A bet of -1000 by a player with 300. *)
Lemma pangea_bet_negative_witness :
  let n := sample_node (replicate 9 0) (replicate 9 0) (replicate 9 0) in
  exists n' r, pangea_bet n 1 (-1000) CARDS777_CHECK = Some (n', r) /\
    balance (n_sp n') 1 = 1300 /\ bet_of (h_bets (n_hand n')) 1 = -1000.
Proof.
  intros n. apply (pangea_bet_negative n 1 (-1000) sample_funds); [concrete|concrete|concrete|concrete|done|done].
Defined.
