(* ===== verification/Hand.v ===== *)
(** * Hand: the settlement of a hand

    Theorems about [pangea_finish] and [pangea_lastman] of Funds: the pots of
    Pots, paid one after the other, hand out exactly the chips that were bet. *)

From stdpp Require Import relations.
From S2P Require Import Prelude Bits GF256 Interp GFShare Cards Table Summary Poker Pots Funds Betting.

(** ** Sums over players *)

Lemma sumZ_fmap_add (f g : Z -> Z) l :
  sumZ ((fun j => f j + g j) <$> l) = sumZ (f <$> l) + sumZ (g <$> l).
Proof. unfold sumZ. induction l as [|x l IH]; [done|]. rewrite !fmap_cons. cbn [foldr]. lia. Qed.

Lemma sumZ_fmap_ext (f g : Z -> Z) l : (forall j, j ∈ l -> f j = g j) -> sumZ (f <$> l) = sumZ (g <$> l).
Proof. intros H. f_equal. apply list_fmap_ext. intros i x Hx. apply H. by eapply list_elem_of_lookup_2. Qed.

Lemma staked_snoc m j r k : staked m j r (S k) = staked m j r k + cell m (r + Z.of_nat k) j.
Proof.
  revert r. induction k as [|k IH]; intros r.
  - cbn [staked]. replace (r + Z.of_nat 0) with r by lia. lia.
  - change (staked m j r (S (S k))) with (cell m r j + staked m j (r + 1) (S k)).
    change (staked m j r (S k)) with (cell m r j + staked m j (r + 1) k).
    rewrite IH. replace (r + 1 + Z.of_nat k) with (r + Z.of_nat (S k)) by lia. lia.
Qed.

Lemma cell_le_staked m j (n : nat) r : mat_ok m -> 0 <= r < Z.of_nat n -> cell m r j <= staked m j 0 n.
Proof.
  intros Hm. induction n as [|n IH]; intros Hr; [lia|]. rewrite staked_snoc, Z.add_0_l.
  pose proof (cell_nonneg m (Z.of_nat n) j Hm). pose proof (staked_nonneg (replicate 9 0) eq_refl m j 0 n Hm).
  destruct (decide (r = Z.of_nat n)) as [->|Hne]; [lia|]. specialize (IH ltac:(lia)). lia.
Qed.

(** A stake is in one of the pots. *)
Lemma staked_in_row m j (n : nat) : 0 < staked m j 0 n -> exists r, 0 <= r < Z.of_nat n /\ 0 < cell m r j.
Proof.
  induction n as [|n IH]; intros H; [cbn in H; lia|]. rewrite staked_snoc, Z.add_0_l in H.
  destruct (decide (0 < cell m (Z.of_nat n) j)); [exists (Z.of_nat n); lia|]. destruct IH as (r & ? & ?); [lia|]. exists r. lia.
Qed.

(** Chips in the first [k] rows. *)
Definition pots (m : list (list Z)) (N k : Z) : Z :=
  sumZ ((fun j => staked m j 0 (Z.to_nat k)) <$> positions N).

Lemma pots_S m N k : 0 <= k -> pots m N (k + 1) = pots m N k + pot (nth (Z.to_nat k) m []) N.
Proof.
  intros Hk. unfold pots, pot. rewrite <- sumZ_fmap_add. apply sumZ_fmap_ext. intros j _.
  replace (Z.to_nat (k + 1)) with (S (Z.to_nat k)) by lia.
  rewrite staked_snoc, Z.add_0_l, Z2Nat.id by done. done.
Qed.

Lemma pots_mono m N k k' : mat_ok m -> N <= 9 -> 0 <= k <= k' -> k' <= 9 -> pots m N k <= pots m N k'.
Proof.
  intros Hm HN Hk H9. replace k' with (k + Z.of_nat (Z.to_nat (k' - k))) by lia.
  assert (Z.of_nat (Z.to_nat (k' - k)) <= 9 - k) as Hle by lia. revert Hle.
  induction (Z.to_nat (k' - k)) as [|d IH]; intros Hle; [rewrite Z.add_0_r; lia|].
  replace (k + Z.of_nat (S d)) with (k + Z.of_nat d + 1) by lia. rewrite pots_S by lia.
  destruct (mat_row m (k + Z.of_nat d) Hm) as [_ Hrow]; [lia|].
  pose proof (pot_mono _ 0 (Z.max 0 N) Hrow ltac:(lia)) as Hp.
  assert (pot (nth (Z.to_nat (k + Z.of_nat d)) m []) N =
    pot (nth (Z.to_nat (k + Z.of_nat d)) m []) (Z.max 0 N)) as E.
  { unfold pot, positions. do 4 f_equal. lia. }
  rewrite E. lia.
Qed.

Lemma side_pots_total dp bets m n : side_pots dp bets m n -> pots m (d_N dp) n = pot bets (d_N dp).
Proof.
  intros H. unfold pots, pot. apply sumZ_fmap_ext. intros j Hj%positions_elem.
  by rewrite (lp_sum _ _ _ _ H).
Qed.

(** Bets at the players' own positions are at most all bets. *)
Lemma pot_le_sum bets N : length bets = 9%nat -> 0 <= N <= 9 -> Forall (Z.le 0) bets ->
  0 <= pot bets N <= sumZ bets.
Proof.
  intros Hl HN Hf. 
  assert (pot bets N = sumZ (take (Z.to_nat N) bets)) as ->.
  { unfold pot. f_equal. apply list_eq. intros i. unfold positions.
    rewrite !list_lookup_fmap. destruct (decide (i < Z.to_nat N)%nat) as [Hi|Hi].
    - rewrite lookup_seq_lt, lookup_take_lt by done. simpl. unfold stake. rewrite Nat2Z.id.
      destruct (lookup_lt_is_Some_2 bets i) as [x Hx]; [lia|]. by rewrite Hx, (nth_lookup_Some _ _ _ _ Hx).
    - rewrite lookup_seq_ge, lookup_take_ge by lia. done. }
  rewrite <- (take_drop (Z.to_nat N) bets) in Hf. 
  assert (sumZ bets = sumZ (take (Z.to_nat N) bets) + sumZ (drop (Z.to_nat N) bets)) as ->
    by (rewrite <- sumZ_app; by rewrite take_drop).
  apply Forall_app in Hf as [F1 F2].
  pose proof (sumZ_nonneg _ F1). pose proof (sumZ_nonneg _ F2). lia.
Qed.

(** ** Paying the pots *)

(** After the pots of some rows: the balances have grown by [won], seat by seat,
    and what was won and raked is what was in those rows. *)
Record paying (n : node) (r total : Z) (bal sm won : list Z) (rake prake : Z) : Prop := mk_paying {
  py_len : length bal = 9%nat;
  py_won_len : length won = 9%nat;
  py_won : Forall (Z.le 0) won;
  py_seat : forall j, 0 <= j < d_N (n_dp n) ->
    nth (Z.to_nat (seat (n_sp n) j)) bal 0 = balance (n_sp n) (seat (n_sp n) j) + stake won j;
  py_other : forall s, 0 <= s < 9 -> (forall j, 0 <= j < d_N (n_dp n) -> seat (n_sp n) j <> s) ->
    nth (Z.to_nat s) bal 0 = balance (n_sp n) s;
  py_out : forall j, 0 <= j < d_N (n_dp n) -> in_hand (n_dp n) j = false -> stake won j = 0;
  py_sum : sumZ bal = sumZ (s_balances (n_sp n)) + sumZ won;
  py_total : sumZ won + rake + prake = total;
  py_rake : 0 <= rake;
  py_prake : 0 <= prake;
  py_log : Z.of_nat (length sm) <= log_size n + 90 * r;
}.

Lemma seat_cases (f : Z -> Z) (N s : Z) :
  (exists j, 0 <= j < N /\ f j = s) \/ (forall j, 0 <= j < N -> f j <> s).
Proof.
  destruct (decide (s ∈ f <$> positions N)) as [H|H].
  - left. apply list_elem_of_fmap in H as (j & -> & Hj%positions_elem). by exists j.
  - right. intros j Hj <-. apply H. apply list_elem_of_fmap. exists j. by rewrite positions_elem.
Qed.

Lemma balances_nonneg n bal : funds_ok n -> length bal = 9%nat ->
  (forall j, 0 <= j < d_N (n_dp n) -> 0 <= nth (Z.to_nat (seat (n_sp n) j)) bal 0) ->
  (forall s, 0 <= s < 9 -> (forall j, 0 <= j < d_N (n_dp n) -> seat (n_sp n) j <> s) ->
    nth (Z.to_nat s) bal 0 = balance (n_sp n) s) -> Forall (Z.le 0) bal.
Proof.
  intros Hok Hl Hs Ho. apply Forall_lookup_2. intros i x Hx.
  pose proof (lookup_lt_Some _ _ _ Hx).
  assert (x = nth (Z.to_nat (Z.of_nat i)) bal 0) as -> by (rewrite Nat2Z.id; by rewrite (nth_lookup_Some _ _ _ _ Hx)).
  destruct (seat_cases (seat (n_sp n)) (d_N (n_dp n)) (Z.of_nat i)) as [(j & Hj & <-)|Hn].
  - by apply Hs.
  - rewrite Ho by (done || lia). apply (funds_balance n _ Hok).
Qed.

Lemma paying_balances n r total bal sm won rake prake : funds_ok n ->
  paying n r total bal sm won rake prake -> Forall (Z.le 0) bal.
Proof.
  intros Hok []. apply (balances_nonneg n); [done|done| |done].
  intros j Hj. rewrite py_seat0 by done.
  pose proof (funds_balance n (seat (n_sp n) j) Hok). pose proof (le_sum won j py_won0).
  unfold stake. lia.
Qed.

Lemma small_entries l : Forall (Z.le 0) l -> length l = 9%nat -> sumZ l < 2 ^ 61 -> balances_ok l.
Proof.
  intros Hf Hl Hs. split; [done|]. apply Forall_lookup_2. intros i x Hx.
  pose proof (Forall_lookup_1 _ _ _ _ Hf Hx) as H0. pose proof (sumZ_lookup_le _ _ _ Hf Hx). cbv beta in *. lia.
Qed.

Section Finish.
Context (n : node) (m : list (list Z)) (rows rakemillis : Z).
Context (Hok : funds_ok n) (Hsp : side_pots (n_dp n) (h_bets (n_hand n)) m rows).
Context (Hcont : exists j, 0 <= j < d_N (n_dp n) /\ in_hand (n_dp n) j = true /\
           0 < bet_of (h_bets (n_hand n)) j).
Context (Hnamed : forall j, 0 <= j < d_N (n_dp n) -> in_hand (n_dp n) j = true -> 0 < bet_of (h_bets (n_hand n)) j -> named (n_dp n) j = true).
Context (Hrate : 0 <= rakemillis <= 1000) (Hmax : 0 <= d_maxrake (n_dp n)).
Context (Hlog : log_size n + 90 * rows <= SUMMARYMAX).

Notation N := (d_N (n_dp n)).

Lemma pots_bound k : 0 <= k <= rows ->
  pots m N k <= sumZ (h_bets (n_hand n)) /\ sumZ (s_balances (n_sp n)) + pots m N k < 2 ^ 61 /\
  0 <= sumZ (s_balances (n_sp n)).
Proof.
  intros Hk. pose proof Hok as []. pose proof Hsp as []. unfold chips in *.
  pose proof (pots_mono m N k rows lp_mat ltac:(lia) ltac:(lia) ltac:(lia)) as H1.
  rewrite (side_pots_total (n_dp n) (h_bets (n_hand n)) m rows Hsp) in H1.
  pose proof (pot_le_sum (h_bets (n_hand n)) N (ho_bets _ fo_hand) ltac:(lia) fo_bets).
  pose proof (sumZ_nonneg _ fo_balances). lia.
Qed.

(** Shares paid on top of what has been won so far. *)
Lemma paying_next r bal sm won rake prake ws split x y sm' : 0 <= r < rows ->
  paying n r (pots m N r) bal sm won rake prake ->
  pot_shared (n_dp n) (nth (Z.to_nat r) m []) ws split x y ->
  Z.of_nat (length sm') <= Z.of_nat (length sm) + 90 ->
  paying n (r + 1) (pots m N (r + 1)) (paid split ws (seat (n_sp n)) bal) sm'
    (paid split ws (fun w => w) won) (rake + x) (prake + y).
Proof.
  intros Hr [] [] Hsm. pose proof Hok as [].
  assert (forall w, w ∈ ws -> 0 <= w < N) as Hws by (intros w Hw; apply ps_winners in Hw; lia).
  assert (forall w, w ∈ ws -> 0 <= seat (n_sp n) w < 9) as Hseat.
  { intros w Hw. apply (funds_seat n w Hok). by apply Hws. }
  assert (forall w, w ∈ ws -> 0 <= seat (n_sp n) w < Z.of_nat (length bal)) as Hb by (intros; rewrite py_len0; by apply Hseat).
  assert (forall w, w ∈ ws -> 0 <= w < Z.of_nat (length won)) as Hw.
  { intros w Hw%Hws. rewrite py_won_len0. lia. }
  assert (forall v w, 0 <= v < N -> 0 <= w < N -> seat (n_sp n) v = seat (n_sp n) w -> v = w) as Hinj.
  { intros v w Hv Hw'. apply seat_inj; [done|rewrite fo_active; exact Hv|rewrite fo_active; exact Hw']. }
  assert (forall v w, v ∈ ws -> w ∈ ws -> seat (n_sp n) v = seat (n_sp n) w -> v = w) as Hinjw by auto.
  assert (forall j, 0 <= j < N -> stake (paid split ws (fun w => w) won) j =
    stake won j + (if decide (j ∈ ws) then split else 0)) as Hwon.
  { intros j Hj. unfold stake.
    destruct (paid_entry split ws (fun w => w) won j ps_nodup Hw ltac:(auto)) as [E1 E2].
    destruct (decide (j ∈ ws)) as [Hin|Hin]; [by rewrite (E1 j Hin eq_refl)|].
    rewrite E2; [lia| |lia]. intros w Hin' ->. done. }
  split.
  - by rewrite paid_length.
  - by rewrite paid_length.
  - apply Forall_lookup_2. intros i z Hz.
    assert (z = nth (Z.to_nat (Z.of_nat i)) (paid split ws (fun w => w) won) 0) as ->
      by (rewrite Nat2Z.id; by rewrite (nth_lookup_Some _ _ _ _ Hz)).
    destruct (paid_entry split ws (fun w => w) won (Z.of_nat i) ps_nodup Hw ltac:(auto)) as [E1 E2].
    pose proof (le_sum won (Z.of_nat i) py_won0).
    destruct (decide (Z.of_nat i ∈ ws)) as [Hin|Hin]; [rewrite (E1 _ Hin eq_refl); lia|].
    rewrite E2; [lia| |lia]. intros w Hin' ->. done.
  - intros j Hj. rewrite Hwon by exact Hj. specialize (py_seat0 j Hj).
    destruct (paid_entry split ws (seat (n_sp n)) bal (seat (n_sp n) j) ps_nodup Hb Hinjw) as [E1 E2].
    destruct (decide (j ∈ ws)) as [Hin|Hin]; [rewrite (E1 j Hin eq_refl); lia|].
    rewrite E2; [lia| |apply (funds_seat n j Hok Hj)]. intros w Hw' E. apply Hinj in E; [by subst|by apply Hws|done].
  - intros s Hs Hno. destruct (paid_entry split ws (seat (n_sp n)) bal s ps_nodup Hb Hinjw) as [_ E2].
    rewrite E2; [by apply py_other0| |lia]. intros w Hw'. apply Hno. by apply Hws.
  - intros j Hj Hout. rewrite Hwon by exact Hj. rewrite decide_False; [rewrite py_out0 by done; lia|].
    intros Hin%ps_winners. unfold contests in Hin. rewrite Hout in Hin. by destruct Hin as (_ & ? & _).
  - rewrite !paid_sum by done. lia.
  - rewrite paid_sum, pots_S by (done || lia). lia.
  - lia.
  - lia.
  - lia.
Qed.

Lemma finish_pots_spec : h_won (n_hand n) = replicate 9 0 ->
  exists bal sm won rake prake,
    finish_pots m rows rakemillis n = Some (with_funds n bal sm, won, rake, prake) /\
    paying n rows (pots m N rows) bal sm won rake prake.
Proof.
  intros Hwon. pose proof Hok as []. pose proof Hsp as []. unfold finish_pots.
  match goal with |- context [for_ ?f _ _ _] => set (F := f) end.
  destruct (for_inv (fun r '(k, won, rake, prake) => exists bal sm, k = with_funds n bal sm /\
    paying n r (pots m N r) bal sm won rake prake) F (Z.to_nat rows) 0 (n, h_won (n_hand n), 0, 0))
    as ([[[k won] rake] prake] & E & bal & sm & -> & Hp).
  - exists (s_balances (n_sp n)), (d_summary (n_dp n)). split; [by rewrite with_funds_self|].
    rewrite Hwon.
    assert (forall j, stake (replicate 9 0) j = 0) as Hz.
    { intros j. unfold stake. rewrite nth_lookup. destruct (_ !! _) as [z|] eqn:Ez; [|done].
      by apply lookup_replicate_1 in Ez as [-> _]. }
    split; try done; try lia.
    + apply ok_balances_len, fo_table.
    + apply Forall_replicate. lia.
    + intros j Hj. rewrite Hz. unfold balance. lia.
    + change (sumZ (replicate 9 0)) with 0. lia.
    + change (sumZ (replicate 9 0)) with 0. unfold pots.
      rewrite (sumZ_fmap_ext _ (fun _ => 0) _ (fun j _ => eq_refl)).
      induction (positions N) as [|p l IH]; [done|]. rewrite fmap_cons. unfold sumZ in *. cbn [foldr]. lia.
    + unfold log_size. lia.
  - intros r [[[k won] rake] prake] Hr (bal & sm & -> & Hp). unfold F. pose proof Hp as [].
    assert (0 <= r < rows) as Hr' by lia. pose proof (paying_balances _ _ _ _ _ _ _ _ Hok Hp) as Hbal.
    destruct (mat_row m r lp_mat) as [-> Hrow]; [lia|]. cbn [mbind option_bind].
    destruct (pots_bound r) as (B1 & B2 & B0); [lia|]. destruct (pots_bound (r + 1)) as (B3 & B4 & _); [lia|].
    rewrite pots_S in B3, B4 by lia. pose proof (sumZ_nonneg _ py_won0).
    change (2 ^ 61) with 2305843009213693952 in *.
    destruct (splitpot_shared won prake (nth (Z.to_nat r) m []) (with_funds n bal sm) rakemillis)
      as (ws & split & x & y & sm' & -> & Hps & Hsm'); try done.
    + by apply with_funds_table_ok.
    + apply small_entries; [done|done|simpl; change (2 ^ 61) with 2305843009213693952; lia].
    + apply small_entries; [done|done|change (2 ^ 61) with 2305843009213693952; lia].
    + change (d_N (n_dp (with_funds n bal sm))) with N. change (2 ^ 61) with 2305843009213693952. lia.
    + change (d_summary (n_dp (with_funds n bal sm))) with sm. lia.
    + destruct (lp_contested Hcont r Hr') as (j & Hj & Ha & Hc). exists j. split; [done|].
      unfold contests. change (in_hand (n_dp (with_funds n bal sm)) j) with (in_hand (n_dp n) j).
      rewrite Ha. by apply Z.ltb_lt.
    + intros j Hj Hc. apply andb_prop in Hc as [Ha Hc]. apply (Hnamed j Hj Ha). apply Z.ltb_lt in Hc.
      rewrite <- (lp_sum j Hj). pose proof (cell_le_staked m j (Z.to_nat rows) r lp_mat ltac:(lia)). unfold cell in *. unfold stake in Hc. lia.
    + cbn [mbind option_bind].
      change (s_balances (n_sp (with_funds n bal sm))) with bal.
      change (seat (n_sp (with_funds n bal sm))) with (seat (n_sp n)).
      rewrite with_funds_twice.
      pose proof (paying_next r bal sm won rake prake ws split x y sm' Hr' Hp ltac:(by destruct Hps; split) Hsm') as Hn.
      assert (0 <= rake + x /\ 0 <= prake + y /\ rake + x + (prake + y) <= pots m N (r + 1)) as (R1 & R2 & R3).
      { destruct Hn. pose proof (sumZ_nonneg _ py_won1). lia. }
      rewrite pots_S in R3 by lia. rewrite (u64_small (rake + x)), (u64_small (prake + y)) by lia.
      eexists (_, _, _, _). split; [reflexivity|]. do 2 eexists. split; [reflexivity|exact Hn].
  - rewrite Z.add_0_l, Z2Nat.id in Hp by lia. exists bal, sm, won, rake, prake. done.
Qed.
End Finish.

(** ** [pangea_finish] *)

Lemma finish_changes_spec n : table_ok (n_sp n) -> s_numactive (n_sp n) = d_N (n_dp n) ->
  0 <= d_N (n_dp n) -> length (d_snapshot (n_dp n)) = 9%nat ->
  exists bal busted rebuy, finish_changes n = Some (bal, busted, rebuy) /\
    Z.of_nat (length bal) = d_N (n_dp n).
Proof.
  intros Hok Hact HN Hs. unfold finish_changes.
  match goal with |- context [for_ ?f _ _ _] => set (F := f) end.
  destruct (for_inv (fun k '(b, _, _) => Z.of_nat (length (b : list Z)) = k) F
    (Z.to_nat (d_N (n_dp n))) 0 ([], 0, 0)) as ([[b bu] re] & E & Hl); [done| |].
  - intros k [[b bu] re] Hk Hl. unfold F, slot_balance.
    destruct (seat_spec (n_sp n) k Hok) as [-> Hseat]; [lia|]. cbn [mbind option_bind].
    pose proof (ok_balances_len _ Hok).
    rewrite (aget_nth (s_balances (n_sp n)) _ 0), (aget_nth (d_snapshot (n_dp n)) _ 0) by lia.
    cbn [mbind option_bind].
    assert (Z.of_nat (length (b ++ [nth (Z.to_nat (seat (n_sp n) k)) (s_balances (n_sp n)) 0])) = k + 1)
      by (rewrite length_app; simpl; lia).
    repeat case_match; eexists; (split; [reflexivity|]); simpl; lia.
  - exists b, bu, re. split; [exact E|]. lia.
Qed.

(** The outcome of a settlement. *)
Record settled (now : Z) (n n' : node) : Prop := mk_settled {
  se_won : forall j, 0 <= j < d_N (n_dp n) -> 0 <= stake (h_won (n_hand n')) j;
  se_folded : forall j, 0 <= j < d_N (n_dp n) -> in_hand (n_dp n) j = false ->
    stake (h_won (n_hand n')) j = 0;
  se_seat : forall j, 0 <= j < d_N (n_dp n) ->
    balance (n_sp n') (seat (n_sp n) j) = balance (n_sp n) (seat (n_sp n) j) + stake (h_won (n_hand n')) j;
  se_other : forall s, 0 <= s < 9 -> (forall j, 0 <= j < d_N (n_dp n) -> seat (n_sp n) j <> s) ->
    balance (n_sp n') s = balance (n_sp n) s;
  se_rake : 0 <= h_hostrake (n_hand n') /\ 0 <= h_pangearake (n_hand n');
  se_chips : sumZ (s_balances (n_sp n')) + h_hostrake (n_hand n') + h_pangearake (n_hand n') =
    sumZ (s_balances (n_sp n)) + pot (h_bets (n_hand n)) (d_N (n_dp n));
  se_hostrake : d_hostrake (n_dp n') = d_hostrake (n_dp n) + h_hostrake (n_hand n');
  se_pangearake : d_pangearake (n_dp n') = d_pangearake (n_dp n) + h_pangearake (n_hand n');
  se_finished : h_finished (n_hand n') = u32 now;
  se_funds : n_sp n' = n_sp n <| s_balances := s_balances (n_sp n') |> /\ h_bets (n_hand n') = h_bets (n_hand n);
  se_table : table_ok (n_sp n');
  se_frame : n_slot n' = n_slot n /\ n_priv n' = n_priv n /\ n_hand n' = n_hand n
      <| h_won := h_won (n_hand n') |> <| h_hostrake := h_hostrake (n_hand n') |>
      <| h_pangearake := h_pangearake (n_hand n') |> <| h_finished := h_finished (n_hand n') |> /\
    d_N (n_dp n') = d_N (n_dp n) /\ d_numcards (n_dp n') = d_numcards (n_dp n);
}.

(** What a settlement needs: an unfinished hand in which some player who has not
    folded has bet, and in which the hands of all these players have a text. *)
Record ready_to_settle (n : node) : Prop := mk_ready {
  rs_funds : funds_ok n;
  rs_slot : 0 <= n_slot n < 9;
  rs_open : h_finished (n_hand n) = 0;
  rs_won : h_won (n_hand n) = replicate 9 0;
  rs_community : length (h_community (n_hand n)) = 5%nat;
  rs_snapshot : length (d_snapshot (n_dp n)) = 9%nat;
  rs_rate : 0 <= d_rakemillis (n_dp n) <= 1000;
  rs_maxrake : 0 <= d_maxrake (n_dp n);
  rs_rakes : 0 <= d_hostrake (n_dp n) < 2 ^ 63 /\ 0 <= d_pangearake (n_dp n) < 2 ^ 63;
  rs_contested : exists j, 0 <= j < d_N (n_dp n) /\ in_hand (n_dp n) j = true /\
    0 < bet_of (h_bets (n_hand n)) j;
  rs_named : forall j, 0 <= j < d_N (n_dp n) -> in_hand (n_dp n) j = true ->
    0 < bet_of (h_bets (n_hand n)) j -> named (n_dp n) j = true;
  rs_log : log_size n + 1000 <= SUMMARYMAX;
}.

(** The log entries and the summary message at the end of a settlement. *)
Lemma finish_tail_spec n prake rake : table_ok (n_sp n) -> s_numactive (n_sp n) = d_N (n_dp n) ->
  0 <= n_slot n < 9 -> 0 <= d_N (n_dp n) <= 9 -> length (d_snapshot (n_dp n)) = 9%nat ->
  log_size n + 100 <= SUMMARYMAX ->
  exists sm out,
    ('(balances, busted, rebuy) ← finish_changes n;
     let changes := Z.lor (Z.lor (u32 (Z.shiftl rebuy 20)) (u32 (Z.shiftl busted 4)))
                          (Z.land (d_N (n_dp n)) 15) in
     n ← n_summary n CARDS777_CHANGES (le_bytes 4 changes) (concat (le_bytes 8 <$> balances));
     n ← n_summary n CARDS777_RAKES (le_bytes 8 rake) (le_bytes 8 prake);
     if n_slot n =? pangea_slotA (n_sp n) then pangea_sendsummary n else Some n)
    = Some (n <| n_dp := n_dp n <| d_summary := sm |> |> <| n_out := out |>).
Proof.
  intros Hok Hact Hslot HN Hs Hlog.
  destruct (finish_changes_spec n Hok Hact ltac:(lia) Hs) as (bal & bu & re & -> & Hl).
  cbn [mbind option_bind]. rewrite n_summary_room.
  2:{ rewrite length_le_bytes, length_snapshot_bytes. lia. }
  cbn [mbind option_bind]. set (n1 := n <| n_dp := _ |>).
  assert (log_size n1 = log_size n + 1 + 4 + 8 * Z.of_nat (length bal)) as L1.
  { unfold n1, log_size. cbv [upd n_dp d_summary]. rewrite length_app. cbn [length].
    rewrite length_app, length_le_bytes, length_snapshot_bytes. lia. }
  rewrite n_summary_room.
  2:{ rewrite !length_le_bytes. lia. }
  cbn [mbind option_bind].
  match goal with |- context [n_slot ?k =? _] => set (n2 := k) end.
  change (n_slot n2) with (n_slot n).
  destruct (n_slot n =? pangea_slotA (n_sp n2)).
  - unfold pangea_sendsummary, n_send. rewrite sendcmd_broadcast by done. by do 2 eexists.
  - exists (d_summary (n_dp n2)), (n_out n). done.
Qed.

Lemma funds_bets n : funds_ok n -> bets_ok (h_bets (n_hand n)).
Proof.
  intros []. split; [apply (ho_bets _ fo_hand)|]. apply Forall_lookup_2. intros i x Hx.
  pose proof (Forall_lookup_1 _ _ _ _ fo_bets Hx) as H0. pose proof (sumZ_lookup_le _ _ _ fo_bets Hx).
  pose proof (sumZ_nonneg _ fo_balances). unfold chips in *.
  change (2 ^ 61) with 2305843009213693952 in *. cbv beta in *. lia.
Qed.

Lemma finish_spec now n : ready_to_settle n ->
  exists n', pangea_finish now n = Some n' /\ settled now n n'.
Proof.
  intros []. pose proof rs_funds0 as []. unfold pangea_finish. rewrite rs_open0. cbn [negb Z.eqb].
  destruct (sidepots_layered (n_dp n) (h_bets (n_hand n))) as (m & rows & -> & Hsp); [done| | |].
  { apply (ho_betstatus _ fo_hand). }
  { by apply funds_bets. }
  cbn [mbind option_bind]. rewrite (aget_nth _ _ 0) by (rewrite rs_community0; simpl; lia).
  cbn [mbind option_bind].
  set (rate := if _ =? 255 then 0 else d_rakemillis (n_dp n)).
  assert (0 <= rate <= 1000) as Hrate by (unfold rate; destruct (_ =? 255); lia).
  pose proof (lp_rows _ _ _ _ Hsp) as Hrows.
  destruct (finish_pots_spec n m rows rate rs_funds0 Hsp rs_contested0 rs_named0 Hrate rs_maxrake0 ltac:(lia) rs_won0)
    as (bal & sm & won & rake & prake & -> & Hp).
  cbn [mbind option_bind].
  pose proof (pots_bound n m rows rs_funds0 Hsp rows ltac:(lia)) as (B1 & B2 & B3).
  rewrite (side_pots_total _ _ _ _ Hsp) in B1, B2, Hp.
  pose proof Hp as []. pose proof (sumZ_nonneg _ py_won0).
  change (2 ^ 61) with 2305843009213693952 in *. change (2 ^ 63) with 9223372036854775808 in *.
  match goal with |- context [finish_changes ?k] => set (n1 := k) end.
  assert (n_hand n1 = n_hand n <| h_won := won |> <| h_hostrake := s64 rake |>
    <| h_pangearake := s64 prake |> <| h_finished := u32 now |>) as Eh by done.
  rewrite !s64_small in Eh by lia.
  destruct (finish_tail_spec n1 prake rake) as (sm' & out & E); try done.
  { by apply with_funds_table_ok. }
  { change (d_N (n_dp n1)) with (d_N (n_dp n)). lia. }
  { change (log_size n1) with (Z.of_nat (length sm)). lia. }
  eexists. split; [exact E|].
  set (n2 := n1 <| n_dp := _ |> <| n_out := out |>).
  assert (n_hand n2 = n_hand n1) as E2 by done. rewrite Eh in E2.
  assert (table_ok (n_sp n1)) as Ht by by apply with_funds_table_ok.
  split; try (rewrite E2).
  - intros j Hj. apply (le_sum won j py_won0).
  - exact py_out0.
  - exact py_seat0.
  - exact py_other0.
  - simpl. lia.
  - simpl. simpl in *. lia.
  - simpl. apply u64_small. lia.
  - simpl. apply u64_small. lia.
  - done.
  - done.
  - exact Ht.
  - done.
Qed.


(** *** A hand without a text *)

Lemma summary_frame dp type a0 a1 dp' : pangea_summary dp type a0 a1 = Some dp' -> d_hand dp' = d_hand dp /\ d_N dp' = d_N dp.
Proof. unfold pangea_summary. case_match; [done|]. by intros [= <-]. Qed.

Lemma pay_winner_frame split w n won n' won' : pay_winner split w (n, won) = Some (n', won') ->
  d_hand (n_dp n') = d_hand (n_dp n) /\ d_N (n_dp n') = d_N (n_dp n).
Proof.
  unfold pay_winner, n_summary. intros H. apply bind_Some in H as (n1 & H1 & H). apply bind_Some in H1 as (dp & H1 & [= <-]).
  apply summary_frame in H1. repeat (apply bind_Some in H as (? & _ & H)). injection H as <- _. exact H1.
Qed.

Lemma pay_all_frame split ws : forall st n' won', foldl (fun st w => s ← st; pay_winner split w s) st ws = Some (n', won') ->
  exists n won, st = Some (n, won) /\ d_hand (n_dp n') = d_hand (n_dp n) /\ d_N (n_dp n') = d_N (n_dp n).
Proof.
  induction ws as [|w ws IH]; cbn [foldl]; intros st n' won' H; [by exists n', won'|].
  apply IH in H as (n1 & won1 & H & E1 & E2). apply bind_Some in H as ([n won] & -> & H). apply pay_winner_frame in H as [F1 F2].
  exists n, won. split; [done|]. split; congruence.
Qed.

Lemma splitpot_frame won prake row n rm n' won' prake' r : pangea_splitpot won prake row n rm = Some (n', won', prake', r) ->
  d_hand (n_dp n') = d_hand (n_dp n) /\ d_N (n_dp n') = d_N (n_dp n).
Proof.
  unfold pangea_splitpot. intros H. apply bind_Some in H as ([total best] & _ & H). apply bind_Some in H as (ws & _ & H).
  destruct ws as [|w ws]; [by injection H as <- _ _ _|]. apply bind_Some in H as (mr & _ & H).
  destruct (pangea_winnings _ _ _ _) as [[split rake] pr]. apply bind_Some in H as ([n1 won1] & H1 & H). injection H as <- _ _ _.
  by apply pay_all_frame in H1 as (? & ? & [= <- <-] & F).
Qed.

Lemma finish_unnamed now n j : funds_ok n -> h_finished (n_hand n) = 0 -> 0 <= j < d_N (n_dp n) -> in_hand (n_dp n) j = true ->
  0 < bet_of (h_bets (n_hand n)) j -> length (nth (Z.to_nat j) (h_hands (n_hand n)) []) = 7%nat ->
  Exists (fun c => ~ card_ok c) (nth (Z.to_nat j) (h_hands (n_hand n)) []) -> pangea_finish now n = None.
Proof.
  intros Hok Hopen Hj Ha Hbet Hl Hex. pose proof Hok as []. pose proof (unknown_unnamed _ Hl Hex) as Hn.
  unfold pangea_finish. rewrite Hopen. cbn [negb Z.eqb].
  destruct (sidepots_layered (n_dp n) (h_bets (n_hand n))) as (m & rows & -> & Hsp); [done| | |].
  { apply (ho_betstatus _ fo_hand). }
  { by apply funds_bets. }
  cbn [mbind option_bind]. destruct (aget (h_community (n_hand n)) 0) as [c0|]; [|done]. cbn [mbind option_bind].
  pose proof Hsp as []. destruct (staked_in_row m j (Z.to_nat rows)) as (r & Hr & Hc); [by rewrite lp_sum by done|].
  assert (forall rate, finish_pots m rows rate n = None) as Hf; [|by rewrite Hf].
  intros rate. apply (for_fails (fun '(k, _, _, _) => d_hand (n_dp k) = d_hand (n_dp n) /\ d_N (n_dp k) = d_N (n_dp n)) _ r); [| |lia|done].
  - intros i [[[k won] ra] pr] [[[k' won'] ra'] pr'] [E1 E2] H. apply bind_Some in H as (row & _ & H). apply bind_Some in H as ([[[k1 w1] p1] r1] & H1 & H).
    injection H as <- _ _ _. apply splitpot_frame in H1 as [F1 F2]. split; congruence.
  - intros [[[k won] ra] pr] [E1 E2]. destruct (mat_row m r lp_mat ltac:(lia)) as [-> Hrow]. cbn [mbind option_bind].
    rewrite (splitpot_unnamed won pr _ k rate j); [done|by rewrite E2|by rewrite E1|done|by rewrite E2| |by unfold named; rewrite E1].
    unfold contests, in_hand. rewrite E1. unfold in_hand in Ha. rewrite Ha. by apply Z.ltb_lt.
Qed.

(** At most one player has not folded. *)
Lemma actives_last dp j : length (h_betstatus (d_hand dp)) = 9%nat -> 0 <= d_N dp <= 9 ->
  (forall i, 0 <= i < d_N dp -> i <> j -> in_hand dp i = false) -> exists k a, pangea_actives dp = Some (k, a) /\ k <= 1.
Proof.
  intros Hl HN Hout. unfold pangea_actives. match goal with |- context [for_ ?f _ _ _] => set (F := f) end.
  destruct (for_inv (fun i '(k, _) => k <= (if decide (j < i) then 1 else 0)) F (Z.to_nat (d_N dp)) 0 (0, -1)) as ([k a] & E & Hk).
  - case_decide; lia.
  - intros i [k a] Hi Hk. unfold F. rewrite (aget_nth _ _ 0) by lia. cbn [mbind option_bind]. specialize (Hout i ltac:(lia)). unfold in_hand, active in Hout.
    destruct (folded (nth (Z.to_nat i) (h_betstatus (d_hand dp)) 0)) eqn:Ef; eexists; (split; [reflexivity|]); cbn.
    + repeat case_decide; lia.
    + destruct (decide (i = j)) as [->|Hne]; [repeat case_decide; lia|]. by specialize (Hout Hne).
  - exists k, a. split; [done|]. case_decide; lia.
Qed.

(** C36: a player who is still in and has bet, and one of whose seven cards is unknown,
    makes the settlement access [handstr[-1]], whatever the other hands are.  So does
    [pangea_lastman] when he is the last one left: a hand that everybody else folds
    before the cards are shown. *)
Theorem pangea_finish_unnamed now n j : funds_ok n -> h_finished (n_hand n) = 0 -> 0 <= j < d_N (n_dp n) -> in_hand (n_dp n) j = true ->
  0 < bet_of (h_bets (n_hand n)) j -> length (nth (Z.to_nat j) (h_hands (n_hand n)) []) = 7%nat ->
  Exists (fun c => ~ card_ok c) (nth (Z.to_nat j) (h_hands (n_hand n)) []) ->
  pangea_finish now n = None /\
  (h_betstarted (n_hand n) <> 0 -> (forall i, 0 <= i < d_N (n_dp n) -> i <> j -> in_hand (n_dp n) i = false) -> pangea_lastman now n = None).
Proof.
  intros Hok Hopen Hj Ha Hbet Hl Hex. pose proof (finish_unnamed now n j Hok Hopen Hj Ha Hbet Hl Hex) as E. split; [done|].
  intros Hb Hout. pose proof Hok as []. unfold pangea_lastman. destruct (Z.eqb_spec (h_betstarted (n_hand n)) 0); [done|].
  destruct (actives_last (n_dp n) j) as (k & a & -> & Hk); [apply (ho_betstatus _ fo_hand)|lia|done|]. cbn [mbind option_bind].
  destruct (Z.leb_spec k 1); [|lia]. rewrite Hopen. cbn [negb Z.eqb]. by rewrite E.
Qed.

(** ** A whole hand *)

(** One operation of the betting, by whatever message it is caused. *)
Inductive hand_step : node -> node -> Prop :=
  | step_bet n player amount action n' r :
      0 <= player < d_N (n_dp n) -> 0 <= amount < 2 ^ 61 ->
      action <> CARDS777_FOLD -> action <> CARDS777_ALLIN -> log_size n + 10 <= SUMMARYMAX ->
      pangea_bet n player amount action = Some (n', r) -> hand_step n n'
  | step_fold n player n' :
      0 <= player < d_N (n_dp n) -> log_size n + 10 <= SUMMARYMAX ->
      pangea_fold n player = Some n' -> hand_step n n'
  | step_antes n n' :
      log_size n + 400 <= SUMMARYMAX -> pangea_antes n = Some n' -> hand_step n n'.

(** A hand before any chip is bet, with every player at the seat of his position. *)
Record hand_start (n : node) : Prop := mk_hand_start {
  hs_funds : funds_ok n;
  hs_bets : h_bets (n_hand n) = replicate 9 0;
  hs_seats : forall j, 0 <= j < d_N (n_dp n) -> seat (n_sp n) j = j;
  hs_snapshot : length (d_snapshot (n_dp n)) = 9%nat;
  hs_ante : 0 <= d_ante (n_dp n);
  hs_bigblind : 0 <= d_bigblind (n_dp n) < 2 ^ 61;
}.

(** What the betting keeps. *)
Record hand_inv (n0 n : node) : Prop := mk_hand_inv {
  hi_funds : funds_ok n;
  hi_chips : chips n = chips n0;
  hi_N : d_N (n_dp n) = d_N (n_dp n0);
  hi_seats : forall j, seat (n_sp n) j = seat (n_sp n0) j;
  hi_snapshot : length (d_snapshot (n_dp n)) = 9%nat;
  hi_ante : d_ante (n_dp n) = d_ante (n_dp n0);
  hi_bigblind : d_bigblind (n_dp n) = d_bigblind (n_dp n0);
  hi_bets : forall i, d_N (n_dp n0) <= i -> bet_of (h_bets (n_hand n)) i = 0;
  hi_fold : forall i, status_of (n_hand n0) i = CARDS777_FOLD -> status_of (n_hand n) i = CARDS777_FOLD;
}.

Lemma hand_inv_betting n0 n k n' : hand_start n0 -> hand_inv n0 n -> betting k n n' -> funds_ok n' -> hand_inv n0 n'.
Proof.
  intros [] [] Hb Hok. pose proof (betting_N _ _ _ Hb) as EN. split; try done; try congruence.
  - by rewrite (bt_chips _ _ _ Hb).
  - intros j. by rewrite (betting_seat _ _ _ j Hb).
  - by rewrite (bt_dp _ _ _ Hb).
  - by rewrite (bt_dp _ _ _ Hb).
  - by rewrite (bt_dp _ _ _ Hb).
  - intros i Hi. pose proof (fo_N _ hs_funds0). rewrite (bt_bets _ _ _ Hb); [by apply hi_bets0|lia|].
    intros j Hj. rewrite hi_seats0, hs_seats0 by lia. lia.
  - intros i Hi. by apply (bt_fold _ _ _ Hb), hi_fold0.
Qed.

Lemma hand_inv_start n0 : hand_start n0 -> hand_inv n0 n0.
Proof.
  intros []. split; try done. intros i Hi. rewrite hs_bets0. unfold bet_of.
  rewrite nth_lookup. destruct (_ !! _) as [z|] eqn:Ez; [|done]. by apply lookup_replicate_1 in Ez as [-> _].
Qed.

(** Whoever has folded stays out. *)
Definition stays_out (n n' : node) : Prop := forall i, status_of (n_hand n) i = CARDS777_FOLD -> status_of (n_hand n') i = CARDS777_FOLD.

Lemma hand_inv_step n0 n n' : hand_start n0 -> hand_inv n0 n -> hand_step n n' -> hand_inv n0 n' /\ stays_out n n'.
Proof.
  intros Hs Hi Hstep. pose proof Hi as []. destruct Hstep as
    [n player amount action n' r Hp Ha Hf Hall Hlog E|n player n' Hp Hlog E|n n' Hlog E].
  - destruct (bet_spec n player amount action) as (n2 & r2 & E2 & Hok & Hb & _); try done.
    rewrite E in E2. injection E2 as <- <-. split; [by apply (hand_inv_betting n0 n 10 n')|exact (bt_fold _ _ _ Hb)].
  - destruct (pangea_fold_spec n player) as (n2 & E2 & Hok & Hb & _); try done.
    rewrite E in E2. injection E2 as <-. split; [by apply (hand_inv_betting n0 n 10 n')|exact (bt_fold _ _ _ Hb)].
  - destruct (antes_spec n) as (snap & sm & n2 & E2 & Hok & Hb & _ & Ls & _ & _); try done.
    { rewrite hi_ante0. apply Hs. }
    { rewrite hi_bigblind0. apply Hs. }
    rewrite E in E2. injection E2 as <-. split; [|exact (bt_fold _ _ _ Hb)].
    eapply (hand_inv_betting n0 _ 290 n'); [done| |exact Hb|done].
    split; try done. by apply funds_ok_snapshot.
Qed.

Lemma hand_inv_run n0 n n' : hand_start n0 -> hand_inv n0 n -> rtc hand_step n n' -> hand_inv n0 n' /\ stays_out n n'.
Proof.
  intros Hs Hi Hr. revert n' Hr. apply rtc_ind_r; [split; [done|intros i; done]|].
  intros y z _ Hstep [Hy Hout]. destruct (hand_inv_step n0 y z Hs Hy Hstep) as [Hz Hout']. split; [done|].
  intros i Hf. by apply Hout', Hout.
Qed.

Lemma hand_inv_reachable n0 n : hand_start n0 -> rtc hand_step n0 n -> hand_inv n0 n.
Proof. intros Hs Hr. by apply (hand_inv_run n0 n0 n Hs (hand_inv_start n0 Hs)). Qed.

(** Nothing is bet beyond the players' positions. *)
Lemma pot_all bets N : length bets = 9%nat -> 0 <= N <= 9 ->
  (forall i, N <= i -> bet_of bets i = 0) -> pot bets N = sumZ bets.
Proof.
  intros Hl HN Hz. assert (forall k, 0 <= k <= 9 - N -> pot bets (N + k) = pot bets N) as Hk.
  { intros k Hk. replace k with (Z.of_nat (Z.to_nat k)) by lia.
    induction (Z.to_nat k) as [|d IH]; [by rewrite Z.add_0_r|].
    replace (N + Z.of_nat (S d)) with (N + Z.of_nat d + 1) by lia. rewrite pot_S, IH by lia.
    change (stake bets (N + Z.of_nat d)) with (bet_of bets (N + Z.of_nat d)). rewrite Hz by lia. lia. }
  rewrite <- (Hk (9 - N)) by lia. replace (N + (9 - N)) with 9 by lia. unfold pot. f_equal.
  apply list_eq. intros i. unfold positions. rewrite !list_lookup_fmap.
  destruct (decide (i < 9)%nat) as [Hi|Hi].
  - rewrite lookup_seq_lt by (simpl; lia). simpl. unfold stake. rewrite Nat2Z.id.
    destruct (lookup_lt_is_Some_2 bets i) as [x Hx]; [lia|]. by rewrite Hx, (nth_lookup_Some _ _ _ _ Hx).
  - rewrite lookup_seq_ge, lookup_ge_None_2 by (simpl; lia). done.
Qed.


(** ** Turns *)

(** The player can still act. *)
Definition can_act (h : cards777_handinfo) (j : Z) : Prop :=
  status_of h j <> CARDS777_FOLD /\ status_of h j <> CARDS777_ALLIN.

Lemma skip_idle_inv N k : forall i j h, 1 <= N <= 9 -> 0 <= i -> 0 <= h_undergun h ->
  length (h_betstatus h) = 9%nat -> length (h_actions h) = 9%nat ->
  exists h' j' c, skip_idle N i j k h = Some (h', j') /\ (c <= k)%nat /\
    h' = h <| h_actions := h_actions h' |> <| h_numactions := h_numactions h' |> /\
    length (h_actions h') = 9%nat /\
    u8 (h_numactions h') = u8 (h_numactions h + Z.of_nat c) /\
    (forall x, (x < c)%nat -> ~ can_act h ((h_undergun h + i + Z.of_nat x) mod N)) /\
    ((c < k)%nat -> j' = (h_undergun h + i + Z.of_nat c) mod N /\ can_act h j') /\
    (c = k -> (0 < k)%nat -> j' = (h_undergun h + i + Z.of_nat k - 1) mod N).
Proof.
  induction k as [|k IH]; intros i j h HN Hi Hu Hst Hac; cbn [skip_idle].
  - exists h, j, 0%nat. split; [done|]. split; [lia|]. split; [by destruct h|]. split; [done|].
    split; [f_equal; simpl; lia|]. split; [lia|]. split; lia.
  - rewrite Z.rem_mod_nonneg by lia. set (q := (h_undergun h + i) mod N).
    assert (0 <= q < N) as Hq by (apply Z.mod_pos_bound; lia).
    rewrite (aget_nth _ _ 0) by lia. cbn [mbind option_bind]. fold (status_of h q).
    destruct ((status_of h q =? CARDS777_FOLD) || (status_of h q =? CARDS777_ALLIN)) eqn:Eq.
    + rewrite aset_in_range by lia. cbn [mbind option_bind].
      set (h1 := h <| h_actions := _ |> <| h_numactions := _ |>).
      destruct (IH (i + 1) q h1) as (h' & j' & c & E & Hc & Eh & La & En & Hno & Hlt & Heq);
        [done|lia|done|done|unfold h1; simpl; by rewrite length_insert|].
      assert (h_undergun h1 = h_undergun h) as Eu by done. rewrite Eu in Hno, Hlt, Heq.
      exists h', j', (S c). split; [done|]. split; [lia|]. split; [rewrite Eh at 1; done|].
      split; [done|]. split.
      { rewrite En. change (h_numactions h1) with (u8 (h_numactions h + 1)).
        unfold u8, wrapU. rewrite Zplus_mod_idemp_l. f_equal. lia. }
      split; [|split].
      * intros [|x] Hx.
        -- rewrite Z.add_0_r. fold q. unfold can_act. intros [H1 H2].
           apply orb_true_iff in Eq as [Eq%Z.eqb_eq|Eq%Z.eqb_eq]; done.
        -- replace (h_undergun h + i + Z.of_nat (S x)) with (h_undergun h + (i + 1) + Z.of_nat x) by lia.
           apply Hno. lia.
      * intros Hck. replace (h_undergun h + i + Z.of_nat (S c)) with (h_undergun h + (i + 1) + Z.of_nat c) by lia.
        apply Hlt. lia.
      * intros Hck _. destruct (decide (k = 0%nat)) as [->|Hk].
        -- simpl in E. injection E as _ <-. unfold q. f_equal. simpl. lia.
        -- rewrite Heq by lia. f_equal. lia.
    + exists h, q, 0%nat. split; [done|]. split; [lia|]. split; [by destruct h|]. split; [done|].
      split; [f_equal; simpl; lia|]. split; [lia|].
      apply orb_false_iff in Eq as [E1%Z.eqb_neq E2%Z.eqb_neq]. split; [|lia].
      intros _. unfold q. split; [f_equal; simpl; lia|]. done.
Qed.

(** passing over players who cannot act.  Starting from [undergun] the loop
    stops at the first player, in circular order, who has neither folded nor gone
    all in, after counting each player before him as having acted; when nobody
    can act it has counted all [N] of them. *)
Theorem skip_idle_spec N h : 1 <= N <= 9 -> 0 <= h_undergun h ->
  length (h_betstatus h) = 9%nat -> length (h_actions h) = 9%nat ->
  exists h' j c, skip_idle N 0 0 (Z.to_nat N) h = Some (h', j) /\ 0 <= c <= N /\ 0 <= j < N /\
    u8 (h_numactions h') = u8 (h_numactions h + c) /\ h_bets h' = h_bets h /\
    (forall x, 0 <= x < c -> ~ can_act h ((h_undergun h + x) mod N)) /\
    (c < N -> j = (h_undergun h + c) mod N /\ can_act h j).
Proof.
  intros HN Hu Hst Hac.
  destruct (skip_idle_inv N (Z.to_nat N) 0 0 h) as (h' & j & c & E & Hc & Eh & _ & En & Hno & Hlt & Heq);
    try done.
  exists h', j, (Z.of_nat c). split; [done|]. split; [lia|]. split.
  { destruct (decide (c < Z.to_nat N)%nat) as [Hlt'|Hge].
    - rewrite (proj1 (Hlt Hlt')). apply Z.mod_pos_bound. lia.
    - rewrite Heq by lia. apply Z.mod_pos_bound. lia. }
  split; [done|]. split; [by rewrite Eh|]. split.
  - intros x Hx. specialize (Hno (Z.to_nat x) ltac:(lia)).
    by rewrite Z2Nat.id, Z.add_0_r in Hno by lia.
  - intros Hc'. rewrite Z.add_0_r in Hlt. apply Hlt. lia.
Qed.

(** ** Witnesses *)

(** Two of three players have folded before the cards are shown. *)
Definition lone_node : node :=
  on_hand (fun h => h <| h_hands := replicate 9 (replicate 7 255) |>)
    (sample_node [100; 40; 20; 0; 0; 0; 0; 0; 0] [0; -1; -1; 0; 0; 0; 0; 0; 0] (replicate 9 0)).

Lemma pangea_finish_unnamed_witness : pangea_lastman 1700000000 lone_node = None.
Proof.
  assert (funds_ok lone_node) as Hok.
  { assert (funds_ok (sample_node [100; 40; 20; 0; 0; 0; 0; 0; 0] [0; -1; -1; 0; 0; 0; 0; 0; 0] (replicate 9 0))) as [] by (apply sample_funds_ok; concrete).
    destruct fo_hand. split; try done. }
  destruct (pangea_finish_unnamed 1700000000 lone_node 0 Hok) as [_ H]; [concrete|concrete|concrete|concrete|concrete| |].
  - apply Exists_cons_hd. unfold card_ok. lia.
  - apply H; [concrete|]. intros i Hi Hne. change (d_N (n_dp lone_node)) with 3 in Hi. assert (i = 1 \/ i = 2) as [-> | ->] by lia; reflexivity.
Defined.

(** Three players, all bets matched, the second has folded. *)
Definition bet_node : node :=
  sample_node [100; 40; 100; 0; 0; 0; 0; 0; 0] [0; -1; 0; 0; 0; 0; 0; 0; 0] [7; 9; 5; 0; 0; 0; 0; 0; 0].

Lemma bet_node_ready : ready_to_settle bet_node.
Proof.
  split; try done; try (by split).
  - apply sample_funds_ok; concrete.
  - exists 0. split; [concrete|done].
  - intros j Hj _ _. by apply sample_named.
Qed.


Definition start_node : node := sample_node (replicate 9 0) (replicate 9 0) (replicate 9 0).

Lemma start_node_start : hand_start start_node.
Proof.
  split; try done.
  - apply sample_funds.
  - intros j Hj. change (d_N (n_dp start_node)) with 3 in Hj.
    assert (j = 0 \/ j = 1 \/ j = 2) as [-> |[-> | ->]] by lia; done.
Qed.

Lemma skip_idle_spec_witness :
  exists h' j c, skip_idle 3 0 0 3 (n_hand bet_node <| h_undergun := 1 |>) = Some (h', j) /\ 0 <= c <= 3.
Proof.
  destruct (skip_idle_spec 3 (n_hand bet_node <| h_undergun := 1 |>)) as (h' & j & c & E & H & _);
    [concrete..|].
  exists h', j, c. split; [exact E|exact H].
Defined.

(** The second player folds, the others bet 100 each. *)
Definition played_node : node :=
  default start_node (n ← pangea_fold start_node 1;
    '(n, _) ← pangea_bet n 0 100 CARDS777_CHECK;
    '(n, _) ← pangea_bet n 2 100 CARDS777_CHECK; Some n).

Lemma played_node_reachable : rtc hand_step start_node played_node.
Proof.
  unfold played_node.
  destruct (pangea_fold start_node 1) as [n1|] eqn:E1; [|by vm_compute in E1].
  cbn [mbind option_bind]. 
  destruct (pangea_bet n1 0 100 CARDS777_CHECK) as [[n2 r2]|] eqn:E2; cbn [mbind option_bind]; [|apply rtc_refl].
  destruct (pangea_bet n2 2 100 CARDS777_CHECK) as [[n3 r3]|] eqn:E3; cbn [mbind option_bind]; [|apply rtc_refl].
  assert (n1 = default start_node (pangea_fold start_node 1)) as H1 by by rewrite E1.
  assert (n2 = default start_node (fst <$> pangea_bet n1 0 100 CARDS777_CHECK)) as H2 by by rewrite E2.
  rewrite H1 in H2.
  apply (rtc_l _ _ n1); [by apply (step_fold _ 1)|].
  apply (rtc_l _ _ n2).
  { eapply (step_bet _ 0 100 CARDS777_CHECK _ r2); [rewrite H1; concrete|concrete|done|done|rewrite H1; concrete|exact E2]. }
  apply rtc_once. eapply (step_bet _ 2 100 CARDS777_CHECK _ r3); [rewrite H2; concrete|concrete|done|done|rewrite H2; concrete|exact E3].
Qed.

Lemma played_node_ready : ready_to_settle played_node.
Proof.
  split; try done; try (by split).
  - apply (hi_funds start_node), hand_inv_reachable; [apply start_node_start|apply played_node_reachable].
  - exists 0. split; [concrete|done].
  - intros j Hj _ _. change (d_N (n_dp played_node)) with 3 in Hj. assert (j = 0 \/ j = 1 \/ j = 2) as [-> |[-> | ->]] by lia; reflexivity.
Qed.

