(* ===== verification/Keys.v ===== *)
(** * Keys: the keys of the cards, and the deck as it passes round the table

    Models the rest of [plugins/games/cards777.c]: a card is a private key whose
    second byte is its number; the host publishes the keys' public parts and
    encrypts each private key once for every player ([cards777_initdeck]); each
    player shuffles and blinds the deck ([cards777_encode]); a card is dealt by
    taking the layers off in the reverse order ([cards777_decode] of [Cards]) and
    is opened by the player it was encrypted for ([cards777_checkcard]).

    Curve25519 and SHA-256 are used through the interface [CurveOps]. *)

From stdpp Require Import sets.
From S2P Require Import Prelude GF256 Interp GFShare Cards Table.

Definition is256 (x : bits256) : Prop := length x = 32%nat.

Definition curve25519_basepoint9 : bits256 := 9 :: replicate 31 0.

(** What the card code relies on: products are canonical, a factor cancels on the
    right, and the two sides of a Diffie-Hellman exchange agree. *)
Class CurveOps {FO : FieldOps} := {
  curve25519 : bits256 -> bits256 -> bits256;
  vcalc_sha256 : list Z -> bits256;
  factor : bits256 -> Prop;
  canonical_is256 : forall x, canonical x -> is256 x;
  crecip_is256 : forall x, is256 x -> is256 (crecip_donna x);
  sha256_is256 : forall l, is256 (vcalc_sha256 l);
  curve25519_is256 : forall a b, is256 a -> is256 b -> is256 (curve25519 a b);
  fmul_canonical : forall a b, is256 a -> is256 b -> canonical (fmul_donna a b);
  fmul_inv : forall c h, canonical c -> factor h ->
    fmul_donna (fmul_donna c h) (crecip_donna h) = c;
  curve_dh : forall a b, canonical a -> bits256_ok b ->
    curve25519 a (curve25519 b curve25519_basepoint9) = curve25519 b (curve25519 a curve25519_basepoint9);
}.

Section Keys.
Context {FO : FieldOps} {CO : @CurveOps FO}.

(** ** Keys *)

(** [hash.bytes[0] &= 0xf8, hash.bytes[31] &= 0x7f, hash.bytes[31] |= 64]. *)
Definition clamp (x : bits256) : option bits256 :=
  b0 ← aget x 0; x ← aset x 0 (Z.land b0 0xf8);
  b31 ← aget x 31; x ← aset x 31 (Z.land b31 0x7f);
  b31 ← aget x 31; aset x 31 (Z.lor b31 64).

(** [randval] is what [randombytes] fills in. *)
Definition rand256 (privkeyflag : bool) (randval : bits256) : option bits256 :=
  if privkeyflag then clamp randval else Some randval.

(** The private and the public key. *)
Definition curve25519_keypair (randval : bits256) : option (bits256 * bits256) :=
  privkey ← rand256 true randval;
  Some (privkey, curve25519 privkey curve25519_basepoint9).

Definition curve25519_shared (privkey otherpub : bits256) : bits256 :=
  vcalc_sha256 (curve25519 privkey otherpub).

Definition cards777_initcrypt (data privkey pubkey : bits256) (invert : bool) : bits256 :=
  let hash := curve25519_shared privkey pubkey in
  fmul_donna data (if invert then crecip_donna hash else hash).

(** ** Opening a card *)

Fixpoint cardpriv_from (playerpriv : bits256) (cardpubs : list bits256) (cipher : bits256)
    (i : Z) (n : nat) : option bits256 :=
  match n with
  | O => Some zero256
  | S n =>
      cardpub ← aget cardpubs i;
      let cardpriv := cards777_initcrypt cipher playerpriv cardpub true in
      if decide (curve25519 cardpriv curve25519_basepoint9 = cardpub) then Some cardpriv
      else cardpriv_from playerpriv cardpubs cipher (i + 1) n
  end.

Definition cards777_cardpriv (playerpriv : bits256) (cardpubs : list bits256) (numcards : Z)
    (cipher : bits256) : option bits256 :=
  cardpriv_from playerpriv cardpubs cipher 0 (Z.to_nat numcards).

(** [*cardprivp] and the number of the card, or -1. *)
Definition cards777_checkcard (playerpriv : bits256) (cardpubs : list bits256) (numcards : Z)
    (card : bits256) : option (bits256 * Z) :=
  cardpriv ← cards777_cardpriv playerpriv cardpubs numcards card;
  if negb (txid cardpriv =? 0) then b ← aget cardpriv 1; Some (cardpriv, b)
  else Some (zero256, -1).

(** [for (i=numplayers-1; i>0; i--) val = fmul(audit[i], val)]. *)
Fixpoint audit_product (audit : list bits256) (n : nat) (val : bits256) : option bits256 :=
  match n with
  | O => Some val
  | S n => a ← aget audit (Z.of_nat (S n)); audit_product audit n (fmul_donna a val)
  end.

Definition cards777_validate (cardpriv final : bits256) (audit : list bits256)
    (numplayers : Z) (playerpub : bits256) : option Z :=
  checkcard ← audit_product audit (Z.to_nat (numplayers - 1)) final;
  a0 ← aget audit 0;
  if negb (bool_decide (checkcard = a0)) then Some (-1)
  else
    let ver := cards777_initcrypt cardpriv cardpriv playerpub false in
    if negb (bool_decide (checkcard = ver)) then Some (-1) else aget cardpriv 1.

(** ** The public keys *)

(** One factor of the check product. *)
Definition pubkey_factor (prod pubkey : bits256) : option bits256 :=
  hash ← clamp (vcalc_sha256 pubkey);
  Some (fmul_donna prod hash).

Definition unit256 : bits256 := fmul_donna curve25519_basepoint9 (crecip_donna curve25519_basepoint9).

(** A mismatch with [cmppubkey] is only reported. *)
Definition cards777_pubkeys (pubkeys : list bits256) (numcards : Z) : option bits256 :=
  for_ (fun i prod => pubkey ← aget pubkeys i; pubkey_factor prod pubkey) 0 (Z.to_nat numcards) unit256.

(** ** The host's deck *)

(** [1LL << i]: a shift outside the word or into its sign bit has no value. *)
Definition bit_ll (i : Z) : option Z :=
  if (0 <=? i) && (i <? 63) then Some (Z.shiftl 1 i) else None.

(** The variables of the loop of [cards777_initdeck]; [k_mask] is a [uint64_t]. *)
Record deck := mk_deck {
  k_cards : list bits256;
  k_cardpubs : list bits256;
  k_nonz : Z;
  k_num : Z;
  k_mask : Z;
  k_prod : bits256;
}.

(** A key whose card is still missing takes the next place of the deck. *)
Definition initdeck_key (playerpubs : list bits256) (N : Z) (privkey pubkey : bits256) (d : deck)
  : option deck :=
  i ← aget privkey 1;
  bit ← bit_ll i;
  cardpubs ← aset (k_cardpubs d) (k_num d) pubkey;
  '(cards, nonz) ← for_ (fun j '(cards, nonz) =>
      p ← aget playerpubs j;
      cards ← aset cards nonz (cards777_initcrypt privkey privkey p false);
      Some (cards, nonz + 1)) 0 (Z.to_nat N) (k_cards d, k_nonz d);
  prod ← pubkey_factor (k_prod d) pubkey;
  Some (mk_deck cards cardpubs nonz (k_num d + 1) (u64 (Z.lor (k_mask d) bit)) prod).

(** [while (mask != (1LL << numcards)-1)]; [rands] are the successive values of
    [randombytes], [None] when they run out first. *)
Fixpoint initdeck_loop (rands : list bits256) (playerpubs : list bits256) (numcards N : Z) (d : deck)
  : option deck :=
  all ← bit_ll numcards;
  if k_mask d =? u64 (all - 1) then Some d
  else
    match rands with
    | [] => None
    | r :: rands =>
        '(privkey, pubkey) ← curve25519_keypair r;
        i ← aget privkey 1;
        d ← (if i <? numcards
             then bit ← bit_ll i;
                  if Z.land bit (k_mask d) =? 0 then initdeck_key playerpubs N privkey pubkey d else Some d
             else Some d);
        initdeck_loop rands playerpubs numcards N d
    end.

(** [cards], [cardpubs] and the check product. *)
Definition cards777_initdeck (rands cards cardpubs : list bits256) (numcards N : Z)
    (playerpubs : list bits256) : option (list bits256 * list bits256 * bits256) :=
  d ← initdeck_loop rands playerpubs numcards N (mk_deck cards cardpubs 0 0 0 unit256);
  Some (k_cards d, k_cardpubs d, k_prod d).

(** ** A player's layer *)

(** The random values one call of [cards777_encode] consumes, and the former
    contents of its uninitialised arrays. *)
Record entropy := mk_entropy {
  e_shuffle : list Z;
  e_permi : list Z;
  e_shuffled : list bits256;
  e_seeds : list bits256;
  e_sharenrs : list Z;
  e_shares : list Z;
}.

(** What a player keeps of a deck he encoded. *)
Record layer := mk_layer {
  l_outcards : list bits256;
  l_xoverz : list bits256;
  l_allshares : list Z;
  l_myshares : list Z;
}.

(** The result is the layer, [sharenrs] and the shuffled [ciphers]; the self-test
    at the end of the source only prints. *)
Definition cards777_encode (e : entropy) (l : layer) (M : Z) (ciphers : list bits256) (numcards N : Z)
  : option (layer * list Z * list bits256) :=
  '(shuffled, _) ← cards777_shuffle (e_shuffle e) (e_permi e) (e_shuffled e) ciphers numcards N;
  '(encoded, xoverz) ← cards777_layer (e_seeds e) (l_outcards l) (l_xoverz l) shuffled numcards N;
  '(sharenrs, _) ← init_sharenrs (e_sharenrs e) [] [] (replicate 255 0) None N N;
  '(allshares, myshares, _) ← cards777_calcmofn (e_shares e) (l_allshares l) (l_myshares l) sharenrs M
     xoverz numcards N;
  Some (mk_layer encoded xoverz allshares myshares, sharenrs,
        take (Z.to_nat (numcards * N)) shuffled ++ drop (Z.to_nat (numcards * N)) ciphers).

(** ** Around the table *)

(** The deck passes from player to player; each sends on his [outcards]. *)
Fixpoint encode_chain (es : list (entropy * layer)) (M : Z) (ciphers : list bits256) (numcards N : Z)
  : option (list layer) :=
  match es with
  | [] => Some []
  | (e, l) :: es =>
      '(l, _, _) ← cards777_encode e l M ciphers numcards N;
      ls ← encode_chain es M (l_outcards l) numcards N;
      Some (l :: ls)
  end.

(** A card travels back: the last player's layer comes off first.  The result is
    each player's entry of the audit and the card. *)
Fixpoint decode_chain (ls : list layer) (destplayer : Z) (cipher : bits256) (numcards N : Z)
  : option (list bits256 * bits256) :=
  match ls with
  | [] => Some ([], cipher)
  | l :: ls =>
      '(audit, cipher) ← decode_chain ls destplayer cipher numcards N;
      '(seed, cipher) ← cards777_decode (l_xoverz l) destplayer cipher (l_outcards l) numcards N;
      Some (seed :: audit, cipher)
  end.

(** ** Theorems: opening a card *)

Local Abbreviation pub k := (curve25519 k curve25519_basepoint9).

Lemma initcrypt_is256 data k P v : is256 data -> is256 (cards777_initcrypt data k P v).
Proof.
  intros H. apply canonical_is256, fmul_canonical; [done|].
  unfold curve25519_shared. destruct v; auto using sha256_is256, crecip_is256.
Qed.

(** The card encrypted to a player by its own key comes back under his key. *)
Lemma initcrypt_open priv playerpriv :
  canonical priv -> bits256_ok playerpriv -> factor (curve25519_shared playerpriv (pub priv)) ->
  cards777_initcrypt (cards777_initcrypt priv priv (pub playerpriv) false) playerpriv (pub priv) true = priv.
Proof.
  intros Hc Hok Hf. unfold cards777_initcrypt.
  assert (curve25519_shared priv (pub playerpriv) = curve25519_shared playerpriv (pub priv)) as ->
    by (unfold curve25519_shared; by rewrite (curve_dh priv playerpriv)).
  by apply fmul_inv.
Qed.

Lemma cardpriv_from_spec playerpriv cardpubs cipher n : forall i, 0 <= i ->
  i + Z.of_nat n <= Z.of_nat (length cardpubs) ->
  exists r, cardpriv_from playerpriv cardpubs cipher i n = Some r /\
    ((r = zero256 /\ forall k P, i <= k < i + Z.of_nat n -> cardpubs !! Z.to_nat k = Some P ->
        pub (cards777_initcrypt cipher playerpriv P true) <> P) \/
     exists k P, i <= k < i + Z.of_nat n /\ cardpubs !! Z.to_nat k = Some P /\
       r = cards777_initcrypt cipher playerpriv P true /\ pub r = P /\
       forall k' P', i <= k' < k -> cardpubs !! Z.to_nat k' = Some P' ->
        pub (cards777_initcrypt cipher playerpriv P' true) <> P').
Proof.
  induction n as [|n IH]; intros i Hi Hl; cbn [cardpriv_from].
  - exists zero256. split; [done|]. left. split; [done|]. intros; lia.
  - destruct (aget_is_Some cardpubs i) as (P & HP & ->); [lia|]. cbn [mbind option_bind].
    destruct (decide _) as [Hm|Hm].
    + eexists. split; [reflexivity|]. right. exists i, P. repeat split; [lia..|done|done|]. intros; lia.
    + destruct (IH (i + 1)) as (r & -> & H); [lia..|]. exists r. split; [done|].
      destruct H as [[-> H]|(k & P' & Hk & HP' & Hr & Hpub & H)]; [left|right].
      * split; [done|]. intros k P' Hk HP'. destruct (decide (k = i)) as [->|].
        { rewrite HP in HP'. by simplify_eq. } { by apply (H k); [lia|]. }
      * exists k, P'. repeat split; [lia..|done|done|done|]. intros k' P'' Hk' HP''.
        destruct (decide (k' = i)) as [->|].
        { rewrite HP in HP''. by simplify_eq. } { by apply (H k'); [lia|]. }
Qed.

(** opening a card is sound: [cards777_checkcard] always ends, and what it
    accepts is the private key of one of the deck's public keys; it refuses a
    card only when no public key of the deck fits, or the key found starts with
    eight zero bytes. *)
Theorem cards777_checkcard_sound playerpriv cardpubs numcards card :
  0 <= numcards <= Z.of_nat (length cardpubs) -> is256 card ->
  exists p c, cards777_checkcard playerpriv cardpubs numcards card = Some (p, c) /\
    ((p = zero256 /\ c = -1 /\ forall k P, 0 <= k < numcards -> cardpubs !! Z.to_nat k = Some P ->
        pub (cards777_initcrypt card playerpriv P true) = P ->
        txid (cards777_initcrypt card playerpriv P true) = 0 \/
          exists k' P', 0 <= k' < k /\ cardpubs !! Z.to_nat k' = Some P' /\
            txid (cards777_initcrypt card playerpriv P' true) = 0) \/
     (p !! 1%nat = Some c /\ exists k P, 0 <= k < numcards /\ cardpubs !! Z.to_nat k = Some P /\
        p = cards777_initcrypt card playerpriv P true /\ pub p = P)).
Proof.
  intros Hn Hc. unfold cards777_checkcard, cards777_cardpriv.
  destruct (cardpriv_from_spec playerpriv cardpubs card (Z.to_nat numcards) 0) as (r & -> & H); [lia..|].
  rewrite Z2Nat.id, Z.add_0_l in H by lia. cbn [mbind option_bind].
  destruct (Z.eqb_spec (txid r) 0) as [Hz|Hnz]; cbn [negb].
  - do 2 eexists. split; [reflexivity|]. left. split; [done|]. split; [done|].
    intros k P Hk HP Hq. destruct H as [[-> H]|(k' & P' & Hk' & HP' & -> & Hpub & H)].
    { by destruct (H k P Hk HP). }
    destruct (Z.lt_trichotomy k k') as [Hlt | [-> | Hgt]].
    + by destruct (H k P ltac:(lia) HP).
    + left. rewrite HP in HP'. by simplify_eq.
    + right. exists k', P'. split; [lia|]. done.
  - destruct H as [[-> _]|(k & P & Hk & HP & -> & Hpub & _)]; [done|].
    pose proof (initcrypt_is256 card playerpriv P true Hc) as Hl. unfold is256 in Hl.
    destruct (aget_is_Some (cards777_initcrypt card playerpriv P true) 1) as (b & Hb & ->); [lia|].
    cbn [mbind option_bind]. do 2 eexists. split; [reflexivity|]. right. split; [done|]. by exists k, P.
Qed.

(** No public key before the card's own fits what the wrong key opens. *)
Definition no_false_match (playerpriv : bits256) (cardpubs : list bits256) (card : bits256) (k : Z) : Prop :=
  forall i P, 0 <= i < k -> cardpubs !! Z.to_nat i = Some P ->
    pub (cards777_initcrypt card playerpriv P true) <> P.

(** Opening the card that was encrypted for the player. *)
Lemma checkcard_open playerpriv cardpubs numcards priv k :
  0 <= k < numcards -> numcards <= Z.of_nat (length cardpubs) ->
  cardpubs !! Z.to_nat k = Some (pub priv) -> canonical priv -> txid priv <> 0 -> bits256_ok playerpriv ->
  factor (curve25519_shared playerpriv (pub priv)) ->
  no_false_match playerpriv cardpubs (cards777_initcrypt priv priv (pub playerpriv) false) k ->
  exists c, priv !! 1%nat = Some c /\
    cards777_checkcard playerpriv cardpubs numcards (cards777_initcrypt priv priv (pub playerpriv) false)
      = Some (priv, c).
Proof.
  intros Hk Hn HP Hc Ht Hok Hf Hm. unfold cards777_checkcard, cards777_cardpriv.
  set (card := cards777_initcrypt priv priv (pub playerpriv) false) in *.
  pose proof (initcrypt_open priv playerpriv Hc Hok Hf) as Ho. fold card in Ho.
  destruct (cardpriv_from_spec playerpriv cardpubs card (Z.to_nat numcards) 0) as (r & -> & H); [lia..|].
  rewrite Z2Nat.id, Z.add_0_l in H by lia. cbn [mbind option_bind].
  assert (r = priv) as ->.
  { destruct H as [[_ H]|(k' & P' & Hk' & HP' & -> & Hpub & H)].
    - destruct (H k (pub priv) Hk HP). by rewrite Ho.
    - destruct (Z.lt_trichotomy k k') as [Hlt | [-> | Hgt]].
      + destruct (H k (pub priv) ltac:(lia) HP). by rewrite Ho.
      + rewrite HP in HP'. simplify_eq. done.
      + by destruct (Hm k' P' ltac:(lia) HP'). }
  rewrite (proj2 (Z.eqb_neq _ _) Ht). cbn [negb].
  pose proof (canonical_is256 _ Hc) as Hl. unfold is256 in Hl.
  destruct (aget_is_Some priv 1) as (c & Hb & ->); [lia|]. by exists c.
Qed.

(** ** Theorems: auditing a card *)

(** The product of the other players' audit entries with the final card. *)
Definition audit_value (audit : list bits256) (n : nat) (val : bits256) : bits256 :=
  foldr fmul_donna val (take n (drop 1 audit)).

Lemma audit_product_spec audit n : forall val, (n < length audit)%nat ->
  audit_product audit n val = Some (audit_value audit n val).
Proof.
  unfold audit_value. induction n as [|n IH]; intros val Hl; cbn [audit_product]; [done|].
  destruct (aget_is_Some audit (Z.of_nat (S n))) as (a & Ha & ->); [lia|]. cbn [mbind option_bind].
  rewrite Nat2Z.id in Ha. rewrite IH by lia. f_equal.
  rewrite (take_S_r (drop 1 audit) n a) by (by rewrite lookup_drop). by rewrite foldr_app.
Qed.

Lemma cards777_validate_gen cardpriv final audit numplayers playerpub a0 c :
  1 <= numplayers <= Z.of_nat (length audit) -> audit !! 0%nat = Some a0 -> cardpriv !! 1%nat = Some c ->
  cards777_validate cardpriv final audit numplayers playerpub =
    Some (if bool_decide (audit_value audit (Z.to_nat (numplayers - 1)) final = a0 /\
                          a0 = cards777_initcrypt cardpriv cardpriv playerpub false)
          then c else -1).
Proof.
  intros Hn Ha Hc. unfold cards777_validate. rewrite audit_product_spec by lia. cbn [mbind option_bind].
  rewrite (aget_lookup audit 0 a0) by done. cbn [mbind option_bind].
  destruct (bool_decide_reflect (audit_value audit (Z.to_nat (numplayers - 1)) final = a0)) as [E|E]; cbn [negb].
  - rewrite E. destruct (bool_decide_reflect (a0 = cards777_initcrypt cardpriv cardpriv playerpub false)) as [E'|E'];
      cbn [negb].
    + rewrite bool_decide_eq_true_2 by done. by apply aget_lookup.
    + by rewrite bool_decide_eq_false_2 by tauto.
  - by rewrite bool_decide_eq_false_2 by tauto.
Qed.

(** validation accepts exactly the cards whose audit multiplies the final
    card back to the value opened, where that value is the encryption, for this
    player, of the private key shown. *)
Theorem cards777_validate_spec cardpriv final audit numplayers playerpub a0 c :
  1 <= numplayers <= Z.of_nat (length audit) -> audit !! 0%nat = Some a0 -> cardpriv !! 1%nat = Some c ->
  cards777_validate cardpriv final audit numplayers playerpub =
    Some (if bool_decide (audit_value audit (Z.to_nat (numplayers - 1)) final = a0 /\
                          a0 = cards777_initcrypt cardpriv cardpriv playerpub false)
          then c else -1).
Proof. apply cards777_validate_gen. Qed.

(** ** Theorems: the host's deck *)

(** The number of a card. *)
Definition card_no (k : bits256) : Z := default 0 (k !! 1%nat).

Definition prod_of (pubs : list bits256) : option bits256 :=
  foldl (fun acc P => prod ← acc; pubkey_factor prod P) (Some unit256) pubs.

Lemma foldl_None {A B} (f : A -> B -> option A) l : foldl (fun acc x => a ← acc; f a x) None l = None.
Proof. by induction l. Qed.

Lemma pubkeys_prefix (l : list bits256) n : forall i acc, 0 <= i -> i + Z.of_nat n <= Z.of_nat (length l) ->
  for_ (fun i prod => pubkey ← aget l i; pubkey_factor prod pubkey) i n acc =
    foldl (fun acc P => prod ← acc; pubkey_factor prod P) (Some acc) (take n (drop (Z.to_nat i) l)).
Proof.
  induction n as [|n IH]; intros i acc Hi Hl; cbn [for_]; [done|].
  destruct (aget_is_Some l i) as (P & HP & ->); [lia|]. cbn [mbind option_bind].
  rewrite (drop_S _ _ _ HP). cbn [take foldl mbind option_bind].
  destruct (pubkey_factor acc P) as [x|]; cbn [mbind option_bind].
  - rewrite IH by lia. by replace (Z.to_nat (i + 1)) with (S (Z.to_nat i)) by lia.
  - by rewrite (foldl_None (fun prod P => pubkey_factor prod P)).
Qed.

Lemma pubkeys_prod (l : list bits256) numcards : 0 <= numcards <= Z.of_nat (length l) ->
  cards777_pubkeys l numcards = prod_of (take (Z.to_nat numcards) l).
Proof. intros H. unfold cards777_pubkeys. by rewrite pubkeys_prefix by lia. Qed.

Lemma unit_is256 : is256 unit256.
Proof. apply canonical_is256, fmul_canonical; [done|by apply crecip_is256]. Qed.

Lemma clamp_is256 x y : is256 x -> clamp x = Some y -> is256 y.
Proof.
  unfold is256, clamp. intros Hx H.
  repeat match type of H with (a ← ?e; _) = Some _ => let E := fresh in destruct e eqn:E; [cbn [mbind option_bind] in H|done] end.
  repeat match goal with E : aset _ _ _ = Some _ |- _ => apply aset_Some in E as [_ ->] end.
  by rewrite !length_insert.
Qed.

Lemma prod_is256 ps prod : prod_of ps = Some prod -> is256 prod.
Proof.
  unfold prod_of. generalize unit256 unit_is256. induction ps as [|p ps IH]; intros u Hu H; [by injection H as <-|].
  cbn [foldl mbind option_bind] in H. unfold pubkey_factor in H at 2.
  destruct (clamp (vcalc_sha256 p)) as [h|] eqn:Eh; cbn [mbind option_bind] in H.
  - apply (IH (fmul_donna u h)); [|exact H]. apply canonical_is256, fmul_canonical; [done|].
    by apply (clamp_is256 (vcalc_sha256 p)); [apply sha256_is256|].
  - by rewrite (foldl_None (fun prod P => pubkey_factor prod P)) in H.
Qed.

Lemma clamp_total x : is256 x -> exists y, clamp x = Some y /\ is256 y /\ y !! 1%nat = x !! 1%nat.
Proof.
  unfold is256. intros H. unfold clamp.
  destruct (aget_is_Some x 0) as (b0 & _ & ->); [lia|]. cbn [mbind option_bind].
  rewrite aset_in_range by lia. cbn [mbind option_bind].
  match goal with |- context [aget ?l 31] => destruct (aget_is_Some l 31) as (b & _ & ->);
    [rewrite length_insert; lia|] end. cbn [mbind option_bind].
  rewrite aset_in_range by (rewrite length_insert; lia). cbn [mbind option_bind].
  match goal with |- context [aget ?l 31] => destruct (aget_is_Some l 31) as (b' & _ & ->);
    [rewrite !length_insert; lia|] end. cbn [mbind option_bind].
  rewrite aset_in_range by (rewrite !length_insert; lia).
  eexists. split; [reflexivity|]. rewrite !length_insert. split; [done|].
  unfold bits256. by rewrite !list_lookup_insert_ne by done.
Qed.

Lemma pubkey_factor_total prod P : is_Some (pubkey_factor prod P).
Proof.
  unfold pubkey_factor. destruct (clamp_total (vcalc_sha256 P)) as (y & -> & _); [apply sha256_is256|done].
Qed.

(** The deck of the keys [ks], for the players [P]. *)
Record deck_of (P : list bits256) (numcards N : Z) (L Lp : nat) (ks : list bits256) (d : deck) : Prop := mk_deck_of {
  do_num : k_num d = Z.of_nat (length ks);
  do_nonz : k_nonz d = k_num d * N;
  do_mask : forall i, 0 <= i -> Z.testbit (k_mask d) i = bool_decide (i ∈ card_no <$> ks);
  do_range : Forall (fun k => 0 <= card_no k < numcards) ks;
  do_distinct : NoDup (card_no <$> ks);
  do_len : length (k_cards d) = L;
  do_lenp : length (k_cardpubs d) = Lp;
  do_pubs : take (length ks) (k_cardpubs d) = (fun k => pub k) <$> ks;
  do_cards : forall i j k p, ks !! i = Some k -> 0 <= j < N -> P !! Z.to_nat j = Some p ->
    k_cards d !! Z.to_nat (Z.of_nat i * N + j) = Some (cards777_initcrypt k k p false);
  do_prod : prod_of ((fun k => pub k) <$> ks) = Some (k_prod d);
}.

Lemma elem_positions n i : i ∈ positions n <-> 0 <= i < n.
Proof.
  unfold positions. rewrite list_elem_of_fmap. split.
  - intros (k & -> & Hk%elem_of_seq). lia.
  - intros H. exists (Z.to_nat i). split; [lia|]. apply elem_of_seq. lia.
Qed.

(** Distinct numbers below [n] that leave one out are fewer than [n]. *)
Lemma fewer_than (l : list Z) n x : NoDup l -> Forall (fun i => 0 <= i < n) l -> 0 <= x < n -> x ∉ l ->
  Z.of_nat (length l) < n.
Proof.
  intros Hnd Hr Hx Hni.
  assert (x :: l ⊆+ positions n) as Hs.
  { apply NoDup_submseteq; [by constructor|]. intros y [-> | Hy]%elem_of_cons.
    - by apply elem_positions.
    - apply elem_positions. by apply (proj1 (list.Forall_forall _ _) Hr). }
  apply submseteq_length in Hs. unfold positions in Hs. rewrite length_fmap, length_seq in Hs. simpl in Hs. lia.
Qed.

Lemma mask_full P numcards N L Lp ks d : 0 <= numcards -> deck_of P numcards N L Lp ks d ->
  (k_mask d = Z.shiftl 1 numcards - 1 <-> forall i, 0 <= i < numcards -> i ∈ card_no <$> ks).
Proof.
  intros Hn []. rewrite Z.shiftl_1_l, Z.sub_1_r, <- Z.ones_equiv. split.
  - intros E i Hi. specialize (do_mask0 i ltac:(lia)). rewrite E, Z.ones_spec_low in do_mask0 by lia.
    symmetry in do_mask0. by apply bool_decide_eq_true in do_mask0.
  - intros H. apply Z.bits_inj'. intros i Hi. rewrite do_mask0 by done. destruct (Z.ltb_spec i numcards).
    + rewrite Z.ones_spec_low by lia. apply bool_decide_eq_true_2. apply H. lia.
    + rewrite Z.ones_spec_high by lia. apply bool_decide_eq_false_2. intros (k & -> & Hk)%list_elem_of_fmap.
      pose proof (proj1 (list.Forall_forall _ _) do_range0 k Hk). simpl in *. lia.
Qed.

(** The row of one card: its encryptions to the players. *)
Lemma row_spec (P : list bits256) N k cards base : 0 <= N <= Z.of_nat (length P) -> 0 <= base ->
  base + N <= Z.of_nat (length cards) ->
  exists cards', for_ (fun j '(cards, nonz) =>
      p ← aget P j;
      cards ← aset cards nonz (cards777_initcrypt k k p false);
      Some (cards, nonz + 1)) 0 (Z.to_nat N) (cards, base) = Some (cards', base + N) /\
    length cards' = length cards /\
    (forall j p, 0 <= j < N -> P !! Z.to_nat j = Some p ->
       cards' !! Z.to_nat (base + j) = Some (cards777_initcrypt k k p false)) /\
    forall i, (i < Z.to_nat base)%nat -> cards' !! i = cards !! i.
Proof.
  intros HN Hb Hl.
  match goal with |- context [for_ ?f 0 _ _] =>
  destruct (for_inv (fun j '(c, nonz) => nonz = base + j /\ length c = length cards /\
    (forall j' p, 0 <= j' < j -> P !! Z.to_nat j' = Some p ->
       c !! Z.to_nat (base + j') = Some (cards777_initcrypt k k p false)) /\
    forall i, (i < Z.to_nat base)%nat -> c !! i = cards !! i) f (Z.to_nat N) 0 (cards, base))
    as ([c nonz] & E & Hz & Hlc & Hrow & Hold) end.
  - split; [lia|]. split; [done|]. split; [intros; lia|done].
  - intros j [c nonz] Hj (-> & Hlc & Hrow & Hold).
    destruct (aget_is_Some P j) as (p & Hp & ->); [lia|]. cbn [mbind option_bind].
    rewrite aset_in_range by lia. cbn [mbind option_bind]. eexists. split; [reflexivity|].
    cbv beta iota. rewrite length_insert. split; [lia|]. split; [done|]. split.
    + intros j' p' Hj' Hp'. destruct (decide (j' = j)) as [->|].
      * simplify_eq. by rewrite list_lookup_insert_eq by lia.
      * rewrite list_lookup_insert_ne by lia. apply Hrow; [lia|done].
    + intros i Hi. rewrite list_lookup_insert_ne by lia. by apply Hold.
  - rewrite Z2Nat.id, Z.add_0_l in * by lia. subst nonz. exists c. done.
Qed.

Lemma prod_snoc ps P : prod_of (ps ++ [P]) = (prod ← prod_of ps; pubkey_factor prod P).
Proof. unfold prod_of. by rewrite foldl_app. Qed.

Lemma bit_ll_ok i : 0 <= i <= 62 -> bit_ll i = Some (Z.shiftl 1 i).
Proof. intros H. unfold bit_ll. by rewrite (proj2 (Z.leb_le 0 i)), (proj2 (Z.ltb_lt i 63)) by lia. Qed.

(** A word whose bits from 63 on are clear is kept by the conversion to 64 bits. *)
Lemma u64_bits x : (forall i, 63 <= i -> Z.testbit x i = false) -> u64 x = x.
Proof.
  intros H. unfold u64, wrapU. rewrite <- Z.land_ones by lia. apply Z.bits_inj'. intros i Hi.
  rewrite Z.land_spec. destruct (Z.ltb_spec i 64).
  - by rewrite Z.ones_spec_low, andb_true_r by lia.
  - by rewrite H by lia.
Qed.

Lemma u64_ones n : 0 <= n <= 62 -> u64 (Z.shiftl 1 n - 1) = Z.shiftl 1 n - 1.
Proof.
  intros H. rewrite Z.shiftl_1_l, Z.sub_1_r, <- Z.ones_equiv. apply u64_bits.
  intros i Hi. apply Z.ones_spec_high. lia.
Qed.

Lemma mask_clear P numcards N L Lp ks d i : numcards <= 62 -> deck_of P numcards N L Lp ks d ->
  63 <= i -> Z.testbit (k_mask d) i = false.
Proof.
  intros Hn [] Hi. rewrite do_mask0 by lia. apply bool_decide_eq_false_2.
  intros (k & -> & Hk)%list_elem_of_fmap.
  pose proof (proj1 (list.Forall_forall _ _) do_range0 k Hk) as H. cbv beta in H. lia.
Qed.

Lemma initdeck_key_spec P numcards N L Lp ks d k :
  0 <= N <= Z.of_nat (length P) -> numcards <= Z.of_nat Lp -> numcards * N <= Z.of_nat L -> numcards <= 62 ->
  deck_of P numcards N L Lp ks d -> k !! 1%nat = Some (card_no k) -> 0 <= card_no k < numcards ->
  card_no k ∉ card_no <$> ks ->
  exists d', initdeck_key P N k (pub k) d = Some d' /\ deck_of P numcards N L Lp (ks ++ [k]) d'.
Proof.
  intros HN HLp HL H62 Hd Hk Hr Hni. pose proof Hd as [].
  assert (Z.of_nat (length ks) < numcards) as Hlt.
  { rewrite <- (length_fmap card_no). apply (fewer_than _ _ (card_no k)); try done.
    by apply Forall_fmap. }
  unfold initdeck_key. rewrite (aget_lookup k 1 (card_no k)) by done. cbn [mbind option_bind].
  rewrite bit_ll_ok by lia. cbn [mbind option_bind].
  rewrite aset_in_range by lia. cbn [mbind option_bind].
  destruct (row_spec P N k (k_cards d) (k_nonz d)) as (cards' & -> & Hl' & Hrow & Hold); [done|nia|nia|].
  cbn [mbind option_bind]. destruct (pubkey_factor_total (k_prod d) (pub k)) as [prod Hprod].
  rewrite Hprod. cbn [mbind option_bind]. eexists. split; [reflexivity|].
  split; cbn [k_cards k_cardpubs k_nonz k_num k_mask k_prod].
  - rewrite length_app. simpl. lia.
  - nia.
  - rewrite u64_bits; [|intros i Hi; rewrite Z.lor_spec, (mask_clear _ _ _ _ _ _ _ i H62 Hd Hi), Z.shiftl_1_l,
      Z.pow2_bits_false by lia; done].
    intros i Hi. rewrite Z.lor_spec, do_mask0, Z.shiftl_1_l, Z.pow2_bits_eqb by lia.
    rewrite fmap_app. destruct (Z.eqb_spec (card_no k) i) as [<-|Hne].
    + rewrite orb_true_r. symmetry. apply bool_decide_eq_true_2. set_solver.
    + rewrite orb_false_r. apply bool_decide_ext. rewrite elem_of_app. simpl. rewrite list_elem_of_singleton. naive_solver.
  - apply Forall_app. split; [done|]. by constructor.
  - rewrite fmap_app. apply list.NoDup_app. split; [done|]. split; [|apply NoDup_singleton].
    intros x Hx ->%list_elem_of_singleton. done.
  - lia.
  - by rewrite length_insert.
  - rewrite length_app, fmap_app. simpl. rewrite Nat.add_1_r.
    rewrite (take_S_r _ _ (pub k)) by (rewrite do_num0, Nat2Z.id, list_lookup_insert_eq by lia; done).
    rewrite take_insert_ge by lia. by rewrite do_pubs0.
  - intros i j k' p Hi Hj Hp. apply lookup_app_Some in Hi as [Hi|[Hge Hi]].
    + pose proof (lookup_lt_Some _ _ _ Hi). rewrite Hold by nia. by apply (do_cards0 _ _ _ p).
    + apply list_lookup_singleton_Some in Hi as [Hi <-].
      replace (Z.of_nat i * N + j) with (k_nonz d + j) by nia. by apply Hrow.
  - rewrite fmap_app. simpl. by rewrite prod_snoc, do_prod0.
Qed.

(** The random values hold a key of every card. *)
Definition covers (rands : list bits256) (i : Z) : Prop :=
  exists r k, r ∈ rands /\ clamp r = Some k /\ card_no k = i.

Lemma initdeck_loop_spec P numcards N L Lp rands : forall ks d,
  0 <= N <= Z.of_nat (length P) -> 0 <= numcards <= Z.of_nat Lp -> numcards * N <= Z.of_nat L ->
  numcards <= 62 -> Forall bits256_ok rands -> deck_of P numcards N L Lp ks d ->
  (forall i, 0 <= i < numcards -> i ∈ card_no <$> ks \/ covers rands i) ->
  exists ks' d', initdeck_loop rands P numcards N d = Some d' /\
    deck_of P numcards N L Lp (ks ++ ks') d' /\
    (forall i, 0 <= i < numcards -> i ∈ card_no <$> ks ++ ks') /\
    Forall (fun k => exists r, r ∈ rands /\ clamp r = Some k) ks'.
Proof.
  induction rands as [|r rands IH]; intros ks d HN Hn HL H62 Hok Hd Hcov; cbn [initdeck_loop];
    rewrite bit_ll_ok by lia; cbn [mbind option_bind]; rewrite u64_ones by lia.
  - assert (forall i, 0 <= i < numcards -> i ∈ card_no <$> ks) as Hall.
    { intros i Hi. destruct (Hcov i Hi) as [?|(r & k & Hr & _)]; [done|]. by apply elem_of_nil in Hr. }
    rewrite (proj2 (Z.eqb_eq _ _) (proj2 (mask_full P numcards N L Lp ks d ltac:(lia) Hd) Hall)).
    exists [], d. by rewrite app_nil_r.
  - destruct (Z.eqb_spec (k_mask d) (Z.shiftl 1 numcards - 1)) as [E|E].
    { exists [], d. rewrite app_nil_r. split; [done|]. split; [done|]. split; [|done].
      by apply (mask_full P numcards N L Lp ks d ltac:(lia) Hd). }
    apply Forall_cons_1 in Hok as [Hr Hok].
    unfold curve25519_keypair, rand256. destruct (clamp_total r) as (k & Ek & Hk & Hk1); [apply Hr|].
    rewrite Ek. cbn [mbind option_bind].
    assert (k !! 1%nat = Some (card_no k)) as Hno.
    { unfold card_no. destruct (lookup_lt_is_Some_2 k 1) as [x Hx]; [unfold is256 in Hk; lia|]. unfold bits256 in *. by rewrite Hx. }
    rewrite (aget_lookup k 1 (card_no k)) by done. cbn [mbind option_bind].
    assert (0 <= card_no k) as Hpos.
    { rewrite Hk1 in Hno. apply list_elem_of_lookup_2 in Hno. destruct Hr as [_ Hb].
      pose proof (proj1 (list.Forall_forall _ _) Hb _ Hno) as Hb'. unfold is_byte in Hb'. lia. }
    assert ((Z.land (Z.shiftl 1 (card_no k)) (k_mask d) =? 0) = bool_decide (card_no k ∉ card_no <$> ks)) as Hbit.
    { rewrite Z.shiftl_1_l, Z.land_comm.
      rewrite bool_decide_not, <- (do_mask _ _ _ _ _ _ _ Hd) by done.
      destruct (Z.testbit (k_mask d) (card_no k)) eqn:Eb; cbn [negb].
      - apply Z.eqb_neq. intros Hz. assert (Z.testbit (Z.land (k_mask d) (2 ^ card_no k)) (card_no k) = true) as Hc
          by (rewrite Z.land_spec, Eb, Z.pow2_bits_true; done). by rewrite Hz, Z.bits_0 in Hc.
      - apply Z.eqb_eq, Z.bits_inj'. intros i Hi. rewrite Z.land_spec, Z.bits_0, Z.pow2_bits_eqb by done.
        destruct (Z.eqb_spec (card_no k) i) as [<-|]; [by rewrite Eb|apply andb_false_r]. }
    destruct (Z.ltb_spec (card_no k) numcards) as [Hlt|Hge];
      [rewrite bit_ll_ok by lia; cbn [mbind option_bind]; rewrite Hbit; destruct (bool_decide_reflect (card_no k ∉ card_no <$> ks)) as [Hni|Hin]|].
    + destruct (initdeck_key_spec P numcards N L Lp ks d k) as (d1 & -> & Hd1); try done; [lia|].
      cbn [mbind option_bind].
      destruct (IH (ks ++ [k]) d1) as (ks' & d' & E' & Hd' & Hall & Hsub); try done.
      { intros i Hi. destruct (Hcov i Hi) as [H|(r' & k' & Hr' & Ek' & Hno')].
        - left. rewrite fmap_app. set_solver.
        - apply elem_of_cons in Hr' as [-> | Hr'].
          + left. rewrite Ek in Ek'. simplify_eq. rewrite fmap_app. set_solver.
          + right. by exists r', k'. }
      exists (k :: ks'), d'. rewrite <- app_assoc in *. split; [done|]. split; [done|]. split; [done|].
      constructor; [exists r; set_solver|]. eapply Forall_impl; [exact Hsub|]. set_solver.
    + cbn [mbind option_bind]. destruct (IH ks d) as (ks' & d' & E' & Hd' & Hall & Hsub); try done.
      { intros i Hi. destruct (Hcov i Hi) as [H|(r' & k' & Hr' & Ek' & Hno')]; [by left|].
        apply elem_of_cons in Hr' as [-> | Hr'].
        + left. rewrite Ek in Ek'. simplify_eq. by apply dec_stable.
        + right. by exists r', k'. }
      exists ks', d'. split; [done|]. split; [done|]. split; [done|].
      eapply Forall_impl; [exact Hsub|]. set_solver.
    + cbn [mbind option_bind]. destruct (IH ks d) as (ks' & d' & E' & Hd' & Hall & Hsub); try done.
      { intros i Hi. destruct (Hcov i Hi) as [H|(r' & k' & Hr' & Ek' & Hno')]; [by left|].
        apply elem_of_cons in Hr' as [-> | Hr'].
        + rewrite Ek in Ek'. simplify_eq. lia.
        + right. by exists r', k'. }
      exists ks', d'. split; [done|]. split; [done|]. split; [done|].
      eapply Forall_impl; [exact Hsub|]. set_solver.
Qed.

(** ** Theorems: around the table *)

(** Buffers and random values big enough for one [cards777_encode]. *)
Record entropy_ok (M numcards N : Z) (el : entropy * layer) : Prop := mk_entropy_ok {
  eo_permi : length (e_permi el.1) = 52%nat;
  eo_shuffle : bytes (e_shuffle el.1);
  eo_shuffle_len : numcards <= Z.of_nat (length (e_shuffle el.1));
  eo_shuffled : numcards * N <= Z.of_nat (length (e_shuffled el.1));
  eo_seeds_len : numcards * N <= Z.of_nat (length (e_seeds el.1));
  eo_seeds : Forall (fun s => bits256_ok s /\ canonical s /\ s <> zero256) (e_seeds el.1);
  eo_nrs : bytes (e_sharenrs el.1);
  eo_nrs_len : N <= Z.of_nat (length (e_sharenrs el.1));
  eo_shares : bytes (e_shares el.1);
  eo_shares_len : (M - 1) * (N * 32 * numcards) <= Z.of_nat (length (e_shares el.1));
  eo_outcards : Z.of_nat (length (l_outcards el.2)) = numcards * N;
  eo_xoverz : Z.of_nat (length (l_xoverz el.2)) = numcards * N;
  eo_allshares : N * (N * 32 * numcards) <= Z.of_nat (length (l_allshares el.2));
  eo_myshares : N <= Z.of_nat (length (l_myshares el.2));
}.

(** The layer [l] is on the deck [ciphers], its rows reordered by [p]. *)
Definition layer_over (p : list Z) (ciphers : list bits256) (numcards N : Z) (l : layer) : Prop :=
  Z.of_nat (length (l_outcards l)) = numcards * N /\ Z.of_nat (length (l_xoverz l)) = numcards * N /\
  forall i j pi c, 0 <= i < numcards -> 0 <= j < N -> p !! Z.to_nat i = Some pi ->
    ciphers !! Z.to_nat (pi * N + j) = Some c ->
    exists s, canonical s /\ s <> zero256 /\ l_xoverz l !! Z.to_nat (i * N + j) = Some s /\
      l_outcards l !! Z.to_nat (i * N + j) = Some (fmul_donna (crecip_donna s) c).

Lemma encode_spec el M ciphers numcards N : 0 <= numcards <= 52 -> 1 <= N <= 9 -> 0 < M <= N ->
  entropy_ok M numcards N el -> numcards * N <= Z.of_nat (length ciphers) ->
  exists l nrs ciphers' p, cards777_encode el.1 el.2 M ciphers numcards N = Some (l, nrs, ciphers') /\
    p ≡ₚ positions numcards /\ layer_over p ciphers numcards N l.
Proof.
  intros Hn HN HM [] Hc. destruct el as [e l0]. cbn [fst snd] in *. unfold cards777_encode.
  destruct (shuffle_rows (e_shuffle e) (e_permi e) (e_shuffled e) ciphers numcards N)
    as (p & sh & -> & Hp & Lsh & Hrows); [lia|lia|done|done|lia|lia|lia|]. cbn [mbind option_bind].
  destruct (cards777_layer_spec (e_seeds e) (l_outcards l0) (l_xoverz l0) sh numcards N)
    as (la & xo & -> & Lla & Lxo & Hl); [lia..|]. cbn [mbind option_bind].
  destruct (sharenrs_full (e_sharenrs e) [] [] (replicate 255 0) N) as (nrs & -> & Lnrs & Hg & _);
    [lia|done|done|lia|]. cbn [mbind option_bind].
  assert (0 <= N * 32 * numcards <= 14976) as Hsz by nia.
  assert (Forall bits256_ok xo) as Hxo.
  { apply list.Forall_forall. intros x Hx. apply list_elem_of_lookup in Hx as [t Ht].
    pose proof (lookup_lt_Some _ _ _ Ht). destruct (lookup_lt_is_Some_2 (e_seeds e) t) as [s Hs]; [lia|].
    destruct (lookup_lt_is_Some_2 sh t) as [c Hsc]; [lia|].
    destruct (Hl (Z.of_nat t) s c) as [Hx _]; [lia|by rewrite Nat2Z.id..|]. rewrite Nat2Z.id, Ht in Hx.
    simplify_eq. apply (Forall_lookup_1 _ _ _ _ eo_seeds0 Hs). }
  destruct (calcmofn_spec (e_shares e) (l_allshares l0) (l_myshares l0) nrs M xo numcards N)
    as (buf & all & my & -> & _); [lia|lia|lia|lia|lia|lia|lia|done|done|lia|lia|done|].
  cbn [mbind option_bind]. do 4 eexists. split; [reflexivity|]. split; [exact Hp|].
  split; [cbn [l_outcards]; lia|]. split; [cbn [l_xoverz]; lia|]. cbn [l_outcards l_xoverz].
  intros i j pi c Hi Hj Hpi Hci.
  destruct (lookup_lt_is_Some_2 (e_seeds e) (Z.to_nat (i * N + j))) as [s Hs]; [nia|].
  assert (sh !! Z.to_nat (i * N + j) = Some c) as Hsh by (by rewrite (Hrows i j pi)).
  destruct (Hl (i * N + j) s c) as [Hx Ho]; [nia|done|done|].
  pose proof (Forall_lookup_1 _ _ _ _ eo_seeds0 Hs) as (_ & Hcan & Hnz). by exists s.
Qed.

(** No two cards for the same player look the same under the layer. *)
Definition distinct_columns (numcards N : Z) (l : layer) : Prop :=
  forall k i j c, 0 <= k < i -> i < numcards -> 0 <= j < N ->
    l_outcards l !! Z.to_nat (i * N + j) = Some c -> l_outcards l !! Z.to_nat (k * N + j) <> Some c.

Lemma decode_spec p ciphers numcards N l i j pi c :
  layer_over p ciphers numcards N l -> distinct_columns numcards N l ->
  0 <= i < numcards -> 0 <= j < N -> p !! Z.to_nat i = Some pi ->
  ciphers !! Z.to_nat (pi * N + j) = Some c -> canonical c ->
  exists s f, l_outcards l !! Z.to_nat (i * N + j) = Some f /\ canonical f /\ fmul_donna s f = c /\
    cards777_decode (l_xoverz l) j f (l_outcards l) numcards N = Some (s, c).
Proof.
  intros (Lo & Lx & Hl) Hd Hi Hj Hpi Hc Cc.
  destruct (Hl i j pi c Hi Hj Hpi Hc) as (s & Cs & Ns & Hx & Ho).
  assert (i * N + j < numcards * N) by nia.
  exists s, (fmul_donna (crecip_donna s) c). split; [done|]. split.
  { apply fmul_canonical; [apply crecip_is256|]; by apply canonical_is256. }
  pose proof (fmul_cancel s c Cs Ns Cc) as Hf. split; [done|]. unfold cards777_decode.
  rewrite (decode_from_skip _ _ _ _ _ (Z.to_nat i) _ _ s); [by rewrite Hf|..].
  - rewrite Z2Nat.id, Z.add_0_l by lia. apply aget_lookup; [nia|done].
  - rewrite Z2Nat.id, Z.add_0_l by lia. apply aget_lookup; [nia|done].
  - intros k Hk. assert (k * N + j < numcards * N) by nia.
    destruct (aget_is_Some (l_outcards l) (k * N + j)) as (o & Ho' & Eo); [nia|].
    exists o. split; [done|]. intros ->. by apply (Hd k i j _ ltac:(lia) ltac:(lia) Hj Ho).
  - lia.
Qed.

(** The deck after the layers [ls]. *)
Definition final_deck (ciphers : list bits256) (ls : list layer) : list bits256 :=
  foldl (fun _ l => l_outcards l) ciphers ls.

Definition reorder (p q : list Z) : list Z := (fun k => nth (Z.to_nat k) p 0) <$> q.

Lemma reorder_positions p n : length p = Z.to_nat n -> reorder p (positions n) = p.
Proof.
  intros L. apply list_eq. intros i. unfold reorder, positions. rewrite <- list_fmap_compose, list_lookup_fmap.
  destruct (decide (i < Z.to_nat n)%nat) as [Hi|Hi].
  - rewrite lookup_seq_lt by done. simpl. rewrite Nat2Z.id.
    destruct (lookup_lt_is_Some_2 p i) as [x Hx]; [lia|]. by rewrite (nth_lookup_Some _ _ _ _ Hx).
  - rewrite (lookup_ge_None_2 p) by lia. rewrite lookup_seq_ge by lia. done.
Qed.

Lemma positions_length n : length (positions n) = Z.to_nat n.
Proof. unfold positions. by rewrite length_fmap, length_seq. Qed.

Lemma reorder_perm p q n : p ≡ₚ positions n -> q ≡ₚ positions n -> reorder p q ≡ₚ positions n.
Proof.
  intros Hp Hq. pose proof (Permutation_length Hp) as L. rewrite positions_length in L.
  unfold reorder. rewrite Hq. fold (reorder p (positions n)). by rewrite reorder_positions.
Qed.

Lemma perm_entry p n i : 0 <= i < n -> p ≡ₚ positions n ->
  exists pi, p !! Z.to_nat i = Some pi /\ 0 <= pi < n.
Proof.
  intros Hi Hp. pose proof (Permutation_length Hp) as L. rewrite positions_length in L.
  destruct (lookup_lt_is_Some_2 p (Z.to_nat i)) as [pi Hpi]; [lia|]. exists pi. split; [done|].
  apply elem_positions. rewrite <- Hp. by apply list_elem_of_lookup_2 in Hpi.
Qed.

(** A deck passed round the table: each card of the original deck is found at one
    position, the same for all players, comes back when the layers are taken off,
    and multiplies out of the final card. *)
Lemma encode_chain_spec M numcards N es : 0 <= numcards <= 52 -> 1 <= N <= 9 -> 0 < M <= N ->
  Forall (entropy_ok M numcards N) es -> forall ciphers, numcards * N <= Z.of_nat (length ciphers) ->
  Forall canonical (take (Z.to_nat (numcards * N)) ciphers) ->
  exists ls p, encode_chain es M ciphers numcards N = Some ls /\ length ls = length es /\
    p ≡ₚ positions numcards /\
    (Forall (distinct_columns numcards N) ls -> forall i j pi c, 0 <= i < numcards -> 0 <= j < N ->
      p !! Z.to_nat i = Some pi -> ciphers !! Z.to_nat (pi * N + j) = Some c ->
      exists f audit, final_deck ciphers ls !! Z.to_nat (i * N + j) = Some f /\ length audit = length ls /\
        decode_chain ls j f numcards N = Some (audit, c) /\ foldr fmul_donna f audit = c).
Proof.
  intros Hn HN HM. induction 1 as [|el es Hel Hes IH]; intros ciphers Hc Hcan.
  - exists [], (positions numcards). split; [done|]. split; [done|]. split; [done|].
    intros _ i j pi c Hi Hj Hpi Hci.
    assert (pi = i) as ->.
    { unfold positions in Hpi. rewrite list_lookup_fmap in Hpi. rewrite lookup_seq_lt in Hpi by lia.
      simpl in Hpi. simplify_eq. lia. }
    exists c, []. done.
  - destruct (encode_spec el M ciphers numcards N Hn HN HM Hel Hc) as (l & nrs & c' & p1 & E & Hp1 & Hl).
    pose proof Hl as (Lo & Lx & Hrow).
    destruct (IH (l_outcards l)) as (ls & p2 & E2 & L2 & Hp2 & H2); [lia| |].
    { apply list.Forall_forall. intros x Hx. apply elem_of_take in Hx as (t & Ht & Hlt).
      assert (0 < N) by lia. set (i := Z.of_nat t / N). set (j := Z.of_nat t mod N).
      pose proof (Z.div_mod (Z.of_nat t) N). pose proof (Z.mod_pos_bound (Z.of_nat t) N).
      fold i j in H0, H1. assert (0 <= i < numcards) by nia.
      destruct (perm_entry p1 numcards i) as (pi & Hpi & Rpi); [done|done|].
      assert (pi * N + j < numcards * N) by nia.
      destruct (lookup_lt_is_Some_2 ciphers (Z.to_nat (pi * N + j))) as [c Hci]; [nia|].
      destruct (Hrow i j pi c) as (s & Cs & _ & _ & Ho); [done|lia|done|done|].
      replace (Z.to_nat (i * N + j)) with t in Ho by nia. rewrite Ht in Ho. simplify_eq.
      assert (canonical c) as Cc.
      { apply (Forall_lookup_1 _ _ (Z.to_nat (pi * N + j)) _ Hcan). rewrite lookup_take_lt by nia. done. }
      apply fmul_canonical; [apply crecip_is256|]; by apply canonical_is256. }
    exists (l :: ls), (reorder p1 p2). split.
    { destruct el as [e l0]. cbn [encode_chain fst snd] in *. rewrite E. cbn [mbind option_bind]. by rewrite E2. }
    split; [simpl; lia|]. split; [by apply reorder_perm|].
    intros Hd i j pi c Hi Hj Hpi Hci. apply Forall_cons_1 in Hd as [Hdl Hdls].
    unfold reorder in Hpi. rewrite list_lookup_fmap in Hpi.
    destruct (perm_entry p2 numcards i Hi Hp2) as (k & Hk & Rk). rewrite Hk in Hpi. simpl in Hpi.
    destruct (perm_entry p1 numcards k Rk Hp1) as (pi' & Hpi' & Rpi).
    rewrite (nth_lookup_Some _ _ _ _ Hpi') in Hpi. simplify_eq.
    assert (pi * N + j < numcards * N) by nia.
    assert (canonical c) as Cc.
    { apply (Forall_lookup_1 _ _ (Z.to_nat (pi * N + j)) _ Hcan). rewrite lookup_take_lt by nia. done. }
    destruct (decode_spec p1 ciphers numcards N l k j pi c) as (s & f & Hf & Cf & Hsf & Edec); try done.
    destruct (H2 Hdls i j k f) as (f' & audit & Hf' & La & E3 & Hprod); [done..|].
    exists f', (s :: audit). split; [done|]. split; [simpl; lia|]. cbn [decode_chain foldr].
    rewrite E3. cbn [mbind option_bind]. rewrite Edec. cbn [mbind option_bind]. by rewrite Hprod.
Qed.

(** ** Theorems: the whole deal *)

Lemma initdeck_spec rands cards cardpubs numcards N P :
  0 <= N <= Z.of_nat (length P) -> 0 <= numcards <= Z.of_nat (length cardpubs) -> numcards <= 62 ->
  numcards * N <= Z.of_nat (length cards) -> Forall bits256_ok rands ->
  (forall i, 0 <= i < numcards -> covers rands i) ->
  exists deck pubs prod ks, cards777_initdeck rands cards cardpubs numcards N P = Some (deck, pubs, prod) /\
    card_no <$> ks ≡ₚ positions numcards /\ length deck = length cards /\
    Forall (fun k => exists r, r ∈ rands /\ clamp r = Some k) ks /\
    length pubs = length cardpubs /\ take (Z.to_nat numcards) pubs = (fun k => pub k) <$> ks /\
    cards777_pubkeys pubs numcards = Some prod /\
    forall i j k p, 0 <= i < numcards -> 0 <= j < N -> ks !! Z.to_nat i = Some k -> P !! Z.to_nat j = Some p ->
      deck !! Z.to_nat (i * N + j) = Some (cards777_initcrypt k k p false).
Proof.
  intros HN Hn H62 HL Hok Hcov. unfold cards777_initdeck.
  destruct (initdeck_loop_spec P numcards N (length cards) (length cardpubs) rands []
    (mk_deck cards cardpubs 0 0 0 unit256)) as (ks & d & -> & Hd & Hall & Hsub); try done.
  { split; try done; simpl; [intros; by rewrite Z.bits_0|constructor]. }
  { intros i Hi. right. by apply Hcov. }
  cbn [mbind option_bind app] in *. pose proof Hd as [].
  assert (card_no <$> ks ≡ₚ positions numcards) as Hp.
  { apply NoDup_Permutation; [done|unfold positions; apply NoDup_fmap_2; [intros ? ?; lia|apply NoDup_seq]|].
    intros i. rewrite elem_positions. split; [|apply Hall].
    intros (k & -> & Hk)%list_elem_of_fmap. apply (proj1 (list.Forall_forall _ _) do_range0 k Hk). }
  pose proof (Permutation_length Hp) as L. rewrite length_fmap, positions_length in L.
  exists (k_cards d), (k_cardpubs d), (k_prod d), ks. split; [done|]. split; [done|]. split; [done|].
  split; [done|]. split; [done|]. rewrite <- L. split; [done|]. split.
  - rewrite pubkeys_prod by lia. replace (Z.to_nat numcards) with (length ks) by lia. by rewrite do_pubs0.
  - intros i j k p Hi Hj Hk Hpj. rewrite <- (do_cards0 (Z.to_nat i) j k p) by done. do 2 f_equal. lia.
Qed.

(** With more than 62 cards the bound of the loop, [(1LL << numcards) - 1], has no
    value: there is no deck. *)
Lemma initdeck_wide rands cards cardpubs numcards N P : 62 < numcards ->
  cards777_initdeck rands cards cardpubs numcards N P = None.
Proof.
  intros H. unfold cards777_initdeck.
  assert (bit_ll numcards = None) as E by (unfold bit_ll; by rewrite (proj2 (Z.ltb_ge _ _)), andb_false_r by lia).
  destruct rands; cbn [initdeck_loop]; by rewrite E.
Qed.

(** C26: the host's deck, of at most 62 cards (the mask of the cards seen is a
    64-bit word, and [1LL << numcards] overflows beyond): once the random keys
    have covered every card, the loop ends with one private key per card number, their public keys in the same
    order, each key encrypted once for every player, and the check product that
    [cards777_pubkeys] computes from the published keys. *)
Theorem cards777_initdeck_deck rands cards cardpubs numcards N P :
  0 <= N <= Z.of_nat (length P) -> 0 <= numcards <= Z.of_nat (length cardpubs) -> numcards <= 62 ->
  numcards * N <= Z.of_nat (length cards) -> Forall bits256_ok rands ->
  (forall i, 0 <= i < numcards -> covers rands i) ->
  exists deck pubs prod ks, cards777_initdeck rands cards cardpubs numcards N P = Some (deck, pubs, prod) /\
    card_no <$> ks ≡ₚ positions numcards /\ length deck = length cards /\
    Forall (fun k => exists r, r ∈ rands /\ clamp r = Some k) ks /\
    length pubs = length cardpubs /\ take (Z.to_nat numcards) pubs = (fun k => pub k) <$> ks /\
    cards777_pubkeys pubs numcards = Some prod /\
    forall i j k p, 0 <= i < numcards -> 0 <= j < N -> ks !! Z.to_nat i = Some k -> P !! Z.to_nat j = Some p ->
      deck !! Z.to_nat (i * N + j) = Some (cards777_initcrypt k k p false).
Proof. apply initdeck_spec. Qed.

(** What the deal needs of the keys drawn: their scalars are reduced, the shared
    secrets are invertible, and a card opened with another card's key does not
    happen to fit it. *)
Record keys_good (rands playerprivs : list bits256) : Prop := mk_keys_good {
  kg_players : Forall bits256_ok playerprivs;
  kg_canonical : forall r k, r ∈ rands -> clamp r = Some k -> canonical k /\ txid k <> 0;
  kg_factor : forall r k q, r ∈ rands -> clamp r = Some k -> q ∈ playerprivs ->
    factor (curve25519_shared q (pub k));
  kg_separate : forall r k r' k' q, r ∈ rands -> clamp r = Some k -> r' ∈ rands -> clamp r' = Some k' ->
    q ∈ playerprivs -> k' <> k ->
    pub (cards777_initcrypt (cards777_initcrypt k k (pub q) false) q (pub k') true) <> pub k';
}.

(** C25: the deal is correct.  The host makes a deck, the other players shuffle and
    blind it in turn; then for every position of the final deck and every player,
    taking the layers off and opening the card with the player's key gives the
    key and number of one card of the deck, the audit of the layers validates,
    and the numbers shown at the positions are a permutation of the deck: no card
    is lost and none is dealt twice.  (Two cards for the same player must not
    look the same under a layer.) *)
Theorem cards777_deal M numcards N es rands cards cardpubs playerprivs :
  0 <= numcards <= 52 -> 1 <= N <= 9 -> 0 < M <= N -> N = Z.of_nat (length playerprivs) ->
  numcards <= Z.of_nat (length cardpubs) -> numcards * N <= Z.of_nat (length cards) ->
  Forall (entropy_ok M numcards N) es -> Forall bits256_ok rands ->
  (forall i, 0 <= i < numcards -> covers rands i) -> keys_good rands playerprivs ->
  exists deck pubs prod ls,
    cards777_initdeck rands cards cardpubs numcards N ((fun q => pub q) <$> playerprivs) = Some (deck, pubs, prod) /\
    encode_chain es M deck numcards N = Some ls /\
    (Forall (distinct_columns numcards N) ls -> exists shown, shown ≡ₚ positions numcards /\
      forall i j q, 0 <= i < numcards -> 0 <= j < N -> playerprivs !! Z.to_nat j = Some q ->
      exists f audit c k, final_deck deck ls !! Z.to_nat (i * N + j) = Some f /\
        decode_chain ls j f numcards N = Some (audit, c) /\ shown !! Z.to_nat i = Some (card_no k) /\
        cards777_checkcard q pubs numcards c = Some (k, card_no k) /\
        cards777_validate k f (c :: audit) (1 + Z.of_nat (length ls)) (pub q) = Some (card_no k)).
Proof.
  intros Hn HN HM EN Hcp Hc Hes Hok Hcov [].
  destruct (initdeck_spec rands cards cardpubs numcards N ((fun q => pub q) <$> playerprivs))
    as (deck & pubs & prod & ks & E & Hp & Ld & Hks & Lp & Hpubs & _ & Hdeck); [rewrite length_fmap; lia|lia|lia|done..|].
  pose proof (Permutation_length Hp) as L. rewrite length_fmap, positions_length in L.
  assert (forall i k, ks !! i = Some k -> exists r, r ∈ rands /\ clamp r = Some k) as Hfrom.
  { intros i k Hk. apply (Forall_lookup_1 _ _ _ _ Hks Hk). }
  assert (forall k i j, ks !! i = Some k -> (j < Z.to_nat numcards)%nat -> i <> j -> forall k', ks !! j = Some k' -> k' <> k)
    as Hne.
  { intros k i j Hk Hj Hij k' Hk' ->. apply Hij.
    apply (NoDup_lookup (card_no <$> ks) _ _ (card_no k)); rewrite ?list_lookup_fmap, ?Hk, ?Hk'; try done.
    rewrite Hp. unfold positions. apply NoDup_fmap_2; [intros ? ?; lia|apply NoDup_seq]. }
  destruct (encode_chain_spec M numcards N es Hn HN HM Hes deck) as (ls & p & E2 & L2 & Hpp & H2); [lia| |].
  { apply list.Forall_forall. intros x Hx. apply elem_of_take in Hx as (t & Ht & Hlt).
    set (i := Z.of_nat t / N). set (j := Z.of_nat t mod N).
    pose proof (Z.div_mod (Z.of_nat t) N ltac:(lia)) as Hdm. pose proof (Z.mod_pos_bound (Z.of_nat t) N ltac:(lia)) as Hb.
    fold i j in Hdm, Hb. assert (0 <= i < numcards) by nia.
    destruct (lookup_lt_is_Some_2 ks (Z.to_nat i)) as [k Hk]; [lia|].
    destruct (lookup_lt_is_Some_2 playerprivs (Z.to_nat j)) as [q Hq]; [lia|].
    specialize (Hdeck i j k (pub q) ltac:(lia) ltac:(lia) Hk). rewrite list_lookup_fmap, Hq in Hdeck.
    specialize (Hdeck eq_refl). replace (Z.to_nat (i * N + j)) with t in Hdeck by lia. rewrite Ht in Hdeck.
    simplify_eq. destruct (Hfrom _ _ Hk) as (r & Hr & Er).
    apply fmul_canonical; [apply canonical_is256; by eapply kg_canonical0|apply sha256_is256]. }
  exists deck, pubs, prod, ls. split; [done|]. split; [done|]. intros Hd.
  exists (reorder (card_no <$> ks) p). split; [by apply reorder_perm|].
  intros i j q Hi Hj Hq.
  destruct (perm_entry p numcards i Hi Hpp) as (pi & Hpi & Rpi).
  destruct (lookup_lt_is_Some_2 ks (Z.to_nat pi)) as [k Hk]; [lia|].
  pose proof (Hdeck pi j k (pub q) Rpi Hj Hk) as Hcard. rewrite list_lookup_fmap, Hq in Hcard.
  specialize (Hcard eq_refl).
  destruct (H2 Hd i j pi _ Hi Hj Hpi Hcard) as (f & audit & Hf & La & Edec & Hprod).
  destruct (Hfrom _ _ Hk) as (r & Hr & Er). destruct (kg_canonical0 r k Hr Er) as [Ck Tk].
  pose proof (list_elem_of_lookup_2 _ _ _ Hq) as Hqin.
  assert (forall t P, (t < Z.to_nat numcards)%nat -> pubs !! t = Some P -> exists k', ks !! t = Some k' /\ P = pub k') as Hpub.
  { intros t P Ht HP. destruct (lookup_lt_is_Some_2 ks t) as [k' Hk']; [lia|]. exists k'. split; [done|].
    assert (take (Z.to_nat numcards) pubs !! t = Some P) as HP' by (rewrite lookup_take_lt; done).
    rewrite Hpubs, list_lookup_fmap, Hk' in HP'. simpl in HP'. congruence. }
  destruct (checkcard_open q pubs numcards k pi) as (no & Hno & Eopen); [done|lia| |done|done| |by eapply kg_factor0| |].
  { destruct (lookup_lt_is_Some_2 pubs (Z.to_nat pi)) as [P HP]; [lia|].
    destruct (Hpub (Z.to_nat pi) P) as (k' & Hk' & ->); [lia|done|]. rewrite HP. congruence. }
  { rewrite list.Forall_forall in kg_players0. by apply kg_players0. }
  { intros t P Ht HP. destruct (Hpub (Z.to_nat t) P) as (k' & Hk' & ->); [lia|done|].
    destruct (Hfrom _ _ Hk') as (r' & Hr' & Er'). apply (kg_separate0 r k r' k' q); try done.
    apply (Hne k (Z.to_nat pi) (Z.to_nat t)); (done || lia). }
  assert (no = card_no k) as -> by (unfold card_no, bits256 in *; by rewrite Hno).
  exists f, audit, (cards777_initcrypt k k (pub q) false), k. split; [done|]. split; [done|]. split.
  { unfold reorder. rewrite list_lookup_fmap, Hpi. simpl.
    rewrite (nth_lookup_Some _ _ 0 (card_no k)); [done|]. by rewrite list_lookup_fmap, Hk. }
  split; [done|].
  rewrite (cards777_validate_gen k f _ _ _ (cards777_initcrypt k k (pub q) false) (card_no k)); [|simpl; lia|done|done].
  rewrite bool_decide_eq_true_2; [done|]. split; [|done]. unfold audit_value. cbn [drop].
  rewrite drop_0, take_ge by lia. exact Hprod.
Qed.
End Keys.

(** ** Witnesses *)

(** The first 32 of a list of values, padded with zeros. *)
Definition pad32 (l : list Z) : bits256 := take 32 (l ++ replicate 32 0).

Lemma pad32_is256 l : is256 (pad32 l).
Proof. unfold is256, pad32. rewrite length_take, length_app, length_replicate. lia. Qed.

Lemma xor256_is256 a b : is256 a -> is256 b -> is256 (xor256 a b).
Proof. unfold is256, xor256. intros Ha Hb. rewrite length_zip_with. lia. Qed.

Lemma xor256_swap a b c : xor256 a (xor256 b c) = xor256 b (xor256 a c).
Proof.
  unfold xor256. revert b c. induction a as [|x a IH]; intros [|y b] [|z c]; simpl; try done.
  f_equal; [|apply IH]. by rewrite <- !Z.lxor_assoc, (Z.lxor_comm x y).
Qed.

Lemma xor256_right c h : length c = length h -> xor256 (xor256 c h) h = c.
Proof.
  revert c. induction h as [|x h IH]; intros [|y c] H; simplify_eq/=; [done|].
  by rewrite IH, Z.lxor_assoc, Z.lxor_nilpotent, Z.lxor_0_r.
Qed.

(** A concrete interface: exclusive or as product and as key exchange, and a
    digest that mixes each byte. *)
Definition ToyOps : @CurveOps XorOps.
Proof.
  refine (@Build_CurveOps XorOps xor256
    (fun l => pad32 ((fun x => (5 * x * x + 3 * x + 1) mod 256) <$> l)) is256 _ _ _ _ _ _ _).
  - intros x Hx. exact Hx.
  - intros x Hx. exact Hx.
  - intros l. apply pad32_is256.
  - intros a b. apply xor256_is256.
  - intros a b. apply xor256_is256.
  - intros c h Hc Hh. apply xor256_right. exact (eq_trans Hc (eq_sym Hh)).
  - intros a b _ _. apply xor256_swap.
Defined.

(** The random keys of cards 0 and 1, and the keys of two players. *)
Definition sample_rands : list bits256 :=
  [8 :: 0 :: 5 :: replicate 29 3; 255 :: 200 :: replicate 30 9; 16 :: 1 :: replicate 30 7].
Definition sample_privs : list bits256 := [byte32 77; byte32 101].

Lemma sample_covers i : 0 <= i < 2 -> covers sample_rands i.
Proof.
  intros Hi. assert (i = 0 \/ i = 1) as [-> | ->] by lia.
  - exists (8 :: 0 :: 5 :: replicate 29 3). eexists. split; [apply elem_of_cons; by left|].
    split; [vm_compute; reflexivity|reflexivity].
  - exists (16 :: 1 :: replicate 30 7). eexists.
    split; [apply elem_of_cons; right; apply elem_of_cons; right; by apply list_elem_of_singleton|].
    split; [vm_compute; reflexivity|reflexivity].
Qed.

Lemma cards777_checkcard_sound_witness :
  let deck := (fun k => @curve25519 XorOps ToyOps k curve25519_basepoint9) <$> [byte32 70; byte32 9] in
  exists p c, @cards777_checkcard XorOps ToyOps (byte32 77) deck 2 (byte32 12) = Some (p, c) /\
    ((p = zero256 /\ c = -1) \/ p !! 1%nat = Some c).
Proof.
  intros deck. destruct (@cards777_checkcard_sound XorOps ToyOps (byte32 77) deck 2 (byte32 12))
    as (p & c & E & [(-> & -> & _)|[H _]]); [concrete|reflexivity|..]; do 2 eexists; split; eauto.
Defined.

Lemma cards777_validate_spec_witness :
  @cards777_validate XorOps ToyOps (byte32 5) (byte32 9) [byte32 14; byte32 7] 2 (byte32 1) = Some (-1).
Proof.
  rewrite (@cards777_validate_spec XorOps ToyOps (byte32 5) (byte32 9) [byte32 14; byte32 7] 2 (byte32 1)
    (byte32 14) 5); [|concrete|done|done].
  vm_compute. reflexivity.
Defined.

Lemma cards777_initdeck_deck_witness :
  exists deck pubs prod ks, @cards777_initdeck XorOps ToyOps sample_rands (replicate 4 zero256)
      (replicate 3 zero256) 2 2 sample_privs = Some (deck, pubs, prod) /\
    card_no <$> ks ≡ₚ positions 2 /\ length deck = 4%nat /\
    @cards777_pubkeys XorOps ToyOps pubs 2 = Some prod.
Proof.
  destruct (@cards777_initdeck_deck XorOps ToyOps sample_rands (replicate 4 zero256) (replicate 3 zero256) 2 2
    sample_privs) as (d & pb & pr & ks & E & Hp & L & _ & _ & _ & Hc & _);
    [concrete|concrete|concrete|concrete|concrete|exact sample_covers|]. exists d, pb, pr, ks. done.
Defined.

Definition sample_entropy : entropy * layer :=
  (mk_entropy [1; 0] (replicate 52 0) (replicate 4 zero256) (byte32 <$> [3; 50; 96; 17]) [7; 9] [],
   mk_layer (replicate 4 zero256) (replicate 4 zero256) (replicate 256 0) [0; 0]).

Lemma sample_entropy_ok : @entropy_ok XorOps 1 2 2 sample_entropy.
Proof.
  split; try concrete.
  repeat constructor; try discriminate; unfold bits256_ok; concrete.
Qed.

Lemma sample_keys_good : @keys_good XorOps ToyOps sample_rands sample_privs.
Proof.
  split.
  - concrete.
  - intros r k Hr Ek. repeat (apply elem_of_cons in Hr as [-> | Hr]); [..|by apply elem_of_nil in Hr];
      vm_compute in Ek; injection Ek as <-; split; [reflexivity|discriminate|reflexivity|discriminate|reflexivity|discriminate].
  - intros r k q _ _ _. apply pad32_is256.
  - intros r k r' k' q Hr Ek Hr' Ek' Hq Hne.
    repeat (apply elem_of_cons in Hr as [-> | Hr]); [..|by apply elem_of_nil in Hr];
    repeat (apply elem_of_cons in Hr' as [-> | Hr']); try (by apply elem_of_nil in Hr');
    repeat (apply elem_of_cons in Hq as [-> | Hq]); try (by apply elem_of_nil in Hq);
    vm_compute in Ek; injection Ek as <-; vm_compute in Ek'; injection Ek' as <-;
    first [by destruct Hne | vm_compute; discriminate].
Qed.

(** Two cards for two players, one layer. *)
Lemma cards777_deal_witness :
  exists deck pubs prod ls shown,
    @cards777_initdeck XorOps ToyOps sample_rands (replicate 4 zero256) (replicate 3 zero256) 2 2
      ((fun q => @curve25519 XorOps ToyOps q curve25519_basepoint9) <$> sample_privs) = Some (deck, pubs, prod) /\
    @encode_chain XorOps [sample_entropy] 1 deck 2 2 = Some ls /\ shown ≡ₚ positions 2 /\
    forall i j q, 0 <= i < 2 -> 0 <= j < 2 -> sample_privs !! Z.to_nat j = Some q ->
      exists f audit c k, final_deck deck ls !! Z.to_nat (i * 2 + j) = Some f /\
        @decode_chain XorOps ls j f 2 2 = Some (audit, c) /\ shown !! Z.to_nat i = Some (card_no k) /\
        @cards777_checkcard XorOps ToyOps q pubs 2 c = Some (k, card_no k).
Proof.
  destruct (@cards777_deal XorOps ToyOps 1 2 2 [sample_entropy] sample_rands (replicate 4 zero256)
    (replicate 3 zero256) sample_privs) as (deck & pubs & prod & ls & E1 & E2 & H);
    [concrete|concrete|concrete|reflexivity|concrete|concrete|
     apply Forall_singleton, sample_entropy_ok|concrete|exact sample_covers|exact sample_keys_good|].
  assert (Forall (distinct_columns 2 2) ls) as Hd.
  { vm_compute in E1. injection E1 as <- _ _. vm_compute in E2. injection E2 as <-.
    apply Forall_singleton. intros k i j c Hk Hi Hj Hc.
    assert (k = 0) as -> by lia. assert (i = 1) as -> by lia.
    assert (j = 0 \/ j = 1) as [-> | ->] by lia; vm_compute in Hc; injection Hc as <-; vm_compute; discriminate. }
  destruct (H Hd) as (shown & Hs & Hall). exists deck, pubs, prod, ls, shown.
  split; [exact E1|]. split; [exact E2|]. split; [exact Hs|].
  intros i j q Hi Hj Hq. destruct (Hall i j q Hi Hj Hq) as (f & au & c & k & H1 & H2 & H3 & H4 & _).
  by exists f, au, c, k.
Defined.
