(* ===== verification/Account.v ===== *)
(** * Account: account numbers and their Reed-Solomon addresses

    Models the account texts of [plugins/utils/NXT777.c] and
    [plugins/utils/cJSON.c]: a 64-bit account number as decimal text, and as an
    address [NXT-XXXX-XXXX-XXXX-XXXXX] of thirteen base-32 digits and the four
    check symbols of a Reed-Solomon code over GF(32).  A C string that is only
    read is given by its memory, with the terminating zero; text that is written
    is returned without it. *)

From S2P Require Import Prelude Bits Utils.

(** ** Decimal text *)

(** [rev] of [expand_nxt64bits]: the lowest digit first.  A 64-bit number has at
    most twenty digits. *)
Fixpoint rev_digits (fuel : nat) (nxt64bits : Z) : list Z :=
  match fuel with
  | O => []
  | S fuel => if nxt64bits =? 0 then [] else nxt64bits mod 10 + 48 :: rev_digits fuel (nxt64bits / 10)
  end.

(** The text written; the returned length is that of the text. *)
Definition expand_nxt64bits (nxt64bits : Z) : list Z := rev (rev_digits 20 nxt64bits).

(** [-1], [0] or [1] as the first text is smaller, equal or greater. *)
Fixpoint strcmp (a b : list Z) : Z :=
  match a, b with
  | [], [] => 0
  | [], _ => -1
  | _, [] => 1
  | x :: a, y :: b => if x <? y then -1 else if y <? x then 1 else strcmp a b
  end.

Definition cmp_nxt64bits (str : option (list Z)) (nxt64bits : Z) : Z :=
  match str with
  | None => -1
  | Some s => if (nxt64bits =? 0) && (strcmp s [] =? 0) then 0 else strcmp s (expand_nxt64bits nxt64bits)
  end.

(** The digits from the last to the first, with their weight; [None]: an illegal
    character. *)
Fixpoint calc_digits (rdigits : list Z) (mult nxt64bits : Z) : option Z :=
  match rdigits with
  | [] => Some nxt64bits
  | c :: rdigits =>
      if (c <? 48) || (57 <? c) then None
      else calc_digits rdigits (u64 (mult * 10)) (u64 (nxt64bits + u64 (mult * (c - 48))))
  end.

Definition str_false : list Z := [102; 97; 108; 115; 101].

Definition calc_nxt64bits (NXTaddr : option (list Z)) : Z :=
  match NXTaddr with
  | None => 0
  | Some s =>
      if 22 <=? Z.of_nat (length s) then 0
      else if (strcmp s [48] =? 0) || (strcmp s str_false =? 0) then 0
      else
        let negative := match s with c :: _ => c =? 45 | [] => false end in
        match calc_digits (rev (if negative then drop 1 s else s)) 1 0 with
        | None => 0
        | Some v => if negative then u64 (- s64 v) else v
        end
  end.

(** ** The field of the addresses *)

Definition gexp : list Z :=
  [1; 2; 4; 8; 16; 5; 10; 20; 13; 26; 17; 7; 14; 28; 29; 31; 27; 19; 3; 6; 12; 24; 21; 15; 30; 25; 23; 11; 22; 9; 18; 1].
Definition glog : list Z :=
  [0; 0; 1; 18; 2; 5; 19; 11; 3; 29; 6; 27; 20; 8; 12; 23; 4; 10; 30; 17; 7; 22; 28; 26; 21; 25; 9; 16; 13; 14; 24; 15].
Definition cwmap : list Z := [3; 2; 1; 0; 7; 6; 5; 4; 13; 14; 15; 16; 12; 8; 9; 10; 11].

(** "23456789ABCDEFGHJKLMNPQRSTUVWXYZ" *)
Definition alphabet : list Z :=
  [50; 51; 52; 53; 54; 55; 56; 57; 65; 66; 67; 68; 69; 70; 71; 72; 74; 75; 76; 77; 78; 80; 81; 82; 83; 84; 85; 86; 87; 88; 89; 90].

Definition gmult (a b : Z) : option Z :=
  if (a =? 0) || (b =? 0) then Some 0
  else la ← aget glog a; lb ← aget glog b; aget gexp (Z.rem (la + lb) 31).

(** [letter] is a (signed) character. *)
Definition letterval (letter : Z) : Z :=
  if letter <? 57 then letter - 50
  else
    let ret := letter - 65 + 8 in
    let ret := if 73 <? letter then ret - 1 else ret in
    if 79 <? letter then ret - 1 else ret.

(** ** Addresses *)

Definition str_NXT : list Z := [78; 88; 84; 45].

(** [strncmp("NXT-",rs,4)] is zero; a shorter string stops the comparison. *)
Fixpoint has_prefix (p mem : list Z) : option bool :=
  match p with
  | [] => Some true
  | c :: p => match mem with [] => None | x :: mem => if x =? c then has_prefix p mem else Some false end
  end.

(** The account number is in the low thirteen symbols. *)
Definition code_value (code : list Z) : option Z :=
  for_ (fun k out => c ← aget code (12 - k); Some (u64 (u64 (out * 32) + c))) 0 13 0.

Definition init_code : list Z := [1; 0; 0; 0; 0; 0; 0; 0; 0; 0; 0; 0; 0; 0; 0; 0; 0].

(** One letter of the address, and the dash behind it if there is one. *)
Definition decode_letter (rs : list Z) (i : Z) (st : list Z * Z) : option (list Z * Z) :=
  let '(code, p) := st in
  w ← aget cwmap i;
  x ← aget rs p;
  code ← aset code w (letterval (s8 x));
  y ← aget rs (p + 1);
  Some (code, if y =? 45 then p + 2 else p + 1).

(** [rs] is the memory of the string; one without the prefix is account 0. *)
Definition RS_decode (rs : list Z) : option Z :=
  ok ← has_prefix str_NXT rs;
  if (ok : bool) then
    '(code, _) ← for_ (decode_letter rs) 0 17 (init_code, 4);
    code_value code
  else Some 0.

(** [sprintf(acc,"%llu",id)]. *)
Definition print_llu (id : Z) : list Z := if id =? 0 then [48] else expand_nxt64bits id.

(** One pass of the conversion: the digits of the quotient, in place, their number
    and the remainder. *)
Definition divide_pass (inp : list Z) (len : Z) : option (list Z * Z * Z) :=
  for_ (fun i '(inp, newlen, divide) =>
      d ← aget inp i;
      let divide := divide * 10 + d in
      if 32 <=? divide then
        inp ← aset inp newlen (Z.shiftr divide 5); Some (inp, newlen + 1, Z.land divide 31)
      else if 0 <? newlen then inp ← aset inp newlen 0; Some (inp, newlen + 1, divide)
      else Some (inp, newlen, divide))
    0 (Z.to_nat len) (inp, 0, 0).

(** [do ... while (newlen != 0)]: the digits to base 32 and their number; [out] has
    room for 32 of them. *)
Fixpoint divide_loop (fuel : nat) (inp : list Z) (len : Z) (out : list Z) (pos : Z) : option (list Z * Z) :=
  match fuel with
  | O => None
  | S fuel =>
      '(inp, newlen, divide) ← divide_pass inp len;
      out ← aset out pos divide;
      if newlen =? 0 then Some (out, pos + 1) else divide_loop fuel inp newlen out (pos + 1)
  end.

(** [code[i] = (--pos >= 0 ? out[i] : 0)] for the first thirteen. *)
Definition copy_code (out code : list Z) (pos : Z) : option (list Z) :=
  fst <$> for_ (fun i '(code, pos) =>
      let pos := pos - 1 in
      o ← (if 0 <=? pos then aget out i else Some 0);
      code ← aset code i o; Some (code, pos)) 0 13 (code, pos).

(** A step of the division by the generator polynomial. *)
Definition parity_step (p : Z * Z * Z * Z) (c : Z) : option (Z * Z * Z * Z) :=
  let '(p0, p1, p2, p3) := p in
  let fb := Z.lxor c p3 in
  a ← gmult 30 fb; b ← gmult 6 fb; d ← gmult 9 fb; e ← gmult 17 fb;
  Some (e, Z.lxor p0 d, Z.lxor p1 b, Z.lxor p2 a).

Definition parity (code : list Z) : option (Z * Z * Z * Z) :=
  for_ (fun k p => c ← aget code (12 - k); parity_step p c) 0 13 (0, 0, 0, 0).

(** The letters with their dashes; [j] is the length of the text so far. *)
Definition encode_letter (code : list Z) (i : Z) (rsaddr : list Z) : option (list Z) :=
  w ← aget cwmap i;
  c ← aget code w;
  a ← aget alphabet c;
  let rsaddr := rsaddr ++ [a] in
  let j := Z.of_nat (length rsaddr) in
  Some (if (Z.rem j 5 =? 3) && (j <? 20) then rsaddr ++ [45] else rsaddr).

Inductive rs_result :=
  | RsError (acc : list Z)
  | RsAddress (rsaddr : list Z).

Definition RS_encode (id : Z) : option rs_result :=
  let acc := print_llu id in
  let len := Z.of_nat (length acc) in
  a0 ← aget acc 0;
  if (len =? 20) && negb (a0 =? 49) then Some (RsError acc)
  else
    inp ← for_ (fun i inp => c ← aget acc i; aset inp i (c - 48)) 0 (length acc) (replicate 32 0);
    '(out, pos) ← divide_loop 32 inp len (replicate 32 0) 0;
    code ← copy_code out init_code pos;
    '(p0, p1, p2, p3) ← parity code;
    code ← aset code 13 p0; code ← aset code 14 p1; code ← aset code 15 p2; code ← aset code 16 p3;
    RsAddress <$> for_ (encode_letter code) 0 17 str_NXT.

(** ** Account texts *)

(** A decimal number below 24 digits, or an address, which [conv_rsacctstr] hands to
    [RS_decode]; anything else is account 0. *)
Definition conv_acctstr (acctstr : option (list Z)) : option Z :=
  match acctstr with
  | None => Some 0
  | Some s =>
      let len := is_decimalstr s in
      if (0 <? len) && (len <? 24) then Some (calc_nxt64bits (Some s))
      else
        nxt ← has_prefix str_NXT (s ++ [0]);
        if (nxt : bool) then RS_decode (s ++ [0]) else Some 0
  end.

(** The characters of a word of eight, up to the first zero. *)
Fixpoint unstring_from (bits : Z) (k : nat) : list Z :=
  match k with
  | O => []
  | S k => if Z.land bits 255 =? 0 then [] else Z.land bits 255 :: unstring_from (Z.shiftr bits 8) k
  end.

Definition unstringbits (bits : Z) : list Z := unstring_from bits 8.

Definition calc_decimals_mult (decimals : Z) : Z :=
  default 1 (for_ (fun _ mult => Some (u64 (mult * 10))) 0 (Z.to_nat (8 - decimals)) 1).

(** ** Decimal digits *)

(** The value of decimal digits, the highest first. *)
Definition val10 (l : list Z) : Z := foldl (fun v d => 10 * v + d) 0 l.

Lemma val10_snoc l d : val10 (l ++ [d]) = 10 * val10 l + d.
Proof. unfold val10. by rewrite foldl_app. Qed.

Lemma val10_nonneg l : Forall (Z.le 0) l -> 0 <= val10 l.
Proof.
  induction l as [|d l IH] using rev_ind; [done|]. rewrite Forall_app, Forall_singleton, val10_snoc.
  intros [Hl Hd]. specialize (IH Hl). lia.
Qed.

(** The digits of [expand_nxt64bits]: characters, no leading zero, and their value. *)
Lemma rev_digits_spec fuel : forall x, 0 <= x < 10 ^ Z.of_nat fuel ->
  Forall (fun c => 48 <= c <= 57) (rev_digits fuel x) /\
  val10 ((fun c => c - 48) <$> rev (rev_digits fuel x)) = x /\
  (0 < x -> rev_digits fuel x <> []) /\ Z.of_nat (length (rev_digits fuel x)) <= Z.of_nat fuel.
Proof.
  induction fuel as [|fuel IH]; intros x Hx; cbn [rev_digits].
  - change (10 ^ Z.of_nat 0) with 1 in Hx. assert (x = 0) as -> by lia. split; [constructor|]. split; [done|]. split; [lia|simpl; lia].
  - rewrite Nat2Z.inj_succ, Z.pow_succ_r in Hx by lia.
    destruct (Z.eqb_spec x 0) as [->|Hne]; [split; [constructor|]; split; [done|]; split; [lia|simpl; lia]|].
    pose proof (Z.mod_pos_bound x 10 ltac:(lia)). pose proof (Z.div_mod x 10 ltac:(lia)).
    destruct (IH (x / 10)) as (Hd & Hv & _ & Hl).
    { split; [apply Z.div_pos; lia|apply Z.div_lt_upper_bound; lia]. }
    split; [constructor; [lia|done]|]. split.
    + cbn [rev]. rewrite fmap_app, fmap_cons, fmap_nil, val10_snoc, Hv. lia.
    + split; [done|]. cbn [length]. lia.
Qed.

Lemma expand_spec x : 0 <= x < 2 ^ 64 ->
  Forall (fun c => 48 <= c <= 57) (expand_nxt64bits x) /\
  val10 ((fun c => c - 48) <$> expand_nxt64bits x) = x /\
  (0 < x -> expand_nxt64bits x <> []) /\ Z.of_nat (length (expand_nxt64bits x)) <= 20.
Proof.
  intros Hx. destruct (rev_digits_spec 20 x) as (Hd & Hv & Hn & Hl).
  { change (10 ^ Z.of_nat 20) with 100000000000000000000. change (2 ^ 64) with 18446744073709551616 in Hx. lia. }
  unfold expand_nxt64bits. split; [by apply Forall_rev|]. split; [done|]. split.
  - intros H0 E. apply (Hn H0). by rewrite <- (rev_involutive (rev_digits 20 x)), E.
  - by rewrite length_rev.
Qed.

Lemma u64_mod x : u64 x = x mod 18446744073709551616.
Proof. done. Qed.

Lemma calc_digits_spec l : Forall (fun c => 48 <= c <= 57) l -> forall m v, u64 v = v ->
  calc_digits (rev l) m v = Some (u64 (v + m * val10 ((fun c => c - 48) <$> l))).
Proof.
  induction l as [|c l IH] using rev_ind; intros Hl m v Hv.
  - cbn. by rewrite Z.mul_0_r, Z.add_0_r, Hv.
  - rewrite Forall_app, Forall_singleton in Hl. destruct Hl as [Hl Hc]. rewrite rev_unit. cbn [calc_digits].
    destruct (Z.ltb_spec c 48), (Z.ltb_spec 57 c); try lia. cbn [orb].
    rewrite (IH Hl) by (rewrite !u64_mod, Z.mod_mod; lia).
    rewrite fmap_app, fmap_cons, fmap_nil, val10_snoc, !u64_mod. f_equal. set (w := val10 _).
    rewrite Zplus_mod_idemp_r, Zplus_mod_idemp_l, Zplus_mod, Zmult_mod_idemp_l, <- Zplus_mod.
    f_equal. lia.
Qed.

Lemma strcmp_refl s : strcmp s s = 0.
Proof. induction s as [|c s IH]; [done|]. cbn [strcmp]. by rewrite Z.ltb_irrefl. Qed.

Lemma strcmp_eq s t : strcmp s t = 0 -> s = t.
Proof.
  revert t. induction s as [|c s IH]; intros [|d t]; try done. cbn [strcmp].
  destruct (Z.ltb_spec c d), (Z.ltb_spec d c); try done. intros E. f_equal; [lia|by apply IH].
Qed.

(** account numbers as decimal text.  [calc_nxt64bits] reads back the number
    that [expand_nxt64bits] printed, for every 64-bit account; the text has at most
    twenty digits, and compares equal to the number. *)
Theorem nxt64bits_roundtrip id : 0 <= id < 2 ^ 64 ->
  calc_nxt64bits (Some (expand_nxt64bits id)) = id /\
  Z.of_nat (length (expand_nxt64bits id)) <= 20 /\ cmp_nxt64bits (Some (expand_nxt64bits id)) id = 0.
Proof.
  intros Hid. destruct (expand_spec id Hid) as (Hd & Hv & Hn & Hl). split; [|split; [done|]].
  - unfold calc_nxt64bits. set (s := expand_nxt64bits id) in *. destruct (Z.leb_spec 22 (Z.of_nat (length s))); [lia|].
    destruct (Z.eqb_spec (strcmp s [48]) 0) as [E|_]; [apply strcmp_eq in E; rewrite E in Hv; exact Hv|].
    destruct (Z.eqb_spec (strcmp s str_false) 0) as [E|_].
    { apply strcmp_eq in E. rewrite E in Hd. inversion Hd. lia. }
    assert (match s with c :: _ => c =? 45 | [] => false end = false) as ->.
    { destruct Hd as [|c l Hc]; [done|]. apply Z.eqb_neq. lia. }
    cbn [orb]. rewrite calc_digits_spec, Hv by done. rewrite u64_small by (change (2 ^ 64) with 18446744073709551616 in Hid; lia). lia.
  - unfold cmp_nxt64bits. destruct (_ && _); [done|]. apply strcmp_refl.
Qed.

Lemma nxt64bits_roundtrip_witness : calc_nxt64bits (Some (expand_nxt64bits 8989816935121514892)) = 8989816935121514892.
Proof. apply (nxt64bits_roundtrip 8989816935121514892). concrete. Defined.

(** ** The base 32 digits *)

Definition digits32 (x : Z) : list Z := (fun i => x / 32 ^ Z.of_nat i mod 32) <$> seq 0 13.

Lemma val10_take_S (l : list Z) k d : l !! k = Some d -> val10 (take (S k) l) = 10 * val10 (take k l) + d.
Proof. intros H. by rewrite (take_S_r _ _ _ H), val10_snoc. Qed.

Lemma shiftr5 x : Z.shiftr x 5 = x / 32.
Proof. by rewrite Z.shiftr_div_pow2 by lia. Qed.

Lemma land31 x : Z.land x 31 = x mod 32.
Proof. change 31 with (Z.ones 5). by rewrite Z.land_ones by lia. Qed.

(** One pass: decimal digits of the quotient by 32 at the front, and the remainder. *)
Record passed (inp : list Z) (k : Z) (inp' : list Z) (nl dv : Z) : Prop := mk_passed {
  pd_length : length inp' = length inp;
  pd_nl : 0 <= nl <= k;
  pd_rest : forall j, (Z.to_nat nl <= j)%nat -> inp' !! j = inp !! j;
  pd_dv : 0 <= dv < 32;
  pd_digits : Forall (fun d => 0 <= d <= 9) (take (Z.to_nat nl) inp');
  pd_value : val10 (take (Z.to_nat nl) inp') * 32 + dv = val10 (take (Z.to_nat k) inp);
  pd_zero : nl = 0 \/ 0 < val10 (take (Z.to_nat nl) inp');
}.

Lemma passed_write inp k inp' nl dv d q dv' : passed inp k inp' nl dv -> 0 <= k < Z.of_nat (length inp) ->
  inp !! Z.to_nat k = Some d -> 0 <= q <= 9 -> 0 <= dv' < 32 -> 10 * dv + d = 32 * q + dv' -> 0 < q \/ 0 < nl ->
  exists inp2, aset inp' nl q = Some inp2 /\ passed inp (k + 1) inp2 (nl + 1) dv'.
Proof.
  intros [] Hk Hd Hq Hdv He Hnz. rewrite aset_in_range by lia. eexists. split; [reflexivity|].
  assert (take (Z.to_nat (nl + 1)) (<[Z.to_nat nl := q]> inp') = take (Z.to_nat nl) inp' ++ [q]) as Et.
  { replace (Z.to_nat (nl + 1)) with (S (Z.to_nat nl)) by lia.
    rewrite (take_S_r _ _ q) by (apply list_lookup_insert_eq; lia). by rewrite take_insert_ge by lia. }
  split; rewrite ?Et, ?val10_snoc.
  - by rewrite length_insert.
  - lia.
  - intros j Hj. rewrite list_lookup_insert_ne by lia. apply pd_rest0. lia.
  - done.
  - apply Forall_app. split; [done|]. by apply Forall_singleton.
  - replace (Z.to_nat (k + 1)) with (S (Z.to_nat k)) by lia. rewrite (val10_take_S _ _ _ Hd). lia.
  - right. assert (0 <= val10 (take (Z.to_nat nl) inp')); [|lia].
    apply val10_nonneg. eapply list.Forall_impl; [exact pd_digits0|]. simpl. lia.
Qed.

Lemma divide_pass_spec inp len : 0 <= len <= Z.of_nat (length inp) ->
  Forall (fun d => 0 <= d <= 9) (take (Z.to_nat len) inp) ->
  exists inp' nl dv, divide_pass inp len = Some (inp', nl, dv) /\ passed inp len inp' nl dv.
Proof.
  intros Hl Hd. unfold divide_pass.
  match goal with |- context [for_ ?f _ _ _] =>
  destruct (for_inv (fun k '(inp', nl, dv) => passed inp k inp' nl dv) f (Z.to_nat len) 0 (inp, 0, 0))
    as ([[inp' nl] dv] & E & H) end.
  - split; [done|lia|done|lia|constructor|done|by left].
  - intros k [[inp' nl] dv] Hk Hp. rewrite Z.add_0_l, Z2Nat.id in Hk by lia. pose proof Hp as [].
    destruct (aget_is_Some inp k) as (d & Hi & _); [lia|].
    assert (0 <= d <= 9) as Hd9.
    { rewrite list.Forall_forall in Hd. apply Hd. apply elem_of_take. exists (Z.to_nat k). split; [done|lia]. }
    rewrite (aget_lookup inp' k d) by (first [lia|rewrite pd_rest0 by lia; done]). cbn [mbind option_bind].
    destruct (Z.leb_spec 32 (dv * 10 + d)) as [Hge|Hlt].
    + rewrite shiftr5, land31. pose proof (Z.div_mod (dv * 10 + d) 32 ltac:(lia)).
      pose proof (Z.mod_pos_bound (dv * 10 + d) 32 ltac:(lia)).
      destruct (passed_write inp k inp' nl dv d ((dv * 10 + d) / 32) ((dv * 10 + d) mod 32) Hp)
        as (inp2 & E & Hp2); [lia|done|lia|lia|lia|lia|].
      rewrite E. cbn [mbind option_bind]. by eexists.
    + destruct (Z.ltb_spec 0 nl) as [Hnl|Hnl].
      * destruct (passed_write inp k inp' nl dv d 0 (dv * 10 + d) Hp) as (inp2 & E & Hp2); [lia|done|lia|lia|lia|lia|].
        rewrite E. cbn [mbind option_bind]. by eexists.
      * eexists. split; [reflexivity|]. assert (nl = 0) as -> by lia.
        split; try done; [lia|lia|]. replace (Z.to_nat (k + 1)) with (S (Z.to_nat k)) by lia.
        rewrite (val10_take_S _ _ _ Hi). rewrite <- pd_value0.
        change (val10 (take (Z.to_nat 0) inp')) with 0. lia.
  - exists inp', nl, dv. split; [done|]. by rewrite Z.add_0_l, Z2Nat.id in H by lia.
Qed.

Lemma divide_loop_spec m : forall fuel inp len out pos, (m < fuel)%nat ->
  0 <= len <= Z.of_nat (length inp) -> Forall (fun d => 0 <= d <= 9) (take (Z.to_nat len) inp) ->
  val10 (take (Z.to_nat len) inp) < 32 ^ Z.of_nat (S m) -> 0 <= pos -> pos + Z.of_nat (S m) <= Z.of_nat (length out) ->
  exists out' n, divide_loop fuel inp len out pos = Some (out', pos + n) /\ 1 <= n <= Z.of_nat (S m) /\
    length out' = length out /\ (forall j, (j < Z.to_nat pos)%nat -> out' !! j = out !! j) /\
    val10 (take (Z.to_nat len) inp) < 32 ^ n /\
    forall i, 0 <= i < n -> out' !! Z.to_nat (pos + i) = Some (val10 (take (Z.to_nat len) inp) / 32 ^ i mod 32).
Proof.
  induction m as [|m IH]; intros fuel inp len out pos Hf Hl Hd Hv Hp Ho; (destruct fuel as [|fuel]; [lia|]);
    cbn [divide_loop]; destruct (divide_pass_spec inp len Hl Hd) as (inp' & nl & dv & -> & []);
    cbn [mbind option_bind]; rewrite aset_in_range by lia; cbn [mbind option_bind];
    set (V := val10 (take (Z.to_nat len) inp)) in *;
    assert (V mod 32 = dv /\ V / 32 = val10 (take (Z.to_nat nl) inp')) as [Em Eq]
      by (rewrite <- pd_value0; split; [rewrite Z.add_comm, Z.mod_add, Z.mod_small; lia|
          rewrite Z.div_add_l, (Z.div_small dv) by lia; lia]);
    assert (forall j, <[Z.to_nat pos := dv]> out !! j = if decide (j = Z.to_nat pos) then Some dv else out !! j) as Hw
      by (intros j; destruct (decide (j = Z.to_nat pos)) as [->|];
          [apply list_lookup_insert_eq; lia|by apply list_lookup_insert_ne]).
  - assert (nl = 0) as -> by (destruct pd_zero0; [done|]; change (32 ^ Z.of_nat 1) with 32 in Hv; lia).
    cbn [Z.eqb]. exists (<[Z.to_nat pos := dv]> out), 1. split; [done|]. split; [lia|].
    split; [by rewrite length_insert|]. split; [intros j Hj; rewrite Hw, decide_False by lia; done|]. split; [done|].
    intros i Hi. assert (i = 0) as -> by lia. rewrite Z.add_0_r, Hw, decide_True by done.
    change (32 ^ 0) with 1. by rewrite Z.div_1_r, Em.
  - destruct (Z.eqb_spec nl 0) as [->|Hnz].
    + change (val10 (take (Z.to_nat 0) inp')) with 0 in *.
      exists (<[Z.to_nat pos := dv]> out), 1. split; [done|]. split; [lia|].
      split; [by rewrite length_insert|]. split; [intros j Hj; rewrite Hw, decide_False by lia; done|].
      split; [change (32 ^ 1) with 32; lia|].
      intros i Hi. assert (i = 0) as -> by lia. rewrite Z.add_0_r, Hw, decide_True by done.
      change (32 ^ 0) with 1. by rewrite Z.div_1_r, Em.
    + rewrite Nat2Z.inj_succ, Z.pow_succ_r in Hv by lia.
      destruct (IH fuel inp' nl (<[Z.to_nat pos := dv]> out) (pos + 1)) as (out' & n & E & Hn & L & Hlow & Hb & Hi);
        [lia|lia|done|lia|lia|rewrite length_insert; lia|].
      exists out', (n + 1). rewrite E. replace (pos + 1 + n) with (pos + (n + 1)) by lia. split; [done|]. split; [lia|].
      split; [by rewrite L, length_insert|]. split.
      { intros j Hj. rewrite Hlow, Hw, decide_False by lia. done. }
      split; [rewrite Z.pow_add_r by lia; change (32 ^ 1) with 32; lia|].
      intros i Hi'. destruct (decide (i = 0)) as [->|].
      * rewrite Z.add_0_r, Hlow, Hw, decide_True by lia. change (32 ^ 0) with 1. by rewrite Z.div_1_r, Em.
      * specialize (Hi (i - 1) ltac:(lia)). replace (pos + 1 + (i - 1)) with (pos + i) in Hi by lia. rewrite Hi.
        rewrite <- Eq, Z.div_div by lia. do 2 f_equal. replace i with (Z.succ (i - 1)) at 2 by lia.
        by rewrite Z.pow_succ_r by lia.
Qed.

Lemma digits32_lookup x i : (i < 13)%nat -> digits32 x !! i = Some (x / 32 ^ Z.of_nat i mod 32).
Proof. intros Hi. unfold digits32. rewrite list_lookup_fmap, lookup_seq_lt by done. done. Qed.

Lemma digits32_ok x : Forall (fun d => 0 <= d < 32) (digits32 x).
Proof. apply list.Forall_forall. intros d (i & -> & _)%list_elem_of_fmap. apply Z.mod_pos_bound. lia. Qed.

(** The digits in the code; the missing high ones are zero. *)
Lemma copy_code_spec x out n : 0 <= x -> 1 <= n <= 13 -> x < 32 ^ n -> (13 <= length out)%nat ->
  (forall i, 0 <= i < n -> out !! Z.to_nat i = Some (x / 32 ^ i mod 32)) ->
  copy_code out init_code n = Some (digits32 x ++ [0; 0; 0; 0]).
Proof.
  intros Hx Hn Hb Ho Hi. unfold copy_code.
  match goal with |- context [for_ ?f 0 13 _] =>
  destruct (for_inv (fun k '(code, pos) => pos = n - k /\
     code = take (Z.to_nat k) (digits32 x) ++ drop (Z.to_nat k) init_code) f 13 0 (init_code, n))
    as ([code pos] & -> & _ & Hc) end.
  - split; [lia|done].
  - intros k [code pos] Hk [-> ->]. assert ((Z.to_nat k < 13)%nat) as Hk' by lia.
    pose proof (digits32_lookup x (Z.to_nat k) Hk') as Hd. rewrite Z2Nat.id in Hd by lia.
    assert ((if 0 <=? n - k - 1 then aget out k else Some 0) = Some (x / 32 ^ k mod 32)) as ->.
    { destruct (Z.leb_spec 0 (n - k - 1)); [apply aget_lookup; [lia|apply Hi; lia]|].
      rewrite Z.div_small; [done|]. split; [done|]. eapply Z.lt_le_trans; [exact Hb|]. apply Z.pow_le_mono_r; lia. }
    cbn [mbind option_bind].
    assert (length (take (Z.to_nat k) (digits32 x)) = Z.to_nat k) as Lt by (rewrite length_take; unfold digits32; rewrite length_fmap, length_seq; lia).
    assert (length init_code = 17%nat) as Li by done.
    rewrite aset_in_range by (rewrite length_app, Lt, length_drop; lia). cbn [mbind option_bind].
    eexists. split; [reflexivity|]. split; [lia|].
    destruct (lookup_lt_is_Some_2 init_code (Z.to_nat k)) as [z Hz]; [lia|].
    rewrite (drop_S _ _ _ Hz). replace (Z.to_nat (k + 1)) with (S (Z.to_nat k)) by lia.
    rewrite (take_S_r _ _ _ Hd), <- app_assoc. rewrite insert_app_r_alt by lia. rewrite Lt, Nat.sub_diag. done.
  - cbn [fmap option_fmap option_map fst]. by rewrite Hc.
Qed.

(** ** The check symbols *)

Definition gm (a b : Z) : Z := default 0 (gmult a b).

(** A polynomial over GF(32), the lowest coefficient first, at the point [r]. *)
Definition poly_at (r : Z) (l : list Z) : Z := foldr (fun c v => Z.lxor c (gm r v)) 0 l.

(** The roots of the generator polynomial: the first four powers of 2. *)
Definition roots : list Z := [2; 4; 8; 16].

Definition symbols : list Z := Z.of_nat <$> seq 0 32.
Definition is_symbol (c : Z) : Prop := 0 <= c < 32.

Lemma symbol_in c : is_symbol c -> In c symbols.
Proof.
  intros Hc. unfold is_symbol in Hc. apply in_map_iff. exists (Z.to_nat c). split; [lia|]. apply in_seq. lia.
Qed.

Definition gmult_chk : bool :=
  forallb (fun a => forallb (fun b => match gmult a b with Some c => (0 <=? c) && (c <? 32) | None => false end) symbols) symbols.
Definition linear_chk : bool :=
  forallb (fun r => forallb (fun a => forallb (fun b => gm r (Z.lxor a b) =? Z.lxor (gm r a) (gm r b)) symbols) symbols) roots.
Definition generator_chk : bool :=
  forallb (fun r => forallb (fun c => poly_at r [gm 17 c; gm 9 c; gm 6 c; gm 30 c; c] =? 0) symbols) roots.

Lemma gmult_chk_ok : gmult_chk = true.
Proof. compute_true. Qed.
Lemma linear_chk_ok : linear_chk = true.
Proof. compute_true. Qed.
Lemma generator_chk_ok : generator_chk = true.
Proof. compute_true. Qed.

Lemma gmult_ok a b : is_symbol a -> is_symbol b -> gmult a b = Some (gm a b) /\ is_symbol (gm a b).
Proof.
  intros Ha Hb. pose proof gmult_chk_ok as H. unfold gmult_chk in H. rewrite forallb_forall in H.
  specialize (H a (symbol_in a Ha)). rewrite forallb_forall in H. specialize (H b (symbol_in b Hb)).
  unfold gm, is_symbol. destruct (gmult a b); [|done]. cbn [default from_option id].
  apply andb_true_iff in H as [H1 H2]. split; [done|]. lia.
Qed.

Lemma root_in r : r ∈ roots -> In r roots.
Proof. apply list_elem_of_In. Qed.

Lemma root_symbol r : r ∈ roots -> is_symbol r.
Proof. intros H%root_in. unfold is_symbol. simpl in H. lia. Qed.

Lemma gm_linear r a b : r ∈ roots -> is_symbol a -> is_symbol b -> gm r (Z.lxor a b) = Z.lxor (gm r a) (gm r b).
Proof.
  intros Hr Ha Hb. pose proof linear_chk_ok as H. unfold linear_chk in H. rewrite forallb_forall in H.
  specialize (H r (root_in r Hr)). rewrite forallb_forall in H. specialize (H a (symbol_in a Ha)).
  rewrite forallb_forall in H. specialize (H b (symbol_in b Hb)). by apply Z.eqb_eq.
Qed.

Lemma generator_root r c : r ∈ roots -> is_symbol c -> poly_at r [gm 17 c; gm 9 c; gm 6 c; gm 30 c; c] = 0.
Proof.
  intros Hr Hc. pose proof generator_chk_ok as H. unfold generator_chk in H. rewrite forallb_forall in H.
  specialize (H r (root_in r Hr)). rewrite forallb_forall in H. by apply Z.eqb_eq, H, symbol_in.
Qed.

Lemma lxor_symbol a b : is_symbol a -> is_symbol b -> is_symbol (Z.lxor a b).
Proof.
  unfold is_symbol. intros Ha Hb. split; [apply Z.lxor_nonneg; lia|].
  destruct (decide (Z.lxor a b = 0)) as [->|]; [lia|]. change 32 with (2 ^ 5).
  assert (0 <= Z.lxor a b) by (apply Z.lxor_nonneg; lia). apply Z.log2_lt_pow2; [lia|].
  pose proof (Z.log2_lxor a b ltac:(lia) ltac:(lia)).
  assert (forall x, 0 <= x < 32 -> Z.log2 x < 5) as L.
  { intros x Hx. destruct (decide (x = 0)) as [->|]; [cbn; lia|]. apply Z.log2_lt_pow2; lia. }
  pose proof (L a Ha). pose proof (L b Hb). lia.
Qed.

Lemma poly_at_symbol r l : r ∈ roots -> Forall is_symbol l -> is_symbol (poly_at r l).
Proof.
  intros Hr. induction 1 as [|c l Hc Hl IH]; cbn [poly_at foldr]; [unfold is_symbol; lia|].
  apply lxor_symbol; [done|]. apply gmult_ok; [by apply root_symbol|done].
Qed.

Lemma gm_0 r : gm r 0 = 0.
Proof. unfold gm, gmult. by destruct (r =? 0). Qed.

(** Evaluation is linear. *)
Lemma poly_at_zip r l k : r ∈ roots -> Forall is_symbol l -> Forall is_symbol k -> length l = length k ->
  poly_at r (zip_with Z.lxor l k) = Z.lxor (poly_at r l) (poly_at r k).
Proof.
  intros Hr Hl. revert k. induction Hl as [|a l Ha Hl IH]; intros [|b k] Hk Hlen; try done.
  inversion Hk as [|? ? Hb Hk']; subst. simpl in Hlen. cbn [zip_with poly_at foldr]. fold (poly_at r (zip_with Z.lxor l k)).
  fold (poly_at r l) (poly_at r k). rewrite IH, gm_linear by (try done; try lia; by apply poly_at_symbol).
  apply Z.bits_inj'. intros n Hn. rewrite !Z.lxor_spec. by destruct (Z.testbit a n), (Z.testbit b n), (Z.testbit (gm _ _) n), (Z.testbit (gm _ _) n).
Qed.

Ltac all_symbols :=
  repeat (apply list.Forall_cons; split; [first [done | by apply lxor_symbol | unfold is_symbol; lia]|]);
  first [done | by apply list.Forall_nil | by apply Forall_replicate].

Definition parity_list (p : Z * Z * Z * Z) : list Z := let '(p0, p1, p2, p3) := p in [p0; p1; p2; p3].

(** Dividing one more symbol keeps the code word divisible by the generator. *)
Lemma parity_step_spec p c ds : Forall is_symbol (parity_list p) -> is_symbol c -> Forall is_symbol ds ->
  (forall r, r ∈ roots -> poly_at r (parity_list p ++ ds) = 0) ->
  exists p', parity_step p c = Some p' /\ Forall is_symbol (parity_list p') /\
    forall r, r ∈ roots -> poly_at r (parity_list p' ++ c :: ds) = 0.
Proof.
  destruct p as [[[p0 p1] p2] p3]. cbn [parity_list]. intros Hp Hc Hds Hr.
  rewrite !list.Forall_cons in Hp. destruct Hp as (H0 & H1 & H2 & H3 & _).
  unfold parity_step. pose proof (lxor_symbol c p3 Hc H3) as Hf. set (fb := Z.lxor c p3) in *.
  destruct (gmult_ok 30 fb ltac:(unfold is_symbol; lia) Hf) as [-> G30].
  destruct (gmult_ok 6 fb ltac:(unfold is_symbol; lia) Hf) as [-> G6].
  destruct (gmult_ok 9 fb ltac:(unfold is_symbol; lia) Hf) as [-> G9].
  destruct (gmult_ok 17 fb ltac:(unfold is_symbol; lia) Hf) as [-> G17].
  cbn [mbind option_bind]. eexists. split; [reflexivity|]. cbn [parity_list].
  split; [all_symbols|]. intros r Hin.
  assert (is_symbol 0) as HZ by (unfold is_symbol; lia).
  set (q := gm 17 fb :: gm 9 fb :: gm 6 fb :: gm 30 fb :: fb :: replicate (length ds) 0).
  assert (poly_at r q = 0) as Eq.
  { rewrite <- (generator_root r fb Hin Hf). unfold q. cbn [poly_at foldr].
    assert (forall n, poly_at r (replicate n 0) = 0) as Hz.
    { induction n as [|n IHn]; [done|]. cbn [replicate poly_at foldr]. fold (poly_at r (replicate n 0)). by rewrite IHn, gm_0. }
    fold (poly_at r (replicate (length ds) 0)). by rewrite Hz. }
  assert (poly_at r (0 :: p0 :: p1 :: p2 :: p3 :: ds) = 0) as Ep.
  { cbn [poly_at foldr]. specialize (Hr r Hin). cbn [app poly_at foldr] in Hr. rewrite Hr. by rewrite gm_0. }
  assert (poly_at r (zip_with Z.lxor (0 :: p0 :: p1 :: p2 :: p3 :: ds) q) = 0) as E.
  { rewrite poly_at_zip, Ep, Eq; try done; unfold q.
    - all_symbols.
    - all_symbols.
    - cbn [length]. by rewrite length_replicate. }
  unfold q in E. cbn [zip_with] in E. rewrite !Z.lxor_0_l in E.
  replace (Z.lxor p3 fb) with c in E.
  2:{ unfold fb. apply Z.bits_inj'. intros n Hn. rewrite !Z.lxor_spec. by destruct (Z.testbit c n), (Z.testbit p3 n). }
  replace (zip_with Z.lxor ds (replicate (length ds) 0)) with ds in E.
  2:{ clear. induction ds as [|d ds IHd]; [done|]. cbn [length replicate zip_with]. by rewrite Z.lxor_0_r, <- IHd. }
  apply E.
Qed.

Lemma parity_spec ds tl : length ds = 13%nat -> Forall is_symbol ds ->
  exists p, parity (ds ++ tl) = Some p /\ Forall is_symbol (parity_list p) /\
    forall r, r ∈ roots -> poly_at r (parity_list p ++ ds) = 0.
Proof.
  intros Hl Hd. unfold parity.
  match goal with |- context [for_ ?f 0 13 _] =>
  destruct (for_inv (fun k p => Forall is_symbol (parity_list p) /\
     forall r, r ∈ roots -> poly_at r (parity_list p ++ drop (Z.to_nat (13 - k)) ds) = 0) f 13 0 (0, 0, 0, 0))
    as (p & -> & Hp & Hr) end.
  - split; [cbn [parity_list]; all_symbols|]. intros r Hin. rewrite drop_ge by (change (Z.to_nat (13 - 0)) with 13%nat; lia).
    cbn. by rewrite !gm_0.
  - intros k p Hk [Hp Hr]. destruct (lookup_lt_is_Some_2 ds (Z.to_nat (12 - k))) as [c Hc]; [lia|].
    rewrite (aget_lookup _ _ c) by (first [lia|rewrite lookup_app_l by lia; done]). cbn [mbind option_bind].
    destruct (parity_step_spec p c (drop (Z.to_nat (13 - k)) ds)) as (p' & -> & Hp' & Hr'); try done.
    + rewrite list.Forall_forall in Hd. apply Hd. by eapply list_elem_of_lookup_2.
    + by apply Forall_drop.
    + exists p'. split; [done|]. split; [done|]. replace (13 - (k + 1)) with (12 - k) by lia.
      rewrite (drop_S _ _ _ Hc). by replace (S (Z.to_nat (12 - k))) with (Z.to_nat (13 - k)) by lia.
  - exists p. split; [done|]. by split.
Qed.

(** ** The letters *)

Definition letter (c : Z) : Z := nth (Z.to_nat c) alphabet 0.

(** What [letterval] makes of a letter: the letter 9, of symbol 7, reads as 0. *)
Definition unnine (c : Z) : Z := if c =? 7 then 0 else c.

Definition letter_chk : bool :=
  forallb (fun c => bool_decide (aget alphabet c = Some (letter c)) && negb (letter c =? 45) &&
    (letterval (s8 (letter c)) =? unnine c)) symbols.

Lemma letter_chk_ok : letter_chk = true.
Proof. compute_true. Qed.

Lemma letter_ok c : is_symbol c ->
  aget alphabet c = Some (letter c) /\ letter c <> 45 /\ letterval (s8 (letter c)) = unnine c.
Proof.
  intros Hc. pose proof letter_chk_ok as H. unfold letter_chk in H. rewrite forallb_forall in H.
  specialize (H c (symbol_in c Hc)). apply andb_true_iff in H as [[H1 H2]%andb_true_iff H3].
  split; [by apply bool_decide_eq_true in H1|]. split; [|by apply Z.eqb_eq].
  apply negb_true_iff, Z.eqb_neq in H2. done.
Qed.

(** The text of a code word of seventeen symbols. *)
Definition address (code : list Z) : list Z :=
  let l w := letter (nth (Z.to_nat w) code 0) in
  str_NXT ++ [l 3; l 2; l 1; l 0; 45; l 7; l 6; l 5; l 4; 45; l 13; l 14; l 15; l 16; 45; l 12; l 8; l 9; l 10; l 11].

Lemma encode_letter_step code i text w c : aget cwmap i = Some w -> aget code w = Some c -> is_symbol c ->
  encode_letter code i text = Some (let t := text ++ [letter c] in
    if (Z.rem (Z.of_nat (length t)) 5 =? 3) && (Z.of_nat (length t) <? 20) then t ++ [45] else t).
Proof.
  intros Hw Hc Hs. unfold encode_letter. rewrite Hw. cbn [mbind option_bind]. rewrite Hc. cbn [mbind option_bind].
  by destruct (letter_ok c Hs) as (-> & _).
Qed.

Lemma decode_letter_step rs i code p w c y code' : aget cwmap i = Some w -> aget rs p = Some (letter c) ->
  is_symbol c -> aget rs (p + 1) = Some y -> aset code w (unnine c) = Some code' ->
  decode_letter rs i (code, p) = Some (code', if y =? 45 then p + 2 else p + 1).
Proof.
  intros Hw Hc Hs Hy Ha. unfold decode_letter. rewrite Hw. cbn [mbind option_bind]. rewrite Hc. cbn [mbind option_bind].
  destruct (letter_ok c Hs) as (_ & _ & ->). rewrite Ha. cbn [mbind option_bind]. by rewrite Hy.
Qed.

#[local] Opaque letter.
#[local] Arguments encode_letter : simpl never.
#[local] Arguments decode_letter : simpl never.
#[local] Arguments unnine : simpl never.

Lemma for_next {S} (f : Z -> S -> option S) i j n s s' r : f i s = Some s' -> j = i + 1 ->
  for_ f j n s' = r -> for_ f i (Datatypes.S n) s = r.
Proof. intros E -> H. cbn [for_]. by rewrite E. Qed.

Section Letters.
Variables c0 c1 c2 c3 c4 c5 c6 c7 c8 c9 c10 c11 c12 c13 c14 c15 c16 : Z.
Let code : list Z := [c0; c1; c2; c3; c4; c5; c6; c7; c8; c9; c10; c11; c12; c13; c14; c15; c16].
Hypothesis Hcode : Forall is_symbol code.

Lemma encode_letters : for_ (encode_letter code) 0 17 str_NXT = Some (address code).
Proof.
  unfold code in Hcode. rewrite !list.Forall_cons in Hcode. destruct_and!.
  do 17 (eapply for_next; [etransitivity;
    [eapply encode_letter_step; [reflexivity|reflexivity|assumption]|cbv -[letter]; reflexivity]|reflexivity|]).
  reflexivity.
Qed.

Lemma decode_letters : exists p,
  for_ (decode_letter (address code ++ [0])) 0 17 (init_code, 4) = Some ((unnine <$> code), p).
Proof.
  unfold code in Hcode. rewrite !list.Forall_cons in Hcode. destruct_and!.
  assert (forall c, is_symbol c -> (letter c =? 45) = false) as Hdash.
  { intros c Hc. apply Z.eqb_neq. by apply letter_ok. }
  assert (address code ++ [0] = [78; 88; 84; 45; letter c3; letter c2; letter c1; letter c0; 45; letter c7; letter c6;
    letter c5; letter c4; 45; letter c13; letter c14; letter c15; letter c16; 45; letter c12; letter c8; letter c9;
    letter c10; letter c11; 0]) as -> by reflexivity.
  eexists. match goal with |- context [decode_letter ?r] => set (rs := r) end.
  do 17 (eapply for_next; [etransitivity;
    [eapply decode_letter_step; [reflexivity|reflexivity|assumption|reflexivity|cbv -[unnine]; reflexivity]
    |rewrite ?Hdash by assumption; cbv -[unnine rs]; reflexivity]|reflexivity|]).
  reflexivity.
Qed.
End Letters.

(** ** Theorems *)

(** The value of base 32 digits, the lowest first. *)
Definition undigits (l : list Z) : Z := foldr (fun d v => d + 32 * v) 0 l.

Lemma undigits_seq x n : forall s, undigits ((fun i => x / 32 ^ Z.of_nat i mod 32) <$> seq s n) =
  (x / 32 ^ Z.of_nat s) mod 32 ^ Z.of_nat n.
Proof.
  induction n as [|n IH]; intros s; cbn [seq]; [by rewrite Z.mod_1_r|].
  rewrite fmap_cons. cbn [undigits foldr]. fold (undigits ((fun i => x / 32 ^ Z.of_nat i mod 32) <$> seq (S s) n)).
  rewrite IH, !Nat2Z.inj_succ, !Z.pow_succ_r by lia.
  rewrite (Z.mul_comm 32 (32 ^ Z.of_nat s)), <- Z.div_div by lia. by rewrite Z.rem_mul_r by lia.
Qed.

Lemma undigits_digits32 x : 0 <= x < 2 ^ 64 -> undigits (digits32 x) = x.
Proof.
  intros Hx. unfold digits32. rewrite undigits_seq. change (32 ^ Z.of_nat 0) with 1. rewrite Z.div_1_r.
  apply Z.mod_small. change (32 ^ Z.of_nat 13) with (2 * 2 ^ 64). lia.
Qed.

Lemma undigits_unnine l : Forall is_symbol l ->
  0 <= undigits (unnine <$> l) <= undigits l /\ (undigits (unnine <$> l) = undigits l <-> ~ 7 ∈ l).
Proof.
  induction 1 as [|d l Hd Hl IH]; cbn [undigits foldr fmap list_fmap].
  - split; [lia|]. split; [|done]. intros _. apply not_elem_of_nil.
  - fold (undigits l) (undigits (unnine <$> l)). destruct IH as [IH1 IH2]. unfold is_symbol in Hd.
    assert (unnine d = 0 /\ d = 7 \/ unnine d = d /\ d <> 7) as Hu by (unfold unnine; destruct (Z.eqb_spec d 7); auto).
    split; [lia|]. rewrite not_elem_of_cons, <- IH2. destruct Hu as [[-> ->]|[-> Hne]]; [split; [lia|by intros [? _]]|].
    split; [intros; split; [congruence|lia]|intros [_ ->]; done].
Qed.

Lemma code_value_spec ds tl : length ds = 13%nat -> code_value (ds ++ tl) = Some (u64 (undigits ds)).
Proof.
  intros Hl. unfold code_value.
  match goal with |- context [for_ ?f 0 13 _] =>
  destruct (for_inv (fun k out => out = u64 (undigits (drop (Z.to_nat (13 - k)) ds))) f 13 0 0) as (out & -> & ->) end.
  - rewrite drop_ge by (change (Z.to_nat (13 - 0)) with 13%nat; lia). done.
  - intros k out Hk ->. destruct (lookup_lt_is_Some_2 ds (Z.to_nat (12 - k))) as [c Hc]; [lia|].
    rewrite (aget_lookup _ _ c) by (first [lia|rewrite lookup_app_l by lia; done]). cbn [mbind option_bind].
    eexists. split; [reflexivity|]. replace (13 - (k + 1)) with (12 - k) by lia.
    rewrite (drop_S _ _ _ Hc). replace (S (Z.to_nat (12 - k))) with (Z.to_nat (13 - k)) by lia.
    cbn [undigits foldr]. fold (undigits (drop (Z.to_nat (13 - k)) ds)). rewrite !u64_mod.
    rewrite Zplus_mod_idemp_l, Zplus_mod, Zmult_mod_idemp_l, <- Zplus_mod. f_equal. lia.
  - done.
Qed.

Lemma val10_cons d l : val10 (d :: l) = d * 10 ^ Z.of_nat (length l) + val10 l.
Proof.
  induction l as [|c l IH] using rev_ind; [cbn; lia|].
  change (d :: l ++ [c]) with ((d :: l) ++ [c]). rewrite !val10_snoc, IH, length_app.
  replace (Z.of_nat (length l + length [c])) with (Z.succ (Z.of_nat (length l))) by (simpl; lia).
  rewrite Z.pow_succ_r by lia. lia.
Qed.

Lemma rev_digits_last fuel : forall x, 0 < x < 10 ^ Z.of_nat fuel -> exists l c, rev_digits fuel x = l ++ [c] /\ 48 < c.
Proof.
  induction fuel as [|fuel IH]; intros x Hx; [change (10 ^ Z.of_nat 0) with 1 in Hx; lia|]. cbn [rev_digits].
  destruct (Z.eqb_spec x 0) as [->|Hne]; [lia|]. rewrite Nat2Z.inj_succ, Z.pow_succ_r in Hx by lia.
  pose proof (Z.mod_pos_bound x 10 ltac:(lia)). pose proof (Z.div_mod x 10 ltac:(lia)).
  destruct (decide (x / 10 = 0)) as [E|Hd].
  - exists [], (x mod 10 + 48). rewrite E. split; [by destruct fuel|lia].
  - destruct (IH (x / 10)) as (l & c & -> & Hc).
    { split; [|apply Z.div_lt_upper_bound; lia]. pose proof (Z.div_pos x 10). lia. }
    by exists (x mod 10 + 48 :: l), c.
Qed.

(** What [sprintf] prints of a 64-bit number: a number of twenty digits starts with 1. *)
Lemma print_llu_spec id : 0 <= id < 2 ^ 64 ->
  Forall (fun c => 48 <= c <= 57) (print_llu id) /\ val10 ((fun c => c - 48) <$> print_llu id) = id /\
  1 <= Z.of_nat (length (print_llu id)) <= 20 /\
  forall a, print_llu id !! 0%nat = Some a -> Z.of_nat (length (print_llu id)) = 20 -> a = 49.
Proof.
  intros Hid. unfold print_llu. destruct (Z.eqb_spec id 0) as [->|Hne].
  { split; [repeat constructor; lia|]. split; [done|]. split; [simpl; lia|]. intros a _ L. by simpl in L. }
  destruct (expand_spec id Hid) as (Hd & Hv & Hn & Hl). split; [done|]. split; [done|].
  destruct (rev_digits_last 20 id) as (l & c & E & Hc).
  { change (10 ^ Z.of_nat 20) with 100000000000000000000. change (2 ^ 64) with 18446744073709551616 in Hid. lia. }
  unfold expand_nxt64bits in *. rewrite E, rev_unit in *. split; [cbn [length] in *; lia|].
  intros a [= <-] L. rewrite fmap_cons, val10_cons, length_fmap in Hv. cbn [length] in L.
  replace (Z.of_nat (length (rev l))) with 19 in Hv by lia.
  assert (0 <= val10 ((fun c => c - 48) <$> rev l)) as Hp.
  { apply val10_nonneg, Forall_fmap. inversion Hd as [|? ? ? Hd']; subst. eapply list.Forall_impl; [exact Hd'|]. simpl. lia. }
  change (10 ^ 19) with 10000000000000000000 in Hv. change (2 ^ 64) with 18446744073709551616 in Hid. lia.
Qed.

(** The digits of the number, copied into the array of 32. *)
Lemma copy_digits acc : (length acc <= 32)%nat ->
  exists inp, for_ (fun i inp => c ← aget acc i; aset inp i (c - 48)) 0 (length acc) (replicate 32 0) = Some inp /\
    length inp = 32%nat /\ take (length acc) inp = (fun c => c - 48) <$> acc.
Proof.
  intros Hl.
  destruct (for_update (fun i inp => c ← aget acc i; aset inp i (c - 48))
    (fun i _ => nth (Z.to_nat i) acc 0 - 48) 0 (length acc) (replicate 32 0)) as (inp & E & L & H);
    [lia|rewrite length_replicate; lia| |].
  - intros j t x Hj _ _ _. by rewrite (aget_nth acc _ 0) by lia.
  - exists inp. rewrite length_replicate in L. split; [done|]. split; [done|]. apply list_eq. intros j.
    rewrite list_lookup_fmap. destruct (decide (j < length acc)%nat) as [Hj|Hj].
    + rewrite lookup_take_lt, H, decide_True by lia. rewrite lookup_replicate_2 by lia.
      destruct (lookup_lt_is_Some_2 acc j Hj) as [c Hc]. rewrite Hc. simpl.
      by rewrite Z.sub_0_r, Nat2Z.id, (nth_lookup_Some _ _ _ _ Hc).
    + rewrite lookup_take_ge, lookup_ge_None_2 by lia. done.
Qed.

(** The text of an account: the base 32 digits and the check symbols, as letters. *)
Lemma rs_encode_ok id : 0 <= id < 2 ^ 64 ->
  exists p, Forall is_symbol (parity_list p) /\
    (forall r, r ∈ roots -> poly_at r (parity_list p ++ digits32 id) = 0) /\
    RS_encode id = Some (RsAddress (address (digits32 id ++ parity_list p))).
Proof.
  intros Hid. unfold RS_encode. destruct (print_llu_spec id Hid) as (Hd & Hv & Hl & H1).
  set (acc := print_llu id) in *.
  destruct (aget_is_Some acc 0) as (a0 & Ha0 & ->); [lia|]. cbn [mbind option_bind].
  assert ((Z.of_nat (length acc) =? 20) && negb (a0 =? 49) = false) as ->.
  { destruct (Z.eqb_spec (Z.of_nat (length acc)) 20) as [L|]; [|done]. by rewrite (H1 a0 Ha0 L). }
  destruct (copy_digits acc) as (inp & -> & Li & Ti); [lia|]. cbn [mbind option_bind].
  assert (val10 (take (Z.to_nat (Z.of_nat (length acc))) inp) = id) as Ev by by rewrite Nat2Z.id, Ti.
  assert (32 ^ Z.of_nat 13 = 2 * 2 ^ 64) as E13 by done.
  destruct (divide_loop_spec 12 32 inp (Z.of_nat (length acc)) (replicate 32 0) 0) as (out & n & -> & Hn & Lo & _ & Hb & Ho);
    [lia|lia| |rewrite Ev; lia|lia|rewrite length_replicate; lia|].
  { rewrite Nat2Z.id, Ti. apply Forall_fmap. eapply list.Forall_impl; [exact Hd|]. simpl. lia. }
  rewrite Ev in *. cbn [mbind option_bind]. rewrite Z.add_0_l.
  rewrite (copy_code_spec id) by (first [lia|done|rewrite Lo, length_replicate; lia]). cbn [mbind option_bind].
  assert (length (digits32 id) = 13%nat) as L13 by (unfold digits32; by rewrite length_fmap, length_seq).
  destruct (parity_spec (digits32 id) [0; 0; 0; 0] L13 (digits32_ok id)) as (p & -> & Hp & Hr).
  exists p. split; [done|]. split; [done|]. destruct p as [[[p0 p1] p2] p3]. cbn [mbind option_bind parity_list] in *.
  pose proof (digits32_ok id) as Hds. destruct (digits32 id) as [|d0 [|d1 [|d2 [|d3 [|d4 [|d5 [|d6 [|d7 [|d8 [|d9 [|d10
    [|d11 [|d12 [|]]]]]]]]]]]]]] eqn:E; try done. clear E L13 Hr.
  assert (forall l i (x : Z) l', aset l i x = Some l' -> forall g, (aset l i x ≫= g) = (g l' : option rs_result)) as Hset.
  { intros l i x l' H g. by rewrite H. }
  cbn [app]. do 4 erewrite Hset by reflexivity.
  match goal with |- context [encode_letter ?c] =>
    change c with [d0; d1; d2; d3; d4; d5; d6; d7; d8; d9; d10; d11; d12; p0; p1; p2; p3] end.
  rewrite encode_letters; [done|].
  change (Forall is_symbol ([d0; d1; d2; d3; d4; d5; d6; d7; d8; d9; d10; d11; d12] ++ [p0; p1; p2; p3])).
  by apply Forall_app.
Qed.

(** C29: the Reed-Solomon address of an account.  For every 64-bit number
    [RS_encode] ends within its arrays and writes [NXT-] and seventeen letters in
    groups: thirteen for the digits of the number to base 32 and four for check
    symbols which make the code word, as a polynomial over GF(32), vanish at the
    first four powers of the generator. *)
Theorem RS_encode_spec id : 0 <= id < 2 ^ 64 ->
  exists p, Forall is_symbol (parity_list p) /\ undigits (digits32 id) = id /\
    (forall r, r ∈ roots -> poly_at r (parity_list p ++ digits32 id) = 0) /\
    RS_encode id = Some (RsAddress (address (digits32 id ++ parity_list p))).
Proof.
  intros Hid. destruct (rs_encode_ok id Hid) as (p & Hp & Hr & E). exists p. split; [done|].
  split; [by apply undigits_digits32|]. by split.
Qed.

Lemma RS_encode_spec_witness : exists a, RS_encode 8989816935121514892 = Some (RsAddress a).
Proof.
  destruct (RS_encode_spec 8989816935121514892) as (p & _ & _ & _ & E); [concrete|].
  exists (address (digits32 8989816935121514892 ++ parity_list p)). exact E.
Defined.

(** C30: reading an address back.  [RS_decode] of the address [RS_encode] made is
    the number in which every base 32 digit 7, written with the letter 9, has
    become 0: the account itself exactly when the number has no such digit, and
    otherwise a different, smaller account. *)
Theorem RS_decode_encode id : 0 <= id < 2 ^ 64 ->
  exists a out, RS_encode id = Some (RsAddress a) /\ RS_decode (a ++ [0]) = Some out /\
    out = undigits (unnine <$> digits32 id) /\ out <= id /\ (out = id <-> ~ 7 ∈ digits32 id).
Proof.
  intros Hid. destruct (rs_encode_ok id Hid) as (p & Hp & _ & E).
  destruct (undigits_unnine (digits32 id) (digits32_ok id)) as [Hle Heq]. rewrite undigits_digits32 in Hle, Heq by done.
  exists (address (digits32 id ++ parity_list p)), (undigits (unnine <$> digits32 id)).
  split; [done|]. split; [|split; [done|split; [lia|done]]].
  unfold RS_decode. change (has_prefix str_NXT (address (digits32 id ++ parity_list p) ++ [0])) with (Some true).
  cbn [mbind option_bind].
  assert (exists q, for_ (decode_letter (address (digits32 id ++ parity_list p) ++ [0])) 0 17 (init_code, 4) =
    Some (unnine <$> (digits32 id ++ parity_list p), q)) as [q ->].
  { assert (length (digits32 id) = 13%nat) as L13 by (unfold digits32; by rewrite length_fmap, length_seq).
    pose proof (digits32_ok id) as Hds. destruct p as [[[p0 p1] p2] p3].
    destruct (digits32 id) as [|d0 [|d1 [|d2 [|d3 [|d4 [|d5 [|d6 [|d7 [|d8 [|d9 [|d10 [|d11 [|d12 [|]]]]]]]]]]]]]]; try done.
    apply decode_letters.
    change (Forall is_symbol ([d0; d1; d2; d3; d4; d5; d6; d7; d8; d9; d10; d11; d12] ++ [p0; p1; p2; p3])).
    by apply Forall_app. }
  cbn [mbind option_bind]. rewrite fmap_app, code_value_spec.
  - rewrite u64_small by (change (2 ^ 64) with 18446744073709551616 in Hid; lia). done.
  - unfold digits32. by rewrite !length_fmap, length_seq.
Qed.

(** Account 7 becomes account 0. *)
Lemma RS_decode_encode_witness : exists a, RS_encode 7 = Some (RsAddress a) /\ RS_decode (a ++ [0]) = Some 0.
Proof.
  destruct (RS_decode_encode 7) as (a & out & E & D & Eo & _); [concrete|].
  exists a. split; [exact E|]. rewrite D. f_equal. rewrite Eo. reflexivity.
Defined.

(** ** Words of characters *)

Lemma lor_byte b c : 0 <= c < 256 -> Z.lor (256 * b) c = c + 256 * b.
Proof.
  intros Hc. assert (Z.land (256 * b) c = 0) as E.
  { apply Z.bits_inj'. intros n Hn. rewrite Z.land_spec, Z.bits_0. change 256 with (2 ^ 8). rewrite Z.mul_comm.
    destruct (Z.ltb_spec n 8); [by rewrite Z.mul_pow2_bits_low|].
    replace c with (c mod 2 ^ 8) by (by rewrite Z.mod_small by (change (2 ^ 8) with 256; lia)).
    by rewrite Z.mod_pow2_bits_high, andb_false_r by lia. }
  pose proof (Z.add_lor_land (256 * b) c). lia.
Qed.

Lemma stringbits_le_int s : (length s <= 8)%nat -> bytes s -> stringbits s = le_int s.
Proof.
  intros Hl. unfold stringbits. rewrite take_ge by done. revert Hl.
  induction s as [|c s IH]; intros Hl Hb; [done|]. inversion Hb as [|? ? Hc Hb']; subst. simpl in Hl.
  cbn [foldr le_int]. rewrite IH by (done || lia). pose proof (le_int_range s Hb') as Hr.
  assert (256 ^ Z.of_nat (length s) <= 256 ^ 7) as Hp by (apply Z.pow_le_mono_r; lia).
  rewrite Z.shiftl_mul_pow2 by lia. change (256 ^ 7) with 72057594037927936 in Hp. change (2 ^ 8) with 256.
  rewrite u64_small by lia. rewrite Z.mul_comm, lor_byte.
  - f_equal. change 255 with (Z.ones 8). rewrite Z.land_ones, Z.mod_small; unfold is_byte in Hc; lia.
  - change 255 with (Z.ones 8). rewrite Z.land_ones by lia. apply Z.mod_pos_bound. lia.
Qed.

(** Text of at most eight characters comes back from its word. *)
Lemma unstring_stringbits s : (length s <= 8)%nat -> Forall (fun c => 0 < c < 256) s ->
  unstringbits (stringbits s) = s.
Proof.
  intros Hl Hs. rewrite stringbits_le_int by (first [done|eapply list.Forall_impl; [exact Hs|]; unfold is_byte; simpl; lia]).
  unfold unstringbits. revert Hl. generalize 8%nat as k.
  induction Hs as [|c s Hc Hs IH]; intros k Hl; [by destruct k|]. destruct k as [|k]; simpl in Hl; [lia|].
  cbn [unstring_from le_int]. assert (Z.land (c + 256 * le_int s) 255 = c) as ->.
  { change 255 with (Z.ones 8). rewrite Z.land_ones by lia. change (2 ^ 8) with 256.
    rewrite Z.mul_comm, Z.mod_add, Z.mod_small; lia. }
  destruct (Z.eqb_spec c 0); [lia|]. f_equal.
  rewrite Z.shiftr_div_pow2 by lia. change (2 ^ 8) with 256. rewrite Z.mul_comm, Z.div_add, Z.div_small by lia.
  apply IH. lia.
Qed.
