(* ===== verification/Merkle.v ===== *)
(** * Merkle: hash trees over blocks of data

    Models [plugins/utils/merkle.c]: a tree of hashes in an array, root at index 1,
    the children of [i] at [2i] and [2i+1], the blocks of data at the leaves from
    index [2^(tree_height-1)] on.  The hash function belongs to a library and is a
    parameter.  A pointer is null, valid with the bytes it leads to, or not yet
    initialised: [malloc] leaves the nodes so, and reading one is [None]. *)

From S2P Require Import Prelude.

Inductive ptr :=
  | Uninit
  | Null
  | Ptr (mem : list Z).

Record merkle_tree_node := mk_tree_node { t_hash : ptr; t_data : ptr }.

#[export] Instance eta_tree_node : Eta merkle_tree_node := fun r => mk_tree_node (t_hash r) (t_data r).

Record merkle_tree := mk_merkle_tree {
  mt_n : Z;
  mt_height : Z;
  mt_hash_size : Z;
  mt_block_size : Z;
  mt_blocks : Z;
  mt_nodes : list merkle_tree_node;
}.

#[export] Instance eta_merkle_tree : Eta merkle_tree := fun r => mk_merkle_tree
  (mt_n r) (mt_height r) (mt_hash_size r) (mt_block_size r) (mt_blocks r) (mt_nodes r).

(** [1 << (tree_height - 1)]; a negative shift and a height whose leaves exceed an [int] are undefined. *)
Definition leaf_start (mt : merkle_tree) : option Z :=
  if (mt_height mt <? 1) || (30 <? mt_height mt) then None else Some (Z.shiftl 1 (mt_height mt - 1)).

(** Is the pointer set? *)
Definition is_set (p : ptr) : option bool :=
  match p with Uninit => None | Null => Some false | Ptr _ => Some true end.

(** The first [n] bytes behind a pointer. *)
Definition read_ptr (p : ptr) (n : Z) : option (list Z) :=
  match p with Ptr mem => take_exact (Z.to_nat n) mem | _ => None end.

Section Merkle.
Variable hash_function : list Z -> list Z.

(** [malloc] if there is no hash yet, and the hash written. *)
Definition put_hash (mt : merkle_tree) (i : Z) (h : list Z) : option merkle_tree :=
  nd ← aget (mt_nodes mt) i;
  _ ← is_set (t_hash nd);
  nodes ← aset (mt_nodes mt) i (nd <| t_hash := Ptr h |>);
  Some (mt <| mt_nodes := nodes |>).

(** Does node [j] have a hash?  Nodes behind the last one have none. *)
Definition has_hash (mt : merkle_tree) (j : Z) : option bool :=
  if j <=? mt_n mt then nd ← aget (mt_nodes mt) j; is_set (t_hash nd) else Some false.

Definition child_hash (mt : merkle_tree) (j : Z) : option (list Z) :=
  nd ← aget (mt_nodes mt) j; read_ptr (t_hash nd) (mt_hash_size mt).

Definition hash_node (mt : merkle_tree) (i : Z) : option (merkle_tree * Z) :=
  ls ← leaf_start mt;
  if Z.shiftl 1 (mt_height mt) - 1 <? i then Some (mt, -1)
  else if i <? ls then
    both ← (if 2 * i + 1 <=? mt_n mt then
              l ← has_hash mt (2 * i); if (l : bool) then has_hash mt (2 * i + 1) else Some false
            else Some false);
    if (both : bool) then
      l ← child_hash mt (2 * i);
      r ← child_hash mt (2 * i + 1);
      mt ← put_hash mt i (hash_function (l ++ r)); Some (mt, 0)
    else
      left ← has_hash mt (2 * i);
      if (left : bool) then l ← child_hash mt (2 * i); mt ← put_hash mt i l; Some (mt, 0)
      else Some (mt, 0)
  else
    nd ← aget (mt_nodes mt) i;
    set ← is_set (t_data nd);
    if (set : bool) then
      d ← read_ptr (t_data nd) (mt_block_size mt);
      mt ← put_hash mt i (hash_function d); Some (mt, 0)
    else Some (mt, -1).

(** A node before its hash is computed. *)
Definition reset_node (mt : merkle_tree) (i : Z) (data : option ptr) : option merkle_tree :=
  nd ← aget (mt_nodes mt) i;
  let nd := match data with Some d => nd <| t_data := d |> | None => nd end in
  nodes ← aset (mt_nodes mt) i (nd <| t_hash := Null |>);
  Some (mt <| mt_nodes := nodes |>).

(** [data] are the pointers to the blocks. *)
Definition build_tree (mt : merkle_tree) (data : list ptr) : option (merkle_tree * Z) :=
  ls ← leaf_start mt;
  if ls <? mt_blocks mt then Some (mt, -1)
  else
    let n := ls + mt_blocks mt - 1 in
    let mt := mt <| mt_n := n |> <| mt_nodes := replicate (Z.to_nat (n + 1)) (mk_tree_node Uninit Uninit) |> in
    '(mt, r) ← for_ (fun i '(mt, r) =>
        if r =? -1 then Some (mt, r)
        else d ← aget data (i - ls); mt ← reset_node mt i (Some d); hash_node mt i)
      ls (Z.to_nat (mt_blocks mt)) (mt, 0);
    if r =? -1 then Some (mt, -1)
    else for_ (fun k '(mt, r) =>
        if r =? -1 then Some (mt, r)
        else mt ← reset_node mt (ls - 1 - k) None; hash_node mt (ls - 1 - k))
      0 (Z.to_nat (ls - 1)) (mt, 0).

(** The number of a block whose hashes differ, counted from 1, or 0.  The recursion
    is as deep as the tree. *)
Fixpoint tree_cmp (fuel : nat) (a b : merkle_tree) (i : Z) : option Z :=
  match fuel with
  | O => None
  | S fuel =>
      ls ← leaf_start a;
      let top := Z.shiftl 1 (mt_height a) - 1 in
      if top <? i then Some (-1)
      else
        x ← child_hash a i;
        nd ← aget (mt_nodes b) i;
        y ← read_ptr (t_hash nd) (mt_hash_size a);
        if bool_decide (x = y) then Some 0
        else if top <? Z.shiftl i 1 then Some (i - ls + 1)
        else
          cmp ← tree_cmp fuel a b (Z.shiftl i 1);
          if cmp =? 0 then tree_cmp fuel a b (Z.shiftl i 1 + 1) else Some cmp
  end.

(** [for (i>>=1; i>0; i>>=1)]. *)
Fixpoint rehash_up (fuel : nat) (mt : merkle_tree) (i : Z) : option (merkle_tree * Z) :=
  match fuel with
  | O => None
  | S fuel =>
      let i := Z.shiftr i 1 in
      if i <=? 0 then Some (mt, 0)
      else
        '(mt, r) ← hash_node mt i;
        if r =? -1 then Some (mt, -1) else rehash_up fuel mt i
  end.

(** Blocks count from 1. *)
Definition set_tree_data (mt : merkle_tree) (block_num : Z) (data : ptr) : option (merkle_tree * Z) :=
  if mt_blocks mt <? block_num then Some (mt, -1)
  else
    ls ← leaf_start mt;
    let i := ls + block_num - 1 in
    nd ← aget (mt_nodes mt) i;
    _ ← is_set (t_data nd);
    nodes ← aset (mt_nodes mt) i (nd <| t_data := data |>);
    let mt := mt <| mt_nodes := nodes |> in
    '(mt, r) ← hash_node mt i;
    if r =? -1 then Some (mt, -1) else rehash_up (Z.to_nat (mt_height mt) + 1) mt i.

(** ** Reference hashes *)

Section Reference.
Variables (ls : Z) (data : list (list Z)).

(** The hash of node [i], [d] levels above the leaves: that of the children's
    hashes, or of the left one's alone. *)
Fixpoint node_ref (d : nat) (i : Z) : option (list Z) :=
  match d with
  | O => hash_function <$> (data !! Z.to_nat (i - ls))
  | S d =>
      match node_ref d (2 * i), node_ref d (2 * i + 1) with
      | Some l, Some r => Some (hash_function (l ++ r))
      | Some l, None => Some l
      | None, _ => None
      end
  end.
End Reference.

(** The hash node [i] of a tree of the given height should have. *)
Definition hash_of (height : Z) (data : list (list Z)) (i : Z) : option (list Z) :=
  node_ref (Z.shiftl 1 (height - 1)) data (Z.to_nat (height - 1 - Z.log2 i)) i.

Definition ptr_of (o : option (list Z)) : ptr := match o with Some x => Ptr x | None => Null end.

(** ** The equations of the reference *)

Context (hash_size : Z) (Hsize : forall x, Z.of_nat (length (hash_function x)) = hash_size).

Section Tree.
Context (h : Z) (Hh : 1 <= h <= 30).
Let ls := Z.shiftl 1 (h - 1).

Lemma ls_pow : ls = 2 ^ (h - 1).
Proof. unfold ls. rewrite Z.shiftl_mul_pow2 by lia. lia. Qed.

Lemma top_pow : Z.shiftl 1 h = 2 * ls.
Proof. rewrite ls_pow, Z.shiftl_mul_pow2, <- Z.pow_succ_r by lia. rewrite Z.mul_1_l. f_equal. lia. Qed.

Lemma ls_pos : 1 <= ls.
Proof. rewrite ls_pow. pose proof (Z.pow_pos_nonneg 2 (h - 1)). lia. Qed.

Lemma leaf_start_spec mt : mt_height mt = h -> leaf_start mt = Some ls.
Proof.
  intros E. unfold leaf_start. rewrite E.
  destruct (Z.ltb_spec h 1), (Z.ltb_spec 30 h); (done || lia).
Qed.

Lemma hash_of_leaf data i : ls <= i < 2 * ls -> hash_of h data i = hash_function <$> (data !! Z.to_nat (i - ls)).
Proof.
  intros Hi. unfold hash_of. rewrite (Z.log2_unique i (h - 1)).
  - by replace (h - 1 - (h - 1)) with 0 by lia.
  - lia.
  - rewrite Z.pow_succ_r, <- ls_pow by lia. lia.
Qed.

Lemma hash_of_node data i : 1 <= i < ls -> hash_of h data i =
  match hash_of h data (2 * i), hash_of h data (2 * i + 1) with
  | Some l, Some r => Some (hash_function (l ++ r))
  | Some l, None => Some l
  | None, _ => None
  end.
Proof.
  intros Hi. unfold hash_of. rewrite Z.log2_succ_double, Z.log2_double by lia.
  assert (Z.log2 i < h - 1) as Hlog by (apply Z.log2_lt_pow2; [lia|]; rewrite <- ls_pow; lia).
  pose proof (Z.log2_nonneg i).
  replace (Z.to_nat (h - 1 - Z.log2 i)) with (S (Z.to_nat (h - 1 - Z.succ (Z.log2 i)))) by lia. done.
Qed.

Lemma node_ref_size data d : forall i x, node_ref ls data d i = Some x -> Z.of_nat (length x) = hash_size.
Proof.
  induction d as [|d IH]; cbn [node_ref]; intros i x H.
  - destruct (data !! _); simplify_eq/=. apply Hsize.
  - destruct (node_ref ls data d (2 * i)) eqn:E; [|done]. destruct (node_ref ls data d (2 * i + 1)); simplify_eq; [apply Hsize|].
    by eapply IH.
Qed.

Lemma hash_of_size data i x : hash_of h data i = Some x -> Z.of_nat (length x) = hash_size.
Proof. apply node_ref_size. Qed.

(** ** Computing a node *)

(** The fixed part of a tree over [m] blocks. *)
Record tree_frame (m bs : Z) (mt : merkle_tree) : Prop := mk_frame {
  tf_height : mt_height mt = h;
  tf_hash : mt_hash_size mt = hash_size;
  tf_bs : mt_block_size mt = bs;
  tf_blocks : mt_blocks mt = m;
  tf_n : mt_n mt = ls + m - 1;
  tf_nodes : Z.of_nat (length (mt_nodes mt)) = ls + m;
}.

Definition hash_at (mt : merkle_tree) (j : Z) (p : ptr) : Prop :=
  exists nd, mt_nodes mt !! Z.to_nat j = Some nd /\ t_hash nd = p.

Definition set_hash (mt : merkle_tree) (i : Z) (nd : merkle_tree_node) (p : ptr) : merkle_tree :=
  mt <| mt_nodes := <[Z.to_nat i := nd <| t_hash := p |>]> (mt_nodes mt) |>.

Lemma put_hash_spec m bs mt i nd x : tree_frame m bs mt -> 0 <= i < ls + m -> mt_nodes mt !! Z.to_nat i = Some nd ->
  t_hash nd <> Uninit -> put_hash mt i x = Some (set_hash mt i nd (Ptr x)).
Proof.
  intros [] Hi Hnd Hu. unfold put_hash. rewrite (aget_lookup _ _ nd) by (done || lia). cbn [mbind option_bind].
  assert (exists b, is_set (t_hash nd) = Some b) as [b ->] by (destruct (t_hash nd); [done|by eexists..]).
  cbn [mbind option_bind]. by rewrite aset_in_range by lia.
Qed.

Lemma has_hash_spec m bs mt j o : tree_frame m bs mt -> 0 <= j -> (j < ls + m -> hash_at mt j (ptr_of o)) ->
  (ls + m <= j -> o = None) -> has_hash mt j = Some (bool_decide (is_Some o)).
Proof.
  intros [] Hj Hat Hout. unfold has_hash. rewrite tf_n0. destruct (Z.leb_spec j (ls + m - 1)).
  - destruct Hat as (nd & Hnd & E); [lia|]. rewrite (aget_lookup _ _ nd) by (done || lia). cbn [mbind option_bind].
    rewrite E. by destruct o.
  - by rewrite Hout by lia.
Qed.

Lemma child_hash_spec m bs mt j x : tree_frame m bs mt -> 0 <= j -> hash_at mt j (Ptr x) ->
  Z.of_nat (length x) = hash_size -> child_hash mt j = Some x.
Proof.
  intros [] Hj (nd & Hnd & E) Hx. unfold child_hash. rewrite (aget_lookup _ _ nd) by done. cbn [mbind option_bind].
  rewrite E, tf_hash0. cbn [read_ptr]. rewrite take_exact_le by lia. by rewrite take_ge by lia.
Qed.

Lemma hash_node_leaf m bs mt i nd d : tree_frame m bs mt -> m <= ls -> ls <= i < ls + m ->
  mt_nodes mt !! Z.to_nat i = Some nd -> t_hash nd <> Uninit -> t_data nd = Ptr d -> Z.of_nat (length d) = bs ->
  hash_node mt i = Some (set_hash mt i nd (Ptr (hash_function d)), 0).
Proof.
  intros Hf Hm Hi Hnd Hu Hd Hl. pose proof Hf as []. pose proof ls_pos. unfold hash_node.
  rewrite leaf_start_spec by done. cbn [mbind option_bind]. rewrite tf_height0, top_pow.
  destruct (Z.ltb_spec (2 * ls - 1) i), (Z.ltb_spec i ls); try lia.
  rewrite (aget_lookup _ _ nd) by (done || lia). cbn [mbind option_bind]. rewrite Hd. cbn [is_set mbind option_bind read_ptr].
  rewrite tf_bs0, take_exact_le, take_ge by lia. cbn [mbind option_bind].
  by rewrite (put_hash_spec m bs _ _ nd) by (done || lia).
Qed.

Lemma hash_node_inner m bs mt i nd data : tree_frame m bs mt -> 0 <= m <= ls -> Z.of_nat (length data) = m ->
  1 <= i < ls -> mt_nodes mt !! Z.to_nat i = Some nd -> t_hash nd <> Uninit ->
  (hash_of h data i = None -> t_hash nd = Null) ->
  (forall j, j = 2 * i \/ j = 2 * i + 1 -> j < ls + m -> hash_at mt j (ptr_of (hash_of h data j))) ->
  hash_node mt i = Some (set_hash mt i nd (ptr_of (hash_of h data i)), 0).
Proof.
  intros Hf Hm Hlen Hi Hnd Hu Hnull Hch. pose proof Hf as []. unfold hash_node.
  rewrite leaf_start_spec by done. cbn [mbind option_bind]. rewrite tf_height0, top_pow.
  destruct (Z.ltb_spec (2 * ls - 1) i), (Z.ltb_spec i ls); try lia.
  assert (forall j, j = 2 * i \/ j = 2 * i + 1 -> ls + m <= j -> hash_of h data j = None) as Hout.
  { intros j Hj Hge. rewrite hash_of_leaf by lia. by rewrite lookup_ge_None_2 by lia. }
  assert (forall j, j = 2 * i \/ j = 2 * i + 1 ->
    has_hash mt j = Some (bool_decide (is_Some (hash_of h data j))) /\
    forall x, hash_of h data j = Some x -> child_hash mt j = Some x) as Hj.
  { intros j Hj. split; [apply (has_hash_spec m bs); [done|lia|by apply Hch|by apply Hout]|].
    intros x Hx. apply (child_hash_spec m bs); [done|lia| |by eapply hash_of_size].
    destruct (Z.ltb_spec j (ls + m)) as [Hlt|Hge]; [specialize (Hch j Hj Hlt); by rewrite Hx in Hch|].
    by rewrite Hout in Hx. }
  destruct (Hj (2 * i)) as [HL CL]; [by left|]. destruct (Hj (2 * i + 1)) as [HR CR]; [by right|].
  assert ((if 2 * i + 1 <=? mt_n mt then l ← has_hash mt (2 * i); if (l : bool) then has_hash mt (2 * i + 1) else Some false
     else Some false) = Some (bool_decide (is_Some (hash_of h data (2 * i))) && bool_decide (is_Some (hash_of h data (2 * i + 1)))))
    as ->.
  { rewrite HL, HR. cbn [mbind option_bind]. destruct (Z.leb_spec (2 * i + 1) (mt_n mt)).
    - by destruct (bool_decide (is_Some (hash_of h data (2 * i)))).
    - rewrite (Hout (2 * i + 1)) by lia. by rewrite andb_false_r. }
  cbn [mbind option_bind]. rewrite HL. rewrite (hash_of_node data i Hi) in *.
  destruct (hash_of h data (2 * i)) as [l|]; [destruct (hash_of h data (2 * i + 1)) as [r|]|]; cbn [mbind option_bind].
  - rewrite !bool_decide_eq_true_2 by done. cbn [andb]. rewrite (CL l), (CR r) by done. cbn [mbind option_bind].
    by rewrite (put_hash_spec m bs _ _ nd) by (done || lia).
  - rewrite bool_decide_eq_true_2, bool_decide_eq_false_2 by (try done; by intros []). cbn [andb mbind option_bind].
    rewrite (CL l) by done. cbn [mbind option_bind].
    by rewrite (put_hash_spec m bs _ _ nd) by (done || lia).
  - rewrite bool_decide_eq_false_2 by (by intros []). cbn [andb mbind option_bind].
    do 2 f_equal. unfold set_hash. cbn [ptr_of]. rewrite <- (Hnull eq_refl).
    rewrite list_insert_id by (rewrite Hnd; by destruct nd). by destruct mt.
Qed.

(** ** Building *)

Definition data_at (mt : merkle_tree) (j : Z) (d : list Z) : Prop :=
  exists nd, mt_nodes mt !! Z.to_nat j = Some nd /\ t_data nd = Ptr d.

(** A tree over blocks of data: every node has its reference hash. *)
Record tree_ok (data : list (list Z)) (bs : Z) (mt : merkle_tree) : Prop := mk_tree_ok {
  to_frame : tree_frame (Z.of_nat (length data)) bs mt;
  to_room : Z.of_nat (length data) <= ls;
  to_blocks : Forall (fun d => Z.of_nat (length d) = bs) data;
  to_hash : forall j, 1 <= j < ls + Z.of_nat (length data) -> hash_at mt j (ptr_of (hash_of h data j));
  to_data : forall k d, data !! k = Some d -> data_at mt (ls + Z.of_nat k) d;
}.

(** A node replaced. *)
Definition set_node (mt : merkle_tree) (i : Z) (nd : merkle_tree_node) : merkle_tree :=
  mt <| mt_nodes := <[Z.to_nat i := nd]> (mt_nodes mt) |>.

Lemma set_node_frame m bs mt i nd : tree_frame m bs mt -> tree_frame m bs (set_node mt i nd).
Proof. intros []. split; try done. unfold set_node. cbn. by rewrite length_insert. Qed.

Lemma set_node_lookup mt i nd j : 0 <= i < Z.of_nat (length (mt_nodes mt)) -> 0 <= j ->
  mt_nodes (set_node mt i nd) !! Z.to_nat j = if decide (j = i) then Some nd else mt_nodes mt !! Z.to_nat j.
Proof.
  intros Hi Hj. unfold set_node. cbn. destruct (decide (j = i)) as [->|]; [apply list_lookup_insert_eq; lia|].
  apply list_lookup_insert_ne. lia.
Qed.

Lemma set_node_set mt i nd nd' : set_node (set_node mt i nd) i nd' = set_node mt i nd'.
Proof. unfold set_node. cbn. by rewrite list_insert_insert_eq. Qed.

Lemma hash_at_set mt i nd j p : 0 <= i < Z.of_nat (length (mt_nodes mt)) -> 0 <= j ->
  (j = i -> t_hash nd = p) -> (j <> i -> hash_at mt j p) -> hash_at (set_node mt i nd) j p.
Proof.
  intros Hi Hj H1 H2. unfold hash_at. rewrite set_node_lookup by done.
  destruct (decide (j = i)); [eauto|]. by apply H2.
Qed.

Lemma data_at_set mt i nd j d : 0 <= i < Z.of_nat (length (mt_nodes mt)) -> 0 <= j ->
  (j = i -> t_data nd = Ptr d) -> (j <> i -> data_at mt j d) -> data_at (set_node mt i nd) j d.
Proof.
  intros Hi Hj H1 H2. unfold data_at. rewrite set_node_lookup by done.
  destruct (decide (j = i)); [eauto|]. by apply H2.
Qed.

Lemma reset_node_spec mt i dt : 0 <= i < Z.of_nat (length (mt_nodes mt)) ->
  exists nd, mt_nodes mt !! Z.to_nat i = Some nd /\
    reset_node mt i dt = Some (set_node mt i (mk_tree_node Null (default (t_data nd) dt))).
Proof.
  intros Hi. destruct (aget_is_Some (mt_nodes mt) i Hi) as (nd & Hnd & E). exists nd. split; [done|].
  unfold reset_node. rewrite E. cbn [mbind option_bind]. rewrite aset_in_range by done. by destruct dt.
Qed.

(** The leaves, from the first to the last. *)
Lemma build_leaf data bs mt i d : tree_frame (Z.of_nat (length data)) bs mt -> Z.of_nat (length data) <= ls ->
  ls <= i < ls + Z.of_nat (length data) -> data !! Z.to_nat (i - ls) = Some d -> Z.of_nat (length d) = bs ->
  exists mt', (mt1 ← reset_node mt i (Some (Ptr d)); hash_node mt1 i) = Some (mt', 0) /\
    mt' = set_node mt i (mk_tree_node (ptr_of (hash_of h data i)) (Ptr d)).
Proof.
  intros Hf Hm Hi Hd Hl. pose proof Hf as []. pose proof ls_pos.
  destruct (reset_node_spec mt i (Some (Ptr d))) as (nd & Hnd & ->); [lia|]. cbn [mbind option_bind default from_option id].
  rewrite (hash_node_leaf (Z.of_nat (length data)) bs _ i (mk_tree_node Null (Ptr d)) d); try done; [|by apply set_node_frame|].
  - eexists. split; [reflexivity|]. rewrite hash_of_leaf, Hd by lia. unfold set_hash.
    change (set_node (set_node mt i (mk_tree_node Null (Ptr d))) i (mk_tree_node (Ptr (hash_function d)) (Ptr d)) =
      set_node mt i (mk_tree_node (Ptr (hash_function d)) (Ptr d))). apply set_node_set.
  - rewrite set_node_lookup by lia. by rewrite decide_True.
Qed.

(** An inner node, its children done. *)
Lemma build_inner data bs mt i : tree_frame (Z.of_nat (length data)) bs mt -> Z.of_nat (length data) <= ls ->
  1 <= i < ls -> (forall j, i < j < ls + Z.of_nat (length data) -> hash_at mt j (ptr_of (hash_of h data j))) ->
  exists mt' nd, (mt1 ← reset_node mt i None; hash_node mt1 i) = Some (mt', 0) /\
    mt_nodes mt !! Z.to_nat i = Some nd /\ mt' = set_node mt i (mk_tree_node (ptr_of (hash_of h data i)) (t_data nd)).
Proof.
  intros Hf Hm Hi Hch. pose proof Hf as [].
  destruct (reset_node_spec mt i None) as (nd & Hnd & ->); [lia|]. cbn [mbind option_bind default from_option id].
  rewrite (hash_node_inner (Z.of_nat (length data)) bs _ i (mk_tree_node Null (t_data nd)) data); try done.
  - eexists _, nd. split; [reflexivity|]. split; [done|]. unfold set_hash.
    change (set_node (set_node mt i (mk_tree_node Null (t_data nd))) i (mk_tree_node (ptr_of (hash_of h data i)) (t_data nd)) =
      set_node mt i (mk_tree_node (ptr_of (hash_of h data i)) (t_data nd))). apply set_node_set.
  - by apply set_node_frame.
  - lia.
  - rewrite set_node_lookup by lia. by rewrite decide_True.
  - intros j Hj Hlt. apply hash_at_set; [lia|lia|lia|]. intros _. apply Hch. lia.
Qed.

Lemma build_tree_ok data bs mt : mt_height mt = h -> mt_hash_size mt = hash_size -> mt_block_size mt = bs ->
  mt_blocks mt = Z.of_nat (length data) -> Z.of_nat (length data) <= ls ->
  Forall (fun d => Z.of_nat (length d) = bs) data ->
  exists mt', build_tree mt (Ptr <$> data) = Some (mt', 0) /\ tree_ok data bs mt'.
Proof.
  intros Eh Es Eb Em Hm Hbs. pose proof ls_pos. unfold build_tree. rewrite leaf_start_spec by done. cbn [mbind option_bind].
  rewrite Em. destruct (Z.ltb_spec ls (Z.of_nat (length data))); [lia|].
  set (m := Z.of_nat (length data)) in *. set (mt0 := mt <| mt_n := ls + m - 1 |> <| mt_nodes := _ |>).
  assert (tree_frame m bs mt0) as Hf0.
  { split; try done. unfold mt0. cbn -[Z.add Z.sub]. rewrite length_replicate. lia. }
  change (mt_blocks mt0) with (mt_blocks mt). rewrite Em. fold m.
  match goal with |- context [for_ ?f ls _ _] =>
  destruct (for_inv (fun i '(mt, r) => r = 0 /\ tree_frame m bs mt /\
    forall j d, ls <= j < i -> data !! Z.to_nat (j - ls) = Some d ->
      hash_at mt j (ptr_of (hash_of h data j)) /\ data_at mt j d) f (Z.to_nat m) ls (mt0, 0))
    as ([mt1 r1] & -> & -> & Hf1 & H1) end.
  - split; [done|]. split; [done|]. intros; lia.
  - intros i [mt1 r1] Hi (-> & Hf & Hj). cbn [Z.eqb]. pose proof Hf as [].
    destruct (lookup_lt_is_Some_2 data (Z.to_nat (i - ls))) as [d Hd]; [lia|].
    rewrite (aget_lookup _ _ (Ptr d)) by (first [lia|by rewrite list_lookup_fmap, Hd]). cbn [mbind option_bind].
    assert (Z.of_nat (length d) = bs) as Hl.
    { rewrite list.Forall_forall in Hbs. apply Hbs. by eapply list_elem_of_lookup_2. }
    destruct (build_leaf data bs mt1 i d) as (mt' & -> & ->); [done|done|lia|done|done|].
    eexists. split; [reflexivity|]. split; [done|]. split; [by apply set_node_frame|].
    intros j d' Hlt Hd'. split.
    + apply hash_at_set; [lia|lia|by intros ->|]. intros Hne. eapply Hj; [lia|done].
    + apply data_at_set; [lia|lia|intros ->; cbn; congruence|]. intros Hne. eapply Hj; [lia|done].
  - cbn [mbind option_bind Z.eqb].
    match goal with |- context [for_ ?f 0 _ _] =>
    destruct (for_inv (fun k '(mt, r) => r = 0 /\ tree_frame m bs mt /\
      (forall j, ls - k <= j < ls + m -> hash_at mt j (ptr_of (hash_of h data j))) /\
      forall k d, data !! k = Some d -> data_at mt (ls + Z.of_nat k) d) f (Z.to_nat (ls - 1)) 0 (mt1, 0))
      as ([mt2 r2] & -> & -> & Hf2 & H2 & H3) end.
    + split; [done|]. split; [done|]. split.
      * intros j Hj. destruct (lookup_lt_is_Some_2 data (Z.to_nat (j - ls))) as [d Hd]; [lia|]. eapply H1; [lia|done].
      * intros k d Hd. pose proof (lookup_lt_Some _ _ _ Hd). eapply (H1 (ls + Z.of_nat k)); [lia|].
        by replace (Z.to_nat (ls + Z.of_nat k - ls)) with k by lia.
    + intros k [mt2 r2] Hk (-> & Hf & Hj & Hd). cbn [Z.eqb]. pose proof Hf as [].
      destruct (build_inner data bs mt2 (ls - 1 - k)) as (mt' & nd & -> & Hnd & ->); [done|done|lia|intros; apply Hj; lia|].
      eexists. split; [reflexivity|]. split; [done|]. split; [by apply set_node_frame|]. split.
      * intros j Hlt. apply hash_at_set; [lia|lia|by intros ->|]. intros Hne. apply Hj. lia.
      * intros k' d Hd'. apply data_at_set; [lia|lia|lia|]. intros _. by apply Hd.
    + exists mt2. split; [done|]. split; try done. intros j Hj. apply H2. lia.
Qed.

(** ** Changing a block *)

(** A node's reference hash depends on the blocks below it only. *)
Lemma node_ref_insert data k x d : forall j, 0 <= j -> ls <= j * 2 ^ Z.of_nat d ->
  (ls + Z.of_nat k) / 2 ^ Z.of_nat d <> j -> node_ref ls (<[k := x]> data) d j = node_ref ls data d j.
Proof.
  induction d as [|d IH]; intros j H0 Hj Hne; cbn [node_ref].
  - change (2 ^ Z.of_nat 0) with 1 in *. rewrite Z.div_1_r in Hne. rewrite list_lookup_insert_ne by lia. done.
  - rewrite Nat2Z.inj_succ, Z.pow_succ_r in Hj, Hne by lia.
    assert (0 < 2 ^ Z.of_nat d) by (apply Z.pow_pos_nonneg; lia).
    rewrite (Z.mul_comm 2), <- Z.div_div in Hne by lia. set (q := (ls + Z.of_nat k) / 2 ^ Z.of_nat d) in *.
    assert (q <> 2 * j /\ q <> 2 * j + 1) as [Hl Hr].
    { split; intros E; apply Hne; rewrite E; [rewrite Z.mul_comm; apply Z.div_mul; lia|].
      symmetry. apply Z.div_unique with 1; lia. }
    rewrite !IH by (done || lia). done.
Qed.

Lemma node_ref_some data k x d : forall j,
  is_Some (node_ref ls (<[k := x]> data) d j) <-> is_Some (node_ref ls data d j).
Proof.
  assert (forall o : option (list Z), (o = None <-> ~ is_Some o)) as Hn by (intros []; split; [done|intros []; eauto|intros _ []; done|done]).
  induction d as [|d IH]; intros j; cbn [node_ref].
  - rewrite !fmap_is_Some, !lookup_lt_is_Some. by rewrite length_insert.
  - destruct (node_ref ls (<[k := x]> data) d (2 * j)) eqn:E1, (node_ref ls data d (2 * j)) eqn:E2.
    + repeat case_match; split; eauto.
    + apply Hn in E2. destruct E2. apply IH. eauto.
    + apply Hn in E1. destruct E1. apply IH. eauto.
    + done.
Qed.

Lemma level_bounds j : 1 <= j < 2 * ls -> let d := h - 1 - Z.log2 j in
  0 <= d /\ ls <= j * 2 ^ d /\ (ls <= j -> d = 0).
Proof.
  intros Hj d. pose proof (Z.log2_spec j ltac:(lia)) as [L1 L2]. pose proof (Z.log2_nonneg j).
  assert (Z.log2 j < h) as Hl.
  { apply Z.log2_lt_pow2; [lia|]. replace h with (Z.succ (h - 1)) by lia. rewrite Z.pow_succ_r, <- ls_pow by lia. lia. }
  split; [lia|]. split.
  - rewrite ls_pow. replace (h - 1) with (Z.log2 j + d) by lia. rewrite Z.pow_add_r by lia.
    apply Z.mul_le_mono_nonneg_r; [apply Z.pow_nonneg; lia|done].
  - intros Hge. unfold d. rewrite (Z.log2_unique j (h - 1)); [lia|lia|].
    rewrite Z.pow_succ_r, <- ls_pow by lia. lia.
Qed.

(** A changed hash is that of the leaf or of one of its ancestors. *)
Lemma hash_of_insert data k x j : 1 <= j < 2 * ls ->
  hash_of h (<[k := x]> data) j = hash_of h data j \/
  exists t, 0 <= t /\ j = (ls + Z.of_nat k) / 2 ^ t /\ (ls <= j -> t = 0).
Proof.
  intros Hj. destruct (level_bounds j Hj) as (Hd & Hb & Hz). unfold hash_of. fold ls.
  destruct (decide ((ls + Z.of_nat k) / 2 ^ (h - 1 - Z.log2 j) = j)) as [E|E].
  - right. exists (h - 1 - Z.log2 j). auto.
  - left. apply node_ref_insert; rewrite ?Z2Nat.id by lia; [lia|done|done].
Qed.

Lemma div_pow_le i t : 0 <= i -> 1 <= t -> i / 2 ^ t <= i / 2.
Proof.
  intros Hi Ht. replace t with (1 + (t - 1)) by lia. rewrite Z.pow_add_r, <- Z.div_div by lia.
  change (2 ^ 1) with 2. pose proof (Z.div_pos i 2).
  apply Z.div_le_upper_bound; [lia|]. pose proof (Z.pow_pos_nonneg 2 (t - 1)). nia.
Qed.

(** On the way up from [i]: only ancestors of [i] still have the hash of the former
    blocks. *)
Record updating (data data' : list (list Z)) (bs i : Z) (mt : merkle_tree) : Prop := mk_updating {
  up_frame : tree_frame (Z.of_nat (length data')) bs mt;
  up_hash : forall j, 1 <= j < ls + Z.of_nat (length data') ->
    hash_at mt j (ptr_of (hash_of h data' j)) \/
    (hash_at mt j (ptr_of (hash_of h data j)) /\ exists t, 1 <= t /\ j = i / 2 ^ t);
  up_data : forall k d, data' !! k = Some d -> data_at mt (ls + Z.of_nat k) d;
}.

Lemma rehash_up_spec data data' bs fuel : forall mt i, updating data data' bs i mt ->
  Z.of_nat (length data') <= ls -> (forall j, is_Some (hash_of h data' j) <-> is_Some (hash_of h data j)) ->
  1 <= i < 2 * ls -> i < 2 ^ Z.of_nat fuel ->
  exists mt', rehash_up fuel mt i = Some (mt', 0) /\ updating data data' bs 0 mt'.
Proof.
  induction fuel as [|fuel IH]; intros mt i Hu Hm Hs Hi Hf; [change (2 ^ Z.of_nat 0) with 1 in Hf; lia|].
  cbn [rehash_up]. rewrite Z.shiftr_div_pow2 by lia. change (2 ^ 1) with 2.
  pose proof (Z.div_mod i 2 ltac:(lia)). pose proof (Z.mod_pos_bound i 2 ltac:(lia)). destruct Hu as [Hfr Hh' Hd'].
  pose proof Hfr as []. rewrite Nat2Z.inj_succ, Z.pow_succ_r in Hf by lia. destruct (Z.leb_spec (i / 2) 0).
  - exists mt. split; [done|]. split; [done| |done]. intros j Hj. left.
    destruct (Hh' j Hj) as [?|(_ & t & Ht & E)]; [done|]. pose proof (div_pow_le i t). lia.
  - destruct (lookup_lt_is_Some_2 (mt_nodes mt) (Z.to_nat (i / 2))) as [nd Hnd]; [lia|].
    assert (exists o, t_hash nd = ptr_of o /\ (o = hash_of h data' (i / 2) \/ o = hash_of h data (i / 2))) as (o & Eo & Ho).
    { destruct (Hh' (i / 2)) as [(nd' & Hnd' & E)|((nd' & Hnd' & E) & _)]; [lia| |]; rewrite Hnd in Hnd'; simplify_eq; eauto. }
    rewrite (hash_node_inner (Z.of_nat (length data')) bs mt (i / 2) nd data'); try done; [|lia|lia| | |].
    + cbn [mbind option_bind Z.eqb]. apply IH; [|done|done|lia|lia].
      change (set_hash mt (i / 2) nd (ptr_of (hash_of h data' (i / 2))))
        with (set_node mt (i / 2) (nd <| t_hash := ptr_of (hash_of h data' (i / 2)) |>)).
      split; [by apply set_node_frame| |].
      * intros j Hj. destruct (decide (j = i / 2)) as [->|Hne]; [left; apply hash_at_set; by (lia || done)|].
        destruct (Hh' j Hj) as [?|(? & t & Ht & E)]; [left; by apply hash_at_set; (lia || done)|].
        right. split; [by apply hash_at_set; (lia || done)|]. exists (t - 1). split.
        -- destruct (decide (t = 1)) as [->|]; [by change (2 ^ 1) with 2 in E|lia].
        -- rewrite Z.div_div by (try lia; apply Z.pow_pos_nonneg; lia). rewrite <- Z.pow_succ_r by lia.
           by replace (Z.succ (t - 1)) with t by lia.
      * intros k d Hk. destruct (decide (ls + Z.of_nat k = i / 2)) as [E|Hne]; [lia|].
        apply data_at_set; [lia|lia|done|]. intros _. by apply Hd'.
    + rewrite Eo. by destruct o.
    + intros En. rewrite Eo. assert (o = None) as ->; [|done].
      destruct Ho as [->| ->]; [done|]. destruct (hash_of h data (i / 2)) eqn:E; [|done].
      assert (is_Some (hash_of h data' (i / 2))) as [? E'] by (apply Hs; eauto). congruence.
    + intros j Hj Hlt. destruct (Hh' j) as [?|(_ & t & Ht & E)]; [lia|done|]. pose proof (div_pow_le i t). lia.
Qed.

Lemma set_tree_data_ok data bs mt k d x : tree_ok data bs mt -> data !! k = Some d -> Z.of_nat (length x) = bs ->
  exists mt', set_tree_data mt (Z.of_nat k + 1) (Ptr x) = Some (mt', 0) /\ tree_ok (<[k := x]> data) bs mt'.
Proof.
  intros [] Hk Hx. pose proof ls_pos. pose proof (lookup_lt_Some _ _ _ Hk) as Hlt. pose proof to_frame0 as [].
  unfold set_tree_data. rewrite tf_blocks0, leaf_start_spec by done.
  destruct (Z.ltb_spec (Z.of_nat (length data)) (Z.of_nat k + 1)); [lia|]. cbn [mbind option_bind].
  replace (ls + (Z.of_nat k + 1) - 1) with (ls + Z.of_nat k) by lia. set (i := ls + Z.of_nat k).
  destruct (to_data0 k d Hk) as (nd & Hnd & Ed). fold i in Hnd. rewrite (aget_lookup _ _ nd) by (done || lia). cbn [mbind option_bind].
  rewrite Ed. cbn [is_set mbind option_bind]. rewrite aset_in_range by lia. cbn [mbind option_bind].
  change (mt <| mt_nodes := <[Z.to_nat i := nd <| t_data := Ptr x |>]> (mt_nodes mt) |>)
    with (set_node mt i (mk_tree_node (t_hash nd) (Ptr x))).
  assert (t_hash nd <> Uninit) as Hu.
  { destruct (to_hash0 i) as (nd' & Hnd' & E); [lia|]. rewrite Hnd in Hnd'. simplify_eq. rewrite E. by destruct (hash_of h data i). }
  rewrite (hash_node_leaf (Z.of_nat (length data)) bs _ i (mk_tree_node (t_hash nd) (Ptr x)) x);
    [|by apply set_node_frame|done|lia|rewrite set_node_lookup by lia; by rewrite decide_True|done|done|done].
  cbn [mbind option_bind Z.eqb].
  change (set_hash (set_node mt i (mk_tree_node (t_hash nd) (Ptr x))) i (mk_tree_node (t_hash nd) (Ptr x)) (Ptr (hash_function x)))
    with (set_node (set_node mt i (mk_tree_node (t_hash nd) (Ptr x))) i (mk_tree_node (Ptr (hash_function x)) (Ptr x))).
  rewrite set_node_set. set (mt1 := set_node mt i _).
  assert (length (<[k := x]> data) = length data) as L by apply length_insert.
  destruct (rehash_up_spec data (<[k := x]> data) bs (Z.to_nat (mt_height mt1) + 1) mt1 i) as (mt' & E & []).
  - split; [rewrite L; by apply set_node_frame| |].
    + rewrite L. intros j Hj. destruct (decide (j = i)) as [->|Hne].
      { left. apply hash_at_set; [lia|lia| |done]. intros _. cbn [t_hash]. rewrite hash_of_leaf by lia. unfold i.
        replace (Z.to_nat (ls + Z.of_nat k - ls)) with k by lia. by rewrite list_lookup_insert_eq by done. }
      destruct (hash_of_insert data k x j) as [E|(t & Ht & E & _)]; [lia| |].
      * left. rewrite E. apply hash_at_set; [lia|lia|done|]. intros _. by apply to_hash0.
      * right. split; [apply hash_at_set; [lia|lia|done|]; intros _; by apply to_hash0|].
        exists t. split; [|done]. destruct (decide (t = 0)) as [->|]; [|lia]. change (2 ^ 0) with 1 in E.
        rewrite Z.div_1_r in E. done.
    + intros k' d' Hk'. destruct (decide (k' = k)) as [->|Hne].
      * rewrite list_lookup_insert_eq in Hk' by done. apply data_at_set; [lia|lia|intros _; cbn; congruence|done].
      * rewrite list_lookup_insert_ne in Hk' by done. apply data_at_set; [lia|lia|lia|]. intros _. by apply to_data0.
  - by rewrite L.
  - intros j. apply node_ref_some.
  - lia.
  - change (mt_height mt1) with (mt_height mt). rewrite tf_height0.
    replace (Z.of_nat (Z.to_nat h + 1)) with (Z.succ (Z.succ (h - 1))) by lia. rewrite !Z.pow_succ_r, <- ls_pow by lia. lia.
  - exists mt'. split; [done|]. split; [done|by rewrite L|by apply Forall_insert| |done].
    intros j Hj. destruct (up_hash0 j Hj) as [?|(_ & t & Ht & E')]; [done|]. rewrite Z.div_0_l in E'; [lia|].
    pose proof (Z.pow_pos_nonneg 2 t). lia.
Qed.

(** ** Comparing two trees *)

(** In a full tree every node has a hash. *)
Lemma node_ref_full data d : Z.of_nat (length data) = ls -> forall j, 0 <= j -> ls <= j * 2 ^ Z.of_nat d ->
  (j + 1) * 2 ^ Z.of_nat d <= 2 * ls -> is_Some (node_ref ls data d j).
Proof.
  intros Hl. induction d as [|d IH]; intros j Hj H1 H2; cbn [node_ref].
  - change (2 ^ Z.of_nat 0) with 1 in *. apply fmap_is_Some, lookup_lt_is_Some. lia.
  - rewrite Nat2Z.inj_succ, Z.pow_succ_r in H1, H2 by lia.
    destruct (IH (2 * j)) as [l ->]; [lia|lia|lia|]. by destruct (IH (2 * j + 1)) as [r ->]; [lia|lia|lia|].
Qed.

Lemma hash_of_full data j : Z.of_nat (length data) = ls -> 1 <= j < 2 * ls -> is_Some (hash_of h data j).
Proof.
  intros Hl Hj. destruct (level_bounds j Hj) as (Hd & Hb & _). pose proof (Z.log2_spec j ltac:(lia)) as [_ L2].
  apply node_ref_full; rewrite ?Z2Nat.id by lia; [done|lia|done|].
  pose proof (Z.log2_nonneg j). rewrite Z.pow_succ_r in L2 by lia.
  rewrite ls_pow. replace (2 * 2 ^ (h - 1)) with (2 * 2 ^ Z.log2 j * 2 ^ (h - 1 - Z.log2 j)).
  - apply Z.mul_le_mono_nonneg_r; [apply Z.pow_nonneg; lia|lia].
  - rewrite <- Z.mul_assoc, <- Z.pow_add_r by lia. do 2 f_equal. lia.
Qed.

Definition collision : Prop := exists x y, x <> y /\ hash_function x = hash_function y.

(** What the comparison below node [j] says: nothing differs there, or the number of
    a block below [j] whose hashes differ. *)
Definition compares (da db : list (list Z)) (j r : Z) : Prop :=
  (r = 0 /\ hash_of h da j = hash_of h db j) \/
  exists k x y, r = Z.of_nat k + 1 /\ da !! k = Some x /\ db !! k = Some y /\ hash_function x <> hash_function y.

Lemma tree_cmp_node da db bs a b : tree_ok da bs a -> tree_ok db bs b ->
  Z.of_nat (length da) = ls -> Z.of_nat (length db) = ls ->
  forall fuel j, 1 <= j < 2 * ls -> 2 * ls <= j * 2 ^ Z.of_nat fuel ->
  exists r, tree_cmp fuel a b j = Some r /\ compares da db j r /\ (hash_of h da j <> hash_of h db j -> r <> 0).
Proof.
  intros Ha Hb La Lb. pose proof (to_frame _ _ _ Ha) as []. pose proof (to_frame _ _ _ Hb) as Fb.
  induction fuel as [|fuel IH]; intros j Hj Hf; [change (2 ^ Z.of_nat 0) with 1 in Hf; lia|].
  cbn [tree_cmp]. rewrite leaf_start_spec by done. cbn [mbind option_bind]. rewrite tf_height0, top_pow.
  destruct (Z.ltb_spec (2 * ls - 1) j); [lia|].
  destruct (hash_of_full da j La Hj) as [x Hx]. destruct (hash_of_full db j Lb Hj) as [y Hy].
  pose proof (to_hash _ _ _ Ha j ltac:(lia)) as Ax. pose proof (to_hash _ _ _ Hb j ltac:(lia)) as By.
  rewrite Hx in Ax. rewrite Hy in By. cbn [ptr_of] in *.
  rewrite (child_hash_spec (Z.of_nat (length da)) bs a j x) by (first [apply Ha|lia|done|by eapply hash_of_size]).
  cbn [mbind option_bind]. pose proof (hash_of_size db j y Hy). destruct By as (nd & Hnd & Et).
  rewrite (aget_lookup _ _ nd) by (done || lia). cbn [mbind option_bind]. rewrite Et, tf_hash0. cbn [read_ptr].
  rewrite take_exact_le, take_ge by lia. cbn [mbind option_bind].
  case_bool_decide as E; [exists 0; split; [done|]; split; [left; split; [done|congruence]|congruence]|].
  rewrite Z.shiftl_mul_pow2 by lia. change (2 ^ 1) with 2. destruct (Z.ltb_spec (2 * ls - 1) (j * 2)) as [Hleaf|Hin].
  - exists (j - ls + 1). split; [done|]. split; [|lia]. right.
    rewrite hash_of_leaf in Hx, Hy by lia.
    destruct (da !! Z.to_nat (j - ls)) as [u|] eqn:Eu; [|done]. destruct (db !! Z.to_nat (j - ls)) as [v|] eqn:Ev; [|done].
    simplify_eq/=. exists (Z.to_nat (j - ls)), u, v. split; [lia|]. split; [done|]. split; [done|congruence].
  - rewrite Nat2Z.inj_succ, Z.pow_succ_r in Hf by lia.
    destruct (IH (j * 2)) as (rl & -> & Cl & Nl); [lia|lia|]. cbn [mbind option_bind].
    destruct (Z.eqb_spec rl 0) as [->|Hr].
    + destruct (IH (j * 2 + 1)) as (rr & -> & Cr & Nr); [lia|lia|].
      assert (hash_of h da (2 * j) = hash_of h db (2 * j)) as El.
      { rewrite (Z.mul_comm 2). destruct Cl as [[_ El]|(k & ? & ? & ? & _)]; [done|lia]. }
      assert (hash_of h da (2 * j + 1) <> hash_of h db (2 * j + 1)) as Er.
      { intros Er. apply E. assert (Some x = Some y); [|congruence]. rewrite <- Hx, <- Hy.
        rewrite (hash_of_node da j), (hash_of_node db j) by lia. by rewrite El, Er. }
      rewrite (Z.mul_comm 2) in Er. specialize (Nr Er). exists rr. split; [done|]. split; [|done].
      destruct Cr as [[-> _]|?]; [lia|by right].
    + exists rl. split; [done|]. split; [|done]. destruct Cl as [[-> _]|?]; [lia|by right].
Qed.

(** Equal root hashes: the same blocks, or two inputs with the same hash. *)
Lemma equal_hashes da db d : Z.of_nat (length da) = ls -> Z.of_nat (length db) = ls ->
  forall j, 0 <= j -> ls <= j * 2 ^ Z.of_nat d -> (j + 1) * 2 ^ Z.of_nat d <= 2 * ls ->
  node_ref ls da d j = node_ref ls db d j ->
  collision \/ forall k, j * 2 ^ Z.of_nat d <= ls + Z.of_nat k < (j + 1) * 2 ^ Z.of_nat d -> da !! k = db !! k.
Proof.
  intros La Lb. induction d as [|d IH]; intros j Hj H1 H2 E; cbn [node_ref] in E.
  - change (2 ^ Z.of_nat 0) with 1 in *.
    destruct (lookup_lt_is_Some_2 da (Z.to_nat (j - ls))) as [x Hx]; [lia|].
    destruct (lookup_lt_is_Some_2 db (Z.to_nat (j - ls))) as [y Hy]; [lia|]. rewrite Hx, Hy in E. injection E as E.
    destruct (decide (x = y)) as [->|Hne]; [|left; by exists x, y]. right. intros k Hk.
    replace k with (Z.to_nat (j - ls)) by lia. congruence.
  - rewrite Nat2Z.inj_succ, Z.pow_succ_r in H1, H2 |- * by lia.
    destruct (node_ref_full da d La (2 * j)) as [la Ela]; [lia|lia|lia|].
    destruct (node_ref_full db d Lb (2 * j)) as [lb Elb]; [lia|lia|lia|].
    destruct (node_ref_full da d La (2 * j + 1)) as [ra Era]; [lia|lia|lia|].
    destruct (node_ref_full db d Lb (2 * j + 1)) as [rb Erb]; [lia|lia|lia|].
    rewrite Ela, Elb, Era, Erb in E. injection E as E.
    pose proof (node_ref_size _ _ _ _ Ela). pose proof (node_ref_size _ _ _ _ Elb).
    destruct (decide (la ++ ra = lb ++ rb)) as [Eq|Hne]; [|left; by exists (la ++ ra), (lb ++ rb)].
    apply app_inj_1 in Eq as [-> ->]; [|lia].
    destruct (IH (2 * j)) as [?|Hl]; [lia|lia|lia|congruence|by left|].
    destruct (IH (2 * j + 1)) as [?|Hr]; [lia|lia|lia|congruence|by left|].
    right. intros k Hk. destruct (Z.ltb_spec (ls + Z.of_nat k) ((2 * j + 1) * 2 ^ Z.of_nat d)); [apply Hl|apply Hr]; lia.
Qed.

(** ** Theorems *)

(** The settings before a tree over [data] is built. *)
Definition settings (bs : Z) (data : list (list Z)) : merkle_tree :=
  mk_merkle_tree 0 h hash_size bs (Z.of_nat (length data)) [].

Lemma build_settings bs data : Z.of_nat (length data) <= ls -> Forall (fun d => Z.of_nat (length d) = bs) data ->
  exists mt, build_tree (settings bs data) (Ptr <$> data) = Some (mt, 0) /\ tree_ok data bs mt.
Proof. intros Hl Hb. by apply build_tree_ok. Qed.
End Tree.
End Merkle.

(** C31: changing a block.  For every hash function of fixed size, a tree built over
    blocks of data and then given a new block with [set_tree_data] has, at every
    node, the hash of the tree built from the changed blocks; both functions end
    without error and inside the array of nodes. *)
Theorem set_tree_data_rebuild hash hash_size h bs data k d x :
  (forall y, Z.of_nat (length (hash y)) = hash_size) -> 1 <= h <= 30 ->
  Z.of_nat (length data) <= Z.shiftl 1 (h - 1) -> Forall (fun d => Z.of_nat (length d) = bs) data ->
  data !! k = Some d -> Z.of_nat (length x) = bs ->
  exists mt1 mt2 mt3,
    build_tree hash (settings hash_size h bs data) (Ptr <$> data) = Some (mt1, 0) /\
    set_tree_data hash mt1 (Z.of_nat k + 1) (Ptr x) = Some (mt2, 0) /\
    build_tree hash (settings hash_size h bs (<[k := x]> data)) (Ptr <$> <[k := x]> data) = Some (mt3, 0) /\
    forall j, 1 <= j < Z.shiftl 1 (h - 1) + Z.of_nat (length data) ->
      exists p, hash_at mt2 j p /\ hash_at mt3 j p.
Proof.
  intros Hs Hh Hl Hb Hk Hx.
  destruct (build_settings hash hash_size Hs h Hh bs data Hl Hb) as (mt1 & E1 & O1).
  destruct (set_tree_data_ok hash hash_size Hs h Hh data bs mt1 k d x O1 Hk Hx) as (mt2 & E2 & O2).
  destruct (build_settings hash hash_size Hs h Hh bs (<[k := x]> data)) as (mt3 & E3 & O3);
    [by rewrite length_insert|by apply Forall_insert|].
  exists mt1, mt2, mt3. do 3 (split; [done|]). intros j Hj.
  exists (ptr_of (hash_of hash h (<[k := x]> data) j)).
  split; [eapply to_hash; [exact O2|]|eapply to_hash; [exact O3|]]; by rewrite length_insert.
Qed.

(** A toy hash of one byte. *)
Definition toy_hash (l : list Z) : list Z := [foldl (fun a b => (31 * a + b) mod 251) 7 l].

Lemma set_tree_data_rebuild_witness : exists mt1 mt2 mt3,
  build_tree toy_hash (settings 1 3 2 [[1; 2]; [3; 4]; [5; 6]]) (Ptr <$> [[1; 2]; [3; 4]; [5; 6]]) = Some (mt1, 0) /\
  set_tree_data toy_hash mt1 2 (Ptr [9; 9]) = Some (mt2, 0) /\
  build_tree toy_hash (settings 1 3 2 [[1; 2]; [9; 9]; [5; 6]]) (Ptr <$> [[1; 2]; [9; 9]; [5; 6]]) = Some (mt3, 0) /\
  exists p, hash_at mt2 1 p /\ hash_at mt3 1 p.
Proof.
  destruct (set_tree_data_rebuild toy_hash 1 3 2 [[1; 2]; [3; 4]; [5; 6]] 1 [3; 4] [9; 9])
    as (mt1 & mt2 & mt3 & E1 & E2 & E3 & H); [done|lia|concrete|concrete|done|done|].
  exists mt1, mt2, mt3. split; [exact E1|]. split; [exact E2|]. split; [exact E3|]. apply H. split; [lia|reflexivity].
Defined.

(** Comparing two trees.  Over full trees of the same height [tree_cmp] ends; a
    number other than 0 is that of a block, counted from 1, whose hashes differ;
    and 0 means that all blocks are equal, unless the hash function has a
    collision. *)
Theorem tree_cmp_spec hash hash_size h bs da db :
  (forall y, Z.of_nat (length (hash y)) = hash_size) -> 1 <= h <= 30 ->
  Z.of_nat (length da) = Z.shiftl 1 (h - 1) -> Z.of_nat (length db) = Z.shiftl 1 (h - 1) ->
  Forall (fun d => Z.of_nat (length d) = bs) da -> Forall (fun d => Z.of_nat (length d) = bs) db ->
  exists a b r,
    build_tree hash (settings hash_size h bs da) (Ptr <$> da) = Some (a, 0) /\
    build_tree hash (settings hash_size h bs db) (Ptr <$> db) = Some (b, 0) /\
    tree_cmp (Z.to_nat h) a b 1 = Some r /\
    ((r = 0 /\ (da = db \/ collision hash)) \/
     exists k x y, r = Z.of_nat k + 1 /\ da !! k = Some x /\ db !! k = Some y /\ hash x <> hash y).
Proof.
  intros Hs Hh La Lb Ha Hb.
  destruct (build_settings hash hash_size Hs h Hh bs da) as (a & Ea & Oa); [lia|done|].
  destruct (build_settings hash hash_size Hs h Hh bs db) as (b & Eb & Ob); [lia|done|].
  pose proof (ls_pos h Hh) as Hp. pose proof (ls_pow h Hh) as Hw.
  assert (2 * Z.shiftl 1 (h - 1) = 2 ^ h) as E2.
  { rewrite Hw, <- Z.pow_succ_r by lia. f_equal. lia. }
  destruct (tree_cmp_node hash hash_size Hs h Hh da db bs a b Oa Ob La Lb (Z.to_nat h) 1) as (r & Er & [[-> E]|C] & _);
    [lia|rewrite Z2Nat.id by lia; lia| |].
  - exists a, b, 0. do 3 (split; [done|]). left. split; [done|]. unfold hash_of in E. change (Z.log2 1) with 0 in E.
    destruct (equal_hashes hash hash_size Hs h da db (Z.to_nat (h - 1 - 0)) La Lb 1) as [?|He]; try done;
      rewrite ?Z2Nat.id by lia; rewrite ?Z.sub_0_r; [lia|lia|by right|].
    left. apply list_eq. intros k. destruct (decide (k < length da)%nat) as [Hk|Hk].
    + apply He. rewrite Z2Nat.id by lia. rewrite Z.sub_0_r. lia.
    + rewrite !lookup_ge_None_2 by lia. done.
  - exists a, b, r. do 3 (split; [done|]). by right.
Qed.

Lemma tree_cmp_spec_witness : exists a b r,
  build_tree toy_hash (settings 1 2 1 [[1]; [2]]) (Ptr <$> [[1]; [2]]) = Some (a, 0) /\
  build_tree toy_hash (settings 1 2 1 [[1]; [3]]) (Ptr <$> [[1]; [3]]) = Some (b, 0) /\
  tree_cmp 2 a b 1 = Some r.
Proof.
  destruct (tree_cmp_spec toy_hash 1 2 1 [[1]; [2]] [[1]; [3]]) as (a & b & r & Ea & Eb & Er & _);
    [done|lia|done|done|concrete|concrete|].
  exists a, b, r. split; [exact Ea|]. split; [exact Eb|exact Er].
Defined.

(** Block 0, which [tree_cmp] never returns, is not refused: the pointer of an
    inner node is read, which [build_tree] has not set. *)
Example set_tree_data_zero :
  ('(mt, _) ← build_tree toy_hash (settings 1 2 1 [[1]; [2]]) (Ptr <$> [[1]; [2]]);
   set_tree_data toy_hash mt 0 (Ptr [5])) = None.
Proof. reflexivity. Qed.
