(* ===== verification/Stream.v ===== *)
(** * Stream: the bit stream and its variable-length numbers

    Models the first part of [plugins/utils/huffstream.c]: a buffer read and written
    bit by bit, used like a file, and the codes of numbers in it.  The Huffman
    trees of that file, which compare floating-point averages, and the counters
    that only report statistics are not modelled.  [None] is an access outside the
    buffer or a shift by the width of its operand. *)

From S2P Require Import Prelude Bits.

(** [struct huffstream]; [hp_ptr] is [ptr - buf]. *)
Record HUFF := mk_HUFF {
  hp_buf : list Z;
  hp_ptr : Z;
  hp_bitoffset : Z;
  hp_maski : Z;
  hp_endpos : Z;
  hp_allocsize : Z;
}.

#[export] Instance eta_HUFF : Eta HUFF := fun r => mk_HUFF
  (hp_buf r) (hp_ptr r) (hp_bitoffset r) (hp_maski r) (hp_endpos r) (hp_allocsize r).

Definition huffmasks : list Z := [1; 2; 4; 8; 16; 32; 64; 128].
Definition huffoppomasks : list Z := [254; 253; 251; 247; 239; 223; 191; 127].

Definition _init_HUFF (hp : HUFF) (allocsize : Z) (buf : list Z) : HUFF :=
  hp <| hp_buf := buf |> <| hp_ptr := 0 |> <| hp_allocsize := allocsize |> <| hp_bitoffset := 0 |>.

Definition hconv_bitlen (bitlen : Z) : Z :=
  let len := Z.shiftr bitlen 3 in if negb (Z.land bitlen 7 =? 0) then len + 1 else len.

(** The result is -1 after an offset beyond the buffer. *)
Definition hupdate_internals (hp : HUFF) : HUFF * Z :=
  let over := hp_allocsize hp <? Z.shiftr (hp_bitoffset hp) 3 in
  let hp := if over then hp <| hp_bitoffset := u32 (Z.shiftl (hp_allocsize hp) 3 - 1) |> else hp in
  let hp := if hp_endpos hp <? hp_bitoffset hp then hp <| hp_endpos := hp_bitoffset hp |> else hp in
  (hp <| hp_ptr := Z.shiftr (hp_bitoffset hp) 3 |> <| hp_maski := Z.land (hp_bitoffset hp) 7 |>,
   if over then -1 else 0).

Inductive seek_mode := SEEK_SET | SEEK_CUR | SEEK_END.

Definition hseek (hp : HUFF) (offset : Z) (mode : seek_mode) : HUFF * Z :=
  let bitoffset := match mode with
    | SEEK_END => u32 (offset + hp_endpos hp)
    | SEEK_SET => u32 offset
    | SEEK_CUR => u32 (hp_bitoffset hp + offset)
    end in
  let '(hp, r) := hupdate_internals (hp <| hp_bitoffset := bitoffset |>) in
  (hp, if r <? 0 then -1 else 0).

Definition hrewind (hp : HUFF) : HUFF * Z := hseek hp 0 SEEK_SET.

Definition hclear (hp : HUFF) (clearbuf : bool) : option HUFF :=
  let '(hp, _) := hupdate_internals (hp <| hp_bitoffset := 0 |>) in
  let hp := hp <| hp_endpos := 0 |> in
  if clearbuf then buf ← memset (hp_buf hp) 0 0 (hp_allocsize hp); Some (hp <| hp_buf := buf |>) else Some hp.

(** The bit, or -1 at the end. *)
Definition hgetbit (hp : HUFF) : option (HUFF * Z) :=
  if hp_bitoffset hp <? hp_endpos hp then
    b ← aget (hp_buf hp) (hp_ptr hp);
    m ← aget huffmasks (hp_maski hp);
    let hp := hp <| hp_maski := hp_maski hp + 1 |> <| hp_bitoffset := u32 (hp_bitoffset hp + 1) |> in
    Some (if hp_maski hp =? 8 then hp <| hp_maski := 0 |> <| hp_ptr := hp_ptr hp + 1 |> else hp,
          if Z.land b m =? 0 then 0 else 1)
  else Some (hp, -1).

Definition hputbit (hp : HUFF) (bit : bool) : option (HUFF * Z) :=
  b ← aget (hp_buf hp) (hp_ptr hp);
  m ← (if bit then aget huffmasks (hp_maski hp) else aget huffoppomasks (hp_maski hp));
  buf ← aset (hp_buf hp) (hp_ptr hp) (if bit then Z.lor b m else Z.land b m);
  let hp := hp <| hp_buf := buf |> <| hp_maski := hp_maski hp + 1 |> in
  let hp := if 8 <=? hp_maski hp then hp <| hp_maski := 0 |> <| hp_ptr := hp_ptr hp + 1 |> else hp in
  let hp := hp <| hp_bitoffset := u32 (hp_bitoffset hp + 1) |> in
  let hp := if hp_endpos hp <? hp_bitoffset hp then hp <| hp_endpos := hp_bitoffset hp |> else hp in
  if hp_allocsize hp <=? Z.shiftr (hp_bitoffset hp) 3 then
    Some ((hupdate_internals (hp <| hp_bitoffset := u32 (hp_bitoffset hp - 1) |>)).1, -1)
  else Some (hp, 0).

(** The low bit first; the result is the number of bits, or -1. *)
Fixpoint hwrite_from (codebits : Z) (k : nat) (hp : HUFF) : option (HUFF * bool) :=
  match k with
  | O => Some (hp, true)
  | S k =>
      '(hp, r) ← hputbit hp (negb (Z.land codebits 1 =? 0));
      if r <? 0 then Some (hp, false) else hwrite_from (Z.shiftr codebits 1) k hp
  end.

Definition hwrite (codebits numbits : Z) (hp : HUFF) : option (HUFF * Z) :=
  '(hp, ok) ← hwrite_from codebits (Z.to_nat numbits) hp; Some (hp, if (ok : bool) then numbits else -1).

(** The first bit becomes the highest: the bits read and their number. *)
Fixpoint hread_from (codebits i : Z) (k : nat) (hp : HUFF) : option (HUFF * Z * Z) :=
  match k with
  | O => Some (hp, codebits, i)
  | S k =>
      let codebits := u64 (Z.shiftl codebits 1) in
      '(hp, bit) ← hgetbit hp;
      if bit <? 0 then Some (hp, codebits, i) else hread_from (Z.lor codebits bit) (i + 1) k hp
  end.

Definition hread (numbits : Z) (hp : HUFF) : option (HUFF * Z * Z) := hread_from 0 0 (Z.to_nat numbits) hp.

(** Whole bytes: [inl dest] is copied to, [inr src] from. *)
Definition hmemcpy (arg : list Z + list Z) (hp : HUFF) (datalen : Z) : option (HUFF * list Z * Z) :=
  if negb (Z.land (hp_bitoffset hp) 7 =? 0) || (hp_allocsize hp <? Z.shiftr (hp_bitoffset hp) 3 + datalen)
  then Some (hp, match arg with inl d => d | inr s => s end, -1)
  else
    '(hp, mem) ← match arg with
      | inl dest => dest ← memcpy dest 0 (hp_buf hp) (hp_ptr hp) datalen; Some (hp, dest)
      | inr src => buf ← memcpy (hp_buf hp) (hp_ptr hp) src 0 datalen; Some (hp <| hp_buf := buf |>, src)
      end;
    let hp := hp <| hp_ptr := hp_ptr hp + datalen |>
                 <| hp_bitoffset := u32 (hp_bitoffset hp + Z.shiftl datalen 3) |> in
    Some (if hp_endpos hp <? hp_bitoffset hp then hp <| hp_endpos := hp_bitoffset hp |> else hp, mem, datalen).

(** The position of the highest bit, from 63 down. *)
Fixpoint bitsize_from (x mask : Z) (i : Z) (k : nat) : Z :=
  match k with
  | O => -1
  | S k => if negb (Z.land mask x =? 0) then i + 1 else bitsize_from x (Z.shiftr mask 1) (i - 1) k
  end.

Definition hcalc_bitsize (x : Z) : Z := if x =? 0 then 1 else bitsize_from x (Z.shiftl 1 63) 63 64.

(** ** Numbers *)

(** [1 << i] as an [int], the sign bit for [i = 31]. *)
Definition int_bit (i : Z) : option Z := if i <? 32 then Some (s32 (Z.shiftl 1 i)) else None.

(** A failure of [hputbit] is ignored. *)
Definition emit_from (val : Z) (n : Z) (hp : HUFF) : option HUFF :=
  for_ (fun i hp => m ← int_bit i; fst <$> hputbit hp (negb (Z.land val (u64 m) =? 0))) 0 (Z.to_nat n) hp.

(** [val] is a 32-bit number: the high half of the mask does not matter. *)
Definition hemit_bits (hp : HUFF) (val numbits : Z) : option (HUFF * Z) :=
  hp ← emit_from val numbits hp; Some (hp, numbits).

Definition hemit_longbits (hp : HUFF) (val : Z) : option (HUFF * Z) :=
  hp ← emit_from val 64 hp; Some (hp, 64).

(** The value, and the number of bits; a bit behind the end counts as 1. *)
Definition hdecode_bits (hp : HUFF) (numbits : Z) : option (HUFF * Z * Z) :=
  '(hp, val) ← for_ (fun i '(hp, val) =>
      '(hp, bit) ← hgetbit hp;
      if negb (bit =? 0) then m ← int_bit i; Some (hp, Z.lor val (u32 m)) else Some (hp, val))
    0 (Z.to_nat numbits) (hp, 0);
  Some (hp, val, numbits).

(** Two fields, one after the other. *)
Definition emit_tagged (hp : HUFF) (tag taglen val len : Z) : option (HUFF * Z) :=
  '(hp, a) ← hemit_bits hp tag taglen; '(hp, b) ← hemit_bits hp val len; Some (hp, a + b).

Definition hemit_smallbits (hp : HUFF) (val : Z) : option (HUFF * Z) :=
  if 4 <=? val then
    if val <? Z.shiftl 1 5 then emit_tagged hp 4 3 val 5
    else if val <? Z.shiftl 1 8 then emit_tagged hp 5 3 val 8
    else if val <? Z.shiftl 1 12 then emit_tagged hp 6 3 val 12
    else emit_tagged hp 7 3 val 16
  else hemit_bits hp val 3.

Definition hcalc_smallsize (val : Z) : Z :=
  if 4 <=? val then
    if val <? Z.shiftl 1 5 then 8
    else if val <? Z.shiftl 1 8 then 11
    else if val <? Z.shiftl 1 12 then 15 else 19
  else 3.

(** [hgetbit(hp) | (hgetbit(hp) << 1) | ...] with [n] calls, from left to right (C
    leaves the order open); a bit behind the end is -1. *)
Fixpoint get_tag (hp : HUFF) (i : Z) (n : nat) : option (HUFF * Z) :=
  match n with
  | O => Some (hp, 0)
  | S n =>
      '(hp, bit) ← hgetbit hp;
      '(hp, rest) ← get_tag hp (i + 1) n;
      Some (hp, Z.lor (s32 (Z.shiftl bit i)) rest)
  end.

Definition hdecode_smallbits (hp : HUFF) : option (HUFF * Z * Z) :=
  '(hp, val) ← get_tag hp 0 3;
  if val <? 4 then Some (hp, u16 val, 3)
  else
    '(hp, s, n) ← hdecode_bits hp (if val =? 4 then 5 else if val =? 5 then 8 else if val =? 6 then 12 else 16);
    Some (hp, u16 s, 3 + n).

Definition hemit_varbits (hp : HUFF) (val : Z) : option (HUFF * Z) :=
  if 10 <=? val then
    if val <? Z.shiftl 1 8 then emit_tagged hp 10 4 val 8
    else if val <? Z.shiftl 1 10 then emit_tagged hp 11 4 val 10
    else if val <? Z.shiftl 1 13 then emit_tagged hp 12 4 val 13
    else if val <? Z.shiftl 1 16 then emit_tagged hp 13 4 val 16
    else if val <? Z.shiftl 1 20 then emit_tagged hp 14 4 val 20
    else emit_tagged hp 15 4 val 32
  else hemit_bits hp val 4.

Definition hdecode_varbits (hp : HUFF) : option (HUFF * Z * Z) :=
  '(hp, val) ← get_tag hp 0 4;
  if val <? 10 then Some (hp, u32 val, 4)
  else
    '(hp, s, n) ← hdecode_bits hp (if val =? 10 then 8 else if val =? 11 then 10 else if val =? 12 then 13
                                   else if val =? 13 then 16 else if val =? 14 then 20 else 32);
    Some (hp, s, 4 + n).

(** The first bit is not counted. *)
Definition hemit_svarbits (hp : HUFF) (val : Z) : option (HUFF * Z) :=
  if val <? Z.shiftl 1 16 then '(hp, _) ← hputbit hp false; hemit_smallbits hp (u16 val)
  else '(hp, _) ← hputbit hp true; hemit_varbits hp val.

Definition hdecode_svarbits (hp : HUFF) : option (HUFF * Z * Z) :=
  '(hp, bit) ← hgetbit hp;
  if bit =? 0 then hdecode_smallbits hp else hdecode_varbits hp.

Definition hemit_valuebits (hp : HUFF) (value : Z) : option (HUFF * Z) :=
  '(hp, a) ← hemit_varbits hp (Z.land value 0xffffffff);
  '(hp, b) ← hemit_varbits hp (Z.land (Z.shiftr value 32) 0xffffffff);
  Some (hp, a + b).

Definition hdecode_valuebits (hp : HUFF) : option (HUFF * Z * Z) :=
  '(hp, lo, a) ← hdecode_varbits hp;
  '(hp, hi, b) ← hdecode_varbits hp;
  Some (hp, Z.lor lo (u64 (Z.shiftl hi 32)), a + b).

(** ** Bits of codes *)

Fixpoint reverse_from (x n i rev : Z) (k : nat) : option Z :=
  match k with
  | O => Some rev
  | S k =>
      b ← GETBIT (le_bytes 8 x) 0 (n - 1);
      rev ← (if negb (b =? 0) then le_int <$> SETBIT (le_bytes 8 rev) 0 i else Some rev);
      reverse_from x (n - 1) (i + 1) rev k
  end.

Definition huff_reversebits (x n : Z) : option Z := reverse_from x n 0 0 (Z.to_nat n).

(** A text of zeros and ones, the first character the lowest bit. *)
Fixpoint convstr_from (str : list Z) (mask codebits : Z) (k : nat) : option Z :=
  match k with
  | O => Some codebits
  | S k => c ← aget str (Z.of_nat k);
      convstr_from str (Z.shiftr mask 1) (if negb (c =? 48) then Z.lor codebits mask else codebits) k
  end.

Definition huff_convstr (str : list Z) : option Z :=
  let n := Z.of_nat (length str) in
  if n =? 0 then None else m ← int_bit (n - 1); convstr_from str (u64 m) 0 (length str).

Fixpoint str_from (codebits mask : Z) (k : nat) : list Z :=
  match k with
  | O => []
  | S k => (if Z.land codebits mask =? 0 then 48 else 49) :: str_from codebits (u64 (Z.shiftl mask 1)) k
  end.

(** The text is written to a buffer of 128 characters. *)
Definition huff_str (codebits n : Z) : option (list Z) :=
  if 127 <? n then None else Some (str_from codebits 1 (Z.to_nat n)).

(** ** The stream as a sequence of bits *)

(** Pointer and mask agree with the offset, which is inside what has been written. *)
Record stream_ok (hp : HUFF) : Prop := mk_stream_ok {
  so_ptr : hp_ptr hp = hp_bitoffset hp / 8;
  so_maski : hp_maski hp = hp_bitoffset hp mod 8;
  so_offset : 0 <= hp_bitoffset hp <= hp_endpos hp;
  so_endpos : hp_endpos hp <= 8 * hp_allocsize hp;
  so_buf : Z.of_nat (length (hp_buf hp)) = hp_allocsize hp;
  so_size : 8 * hp_allocsize hp < 2 ^ 32;
  so_bytes : bytes (hp_buf hp);
}.

(** [bs] written at the offset, the rest of the buffer unchanged. *)
Record written (hp : HUFF) (bs : list bool) (hp' : HUFF) : Prop := mk_written {
  wr_ok : stream_ok hp';
  wr_pos : 0 <= hp_bitoffset hp;
  wr_offset : hp_bitoffset hp' = hp_bitoffset hp + Z.of_nat (length bs);
  wr_endpos : hp_endpos hp' = Z.max (hp_endpos hp) (hp_bitoffset hp');
  wr_size : hp_allocsize hp' = hp_allocsize hp;
  wr_in : forall k b, bs !! k = Some b -> abit (hp_buf hp') (hp_bitoffset hp + Z.of_nat k) = b;
  wr_out : forall i, 0 <= i -> i < hp_bitoffset hp \/ hp_bitoffset hp' <= i -> abit (hp_buf hp') i = abit (hp_buf hp) i;
}.

(** [bs] are the next bits of the stream. *)
Definition holds (hp : HUFF) (bs : list bool) : Prop :=
  hp_bitoffset hp + Z.of_nat (length bs) <= hp_endpos hp /\
  forall k b, bs !! k = Some b -> abit (hp_buf hp) (hp_bitoffset hp + Z.of_nat k) = b.

(** [n] bits further on. *)
Definition advance (hp : HUFF) (n : Z) : HUFF :=
  hp <| hp_ptr := (hp_bitoffset hp + n) / 8 |> <| hp_maski := (hp_bitoffset hp + n) mod 8 |>
     <| hp_bitoffset := hp_bitoffset hp + n |>.

Definition mask_chk : bool :=
  forallb (fun j => bool_decide (aget huffmasks j = Some (2 ^ j)) && bool_decide (aget huffoppomasks j = Some (255 - 2 ^ j)) &&
    forallb (fun i => eqb (Z.testbit (2 ^ j) i) (i =? j) && eqb (Z.testbit (255 - 2 ^ j) i) (negb (i =? j)))
      (Z.of_nat <$> seq 0 8)) (Z.of_nat <$> seq 0 8).

Lemma mask_chk_ok : mask_chk = true.
Proof. compute_true. Qed.

Lemma below8 j : 0 <= j < 8 -> In j (Z.of_nat <$> seq 0 8).
Proof. intros Hj. apply list_elem_of_In, list_elem_of_fmap. exists (Z.to_nat j). split; [lia|]. apply elem_of_seq. lia. Qed.

Lemma huffmask_ok j : 0 <= j < 8 -> aget huffmasks j = Some (2 ^ j) /\ aget huffoppomasks j = Some (255 - 2 ^ j) /\
  forall i, 0 <= i < 8 -> Z.testbit (2 ^ j) i = (i =? j) /\ Z.testbit (255 - 2 ^ j) i = negb (i =? j).
Proof.
  intros Hj. pose proof mask_chk_ok as H. unfold mask_chk in H. rewrite forallb_forall in H.
  specialize (H j (below8 j Hj)). apply andb_true_iff in H as [[H1 H2]%andb_true_iff H3].
  apply bool_decide_eq_true in H1, H2. split; [done|]. split; [done|]. intros i Hi. rewrite forallb_forall in H3.
  specialize (H3 i (below8 i Hi)). apply andb_true_iff in H3 as [H3 H4]. by apply eqb_prop in H3, H4.
Qed.

(** Setting or clearing a bit of a byte. *)
Lemma put_bit_byte b j (v : bool) : is_byte b -> 0 <= j < 8 ->
  let b' := if v then Z.lor b (2 ^ j) else Z.land b (255 - 2 ^ j) in
  is_byte b' /\ forall i, 0 <= i < 8 -> Z.testbit b' i = if i =? j then v else Z.testbit b i.
Proof.
  intros Hb Hj b'. destruct (huffmask_ok j Hj) as (_ & _ & Hm). split.
  - assert (0 <= 2 ^ j < 256) as Hp.
    { split; [apply Z.pow_nonneg; lia|]. change 256 with (2 ^ 8). apply Z.pow_lt_mono_r; lia. }
    apply byte_of_bits; unfold is_byte in Hb.
    + destruct v; subst b'; [apply Z.lor_nonneg|apply Z.land_nonneg]; lia.
    + intros i Hi. subst b'. destruct v; rewrite ?Z.lor_spec, ?Z.land_spec, !(byte_testbit_high _ i) by (unfold is_byte; lia); done.
  - intros i Hi. destruct (Hm i Hi) as [H1 H2]. subst b'. destruct v; rewrite ?Z.lor_spec, ?Z.land_spec, ?H1, ?H2;
      destruct (i =? j); by rewrite ?orb_true_r, ?orb_false_r, ?andb_false_r, ?andb_true_r.
Qed.

Lemma u32_id x : 0 <= x < 2 ^ 32 -> u32 x = x.
Proof. apply wrapU_small. Qed.

Lemma div8_step x : 0 <= x -> (x mod 8 = 7 -> (x + 1) / 8 = x / 8 + 1 /\ (x + 1) mod 8 = 0) /\
  (x mod 8 <> 7 -> (x + 1) / 8 = x / 8 /\ (x + 1) mod 8 = x mod 8 + 1).
Proof. intros Hx. Z.div_mod_to_equations. lia. Qed.

Lemma abit_insert l i b k : 0 <= k -> 0 <= i < Z.of_nat (length l) ->
  abit (<[Z.to_nat i := b]> l) k = if k / 8 =? i then Z.testbit b (k mod 8) else abit l k.
Proof.
  intros Hk Hi. unfold abit. assert (0 <= k / 8) by (apply Z.div_pos; lia). rewrite !nth_lookup.
  destruct (Z.eqb_spec (k / 8) i) as [->|Hne].
  - by rewrite list_lookup_insert_eq by lia.
  - by rewrite list_lookup_insert_ne by lia.
Qed.

(** ** Writing a bit *)

Lemma HUFF_eq a b : hp_buf a = hp_buf b -> hp_ptr a = hp_ptr b -> hp_bitoffset a = hp_bitoffset b ->
  hp_maski a = hp_maski b -> hp_endpos a = hp_endpos b -> hp_allocsize a = hp_allocsize b -> a = b.
Proof. destruct a, b. cbn. by intros -> -> -> -> -> ->. Qed.

(** What [hputbit] does once the byte is changed. *)
Definition put_next (hp : HUFF) (buf : list Z) : option (HUFF * Z) :=
  let hp := hp <| hp_buf := buf |> <| hp_maski := hp_maski hp + 1 |> in
  let hp := if 8 <=? hp_maski hp then hp <| hp_maski := 0 |> <| hp_ptr := hp_ptr hp + 1 |> else hp in
  let hp := hp <| hp_bitoffset := u32 (hp_bitoffset hp + 1) |> in
  let hp := if hp_endpos hp <? hp_bitoffset hp then hp <| hp_endpos := hp_bitoffset hp |> else hp in
  if hp_allocsize hp <=? Z.shiftr (hp_bitoffset hp) 3 then
    Some ((hupdate_internals (hp <| hp_bitoffset := u32 (hp_bitoffset hp - 1) |>)).1, -1)
  else Some (hp, 0).

Lemma hputbit_spec hp v : stream_ok hp -> hp_bitoffset hp + 1 < 8 * hp_allocsize hp ->
  exists hp', hputbit hp v = Some (hp', 0) /\ written hp [v] hp'.
Proof.
  intros [] Hroom. pose proof (Z.div_mod (hp_bitoffset hp) 8 ltac:(lia)).
  pose proof (Z.mod_pos_bound (hp_bitoffset hp) 8 ltac:(lia)).
  set (p := hp_bitoffset hp) in *.
  destruct (aget_is_Some (hp_buf hp) (p / 8)) as (b & Hb & Eb); [lia|].
  destruct (huffmask_ok (p mod 8)) as (M1 & M2 & _); [lia|].
  assert (is_byte b) as Hbyte by (unfold bytes in so_bytes0; rewrite list.Forall_forall in so_bytes0; apply so_bytes0; by eapply list_elem_of_lookup_2).
  destruct (put_bit_byte b (p mod 8) v Hbyte) as [Hb' Hbits]; [lia|].
  set (b' := if v then Z.lor b (2 ^ (p mod 8)) else Z.land b (255 - 2 ^ (p mod 8))) in *.
  set (buf := <[Z.to_nat (p / 8) := b']> (hp_buf hp)).
  assert (hputbit hp v = put_next hp buf) as E.
  { rewrite <- so_maski0 in M1 at 1. rewrite <- so_maski0 in M2 at 1. rewrite <- so_ptr0 in Eb.
    assert (forall y, aset (hp_buf hp) (hp_ptr hp) y = Some (<[Z.to_nat (p / 8) := y]> (hp_buf hp))) as Es
      by (intros y; rewrite so_ptr0; by rewrite aset_in_range by lia).
    unfold hputbit. rewrite Eb, M1, M2. by destruct v; cbn [mbind option_bind]; rewrite Es. }
  destruct (div8_step p) as [D1 D2]; [lia|].
  exists (hp <| hp_buf := buf |> <| hp_ptr := (p + 1) / 8 |> <| hp_maski := (p + 1) mod 8 |>
    <| hp_bitoffset := p + 1 |> <| hp_endpos := Z.max (hp_endpos hp) (p + 1) |>). split.
  - rewrite E.
    unfold put_next. cbn [hp_maski hp_bitoffset hp_endpos hp_ptr hp_allocsize upd]. cbn. rewrite so_ptr0, so_maski0. fold p.
    assert (u32 (p + 1) = p + 1) as Eu by (apply u32_id; lia).
    assert ((p + 1) / 8 < hp_allocsize hp) as Hlt by (apply Z.div_lt_upper_bound; lia).
    destruct (Z.leb_spec 8 (p mod 8 + 1)); cbn; fold p; rewrite Eu;
      destruct (Z.ltb_spec (hp_endpos hp) (p + 1)); cbn; rewrite ?Eu, shiftr_3;
      destruct (Z.leb_spec (hp_allocsize hp) ((p + 1) / 8)); try lia; cbn.
    all: do 2 f_equal; apply HUFF_eq; cbn; done || lia.
  - split; cbn; try done; try lia.
    + split; cbn; try done; try lia.
      * unfold buf. by rewrite length_insert.
      * unfold buf. by apply Forall_insert.
    + intros k b0 Hk. apply list_lookup_singleton_Some in Hk as [-> <-]. fold p. rewrite Z.add_0_r. unfold buf.
      rewrite abit_insert, Z.eqb_refl, Hbits, Z.eqb_refl by lia. done.
    + fold p. intros i Hi Hne. unfold buf. rewrite abit_insert by lia. destruct (Z.eqb_spec (i / 8) (p / 8)) as [Eq|]; [|done].
      pose proof (Z.div_mod i 8 ltac:(lia)). rewrite Hbits by (apply Z.mod_pos_bound; lia).
      destruct (Z.eqb_spec (i mod 8) (p mod 8)); [lia|]. unfold abit. rewrite Eq.
      by rewrite nth_lookup, Hb.
Qed.

(** ** Reading a bit *)

Lemma advance_ok hp n : stream_ok hp -> 0 <= n -> hp_bitoffset hp + n <= hp_endpos hp -> stream_ok (advance hp n).
Proof. intros [] Hn He. split; cbn; try done; lia. Qed.

Lemma advance_advance hp n m : advance (advance hp n) m = advance hp (n + m).
Proof. unfold advance. apply HUFF_eq; cbn; try done; rewrite ?Z.add_assoc; done. Qed.

Lemma advance_0 hp : stream_ok hp -> advance hp 0 = hp.
Proof. intros []. apply HUFF_eq; cbn; rewrite ?Z.add_0_r; done. Qed.

Lemma hgetbit_spec hp v bs : stream_ok hp -> holds hp (v :: bs) ->
  hgetbit hp = Some (advance hp 1, if v then 1 else 0).
Proof.
  intros [] [He Hb]. cbn [length] in He. pose proof (Z.div_mod (hp_bitoffset hp) 8 ltac:(lia)).
  pose proof (Z.mod_pos_bound (hp_bitoffset hp) 8 ltac:(lia)). specialize (Hb 0%nat v eq_refl). rewrite Z.add_0_r in Hb.
  set (p := hp_bitoffset hp) in *. destruct (huffmask_ok (p mod 8)) as (M1 & _ & _); [lia|].
  destruct (aget_is_Some (hp_buf hp) (p / 8)) as (b & Hbyte & Eb); [lia|]. unfold hgetbit.
  destruct (Z.ltb_spec (hp_bitoffset hp) (hp_endpos hp)) as [_|]; [|lia].
  rewrite <- so_ptr0 in Eb. rewrite <- so_maski0 in M1 at 1. rewrite Eb, M1. cbn [mbind option_bind].
  assert ((if Z.land b (2 ^ (p mod 8)) =? 0 then 0 else 1) = (if v then 1 else 0)) as ->.
  { rewrite <- Z.shiftl_1_l, land_bit_0 by lia. rewrite <- Hb. unfold abit. rewrite nth_lookup, Hbyte. cbn [default from_option id].
    by destruct (Z.testbit b (p mod 8)). }
  assert (u32 (p + 1) = p + 1) as Eu by (apply u32_id; lia). destruct (div8_step p) as [D1 D2]; [lia|].
  do 2 f_equal. unfold advance. cbn. rewrite so_ptr0, so_maski0. fold p.
  destruct (Z.eqb_spec (p mod 8 + 1) 8); apply HUFF_eq; cbn; rewrite ?so_ptr0; fold p; (done || lia).
Qed.

(** The end of what has been written. *)
Lemma hgetbit_end hp : hp_endpos hp <= hp_bitoffset hp -> hgetbit hp = Some (hp, -1).
Proof. intros H. unfold hgetbit. by destruct (Z.ltb_spec (hp_bitoffset hp) (hp_endpos hp)); [lia|]. Qed.

Lemma holds_app hp a b : holds hp (a ++ b) <-> holds hp a /\ holds (advance hp (Z.of_nat (length a))) b.
Proof.
  unfold holds. cbn. rewrite length_app. split.
  - intros [He Hb]. split; split; try lia.
    + intros k v Hk. apply Hb. by rewrite lookup_app_l by (by eapply lookup_lt_Some).
    + intros k v Hk. rewrite <- Z.add_assoc, <- Nat2Z.inj_add. apply Hb. rewrite lookup_app_r by lia.
      by replace (length a + k - length a)%nat with k by lia.
  - intros [[He1 H1] [He2 H2]]. split; [lia|]. intros k v Hk. destruct (decide (k < length a)%nat).
    + rewrite lookup_app_l in Hk by done. by apply H1.
    + rewrite lookup_app_r in Hk by lia. specialize (H2 _ _ Hk). by replace (hp_bitoffset hp + Z.of_nat k)
        with (hp_bitoffset hp + Z.of_nat (length a) + Z.of_nat (k - length a)) by lia.
Qed.

(** ** Sequences of bits *)

Lemma written_nil hp : stream_ok hp -> written hp [] hp.
Proof. intros Hok. pose proof Hok as []. split; [done|lia|cbn; lia|lia|done|intros k b Hk; by rewrite lookup_nil in Hk|done]. Qed.

Lemma written_app hp a h1 b h2 : written hp a h1 -> written h1 b h2 -> written hp (a ++ b) h2.
Proof.
  intros [] []. pose proof wr_ok0 as []. split; rewrite ?length_app; try done; try lia; try congruence.
  - intros k v Hk. destruct (decide (k < length a)%nat).
    + rewrite lookup_app_l in Hk by done. rewrite wr_out1 by lia. by apply wr_in0.
    + rewrite lookup_app_r in Hk by lia. apply wr_in1 in Hk. rewrite wr_offset0 in Hk.
      by replace (hp_bitoffset hp + Z.of_nat k) with (hp_bitoffset hp + Z.of_nat (length a) + Z.of_nat (k - length a)) by lia.
  - intros i Hi Hout. rewrite wr_out1, wr_out0 by lia. done.
Qed.

(** What was written from an offset on is what is read there. *)
Lemma written_holds hp bs hp' : written hp bs hp' -> stream_ok hp ->
  holds (advance hp' (- Z.of_nat (length bs))) bs /\ stream_ok (advance hp' (- Z.of_nat (length bs))) /\
  advance (advance hp' (- Z.of_nat (length bs))) (Z.of_nat (length bs)) = hp'.
Proof.
  intros [] []. pose proof wr_ok0 as []. split; [split; cbn; [lia|]|split].
  - intros k v Hk. rewrite wr_offset0. replace (hp_bitoffset hp + Z.of_nat (length bs) + - Z.of_nat (length bs)) with (hp_bitoffset hp) by lia.
    by apply wr_in0.
  - split; cbn; try done; lia.
  - rewrite advance_advance. replace (- Z.of_nat (length bs) + Z.of_nat (length bs)) with 0 by lia. by apply advance_0.
Qed.

(** The low [n] bits of a number. *)
Definition bits_of (val n : Z) : list bool := (fun i => Z.testbit val (Z.of_nat i)) <$> seq 0 (Z.to_nat n).

Lemma bits_of_length val n : length (bits_of val n) = Z.to_nat n.
Proof. unfold bits_of. by rewrite length_fmap, length_seq. Qed.

Lemma bits_of_succ val k : 0 <= k -> bits_of val (k + 1) = bits_of val k ++ [Z.testbit val k].
Proof.
  intros Hk. unfold bits_of. replace (Z.to_nat (k + 1)) with (S (Z.to_nat k)) by lia.
  rewrite seq_S, fmap_app. cbn. by rewrite Z2Nat.id by lia.
Qed.

Lemma int_bit_spec i : 0 <= i < 32 -> exists m, int_bit i = Some m /\ u32 m = Z.shiftl 1 i /\
  forall val, 0 <= val < 2 ^ 32 -> negb (Z.land val (u64 m) =? 0) = Z.testbit val i.
Proof.
  intros Hi. unfold int_bit. destruct (Z.ltb_spec i 32); [|lia]. eexists. split; [reflexivity|].
  destruct (decide (i = 31)) as [->|Hne].
  - split; [done|]. intros val Hv. change (u64 (s32 (Z.shiftl 1 31))) with (Z.shiftl (Z.ones 33) 31).
    rewrite <- (negb_involutive (Z.testbit val 31)), <- land_bit_0 by lia. do 2 f_equal.
    apply Z.bits_inj'. intros n Hn. rewrite !Z.land_spec, !Z.shiftl_spec by lia.
    destruct (decide (n < 31)); [by rewrite !(Z.testbit_neg_r _ (n - 31)) by lia|].
    rewrite Z.testbit_ones by lia. destruct (decide (n = 31)) as [->|]; [done|].
    replace (Z.testbit val n) with false; [by rewrite !andb_false_l|].
    rewrite <- (Z.mod_small val (2 ^ 32)) by lia. by rewrite Z.mod_pow2_bits_high by lia.
  - assert (0 <= Z.shiftl 1 i < 2 ^ 31) as Hs.
    { rewrite Z.shiftl_1_l. split; [apply Z.pow_nonneg; lia|apply Z.pow_lt_mono_r; lia]. }
    change (2 ^ 31) with 2147483648 in Hs.
    assert (s32 (Z.shiftl 1 i) = Z.shiftl 1 i) as ->.
    { unfold s32, wrapS. change (2 ^ (32 - 1)) with 2147483648. change (2 ^ 32) with 4294967296. rewrite Z.mod_small; lia. }
    split; [apply u32_id; change (2 ^ 32) with 4294967296; lia|]. intros val Hv. rewrite u64_small by lia.
    rewrite land_bit_0 by lia. by rewrite negb_involutive.
Qed.

(** [f] writes [bs] and returns [r], wherever there is room for one bit more. *)
Definition emits (f : HUFF -> option (HUFF * Z)) (bs : list bool) (r : Z) : Prop :=
  forall hp, stream_ok hp -> hp_bitoffset hp + Z.of_nat (length bs) < 8 * hp_allocsize hp ->
    exists hp', f hp = Some (hp', r) /\ written hp bs hp'.

(** [f] reads the value [v] from [bs], of [r] bits. *)
Definition reads (f : HUFF -> option (HUFF * Z * Z)) (bs : list bool) (v r : Z) : Prop :=
  forall hp, stream_ok hp -> holds hp bs -> f hp = Some (advance hp (Z.of_nat (length bs)), v, r).

Lemma emits_app f g a b r s t : emits f a r -> emits g b s -> t = r + s ->
  emits (fun hp => '(hp, x) ← f hp; '(hp, y) ← g hp; Some (hp, x + y)) (a ++ b) t.
Proof.
  intros Hf Hg -> hp Hok Hroom. rewrite length_app in Hroom.
  destruct (Hf hp Hok) as (h1 & -> & W1); [lia|]. pose proof W1 as []. cbn [mbind option_bind].
  destruct (Hg h1 wr_ok0) as (h2 & -> & W2); [rewrite wr_offset0, wr_size0; lia|]. cbn [mbind option_bind].
  exists h2. split; [done|]. by eapply written_app.
Qed.

Lemma hemit_bits_spec val n : 0 <= val < 2 ^ 32 -> 0 <= n <= 32 -> emits (fun hp => hemit_bits hp val n) (bits_of val n) n.
Proof.
  intros Hv Hn hp Hok Hroom. rewrite bits_of_length in Hroom. unfold hemit_bits, emit_from.
  match goal with |- context [for_ ?f _ _ _] =>
  destruct (for_inv (fun i h => written hp (bits_of val i) h) f (Z.to_nat n) 0 hp) as (hp' & -> & W) end.
  - by apply written_nil.
  - intros i h Hi W. destruct (int_bit_spec i) as (m & -> & _ & Hm); [lia|]. cbn [mbind option_bind]. rewrite Hm by done.
    pose proof W as []. rewrite bits_of_length in wr_offset0.
    destruct (hputbit_spec h (Z.testbit val i)) as (h' & -> & W'); [done|lia|].
    exists h'. split; [done|]. rewrite bits_of_succ by lia. by eapply written_app.
  - exists hp'. split; [done|]. by rewrite Z.add_0_l, Z2Nat.id in W by lia.
Qed.

Lemma lor_bit_mod val i (v : bool) : 0 <= i -> v = Z.testbit val i ->
  (if v then Z.lor (val mod 2 ^ i) (Z.shiftl 1 i) else val mod 2 ^ i) = val mod 2 ^ (i + 1).
Proof.
  intros Hi ->. apply Z.bits_inj'. intros n Hn. destruct (Z.ltb_spec n (i + 1)).
  - rewrite (Z.mod_pow2_bits_low _ (i + 1)) by lia. destruct (decide (n = i)) as [->|].
    + destruct (Z.testbit val i) eqn:E.
      * rewrite Z.lor_spec, Z.shiftl_1_l, Z.pow2_bits_true by lia. by rewrite orb_true_r.
      * by rewrite Z.mod_pow2_bits_high by lia.
    + destruct (Z.testbit val i).
      * rewrite Z.lor_spec, Z.shiftl_1_l, Z.pow2_bits_false, orb_false_r by lia. by rewrite Z.mod_pow2_bits_low by lia.
      * by rewrite Z.mod_pow2_bits_low by lia.
  - rewrite (Z.mod_pow2_bits_high _ (i + 1)) by lia. destruct (Z.testbit val i).
    + rewrite Z.lor_spec, Z.shiftl_1_l, Z.pow2_bits_false, Z.mod_pow2_bits_high by lia. done.
    + by rewrite Z.mod_pow2_bits_high by lia.
Qed.

Lemma bits_of_split val i n : 0 <= i < n -> bits_of val n =
  bits_of val i ++ Z.testbit val i :: ((fun j => Z.testbit val (Z.of_nat j)) <$> seq (S (Z.to_nat i)) (Z.to_nat (n - i - 1))).
Proof.
  intros Hi. unfold bits_of. replace (Z.to_nat n) with (Z.to_nat i + S (Z.to_nat (n - i - 1)))%nat by lia.
  rewrite seq_app, fmap_app. cbn. by rewrite Z2Nat.id by lia.
Qed.

Lemma holds_bit hp val i n : holds hp (bits_of val n) -> 0 <= i < n ->
  holds (advance hp i) (Z.testbit val i :: ((fun j => Z.testbit val (Z.of_nat j)) <$> seq (S (Z.to_nat i)) (Z.to_nat (n - i - 1)))).
Proof.
  intros Hh Hi. rewrite (bits_of_split val i n Hi) in Hh. apply holds_app in Hh as [_ Hh].
  by rewrite bits_of_length, Z2Nat.id in Hh by lia.
Qed.

Lemma hdecode_bits_spec val n : 0 <= n <= 32 ->
  reads (fun hp => hdecode_bits hp n) (bits_of val n) (val mod 2 ^ n) n.
Proof.
  intros Hn hp Hok Hh. unfold hdecode_bits.
  match goal with |- context [for_ ?f _ _ _] =>
  destruct (for_inv (fun i '(h, v) => h = advance hp i /\ v = val mod 2 ^ i) f (Z.to_nat n) 0 (hp, 0))
    as ([h v] & -> & -> & ->) end.
  - split; [by rewrite advance_0|by rewrite Z.mod_1_r].
  - intros i [h v] Hi [-> ->]. pose proof (holds_bit hp val i n Hh ltac:(lia)) as Hb.
    pose proof Hh as [He _]. rewrite bits_of_length in He.
    rewrite (hgetbit_spec _ _ _ (advance_ok hp i Hok ltac:(lia) ltac:(lia)) Hb). cbn [mbind option_bind].
    rewrite advance_advance. pose proof (lor_bit_mod val i _ ltac:(lia) eq_refl) as Hl.
    destruct (Z.testbit val i); cbn [negb Z.eqb].
    + destruct (int_bit_spec i) as (m & -> & Em & _); [lia|]. cbn [mbind option_bind]. rewrite Em.
      eexists. split; [reflexivity|done].
    + eexists. split; [reflexivity|done].
  - cbn [mbind option_bind]. by rewrite Z.add_0_l, bits_of_length, Z2Nat.id by lia.
Qed.

(** ** The codes of numbers *)

Definition small_code (val : Z) : list bool :=
  if val <? 4 then bits_of val 3
  else if val <? 32 then bits_of 4 3 ++ bits_of val 5
  else if val <? 256 then bits_of 5 3 ++ bits_of val 8
  else if val <? 4096 then bits_of 6 3 ++ bits_of val 12
  else bits_of 7 3 ++ bits_of val 16.

Definition var_code (val : Z) : list bool :=
  if val <? 10 then bits_of val 4
  else if val <? 256 then bits_of 10 4 ++ bits_of val 8
  else if val <? 1024 then bits_of 11 4 ++ bits_of val 10
  else if val <? 8192 then bits_of 12 4 ++ bits_of val 13
  else if val <? 65536 then bits_of 13 4 ++ bits_of val 16
  else if val <? 1048576 then bits_of 14 4 ++ bits_of val 20
  else bits_of 15 4 ++ bits_of val 32.

Definition svar_code (val : Z) : list bool :=
  if val <? 65536 then false :: small_code val else true :: var_code val.

Definition value_code (val : Z) : list bool := var_code (val mod 2 ^ 32) ++ var_code (val / 2 ^ 32).

Definition blen (bs : list bool) : Z := Z.of_nat (length bs).

Lemma emit_tagged_spec tag taglen val len : 0 <= tag < 2 ^ 32 -> 0 <= taglen <= 32 -> 0 <= val < 2 ^ 32 -> 0 <= len <= 32 ->
  emits (fun hp => emit_tagged hp tag taglen val len) (bits_of tag taglen ++ bits_of val len) (taglen + len).
Proof. intros. by eapply emits_app; [apply hemit_bits_spec|apply hemit_bits_spec|]. Qed.

Lemma hemit_smallbits_spec val : 0 <= val < 2 ^ 16 ->
  emits (fun hp => hemit_smallbits hp val) (small_code val) (hcalc_smallsize val).
Proof.
  change (2 ^ 16) with 65536. intros Hv. unfold hemit_smallbits, small_code, hcalc_smallsize.
  change (Z.shiftl 1 5) with 32. change (Z.shiftl 1 8) with 256. change (Z.shiftl 1 12) with 4096.
  case_cmp; try lia; first [apply emit_tagged_spec|apply hemit_bits_spec]; lia.
Qed.

Lemma hemit_varbits_spec val : 0 <= val < 2 ^ 32 -> emits (fun hp => hemit_varbits hp val) (var_code val) (blen (var_code val)).
Proof.
  change (2 ^ 32) with 4294967296. intros Hv. unfold hemit_varbits, var_code, blen.
  change (Z.shiftl 1 8) with 256. change (Z.shiftl 1 10) with 1024. change (Z.shiftl 1 13) with 8192.
  change (Z.shiftl 1 16) with 65536. change (Z.shiftl 1 20) with 1048576.
  case_cmp; try lia; rewrite ?length_app, !bits_of_length; first [apply emit_tagged_spec|apply hemit_bits_spec]; lia.
Qed.

Lemma tag_bits val i k : 0 <= i -> i < 30 ->
  Z.lor (s32 (Z.shiftl (if Z.testbit val i then 1 else 0) i)) (Z.shiftl (Z.shiftr val (i + 1) mod 2 ^ Z.of_nat k) (i + 1)) =
  Z.shiftl (Z.shiftr val i mod 2 ^ Z.of_nat (S k)) i.
Proof.
  intros Hi Hi'. assert (0 <= Z.shiftl 1 i < 2 ^ 30) as Hs.
  { rewrite Z.shiftl_1_l. split; [apply Z.pow_nonneg; lia|apply Z.pow_lt_mono_r; lia]. }
  change (2 ^ 30) with 1073741824 in Hs.
  assert (s32 (Z.shiftl (if Z.testbit val i then 1 else 0) i) = Z.shiftl (if Z.testbit val i then 1 else 0) i) as ->.
  { unfold s32, wrapS. change (2 ^ (32 - 1)) with 2147483648. change (2 ^ 32) with 4294967296.
    destruct (Z.testbit val i); [rewrite Z.mod_small; lia|by rewrite Z.shiftl_0_l]. }
  apply Z.bits_inj'. intros n Hn. rewrite Z.lor_spec, !Z.shiftl_spec by lia.
  destruct (Z.ltb_spec n i) as [|Hge]; [by rewrite !(Z.testbit_neg_r _ (n - i)), !(Z.testbit_neg_r _ (n - (i + 1))) by lia|].
  destruct (decide (n = i)) as [->|Hne].
  - rewrite Z.sub_diag, (Z.testbit_neg_r _ (i - (i + 1))), orb_false_r by lia.
    rewrite Z.mod_pow2_bits_low, Z.shiftr_spec, Z.add_0_l by lia. by destruct (Z.testbit val i).
  - replace (Z.testbit (if Z.testbit val i then 1 else 0) (n - i)) with false.
    2:{ destruct (Z.testbit val i); [|by rewrite Z.bits_0]. change 1 with (2 ^ 0). by rewrite Z.pow2_bits_false by lia. }
    rewrite orb_false_l. destruct (Z.ltb_spec (n - i) (Z.of_nat (S k))).
    + rewrite !Z.mod_pow2_bits_low, !Z.shiftr_spec by lia. f_equal. lia.
    + by rewrite !Z.mod_pow2_bits_high by lia.
Qed.

(** Reading a tag of [n] bits. *)
Lemma get_tag_spec val n : 0 <= val -> forall k i hp, n = Z.of_nat k + i -> 0 <= i -> n <= 30 -> stream_ok hp ->
  holds hp ((fun j => Z.testbit val (Z.of_nat j)) <$> seq (Z.to_nat i) k) ->
  get_tag hp i k = Some (advance hp (Z.of_nat k), Z.shiftl (Z.shiftr val i mod 2 ^ Z.of_nat k) i).
Proof.
  intros Hv. induction k as [|k IH]; intros i hp Hk Hi Hn Hok Hh; cbn [get_tag].
  - rewrite advance_0 by done. rewrite Z.mod_1_r, Z.shiftl_0_l. done.
  - cbn [seq fmap list_fmap] in Hh. rewrite Z2Nat.id in Hh by lia. rewrite (hgetbit_spec _ _ _ Hok Hh). cbn [mbind option_bind].
    change (Z.testbit val i :: ((fun j => Z.testbit val (Z.of_nat j)) <$> seq (S (Z.to_nat i)) k)) with
      ([Z.testbit val i] ++ ((fun j => Z.testbit val (Z.of_nat j)) <$> seq (S (Z.to_nat i)) k)) in Hh.
    apply holds_app in Hh as [[He _] Hh]. cbn [length] in He.
    rewrite IH; [|lia|lia|lia|apply advance_ok; [done|lia|lia]|by replace (Z.to_nat (i + 1)) with (S (Z.to_nat i)) by lia].
    cbn [mbind option_bind]. rewrite advance_advance. do 2 f_equal; [f_equal; lia|].
    apply tag_bits; lia.
Qed.

Lemma get_tag_bits val (k : nat) hp : 0 <= val -> (k <= 30)%nat -> stream_ok hp -> holds hp (bits_of val (Z.of_nat k)) ->
  get_tag hp 0 k = Some (advance hp (Z.of_nat k), val mod 2 ^ Z.of_nat k).
Proof.
  intros Hv Hk Hok Hh. rewrite (get_tag_spec val (Z.of_nat k)); [|lia|lia|lia|lia|done|].
  - by rewrite Z.shiftr_0_r, Z.shiftl_0_r.
  - unfold bits_of in Hh. by rewrite Nat2Z.id in Hh.
Qed.

(** A tag, and the field it announces. *)
Lemma tagged_reads t (k : nat) v n hp : 0 <= t < 2 ^ Z.of_nat k -> (k <= 30)%nat -> 0 <= v < 2 ^ n -> 0 <= n <= 32 ->
  stream_ok hp -> holds hp (bits_of t (Z.of_nat k) ++ bits_of v n) ->
  get_tag hp 0 k = Some (advance hp (Z.of_nat k), t) /\
  hdecode_bits (advance hp (Z.of_nat k)) n =
    Some (advance hp (Z.of_nat (length (bits_of t (Z.of_nat k) ++ bits_of v n))), v, n).
Proof.
  intros Ht Hk Hv Hn Hok Hh. apply holds_app in Hh as [H1 H2]. split.
  - rewrite (get_tag_bits t) by (done || lia). by rewrite Z.mod_small.
  - rewrite bits_of_length in H2. rewrite !Nat2Z.id in H2. pose proof H1 as [He _]. rewrite bits_of_length in He.
    rewrite (hdecode_bits_spec v n Hn (advance hp (Z.of_nat k))); [|apply advance_ok; [done|lia|lia]|done].
    rewrite advance_advance, length_app, !bits_of_length, Z.mod_small by done. do 4 f_equal. lia.
Qed.

Ltac side := first [done | lia | split; cbn; lia].

(** A tag [t] of [k] bits and the field of [n] bits it announces. *)
Ltac read_field t k v n hp :=
  let E := fresh "E" in destruct (tagged_reads t k v n hp) as [-> E]; [side..|]; cbn; cbn in E; rewrite E; cbn.

Lemma hdecode_smallbits_spec val : 0 <= val < 2 ^ 16 ->
  reads hdecode_smallbits (small_code val) val (hcalc_smallsize val).
Proof.
  intros Hv hp Hok Hh. assert (u16 val = val) as Eu by by apply wrapU_small. change (2 ^ 16) with 65536 in Hv.
  unfold hdecode_smallbits, small_code, hcalc_smallsize in *. change (Z.shiftl 1 5) with 32.
  change (Z.shiftl 1 8) with 256. change (Z.shiftl 1 12) with 4096.
  destruct (Z.ltb_spec val 4), (Z.leb_spec 4 val); try lia.
  - rewrite (get_tag_bits val 3) by (done || lia). cbn [mbind option_bind]. change (2 ^ Z.of_nat 3) with 8.
    rewrite Z.mod_small by lia. destruct (Z.ltb_spec val 4); [|lia]. by rewrite Eu.
  - repeat match type of Hh with context [if ?a <? ?b then _ else _] => destruct (Z.ltb_spec a b) end; try lia.
    + read_field 4 3%nat val 5 hp. by rewrite Eu.
    + read_field 5 3%nat val 8 hp. by rewrite Eu.
    + read_field 6 3%nat val 12 hp. by rewrite Eu.
    + read_field 7 3%nat val 16 hp. by rewrite Eu.
Qed.

Lemma hdecode_varbits_spec val : 0 <= val < 2 ^ 32 -> reads hdecode_varbits (var_code val) val (blen (var_code val)).
Proof.
  intros Hv hp Hok Hh. assert (u32 val = val) as Eu by by apply wrapU_small. change (2 ^ 32) with 4294967296 in Hv.
  unfold hdecode_varbits, var_code, blen in *.
  destruct (Z.ltb_spec val 10).
  - rewrite (get_tag_bits val 4) by (done || lia). cbn [mbind option_bind]. change (2 ^ Z.of_nat 4) with 16.
    rewrite Z.mod_small by lia. destruct (Z.ltb_spec val 10); [|lia]. by rewrite Eu.
  - repeat match type of Hh with context [if ?a <? ?b then _ else _] => destruct (Z.ltb_spec a b) end; try lia;
      rewrite length_app, !bits_of_length.
    + by read_field 10 4%nat val 8 hp.
    + by read_field 11 4%nat val 10 hp.
    + by read_field 12 4%nat val 13 hp.
    + by read_field 13 4%nat val 16 hp.
    + by read_field 14 4%nat val 20 hp.
    + by read_field 15 4%nat val 32 hp.
Qed.

(** ** Round trip *)

(** A number as its caller writes it: a field of [n] bits, a 16-bit number, a 32-bit
    number in either code, a 64-bit value. *)
Inductive number :=
  | NBits (val n : Z)
  | NSmall (val : Z)
  | NVar (val : Z)
  | NSvar (val : Z)
  | NValue (val : Z).

Definition number_ok (x : number) : Prop :=
  match x with
  | NBits v n => 0 <= n <= 32 /\ 0 <= v < 2 ^ n
  | NSmall v => 0 <= v < 2 ^ 16
  | NVar v | NSvar v => 0 <= v < 2 ^ 32
  | NValue v => 0 <= v < 2 ^ 64
  end.

Definition number_value (x : number) : Z :=
  match x with NBits v _ | NSmall v | NVar v | NSvar v | NValue v => v end.

Definition number_code (x : number) : list bool :=
  match x with
  | NBits v n => bits_of v n
  | NSmall v => small_code v
  | NVar v => var_code v
  | NSvar v => svar_code v
  | NValue v => value_code v
  end.

Definition emit_number (x : number) (hp : HUFF) : option HUFF :=
  fst <$> match x with
  | NBits v n => hemit_bits hp v n
  | NSmall v => hemit_smallbits hp v
  | NVar v => hemit_varbits hp v
  | NSvar v => hemit_svarbits hp v
  | NValue v => hemit_valuebits hp v
  end.

(** Read a number of the same kind. *)
Definition decode_number (x : number) (hp : HUFF) : option (HUFF * Z) :=
  fst <$> match x with
  | NBits _ n => hdecode_bits hp n
  | NSmall _ => hdecode_smallbits hp
  | NVar _ => hdecode_varbits hp
  | NSvar _ => hdecode_svarbits hp
  | NValue _ => hdecode_valuebits hp
  end.

Fixpoint emit_numbers (xs : list number) (hp : HUFF) : option HUFF :=
  match xs with [] => Some hp | x :: xs => hp ← emit_number x hp; emit_numbers xs hp end.

Fixpoint decode_numbers (xs : list number) (hp : HUFF) : option (HUFF * list Z) :=
  match xs with
  | [] => Some (hp, [])
  | x :: xs => '(hp, v) ← decode_number x hp; '(hp, vs) ← decode_numbers xs hp; Some (hp, v :: vs)
  end.

Definition all_code (xs : list number) : list bool := xs ≫= number_code.

Lemma emits_bit v f bs r : emits f bs r -> emits (fun hp => '(hp, _) ← hputbit hp v; f hp) (v :: bs) r.
Proof.
  intros Hf hp Hok Hroom. cbn [length] in Hroom. destruct (hputbit_spec hp v Hok) as (h1 & -> & W); [lia|].
  pose proof W as []. cbn [length] in *. cbn [mbind option_bind]. destruct (Hf h1) as (h2 & -> & W2); [done|lia|].
  exists h2. split; [done|]. change (v :: bs) with ([v] ++ bs). by eapply written_app.
Qed.

Lemma reads_advanced f bs v r hp n : reads f bs v r -> stream_ok hp -> 0 <= n -> holds (advance hp n) bs ->
  f (advance hp n) = Some (advance hp (n + Z.of_nat (length bs)), v, r).
Proof.
  intros Hf Hok Hn Hh. rewrite (Hf (advance hp n)), advance_advance; [done| |done].
  destruct Hh as [He _]. cbn in He. apply advance_ok; [done|done|lia].
Qed.

Lemma low32 v : Z.land v 0xffffffff = v mod 2 ^ 32.
Proof. change 0xffffffff with (Z.ones 32). by rewrite Z.land_ones by lia. Qed.

Lemma emit_number_emits x : number_ok x -> exists f r, emit_number x = (fun hp => fst <$> f hp) /\ emits f (number_code x) r.
Proof.
  intros Hx. destruct x as [v n|v|v|v|v]; cbn [number_ok emit_number number_code] in *.
  - exists (fun hp => hemit_bits hp v n), n. split; [reflexivity|]. destruct Hx as [Hn Hv]. apply hemit_bits_spec; [|done].
    assert (2 ^ n <= 2 ^ 32) by (apply Z.pow_le_mono_r; lia). lia.
  - exists (fun hp => hemit_smallbits hp v). eexists. split; [reflexivity|]. by apply hemit_smallbits_spec.
  - exists (fun hp => hemit_varbits hp v). eexists. split; [reflexivity|]. by apply hemit_varbits_spec.
  - exists (fun hp => hemit_svarbits hp v). unfold emit_number, svar_code, hemit_svarbits. change (Z.shiftl 1 16) with 65536.
    destruct (Z.ltb_spec v 65536); eexists; (split; [reflexivity|]); apply emits_bit.
    + assert (u16 v = v) as -> by (apply wrapU_small; change (2 ^ 16) with 65536; lia).
      apply hemit_smallbits_spec. change (2 ^ 16) with 65536. lia.
    + by apply hemit_varbits_spec.
  - exists (fun hp => hemit_valuebits hp v). eexists. split; [reflexivity|]. unfold value_code, hemit_valuebits.
    rewrite !low32, Z.shiftr_div_pow2 by lia. assert (v / 2 ^ 32 mod 2 ^ 32 = v / 2 ^ 32) as ->.
    { apply Z.mod_small. split; [apply Z.div_pos; lia|]. apply Z.div_lt_upper_bound; lia. }
    eapply emits_app; [apply hemit_varbits_spec, Z.mod_pos_bound; lia|apply hemit_varbits_spec|done].
    split; [apply Z.div_pos; lia|apply Z.div_lt_upper_bound; lia].
Qed.

Lemma emit_number_spec x : number_ok x -> forall hp, stream_ok hp ->
  hp_bitoffset hp + Z.of_nat (length (number_code x)) < 8 * hp_allocsize hp ->
  exists hp', emit_number x hp = Some hp' /\ written hp (number_code x) hp'.
Proof.
  intros Hx hp Hok Hroom. destruct (emit_number_emits x Hx) as (f & r & -> & Hf).
  destruct (Hf hp Hok Hroom) as (hp' & -> & W). by exists hp'.
Qed.

(** The halves of a 64-bit value. *)
Lemma halves v : 0 <= v < 2 ^ 64 -> Z.lor (v mod 2 ^ 32) (u64 (Z.shiftl (v / 2 ^ 32) 32)) = v.
Proof.
  intros Hv. assert (0 <= v / 2 ^ 32 < 2 ^ 32) as Hh by (split; [apply Z.div_pos; lia|apply Z.div_lt_upper_bound; lia]).
  rewrite u64_small by (rewrite Z.shiftl_mul_pow2 by lia; change (2 ^ 32) with 4294967296 in *; change (2 ^ 64) with 18446744073709551616 in *; lia).
  apply Z.bits_inj'. intros n Hn. rewrite Z.lor_spec, Z.shiftl_spec by lia. destruct (Z.ltb_spec n 32).
  - rewrite Z.mod_pow2_bits_low, (Z.testbit_neg_r _ (n - 32)) by lia. by rewrite orb_false_r.
  - rewrite Z.mod_pow2_bits_high, Z.div_pow2_bits by lia. rewrite orb_false_l. f_equal. lia.
Qed.

Lemma decode_number_spec x hp : number_ok x -> stream_ok hp -> holds hp (number_code x) ->
  decode_number x hp = Some (advance hp (Z.of_nat (length (number_code x))), number_value x).
Proof.
  intros Hx Hok Hh. destruct x as [v n|v|v|v|v]; unfold decode_number; cbn [number_ok number_code number_value] in *.
  - destruct Hx as [Hn Hv]. pose proof (hdecode_bits_spec v n Hn hp Hok Hh) as E. cbn beta in E. rewrite E. cbn [fmap option_fmap option_map fst]. by rewrite Z.mod_small.
  - by rewrite (hdecode_smallbits_spec v Hx hp Hok Hh).
  - by rewrite (hdecode_varbits_spec v Hx hp Hok Hh).
  - unfold svar_code, hdecode_svarbits in *.
    assert (forall b f c r, reads f c v r -> holds hp (b :: c) ->
      fst <$> f (advance hp 1) = Some (advance hp (Z.of_nat (length (b :: c))), v)) as Hr.
    { intros b f c r Hf H. change (b :: c) with ([b] ++ c) in H. apply holds_app in H as [_ H].
      rewrite (reads_advanced f c v r hp 1 Hf Hok ltac:(lia) H). cbn [fmap option_fmap option_map fst length].
      do 3 f_equal. lia. }
    destruct (Z.ltb_spec v 65536); rewrite (hgetbit_spec _ _ _ Hok Hh); cbn [mbind option_bind Z.eqb].
    + by eapply (Hr false); [apply hdecode_smallbits_spec; change (2 ^ 16) with 65536; lia|].
    + by eapply (Hr true); [apply hdecode_varbits_spec|].
  - unfold value_code, hdecode_valuebits in *. apply holds_app in Hh as [H1 H2].
    rewrite (hdecode_varbits_spec (v mod 2 ^ 32) ltac:(apply Z.mod_pos_bound; lia) hp Hok H1). cbn [mbind option_bind].
    assert (0 <= v / 2 ^ 32 < 2 ^ 32) as Hhi by (split; [apply Z.div_pos; lia|apply Z.div_lt_upper_bound; lia]).
    rewrite (reads_advanced _ _ _ _ _ _ (hdecode_varbits_spec _ Hhi) Hok (Nat2Z.is_nonneg _) H2). cbn [mbind option_bind fmap option_fmap option_map fst].
    rewrite halves by done. rewrite length_app. do 3 f_equal. lia.
Qed.

Lemma emit_all_spec xs : Forall number_ok xs -> forall hp, stream_ok hp ->
  hp_bitoffset hp + Z.of_nat (length (all_code xs)) < 8 * hp_allocsize hp ->
  exists hp', emit_numbers xs hp = Some hp' /\ written hp (all_code xs) hp'.
Proof.
  induction 1 as [|x xs Hx _ IH]; intros hp Hok Hroom; cbn [emit_numbers].
  - exists hp. split; [done|by apply written_nil].
  - change (all_code (x :: xs)) with (number_code x ++ all_code xs) in *. rewrite length_app in Hroom.
    destruct (emit_number_spec x Hx hp Hok) as (h1 & -> & W1); [lia|]. pose proof W1 as []. cbn [mbind option_bind].
    destruct (IH h1) as (h2 & -> & W2); [done|rewrite wr_offset0, wr_size0; lia|].
    exists h2. split; [done|]. by eapply written_app.
Qed.

Lemma decode_all_spec xs : Forall number_ok xs -> forall hp, stream_ok hp -> holds hp (all_code xs) ->
  decode_numbers xs hp = Some (advance hp (Z.of_nat (length (all_code xs))), number_value <$> xs).
Proof.
  induction 1 as [|x xs Hx _ IH]; intros hp Hok Hh; cbn [decode_numbers].
  - cbn. by rewrite advance_0.
  - change (all_code (x :: xs)) with (number_code x ++ all_code xs) in *. apply holds_app in Hh as [H1 H2].
    rewrite (decode_number_spec x hp Hx Hok H1). cbn [mbind option_bind]. pose proof H1 as [He _].
    rewrite IH; [|apply advance_ok; [done|lia|lia]|done]. cbn [mbind option_bind].
    rewrite advance_advance, length_app. do 3 f_equal. lia.
Qed.

(** Seeking to a place inside what has been written. *)
Lemma hseek_spec hp p : stream_ok hp -> 0 <= p <= hp_endpos hp -> hseek hp p SEEK_SET = (advance hp (p - hp_bitoffset hp), 0).
Proof.
  intros [] Hp. unfold hseek, hupdate_internals. rewrite u32_id by lia. cbn. rewrite shiftr_3.
  assert (p / 8 <= hp_allocsize hp) by (apply Z.div_le_upper_bound; lia).
  destruct (Z.ltb_spec (hp_allocsize hp) (p / 8)); [lia|]. cbn.
  destruct (Z.ltb_spec (hp_endpos hp) p); [lia|]. cbn. f_equal.
  apply HUFF_eq; cbn; rewrite ?shiftr_3, ?Zplus_minus; try done.
  change 7 with (Z.ones 3). by rewrite Z.land_ones by lia.
Qed.

(** C32: Numbers of every kind written one after the other - plain fields, small
    numbers, 32-bit numbers in both variable-length codes, 64-bit values - are read
    back in the same order after seeking to where they start, the stream ending
    where the writer left it, and nothing else in the buffer has changed; the code
    of the numbers has to leave one bit of the buffer free. *)
Theorem numbers_roundtrip xs hp : stream_ok hp -> Forall number_ok xs ->
  hp_bitoffset hp + Z.of_nat (length (all_code xs)) < 8 * hp_allocsize hp ->
  exists hp1 hp2, emit_numbers xs hp = Some hp1 /\ written hp (all_code xs) hp1 /\
    hseek hp1 (hp_bitoffset hp) SEEK_SET = (hp2, 0) /\ decode_numbers xs hp2 = Some (hp1, number_value <$> xs).
Proof.
  intros Hok Hxs Hroom. destruct (emit_all_spec xs Hxs hp Hok Hroom) as (hp1 & E & W).
  destruct (written_holds _ _ _ W Hok) as (Hh & Hok2 & Eadv). pose proof W as [].
  exists hp1, (advance hp1 (- Z.of_nat (length (all_code xs)))). split; [done|]. split; [done|]. split.
  - rewrite hseek_spec; [|done|lia]. do 2 f_equal. lia.
  - rewrite decode_all_spec by done. by rewrite Eadv.
Qed.

Definition empty_stream : HUFF := mk_HUFF (repeat 0 32) 0 0 0 0 32.

Definition some_numbers : list number :=
  [NBits 5 3; NSmall 3; NSmall 300; NVar 9; NVar 70000; NSvar 17; NSvar 100000; NValue (2 ^ 40 + 12)].

Example empty_stream_ok : stream_ok empty_stream.
Proof. by split; cbn; try lia; concrete. Qed.

Example numbers_roundtrip_witness : exists hp1 hp2, emit_numbers some_numbers empty_stream = Some hp1 /\
    written empty_stream (all_code some_numbers) hp1 /\
    hseek hp1 (hp_bitoffset empty_stream) SEEK_SET = (hp2, 0) /\
    decode_numbers some_numbers hp2 = Some (hp1, [5; 3; 300; 9; 70000; 17; 100000; 2 ^ 40 + 12]).
Proof.
  apply (numbers_roundtrip some_numbers empty_stream); [apply empty_stream_ok| |by vm_compute].
  repeat constructor; cbn; lia.
Defined.
