(* ===== verification/Ramcoder.v ===== *)
(** * Ramcoder: the adaptive arithmetic coder

    Models [plugins/utils/ramcoder.c] over the bit stream of [Stream].  Encoder and
    decoder keep a 16-bit interval and a table of cumulative frequencies of the 256
    bytes and an end symbol, seeded with 64 bits and updated after every symbol.
    [None] is an access outside an array, a division by zero, or a loop that has
    used its fuel, of which [putbits_runs] and [getbits_runs] show enough. *)

From Stdlib Require Import Zbitwise.
From S2P Require Import Prelude Bits Stream.

(** ** The coder *)

Definition RAMMASK_BIT (x : Z) : Z := u16 (Z.shiftl 1 (8 * 2 - (1 + x))).
Definition RAMCODER_MAXSYMBOLS : Z := 256.

(** [struct ramcoder] *)
Record ramcoder := mk_ramcoder {
  rc_cumulativeProb : Z;
  rc_lower : Z;
  rc_upper : Z;
  rc_code : Z;
  rc_underflowBits : Z;
  rc_lastsymbol : Z;
  rc_upper_lastsymbol : Z;
  rc_counter : Z;
  rc_ranges : list Z;
}.

#[export] Instance eta_ramcoder : Eta ramcoder := fun r => mk_ramcoder
  (rc_cumulativeProb r) (rc_lower r) (rc_upper r) (rc_code r) (rc_underflowBits r) (rc_lastsymbol r)
  (rc_upper_lastsymbol r) (rc_counter r) (rc_ranges r).

(** The cleared local [_coder]: behind the 18 bytes of the fields there is place for
    259 ranges. *)
Definition cleared_coder : ramcoder := mk_ramcoder 0 0 0 0 0 0 0 0 (repeat 0 259).

(** [sizeof(seed)] is the size of a pointer, so 64 bits of the seed are used. *)
Definition seed_bit (seed : list Z) (i : Z) : option Z :=
  if i <=? 8 * 8 then b ← GETBIT seed 0 (i - 1); Some (if negb (b =? 0) then 1 else 0) else Some 0.

Definition init_ramcoder (coder : ramcoder) (hp : option HUFF) (seed : list Z) : option (ramcoder * option HUFF) :=
  let coder := if rc_lastsymbol coder =? 0
    then coder <| rc_lastsymbol := RAMCODER_MAXSYMBOLS |> <| rc_upper_lastsymbol := RAMCODER_MAXSYMBOLS + 1 |> else coder in
  let n := Z.to_nat (rc_upper_lastsymbol coder) in
  r ← aset (rc_ranges coder) 0 0;
  r ← for_ (fun i r => p ← aget r (i - 1); b ← seed_bit seed i; aset r i (u16 (p + 1 + 256 * b))) 1 n r;
  cum ← for_ (fun i cum => x ← aget r i; p ← aget r (i - 1); Some (u32 (cum + (x - p)))) 1 n 0;
  let coder := coder <| rc_cumulativeProb := cum |> <| rc_lower := 0 |> <| rc_code := 0 |> <| rc_underflowBits := 0 |>
    <| rc_ranges := r |> <| rc_upper := u16 (Z.shiftl 1 16 - 1) |> in
  match hp with
  | None => Some (coder, None)
  | Some hp =>
      '(code, hp) ← for_ (fun _ '(code, hp) => '(hp, b) ← hgetbit hp; Some (u16 (Z.lor (Z.shiftl code 1) b), hp)) 0 16 (0, hp);
      Some (coder <| rc_code := code |>, Some hp)
  end.

(** ** Shifting bits out and in *)

Definition ramcoder_state (coder : ramcoder) : Z :=
  if Z.land (rc_upper coder) (RAMMASK_BIT 0) =? Z.land (rc_lower coder) (RAMMASK_BIT 0) then 0
  else if negb (Z.land (rc_lower coder) (RAMMASK_BIT 1) =? 0) && (Z.land (rc_upper coder) (RAMMASK_BIT 1) =? 0) then 1
  else -1.

Definition ramcoder_normalize (coder : ramcoder) : ramcoder :=
  coder <| rc_lower := u16 (Z.land (rc_lower coder) (Z.lnot (Z.lor (RAMMASK_BIT 0) (RAMMASK_BIT 1)))) |>
        <| rc_upper := u16 (Z.lor (rc_upper coder) (RAMMASK_BIT 1)) |>.

Definition ramcoder_shiftbits (coder : ramcoder) : ramcoder :=
  coder <| rc_lower := u16 (Z.shiftl (rc_lower coder) 1) |>
        <| rc_upper := u16 (Z.lor (u16 (Z.shiftl (rc_upper coder) 1)) 1) |>.

(** The results of [hputbit] are ignored. *)
Fixpoint put_repeat (bit : bool) (k : nat) (hp : HUFF) : option HUFF :=
  match k with O => Some hp | S k => '(hp, _) ← hputbit hp bit; put_repeat bit k hp end.

(** The [default] branch of the encoder's loop. *)
Definition putbits_default (flushflag : bool) (hp : HUFF) (coder : ramcoder) (numbits : Z) : option (ramcoder * HUFF * Z) :=
  if flushflag then
    let bit := negb (Z.land (rc_lower coder) (RAMMASK_BIT 1) =? 0) in
    '(hp, _) ← hputbit hp bit;
    let k := u16 (rc_underflowBits coder + 1) in
    hp ← put_repeat (negb bit) (Z.to_nat k) hp;
    Some (coder <| rc_underflowBits := 0 |>, hp, numbits + 1 + k)
  else Some (coder, hp, numbits).

Fixpoint putbits_loop (fuel : nat) (flushflag : bool) (hp : HUFF) (coder : ramcoder) (numbits : Z)
    : option (ramcoder * HUFF * Z) :=
  match fuel with
  | O => None
  | S fuel =>
      if ramcoder_state coder =? 1 then
        let coder := ramcoder_normalize (coder <| rc_underflowBits := u16 (rc_underflowBits coder + 1) |>) in
        putbits_loop fuel flushflag hp (ramcoder_shiftbits coder) numbits
      else if ramcoder_state coder =? 0 then
        let bit := negb (Z.land (rc_upper coder) (RAMMASK_BIT 0) =? 0) in
        '(hp, _) ← hputbit hp bit;
        hp ← put_repeat (negb bit) (Z.to_nat (rc_underflowBits coder)) hp;
        putbits_loop fuel flushflag hp (ramcoder_shiftbits (coder <| rc_underflowBits := 0 |>))
          (numbits + 1 + rc_underflowBits coder)
      else putbits_default flushflag hp coder numbits
  end.

(** Every round doubles the interval, so there are at most sixteen. *)
Definition ramcoder_putbits (hp : HUFF) (coder : ramcoder) (flushflag : bool) : option (ramcoder * HUFF * Z) :=
  putbits_loop 17 flushflag hp coder 0.

Fixpoint getbits_loop (fuel : nat) (hp : HUFF) (coder : ramcoder) (numbits : Z) : option (ramcoder * HUFF * Z) :=
  match fuel with
  | O => None
  | S fuel =>
      if ramcoder_state coder =? -1 then Some (coder, hp, numbits)
      else
        let coder := if ramcoder_state coder =? 1
          then (ramcoder_normalize coder) <| rc_code := Z.lxor (rc_code coder) (RAMMASK_BIT 1) |> else coder in
        let coder := ramcoder_shiftbits coder in
        let coder := coder <| rc_code := u16 (Z.shiftl (rc_code coder) 1) |> in
        '(hp, nextBit) ← hgetbit hp;
        if 0 <=? nextBit then
          getbits_loop fuel hp (coder <| rc_code := u16 (Z.lor (rc_code coder) nextBit) |>) (numbits + 1)
        else Some (coder, hp, numbits)
  end.

Definition ramcoder_getbits (hp : HUFF) (coder : ramcoder) : option (ramcoder * HUFF * Z) := getbits_loop 17 hp coder 0.

(** ** Symbols *)

Fixpoint bsearch_loop (fuel : nat) (probability : Z) (ranges : list Z) (first last : Z) : option Z :=
  match fuel with
  | O => None
  | S fuel =>
      if first <=? last then
        let middle := first + (last - first) / 2 in
        a ← aget ranges middle;
        if probability <? a then bsearch_loop fuel probability ranges first (middle - 1)
        else
          b ← aget ranges (middle + 1);
          if b <=? probability then bsearch_loop fuel probability ranges (middle + 1) last else Some middle
      else Some (-1)
  end.

(** Every round shortens the range. *)
Definition ramdecoder_bsearch (probability : Z) (coder : ramcoder) : option Z :=
  bsearch_loop (Z.to_nat (rc_upper_lastsymbol coder + 2)) probability (rc_ranges coder) 0 (rc_upper_lastsymbol coder).

(** [ramcoder_update] up to the test of [updateprobs]: the part of the interval that
    belongs to the symbol. *)
Definition ramcoder_narrow (symbol : Z) (coder : ramcoder) : option ramcoder :=
  let range := u32 (u32 (rc_upper coder - rc_lower coder) + 1) in
  a ← aget (rc_ranges coder) symbol;
  b ← aget (rc_ranges coder) (symbol + 1);
  if rc_cumulativeProb coder =? 0 then None
  else Some (coder
    <| rc_upper := u16 (rc_lower coder + u16 (u32 (b * range) / rc_cumulativeProb coder) - 1) |>
    <| rc_lower := u16 (rc_lower coder + u16 (u32 (a * range) / rc_cumulativeProb coder)) |>).

(** A frequency of at most two becomes one, a larger one is halved. *)
Definition rescale_step (i : Z) (s : list Z * Z * Z) : option (list Z * Z * Z) :=
  let '(r, original, cum) := s in
  x ← aget r i;
  p ← aget r (i - 1);
  let delta := u16 (x - original) in
  let y := if delta <=? 2 then u16 (p + 1) else u16 (p + delta / 2) in
  r ← aset r i y;
  Some (r, x, u32 (cum + (y - p))).

(** The update of the frequencies. *)
Definition ramcoder_adapt (symbol : Z) (coder : ramcoder) : option ramcoder :=
  let n := rc_upper_lastsymbol coder in
  let cum := u32 (rc_cumulativeProb coder + 1) in
  r ← for_ (fun i r => x ← aget r i; aset r i (u16 (x + 1))) (symbol + 1) (Z.to_nat (n - symbol)) (rc_ranges coder);
  '(r, cum) ← (if Z.shiftl 1 (8 * 2 - 2) <=? cum then
      '(r, _, cum) ← for_ rescale_step 1 (Z.to_nat n) (r, 0, 0); Some (r, cum)
    else Some (r, cum));
  Some (coder <| rc_cumulativeProb := cum |> <| rc_ranges := r |> <| rc_counter := u16 (rc_counter coder + 1) |>).

(** [putflags]: [None] to read bits, [Some flushflag] to write them. *)
Definition ramcoder_update (symbol : Z) (coder : ramcoder) (updateprobs : bool) (putflags : option bool) (hp : HUFF)
    : option (ramcoder * HUFF * Z) :=
  coder ← ramcoder_narrow symbol coder;
  coder ← (if updateprobs then ramcoder_adapt symbol coder else Some coder);
  match putflags with
  | Some flushflag => ramcoder_putbits hp coder flushflag
  | None => ramcoder_getbits hp coder
  end.

(** ** Whole messages *)

Definition ramcoder_emit (hp : HUFF) (coder : ramcoder) (updateprobs : bool) (buf : list Z) (len : Z)
    : option (ramcoder * HUFF * Z) :=
  for_ (fun i '(coder, hp, numbits) =>
    symbol ← aget buf i;
    '(coder, hp, n) ← ramcoder_update symbol coder updateprobs (Some false) hp;
    Some (coder, hp, numbits + n)) 0 (Z.to_nat len) (coder, hp, 0).

(** The encoder with a coder of its own, up to the last bit written. *)
Definition encode_message (updateprobs : bool) (buf : list Z) (len : Z) (hp : HUFF) (seed : list Z) : option (ramcoder * HUFF) :=
  let '(hp, _) := hrewind hp in
  '(coder, _) ← init_ramcoder cleared_coder None seed;
  '(coder, hp, _) ← ramcoder_emit hp coder updateprobs buf len;
  '(coder, hp, _) ← ramcoder_update (rc_lastsymbol coder) coder updateprobs (Some false) hp;
  '(coder, hp, _) ← ramcoder_update (rc_lastsymbol coder) coder updateprobs (Some true) hp;
  Some (coder, hp).

(** The returned seed: the symbols of more than average frequency, in 32 bytes. *)
Definition newseed_of (coder : ramcoder) : option (list Z) :=
  if rc_upper_lastsymbol coder =? 0 then None
  else
    let threshold := s32 (rc_cumulativeProb coder / rc_upper_lastsymbol coder) in
    for_ (fun i seed =>
      x ← aget (rc_ranges coder) i;
      p ← aget (rc_ranges coder) (i - 1);
      if threshold <? x - p then SETBIT seed 0 (i - 1) else Some seed) 1 (Z.to_nat (rc_upper_lastsymbol coder)) (repeat 0 32).

(** Without a coder of the caller ([None]) the message is complete, with its ends. *)
Definition ramcoder_encoder (coder : option ramcoder) (updateprobs : bool) (buf : list Z) (len : Z) (hp : HUFF) (seed : list Z)
    : option (ramcoder * HUFF * list Z) :=
  '(coder, hp) ← match coder with
    | None => encode_message updateprobs buf len hp seed
    | Some coder => '(coder, hp, _) ← ramcoder_emit hp coder updateprobs buf len; Some (coder, hp)
    end;
  newseed ← newseed_of coder;
  Some (coder, hp, newseed).

Definition RAMDECODER_UNSCALED (coder : ramcoder) : option Z :=
  let range := u32 (u32 (rc_upper coder - rc_lower coder) + 1) in
  if range =? 0 then None
  else Some (u32 (u32 (u32 (rc_code coder - rc_lower coder) + 1) * rc_cumulativeProb coder - 1) / range).

(** The symbol, or -1 at the end. *)
Definition ramcoder_decode (coder : ramcoder) (updateprobs : bool) (hp : HUFF) : option (ramcoder * HUFF * Z) :=
  p ← RAMDECODER_UNSCALED coder;
  ind ← ramdecoder_bsearch (u16 p) coder;
  if (ind <? 0) || (ind =? rc_lastsymbol coder) then Some (coder, hp, -1)
  else '(coder, hp, _) ← ramcoder_update ind coder updateprobs None hp; Some (coder, hp, ind).

Fixpoint decoder_from (k : nat) (n : Z) (buf : list Z) (coder : ramcoder) (updateprobs : bool) (hp : HUFF)
    : option (ramcoder * HUFF * list Z * Z) :=
  match k with
  | O => Some (coder, hp, buf, n)
  | S k =>
      '(coder, hp, val) ← ramcoder_decode coder updateprobs hp;
      if val <? 0 then Some (coder, hp, buf, n)
      else buf ← aset buf n (u8 val); decoder_from k (n + 1) buf coder updateprobs hp
  end.

(** The number of bytes decoded into [buf]. *)
Definition ramcoder_decoder (coder : option ramcoder) (updateprobs : bool) (buf : list Z) (maxlen : Z) (hp : HUFF) (seed : list Z)
    : option (ramcoder * HUFF * list Z * Z) :=
  '(coder, hp) ← match coder with
    | None =>
        '(coder, hp') ← init_ramcoder cleared_coder (Some (hrewind hp).1) seed;
        hp ← hp'; Some (coder, hp)
    | Some coder => Some (coder, hp)
    end;
  decoder_from (Z.to_nat maxlen) 0 buf coder updateprobs hp.

(** ** The interval: pure arithmetic of the shifts *)

(** A round of the loops: the first bit is known, or the interval straddles the
    middle. *)
Inductive shift := Out (b : bool) | Under.

Definition offset (s : shift) : Z := match s with Out true => 65536 | Out false => 0 | Under => 32768 end.

Definition shift_of (lo up : Z) : option shift :=
  if up <? 32768 then Some (Out false)
  else if 32768 <=? lo then Some (Out true)
  else if (16384 <=? lo) && (up <? 49152) then Some Under
  else None.

Fixpoint renorm (fuel : nat) (lo up : Z) : option (list shift * Z * Z) :=
  match fuel with
  | O => None
  | S fuel =>
      match shift_of lo up with
      | None => Some ([], lo, up)
      | Some s => '(ss, lo', up') ← renorm fuel (2 * lo - offset s) (2 * up + 1 - offset s); Some (s :: ss, lo', up')
      end
  end.

Lemma renorm_S fuel lo up : renorm (S fuel) lo up =
  match shift_of lo up with
  | None => Some ([], lo, up)
  | Some s => '(ss, lo', up') ← renorm fuel (2 * lo - offset s) (2 * up + 1 - offset s); Some (s :: ss, lo', up')
  end.
Proof. reflexivity. Qed.

Definition interval (lo up : Z) : Prop := 0 <= lo <= up /\ up < 65536.

Lemma shift_of_interval lo up s : interval lo up -> shift_of lo up = Some s -> interval (2 * lo - offset s) (2 * up + 1 - offset s).
Proof.
  unfold interval, shift_of. intros H E.
  destruct (Z.ltb_spec up 32768); [simplify_eq/=; lia|]. destruct (Z.leb_spec 32768 lo); [simplify_eq/=; lia|].
  destruct (Z.leb_spec 16384 lo), (Z.ltb_spec up 49152); simplify_eq/=; lia.
Qed.

Lemma shift_of_None lo up : interval lo up -> shift_of lo up = None ->
  lo < 32768 <= up /\ (lo < 16384 \/ 49152 <= up).
Proof.
  unfold interval, shift_of. intros H E.
  destruct (Z.ltb_spec up 32768); [done|]. destruct (Z.leb_spec 32768 lo); [done|].
  destruct (Z.leb_spec 16384 lo), (Z.ltb_spec up 49152); simplify_eq/=; lia.
Qed.

Lemma renorm_total n : forall lo up, interval lo up -> 65536 <= (up - lo + 1) * 2 ^ Z.of_nat n ->
  exists ss lo' up', renorm (S n) lo up = Some (ss, lo', up') /\ (length ss <= n)%nat /\ interval lo' up' /\
    shift_of lo' up' = None /\ up' - lo' + 1 = (up - lo + 1) * 2 ^ Z.of_nat (length ss).
Proof.
  induction n as [|n IH]; intros lo up HI HR.
  - change (2 ^ Z.of_nat 0) with 1 in HR. exists [], lo, up. unfold interval in HI. assert (lo = 0 /\ up = 65535) as [-> ->] by lia.
    cbn. repeat split; lia.
  - rewrite renorm_S. destruct (shift_of lo up) as [s|] eqn:E.
    + pose proof (shift_of_interval _ _ _ HI E) as HI'. rewrite Nat2Z.inj_succ, Z.pow_succ_r in HR by lia.
      destruct (IH _ _ HI') as (ss & lo' & up' & E2 & Hlen & HI2 & EN & ER); [lia|].
      rewrite E2. cbn [mbind option_bind]. exists (s :: ss), lo', up'. cbn [length].
      rewrite Nat2Z.inj_succ, Z.pow_succ_r by lia.
      split; [done|]. split; [lia|]. split; [done|]. split; [done|]. rewrite ER. ring.
    + exists [], lo, up. change (2 ^ Z.of_nat (length (@nil shift))) with 1. repeat split; try done; try apply HI; cbn [length]; lia.
Qed.

(** ** The bits of a message as a number *)

Definition num (bs : list bool) : Z := foldl (fun a (b : bool) => 2 * a + Z.b2z b) 0 bs.

Lemma num_snoc bs b : num (bs ++ [b]) = 2 * num bs + Z.b2z b.
Proof. unfold num. by rewrite foldl_app. Qed.

Lemma num_repeat bs b k : num (bs ++ replicate k b) = num bs * 2 ^ Z.of_nat k + (if b then 2 ^ Z.of_nat k - 1 else 0).
Proof.
  induction k as [|k IH].
  - rewrite app_nil_r. change (2 ^ Z.of_nat 0) with 1. destruct b; lia.
  - rewrite replicate_S_end, app_assoc, num_snoc, IH, Nat2Z.inj_succ, Z.pow_succ_r by lia.
    destruct b; cbn [Z.b2z]; lia.
Qed.

Lemma num_take_S bs k b : bs !! k = Some b -> num (take (S k) bs) = 2 * num (take k bs) + Z.b2z b.
Proof. intros E. by rewrite (take_S_r _ _ b E), num_snoc. Qed.

(** The bits written, and how many are pending: they are the opposite of the next. *)
Definition ghost : Type := list bool * nat.

Definition push (g : ghost) (s : shift) : ghost :=
  match s with
  | Out b => (g.1 ++ b :: replicate g.2 (negb b), O)
  | Under => (g.1, S g.2)
  end.

(** The bits behind the interval: the interval itself is the next 16. *)
Definition window (g : ghost) : nat := length g.1 + g.2 + 16.

Definition base (g : ghost) : Z := num g.1 * 2 ^ (Z.of_nat g.2 + 16) + 2 ^ 15 * (2 ^ Z.of_nat g.2 - 1).

Lemma window_push g s : window (push g s) = S (window g).
Proof. unfold window. destruct g as [o u], s as [b|]; cbn; rewrite ?length_app; cbn [length]; rewrite ?length_replicate; lia. Qed.

Lemma window_pushes ss : forall g, window (foldl push g ss) = (window g + length ss)%nat.
Proof. induction ss as [|s ss IH]; intros g; cbn [foldl length]; [lia|]. rewrite IH, window_push. lia. Qed.

Lemma base_push g s : base (push g s) = 2 * base g + offset s.
Proof.
  unfold base. destruct g as [o u], s as [b|]; cbn [push fst snd offset].
  - change (b :: replicate u (negb b)) with ([b] ++ replicate u (negb b)).
    rewrite app_assoc, num_repeat, num_snoc. change (Z.of_nat 0 + 16) with 16. change (2 ^ Z.of_nat 0) with 1.
    rewrite Z.pow_add_r by lia. change (2 ^ 16) with 65536. change (2 ^ 15) with 32768. destruct b; cbn [negb Z.b2z]; lia.
  - rewrite Nat2Z.inj_succ, Z.add_succ_l, !Z.pow_succ_r, Z.pow_add_r by lia. change (2 ^ 16) with 65536. change (2 ^ 15) with 32768. lia.
Qed.

(** The number whose bits are [X] lies in the interval. *)
Definition inside (X : list bool) (g : ghost) (lo up : Z) : Prop :=
  base g + lo <= num (take (window g) X) <= base g + up.

Lemma inside_push X g s lo up : (window g < length X)%nat ->
  inside X (push g s) (2 * lo - offset s) (2 * up + 1 - offset s) -> inside X g lo up.
Proof.
  intros Hlen. destruct (lookup_lt_is_Some_2 X (window g) Hlen) as [b Hb]. unfold inside.
  rewrite window_push, (num_take_S _ _ b Hb), base_push. destruct b; cbn [Z.b2z]; lia.
Qed.

Lemma inside_renorm X fuel : forall g lo up ss lo' up', renorm fuel lo up = Some (ss, lo', up') ->
  (window g + length ss <= length X)%nat -> inside X (foldl push g ss) lo' up' -> inside X g lo up.
Proof.
  induction fuel as [|fuel IH]; intros g lo up ss lo' up' E Hlen HX; [done|]. cbn [renorm] in E.
  destruct (shift_of lo up) as [s|]; [|by simplify_eq].
  destruct (renorm fuel _ _) as [[[ss1 l1] u1]|] eqn:E1; [|done]. cbn in E. simplify_eq. cbn [foldl length] in *.
  apply (inside_push X g s); [lia|]. eapply IH; [done|rewrite window_push; lia|done].
Qed.

(** What the flush writes: [01..] or [10..], each inside any interval that cannot be
    shifted; [t] is whatever follows. *)
Definition flushed (g : ghost) (lo : Z) : list bool :=
  let b := 16384 <=? lo in g.1 ++ b :: replicate (S g.2) (negb b).

Lemma flushed_length g lo : length (flushed g lo) = (length g.1 + g.2 + 2)%nat.
Proof. unfold flushed. rewrite length_app. cbn [length]. rewrite length_replicate. lia. Qed.

Lemma flushed_inside g lo up : interval lo up -> shift_of lo up = None ->
  inside (flushed g lo ++ replicate 14 false) g lo up.
Proof.
  intros HI HN. apply shift_of_None in HN; [|done]. unfold inside.
  rewrite take_ge by (rewrite length_app, flushed_length, length_replicate; unfold window; lia).
  rewrite num_repeat. unfold flushed, base. destruct g as [o u]. cbn [fst snd].
  change (?b :: replicate (S u) ?c) with ([b] ++ replicate (S u) c). rewrite app_assoc, num_repeat, num_snoc.
  rewrite Nat2Z.inj_succ, Z.pow_succ_r, Z.pow_add_r by lia. change (2 ^ Z.of_nat 14) with 16384. change (2 ^ 16) with 65536. change (2 ^ 15) with 32768.
  unfold interval in HI. destruct (Z.leb_spec 16384 lo); cbn [negb Z.b2z]; lia.
Qed.

(** ** The tests and masks of the code *)

Lemma land_pow2 x n : 0 <= n -> Z.land x (2 ^ n) = if Z.testbit x n then 2 ^ n else 0.
Proof.
  intros Hn. apply Z.bits_inj'. intros k Hk. rewrite Z.land_spec, Z.pow2_bits_eqb by lia.
  destruct (Z.eqb_spec n k) as [->|Hne].
  - destruct (Z.testbit x k); rewrite ?Z.pow2_bits_true, ?Z.bits_0 by lia; done.
  - rewrite andb_false_r. destruct (Z.testbit x n); rewrite ?Z.pow2_bits_false, ?Z.bits_0 by lia; done.
Qed.

Lemma lor_pow2 x n : 0 <= n -> Z.lor x (2 ^ n) = x + if Z.testbit x n then 0 else 2 ^ n.
Proof. intros Hn. pose proof (Z.add_lor_land x (2 ^ n)) as H. rewrite land_pow2 in H by done. destruct (Z.testbit x n); lia. Qed.

Lemma lxor_pow2 x n : 0 <= n -> Z.lxor x (2 ^ n) = x + if Z.testbit x n then - 2 ^ n else 2 ^ n.
Proof.
  intros Hn. pose proof (Z.add_lor_land x (2 ^ n)) as H. rewrite land_pow2 in H by done.
  pose proof (Z.add_lxor_2land x (2 ^ n)) as H2. rewrite land_pow2 in H2 by done. destruct (Z.testbit x n); lia.
Qed.

Lemma bit15 x : 0 <= x < 65536 -> Z.testbit x 15 = (32768 <=? x).
Proof.
  intros Hx. rewrite Z.testbit_eqb by lia. change (2 ^ 15) with 32768.
  destruct (Z.leb_spec 32768 x); [apply Z.eqb_eq|apply Z.eqb_neq]; Z.div_mod_to_equations; lia.
Qed.

Lemma bit14_low x : 0 <= x < 32768 -> Z.testbit x 14 = (16384 <=? x).
Proof.
  intros Hx. rewrite Z.testbit_eqb by lia. change (2 ^ 14) with 16384.
  destruct (Z.leb_spec 16384 x); [apply Z.eqb_eq|apply Z.eqb_neq]; Z.div_mod_to_equations; lia.
Qed.

Lemma bit14_high x : 32768 <= x < 65536 -> Z.testbit x 14 = (49152 <=? x).
Proof.
  intros Hx. rewrite Z.testbit_eqb by lia. change (2 ^ 14) with 16384.
  destruct (Z.leb_spec 49152 x); [apply Z.eqb_eq|apply Z.eqb_neq]; Z.div_mod_to_equations; lia.
Qed.

Lemma mask0 : RAMMASK_BIT 0 = 2 ^ 15. Proof. reflexivity. Qed.
Lemma mask1 : RAMMASK_BIT 1 = 2 ^ 14. Proof. reflexivity. Qed.

(** The msb as the encoder writes it. *)
Lemma msb_bit x : 0 <= x < 65536 -> negb (Z.land x (RAMMASK_BIT 0) =? 0) = (32768 <=? x).
Proof. intros Hx. rewrite mask0, land_pow2, bit15 by lia. by destruct (32768 <=? x). Qed.

Definition state_code (s : option shift) : Z :=
  match s with Some (Out _) => 0 | Some Under => 1 | None => -1 end.

Lemma state_spec c : interval (rc_lower c) (rc_upper c) -> ramcoder_state c = state_code (shift_of (rc_lower c) (rc_upper c)).
Proof.
  unfold interval, ramcoder_state, shift_of. intros HI. rewrite mask0, mask1, !land_pow2, !bit15 by lia. change (2 ^ 15) with 32768. change (2 ^ 14) with 16384.
  destruct (Z.ltb_spec (rc_upper c) 32768), (Z.leb_spec 32768 (rc_upper c)); try lia; cbn [state_code].
  - destruct (Z.leb_spec 32768 (rc_lower c)); [lia|done].
  - destruct (Z.leb_spec 32768 (rc_lower c)); [done|]. rewrite bit14_low, bit14_high by lia.
    destruct (Z.leb_spec 16384 (rc_lower c)), (Z.leb_spec 49152 (rc_upper c)), (Z.ltb_spec (rc_upper c) 49152); try lia; done.
Qed.

(** Doubling a 16-bit value whose highest bit goes. *)
Lemma shl1_u16 x : 0 <= x < 65536 -> u16 (Z.shiftl x 1) = 2 * x - if 32768 <=? x then 65536 else 0.
Proof.
  intros Hx. rewrite Z.shiftl_mul_pow2 by lia. change (2 ^ 1) with 2. unfold u16, wrapU. change (2 ^ 16) with 65536.
  destruct (Z.leb_spec 32768 x); Z.div_mod_to_equations; lia.
Qed.

Lemma lor_even_bit x (b : bool) : 0 <= x -> x mod 2 = 0 -> Z.lor x (Z.b2z b) = x + Z.b2z b.
Proof.
  intros Hx Hm. destruct b; cbn [Z.b2z]; [|by rewrite Z.lor_0_r, Z.add_0_r].
  change 1 with (2 ^ 0) at 1. rewrite lor_pow2 by lia. rewrite Z.testbit_eqb by lia. change (2 ^ 0) with 1.
  rewrite Z.div_1_r, Hm. done.
Qed.

(** A value of the interval, shifted with a new last bit. *)
Lemma shift_in_u16 x (b : bool) : 0 <= x < 65536 ->
  u16 (Z.lor (u16 (Z.shiftl x 1)) (Z.b2z b)) = 2 * x + Z.b2z b - if 32768 <=? x then 65536 else 0.
Proof.
  intros Hx. rewrite shl1_u16 by done. destruct (Z.leb_spec 32768 x).
  - rewrite lor_even_bit; [|lia|]. 2:{ replace (2 * x - 65536) with ((x - 32768) * 2) by lia. apply Z_mod_mult. }
    rewrite u16_small; destruct b; cbn; lia.
  - rewrite lor_even_bit; [|lia|]. 2:{ rewrite Z.sub_0_r, Z.mul_comm. apply Z_mod_mult. }
    rewrite u16_small; destruct b; cbn; lia.
Qed.

Lemma shiftbits_spec c : 0 <= rc_lower c < 65536 -> 0 <= rc_upper c < 65536 ->
  ramcoder_shiftbits c = c <| rc_lower := 2 * rc_lower c - (if 32768 <=? rc_lower c then 65536 else 0) |>
    <| rc_upper := 2 * rc_upper c + 1 - (if 32768 <=? rc_upper c then 65536 else 0) |>.
Proof. intros Hl Hu. unfold ramcoder_shiftbits. rewrite (shl1_u16 (rc_lower c)) by done. pose proof (shift_in_u16 (rc_upper c) true Hu) as E. cbn [Z.b2z] in E. by rewrite E. Qed.

Lemma normalize_spec c : 16384 <= rc_lower c < 32768 -> 32768 <= rc_upper c < 49152 ->
  ramcoder_normalize c = c <| rc_lower := rc_lower c - 16384 |> <| rc_upper := rc_upper c + 16384 |>.
Proof.
  intros Hl Hu. unfold ramcoder_normalize. rewrite mask0, mask1, (lor_pow2 (rc_upper c)), bit14_high by lia.
  rewrite <- Z.sub_land_same_l, Z.land_lor_distr_r, !land_pow2, (bit15 (rc_lower c)), (bit14_low (rc_lower c)) by lia. change (2 ^ 15) with 32768. change (2 ^ 14) with 16384.
  destruct (Z.leb_spec 32768 (rc_lower c)), (Z.leb_spec 16384 (rc_lower c)), (Z.leb_spec 49152 (rc_upper c)); try lia.
  rewrite Z.lor_0_l, !u16_small by lia. done.
Qed.

(** One round, in the interval. *)
Lemma shift_lower x s lo up : interval lo up -> shift_of lo up = Some s -> lo <= x <= up ->
  match s with
  | Out b => (32768 <=? x) = b
  | Under => 16384 <= lo < 32768 /\ 32768 <= up < 49152 /\
      forall y, y = Z.lxor x (RAMMASK_BIT 1) -> 0 <= y < 65536 /\ 2 * y - (if 32768 <=? y then 65536 else 0) = 2 * x - 32768
  end.
Proof.
  unfold interval, shift_of. intros HI Es Hx. destruct (Z.ltb_spec up 32768); [simplify_eq/=; apply Z.leb_gt; lia|].
  destruct (Z.leb_spec 32768 lo); [simplify_eq/=; apply Z.leb_le; lia|].
  destruct (Z.leb_spec 16384 lo), (Z.ltb_spec up 49152); simplify_eq/=. split; [lia|]. split; [lia|]. intros y ->.
  rewrite mask1, lxor_pow2 by lia. change (2 ^ 14) with 16384. destruct (Z.leb_spec 32768 x).
  - rewrite bit14_high by lia. destruct (Z.leb_spec 49152 x); [lia|].
    match goal with |- context [32768 <=? ?y] => destruct (Z.leb_spec 32768 y) end; lia.
  - rewrite bit14_low by lia. destruct (Z.leb_spec 16384 x); [|lia].
    match goal with |- context [32768 <=? ?y] => destruct (Z.leb_spec 32768 y) end; lia.
Qed.

(** ** The encoder's loop *)

Lemma put_repeat_spec b k : forall hp, stream_ok hp -> hp_bitoffset hp + Z.of_nat k < 8 * hp_allocsize hp ->
  exists hp', put_repeat b k hp = Some hp' /\ written hp (replicate k b) hp'.
Proof.
  induction k as [|k IH]; intros hp Hok Hroom; cbn [put_repeat].
  - exists hp. split; [done|by apply written_nil].
  - destruct (hputbit_spec hp b Hok) as (h1 & -> & W); [lia|]. cbn [mbind option_bind].
    pose proof W as []. cbn [length] in *. destruct (IH h1) as (h2 & -> & W2); [done|lia|].
    exists h2. split; [done|]. change (replicate (S k) b) with ([b] ++ replicate k b). by eapply written_app.
Qed.

(** A bit and the opposite bits that were pending. *)
Lemma put_pending hp0 out hp b k : stream_ok hp0 -> written hp0 out hp ->
  hp_bitoffset hp0 + Z.of_nat (length out + S k) < 8 * hp_allocsize hp0 ->
  exists hp', ('(hp1, _) ← hputbit hp b; put_repeat (negb b) k hp1) = Some hp' /\
    written hp0 (out ++ b :: replicate k (negb b)) hp'.
Proof.
  intros Hok0 W Hroom. pose proof (wr_offset _ _ _ W). pose proof (wr_size _ _ _ W).
  destruct (hputbit_spec hp b (wr_ok _ _ _ W)) as (h1 & -> & W1); [lia|]. cbn [mbind option_bind].
  pose proof W1 as []. cbn [length] in *. destruct (put_repeat_spec (negb b) k h1) as (h2 & -> & W2); [done|lia|].
  exists h2. split; [done|]. eapply written_app; [done|].
  change (b :: replicate k (negb b)) with ([b] ++ replicate k (negb b)). by eapply written_app.
Qed.

(** The coder after the shifts. *)
Definition at_interval (lo up u : Z) (c : ramcoder) : ramcoder :=
  c <| rc_lower := lo |> <| rc_upper := up |> <| rc_underflowBits := u |>.

Lemma putbits_runs hp0 flush fuel : stream_ok hp0 -> forall c hp g m ss lo' up',
  interval (rc_lower c) (rc_upper c) -> renorm fuel (rc_lower c) (rc_upper c) = Some (ss, lo', up') ->
  rc_underflowBits c = Z.of_nat g.2 -> written hp0 g.1 hp ->
  Z.of_nat (window g + length ss) < 65536 + 16 ->
  hp_bitoffset hp0 + Z.of_nat (window g + length ss) < 8 * hp_allocsize hp0 + 16 ->
  exists hp' m', putbits_loop fuel flush hp c m =
      putbits_default flush hp' (at_interval lo' up' (Z.of_nat (foldl push g ss).2) c) m' /\
    written hp0 (foldl push g ss).1 hp'.
Proof.
  intros Hok0. induction fuel as [|fuel IH]; intros c hp g m ss lo' up' HI E Hu W Hw Hroom; [done|].
  rewrite renorm_S in E. cbn [putbits_loop]. rewrite state_spec by done.
  destruct (shift_of (rc_lower c) (rc_upper c)) as [s|] eqn:Es.
  - destruct (renorm fuel _ _) as [[[ss1 l1] u1]|] eqn:E1; [|done]. cbn in E. simplify_eq. cbn [foldl length] in *.
    pose proof (shift_of_interval _ _ _ HI Es) as HI'. pose proof (window_push g s) as Hwp.
    pose proof (shift_lower (rc_lower c) s _ _ HI Es) as Hl. pose proof (shift_lower (rc_upper c) s _ _ HI Es) as Hup.
    unfold interval in HI. specialize (Hl ltac:(lia)). specialize (Hup ltac:(lia)).
    destruct s as [b|]; cbn [state_code Z.eqb].
    + rewrite msb_bit by lia. rewrite Hup. rewrite Hu, Nat2Z.id.
      destruct (put_pending hp0 g.1 hp b g.2 Hok0 W) as (hp1 & Ep & W1); [unfold window in Hroom; lia|].
      destruct (hputbit hp b) as [[h1 r1]|]; [|done]. cbn [mbind option_bind] in *. rewrite Ep. cbn [mbind option_bind].
      rewrite shiftbits_spec by (cbn; lia). cbn [rc_lower rc_upper upd]. cbn. rewrite Hl, Hup.
      destruct (IH (at_interval (2 * rc_lower c - offset (Out b)) (2 * rc_upper c + 1 - offset (Out b)) 0 c) hp1
        (push g (Out b)) (m + 1 + Z.of_nat g.2) ss1 lo' up') as (hp' & m' & E2 & W2); try done; try lia.
      exists hp', m'. split; [|done]. by destruct c, b.
    + destruct Hl as (Hlo & Hhi & _). rewrite Hu.
      assert (u16 (Z.of_nat g.2 + 1) = Z.of_nat (S g.2)) as -> by (rewrite u16_small; unfold window in Hw; lia).
      rewrite normalize_spec by (cbn; lia). rewrite shiftbits_spec by (cbn; lia). cbn.
      destruct (Z.leb_spec 32768 (rc_lower c - 16384)); [lia|]. destruct (Z.leb_spec 32768 (rc_upper c + 16384)); [|lia].
      destruct (IH (at_interval (2 * rc_lower c - offset Under) (2 * rc_upper c + 1 - offset Under) (Z.of_nat (S g.2)) c) hp
        (push g Under) m ss1 lo' up') as (hp' & m' & E2 & W2); try done; try lia.
      exists hp', m'. split; [|done]. etransitivity; [|etransitivity; [exact E2|by destruct c]].
      replace (2 * (rc_lower c - 16384) - 0) with (2 * rc_lower c - offset Under) by (cbn [offset]; lia).
      replace (2 * (rc_upper c + 16384) + 1 - 65536) with (2 * rc_upper c + 1 - offset Under) by (cbn [offset]; lia). by destruct c.
  - simplify_eq. exists hp, m. split; [|done]. cbn [foldl state_code Z.eqb]. rewrite <- Hu. by destruct c.
Qed.

Lemma flush_runs hp0 c hp g m : stream_ok hp0 -> interval (rc_lower c) (rc_upper c) ->
  shift_of (rc_lower c) (rc_upper c) = None -> rc_underflowBits c = Z.of_nat g.2 -> written hp0 g.1 hp ->
  Z.of_nat (window g) < 65535 + 16 ->
  hp_bitoffset hp0 + Z.of_nat (window g) < 8 * hp_allocsize hp0 + 14 ->
  exists hp' m', putbits_default true hp c m = Some (c <| rc_underflowBits := 0 |>, hp', m') /\
    written hp0 (flushed g (rc_lower c)) hp'.
Proof.
  intros Hok0 HI HN Hu W Hw Hroom. unfold putbits_default. pose proof (shift_of_None _ _ HI HN). unfold interval in HI. unfold window in *.
  rewrite mask1, land_pow2, bit14_low by lia. change (2 ^ 14) with 16384.
  assert (negb ((if 16384 <=? rc_lower c then 16384 else 0) =? 0) = (16384 <=? rc_lower c)) as -> by by destruct (_ <=? _).
  rewrite Hu. assert (u16 (Z.of_nat g.2 + 1) = Z.of_nat (S g.2)) as -> by (rewrite u16_small; lia). rewrite Nat2Z.id.
  destruct (put_pending hp0 g.1 hp (16384 <=? rc_lower c) (S g.2) Hok0 W) as (hp1 & Ep & W1); [lia|].
  destruct (hputbit hp _) as [[h1 r1]|]; [|done]. cbn [mbind option_bind] in *. rewrite Ep. cbn [mbind option_bind].
  by eexists _, _.
Qed.

(** ** The decoder's loop *)

(** The decoder's [code]: the next sixteen bits, relative to what lies behind the
    interval. *)
Definition code_at (X : list bool) (g : ghost) : Z := num (take (window g) X) - base g.

Lemma inside_code X g lo up : inside X g lo up <-> lo <= code_at X g <= up.
Proof. unfold inside, code_at. lia. Qed.

Lemma code_push X g s b : X !! window g = Some b -> code_at X (push g s) = 2 * code_at X g + Z.b2z b - offset s.
Proof. intros Hb. unfold code_at. rewrite window_push, (num_take_S _ _ b Hb), base_push. lia. Qed.

Definition with_code (lo up v : Z) (c : ramcoder) : ramcoder :=
  c <| rc_lower := lo |> <| rc_upper := up |> <| rc_code := v |>.

(** One round of the loop, with the bit that comes next or -1 for none. *)
Lemma getbits_round c s hp hp' b fuel m : interval (rc_lower c) (rc_upper c) -> shift_of (rc_lower c) (rc_upper c) = Some s ->
  rc_lower c <= rc_code c <= rc_upper c -> hgetbit hp = Some (hp', b) -> -1 <= b <= 1 ->
  getbits_loop (S fuel) hp c m =
  if 0 <=? b then getbits_loop fuel hp'
    (with_code (2 * rc_lower c - offset s) (2 * rc_upper c + 1 - offset s) (2 * rc_code c + b - offset s) c) (m + 1)
  else Some (with_code (2 * rc_lower c - offset s) (2 * rc_upper c + 1 - offset s) (2 * rc_code c - offset s) c, hp', m).
Proof.
  intros HI Es Hin Hg Hb. cbn [getbits_loop]. rewrite !state_spec, Es by done.
  pose proof (shift_lower (rc_lower c) s _ _ HI Es) as Hl. pose proof (shift_lower (rc_upper c) s _ _ HI Es) as Hup.
  pose proof (shift_lower (rc_code c) s _ _ HI Es Hin) as Hcd. unfold interval in HI. specialize (Hl ltac:(lia)). specialize (Hup ltac:(lia)).
  rewrite Hg. destruct s as [d|]; cbn [state_code Z.eqb mbind option_bind].
  - rewrite shiftbits_spec by lia. cbn [mbind option_bind]. rewrite Hl, Hup.
    assert (u16 (Z.shiftl (rc_code c) 1) = 2 * rc_code c - offset (Out d)) as E0 by (rewrite shl1_u16 by lia; rewrite Hcd; by destruct d).
    destruct (Z.leb_spec 0 b); [|destruct c, d; cbn in *; by rewrite E0].
    assert (u16 (Z.lor (u16 (Z.shiftl (rc_code c) 1)) b) = 2 * rc_code c + b - offset (Out d)) as E.
    { assert (b = Z.b2z (b =? 1)) as -> by (destruct (Z.eqb_spec b 1); cbn; lia). rewrite shift_in_u16 by lia. rewrite Hcd. by destruct d. }
    destruct c, d; cbn in *; by rewrite E.
  - destruct Hl as (Hlo & Hhi & _). destruct Hcd as (_ & _ & Hy). specialize (Hy _ eq_refl). destruct Hy as [Hy1 Hy2].
    rewrite normalize_spec by lia. rewrite shiftbits_spec by (cbn; lia). cbn [mbind option_bind].
    cbn [rc_lower rc_upper upd]. cbn. destruct (Z.leb_spec 32768 (rc_lower c - 16384)); [lia|]. destruct (Z.leb_spec 32768 (rc_upper c + 16384)); [|lia].
    replace (2 * (rc_lower c - 16384) - 0) with (2 * rc_lower c - offset Under) by (cbn [offset]; lia).
    replace (2 * (rc_upper c + 16384) + 1 - 65536) with (2 * rc_upper c + 1 - offset Under) by (cbn [offset]; lia).
    assert (u16 (Z.shiftl (Z.lxor (rc_code c) (RAMMASK_BIT 1)) 1) = 2 * rc_code c - offset Under) as E0 by (rewrite shl1_u16 by lia; cbn [offset]; lia).
    destruct (Z.leb_spec 0 b); [|rewrite E0; by destruct c].
    assert (u16 (Z.lor (u16 (Z.shiftl (Z.lxor (rc_code c) (RAMMASK_BIT 1)) 1)) b) = 2 * rc_code c + b - offset Under) as ->.
    { assert (b = Z.b2z (b =? 1)) as -> by (destruct (Z.eqb_spec b 1); cbn; lia). rewrite shift_in_u16 by lia. cbn [offset]. lia. }
    by destruct c.
Qed.

Section Reading.
(** A stream whose bits up to [lim] are the first of [X]. *)
Context (hp0 : HUFF) (X : list bool) (lim : nat).
Hypothesis lim_X : (lim <= length X)%nat.
Hypothesis reads_X : forall k b, (k < lim)%nat -> X !! k = Some b ->
  hgetbit (advance hp0 (Z.of_nat k)) = Some (advance hp0 (Z.of_nat (S k)), Z.b2z b).

(** One round of the loop. *)
Lemma getbits_step c g s fuel m : interval (rc_lower c) (rc_upper c) -> shift_of (rc_lower c) (rc_upper c) = Some s ->
  rc_code c = code_at X g -> rc_lower c <= code_at X g <= rc_upper c -> (window g < lim)%nat ->
  getbits_loop (S fuel) (advance hp0 (Z.of_nat (window g))) c m =
  getbits_loop fuel (advance hp0 (Z.of_nat (window (push g s))))
    (with_code (2 * rc_lower c - offset s) (2 * rc_upper c + 1 - offset s) (code_at X (push g s)) c) (m + 1).
Proof.
  intros HI Es Hc Hin Hw. destruct (lookup_lt_is_Some_2 X (window g)) as [b Hb]; [lia|]. rewrite <- Hc in Hin.
  rewrite (getbits_round c s _ _ (Z.b2z b) fuel m HI Es Hin (reads_X _ b Hw Hb)) by (destruct b; cbn; lia).
  rewrite (code_push X g s b Hb), window_push, Hc. by destruct b.
Qed.

Lemma getbits_runs fuel : forall c g m ss lo' up', interval (rc_lower c) (rc_upper c) ->
  renorm fuel (rc_lower c) (rc_upper c) = Some (ss, lo', up') -> rc_code c = code_at X g ->
  inside X (foldl push g ss) lo' up' -> (window g + length ss <= lim)%nat ->
  exists m', getbits_loop fuel (advance hp0 (Z.of_nat (window g))) c m =
    Some (with_code lo' up' (code_at X (foldl push g ss)) c, advance hp0 (Z.of_nat (window (foldl push g ss))), m').
Proof.
  induction fuel as [|fuel IH]; intros c g m ss lo' up' HI E Hc HX Hw; [done|].
  assert (inside X g (rc_lower c) (rc_upper c)) as Hin by (eapply inside_renorm; [done|lia|done]).
  rewrite inside_code in Hin. rewrite renorm_S in E.
  destruct (shift_of (rc_lower c) (rc_upper c)) as [s|] eqn:Es.
  - destruct (renorm fuel _ _) as [[[ss1 l1] u1]|] eqn:E1; [|done]. cbn in E. simplify_eq. cbn [foldl length] in *.
    pose proof (shift_of_interval _ _ _ HI Es) as HI'. rewrite (getbits_step c g s) by (done || lia).
    destruct (IH (with_code (2 * rc_lower c - offset s) (2 * rc_upper c + 1 - offset s) (code_at X (push g s)) c)
      (push g s) (m + 1) ss1 lo' up') as (m' & E2); try done.
    { rewrite window_push. lia. }
    exists m'. rewrite E2. by destruct c.
  - simplify_eq. cbn [foldl getbits_loop]. rewrite state_spec, Es by done. cbn [state_code Z.eqb].
    exists m. rewrite <- Hc. by destruct c.
Qed.
End Reading.
