(* ===== verification/Coding.v ===== *)
(** * Coding: what the arithmetic coder writes is what it reads

    The correctness of [Ramcoder].  The table of frequencies stays strictly
    increasing with a sum below the width of every settled interval, so each symbol
    has a part of its own; a message is the trace of the coders between its symbols
    ([coded]), which the encoder writes and the decoder follows.  The two end
    symbols take fourteen rounds, so that the sixteen bits the decoder looks ahead
    are always in the stream. *)

From S2P Require Import Prelude Bits Stream Ramcoder.

(** ** The table of frequencies *)

Definition tab (r : list Z) (i : Z) : Z := nth (Z.to_nat i) r 0.

Lemma aget_tab r i : 0 <= i < Z.of_nat (length r) -> aget r i = Some (tab r i).
Proof.
  intros Hi. destruct (aget_is_Some r i Hi) as (x & Hx & ->). unfold tab. by rewrite nth_lookup, Hx.
Qed.

Lemma tab_insert r i x j : 0 <= i < Z.of_nat (length r) -> 0 <= j ->
  tab (<[Z.to_nat i := x]> r) j = if j =? i then x else tab r j.
Proof.
  intros Hi Hj. unfold tab. rewrite !nth_lookup. destruct (Z.eqb_spec j i) as [->|].
  - by rewrite list_lookup_insert_eq by lia.
  - by rewrite list_lookup_insert_ne by lia.
Qed.

(** The frequencies of the 257 symbols are positive; 16641 is the largest sum a
    seed gives. *)
Record table_ok (r : list Z) (cum : Z) : Prop := mk_table_ok {
  to_length : length r = 259%nat;
  to_first : tab r 0 = 0;
  to_step : forall i, 1 <= i <= 257 -> tab r (i - 1) < tab r i;
  to_sum : tab r 257 = cum;
  to_max : cum <= 16641;
}.

Lemma tab_mono_from r cum : table_ok r cum -> forall k i, 0 <= i -> i + Z.of_nat k <= 257 -> tab r i + Z.of_nat k <= tab r (i + Z.of_nat k).
Proof.
  intros T. induction k as [|k IH]; intros i Hi Hk.
  - replace (i + Z.of_nat 0) with i by lia. lia.
  - specialize (IH i Hi ltac:(lia)). pose proof (to_step _ _ T (i + Z.of_nat (S k)) ltac:(lia)) as H.
    replace (i + Z.of_nat (S k) - 1) with (i + Z.of_nat k) in H by lia. lia.
Qed.

Lemma tab_mono r cum i j : table_ok r cum -> 0 <= i <= j -> j <= 257 -> tab r i + (j - i) <= tab r j.
Proof.
  intros T Hi Hj. pose proof (tab_mono_from _ _ T (Z.to_nat (j - i)) i) as H.
  replace (i + Z.of_nat (Z.to_nat (j - i))) with j in H by lia. lia.
Qed.

Lemma tab_bounds r cum i : table_ok r cum -> 0 <= i <= 257 -> i <= tab r i <= cum - (257 - i).
Proof.
  intros T Hi. pose proof (tab_mono _ _ 0 i T) as H1. pose proof (tab_mono _ _ i 257 T) as H2.
  rewrite (to_first _ _ T) in H1. rewrite (to_sum _ _ T) in H2. lia.
Qed.

(** The frequency of the end symbol. *)
Definition end_freq (r : list Z) : Z := tab r 257 - tab r 256.

Lemma incr_loop r cum s : table_ok r cum -> 0 <= s <= 256 ->
  exists r', for_ (fun i r => x ← aget r i; aset r i (u16 (x + 1))) (s + 1) (Z.to_nat (257 - s)) r = Some r' /\
    length r' = 259%nat /\ forall j, 0 <= j <= 257 -> tab r' j = tab r j + if s <? j then 1 else 0.
Proof.
  intros T Hs. pose proof (to_length _ _ T) as Hlen. pose proof (to_max _ _ T).
  destruct (for_inv (fun i r' => length r' = 259%nat /\
      forall j, 0 <= j <= 257 -> tab r' j = tab r j + if (s <? j) && (j <? i) then 1 else 0)
    (fun i r => x ← aget r i; aset r i (u16 (x + 1))) (Z.to_nat (257 - s)) (s + 1) r) as (r' & -> & H1 & H2).
  - split; [done|]. intros j Hj. destruct (Z.ltb_spec s j), (Z.ltb_spec j (s + 1)); cbn; lia.
  - intros i r1 Hi [L1 T1]. rewrite aget_tab by lia. cbn [mbind option_bind]. rewrite aset_in_range by lia.
    eexists. split; [done|]. split; [by rewrite length_insert|]. intros j Hj. rewrite tab_insert by lia.
    pose proof (tab_bounds _ _ j T Hj). specialize (T1 j Hj). revert T1.
    destruct (Z.eqb_spec j i) as [E|].
    + rewrite <- E. destruct (Z.ltb_spec s j), (Z.ltb_spec j j), (Z.ltb_spec j (j + 1)); cbn; intros T1; try lia.
      rewrite u16_small; lia.
    + destruct (Z.ltb_spec s j), (Z.ltb_spec j i), (Z.ltb_spec j (i + 1)); cbn; intros T1; lia.
  - exists r'. split; [done|]. split; [done|]. intros j Hj. rewrite (H2 j Hj). replace (s + 1 + Z.of_nat (Z.to_nat (257 - s))) with 258 by lia.
    destruct (Z.ltb_spec s j), (Z.ltb_spec j 258); cbn; lia.
Qed.

(** [r] before, [r'] while the frequencies below [i] are rescaled. *)
Record rescaled (r : list Z) (i : Z) (s : list Z * Z * Z) : Prop := mk_rescaled {
  re_length : length s.1.1 = 259%nat;
  re_first : tab s.1.1 0 = 0;
  re_below : forall j, 1 <= j < i -> tab s.1.1 (j - 1) < tab s.1.1 j <= tab s.1.1 (j - 1) + Z.max 1 ((tab r j - tab r (j - 1)) / 2);
  re_above : forall j, i <= j <= 257 -> tab s.1.1 j = tab r j;
  re_original : s.1.2 = tab r (i - 1);
  re_cum : s.2 = tab s.1.1 (i - 1);
  re_bound : 0 <= tab s.1.1 (i - 1) <= i + tab r (i - 1) / 2;
  re_lower : tab r (i - 1) - (i - 1) <= 2 * tab s.1.1 (i - 1);
}.

Definition freqs (r : list Z) : Prop := tab r 0 = 0 /\ (forall i, 1 <= i <= 257 -> tab r (i - 1) < tab r i <= 16642) /\ length r = 259%nat.

Lemma freqs_nonneg r : freqs r -> forall i, 0 <= i <= 257 -> 0 <= tab r i <= 16642.
Proof.
  intros (H0 & Hs & _) i Hi. destruct (Z.eqb_spec i 0) as [->|]; [lia|].
  assert (forall k, 0 <= k -> k <= 256 -> 0 <= tab r k) as Hn.
  { intros k Hk. revert k Hk. apply (natlike_ind (fun k => k <= 256 -> 0 <= tab r k)); [lia|]. intros k Hk IH Hk2.
    specialize (Hs (Z.succ k) ltac:(lia)). replace (Z.succ k - 1) with k in Hs by lia. specialize (IH ltac:(lia)). lia. }
  pose proof (Hs i ltac:(lia)). pose proof (Hn (i - 1)). lia.
Qed.

Lemma rescale_step_ok r i s : freqs r -> 1 <= i <= 257 -> rescaled r i s ->
  exists s', rescale_step i s = Some s' /\ rescaled r (i + 1) s'.
Proof.
  intros F Hi [L Z0 Hb Ha Ho Hc Hbd Hlo]. destruct s as [[r' o] cum]. cbn [fst snd] in *. unfold rescale_step.
  rewrite !aget_tab, (Ha i) by lia. cbn [mbind option_bind]. subst o cum.
  destruct F as (F0 & Fs & FL). pose proof (Fs i Hi) as Hi1. pose proof (freqs_nonneg r (conj F0 (conj Fs FL)) (i - 1) ltac:(lia)) as Hi0.
  set (d := tab r i - tab r (i - 1)). rewrite (u16_small d) by (unfold d; lia).
  assert ((if d <=? 2 then u16 (tab r' (i - 1) + 1) else u16 (tab r' (i - 1) + d / 2)) = tab r' (i - 1) + Z.max 1 (d / 2)) as ->.
  { assert (0 < d <= 16642) as Hd by (unfold d; lia). destruct (Z.leb_spec d 2); rewrite u16_small; Z.div_mod_to_equations; lia. }
  set (p := tab r' (i - 1)) in *. assert (0 <= d / 2 /\ d / 2 + tab r (i - 1) / 2 <= tab r i / 2) as Hh by (unfold d in *; Z.div_mod_to_equations; lia).
  rewrite aset_in_range by lia. cbn [mbind option_bind].
  eexists. split; [done|]. replace (i + 1 - 1) with i by lia.
  assert (tab r i / 2 <= 8321) by (Z.div_mod_to_equations; lia).
  split; cbn [fst snd].
  - by rewrite length_insert.
  - rewrite tab_insert by lia. destruct (Z.eqb_spec 0 i); [lia|done].
  - intros j Hj. rewrite !tab_insert by lia. destruct (Z.eqb_spec (j - 1) i); [lia|]. destruct (Z.eqb_spec j i) as [E|].
    + subst j. fold d p. lia.
    + apply Hb. lia.
  - intros j Hj. rewrite tab_insert by lia. destruct (Z.eqb_spec j i); [lia|]. apply Ha. lia.
  - replace (i + 1 - 1) with i by lia. done.
  - replace (i + 1 - 1) with i by lia. rewrite tab_insert, Z.eqb_refl, u32_small by lia. lia.
  - replace (i + 1 - 1) with i by lia. rewrite tab_insert, Z.eqb_refl by lia. lia.
  - replace (i + 1 - 1) with i by lia. rewrite tab_insert, Z.eqb_refl by lia.
    assert (d - 1 <= 2 * (d / 2)) by (clear; Z.div_mod_to_equations; lia). lia.
Qed.

Lemma rescale_loop r : freqs r ->
  exists r' o cum, for_ rescale_step 1 257 (r, 0, 0) = Some (r', o, cum) /\ table_ok r' cum /\ cum < 16384 /\
    tab r 257 - 257 <= 2 * cum /\ end_freq r' <= Z.max 1 (end_freq r / 2).
Proof.
  intros F. pose proof F as (F0 & Fs & FL). destruct (for_inv (rescaled r) rescale_step 257 1 (r, 0, 0)) as ([[r' o] cum] & -> & H).
  - split; cbn [fst snd]; try done.
    + intros j Hj. lia.
    + change (1 - 1) with 0. rewrite F0. change (0 / 2) with 0. lia.
    + change (1 - 1) with 0. lia.
  - intros k s Hk. apply rescale_step_ok; [done|lia].
  - destruct H as [L Z0 Hb _ _ Hc Hbd Hlo]. change (1 + Z.of_nat 257 - 1) with 257 in *. change (1 + Z.of_nat 257) with 258 in *. cbn [fst snd] in *.
    exists r', o, cum. split; [done|]. pose proof (Fs 257 ltac:(lia)). assert (tab r 257 / 2 <= 8321) by (Z.div_mod_to_equations; lia).
    split; [|split; [lia|split; [lia|]]].
    + split; try done; try lia. intros i Hi. apply Hb. lia.
    + unfold end_freq. pose proof (Hb 257 ltac:(lia)) as H1. change (257 - 1) with 256 in H1. lia.
Qed.

(** ** One symbol *)

(** What every step keeps, whatever the stream holds. *)
Record coder_safe (c : ramcoder) : Prop := mk_coder_safe {
  cs_interval : interval (rc_lower c) (rc_upper c);
  cs_last : rc_lastsymbol c = 256;
  cs_upper_last : rc_upper_lastsymbol c = 257;
  cs_table : table_ok (rc_ranges c) (rc_cumulativeProb c);
}.

(** Between the symbols of a message: no more shifts, and every symbol has a part. *)
Record coder_ok (c : ramcoder) : Prop := mk_coder_ok {
  co_safe : coder_safe c;
  co_settled : shift_of (rc_lower c) (rc_upper c) = None;
  co_room : rc_cumulativeProb c <= rc_upper c - rc_lower c + 1;
  co_small : rc_cumulativeProb c <= 16384 \/ rc_upper c - rc_lower c + 1 = 65536;
}.

Definition set_interval (lo up : Z) (c : ramcoder) : ramcoder := c <| rc_lower := lo |> <| rc_upper := up |>.

(** The part of the interval of symbol [s]. *)
Definition part (c : ramcoder) (s : Z) : Z :=
  tab (rc_ranges c) s * (rc_upper c - rc_lower c + 1) / rc_cumulativeProb c.

Lemma part_range c s : coder_safe c -> 0 <= s <= 257 -> 0 <= part c s <= rc_upper c - rc_lower c + 1.
Proof.
  intros [HI _ _ T] Hs. unfold part, interval in *. pose proof (tab_bounds _ _ s T ltac:(lia)).
  split; [apply Z.div_pos; nia|]. apply Z.div_le_upper_bound; nia.
Qed.

Lemma part_bounds c s : coder_ok c -> 0 <= s <= 256 ->
  0 <= part c s < part c (s + 1) /\ part c (s + 1) <= rc_upper c - rc_lower c + 1.
Proof.
  intros [Hsafe _ HR _] Hs. pose proof (part_range c s Hsafe ltac:(lia)). pose proof (part_range c (s + 1) Hsafe ltac:(lia)).
  split; [split; [lia|]|lia]. destruct Hsafe as [HI _ _ T]. unfold part, interval in *.
  set (R := rc_upper c - rc_lower c + 1) in *. set (C := rc_cumulativeProb c) in *.
  pose proof (tab_bounds _ _ s T ltac:(lia)). pose proof (tab_bounds _ _ (s + 1) T ltac:(lia)).
  pose proof (to_step _ _ T (s + 1) ltac:(lia)) as Hst. replace (s + 1 - 1) with s in Hst by lia.
  apply Z.lt_le_trans with ((tab (rc_ranges c) s * R + 1 * C) / C); [rewrite Z.div_add by lia; lia|]. apply Z.div_le_mono; nia.
Qed.

Lemma narrow_spec c s : coder_safe c -> 0 <= s <= 256 -> part c s < part c (s + 1) ->
  ramcoder_narrow s c = Some (set_interval (rc_lower c + part c s) (rc_lower c + part c (s + 1) - 1) c).
Proof.
  intros Hok Hs Hp. pose proof (part_range c s Hok ltac:(lia)). pose proof (part_range c (s + 1) Hok ltac:(lia)). destruct Hok as [HI _ _ T]. unfold interval in HI.
  pose proof (tab_bounds _ _ s T ltac:(lia)) as Ha. pose proof (tab_bounds _ _ (s + 1) T ltac:(lia)) as Hb. pose proof (to_length _ _ T). pose proof (to_max _ _ T).
  unfold ramcoder_narrow. rewrite !aget_tab by lia. cbn [mbind option_bind]. rewrite (u32_small (rc_upper c - rc_lower c)), (u32_small (_ + 1)) by lia.
  destruct (Z.eqb_spec (rc_cumulativeProb c) 0); [lia|]. unfold part in *. set (R := rc_upper c - rc_lower c + 1) in *.
  set (a := tab _ s) in *. set (b := tab _ (s + 1)) in *.
  assert (0 <= a * R < 4294967296 /\ 0 <= b * R < 4294967296) as [Q1 Q2] by nia. rewrite !u32_small by done.
  set (A := a * R / _) in *. set (B := b * R / _) in *. rewrite (u16_small A) by lia. rewrite (u16_small (_ + A)) by lia.
  assert (u16 (rc_lower c + u16 B - 1) = rc_lower c + B - 1) as ->; [|by destruct c].
  destruct (Z.eqb_spec B 65536) as [->|]; [|rewrite (u16_small B) by lia; apply u16_small; lia].
  assert (rc_lower c = 0) as -> by lia. done.
Qed.

(** The value looked up for a code of the interval. *)
Lemma unscaled_value c : coder_safe c -> rc_lower c <= rc_code c <= rc_upper c ->
  let p := ((rc_code c - rc_lower c + 1) * rc_cumulativeProb c - 1) / (rc_upper c - rc_lower c + 1) in
  RAMDECODER_UNSCALED c = Some p /\ u16 p = p /\ 0 <= p < rc_cumulativeProb c.
Proof.
  intros [HI _ _ T] Hv p. unfold interval in HI. pose proof (tab_bounds _ _ 257 T ltac:(lia)). pose proof (to_max _ _ T).
  unfold RAMDECODER_UNSCALED. rewrite (u32_small (rc_upper c - rc_lower c)), (u32_small (rc_code c - rc_lower c)), !(u32_small (_ + 1)) by lia.
  destruct (Z.eqb_spec (rc_upper c - rc_lower c + 1) 0); [lia|]. rewrite u32_small by nia. fold p.
  assert (0 <= p < rc_cumulativeProb c) as Hp by (unfold p; split; [apply Z.div_pos; nia|apply Z.div_lt_upper_bound; nia]).
  split; [done|]. split; [|done]. apply u16_small. lia.
Qed.

(** The code lies in the part of the symbol in whose range the value lies. *)
Lemma unscaled_part c s : coder_safe c -> 0 <= s <= 256 -> rc_lower c <= rc_code c <= rc_upper c ->
  let p := ((rc_code c - rc_lower c + 1) * rc_cumulativeProb c - 1) / (rc_upper c - rc_lower c + 1) in
  tab (rc_ranges c) s <= p < tab (rc_ranges c) (s + 1) <->
  rc_lower c + part c s <= rc_code c <= rc_lower c + part c (s + 1) - 1.
Proof.
  intros [HI _ _ T] Hs Hv. unfold interval in HI. pose proof (tab_bounds _ _ 257 T ltac:(lia)).
  pose proof (tab_bounds _ _ s T ltac:(lia)) as Ha. pose proof (tab_bounds _ _ (s + 1) T ltac:(lia)) as Hb.
  unfold part. set (R := rc_upper c - rc_lower c + 1) in *. set (C := rc_cumulativeProb c) in *.
  set (a := tab _ s) in *. set (b := tab _ (s + 1)) in *. set (t := rc_code c - rc_lower c). cbv zeta.
  pose proof (Z.mul_div_le (b * R) C ltac:(lia)) as B1. pose proof (Z.mul_succ_div_gt (b * R) C ltac:(lia)) as B2.
  pose proof (Z.mul_div_le (a * R) C ltac:(lia)) as A1. pose proof (Z.mul_succ_div_gt (a * R) C ltac:(lia)) as A2.
  pose proof (Z.mul_div_le ((t + 1) * C - 1) R ltac:(lia)) as P1. pose proof (Z.mul_succ_div_gt ((t + 1) * C - 1) R ltac:(lia)) as P2.
  set (p := ((t + 1) * C - 1) / R) in *. set (A := a * R / C) in *. set (B := b * R / C) in *.
  split; intros [H1 H2].
  - assert (A <= t) by (destruct (Z.leb_spec A t); [done|exfalso; nia]). assert (t + 1 <= B) by (destruct (Z.leb_spec (t + 1) B); [done|exfalso; nia]). lia.
  - assert (A <= t /\ t + 1 <= B) as [] by lia. split; [destruct (Z.leb_spec a p); [done|exfalso; nia]|destruct (Z.ltb_spec p b); [done|exfalso; nia]].
Qed.

(** Every value below the sum is in the range of a symbol. *)
Lemma symbol_of r cum p : table_ok r cum -> 0 <= p < cum -> exists s, 0 <= s <= 256 /\ tab r s <= p < tab r (s + 1).
Proof.
  intros T Hp. assert (forall k : nat, (k <= 257)%nat -> p < tab r (Z.of_nat k) -> exists s, 0 <= s <= 256 /\ tab r s <= p < tab r (s + 1)) as H.
  { induction k as [|k IH]; intros Hk Hlt; [change (Z.of_nat 0) with 0 in Hlt; rewrite (to_first _ _ T) in Hlt; lia|].
    destruct (Z.ltb_spec p (tab r (Z.of_nat k))); [by apply IH; [lia|]|]. exists (Z.of_nat k).
    replace (Z.of_nat k + 1) with (Z.of_nat (S k)) by lia. lia. }
  apply (H 257%nat); [done|]. change (Z.of_nat 257) with 257. rewrite (to_sum _ _ T). lia.
Qed.

Lemma bsearch_finds r cum p s : table_ok r cum -> 0 <= s <= 256 -> tab r s <= p < tab r (s + 1) ->
  forall fuel first last, 0 <= first <= s -> s <= last <= 257 -> last - first < Z.of_nat fuel -> bsearch_loop fuel p r first last = Some s.
Proof.
  intros T Hs Hp. induction fuel as [|fuel IH]; intros first last Hf Hl Hfu; [lia|]. cbn [bsearch_loop].
  pose proof (to_length _ _ T). destruct (Z.leb_spec first last); [|lia].
  assert (first <= first + (last - first) / 2 <= last) as Hm by (Z.div_mod_to_equations; lia).
  set (mid := first + (last - first) / 2) in *. rewrite (aget_tab r mid) by lia. cbn [mbind option_bind].
  destruct (Z.ltb_spec p (tab r mid)) as [Hlt|Hge].
  - apply IH; try lia. destruct (Z.leb_spec mid s); [|lia]. pose proof (tab_mono _ _ mid s T). lia.
  - assert (mid <= s) by (destruct (Z.leb_spec mid s); [lia|]; pose proof (tab_mono _ _ (s + 1) mid T); lia).
    rewrite aget_tab by lia. cbn [mbind option_bind]. destruct (Z.leb_spec (tab r (mid + 1)) p) as [Hle|Hgt].
    + apply IH; try lia. destruct (Z.eqb_spec mid s) as [E|]; [rewrite E in Hle; lia|lia].
    + f_equal. destruct (Z.leb_spec s mid); [lia|]. pose proof (tab_mono _ _ (mid + 1) s T). lia.
Qed.

Lemma adapt_spec c s : coder_safe c -> 0 <= s <= 256 ->
  exists r cum, ramcoder_adapt s c = Some (c <| rc_cumulativeProb := cum |> <| rc_ranges := r |> <| rc_counter := u16 (rc_counter c + 1) |>) /\
    table_ok r cum /\ cum < 16384 /\ Z.min (rc_cumulativeProb c) 8000 <= cum /\
    end_freq r <= Z.max 1 (end_freq (rc_ranges c) + if s =? 256 then 1 else 0).
Proof.
  intros [_ _ Hn T] Hs. unfold ramcoder_adapt. rewrite Hn. pose proof (to_max _ _ T). pose proof (tab_bounds _ _ 257 T ltac:(lia)).
  destruct (incr_loop _ _ s T Hs) as (r1 & -> & L1 & T1). cbn [mbind option_bind]. rewrite u32_small by lia.
  assert (forall j, 1 <= j <= 257 -> tab r1 (j - 1) < tab r1 j) as Hstep.
  { intros j Hj. rewrite !T1 by lia. pose proof (to_step _ _ T j Hj). destruct (Z.ltb_spec s (j - 1)), (Z.ltb_spec s j); lia. }
  assert (tab r1 0 = 0) as Hz by (rewrite T1, (to_first _ _ T) by lia; destruct (Z.ltb_spec s 0); lia).
  assert (tab r1 257 = rc_cumulativeProb c + 1) as Hsum by (rewrite T1, (to_sum _ _ T) by lia; destruct (Z.ltb_spec s 257); lia).
  assert (end_freq r1 = end_freq (rc_ranges c) + if s =? 256 then 1 else 0) as He.
  { unfold end_freq. rewrite !T1 by lia. destruct (Z.ltb_spec s 257), (Z.ltb_spec s 256), (Z.eqb_spec s 256); lia. }
  change (Z.shiftl 1 (8 * 2 - 2)) with 16384. destruct (Z.leb_spec 16384 (rc_cumulativeProb c + 1)).
  - assert (freqs r1) as F.
    { split; [done|]. split; [|done]. intros j Hj. split; [by apply Hstep|]. rewrite T1 by lia. pose proof (tab_bounds _ _ j T). destruct (s <? j); lia. }
    destruct (rescale_loop r1 F) as (r' & o & cum' & E & T' & Hc & Hlo & He'). change (Z.to_nat 257) with 257%nat. rewrite E. cbn [mbind option_bind].
    exists r', cum'. split; [done|]. split; [done|]. split; [done|]. split; [lia|]. rewrite <- He. clear - He'. Z.div_mod_to_equations. lia.
  - cbn [mbind option_bind]. exists r1, (rc_cumulativeProb c + 1). split; [done|]. split; [|split; [|split]; lia]. split; try done; lia.
Qed.

(** The update reads neither the interval nor the code. *)
Ltac same_update c :=
  destruct c; unfold ramcoder_adapt; cbn [rc_cumulativeProb rc_upper_lastsymbol rc_ranges rc_counter];
  cbn; match goal with |- context [for_ ?f ?i ?n ?r] => destruct (for_ f i n r) as [r1|]; [|done] end; cbn;
  match goal with |- context [if ?b then _ else _] => destruct b; cbn; [|done] end;
  match goal with |- context [for_ ?f ?i ?n ?r] => destruct (for_ f i n r) as [[[r2 o2] cum2]|]; done end.

Lemma adapt_interval s lo up c : ramcoder_adapt s (set_interval lo up c) = set_interval lo up <$> ramcoder_adapt s c.
Proof. same_update c. Qed.

Definition upd_symbol (s : Z) (c : ramcoder) : option ramcoder := c ← ramcoder_narrow s c; ramcoder_adapt s c.

Lemma update_bits s c putflags hp : ramcoder_update s c true putflags hp =
  (c ← upd_symbol s c; match putflags with Some fl => ramcoder_putbits hp c fl | None => ramcoder_getbits hp c end).
Proof. unfold ramcoder_update, upd_symbol. by destruct (ramcoder_narrow s c). Qed.

Lemma symbol_safe c s : coder_safe c -> 0 <= s <= 256 -> part c s < part c (s + 1) ->
  exists c1, upd_symbol s c = Some c1 /\ coder_safe c1 /\
    rc_lower c1 = rc_lower c + part c s /\ rc_upper c1 = rc_lower c + part c (s + 1) - 1 /\
    rc_code c1 = rc_code c /\ rc_underflowBits c1 = rc_underflowBits c /\
    rc_cumulativeProb c1 < 16384 /\ Z.min (rc_cumulativeProb c) 8000 <= rc_cumulativeProb c1 /\
    end_freq (rc_ranges c1) <= Z.max 1 (end_freq (rc_ranges c) + if s =? 256 then 1 else 0).
Proof.
  intros Hsafe Hs Hp. pose proof (part_range c s Hsafe ltac:(lia)). pose proof (part_range c (s + 1) Hsafe ltac:(lia)).
  unfold upd_symbol. rewrite narrow_spec by done. cbn [mbind option_bind].
  destruct (adapt_spec c s Hsafe Hs) as (r & cum & E & T & Hc & Hlo & He). destruct Hsafe as [HI HL HU _]. unfold interval in HI.
  rewrite adapt_interval, E. cbn [fmap option_fmap option_map]. eexists. split; [done|].
  split; [|by destruct c]. split; [|by destruct c..]. unfold interval. destruct c. cbn in *. lia.
Qed.

Lemma symbol_ok c s : coder_ok c -> 0 <= s <= 256 ->
  exists c1 ss lo up, upd_symbol s c = Some c1 /\
    rc_lower c1 = rc_lower c + part c s /\ rc_upper c1 = rc_lower c + part c (s + 1) - 1 /\
    interval (rc_lower c1) (rc_upper c1) /\ rc_underflowBits c1 = rc_underflowBits c /\
    renorm 17 (rc_lower c1) (rc_upper c1) = Some (ss, lo, up) /\ (length ss <= 16)%nat /\
    (forall u, coder_ok (at_interval lo up u c1)) /\
    up - lo + 1 = (part c (s + 1) - part c s) * 2 ^ Z.of_nat (length ss) /\
    end_freq (rc_ranges c1) <= Z.max 1 (end_freq (rc_ranges c) + if s =? 256 then 1 else 0).
Proof.
  intros Hok Hs. pose proof (part_bounds c s Hok Hs) as Hp. pose proof Hok as [Hsafe _ _ _].
  destruct (symbol_safe c s Hsafe Hs) as (c1 & E & Hsafe1 & El & Eu & _ & Hu & Hc & _ & He); [lia|].
  pose proof Hsafe1 as [HI1 HL HU T]. destruct (renorm_total 16 _ _ HI1) as (ss & lo & up & Er & Hlen & HI2 & HN & HR).
  { change (2 ^ Z.of_nat 16) with 65536. unfold interval in HI1. lia. }
  exists c1, ss, lo, up. repeat (split; [done|]). split; [|split; [|done]].
  - intros u. pose proof (shift_of_None _ _ HI2 HN). split; [by split; destruct c1|by destruct c1|..]; unfold interval in HI2; destruct c1; cbn in *; lia.
  - rewrite HR, El, Eu. f_equal. lia.
Qed.

(** The width of the end symbol. *)
Lemma end_part c w : coder_ok c -> end_freq (rc_ranges c) <= w ->
  part c 257 - part c 256 <= (w * (rc_upper c - rc_lower c + 1) + 256) / 257.
Proof.
  intros Hok Hw. pose proof (part_bounds c 256 Hok ltac:(lia)) as Hp. pose proof Hok as [[HI _ _ T] _ _ _]. unfold interval, end_freq in *.
  pose proof (tab_bounds _ _ 257 T ltac:(lia)) as Hc. rewrite (to_sum _ _ T) in Hw, Hc. unfold part in *. rewrite (to_sum _ _ T) in *.
  set (R := rc_upper c - rc_lower c + 1) in *. set (C := rc_cumulativeProb c) in *. set (a := tab _ 256) in *.
  rewrite (Z.mul_comm C R), Z.div_mul in * by lia. change (256 + 1) with 257 in Hp. rewrite (to_sum _ _ T) in Hp. fold C in Hp. rewrite (Z.mul_comm C R), Z.div_mul in Hp by lia.
  apply Z.div_le_lower_bound; [lia|]. pose proof (Z.mul_succ_div_gt (a * R) C ltac:(lia)) as Hg.
  set (q := a * R / C) in *. nia.
Qed.

(** The two end symbols take fourteen rounds. *)
Lemma two_ends R0 R1 R2 d1 d2 k1 k2 : R0 <= 65536 -> R1 <= 65536 -> 16385 < R1 -> 16385 < R2 -> 0 < d1 -> 0 < d2 ->
  d1 <= (1 * R0 + 256) / 257 -> d2 <= (2 * R1 + 256) / 257 ->
  R1 = d1 * 2 ^ Z.of_nat k1 -> R2 = d2 * 2 ^ Z.of_nat k2 -> (14 <= k1 + k2)%nat.
Proof.
  intros H0 H1 L1 L2 P1 P2 D1 D2 E1 E2.
  assert (d1 <= 256) as B1 by (Z.div_mod_to_equations; lia).
  assert (forall k n, (k <= n)%nat -> 2 ^ Z.of_nat k <= 2 ^ Z.of_nat n) as Hm by (intros; apply Z.pow_le_mono_r; lia).
  assert (7 <= k1)%nat as K1.
  { destruct (decide (7 <= k1)%nat); [done|]. specialize (Hm k1 6%nat ltac:(lia)). change (2 ^ Z.of_nat 6) with 64 in Hm. nia. }
  destruct (decide (k1 = 7%nat)) as [->|Hk].
  - change (2 ^ Z.of_nat 7) with 128 in E1. assert (d2 <= 256) by (clear - D2 E1 B1; Z.div_mod_to_equations; lia).
    destruct (decide (7 <= k2)%nat); [lia|]. specialize (Hm k2 6%nat ltac:(lia)). change (2 ^ Z.of_nat 6) with 64 in Hm. nia.
  - assert (d2 <= 511) by (clear - D2 H1; Z.div_mod_to_equations; lia).
    destruct (decide (6 <= k2)%nat); [lia|]. specialize (Hm k2 5%nat ltac:(lia)). change (2 ^ Z.of_nat 5) with 32 in Hm. nia.
Qed.

(** The decoder's coder: the encoder's, with a code of its own and no pending bits. *)
Definition set_code (v : Z) (c : ramcoder) : ramcoder := c <| rc_code := v |> <| rc_underflowBits := 0 |>.

Lemma adapt_code s v c : ramcoder_adapt s (set_code v c) = set_code v <$> ramcoder_adapt s c.
Proof. same_update c. Qed.

Lemma narrow_code s v c : ramcoder_narrow s (set_code v c) = set_code v <$> ramcoder_narrow s c.
Proof.
  destruct c. unfold ramcoder_narrow. cbn. destruct (aget _ s); [|done]. cbn. destruct (aget _ (s + 1)); [|done]. cbn.
  by destruct (_ =? 0).
Qed.

Lemma upd_code s v c : upd_symbol s (set_code v c) = set_code v <$> upd_symbol s c.
Proof. unfold upd_symbol. rewrite narrow_code. destruct (ramcoder_narrow s c); [|done]. cbn [fmap option_fmap option_map mbind option_bind]. apply adapt_code. Qed.

(** ** Coded messages

    A symbol takes a coder and the bits behind it to the next: the encoder writes
    the difference, the decoder finds the symbol from it. *)
Inductive coded_symbol (c : ramcoder) (g : ghost) (s : Z) (ss : list shift) : ramcoder -> ghost -> Prop :=
  coded_symbol_intro c1 lo up :
    coder_ok c -> 0 <= s <= 256 -> upd_symbol s c = Some c1 ->
    rc_lower c1 = rc_lower c + part c s -> rc_upper c1 = rc_lower c + part c (s + 1) - 1 ->
    renorm 17 (rc_lower c1) (rc_upper c1) = Some (ss, lo, up) ->
    coded_symbol c g s ss (at_interval lo up (Z.of_nat (foldl push g ss).2) c1) (foldl push g ss).

Inductive coded : ramcoder -> ghost -> list Z -> ramcoder -> ghost -> Prop :=
  | coded_nil c g : coded c g [] c g
  | coded_cons c g s ss c1 g1 syms c2 g2 :
      coded_symbol c g s ss c1 g1 -> coded c1 g1 syms c2 g2 -> coded c g (s :: syms) c2 g2.

Lemma coded_symbol_window c g s ss c1 g1 : coded_symbol c g s ss c1 g1 -> window g1 = (window g + length ss)%nat.
Proof. destruct 1. apply window_pushes. Qed.

Lemma coded_symbol_inside X c g s ss c1 g1 : coded_symbol c g s ss c1 g1 -> (window g1 <= length X)%nat ->
  inside X g1 (rc_lower c1) (rc_upper c1) ->
  inside X g (rc_lower c + part c s) (rc_lower c + part c (s + 1) - 1) /\ inside X g (rc_lower c) (rc_upper c).
Proof.
  intros H. destruct H as [c1 lo up Hok Hs _ El Eu Er]. rewrite window_pushes. intros Hw HX.
  assert (inside X g (rc_lower c1) (rc_upper c1)) as Hin by (eapply inside_renorm; [done|done|by destruct c1]).
  rewrite El, Eu in Hin. split; [done|]. pose proof (part_bounds c s Hok Hs). unfold inside in *. lia.
Qed.

Lemma coded_window c g syms c2 g2 : coded c g syms c2 g2 -> (window g <= window g2)%nat.
Proof. induction 1 as [|c g s ss c1 g1 syms c2 g2 H _ IH]; [done|]. apply coded_symbol_window in H. lia. Qed.

Lemma coded_inside X c g syms c2 g2 : coded c g syms c2 g2 -> (window g2 <= length X)%nat ->
  inside X g2 (rc_lower c2) (rc_upper c2) -> inside X g (rc_lower c) (rc_upper c).
Proof.
  induction 1 as [|c g s ss c1 g1 syms c2 g2 H H2 IH]; intros Hw HX; [done|].
  pose proof (coded_window _ _ _ _ _ H2). eapply coded_symbol_inside; [done|lia|by apply IH].
Qed.

(** *** The encoder *)

Record encoding (hp0 : HUFF) (c : ramcoder) (g : ghost) (hp : HUFF) : Prop := mk_encoding {
  en_coder : coder_ok c;
  en_pending : rc_underflowBits c = Z.of_nat g.2;
  en_written : written hp0 g.1 hp;
}.

(** Place in the buffer and in the 16-bit counter for [n] more symbols and the flush:
    a symbol takes fifteen rounds, save that the interval may be smaller than it
    was at the start, by the [m] rounds it has saved so far. *)
Definition has_room (hp0 : HUFF) (c : ramcoder) (g : ghost) (n : nat) : Prop := exists m : nat,
  65536 <= (rc_upper c - rc_lower c + 1) * 2 ^ Z.of_nat m /\
  Z.of_nat (window g + m + 15 * n) < 65535 + 16 /\
  hp_bitoffset hp0 + Z.of_nat (window g + m + 15 * n) < 8 * hp_allocsize hp0 + 14.

(** The part of a symbol is at least the interval divided by 2^15. *)
Lemma part_width c s : coder_ok c -> 0 <= s <= 256 -> rc_upper c - rc_lower c + 1 <= 32768 * (part c (s + 1) - part c s).
Proof.
  intros Hok Hs. pose proof Hok as [[HI _ _ T] _ HR Hsm]. unfold part, interval in *.
  pose proof (tab_bounds _ _ s T ltac:(lia)). pose proof (to_max _ _ T).
  pose proof (to_step _ _ T (s + 1) ltac:(lia)) as Hst. replace (s + 1 - 1) with s in Hst by lia.
  set (R := rc_upper c - rc_lower c + 1) in *. set (C := rc_cumulativeProb c) in *.
  set (a := tab _ s) in *. set (b := tab _ (s + 1)) in *.
  assert (a * R / C + R / C <= b * R / C) as Hd.
  { apply Z.div_le_lower_bound; [lia|]. pose proof (Z.mul_div_le (a * R) C ltac:(lia)). pose proof (Z.mul_div_le R C ltac:(lia)). nia. }
  assert (1 <= R / C) as H1 by (apply Z.div_le_lower_bound; lia).
  pose proof (Z.mul_succ_div_gt R C ltac:(lia)) as Hg. set (w := R / C) in *.
  assert (R <= 32768 * w); [|lia]. destruct Hsm as [Hsm|Hsm]; [nia|].
  assert (2 <= w); [|lia]. unfold w. apply Z.div_le_lower_bound; lia.
Qed.

(** [s] rounds double a part of at least [R / 2^15] to [R'] at most 65536. *)
Lemma save_rounds R d R' (s m : nat) : R <= 32768 * d -> R' = d * 2 ^ Z.of_nat s -> R' <= 65536 ->
  65536 <= R * 2 ^ Z.of_nat m -> 0 < d ->
  exists m' : nat, (s + m' = m + 15)%nat /\ 65536 <= R' * 2 ^ Z.of_nat m'.
Proof.
  intros H1 H2 H3 H4 Hd. assert (s <= m + 15)%nat as Hs.
  { destruct (decide (s <= m + 15)%nat) as [|Hn]; [done|].
    assert (2 ^ Z.of_nat (m + 16) <= 2 ^ Z.of_nat s) as Hp by (apply Z.pow_le_mono_r; lia).
    rewrite Nat2Z.inj_add, Z.pow_add_r in Hp by lia. change (2 ^ Z.of_nat 16) with 65536 in Hp.
    assert (0 < 2 ^ Z.of_nat m) by (apply Z.pow_pos_nonneg; lia). nia. }
  exists (m + 15 - s)%nat. split; [lia|]. rewrite H2, <- Z.mul_assoc, <- Z.pow_add_r by lia.
  replace (Z.of_nat s + Z.of_nat (m + 15 - s)) with (15 + Z.of_nat m) by lia. rewrite Z.pow_add_r by lia.
  change (2 ^ 15) with 32768. assert (0 < 2 ^ Z.of_nat m) by (apply Z.pow_pos_nonneg; lia). nia.
Qed.

Lemma encode_symbol hp0 c g hp s fl n : stream_ok hp0 -> encoding hp0 c g hp -> 0 <= s <= 256 -> has_room hp0 c g (S n) ->
  exists ss c' g' hp' m', ramcoder_update s c true (Some fl) hp = putbits_default fl hp' c' m' /\
    coded_symbol c g s ss c' g' /\ encoding hp0 c' g' hp' /\ has_room hp0 c' g' n /\
    rc_upper c' - rc_lower c' + 1 = (part c (s + 1) - part c s) * 2 ^ Z.of_nat (length ss) /\
    end_freq (rc_ranges c') <= Z.max 1 (end_freq (rc_ranges c) + if s =? 256 then 1 else 0).
Proof.
  intros Hok0 [Hok Hu W] Hs (m & Hm & Hr1 & Hr2).
  destruct (symbol_ok c s Hok Hs) as (c1 & ss & lo & up & E & El & Eu & HI & Eu1 & Er & Hlen & Hok' & HR & He).
  pose proof (part_bounds c s Hok Hs). assert (interval lo up) as HI2 by apply (cs_interval _ (co_safe _ (Hok' 0))). unfold interval in HI2.
  destruct (save_rounds _ _ (up - lo + 1) (length ss) m (part_width c s Hok Hs) HR) as (m' & Em & Hm'); [lia|done|lia|].
  destruct (putbits_runs hp0 fl 17 Hok0 c1 hp g 0 ss lo up HI Er) as (hp' & n' & Ep & W'); [congruence|done|lia|lia|].
  exists ss, (at_interval lo up (Z.of_nat (foldl push g ss).2) c1), (foldl push g ss), hp', n'.
  rewrite update_bits, E. cbn [mbind option_bind]. unfold ramcoder_putbits. split; [done|]. split; [by econstructor|].
  split; [split; [apply Hok'|by destruct c1|done]|].
  split; [exists m'; rewrite window_pushes; split; [by destruct c1|lia]|]. by destruct c1.
Qed.

Lemma emit_spec hp0 buf : stream_ok hp0 -> bytes buf -> forall k i c g hp nb, (i + k <= length buf)%nat ->
  encoding hp0 c g hp -> has_room hp0 c g (k + 2) -> end_freq (rc_ranges c) <= 1 ->
  exists c' g' hp' nb', for_ (fun i '(coder, hp, numbits) =>
      symbol ← aget buf i;
      '(coder, hp, n) ← ramcoder_update symbol coder true (Some false) hp;
      Some (coder, hp, numbits + n)) (Z.of_nat i) k (c, hp, nb) = Some (c', hp', nb') /\
    coded c g (take k (drop i buf)) c' g' /\ encoding hp0 c' g' hp' /\ has_room hp0 c' g' 2 /\ end_freq (rc_ranges c') <= 1.
Proof.
  intros Hok0 Hb. induction k as [|k IH]; intros i c g hp nb Hi He Hr Hf.
  - exists c, g, hp, nb. split; [done|]. split; [constructor|done].
  - cbn [for_]. destruct (lookup_lt_is_Some_2 buf i) as [s Es]; [lia|]. rewrite aget_of_nat, Es. cbn [mbind option_bind].
    assert (is_byte s) as Hs by (unfold bytes in Hb; rewrite list.Forall_forall in Hb; apply Hb; by eapply list_elem_of_lookup_2).
    unfold is_byte in Hs. change (S k + 2)%nat with (S (k + 2)) in Hr.
    destruct (encode_symbol hp0 c g hp s false _ Hok0 He ltac:(lia) Hr) as (ss & c1 & g1 & hp1 & m1 & E & Hc & He1 & Hr1 & _ & Hf1).
    rewrite E. unfold putbits_default. cbn [mbind option_bind]. destruct (Z.eqb_spec s 256); [lia|].
    replace (Z.of_nat i + 1) with (Z.of_nat (S i)) by lia.
    destruct (IH (S i) c1 g1 hp1 (nb + m1)) as (c2 & g2 & hp2 & nb2 & E2 & Hc2 & He2 & Hr2 & Hf2); [lia|done|done|lia|].
    exists c2, g2, hp2, nb2. split; [exact E2|]. split; [|done].
    rewrite (drop_S _ _ _ Es). cbn [take]. by econstructor.
Qed.

(** *** The start *)

Lemma seed_bit_ok seed i : (8 <= length seed)%nat -> 1 <= i ->
  exists b, seed_bit seed i = Some b /\ 0 <= b <= 1 /\ (64 < i -> b = 0).
Proof.
  intros Hlen Hi. unfold seed_bit. change (8 * 8) with 64. destruct (Z.leb_spec i 64); [|by exists 0].
  unfold GETBIT. rewrite Z.add_0_l, shiftr_3.
  destruct (aget_is_Some seed ((i - 1) / 8)) as (x & _ & ->); [Z.div_mod_to_equations; lia|]. cbn [mbind option_bind].
  eexists. split; [done|]. split; [by destruct (negb _)|lia].
Qed.

(** The ranges below [i] are made. *)
Record ranged (i : Z) (r : list Z) : Prop := mk_ranged {
  ra_length : length r = 259%nat;
  ra_first : tab r 0 = 0;
  ra_step : forall j, 1 <= j < i -> tab r (j - 1) < tab r j;
  ra_end : forall j, 64 < j < i -> tab r j = tab r (j - 1) + 1;
  ra_bound : 0 <= tab r (i - 1) <= i - 1 + 256 * Z.min 64 (i - 1);
}.

Lemma ranged_step seed i r : (8 <= length seed)%nat -> 1 <= i <= 257 -> ranged i r ->
  exists r', (p ← aget r (i - 1); b ← seed_bit seed i; aset r i (u16 (p + 1 + 256 * b))) = Some r' /\ ranged (i + 1) r'.
Proof.
  intros Hseed Hi [L Z0 Hs He Hb]. rewrite aget_tab by lia. cbn [mbind option_bind].
  destruct (seed_bit_ok seed i Hseed) as (b & -> & Hb1 & Hb0); [lia|]. cbn [mbind option_bind]. rewrite aset_in_range by lia.
  eexists. split; [done|]. rewrite u16_small by lia. split.
  - by rewrite length_insert.
  - rewrite tab_insert by lia. destruct (Z.eqb_spec 0 i); [lia|done].
  - intros j Hj. rewrite !tab_insert by lia. destruct (Z.eqb_spec (j - 1) i); [lia|]. destruct (Z.eqb_spec j i) as [->|]; [lia|]. apply Hs. lia.
  - intros j Hj. rewrite !tab_insert by lia. destruct (Z.eqb_spec (j - 1) i); [lia|].
    destruct (Z.eqb_spec j i) as [->|]; [rewrite Hb0 by lia; lia|]. apply He. lia.
  - replace (i + 1 - 1) with i by lia. rewrite tab_insert, Z.eqb_refl by lia. destruct (Z.leb_spec i 64); [lia|]. rewrite Hb0 by lia. lia.
Qed.

Lemma init_spec seed : (8 <= length seed)%nat ->
  exists r cum, let c := mk_ramcoder cum 0 65535 0 0 256 257 0 r in
    coder_ok c /\ end_freq r = 1 /\ init_ramcoder cleared_coder None seed = Some (c, None) /\
    forall hp, init_ramcoder cleared_coder (Some hp) seed =
      ('(code, hp) ← for_ (fun _ '(code, hp) => '(hp, b) ← hgetbit hp; Some (u16 (Z.lor (Z.shiftl code 1) b), hp)) 0 16 (0, hp);
       Some (c <| rc_code := code |>, Some hp)).
Proof.
  intros Hseed. set (r0 := <[Z.to_nat 0 := 0]> (repeat 0 259)).
  destruct (for_inv ranged (fun i r => p ← aget r (i - 1); b ← seed_bit seed i; aset r i (u16 (p + 1 + 256 * b))) 257 1 r0) as (r & Er & HR).
  { split; try done; lia. }
  { intros k r Hk. apply ranged_step; [done|lia]. }
  change (1 + Z.of_nat 257) with 258 in HR. destruct HR as [L Z0 Hs He Hb]. change (258 - 1) with 257 in Hb.
  assert (forall i, 1 <= i <= 257 -> 0 <= tab r (i - 1) < tab r i /\ tab r i <= tab r 257) as Hm.
  { assert (forall k : nat, (k <= 256)%nat -> forall i, i = Z.of_nat k -> 0 <= tab r i) as H1.
    { induction k as [|k IH]; intros Hk i ->; [change (Z.of_nat 0) with 0; lia|].
      pose proof (Hs (Z.of_nat (S k)) ltac:(lia)) as H1. replace (Z.of_nat (S k) - 1) with (Z.of_nat k) in H1 by lia.
      specialize (IH ltac:(lia) _ eq_refl). lia. }
    assert (forall k : nat, (k <= 256)%nat -> tab r (257 - Z.of_nat k) <= tab r 257) as H2.
    { induction k as [|k IH]; intros Hk; [change (257 - Z.of_nat 0) with 257; lia|].
      pose proof (Hs (257 - Z.of_nat k) ltac:(lia)) as H2. replace (257 - Z.of_nat k - 1) with (257 - Z.of_nat (S k)) in H2 by lia.
      specialize (IH ltac:(lia)). lia. }
    intros i Hi. pose proof (Hs i ltac:(lia)). pose proof (H1 (Z.to_nat (i - 1)) ltac:(lia) (i - 1) ltac:(lia)).
    pose proof (H2 (Z.to_nat (257 - i)) ltac:(lia)) as H3. replace (257 - Z.of_nat (Z.to_nat (257 - i))) with i in H3 by lia. lia. }
  destruct (for_inv (fun i cum => cum = tab r (i - 1))
    (fun i cum => x ← aget r i; p ← aget r (i - 1); Some (u32 (cum + (x - p)))) 257 1 0) as (cum & Ec & Hc).
  { change (1 - 1) with 0. by rewrite Z0. }
  { intros k s Hk ->. rewrite !aget_tab by lia. cbn [mbind option_bind]. pose proof (Hm k ltac:(lia)).
    eexists. split; [done|]. replace (k + 1 - 1) with k by lia. rewrite u32_small; lia. }
  change (1 + Z.of_nat 257 - 1) with 257 in Hc.
  exists r, cum. split; [|split; [|split]].
  - split; cbn; [|done|lia|by right]. split; cbn; [done..|]. split; try done; try lia. intros i Hi. apply Hs. lia.
  - unfold end_freq. rewrite (He 257) by lia. change (257 - 1) with 256. lia.
  - unfold init_ramcoder. change (aset (rc_ranges _) 0 0) with (Some r0). cbn [mbind option_bind].
    change (Z.to_nat (rc_upper_lastsymbol _)) with 257%nat. rewrite Er. cbn [mbind option_bind]. by rewrite Ec.
  - intros hp. unfold init_ramcoder. change (aset (rc_ranges _) 0 0) with (Some r0). cbn [mbind option_bind].
    change (Z.to_nat (rc_upper_lastsymbol _)) with 257%nat. rewrite Er. cbn [mbind option_bind]. by rewrite Ec.
Qed.

(** *** The decoder *)

Lemma num_bound bs : 0 <= num bs < 2 ^ Z.of_nat (length bs).
Proof.
  induction bs as [|b bs IH] using rev_ind; [done|]. rewrite num_snoc, length_app. cbn [length].
  rewrite Nat.add_1_r, Nat2Z.inj_succ, Z.pow_succ_r by lia. destruct b; cbn [Z.b2z]; lia.
Qed.

(** The symbol looked up is the one in whose part the code lies. *)
Lemma lookup_part c s : coder_safe c -> 0 <= s <= 256 -> rc_lower c <= rc_code c <= rc_upper c ->
  rc_lower c + part c s <= rc_code c <= rc_lower c + part c (s + 1) - 1 ->
  (p ← RAMDECODER_UNSCALED c; ramdecoder_bsearch (u16 p) c) = Some s.
Proof.
  intros Hok Hs Hv Hp. destruct (unscaled_value c Hok Hv) as (-> & Eu & _). cbn [mbind option_bind]. rewrite Eu.
  apply (unscaled_part c s Hok Hs Hv) in Hp. unfold ramdecoder_bsearch. rewrite (cs_upper_last _ Hok). change (Z.to_nat (257 + 2)) with 259%nat.
  apply (bsearch_finds _ _ _ s (cs_table _ Hok) Hs Hp); lia.
Qed.

Lemma lookup_total c : coder_safe c -> rc_lower c <= rc_code c <= rc_upper c ->
  exists s, 0 <= s <= 256 /\ (p ← RAMDECODER_UNSCALED c; ramdecoder_bsearch (u16 p) c) = Some s /\
    rc_lower c + part c s <= rc_code c <= rc_lower c + part c (s + 1) - 1.
Proof.
  intros Hok Hv. destruct (unscaled_value c Hok Hv) as (_ & _ & Hp).
  destruct (symbol_of _ _ _ (cs_table _ Hok) Hp) as (s & Hs & Hsp). exists s.
  apply (unscaled_part c s Hok Hs Hv) in Hsp. split; [done|]. split; [by apply lookup_part|done].
Qed.

Section Decoding.
Context (hp0 : HUFF) (X : list bool) (lim : nat).
Hypothesis lim_X : (lim <= length X)%nat.
Hypothesis reads_X : forall k b, (k < lim)%nat -> X !! k = Some b ->
  hgetbit (advance hp0 (Z.of_nat k)) = Some (advance hp0 (Z.of_nat (S k)), Z.b2z b).

(** The decoder where the encoder has coder [c] with [g] behind it. *)
Definition decoding (c : ramcoder) (g : ghost) : ramcoder := set_code (code_at X g) c.

Lemma decode_finds c g s : coder_ok c -> 0 <= s <= 256 ->
  inside X g (rc_lower c + part c s) (rc_lower c + part c (s + 1) - 1) ->
  (p ← RAMDECODER_UNSCALED (decoding c g); ramdecoder_bsearch (u16 p) (decoding c g)) = Some s.
Proof.
  intros Hok Hs Hin. rewrite inside_code in Hin. pose proof (part_bounds c s Hok Hs).
  assert (coder_safe (decoding c g)) as Hokd by (destruct Hok as [[] _ _ _]; by split; destruct c).
  assert (rc_lower c <= code_at X g <= rc_upper c) by lia. by apply lookup_part; destruct c.
Qed.

Lemma decode_symbol c g s ss c1 g1 : coded_symbol c g s ss c1 g1 -> (window g1 <= lim)%nat -> s <> 256 ->
  inside X g1 (rc_lower c1) (rc_upper c1) ->
  ramcoder_decode (decoding c g) true (advance hp0 (Z.of_nat (window g))) =
    Some (decoding c1 g1, advance hp0 (Z.of_nat (window g1)), s).
Proof.
  intros H Hw Hs HX. destruct (coded_symbol_inside X _ _ _ _ _ _ H ltac:(lia) HX) as [Hin _].
  destruct H as [c1 lo up Hok Hs2 E El Eu Er]. rewrite window_pushes in Hw.
  pose proof (decode_finds c g s Hok Hs2 Hin) as Ef. unfold ramcoder_decode.
  destruct (RAMDECODER_UNSCALED _) as [p|]; [|done]. cbn [mbind option_bind] in *. rewrite Ef. cbn [mbind option_bind].
  assert (rc_lastsymbol (decoding c g) = 256) as -> by (destruct Hok as [[] _ _ _]; by destruct c).
  destruct (Z.ltb_spec s 0), (Z.eqb_spec s 256); try lia. cbn [orb]. rewrite update_bits. unfold decoding at 1. rewrite upd_code, E.
  cbn [fmap option_fmap option_map mbind option_bind]. unfold ramcoder_getbits.
  destruct (getbits_runs hp0 X lim lim_X reads_X 17 (set_code (code_at X g) c1) g 0 ss lo up) as (m & ->).
  - assert (interval (rc_lower c1) (rc_upper c1)) as HI; [|by destruct c1].
    pose proof (part_bounds c s Hok Hs2). destruct Hok as [[HI _ _ _] _ _ _]. unfold interval in *. lia.
  - by destruct c1.
  - by destruct c1.
  - by destruct c1.
  - done.
  - cbn [mbind option_bind]. by destruct c1.
Qed.

Lemma decode_end c g ss c1 g1 hp : coded_symbol c g 256 ss c1 g1 -> (window g1 <= length X)%nat ->
  inside X g1 (rc_lower c1) (rc_upper c1) -> ramcoder_decode (decoding c g) true hp = Some (decoding c g, hp, -1).
Proof.
  intros H Hw HX. destruct (coded_symbol_inside X _ _ _ _ _ _ H Hw HX) as [Hin _]. destruct H as [c1 lo up Hok Hs2 _ _ _ _].
  pose proof (decode_finds c g 256 Hok Hs2 Hin) as Ef. unfold ramcoder_decode.
  destruct (RAMDECODER_UNSCALED _) as [p|]; [|done]. cbn [mbind option_bind] in *. rewrite Ef. cbn [mbind option_bind].
  assert (rc_lastsymbol (decoding c g) = 256) as -> by (destruct Hok as [[] _ _ _]; by destruct c). done.
Qed.

Lemma decoder_reads syms : bytes syms -> forall c g c1 g1 ss c2 g2 k n buf, coded c g syms c1 g1 -> coded_symbol c1 g1 256 ss c2 g2 ->
  (window g1 <= lim)%nat -> (window g2 <= length X)%nat -> inside X g2 (rc_lower c2) (rc_upper c2) ->
  (length syms <= k)%nat -> (n + length syms <= length buf)%nat ->
  decoder_from k (Z.of_nat n) buf (decoding c g) true (advance hp0 (Z.of_nat (window g))) =
    Some (decoding c1 g1, advance hp0 (Z.of_nat (window g1)), take n buf ++ syms ++ drop (n + length syms) buf,
          Z.of_nat (n + length syms)).
Proof.
  induction 1 as [|s syms Hs _ IH]; intros c g c1 g1 ss c2 g2 k n buf Hc He Hw1 Hw2 HX Hk Hn; inversion Hc; subst.
  - cbn [length app]. rewrite Nat.add_0_r, take_drop. destruct k as [|k]; [done|]. cbn [decoder_from].
    by rewrite (decode_end _ _ _ _ _ _ He Hw2 HX).
  - cbn [length] in *. destruct k as [|k]; [lia|]. cbn [decoder_from].
    match goal with H : coded_symbol c g s _ ?c' ?g', H2 : coded ?c' ?g' _ _ _ |- _ => rename H into H1, c' into cm, g' into gm; rename H2 into Hrest end.
    pose proof (coded_window _ _ _ _ _ Hrest). assert (inside X g1 (rc_lower c1) (rc_upper c1)) as HX1 by (by eapply coded_symbol_inside).
    pose proof (coded_inside X _ _ _ _ _ Hrest ltac:(lia) HX1) as HXm. unfold is_byte in Hs.
    rewrite (decode_symbol _ _ _ _ _ _ H1 ltac:(lia) ltac:(lia) HXm). cbn [mbind option_bind].
    destruct (Z.ltb_spec s 0); [lia|]. rewrite aset_in_range by lia. cbn [mbind option_bind]. rewrite u8_small by lia.
    replace (Z.of_nat n + 1) with (Z.of_nat (S n)) by lia. rewrite Nat2Z.id.
    rewrite (IH cm gm c1 g1 ss c2 g2 k (S n) (<[n:=s]> buf)); try done; try lia; [|rewrite length_insert; lia].
    do 2 f_equal; [f_equal|lia]. rewrite drop_insert_lt by lia. replace (S n + length syms)%nat with (n + S (length syms))%nat by lia.
    rewrite (take_S_r _ _ s) by (apply list_lookup_insert_eq; lia). rewrite take_insert_ge by lia. by rewrite <- app_assoc.
Qed.

Lemma first_code k : (k <= 16)%nat -> (k <= lim)%nat ->
  for_ (fun _ '(code, hp) => '(hp, b) ← hgetbit hp; Some (u16 (Z.lor (Z.shiftl code 1) b), hp)) 0 k (0, advance hp0 0) =
    Some (num (take k X), advance hp0 (Z.of_nat k)).
Proof.
  induction k as [|k IH]; intros Hk Hl; [done|]. rewrite <- Nat.add_1_r, for_app, IH by lia. cbn [mbind option_bind for_].
  destruct (lookup_lt_is_Some_2 X k) as [b Hb]; [lia|]. rewrite (reads_X k b) by (done || lia). cbn [mbind option_bind].
  rewrite Nat.add_1_r, (num_take_S _ _ b Hb), Z.shiftl_mul_pow2 by lia. change (2 ^ 1) with 2.
  pose proof (num_bound (take k X)) as Hn. rewrite length_take in Hn.
  assert (2 ^ Z.of_nat (k `min` length X) <= 2 ^ 15) by (apply Z.pow_le_mono_r; lia). change (2 ^ 15) with 32768 in *.
  rewrite lor_even_bit; [|lia|apply Z_mod_mult]. rewrite u16_small; [do 3 f_equal; lia|destruct b; cbn [Z.b2z]; lia].
Qed.
End Decoding.

(** ** Round trip *)

(** The message and its two ends, as the encoder writes them. *)
Record encoded (hp : HUFF) (c0 : ramcoder) (buf : list Z) (c3 : ramcoder) (hp' : HUFF) : Prop := mk_encoded {
  ed_trace : exists c1 g1 ss1 c2 g2 ss2 g3, coded c0 ([], O) buf c1 g1 /\
    coded_symbol c1 g1 256 ss1 c2 g2 /\ coded_symbol c2 g2 256 ss2 c3 g3 /\
    (14 <= length ss1 + length ss2)%nat /\ written hp (flushed g3 (rc_lower c3)) hp' /\ has_room hp c3 g3 0;
  ed_coder : coder_ok c3;
}.

Lemma range_settled c : coder_ok c -> 16385 < rc_upper c - rc_lower c + 1 <= 65536.
Proof. intros [[HI _ _ _] HN _ _]. pose proof (shift_of_None _ _ HI HN). unfold interval in HI. lia. Qed.

Lemma encode_rewound c0 buf hp : stream_ok hp -> bytes buf -> coder_ok c0 -> rc_underflowBits c0 = 0 ->
  end_freq (rc_ranges c0) <= 1 -> hp_bitoffset hp = 0 -> has_room hp c0 ([], O) (length buf + 2) ->
  exists c3 hp3, ('(coder, hp, _) ← ramcoder_emit hp c0 true buf (Z.of_nat (length buf));
     '(coder, hp, _) ← ramcoder_update (rc_lastsymbol coder) coder true (Some false) hp;
     '(coder, hp, _) ← ramcoder_update (rc_lastsymbol coder) coder true (Some true) hp;
     Some (coder, hp)) = Some (c3 <| rc_underflowBits := 0 |>, hp3) /\ encoded hp c0 buf c3 hp3.
Proof.
  intros Hok Hb Hc0 Hu Hf H0 Hr. unfold ramcoder_emit. rewrite Nat2Z.id. change 0 with (Z.of_nat 0) at 1.
  destruct (emit_spec hp buf Hok Hb (length buf) 0 c0 ([], O) hp 0 ltac:(lia)) as (c1 & g1 & hp1 & nb1 & E & Hc1 & He1 & Hr1 & Hf1); [|done|done|].
  { split; [done|done|by apply written_nil]. }
  rewrite E. cbn [mbind option_bind]. rewrite drop_0, firstn_all in Hc1. pose proof (en_coder _ _ _ _ He1) as Hok1. rewrite (cs_last _ (co_safe _ Hok1)).
  destruct (encode_symbol hp c1 g1 hp1 256 false 1 Hok He1 ltac:(lia) Hr1) as (ss1 & c2 & g2 & hp2 & m2 & E2 & Hs2 & He2 & Hr2 & R2 & Hf2).
  rewrite E2. unfold putbits_default at 1. cbn [mbind option_bind]. pose proof (en_coder _ _ _ _ He2) as Hok2. rewrite (cs_last _ (co_safe _ Hok2)).
  destruct (encode_symbol hp c2 g2 hp2 256 true 0 Hok He2 ltac:(lia) Hr2) as (ss2 & c3 & g3 & hp3 & m3 & E3 & Hs3 & He3 & Hr3 & R3 & _).
  rewrite E3. pose proof He3 as [Hok3 Hu3 W3].
  destruct (flush_runs hp c3 hp3 g3 m3 Hok (cs_interval _ (co_safe _ Hok3)) (co_settled _ Hok3) Hu3 W3) as (hp4 & m4 & E4 & W4).
  { destruct Hr3 as (m & _ & ? & ?). lia. }
  { destruct Hr3 as (m & _ & ? & ?). lia. }
  rewrite E4. cbn [mbind option_bind]. exists c3, hp4. split; [done|]. split; [|done].
  exists c1, g1, ss1, c2, g2, ss2, g3. split; [done|]. split; [done|]. split; [done|]. split; [|done].
  pose proof (range_settled _ Hok1). pose proof (range_settled _ Hok2). pose proof (range_settled _ Hok3).
  pose proof (part_bounds c1 256 Hok1 ltac:(lia)). pose proof (part_bounds c2 256 Hok2 ltac:(lia)). cbn [Z.eqb Pos.eqb] in Hf2. change (256 + 1) with 257 in *.
  apply (two_ends (rc_upper c1 - rc_lower c1 + 1) (rc_upper c2 - rc_lower c2 + 1) (rc_upper c3 - rc_lower c3 + 1)
    (part c1 257 - part c1 256) (part c2 257 - part c2 256)); try lia; try done;
    try (apply end_part; [done|lia]).
Qed.

Lemma lookup_flushed hp bs k b : stream_ok hp -> hp_bitoffset hp = 0 -> holds hp bs -> (k < length bs)%nat ->
  (bs ++ replicate 14 false) !! k = Some b ->
  hgetbit (advance hp (Z.of_nat k)) = Some (advance hp (Z.of_nat (S k)), Z.b2z b).
Proof.
  intros Hok H0 Hh Hk Hb. rewrite lookup_app_l in Hb by done. pose proof Hh as [He _].
  assert (bs = take k bs ++ b :: drop (S k) bs) as Ebs by (by rewrite take_drop_middle).
  rewrite Ebs in Hh. apply holds_app in Hh as [_ Hh]. rewrite length_take, Nat.min_l in Hh by lia.
  assert (stream_ok (advance hp (Z.of_nat k))) as Hok' by (apply advance_ok; [done|lia|lia]).
  rewrite (hgetbit_spec _ _ _ Hok' Hh), advance_advance. replace (Z.of_nat (S k)) with (Z.of_nat k + 1) by lia. by destruct b.
Qed.

Lemma encode_message_ok seed buf hp c0 : bytes buf -> stream_ok hp ->
  init_ramcoder cleared_coder None seed = Some (c0, None) -> coder_ok c0 -> rc_underflowBits c0 = 0 -> end_freq (rc_ranges c0) <= 1 ->
  rc_upper c0 - rc_lower c0 + 1 = 65536 -> Z.of_nat (length buf) <= 4366 -> 15 * Z.of_nat (length buf) + 32 < 8 * hp_allocsize hp ->
  exists c3 hp3, encode_message true buf (Z.of_nat (length buf)) hp seed = Some (c3 <| rc_underflowBits := 0 |>, hp3) /\
    encoded (advance hp (0 - hp_bitoffset hp)) c0 buf c3 hp3.
Proof.
  intros Hb Hok Ei Hc0 Hu Hf Hrange Hlen Hroom. pose proof Hok as []. set (hpr := advance hp (0 - hp_bitoffset hp)).
  assert (stream_ok hpr) as Hokr by (split; cbn; rewrite ?Zplus_minus; try done; lia).
  assert (hp_bitoffset hpr = 0) as Hr0 by (cbn; lia).
  destruct (encode_rewound c0 buf hpr Hokr Hb Hc0 Hu Hf Hr0) as (c3 & hp3 & E & T).
  { exists O. unfold window. rewrite Hr0. change (hp_allocsize hpr) with (hp_allocsize hp). cbn [fst snd length]. lia. }
  exists c3, hp3. unfold encode_message, hrewind. rewrite hseek_spec by (done || lia). fold hpr. rewrite Ei. cbn [mbind option_bind].
  split; [exact E|done].
Qed.

Lemma SETBIT_ok l k : 0 <= k < 8 * Z.of_nat (length l) -> exists l', SETBIT l 0 k = Some l' /\ length l' = length l.
Proof.
  intros Hk. unfold SETBIT. rewrite Z.add_0_l, shiftr_3. assert (0 <= k / 8 < Z.of_nat (length l)) by (Z.div_mod_to_equations; lia).
  destruct (aget_is_Some l (k / 8)) as (x & _ & ->); [done|]. cbn [mbind option_bind]. rewrite aset_in_range by done.
  eexists. split; [done|]. by rewrite length_insert.
Qed.

(** The seed has place for 256 symbols, the loop runs over 257. *)
Lemma newseed_overflow c : rc_upper_lastsymbol c = 257 -> length (rc_ranges c) = 259%nat -> 0 <= rc_cumulativeProb c < 2 ^ 31 ->
  newseed_of c = None <-> rc_cumulativeProb c / 257 < end_freq (rc_ranges c).
Proof.
  intros Hu HL Hc. unfold newseed_of. rewrite Hu. cbn [Z.eqb]. change (2 ^ 31) with 2147483648 in Hc.
  rewrite s32_small by (Z.div_mod_to_equations; lia). set (th := rc_cumulativeProb c / 257).
  change (Z.to_nat 257) with (256 + 1)%nat. rewrite for_app.
  match goal with |- context [for_ ?f 1 256 ?s0] =>
    destruct (for_inv (fun _ seed => length seed = 32%nat) f 256 1 s0) as (seed & -> & Hs) end; [done| |].
  - intros k seed Hk Hs. rewrite !aget_tab by lia. cbn [mbind option_bind]. destruct (_ <? _); [|by exists seed].
    destruct (SETBIT_ok seed (k - 1)) as (l & -> & Hl); [lia|]. exists l. split; [done|lia].
  - cbn [mbind option_bind for_]. change (1 + Z.of_nat 256) with 257. rewrite !aget_tab by lia. cbn [mbind option_bind]. fold (end_freq (rc_ranges c)).
    change (257 - 1) with 256. fold (end_freq (rc_ranges c)). unfold end_freq. destruct (Z.ltb_spec th (tab (rc_ranges c) 257 - tab (rc_ranges c) 256)); [|split; [done|lia]].
    split; [done|]. intros _. unfold SETBIT. change (0 + Z.shiftr 256 3) with 32. unfold aget. cbn [Z.ltb Z.compare].
    rewrite lookup_ge_None_2 by lia. done.
Qed.

Lemma newseed_fits c : rc_upper_lastsymbol c = 257 -> length (rc_ranges c) = 259%nat -> 0 <= rc_cumulativeProb c < 2 ^ 31 ->
  end_freq (rc_ranges c) <= rc_cumulativeProb c / 257 -> is_Some (newseed_of c).
Proof.
  intros Hu HL Hc Hf. destruct (newseed_of c) eqn:E; [done|]. apply (newseed_overflow c Hu HL Hc) in E. lia.
Qed.

Lemma coded_symbol_cum c g s ss c1 g1 : coded_symbol c g s ss c1 g1 ->
  Z.min (rc_cumulativeProb c) 8000 <= rc_cumulativeProb c1 < 16384 /\
  end_freq (rc_ranges c1) <= Z.max 1 (end_freq (rc_ranges c) + if s =? 256 then 1 else 0).
Proof.
  intros [c2 lo up Hok Hs E _ _ _]. pose proof (part_bounds c s Hok Hs).
  destruct (symbol_safe c s (co_safe _ Hok) Hs) as (c2' & E' & _ & _ & _ & _ & _ & H1 & H2 & H3); [lia|].
  rewrite E in E'. injection E' as <-. by destruct c2.
Qed.

Lemma coded_cum c g syms c1 g1 : coded c g syms c1 g1 -> bytes syms -> end_freq (rc_ranges c) <= 1 ->
  Z.min (rc_cumulativeProb c) 8000 <= rc_cumulativeProb c1 /\ end_freq (rc_ranges c1) <= 1.
Proof.
  induction 1 as [|c g s ss c1 g1 syms c2 g2 H _ IH]; intros Hb Hf; [lia|]. apply list.Forall_cons in Hb as [Hs Hb].
  apply coded_symbol_cum in H as [H1 H2]. unfold is_byte in Hs. destruct (Z.eqb_spec s 256); [lia|]. destruct (IH Hb); lia.
Qed.

(** What the encoder leaves in the stream, and what a decoder makes of any stream
    that starts with these bits. *)
Lemma message_codes seed buf hp : (8 <= length seed)%nat -> bytes buf -> stream_ok hp ->
  Z.of_nat (length buf) <= 4366 -> 15 * Z.of_nat (length buf) + 32 < 8 * hp_allocsize hp ->
  exists coder hp1 bs, encode_message true buf (Z.of_nat (length buf)) hp seed = Some (coder, hp1) /\
    written (advance hp (0 - hp_bitoffset hp)) bs hp1 /\
    (forall coder0, init_ramcoder cleared_coder None seed = Some (coder0, None) ->
      771 <= rc_cumulativeProb coder0 -> is_Some (newseed_of coder)) /\
    forall hpq hpd dest maxlen, (hrewind hpq).1 = hpd -> stream_ok hpd -> hp_bitoffset hpd = 0 -> holds hpd bs ->
      Z.of_nat (length buf) <= maxlen -> (length buf <= length dest)%nat ->
      exists coder2 hp2, ramcoder_decoder None true dest maxlen hpq seed =
        Some (coder2, hp2, buf ++ drop (length buf) dest, Z.of_nat (length buf)).
Proof.
  intros Hseed Hb Hok Hlen Hroom. destruct (init_spec seed Hseed) as (r & cum & Hc0 & Hf0 & Ei & Ed). cbv zeta in *.
  set (c0 := mk_ramcoder cum 0 65535 0 0 256 257 0 r) in *. pose proof Hok as [].
  destruct (encode_message_ok seed buf hp c0 Hb Hok Ei Hc0 eq_refl) as (c3 & hp3 & E & [(c1 & g1 & ss1 & c2 & g2 & ss2 & g3 & T1 & T2 & T3 & Hk & W & Hr3) Hok3]);
    [change (end_freq r <= 1); lia|done|done|done|].
  set (bs := flushed g3 (rc_lower c3)) in *. exists (c3 <| rc_underflowBits := 0 |>), hp3, bs. split; [exact E|]. split; [apply W|]. split.
  { intros coder0 Ei0 Hcum. rewrite Ei in Ei0. injection Ei0 as <-. fold c0 in Hcum.
    destruct (coded_cum _ _ _ _ _ T1 Hb) as [A1 B1]; [change (end_freq r <= 1); lia|].
    destruct (coded_symbol_cum _ _ _ _ _ _ T2) as [A2 B2]. destruct (coded_symbol_cum _ _ _ _ _ _ T3) as [A3 B3]. cbn [Z.eqb Pos.eqb] in *.
    apply newseed_fits; [apply (co_safe _ Hok3)|apply (co_safe _ Hok3)|change (0 <= rc_cumulativeProb c3 < 2 ^ 31); lia|].
    change (end_freq (rc_ranges c3) <= rc_cumulativeProb c3 / 257). apply Z.div_le_lower_bound; lia. }
  intros hpq hpd dest maxlen Erw Hokd Hd0 Hh Hmax Hdest. set (X := bs ++ replicate 14 false).
  pose proof (coded_symbol_window _ _ _ _ _ _ T2) as W2. pose proof (coded_symbol_window _ _ _ _ _ _ T3) as W3.
  assert (length bs + 14 = window g3)%nat as Hbs by (unfold bs; rewrite flushed_length; unfold window; lia).
  assert (length X = window g3) as HXl by (unfold X; rewrite length_app, length_replicate; lia).
  assert (16 <= window g1)%nat as Hw1 by (unfold window; lia).
  assert (inside X g3 (rc_lower c3) (rc_upper c3)) as HX3 by (apply flushed_inside; apply Hok3).
  assert (inside X g2 (rc_lower c2) (rc_upper c2)) as HX2 by (eapply (coded_symbol_inside X); [exact T3|lia|done]).
  assert (forall k b, (k < length bs)%nat -> X !! k = Some b ->
    hgetbit (advance hpd (Z.of_nat k)) = Some (advance hpd (Z.of_nat (S k)), Z.b2z b)) as Hrd.
  { intros k b Hkb Hx. by apply (lookup_flushed hpd bs). }
  assert (length bs <= length X)%nat as Hle by lia.
  unfold ramcoder_decoder. rewrite Erw, Ed.
  pose proof (first_code hpd X (length bs) Hle Hrd 16 ltac:(lia) ltac:(lia)) as E16. rewrite (advance_0 hpd Hokd) in E16. rewrite E16. cbn [mbind option_bind].
  assert (c0 <| rc_code := num (take 16 X) |> = decoding X c0 ([], O)) as ->.
  { unfold decoding, code_at. change (base ([], O)) with 0. rewrite Z.sub_0_r. done. }
  eexists _, _. change (Z.of_nat 16) with (Z.of_nat (window ([], O))). change 0 with (Z.of_nat 0) at 1.
  rewrite (decoder_reads hpd X (length bs) Hle Hrd buf Hb c0 ([], O) c1 g1 ss1 c2 g2); try done; try lia.
Qed.

(** C9: Whatever the message (up to 4366 bytes) and the seed, the arithmetic coder
    writes it and its end into a stream of 15 bits per symbol without leaving the
    buffer or its counter wrapping around, every loop ending; and the decoder with
    the same seed, reading that stream from the start, finds the end of the message
    after exactly its bytes, which it stores, nothing behind them being touched. *)
Theorem ramcoder_roundtrip seed buf hp dest maxlen : (8 <= length seed)%nat -> bytes buf -> stream_ok hp ->
  Z.of_nat (length buf) <= 4366 -> 15 * Z.of_nat (length buf) + 32 < 8 * hp_allocsize hp ->
  Z.of_nat (length buf) <= maxlen -> (length buf <= length dest)%nat ->
  exists coder hp1, encode_message true buf (Z.of_nat (length buf)) hp seed = Some (coder, hp1) /\ stream_ok hp1 /\
  exists coder2 hp2, ramcoder_decoder None true dest maxlen hp1 seed =
    Some (coder2, hp2, buf ++ drop (length buf) dest, Z.of_nat (length buf)).
Proof.
  intros Hseed Hb Hok Hlen Hroom Hmax Hdest.
  destruct (message_codes seed buf hp Hseed Hb Hok Hlen Hroom) as (coder & hp1 & bs & E & W & _ & Hd).
  exists coder, hp1. split; [done|]. split; [apply W|]. pose proof Hok as [].
  destruct (written_holds _ _ _ W) as (Hh & Hokd & _); [split; cbn; rewrite ?Zplus_minus; try done; lia|].
  pose proof (wr_offset _ _ _ W) as Hoff. cbn in Hoff. destruct (wr_ok _ _ _ W).
  apply (Hd hp1 (advance hp1 (- Z.of_nat (length bs)))); try done; [|cbn; lia].
  unfold hrewind. rewrite hseek_spec; [|apply W|lia]. cbn [fst]. f_equal. lia.
Qed.

(** ** Any stream

    A decoder that reads what somebody else wrote, or reads on behind the end, keeps
    its code inside the interval: it always finds a symbol with a part of its own. *)

Record reading (c : ramcoder) : Prop := mk_reading {
  rd_safe : coder_safe c;
  rd_code : rc_lower c <= rc_code c <= rc_upper c;
}.

Lemma hgetbit_total hp : stream_ok hp -> exists hp' b, hgetbit hp = Some (hp', b) /\ stream_ok hp' /\ -1 <= b <= 1.
Proof.
  intros Hok. pose proof Hok as []. destruct (Z.ltb_spec (hp_bitoffset hp) (hp_endpos hp)) as [Hlt|Hge].
  - assert (holds hp [abit (hp_buf hp) (hp_bitoffset hp)]) as Hh.
    { split; [cbn; lia|]. intros [|k] b Hk; [injection Hk as <-; change (Z.of_nat 0) with 0; by rewrite Z.add_0_r|done]. }
    exists (advance hp 1). rewrite (hgetbit_spec _ _ _ Hok Hh).
    eexists. split; [done|]. split; [apply advance_ok; [done|lia|lia]|]. by destruct (abit _ _).
  - exists hp, (-1). rewrite hgetbit_end by done. split; [done|]. split; [done|lia].
Qed.

Lemma getbits_total n : forall c hp m, reading c -> stream_ok hp -> 65536 <= (rc_upper c - rc_lower c + 1) * 2 ^ Z.of_nat n ->
  exists c' hp' m', getbits_loop (S n) hp c m = Some (c', hp', m') /\ reading c' /\ stream_ok hp'.
Proof.
  induction n as [|n IH]; intros c hp m Hr Hok HR; pose proof Hr as [[HI HL HU T] Hc].
  - destruct (shift_of (rc_lower c) (rc_upper c)) as [s|] eqn:Es.
    { pose proof (shift_of_interval _ _ _ HI Es). change (2 ^ Z.of_nat 0) with 1 in HR. unfold interval in *. lia. }
    cbn [getbits_loop]. rewrite state_spec, Es by done. by eexists _, _, _.
  - destruct (shift_of (rc_lower c) (rc_upper c)) as [s|] eqn:Es.
    2:{ cbn [getbits_loop]. rewrite state_spec, Es by done. by eexists _, _, _. }
    pose proof (shift_of_interval _ _ _ HI Es) as HI'. destruct (hgetbit_total hp Hok) as (hp' & b & Eg & Hok' & Hb).
    rewrite (getbits_round c s hp hp' b (S n) m HI Es Hc Eg Hb). rewrite Nat2Z.inj_succ, Z.pow_succ_r in HR by lia.
    destruct (Z.leb_spec 0 b).
    + apply IH; [|done|].
      * split; [by split; destruct c|]. destruct c. cbn in *. lia.
      * destruct c. cbn in *. lia.
    + eexists _, _, _. split; [done|]. split; [|done]. split; [by split; destruct c|]. destruct c. cbn in *. lia.
Qed.

Lemma decode_total c hp : reading c -> stream_ok hp ->
  exists c' hp' v, ramcoder_decode c true hp = Some (c', hp', v) /\ reading c' /\ stream_ok hp' /\ -1 <= v < 256.
Proof.
  intros [Hsafe Hc] Hok. destruct (lookup_total c Hsafe Hc) as (s & Hs & Ef & Hp). unfold ramcoder_decode.
  destruct (RAMDECODER_UNSCALED c) as [p|]; [|done]. cbn [mbind option_bind] in *. rewrite Ef. cbn [mbind option_bind]. rewrite (cs_last _ Hsafe).
  destruct (Z.ltb_spec s 0), (Z.eqb_spec s 256); try lia; cbn [orb].
  - exists c, hp, (-1). split; [done|]. split; [by split|]. split; [done|lia].
  - rewrite update_bits. destruct (symbol_safe c s Hsafe Hs) as (c1 & -> & Hsafe1 & El & Eu & Ec & _); [lia|]. cbn [mbind option_bind].
    pose proof (cs_interval _ Hsafe1) as HI1. unfold interval in HI1.
    destruct (getbits_total 16 c1 hp 0) as (c' & hp' & m & Eg & Hr & Hok'); [split; [done|lia]|done|change (2 ^ Z.of_nat 16) with 65536; lia|].
    unfold ramcoder_getbits. rewrite Eg. cbn [mbind option_bind]. exists c', hp', s. split; [done|]. split; [done|]. split; [done|lia].
Qed.

Lemma decoder_from_total k : forall n buf c hp, reading c -> stream_ok hp -> (n + k <= length buf)%nat -> bytes (take n buf) ->
  exists c' hp' out, decoder_from k (Z.of_nat n) buf c true hp = Some (c', hp', out ++ drop (length out) buf, Z.of_nat (length out)) /\
    stream_ok hp' /\ bytes out /\ (n <= length out <= n + k)%nat.
Proof.
  induction k as [|k IH]; intros n buf c hp Hr Hok Hn Hb; cbn [decoder_from].
  - exists c, hp, (take n buf). rewrite length_take, Nat.min_l, take_drop by lia. split; [done|]. split; [done|]. split; [done|lia].
  - destruct (decode_total c hp Hr Hok) as (c1 & hp1 & v & -> & Hr1 & Hok1 & Hv). cbn [mbind option_bind].
    destruct (Z.ltb_spec v 0).
    + exists c1, hp1, (take n buf). rewrite length_take, Nat.min_l, take_drop by lia. split; [done|]. split; [done|]. split; [done|lia].
    + rewrite aset_in_range by lia. cbn [mbind option_bind]. rewrite u8_small, Nat2Z.id by lia.
      replace (Z.of_nat n + 1) with (Z.of_nat (S n)) by lia.
      destruct (IH (S n) (<[n:=v]> buf) c1 hp1 Hr1 Hok1) as (c' & hp' & out & -> & Hok' & Hout & Hl).
      { rewrite length_insert. lia. }
      { rewrite (take_S_r _ _ v) by (apply list_lookup_insert_eq; lia). rewrite take_insert_ge by lia.
        apply Forall_app. split; [done|]. repeat constructor; lia. }
      exists c', hp', out. rewrite drop_insert_lt by lia. split; [done|]. split; [done|]. split; [done|lia].
Qed.

Lemma first_code_total k : forall i code hp, 0 <= code < 65536 -> stream_ok hp ->
  exists code' hp', for_ (fun _ '(code, hp) => '(hp, b) ← hgetbit hp; Some (u16 (Z.lor (Z.shiftl code 1) b), hp)) i k (code, hp) =
    Some (code', hp') /\ 0 <= code' < 65536 /\ stream_ok hp'.
Proof.
  induction k as [|k IH]; intros i code hp Hc Hok; cbn [for_]; [by eexists _, _|].
  destruct (hgetbit_total hp Hok) as (hp' & b & -> & Hok' & _). cbn [mbind option_bind]. apply IH; [|done]. apply (wrapU_range 16). lia.
Qed.

Lemma decoder_total seed dest maxlen hp : (8 <= length seed)%nat -> stream_ok hp ->
  0 <= maxlen <= Z.of_nat (length dest) ->
  exists coder hp' out, ramcoder_decoder None true dest maxlen hp seed =
    Some (coder, hp', out ++ drop (length out) dest, Z.of_nat (length out)) /\
    stream_ok hp' /\ bytes out /\ Z.of_nat (length out) <= maxlen.
Proof.
  intros Hseed Hok Hm. destruct (init_spec seed Hseed) as (r & cum & Hc0 & _ & _ & Ed). cbv zeta in *. pose proof Hok as [].
  assert (exists hpr, (hrewind hp).1 = hpr /\ stream_ok hpr) as (hpr & Er & Hokr).
  { unfold hrewind. rewrite hseek_spec by (done || lia). eexists. split; [done|]. split; cbn; rewrite ?Zplus_minus; try done; lia. }
  unfold ramcoder_decoder. rewrite Er, Ed.
  destruct (first_code_total 16 0 0 hpr) as (code & hp1 & -> & Hcode & Hok1); [lia|done|]. cbn [mbind option_bind].
  destruct (decoder_from_total (Z.to_nat maxlen) 0 dest (mk_ramcoder cum 0 65535 code 0 256 257 0 r) hp1) as (c' & hp' & out & E & Hok' & Hout & Hl).
  { destruct Hc0 as [[] _ _ _]. split; [by split|cbn; lia]. }
  { done. } { lia. } { constructor. }
  exists c', hp', out. split; [exact E|]. split; [done|]. split; [done|lia].
Qed.

(** C10: A decoder that is given any stream at all - cut off, forged or read with
    another seed - ends without leaving its memory and without dividing by zero,
    and stores at most [maxlen] bytes at the start of the buffer. *)
Theorem ramcoder_decoder_total seed dest maxlen hp : (8 <= length seed)%nat -> stream_ok hp ->
  0 <= maxlen <= Z.of_nat (length dest) ->
  exists coder hp' out, ramcoder_decoder None true dest maxlen hp seed =
    Some (coder, hp', out ++ drop (length out) dest, Z.of_nat (length out)) /\
    stream_ok hp' /\ bytes out /\ Z.of_nat (length out) <= maxlen.
Proof. apply decoder_total. Qed.

(** ** The seed returned *)

Lemma adapt_exact c s c1 : coder_ok c -> 0 <= s <= 256 -> rc_cumulativeProb c + 1 < 16384 -> upd_symbol s c = Some c1 ->
  rc_cumulativeProb c1 = rc_cumulativeProb c + 1 /\
  end_freq (rc_ranges c1) = end_freq (rc_ranges c) + if s =? 256 then 1 else 0.
Proof.
  intros Hok Hs Hc E. pose proof Hok as [Hsafe _ _ _]. pose proof (part_bounds c s Hok Hs). pose proof Hsafe as [_ _ Hn T]. unfold upd_symbol in E. rewrite narrow_spec in E by (done || lia). cbn [mbind option_bind] in E.
  rewrite adapt_interval in E. unfold ramcoder_adapt in E. rewrite Hn in E. pose proof (tab_bounds _ _ 257 T ltac:(lia)).
  destruct (incr_loop _ _ s T Hs) as (r1 & Er & L1 & T1). rewrite Er in E. cbn [mbind option_bind] in E. rewrite u32_small in E by lia.
  change (Z.shiftl 1 (8 * 2 - 2)) with 16384 in E. destruct (Z.leb_spec 16384 (rc_cumulativeProb c + 1)); [lia|].
  cbn [mbind option_bind fmap option_fmap option_map] in E. injection E as <-.
  change (rc_cumulativeProb c + 1 = rc_cumulativeProb c + 1 /\ end_freq r1 = end_freq (rc_ranges c) + if s =? 256 then 1 else 0).
  split; [done|]. unfold end_freq. rewrite !T1 by lia. destruct (Z.ltb_spec s 257), (Z.ltb_spec s 256), (Z.eqb_spec s 256); lia.
Qed.

Lemma coded_symbol_exact c g s ss c1 g1 : coded_symbol c g s ss c1 g1 -> rc_cumulativeProb c + 1 < 16384 ->
  rc_cumulativeProb c1 = rc_cumulativeProb c + 1 /\
  end_freq (rc_ranges c1) = end_freq (rc_ranges c) + if s =? 256 then 1 else 0.
Proof. intros [c2 lo up Hok Hs E _ _ _] Hc. destruct (adapt_exact _ _ _ Hok Hs Hc E). by destruct c2. Qed.

Lemma coded_exact c g syms c1 g1 : coded c g syms c1 g1 -> bytes syms -> rc_cumulativeProb c + Z.of_nat (length syms) < 16384 ->
  rc_cumulativeProb c1 = rc_cumulativeProb c + Z.of_nat (length syms) /\ end_freq (rc_ranges c1) = end_freq (rc_ranges c).
Proof.
  induction 1 as [|c g s ss c1 g1 syms c2 g2 H _ IH]; intros Hb Hc; [cbn; lia|]. apply list.Forall_cons in Hb as [Hs Hb]. cbn [length] in *.
  destruct (coded_symbol_exact _ _ _ _ _ _ H ltac:(lia)) as [E1 E2]. destruct (IH Hb ltac:(lia)) as [E3 E4].
  unfold is_byte in Hs. destruct (Z.eqb_spec s 256); lia.
Qed.

(** C40: After a short message the encoder writes behind the 32 bytes of the seed it
    returns, although the message itself is well encoded: whenever the frequencies
    the seed starts with and the length of the message add up to less than three
    times the number of symbols - 512 bytes for an empty seed, 256 for the seed of
    the coin shuffle - the end symbol is above the average and its bit is the 257th. *)
Theorem ramcoder_encoder_overflow seed buf hp coder0 : (8 <= length seed)%nat -> bytes buf -> stream_ok hp ->
  init_ramcoder cleared_coder None seed = Some (coder0, None) ->
  rc_cumulativeProb coder0 + Z.of_nat (length buf) + 2 < 3 * 257 -> 15 * Z.of_nat (length buf) + 32 < 8 * hp_allocsize hp ->
  (exists coder hp1, encode_message true buf (Z.of_nat (length buf)) hp seed = Some (coder, hp1) /\ stream_ok hp1) /\
  ramcoder_encoder None true buf (Z.of_nat (length buf)) hp seed = None.
Proof.
  intros Hseed Hb Hok Ei0 Hcum Hroom. destruct (init_spec seed Hseed) as (r & cum & Hc0 & Hf0 & Ei & _). cbv zeta in *.
  rewrite Ei in Ei0. injection Ei0 as <-. set (c0 := mk_ramcoder cum 0 65535 0 0 256 257 0 r) in *.
  assert (0 <= rc_cumulativeProb c0) by (pose proof (tab_bounds _ _ 257 (cs_table _ (co_safe _ Hc0))); lia).
  destruct (encode_message_ok seed buf hp c0 Hb Hok Ei Hc0 eq_refl) as (c3 & hp3 & E & [(c1 & g1 & ss1 & c2 & g2 & ss2 & g3 & T1 & T2 & T3 & _ & W & _) Hok3]); [change (end_freq r <= 1); lia|done|lia|done|].
  rewrite E. split; [eexists _, _; split; [done|apply W]|]. unfold ramcoder_encoder. rewrite E. cbn [mbind option_bind].
  destruct (coded_exact _ _ _ _ _ T1 Hb) as [A1 B1]; [lia|]. destruct (coded_symbol_exact _ _ _ _ _ _ T2) as [A2 B2]; [lia|].
  destruct (coded_symbol_exact _ _ _ _ _ _ T3) as [A3 B3]; [lia|]. cbn [Z.eqb Pos.eqb] in *.
  assert (end_freq (rc_ranges c0) = 1) as B0 by done.
  assert (newseed_of (c3 <| rc_underflowBits := 0 |>) = None) as ->; [|done].
  apply newseed_overflow; [apply Hok3|apply Hok3|change (2 ^ 31) with 2147483648; change (0 <= rc_cumulativeProb c3 < 2147483648); lia|].
  change (rc_cumulativeProb c3 / 257 < end_freq (rc_ranges c3)). apply Z.div_lt_upper_bound; lia.
Qed.

(** ** Witnesses *)

Example ramcoder_roundtrip_witness : exists coder hp1,
  encode_message true [7; 7; 9] 3 empty_stream (repeat 1 32) = Some (coder, hp1) /\ stream_ok hp1 /\
  exists coder2 hp2, ramcoder_decoder None true [0; 0; 0; 5; 6] 5 hp1 (repeat 1 32) =
    Some (coder2, hp2, [7; 7; 9; 5; 6], 3).
Proof.
  apply (ramcoder_roundtrip (repeat 1 32) [7; 7; 9] empty_stream [0; 0; 0; 5; 6] 5);
    [cbn; lia|repeat constructor; unfold is_byte; lia|apply empty_stream_ok|cbn; lia|cbn; lia|cbn; lia|cbn; lia].
Defined.

Example ramcoder_decoder_total_witness : exists coder hp' out,
  ramcoder_decoder None true [0; 0; 0] 3 empty_stream (repeat 1 32) =
    Some (coder, hp', out ++ drop (length out) [0; 0; 0], Z.of_nat (length out)) /\
  stream_ok hp' /\ bytes out /\ Z.of_nat (length out) <= 3.
Proof. apply (ramcoder_decoder_total (repeat 1 32) [0; 0; 0] 3 empty_stream); [cbn; lia|apply empty_stream_ok|cbn; lia]. Defined.

(** The coder made from an empty seed: every symbol once. *)
Definition plain_coder : ramcoder := mk_ramcoder 257 0 65535 0 0 256 257 0 ((Z.of_nat <$> seq 0 258) ++ [0]).

Example plain_coder_init : init_ramcoder cleared_coder None (repeat 0 32) = Some (plain_coder, None).
Proof. vm_compute. reflexivity. Qed.

Example ramcoder_encoder_overflow_witness :
  (exists coder hp1, encode_message true [7; 7; 9] 3 empty_stream (repeat 0 32) = Some (coder, hp1) /\ stream_ok hp1) /\
  ramcoder_encoder None true [7; 7; 9] 3 empty_stream (repeat 0 32) = None.
Proof.
  apply (ramcoder_encoder_overflow (repeat 0 32) [7; 7; 9] empty_stream plain_coder);
    [cbn; lia|repeat constructor; unfold is_byte; lia|apply empty_stream_ok|apply plain_coder_init|cbn; lia|cbn; lia].
Defined.
