(* ===== verification/Search.v ===== *)
(** * Search: Boyer-Moore search and the collection of patterns

    Models the string search of [plugins/utils/huffstream.c], [make_delta1] to
    [boyer_moore], and its first user, the collection of the distinct substrings of
    a text, [_srchpats] and [huff_findpatterns].  A pointer into the text is its
    offset.  [None] is an access outside the memory. *)

From S2P Require Import Prelude.

Definition ALPHABET_LEN : Z := 256.

(** [delta1] and [delta2] are the arrays on the stack, with whatever they hold. *)
Definition make_delta1 (delta1 pat : list Z) (patlen : Z) : option (list Z) :=
  delta1 ← for_ (fun i d => aset d i patlen) 0 (Z.to_nat ALPHABET_LEN) delta1;
  for_ (fun i d => c ← aget pat i; aset d c (patlen - 1 - i)) 0 (Z.to_nat (patlen - 1)) delta1.

Fixpoint prefix_from (word : list Z) (pos i : Z) (k : nat) : option bool :=
  match k with
  | O => Some true
  | S k => a ← aget word i; b ← aget word (pos + i);
      if negb (a =? b) then Some false else prefix_from word pos (i + 1) k
  end.

Definition is_prefix (word : list Z) (wordlen pos : Z) : option bool :=
  prefix_from word pos 0 (Z.to_nat (wordlen - pos)).

(** The loop ends at [i = pos] at the latest. *)
Fixpoint suffix_from (word : list Z) (wordlen pos i : Z) (fuel : nat) : option Z :=
  match fuel with
  | O => None
  | S fuel => a ← aget word (pos - i); b ← aget word (wordlen - 1 - i);
      if (a =? b) && (i <? pos) then suffix_from word wordlen pos (i + 1) fuel else Some i
  end.

Definition suffix_length (word : list Z) (wordlen pos : Z) : option Z :=
  suffix_from word wordlen pos 0 (S (Z.to_nat pos)).

(** The first loop of [make_delta2], at [p]. *)
Definition prefix_pass (pat : list Z) (patlen p : Z) (st : list Z * Z) : option (list Z * Z) :=
  let '(delta2, last_prefix_index) := st in
  prefix ← is_prefix pat patlen (p + 1);
  let last_prefix_index := if (prefix : bool) then p + 1 else last_prefix_index in
  delta2 ← aset delta2 p (last_prefix_index + (patlen - 1 - p));
  Some (delta2, last_prefix_index).

Definition make_delta2 (delta2 pat : list Z) (patlen : Z) : option (list Z) :=
  '(delta2, _) ← for_ (fun k => prefix_pass pat patlen (patlen - 1 - k)) 0 (Z.to_nat patlen) (delta2, patlen - 1);
  for_ (fun p d =>
      slen ← suffix_length pat patlen p;
      a ← aget pat (p - slen);
      b ← aget pat (patlen - 1 - slen);
      if negb (a =? b) then aset d (patlen - 1 - slen) (patlen - 1 - p + slen) else Some d)
    0 (Z.to_nat (patlen - 1)) delta2.

(** Text and pattern compared backwards: where they differ, or [j < 0]. *)
Fixpoint match_back (string pat : list Z) (i j : Z) (fuel : nat) : option (Z * Z) :=
  match fuel with
  | O => None
  | S fuel =>
      if 0 <=? j then
        c ← aget string i; d ← aget pat j;
        if c =? d then match_back string pat (i - 1) (j - 1) fuel else Some (i, j)
      else Some (i, j)
  end.

Fixpoint search_loop (fuel : nat) (string : list Z) (stringlen : Z) (pat : list Z) (patlen : Z) (delta1 delta2 : list Z) (i : Z)
    : option (option Z) :=
  match fuel with
  | O => None
  | S fuel =>
      if u32 i <? stringlen then
        '(i, j) ← match_back string pat i (patlen - 1) (S (Z.to_nat patlen));
        if j <? 0 then Some (Some (i + 1))
        else
          c ← aget string i; a ← aget delta1 c; b ← aget delta2 j;
          search_loop fuel string stringlen pat patlen delta1 delta2 (s32 (i + (if a <? b then b else a)))
      else Some None
  end.

(** The offset of the pattern, or [None] for a null pointer. *)
Definition boyer_moore (delta1 delta2 string : list Z) (stringlen : Z) (pat : list Z) (patlen : Z) : option (option Z) :=
  if 8192 <? patlen then Some None
  else
    delta1 ← make_delta1 delta1 pat patlen;
    delta2 ← make_delta2 delta2 pat patlen;
    if patlen =? 0 then Some (Some 0)
    else search_loop (S (Z.to_nat stringlen)) string stringlen pat patlen delta1 delta2 (patlen - 1).

(** ** Reference: try every position *)

Section Naive.
Variables string pat : list Z.

Definition occurs (patlen k : Z) : bool :=
  forallb (fun t => nth (Z.to_nat k + t) string 0 =? nth t pat 0) (seq 0 (Z.to_nat patlen)).

Definition naive_search (stringlen patlen : Z) : option Z :=
  List.find (occurs patlen) (Z.of_nat <$> seq 0 (Z.to_nat (stringlen - patlen + 1))).

End Naive.

Lemma find_first {A} (f : A -> bool) (l : list A) (i : nat) x : l !! i = Some x -> f x = true ->
  (forall j y, (j < i)%nat -> l !! j = Some y -> f y = false) -> List.find f l = Some x.
Proof.
  revert i. induction l as [|a l IH]; intros [|i] Hi Hx Hbefore; cbn in *; [done|done|by simplify_eq; rewrite Hx|].
  rewrite (Hbefore 0%nat a) by (done || lia). apply (IH i); [done|done|]. intros j y Hj. apply (Hbefore (S j)). lia.
Qed.

Lemma positions_lookup (c : nat) i x : (Z.of_nat <$> seq 0 c) !! i = Some x -> x = Z.of_nat i /\ (i < c)%nat.
Proof.
  intros H. apply list_lookup_fmap_Some in H as (y & -> & Hy). apply lookup_seq in Hy as [-> ?]. lia.
Qed.

(** ** The tables *)

Section Tables.
Context (pat : list Z) (m : Z).
Hypothesis Hm : 0 <= m <= 8192.
Hypothesis Hpat : m <= Z.of_nat (length pat).
Hypothesis Hbytes : bytes pat.

Definition P (k : Z) : Z := nth (Z.to_nat k) pat 0.

Lemma get_P k : 0 <= k < m -> aget pat k = Some (P k).
Proof. intros Hk. apply aget_nth. lia. Qed.

Lemma P_byte k : 0 <= k < m -> 0 <= P k < 256.
Proof.
  intros Hk. destruct (aget_is_Some pat k) as (x & Hx & E); [lia|]. rewrite get_P in E by done.
  injection E as <-. unfold bytes in Hbytes. rewrite list.Forall_forall in Hbytes.
  apply Hbytes. by eapply list_elem_of_lookup_2.
Qed.

(** Entry [j] of a table has the property [Q j]. *)
Definition table (d : list Z) (n : Z) (Q : Z -> Z -> Prop) : Prop :=
  forall j, 0 <= j < n -> exists v, aget d j = Some v /\ Q j v.

Lemma table_set d n Q Q' i v : table d n Q -> 0 <= i < Z.of_nat (length d) -> (forall j w, 0 <= j < n -> j <> i -> Q j w -> Q' j w) ->
  (i < n -> Q' i v) -> exists d', aset d i v = Some d' /\ length d' = length d /\ table d' n Q'.
Proof.
  intros Ht Hi Hq Hv. rewrite aset_in_range by done. eexists. split; [done|]. split; [apply length_insert|].
  intros j Hj. destruct (decide (j = i)) as [->|Hne].
  - exists v. split; [|apply Hv; lia]. apply aget_lookup; [lia|]. by rewrite list_lookup_insert_eq by lia.
  - destruct (Ht j Hj) as (w & [_ E]%aget_Some & Hw). exists w. split; [|by apply Hq].
    apply aget_lookup; [lia|]. rewrite list_lookup_insert_ne by lia. done.
Qed.

(** No place of the byte before the last is further from the end. *)
Definition delta1_ok (n c v : Z) : Prop := v <= m /\ forall k, 0 <= k < n -> P k = c -> v <= m - 1 - k.

Lemma make_delta1_spec d : length d = 256%nat ->
  exists d', make_delta1 d pat m = Some d' /\ table d' 256 (delta1_ok (m - 1)).
Proof.
  intros Hd. unfold make_delta1.
  destruct (for_inv (fun i d => length d = 256%nat /\ table d i (fun _ v => v = m))
    (fun i d => aset d i m) (Z.to_nat ALPHABET_LEN) 0 d) as (d1 & -> & Hd1 & Ht1).
  { split; [done|]. intros j Hj. lia. }
  { intros i d' Hi [Hl Ht]. unfold ALPHABET_LEN in Hi. rewrite aset_in_range by lia. eexists. split; [done|].
    split; [by rewrite length_insert|]. intros j Hj. exists m. split; [|done]. apply aget_lookup; [lia|].
    destruct (decide (j = i)) as [->|Hne]; [by rewrite list_lookup_insert_eq by lia|].
    rewrite list_lookup_insert_ne by lia. destruct (Ht j) as (v & [_ E]%aget_Some & ->); [lia|]. done. }
  cbn [mbind option_bind].
  match goal with |- context [for_ ?f _ _ _] =>
  destruct (for_inv (fun i d => length d = 256%nat /\ table d 256 (delta1_ok i)) f (Z.to_nat (m - 1)) 0 d1)
    as (d2 & E & Hd2 & Ht2) end.
  - split; [done|]. intros j Hj. destruct (Ht1 j Hj) as (v & E & ->). exists m. split; [done|]. split; [done|lia].
  - intros i d' Hi [Hl Ht]. rewrite get_P by lia. cbn [mbind option_bind]. pose proof (P_byte i ltac:(lia)).
    destruct (table_set d' 256 (delta1_ok i) (delta1_ok (i + 1)) (P i) (m - 1 - i) Ht) as (d'' & E & Hl' & Ht').
    + lia.
    + intros j w _ Hne [Hw Hk]. split; [done|]. intros k Hk' Ek. destruct (decide (k = i)) as [->|]; [done|]. apply Hk; [lia|done].
    + intros _. split; [lia|]. intros k Hk' _. lia.
    + exists d''. split; [done|]. split; [congruence|done].
  - exists d2. split; [done|]. intros j Hj. destruct (Ht2 j Hj) as (v & Ev & Hv & Hk). exists v. split; [done|]. split; [done|].
    intros k Hk'. apply Hk. lia.
Qed.

(** *** Prefixes and suffixes *)

(** The suffix from [pos] on is a prefix. *)
Definition prefix (pos : Z) : Prop := forall i, 0 <= i < m - pos -> P i = P (pos + i).

Lemma prefix_from_spec pos : 0 <= pos <= m -> forall k i, 0 <= i -> pos + i + Z.of_nat k = m ->
  (forall t, 0 <= t < i -> P t = P (pos + t)) ->
  exists b, prefix_from pat pos i k = Some b /\ (b = true <-> prefix pos).
Proof.
  intros Hpos. induction k as [|k IH]; intros i Hi Hk Ht; cbn [prefix_from].
  - exists true. split; [done|]. split; [|done]. intros _ t Ht'. apply Ht. lia.
  - rewrite !get_P by lia. cbn [mbind option_bind]. destruct (Z.eqb_spec (P i) (P (pos + i))) as [E|Hne]; cbn [negb].
    + apply IH; [lia|lia|]. intros t Ht'. destruct (decide (t = i)) as [->|]; [done|]. apply Ht. lia.
    + exists false. split; [done|]. split; [done|]. intros Hp. destruct Hne. apply Hp. lia.
Qed.

Lemma is_prefix_spec pos : 0 <= pos <= m -> exists b, is_prefix pat m pos = Some b /\ (b = true <-> prefix pos).
Proof. intros Hpos. apply prefix_from_spec; lia. Qed.

(** How far the pattern up to [pos] and the whole pattern agree at their ends. *)
Record agree (pos n : Z) : Prop := mk_agree {
  ag_range : 0 <= n <= pos;
  ag_eq : forall i, 0 <= i < n -> P (pos - i) = P (m - 1 - i);
  ag_stop : n = pos \/ P (pos - n) <> P (m - 1 - n);
}.

Lemma suffix_from_spec pos : 0 <= pos < m -> forall k i, 0 <= i <= pos -> i + Z.of_nat k = pos + 1 ->
  (forall t, 0 <= t < i -> P (pos - t) = P (m - 1 - t)) ->
  exists n, suffix_from pat m pos i k = Some n /\ agree pos n.
Proof.
  intros Hpos. induction k as [|k IH]; intros i Hi Hk Ht; [lia|]. cbn [suffix_from].
  rewrite !get_P by lia. cbn [mbind option_bind].
  destruct (Z.eqb_spec (P (pos - i)) (P (m - 1 - i))) as [E|Hne]; cbn [andb].
  - destruct (Z.ltb_spec i pos).
    + apply IH; [lia|lia|]. intros t Ht'. destruct (decide (t = i)) as [->|]; [done|]. apply Ht. lia.
    + exists i. split; [done|]. split; [lia|done|left; lia].
  - exists i. split; [done|]. split; [lia|done|by right].
Qed.

Lemma suffix_length_spec pos : 0 <= pos < m -> exists n, suffix_length pat m pos = Some n /\ agree pos n.
Proof. intros Hpos. apply suffix_from_spec; lia. Qed.

(** *** The good-suffix table *)

(** The pattern moved [s] places on can match a text that agrees with it behind
    [j] and differs at [j]. *)
Definition compatible (j s : Z) : Prop :=
  (forall k, j < k < m -> 0 <= k - s -> P (k - s) = P k) /\ (0 <= j - s -> P (j - s) <> P j).

Lemma compatible_prefix j s : compatible j s -> 0 <= j < s -> s <= m -> prefix s.
Proof. intros [Hc _] Hj Hs i Hi. specialize (Hc (s + i) ltac:(lia) ltac:(lia)). by replace (s + i - s) with i in Hc by lia. Qed.

(** The move of a table entry. *)
Definition delta2_base (j v : Z) : Prop :=
  m - j <= v <= 2 * m /\ forall s, j < s -> compatible j s -> v <= s + (m - 1 - j).

Definition delta2_upto (p j v : Z) : Prop :=
  delta2_base j v /\ forall s, 1 <= s <= j -> m - 1 - s < p -> compatible j s -> v <= s + (m - 1 - j).

Lemma delta2_prefixes d : (Z.to_nat m <= length d)%nat ->
  exists d' last, for_ (fun k => prefix_pass pat m (m - 1 - k)) 0 (Z.to_nat m) (d, m - 1) = Some (d', last) /\
    length d' = length d /\ table d' m delta2_base.
Proof.
  intros Hd.
  match goal with |- context [for_ ?f _ _ _] =>
  destruct (for_inv (fun k '(d', last) => length d' = length d /\ (k = 0 \/ m - k + 1 <= last <= m) /\
      (forall q, m - k + 1 <= q <= m -> prefix q -> last <= q) /\
      table d' m (fun j v => m - k <= j -> delta2_base j v)) f (Z.to_nat m) 0 (d, m - 1))
    as ([d' last] & E & Hl & _ & _ & Ht) end.
  - split; [done|]. split; [by left|]. split; [lia|]. intros j Hj.
    destruct (aget_is_Some d j) as (v & _ & E); [lia|]. exists v. split; [done|lia].
  - intros k [d1 last] Hk (Hl & Hr & Hmin & Ht). unfold prefix_pass.
    replace (m - 1 - k + 1) with (m - k) by lia. destruct (is_prefix_spec (m - k)) as (b & -> & Hb); [lia|].
    cbn [mbind option_bind]. set (last' := if b then m - k else last).
    assert (m - k <= last' <= m /\ forall q, m - k <= q <= m -> prefix q -> last' <= q) as [Hr' Hmin'].
    { subst last'. destruct b; [split; lia|]. assert (k <> 0) as Hk0.
      { intros ->. destruct Hb as [_ Hb]. discriminate Hb. intros i Hi. lia. }
      split; [lia|]. intros q Hq Hp. destruct (decide (q = m - k)) as [->|]; [by destruct Hb as [_ Hb]; discriminate Hb|].
      apply Hmin; [lia|done]. }
    match goal with |- context [aset d1 ?i ?v] =>
    destruct (table_set d1 m _ (fun j w => m - (k + 1) <= j -> delta2_base j w) i v Ht) as (d2 & -> & Hl2 & Ht2) end.
    + lia.
    + intros j w _ Hne Hw Hj. apply Hw. lia.
    + intros _ _. split; [lia|]. intros s Hs Hc. enough (last' <= s) by lia.
      destruct (decide (s <= m)); [|lia]. apply Hmin'; [lia|]. apply (compatible_prefix (m - 1 - k)); [done|lia|done].
    + cbn [mbind option_bind]. eexists. split; [done|]. cbn beta iota. split; [congruence|]. split; [right; lia|].
      split; [|done]. intros q Hq. apply Hmin'. lia.
  - exists d', last. split; [done|]. split; [done|]. intros j Hj. destruct (Ht j Hj) as (v & Ev & Hv).
    exists v. split; [done|]. apply Hv. lia.
Qed.

Lemma make_delta2_spec d : Z.of_nat (length d) = 8192 ->
  exists d', make_delta2 d pat m = Some d' /\ table d' m (delta2_upto m).
Proof.
  intros Hd. unfold make_delta2. destruct (delta2_prefixes d) as (d1 & last & -> & Hl1 & Ht1); [lia|].
  cbn [mbind option_bind].
  match goal with |- context [for_ ?f _ _ _] =>
  destruct (for_inv (fun p d' => length d' = length d /\ table d' m (delta2_upto p)) f (Z.to_nat (m - 1)) 0 d1)
    as (d2 & E & Hl2 & Ht2) end.
  - split; [done|]. intros j Hj. destruct (Ht1 j Hj) as (v & Ev & Hv). exists v. split; [done|]. split; [done|lia].
  - intros p d' Hp [Hl Ht]. destruct (suffix_length_spec p) as (n & -> & [Hn Heq Hstop]); [lia|].
    cbn [mbind option_bind]. rewrite !get_P by lia. cbn [mbind option_bind].
    assert (forall j, 0 <= j < m -> 1 <= m - 1 - p <= j -> compatible j (m - 1 - p) ->
      j = m - 1 - n /\ P (p - n) <> P (m - 1 - n)) as Hhit.
    { intros j Hj Hs [Hc Hd']. set (i0 := m - 1 - j). specialize (Hd' ltac:(lia)).
      replace (j - (m - 1 - p)) with (p - i0) in Hd' by lia. replace j with (m - 1 - i0) in Hd' at 1 by lia.
      assert (n <= i0) by (destruct (Z.le_gt_cases n i0) as [|Hgt]; [done|destruct Hd'; apply Heq; lia]).
      destruct (decide (n = i0)) as [->|Hne]; [split; [lia|done]|].
      specialize (Hc (m - 1 - n) ltac:(lia) ltac:(lia)). replace (m - 1 - n - (m - 1 - p)) with (p - n) in Hc by lia.
      destruct Hstop as [->|Hstop]; [lia|done]. }
    destruct (Z.eqb_spec (P (p - n)) (P (m - 1 - n))) as [Ep|Hne]; cbn [negb].
    + exists d'. split; [done|]. split; [done|]. intros j Hj. destruct (Ht j Hj) as (v & Ev & Hb & Hv).
      exists v. split; [done|]. split; [done|]. intros s Hs Hsp Hc. destruct (decide (s = m - 1 - p)) as [->|].
      * by destruct (Hhit j Hj ltac:(lia) Hc) as [_ []].
      * apply Hv; [lia|lia|done].
    + match goal with |- context [aset d' ?i ?v] =>
      destruct (table_set d' m _ (delta2_upto (p + 1)) i v Ht) as (d2 & -> & Hl2 & Ht2) end.
      * lia.
      * intros j w Hj Hji [Hb Hv]. split; [done|]. intros s Hs Hsp Hc. destruct (decide (s = m - 1 - p)) as [->|].
        -- by destruct (Hhit j Hj ltac:(lia) Hc) as [-> _].
        -- apply Hv; [lia|lia|done].
      * intros _. split; [split; [lia|]|]; intros s Hs; lia.
      * exists d2. split; [done|]. split; [congruence|done].
  - exists d2. split; [done|]. intros j Hj. destruct (Ht2 j Hj) as (v & Ev & Hb & Hv). exists v. split; [done|]. split; [done|].
    intros s Hs Hsp. apply Hv; [done|lia].
Qed.

(** *** The search *)

Context (string : list Z) (n : Z).
Hypothesis Hn : 0 <= n.
Hypothesis Hint : n + 16384 < 2 ^ 31.
Hypothesis Hstring : n <= Z.of_nat (length string).
Hypothesis Hsbytes : bytes string.

Definition T (k : Z) : Z := nth (Z.to_nat k) string 0.

Lemma get_T k : 0 <= k < n -> aget string k = Some (T k).
Proof. intros Hk. apply aget_nth. lia. Qed.

Lemma T_byte k : 0 <= k < n -> 0 <= T k < 256.
Proof.
  intros Hk. destruct (aget_is_Some string k) as (x & Hx & E); [lia|]. rewrite get_T in E by done.
  injection E as <-. unfold bytes in Hsbytes. rewrite list.Forall_forall in Hsbytes.
  apply Hsbytes. by eapply list_elem_of_lookup_2.
Qed.

(** The pattern is at [k]. *)
Definition at_ (k : Z) : Prop := forall t, 0 <= t < m -> T (k + t) = P t.

Lemma occurs_at k : 0 <= k -> occurs string pat m k = true <-> at_ k.
Proof.
  intros Hk. unfold occurs. rewrite forallb_forall. unfold at_, T, P. split; intros H t Ht.
  - specialize (H (Z.to_nat t)). rewrite Z.eqb_eq in H. rewrite Z2Nat.inj_add by lia. apply H. apply in_seq. lia.
  - apply in_seq in Ht. apply Z.eqb_eq. specialize (H (Z.of_nat t) ltac:(lia)).
    rewrite Z2Nat.inj_add, Nat2Z.id in H by lia. exact H.
Qed.

Lemma naive_first k : 0 <= k -> k + m <= n -> at_ k -> (forall k', 0 <= k' < k -> ~ at_ k') -> naive_search string pat n m = Some k.
Proof.
  intros Hk Hkn Hat Hno. unfold naive_search. apply (find_first _ _ (Z.to_nat k)).
  - rewrite list_lookup_fmap, lookup_seq_lt by lia. cbn. f_equal. lia.
  - by apply occurs_at.
  - intros j y Hj Hy. apply positions_lookup in Hy as [-> _]. apply not_true_is_false. rewrite occurs_at by lia. apply Hno. lia.
Qed.

Lemma naive_none : (forall k, 0 <= k -> k + m <= n -> ~ at_ k) -> naive_search string pat n m = None.
Proof.
  intros Hno. unfold naive_search. destruct (List.find _ _) as [x|] eqn:E; [|done]. apply List.find_some in E as [Hx Ho].
  apply list_elem_of_In, list_elem_of_fmap in Hx as (y & -> & Hy%elem_of_seq). destruct (Hno (Z.of_nat y)); [lia|lia|].
  apply occurs_at; [lia|done].
Qed.

Lemma match_back_spec k : 0 <= k -> k + m <= n -> forall f j, -1 <= j < m -> Z.of_nat f = j + 2 ->
  (forall t, j < t < m -> T (k + t) = P t) ->
  exists j', match_back string pat (k + j) j f = Some (k + j', j') /\ -1 <= j' < m /\
    (forall t, j' < t < m -> T (k + t) = P t) /\ (0 <= j' -> T (k + j') <> P j').
Proof.
  intros Hk Hkn. induction f as [|f IH]; intros j Hj Hf Ht; [lia|]. cbn [match_back].
  destruct (Z.leb_spec 0 j).
  - rewrite get_T, get_P by lia. cbn [mbind option_bind]. destruct (Z.eqb_spec (T (k + j)) (P j)) as [E|Hne].
    + replace (k + j - 1) with (k + (j - 1)) by lia. apply IH; [lia|lia|]. intros t Ht'.
      destruct (decide (t = j)) as [->|]; [done|]. apply Ht. lia.
    + exists j. by repeat split; try done; lia.
  - exists j. repeat split; try done; lia.
Qed.

(** Places between the current one and the next are no matches. *)
Lemma move_compatible k j s : 0 <= j < m -> (forall t, j < t < m -> T (k + t) = P t) -> T (k + j) <> P j ->
  1 <= s -> at_ (k + s) -> compatible j s.
Proof.
  intros Hj Ht Hd Hs Hat. split.
  - intros t Htj Hts. specialize (Hat (t - s) ltac:(lia)). replace (k + s + (t - s)) with (k + t) in Hat by lia.
    rewrite <- Hat. apply Ht. lia.
  - intros Hjs. specialize (Hat (j - s) ltac:(lia)). replace (k + s + (j - s)) with (k + j) in Hat by lia. congruence.
Qed.

Lemma search_loop_spec d1 d2 : 0 < m -> table d1 256 (delta1_ok (m - 1)) -> table d2 m (delta2_upto m) ->
  forall f k, 0 <= k -> k <= n + m -> n - m + 1 - k < Z.of_nat f -> (0 < f)%nat -> (forall k', 0 <= k' < k -> k' + m <= n -> ~ at_ k') ->
  search_loop f string n pat m d1 d2 (k + (m - 1)) = Some (naive_search string pat n m).
Proof.
  intros Hm0 H1 H2. induction f as [|f IH]; intros k Hk Hkm Hf Hf0 Hno; [lia|]. cbn [search_loop].
  change (2 ^ 31) with 2147483648 in Hint. rewrite u32_small by lia.
  destruct (Z.ltb_spec (k + (m - 1)) n) as [Hin|Hout].
  2:{ rewrite naive_none; [done|]. intros k' Hk' Hkn'. apply Hno; lia. }
  destruct (match_back_spec k Hk ltac:(lia) (S (Z.to_nat m)) (m - 1)) as (j & -> & Hj & Ht & Hd); [lia|lia|lia|].
  cbn [mbind option_bind]. destruct (Z.ltb_spec j 0) as [Hneg|Hpos].
  - rewrite (naive_first k); [do 2 f_equal; lia|done|lia| |].
    + intros t Ht'. apply Ht. lia.
    + intros k' Hk'. apply Hno; lia.
  - specialize (Hd Hpos). rewrite get_T by lia. cbn [mbind option_bind].
    destruct (H1 (T (k + j)) (T_byte (k + j) ltac:(lia))) as (a & -> & Ham & Ha). destruct (H2 j ltac:(lia)) as (b & -> & [Hb Hb1] & Hb2).
    cbn [mbind option_bind]. set (v := if a <? b then b else a).
    assert (m - j <= v <= 2 * m) as Hv by (subst v; destruct (Z.ltb_spec a b); lia).
    rewrite s32_small by lia. replace (k + j + v) with (k + (v - (m - 1 - j)) + (m - 1)) by lia.
    apply IH; [lia|lia|lia|lia|]. intros k' Hk' Hkn' Hat. destruct (decide (k' < k)); [by apply (Hno k'); [lia|lia|]|].
    destruct (decide (k' = k)) as [->|Hne]; [by apply Hd; apply Hat; lia|].
    assert (compatible j (k' - k)) as Hc.
    { apply (move_compatible k); [lia|done|done|lia|]. by replace (k + (k' - k)) with k' by lia. }
    assert (b <= k' - k + (m - 1 - j)) by (destruct (decide (j < k' - k)); [apply Hb1; [lia|done]|apply Hb2; [lia|lia|done]]).
    assert (a <= k' - k + (m - 1 - j)).
    { destruct (decide (k' - k <= j)); [|lia]. specialize (Ha (j - (k' - k)) ltac:(lia)).
      specialize (Hat (j - (k' - k)) ltac:(lia)). replace (k' + (j - (k' - k))) with (k + j) in Hat by lia. rewrite Hat in Ha. specialize (Ha eq_refl). lia. }
    subst v. destruct (Z.ltb_spec a b); lia.
Qed.

Lemma boyer_moore_naive d1 d2 : Z.of_nat (length d1) = 256 -> Z.of_nat (length d2) = 8192 ->
  boyer_moore d1 d2 string n pat m = Some (naive_search string pat n m).
Proof.
  intros H1 H2. unfold boyer_moore. destruct (Z.ltb_spec 8192 m); [lia|].
  destruct (make_delta1_spec d1) as (d1' & -> & Ht1); [lia|]. cbn [mbind option_bind].
  destruct (make_delta2_spec d2) as (d2' & -> & Ht2); [lia|]. cbn [mbind option_bind].
  destruct (Z.eqb_spec m 0) as [E0|Hne].
  - rewrite (naive_first 0); [done|lia|lia|intros t; lia|lia].
  - rewrite <- (Z.add_0_l (m - 1)). apply search_loop_spec; try done; lia.
Qed.

End Tables.

(** ** Collecting the patterns of a text *)

(** [memcmp] of [n] bytes at two offsets. *)
Definition same_bytes (src : list Z) (a b n : Z) : option bool :=
  x ← take_exact (Z.to_nat n) (drop (Z.to_nat a) src);
  y ← take_exact (Z.to_nat n) (drop (Z.to_nat b) src);
  Some (bool_decide (x = y)).

Fixpoint srchpats_from (src ptrs : list Z) (pat patlen i : Z) (k : nat) : option Z :=
  match k with
  | O => Some (-1)
  | S k =>
      ptr ← aget ptrs i; same ← same_bytes src ptr pat patlen;
      if (same : bool) then Some i else srchpats_from src ptrs pat patlen (i + 1) k
  end.

(** The number of patterns is passed as an [uint8_t]. *)
Definition _srchpats (src ptrs : list Z) (numpats pat patlen : Z) : option Z :=
  srchpats_from src ptrs pat patlen 0 (Z.to_nat (u8 numpats)).

(** The body of the loops; a row of the table holds 65536 pointers, and [numpats] is
    its length. *)
Definition find_pattern (delta1 delta2 src : list Z) (len i patlen : Z) (st : list (list Z) * Z) : option (list (list Z) * Z) :=
  let '(ptrs, n) := st in
  ptr ← boyer_moore delta1 delta2 (drop (Z.to_nat i) src) (u32 (len - i)) (drop (Z.to_nat i) src) patlen;
  match ptr with
  | None => Some (ptrs, n)
  | Some off =>
      row ← aget ptrs patlen;
      r ← _srchpats src row (Z.of_nat (length row)) i patlen;
      if r <? 0 then
        if Z.of_nat (length row) <? 65536 then ptrs ← aset ptrs patlen (row ++ [i + off]); Some (ptrs, n + 1) else None
      else Some (ptrs, n)
  end.

(** The rows by length, and the number of patterns. *)
Definition huff_findpatterns (delta1 delta2 : list Z) (ptrs : list (list Z)) (maxpatlen : Z) (src : list Z) (len : Z) : option (list (list Z) * Z) :=
  for_ (fun i => for_ (find_pattern delta1 delta2 src len i) 1 (Z.to_nat maxpatlen)) 0 (Z.to_nat len) (ptrs, 0).

Definition MAX_PATTERNLEN : Z := 30.

(** A text occurs at its own start. *)
Lemma naive_self s n m : 0 <= m -> 0 <= n -> naive_search s s n m = if m <=? n then Some 0 else None.
Proof.
  intros Hm Hn. unfold naive_search. destruct (Z.leb_spec m n).
  - apply (find_first (occurs s s m) _ 0%nat).
    + rewrite list_lookup_fmap, lookup_seq_lt by lia. done.
    + unfold occurs. apply forallb_forall. intros t _. apply Z.eqb_refl.
    + lia.
  - by replace (Z.to_nat (n - m + 1)) with 0%nat by lia.
Qed.

Lemma bytes_drop k l : bytes l -> bytes (drop k l).
Proof. apply Forall_drop. Qed.

Section Patterns.
Context (d1 d2 src : list Z) (len maxpatlen : Z).
Hypothesis Hd1 : Z.of_nat (length d1) = 256.
Hypothesis Hd2 : Z.of_nat (length d2) = 8192.
Hypothesis Hlen : 0 <= len <= 65536.
Hypothesis Hmax : 0 <= maxpatlen <= MAX_PATTERNLEN.
(** The patterns are looked at over their whole length even at the end of the text. *)
Hypothesis Hsrc : len + maxpatlen - 1 <= Z.of_nat (length src).
Hypothesis Hsbytes : bytes src.

(** The substring of length [L] at [k]. *)
Definition sub (L k : Z) : list Z := take (Z.to_nat L) (drop (Z.to_nat k) src).

Lemma same_bytes_spec a b L : 0 <= a -> 0 <= b -> 0 <= L -> a + L <= Z.of_nat (length src) -> b + L <= Z.of_nat (length src) ->
  same_bytes src a b L = Some (bool_decide (sub L a = sub L b)).
Proof. intros ? ? ? ? ?. unfold same_bytes. by rewrite !take_exact_le by (rewrite length_drop; lia). Qed.

(** The patterns of length [L] found at the places before [i]. *)
Record row_ok (L i : Z) (row : list Z) : Prop := mk_row_ok {
  row_sound : Forall (fun p => 0 <= p /\ p + L <= len) row;
  row_complete : forall k, 0 <= k < i -> k + L <= len -> exists p, p ∈ row /\ sub L p = sub L k;
  row_distinct : Z.of_nat (length row) <= 256 -> NoDup (sub L <$> row);
  row_short : Z.of_nat (length row) <= i;
}.

Lemma srchpats_from_spec L i row : 0 <= L -> 0 <= i -> i + L <= Z.of_nat (length src) -> len <= Z.of_nat (length src) ->
  Forall (fun p => 0 <= p /\ p + L <= len) row ->
  forall k j, 0 <= j -> j + Z.of_nat k <= Z.of_nat (length row) ->
  (forall t p, (t < Z.to_nat j)%nat -> row !! t = Some p -> sub L p <> sub L i) ->
  exists r, srchpats_from src row i L j k = Some r /\
    ((r < 0 /\ forall t p, (t < Z.to_nat j + k)%nat -> row !! t = Some p -> sub L p <> sub L i) \/
     (0 <= r /\ exists p, p ∈ row /\ sub L p = sub L i)).
Proof.
  intros HL Hi HiL Hls Hrow. induction k as [|k IH]; intros j Hj Hk Hno; cbn [srchpats_from].
  - exists (-1). split; [done|]. left. split; [lia|]. intros t p Ht. apply Hno. lia.
  - destruct (aget_is_Some row j) as (p & Hp & ->); [lia|]. cbn [mbind option_bind].
    assert (0 <= p /\ p + L <= len) as [Hp0 HpL] by (rewrite list.Forall_forall in Hrow; apply Hrow; by eapply list_elem_of_lookup_2).
    rewrite same_bytes_spec by lia. cbn [mbind option_bind]. case_bool_decide as E.
    + exists j. split; [done|]. right. split; [done|]. exists p. split; [by eapply list_elem_of_lookup_2|done].
    + destruct (IH (j + 1)) as (r & -> & Hr); [lia|lia| |].
      * intros t q Ht Hq. destruct (decide (t = Z.to_nat j)) as [->|]; [by simplify_eq|]. apply (Hno t); [lia|done].
      * exists r. split; [done|]. destruct Hr as [[Hr Hall]|Hr]; [left|by right]. split; [done|].
        intros t q Ht. apply Hall. lia.
Qed.

Lemma row_ok_found L i row p : row_ok L i row -> 0 <= i -> p ∈ row -> sub L p = sub L i -> row_ok L (i + 1) row.
Proof.
  intros [] Hi Hp E. split; [done| |done|lia]. intros k Hk HkL. destruct (decide (k = i)) as [->|]; [by exists p|].
  apply row_complete0; lia.
Qed.

Lemma row_ok_new L i row : row_ok L i row -> 0 <= i -> i + L <= len ->
  (forall t p, (t < Z.to_nat (u8 (Z.of_nat (length row))))%nat -> row !! t = Some p -> sub L p <> sub L i) ->
  row_ok L (i + 1) (row ++ [i]).
Proof.
  intros [] Hi HiL Hno. split; rewrite ?length_app; cbn [length]; [ | | |lia].
  - apply Forall_app. split; [done|]. by apply Forall_singleton.
  - intros k Hk HkL. destruct (decide (k = i)) as [->|].
    + exists i. split; [|done]. apply elem_of_app. right. by apply list_elem_of_singleton.
    + destruct (row_complete0 k) as (p & Hp & E); [lia|done|]. exists p. split; [|done]. apply elem_of_app. by left.
  - intros Hl. rewrite fmap_app. apply list.NoDup_app. rewrite u8_small in Hno by lia. rewrite Nat2Z.id in Hno.
    split; [apply row_distinct0; lia|]. split; [|apply list.NoDup_singleton].
    intros x (p & -> & Hp)%list_elem_of_fmap Hx%list_elem_of_singleton.
    apply list_elem_of_lookup in Hp as (t & Ht). destruct (Hno t p); [by eapply lookup_lt_Some|done|done].
Qed.

(** Row [L] is done up to the place [f L]. *)
Definition rows_ok (f : Z -> Z) (st : list (list Z) * Z) : Prop :=
  Z.of_nat (length st.1) = MAX_PATTERNLEN + 1 /\ st.2 = sumZ ((fun row => Z.of_nat (length row)) <$> st.1) /\
  forall L, 1 <= L <= maxpatlen -> exists row, aget st.1 L = Some row /\ row_ok L (f L) row.

Lemma find_pattern_spec f i L st : 0 <= i < len -> 1 <= L <= maxpatlen -> f L = i -> rows_ok f st ->
  exists st', find_pattern d1 d2 src len i L st = Some st' /\ rows_ok (fun K => if K =? L then i + 1 else f K) st'.
Proof.
  intros Hi HL Hf (Hl & Hsum & Hrows). destruct st as [ptrs n]. cbn [fst snd] in *. unfold find_pattern, MAX_PATTERNLEN in *.
  destruct (Hrows L HL) as (row & Erow & Hrow). rewrite Hf in Hrow.
  rewrite u32_small, boyer_moore_naive by (try done; try apply bytes_drop; rewrite ?length_drop; try done; lia).
  cbn [mbind option_bind]. rewrite naive_self by lia.
  assert (forall row', aset ptrs L row' = Some (<[Z.to_nat L := row']> ptrs)) as Es by (intros; apply aset_in_range; lia).
  destruct (Z.leb_spec L (len - i)).
  - rewrite Erow. cbn [mbind option_bind]. pose proof Hrow as []. unfold _srchpats.
    assert (u8 (Z.of_nat (length row)) <= Z.of_nat (length row)) as Hu by (apply Z.mod_le; lia). pose proof (u8_range (Z.of_nat (length row))).
    destruct (srchpats_from_spec L i row ltac:(lia) ltac:(lia) ltac:(lia) ltac:(lia) row_sound0 (Z.to_nat (u8 (Z.of_nat (length row)))) 0)
      as (r & -> & Hr); [lia|lia|lia|]. cbn [mbind option_bind]. destruct Hr as [[Hr Hno]|(Hr & p & Hp & E)].
    + destruct (Z.ltb_spec r 0); [|lia]. destruct (Z.ltb_spec (Z.of_nat (length row)) 65536); [|lia].
      rewrite Es. cbn [mbind option_bind]. rewrite Z.add_0_r. eexists. split; [done|]. split; [|split]; cbn [fst snd].
      * by rewrite length_insert.
      * apply aget_Some in Erow as [_ Erow]. rewrite list_fmap_insert, (sumZ_insert _ _ _ (Z.of_nat (length row))) by (by rewrite list_lookup_fmap, Erow).
        rewrite length_app. cbn [length]. lia.
      * intros K HK. destruct (Z.eqb_spec K L) as [->|Hne].
        -- exists (row ++ [i]). split; [apply aget_lookup; [lia|]; by rewrite list_lookup_insert_eq by lia|].
           apply row_ok_new; [done|lia|lia|done].
        -- destruct (Hrows K HK) as (rk & [_ Ek]%aget_Some & Hk). exists rk. split; [|done]. apply aget_lookup; [lia|].
           by rewrite list_lookup_insert_ne by lia.
    + destruct (Z.ltb_spec r 0); [lia|]. eexists. split; [done|]. split; [done|]. split; [done|]. intros K HK. cbn [fst].
      destruct (Z.eqb_spec K L) as [->|Hne]; [|by apply Hrows]. exists row. split; [done|]. by eapply row_ok_found; [|lia| |].
  - eexists. split; [done|]. split; [done|]. split; [done|]. intros K HK. cbn [fst].
    destruct (Z.eqb_spec K L) as [->|Hne]; [|by apply Hrows]. exists row. split; [done|]. destruct Hrow. split; [done| |done|lia].
    intros k Hk HkL. apply row_complete0; lia.
Qed.

Lemma huff_findpatterns_rows : exists st, huff_findpatterns d1 d2 (replicate 31 []) maxpatlen src len = Some st /\
  rows_ok (fun _ => len) st.
Proof.
  unfold huff_findpatterns.
  match goal with |- context [for_ ?f _ _ _] =>
  destruct (for_inv (fun i => rows_ok (fun _ => i)) f (Z.to_nat len) 0 (replicate 31 [], 0)) as (st & -> & Hst) end.
  - split; [done|]. split; [done|]. intros L HL. exists []. unfold MAX_PATTERNLEN in *. split.
    + apply aget_lookup; [lia|]. apply lookup_replicate. split; [done|lia].
    + split; [by apply list.Forall_nil|lia|intros; apply base.NoDup_nil_2|done].
  - intros i st Hi Hst.
    destruct (for_inv (fun L => rows_ok (fun K => if K <? L then i + 1 else i)) (find_pattern d1 d2 src len i) (Z.to_nat maxpatlen) 1 st)
      as (st' & -> & Hst').
    + destruct Hst as (? & ? & Hr). split; [done|]. split; [done|]. intros L HL. destruct (Z.ltb_spec L 1); [lia|]. by apply Hr.
    + intros L st1 HL Hst1.
      destruct (find_pattern_spec (fun K => if K <? L then i + 1 else i) i L st1) as (st2 & -> & H2); [lia|lia|by rewrite Z.ltb_irrefl|done|].
      exists st2. split; [done|]. destruct H2 as (? & ? & Hr). split; [done|]. split; [done|]. intros K HK.
      destruct (Hr K HK) as (row & E & Hrow). exists row. split; [done|].
      destruct (Z.eqb_spec K L), (Z.ltb_spec K L), (Z.ltb_spec K (L + 1)); (done || lia).
    + exists st'. split; [done|]. destruct Hst' as (? & ? & Hr). split; [done|]. split; [done|]. intros L HL.
      destruct (Hr L HL) as (row & E & Hrow). exists row. split; [done|].
      by destruct (Z.ltb_spec L (1 + Z.of_nat (Z.to_nat maxpatlen))); [|lia].
  - exists st. split; [done|]. by rewrite Z.add_0_l, Z2Nat.id in Hst by lia.
Qed.

End Patterns.

(** C8: For any pattern of at most 8192 bytes the search stays inside its memory and
    its tables, ends, and finds the same place as trying every position from the
    start: the first occurrence, or a null pointer when there is none. *)
Theorem boyer_moore_spec d1 d2 string n pat m :
  Z.of_nat (length d1) = 256 -> Z.of_nat (length d2) = 8192 -> bytes string -> bytes pat ->
  0 <= m <= 8192 -> m <= Z.of_nat (length pat) -> 0 <= n <= Z.of_nat (length string) -> n + 16384 < 2 ^ 31 ->
  boyer_moore d1 d2 string n pat m = Some (naive_search string pat n m).
Proof. intros. by apply boyer_moore_naive; try lia. Qed.

Example boyer_moore_spec_witness :
  boyer_moore (replicate 256 0) (replicate (Z.to_nat 8192) 0) [97; 98; 97; 99; 97; 98; 97; 98; 97] 9 [97; 98; 97; 98] 4 = Some (Some 4).
Proof.
  apply (boyer_moore_spec (replicate 256 0) (replicate (Z.to_nat 8192) 0) [97; 98; 97; 99; 97; 98; 97; 98; 97] 9 [97; 98; 97; 98] 4).
  - done.
  - rewrite length_replicate. lia.
  - concrete.
  - concrete.
  - lia.
  - cbn; lia.
  - cbn; lia.
  - lia.
Defined.

(** C33: Collecting the patterns of a text of at most 65536 bytes, followed by at least
    [maxpatlen - 1] readable bytes, ends inside its tables with a row for each length
    from 1 to [maxpatlen]: every entry is a place in the text, every substring of
    that length is that of an entry, the number returned counts the entries, and
    as long as a row has no more than 256 of them they are pairwise different. *)
Theorem huff_findpatterns_spec d1 d2 src len maxpatlen :
  Z.of_nat (length d1) = 256 -> Z.of_nat (length d2) = 8192 -> bytes src ->
  0 <= len <= 65536 -> 0 <= maxpatlen <= MAX_PATTERNLEN -> len + maxpatlen - 1 <= Z.of_nat (length src) ->
  exists ptrs, huff_findpatterns d1 d2 (replicate 31 []) maxpatlen src len =
      Some (ptrs, sumZ ((fun row => Z.of_nat (length row)) <$> ptrs)) /\
    forall L, 1 <= L <= maxpatlen -> exists row, aget ptrs L = Some row /\
      Forall (fun p => 0 <= p /\ p + L <= len) row /\
      (forall k, 0 <= k -> k + L <= len -> exists p, p ∈ row /\ sub src L p = sub src L k) /\
      (Z.of_nat (length row) <= 256 -> NoDup (sub src L <$> row)).
Proof.
  intros H1 H2 Hb Hlen Hmax Hsrc.
  destruct (huff_findpatterns_rows d1 d2 src len maxpatlen H1 H2 Hlen Hmax Hsrc Hb) as ([ptrs n] & E & _ & Hn & Hrows).
  cbn [fst snd] in *. subst n. exists ptrs. split; [done|]. intros L HL. destruct (Hrows L HL) as (row & Er & []).
  exists row. split; [done|]. split; [done|]. split; [|done]. intros k Hk HkL. apply row_complete0; lia.
Qed.

Example huff_findpatterns_spec_witness :
  exists ptrs, huff_findpatterns (replicate 256 0) (replicate (Z.to_nat 8192) 0) (replicate 31 []) 2 [97; 98; 97; 98; 0] 4 =
      Some (ptrs, sumZ ((fun row => Z.of_nat (length row)) <$> ptrs)) /\
    forall L, 1 <= L <= 2 -> exists row, aget ptrs L = Some row /\
      Forall (fun p => 0 <= p /\ p + L <= 4) row /\
      (forall k, 0 <= k -> k + L <= 4 -> exists p, p ∈ row /\ sub [97; 98; 97; 98; 0] L p = sub [97; 98; 97; 98; 0] L k) /\
      (Z.of_nat (length row) <= 256 -> NoDup (sub [97; 98; 97; 98; 0] L <$> row)).
Proof.
  apply (huff_findpatterns_spec (replicate 256 0) (replicate (Z.to_nat 8192) 0) [97; 98; 97; 98; 0] 4 2).
  - done.
  - rewrite length_replicate. lia.
  - concrete.
  - lia.
  - unfold MAX_PATTERNLEN. lia.
  - cbn; lia.
Defined.

(** At the end of a text without readable bytes behind it the pattern is read past the end. *)
Example huff_findpatterns_overrun :
  huff_findpatterns (replicate 256 0) (replicate (Z.to_nat 8192) 0) (replicate 31 []) 2 [97] 1 = None.
Proof. vm_compute. reflexivity. Qed.

(** With 256 patterns of a length the number passed on is zero and nothing is found again. *)
Example srchpats_256 src ptrs pat patlen : _srchpats src ptrs 256 pat patlen = Some (-1).
Proof. reflexivity. Qed.
