(* ===== verification/Field25519.v ===== *)
(** * Field25519: the field of Curve25519 in five limbs

    Models the 64-bit field arithmetic of [plugins/utils/curve25519.c]: numbers modulo
    [p = 2^255 - 19] as five 64-bit limbs of 51 bits ([bits320]), products in 128 bits.
    Operations are functions on limbs that wrap where C does; each is shown to
    compute the operation modulo [p] on the limbs the ladder passes to it.  The congruence is [=p], with [Proper] instances. *)

From S2P Require Import Prelude Cards.
From Stdlib Require Import Morphisms.

Definition u128 (x : Z) : Z := wrapU 128 x.

(** [union bits320], by its member [ulongs]. *)
Record bits320 := mk_bits320 { l0 : Z; l1 : Z; l2 : Z; l3 : Z; l4 : Z }.

Definition mask51 : Z := 0x7ffffffffffff.

Definition fsum (output inp : bits320) : bits320 :=
  mk_bits320 (u64 (l0 output + l0 inp)) (u64 (l1 output + l1 inp)) (u64 (l2 output + l2 inp))
    (u64 (l3 output + l3 inp)) (u64 (l4 output + l4 inp)).

Definition two54m152 : Z := Z.shiftl 1 54 - 152.
Definition two54m8 : Z := Z.shiftl 1 54 - 8.

(** The new contents of [out]. *)
Definition fdifference_backwards (out inp : bits320) : bits320 :=
  mk_bits320 (u64 (l0 inp + two54m152 - l0 out)) (u64 (l1 inp + two54m8 - l1 out)) (u64 (l2 inp + two54m8 - l2 out))
    (u64 (l3 inp + two54m8 - l3 out)) (u64 (l4 inp + two54m8 - l4 out)).

(** The eight bytes written. *)
Fixpoint store_from (inp : Z) (k : nat) : list Z :=
  match k with O => [] | S k => Z.land inp 0xff :: store_from (Z.shiftr inp 8) k end.

Definition store_limb (inp : Z) : list Z := store_from inp 8.

Definition load_limb (mem : list Z) (off : Z) : option Z :=
  b0 ← aget mem off; b1 ← aget mem (off + 1); b2 ← aget mem (off + 2); b3 ← aget mem (off + 3);
  b4 ← aget mem (off + 4); b5 ← aget mem (off + 5); b6 ← aget mem (off + 6); b7 ← aget mem (off + 7);
  Some (Z.lor (Z.lor (Z.lor (Z.lor (Z.lor (Z.lor (Z.lor b0 (Z.shiftl b1 8)) (Z.shiftl b2 16)) (Z.shiftl b3 24))
    (Z.shiftl b4 32)) (Z.shiftl b5 40)) (Z.shiftl b6 48)) (Z.shiftl b7 56)).

Definition fexpand (basepoint : bits256) : option bits320 :=
  a ← load_limb basepoint 0;
  b ← load_limb basepoint 6;
  c ← load_limb basepoint 12;
  d ← load_limb basepoint 19;
  e ← load_limb basepoint 24;
  Some (mk_bits320 (Z.land a mask51) (Z.land (Z.shiftr b 3) mask51) (Z.land (Z.shiftr c 6) mask51)
    (Z.land (Z.shiftr d 1) mask51) (Z.land (Z.shiftr e 12) mask51)).

(** One limb of [fscalar_product]: the 128-bit product with the carry of the limb before. *)
Definition scalar_limb (inp scalar carry : Z) : Z := u128 (inp * scalar + carry).

Definition fscalar_product (inp : bits320) (scalar : Z) : bits320 :=
  let a0 := scalar_limb (l0 inp) scalar 0 in
  let a1 := scalar_limb (l1 inp) scalar (u64 (Z.shiftr a0 51)) in
  let a2 := scalar_limb (l2 inp) scalar (u64 (Z.shiftr a1 51)) in
  let a3 := scalar_limb (l3 inp) scalar (u64 (Z.shiftr a2 51)) in
  let a4 := scalar_limb (l4 inp) scalar (u64 (Z.shiftr a3 51)) in
  mk_bits320 (u64 (Z.land a0 mask51 + u128 (Z.shiftr a4 51 * 19))) (Z.land a1 mask51) (Z.land a2 mask51)
    (Z.land a3 mask51) (Z.land a4 mask51).

(** The end of [fmul] and of each round of [fsquare_times]: the carries of the five
    128-bit sums, the last one times 19 into the first limb. *)
Definition carry51 (t0 t1 t2 t3 t4 : Z) : bits320 :=
  let r0 := Z.land (u64 t0) mask51 in let c := u64 (Z.shiftr t0 51) in
  let t1 := u128 (t1 + c) in let r1 := Z.land (u64 t1) mask51 in let c := u64 (Z.shiftr t1 51) in
  let t2 := u128 (t2 + c) in let r2 := Z.land (u64 t2) mask51 in let c := u64 (Z.shiftr t2 51) in
  let t3 := u128 (t3 + c) in let r3 := Z.land (u64 t3) mask51 in let c := u64 (Z.shiftr t3 51) in
  let t4 := u128 (t4 + c) in let r4 := Z.land (u64 t4) mask51 in let c := u64 (Z.shiftr t4 51) in
  let r0 := u64 (r0 + u64 (c * 19)) in let c := Z.shiftr r0 51 in let r0 := Z.land r0 mask51 in
  let r1 := u64 (r1 + c) in let c := Z.shiftr r1 51 in let r1 := Z.land r1 mask51 in
  let r2 := u64 (r2 + c) in
  mk_bits320 r0 r1 r2 r3 r4.

(** Sums of 128-bit products, which wrap as a whole. *)
Definition fmul (in2 inp : bits320) : bits320 :=
  let r0 := l0 inp in let r1 := l1 inp in let r2 := l2 inp in let r3 := l3 inp in let r4 := l4 inp in
  let s0 := l0 in2 in let s1 := l1 in2 in let s2 := l2 in2 in let s3 := l3 in2 in let s4 := l4 in2 in
  let t0 := u128 (r0 * s0) in
  let t1 := u128 (r0 * s1 + r1 * s0) in
  let t2 := u128 (r0 * s2 + r2 * s0 + r1 * s1) in
  let t3 := u128 (r0 * s3 + r3 * s0 + r1 * s2 + r2 * s1) in
  let t4 := u128 (r0 * s4 + r4 * s0 + r3 * s1 + r1 * s3 + r2 * s2) in
  let r4 := u64 (r4 * 19) in let r1 := u64 (r1 * 19) in let r2 := u64 (r2 * 19) in let r3 := u64 (r3 * 19) in
  let t0 := u128 (t0 + (r4 * s1 + r1 * s4 + r2 * s3 + r3 * s2)) in
  let t1 := u128 (t1 + (r4 * s2 + r2 * s4 + r3 * s3)) in
  let t2 := u128 (t2 + (r4 * s3 + r3 * s4)) in
  let t3 := u128 (t3 + r4 * s4) in
  carry51 t0 t1 t2 t3 t4.

(** One round of [fsquare_times]. *)
Definition fsquare_round (r : bits320) : bits320 :=
  let '(mk_bits320 r0 r1 r2 r3 r4) := r in
  let d0 := u64 (r0 * 2) in
  let d1 := u64 (r1 * 2) in
  let d2 := u64 (r2 * 2 * 19) in
  let d419 := u64 (r4 * 19) in
  let d4 := u64 (d419 * 2) in
  carry51 (u128 (r0 * r0 + d4 * r1 + d2 * r3)) (u128 (d0 * r1 + d4 * r2 + r3 * u64 (r3 * 19)))
    (u128 (d0 * r2 + r1 * r1 + d4 * r3)) (u128 (d0 * r3 + d1 * r2 + r4 * d419))
    (u128 (d0 * r4 + d1 * r3 + r2 * r2)).

(** [do ... while (--count)]; a count of zero wraps around. *)
Definition fsquare_times (inp : bits320) (count : Z) : bits320 :=
  Nat.iter (Z.to_nat (if count =? 0 then 2 ^ 64 else count)) fsquare_round inp.

(** The limbs are 128-bit numbers here; the last mask does not depend on [flag]. *)
Definition fcontract_iter (t : bits320) (flag : bool) : bits320 :=
  let '(mk_bits320 t0 t1 t2 t3 t4) := t in
  let t1 := u128 (t1 + Z.shiftr t0 51) in let t0 := Z.land t0 mask51 in
  let t2 := u128 (t2 + Z.shiftr t1 51) in let t1 := Z.land t1 mask51 in
  let t3 := u128 (t3 + Z.shiftr t2 51) in let t2 := Z.land t2 mask51 in
  let t4 := u128 (t4 + Z.shiftr t3 51) in let t3 := Z.land t3 mask51 in
  let t0 := if flag then u128 (t0 + u128 (19 * Z.shiftr t4 51)) else t0 in
  mk_bits320 t0 t1 t2 t3 (Z.land t4 mask51).

Definition fcontract (inp : bits320) : bits256 :=
  let t := fcontract_iter (fcontract_iter inp true) true in
  let t := fcontract_iter (mk_bits320 (u128 (l0 t + 19)) (l1 t) (l2 t) (l3 t) (l4 t)) true in
  let t := mk_bits320 (u128 (l0 t + (0x8000000000000 - 19))) (u128 (l1 t + (0x8000000000000 - 1)))
             (u128 (l2 t + (0x8000000000000 - 1))) (u128 (l3 t + (0x8000000000000 - 1)))
             (u128 (l4 t + (0x8000000000000 - 1))) in
  let t := fcontract_iter t false in
  store_limb (u64 (Z.lor (l0 t) (u128 (Z.shiftl (l1 t) 51)))) ++
  store_limb (u64 (Z.lor (Z.shiftr (l1 t) 13) (u128 (Z.shiftl (l2 t) 38)))) ++
  store_limb (u64 (Z.lor (Z.shiftr (l2 t) 26) (u128 (Z.shiftl (l3 t) 25)))) ++
  store_limb (u64 (Z.lor (Z.shiftr (l3 t) 39) (u128 (Z.shiftl (l4 t) 12)))).

(** Donna's chain for [z^(p - 2)]. *)
Definition crecip (z : bits320) : bits320 :=
  let a := fsquare_times z 1 in
  let t0 := fsquare_times a 2 in
  let b := fmul t0 z in
  let a := fmul b a in
  let t0 := fsquare_times a 1 in
  let b := fmul t0 b in
  let t0 := fsquare_times b 5 in
  let b := fmul t0 b in
  let t0 := fsquare_times b 10 in
  let c := fmul t0 b in
  let t0 := fsquare_times c 20 in
  let t0 := fmul t0 c in
  let t0 := fsquare_times t0 10 in
  let b := fmul t0 b in
  let t0 := fsquare_times b 50 in
  let c := fmul t0 b in
  let t0 := fsquare_times c 100 in
  let t0 := fmul t0 c in
  let t0 := fsquare_times t0 50 in
  let t0 := fmul t0 b in
  let t0 := fsquare_times t0 5 in
  fmul t0 a.

(** ** Congruence *)

Definition p25519 : Z := 2 ^ 255 - 19.

Definition eqp (x y : Z) : Prop := exists k, x = y + k * p25519.
Infix "=p" := eqp (at level 70, no associativity).

#[export] Instance eqp_equiv : Equivalence eqp.
Proof.
  split.
  - intros x. exists 0. lia.
  - intros x y [k ->]. exists (- k). lia.
  - intros x y z [k ->] [j ->]. exists (k + j). lia.
Qed.

#[export] Instance add_eqp : Proper (eqp ==> eqp ==> eqp) Z.add.
Proof. intros x x' [k ->] y y' [j ->]. exists (k + j). lia. Qed.
#[export] Instance sub_eqp : Proper (eqp ==> eqp ==> eqp) Z.sub.
Proof. intros x x' [k ->] y y' [j ->]. exists (k - j). lia. Qed.
#[export] Instance mul_eqp : Proper (eqp ==> eqp ==> eqp) Z.mul.
Proof. intros x x' [k ->] y y' [j ->]. exists (k * y' + x' * j + k * j * p25519). lia. Qed.

Lemma eqp_mod x : x mod p25519 =p x.
Proof. exists (- (x / p25519)). pose proof (Z.div_mod x p25519 ltac:(done)). lia. Qed.

Lemma eqp_iff x y : x =p y <-> x mod p25519 = y mod p25519.
Proof.
  split.
  - intros [k ->]. by rewrite Z.mod_add.
  - intros E. by rewrite <- (eqp_mod x), E, eqp_mod.
Qed.

Lemma pow_eqp x y n : 0 <= n -> x =p y -> x ^ n =p y ^ n.
Proof.
  intros Hn E. revert n Hn. apply natlike_ind; [done|]. intros n Hn IH. by rewrite !Z.pow_succ_r, IH, E by lia.
Qed.

(** ** Limbs and the numbers they stand for *)

Definition value (x : bits320) : Z :=
  l0 x + 2 ^ 51 * l1 x + 2 ^ 102 * l2 x + 2 ^ 153 * l3 x + 2 ^ 204 * l4 x.

(** Every limb between 0 and [b]. *)
Definition limbs_le (b : Z) (x : bits320) : Prop :=
  0 <= l0 x <= b /\ 0 <= l1 x <= b /\ 0 <= l2 x <= b /\ 0 <= l3 x <= b /\ 0 <= l4 x <= b.

(** Results of products; sums of two of them; differences. *)
Definition short : bits320 -> Prop := limbs_le (2 ^ 51).
Definition loose : bits320 -> Prop := limbs_le (2 ^ 54 + 2 ^ 51).

Lemma limbs_le_weaken b b' x : limbs_le b x -> b <= b' -> limbs_le b' x.
Proof. unfold limbs_le. lia. Qed.

Lemma short_loose x : short x -> loose x.
Proof. intros H. apply (limbs_le_weaken _ _ _ H). lia. Qed.

Lemma u128_small x : 0 <= x < 340282366920938463463374607431768211456 -> u128 x = x.
Proof. apply (wrapU_small 128). Qed.

Lemma land_mask51 x : Z.land x mask51 = x mod 2251799813685248.
Proof. unfold mask51. change 0x7ffffffffffff with (Z.ones 51). by rewrite Z.land_ones by lia. Qed.

Lemma shiftr_51 x : Z.shiftr x 51 = x / 2251799813685248.
Proof. by rewrite Z.shiftr_div_pow2 by lia. Qed.

(** Write the powers and [p] as numerals for [lia]. *)
Ltac numerals :=
  unfold short, loose, limbs_le, value, p25519 in *;
  change (2 ^ 51) with 2251799813685248 in *;
  change (2 ^ 54) with 18014398509481984 in *;
  change (2 ^ 102) with 5070602400912917605986812821504 in *;
  change (2 ^ 153) with 11417981541647679048466287755595961091061972992 in *;
  change (2 ^ 204) with 25711008708143844408671393477458601640355247900524685364822016 in *;
  change (2 ^ 255) with 57896044618658097711785492504343953926634992332820282019728792003956564819968 in *.

Lemma fsum_spec x y b c : limbs_le b x -> limbs_le c y -> b + c < 2 ^ 64 ->
  limbs_le (b + c) (fsum x y) /\ value (fsum x y) = value x + value y.
Proof.
  change (2 ^ 64) with 18446744073709551616. intros Hx Hy Hb. unfold fsum, limbs_le, value in *. cbn [l0 l1 l2 l3 l4].
  rewrite !u64_small by lia. lia.
Qed.

Lemma fdifference_spec out inp : short out -> short inp ->
  loose (fdifference_backwards out inp) /\ value (fdifference_backwards out inp) =p value inp - value out.
Proof.
  intros Ho Hi. unfold fdifference_backwards, two54m152, two54m8. change (Z.shiftl 1 54) with 18014398509481984.
  numerals. cbn [l0 l1 l2 l3 l4]. rewrite !u64_small by lia. split; [lia|]. exists 8. unfold p25519. lia.
Qed.

(** *** Carries *)

(** One step: the low 51 bits and what is carried on. *)
Lemma split51 x : 0 <= x -> exists c r, x = 2251799813685248 * c + r /\ 0 <= r < 2251799813685248 /\ 0 <= c /\
  x / 2251799813685248 = c /\ x mod 2251799813685248 = r.
Proof.
  intros Hx. exists (x / 2251799813685248), (x mod 2251799813685248). pose proof (Z.div_mod x 2251799813685248 ltac:(lia)).
  pose proof (Z.mod_pos_bound x 2251799813685248 ltac:(lia)). pose proof (Z.div_pos x 2251799813685248 ltac:(lia) ltac:(lia)).
  repeat split; try done; lia.
Qed.

Lemma u64_mod51 x : u64 x mod 2251799813685248 = x mod 2251799813685248.
Proof.
  unfold u64, wrapU. change (2 ^ 64) with (2251799813685248 * 8192). rewrite Z.rem_mul_r by lia.
  rewrite Z.mul_comm, Z.mod_add by lia. apply Z.mod_mod. lia.
Qed.

(** What the five sums may be. *)
Definition sums_ok (t0 t1 t2 t3 t4 : Z) : Prop :=
  0 <= t0 < 2 ^ 115 - 2 ^ 64 /\ 0 <= t1 < 2 ^ 115 - 2 ^ 64 /\ 0 <= t2 < 2 ^ 115 - 2 ^ 64 /\ 0 <= t3 < 2 ^ 115 - 2 ^ 64 /\
  0 <= t4 < 970881267037344821 * 2251799813685248 - 2 ^ 64 - 2 ^ 104.

Lemma carry51_spec t0 t1 t2 t3 t4 : sums_ok t0 t1 t2 t3 t4 ->
  short (carry51 t0 t1 t2 t3 t4) /\
  value (carry51 t0 t1 t2 t3 t4) =p t0 + 2 ^ 51 * t1 + 2 ^ 102 * t2 + 2 ^ 153 * t3 + 2 ^ 204 * t4.
Proof.
  unfold sums_ok. change (2 ^ 115) with 41538374868278621028243970633760768. change (2 ^ 64) with 18446744073709551616.
  change (2 ^ 104) with 20282409603651670423947251286016.
  intros (H0 & H1 & H2 & H3 & H4). unfold carry51. rewrite !land_mask51, !shiftr_51, !u64_mod51.
  destruct (split51 t0) as (c0 & r0 & E0 & Hr0 & Hc0 & -> & ->); [lia|]. rewrite (u64_small c0), (u128_small (t1 + c0)) by lia.
  destruct (split51 (t1 + c0)) as (c1 & r1 & E1 & Hr1 & Hc1 & -> & ->); [lia|]. rewrite (u64_small c1), (u128_small (t2 + c1)) by lia.
  destruct (split51 (t2 + c1)) as (c2 & r2 & E2 & Hr2 & Hc2 & -> & ->); [lia|]. rewrite (u64_small c2), (u128_small (t3 + c2)) by lia.
  destruct (split51 (t3 + c2)) as (c3 & r3 & E3 & Hr3 & Hc3 & -> & ->); [lia|]. rewrite (u64_small c3), (u128_small (t4 + c3)) by lia.
  destruct (split51 (t4 + c3)) as (c4 & r4 & E4 & Hr4 & Hc4 & -> & ->); [lia|].
  rewrite (u64_small c4), (u64_small (c4 * 19)), (u64_small (r0 + c4 * 19)) by lia.
  destruct (split51 (r0 + c4 * 19)) as (c5 & r5 & E5 & Hr5 & Hc5 & -> & ->); [lia|]. rewrite (u64_small (r1 + c5)) by lia.
  destruct (split51 (r1 + c5)) as (c6 & r6 & E6 & Hr6 & Hc6 & -> & ->); [lia|]. rewrite (u64_small (r2 + c6)) by lia.
  numerals. cbn [l0 l1 l2 l3 l4]. split; [lia|]. exists (- c4). unfold p25519. lia.
Qed.

(** *** Products *)

(** The bound on a loose limb and its square. *)
Definition D : Z := 20266198323167232.
Definition DD : Z := 410718794473946326084931838541824.

Lemma prod_le a b : 0 <= a <= D -> 0 <= b <= D -> 0 <= a * b <= DD.
Proof.
  intros Ha Hb. split; [lia|]. change DD with (D * D). apply Z.mul_le_mono_nonneg; lia.
Qed.

Lemma loose_le x : loose x <-> 0 <= l0 x <= D /\ 0 <= l1 x <= D /\ 0 <= l2 x <= D /\ 0 <= l3 x <= D /\ 0 <= l4 x <= D.
Proof. done. Qed.

(** [e] is at most [k] products of loose limbs. *)
Definition within (k e : Z) : Prop := 0 <= e <= k * DD.

Lemma within_prod a b : 0 <= a <= D -> 0 <= b <= D -> within 1 (a * b).
Proof. intros Ha Hb. unfold within. rewrite Z.mul_1_l. by apply prod_le. Qed.

Lemma within_add k j a b : within k a -> within j b -> within (k + j) (a + b).
Proof. unfold within. lia. Qed.

Lemma within_left c k a b : 0 <= c -> within k (a * b) -> within (c * k) (a * c * b).
Proof.
  unfold within. intros Hc [H1 H2]. replace (a * c * b) with (c * (a * b)) by ring. rewrite <- Z.mul_assoc.
  split; [lia|]. by apply Z.mul_le_mono_nonneg_l.
Qed.

Lemma within_right c k a b : 0 <= c -> within k (a * b) -> within (c * k) (a * (b * c)).
Proof. intros Hc H. replace (a * (b * c)) with (a * c * b) by ring. by apply within_left. Qed.

(** Bounds of a sum of products from its shape. *)
Ltac within :=
  lazymatch goal with
  | |- within _ (_ + _) => apply within_add; within
  | |- within _ (_ * ?c * _) => apply within_left; [lia|within]
  | |- within _ (_ * (_ * ?c)) => apply within_right; [lia|within]
  | |- within _ (_ * _) => apply within_prod; assumption
  end.

Lemma u128_within k e : within k e -> (k <=? 800000) = true -> u128 e = e.
Proof. intros He Hk%Z.leb_le. unfold within, DD in He. apply u128_small. lia. Qed.

Lemma sum_within k e : within k e -> (k <=? 77) = true -> 0 <= e < 2 ^ 115 - 2 ^ 64.
Proof.
  change (2 ^ 115) with 41538374868278621028243970633760768. change (2 ^ 64) with 18446744073709551616.
  intros He Hk%Z.leb_le. unfold within, DD in He. lia.
Qed.

Lemma last_within k e : within k e -> (k <=? 5) = true -> 0 <= e < 970881267037344821 * 2251799813685248 - 2 ^ 64 - 2 ^ 104.
Proof.
  change (2 ^ 104) with 20282409603651670423947251286016. change (2 ^ 64) with 18446744073709551616.
  intros He Hk%Z.leb_le. unfold within, DD in He. lia.
Qed.

(** Remove the conversions to 128 bits, and carry the sums. *)
Ltac carry :=
  repeat match goal with |- context [u128 ?e] =>
    lazymatch e with context [u128 _] => fail | _ => erewrite (u128_within _ e); [|within|reflexivity] end
  end;
  match goal with |- short (carry51 ?t0 ?t1 ?t2 ?t3 ?t4) /\ _ =>
    destruct (carry51_spec t0 t1 t2 t3 t4) as [Hshort Hvalue];
    [repeat apply conj; first [eapply sum_within; [within|reflexivity]|eapply last_within; [within|reflexivity]]|]
  end.

(** [19 * 2^255] in place of [361] times the weight of the fifth limb and so on. *)
Lemma fmul_value r0 r1 r2 r3 r4 s0 s1 s2 s3 s4 :
  value (mk_bits320 s0 s1 s2 s3 s4) * value (mk_bits320 r0 r1 r2 r3 r4) =p
  (r0 * s0 + 19 * (r4 * s1 + r1 * s4 + r2 * s3 + r3 * s2)) +
  2 ^ 51 * (r0 * s1 + r1 * s0 + 19 * (r4 * s2 + r2 * s4 + r3 * s3)) +
  2 ^ 102 * (r0 * s2 + r2 * s0 + r1 * s1 + 19 * (r4 * s3 + r3 * s4)) +
  2 ^ 153 * (r0 * s3 + r3 * s0 + r1 * s2 + r2 * s1 + 19 * (r4 * s4)) +
  2 ^ 204 * (r0 * s4 + r4 * s0 + r3 * s1 + r1 * s3 + r2 * s2).
Proof.
  exists ((r4 * s1 + r1 * s4 + r2 * s3 + r3 * s2) + 2 ^ 51 * (r4 * s2 + r2 * s4 + r3 * s3) +
    2 ^ 102 * (r4 * s3 + r3 * s4) + 2 ^ 153 * (r4 * s4)).
  unfold value, p25519. cbn [l0 l1 l2 l3 l4]. ring.
Qed.

Lemma fmul_spec x y : loose x -> loose y -> short (fmul x y) /\ value (fmul x y) =p value x * value y.
Proof.
  rewrite !loose_le. destruct x as [s0 s1 s2 s3 s4], y as [r0 r1 r2 r3 r4]. cbn [l0 l1 l2 l3 l4].
  intros (Hs0 & Hs1 & Hs2 & Hs3 & Hs4) (Hr0 & Hr1 & Hr2 & Hr3 & Hr4).
  unfold fmul. cbn [l0 l1 l2 l3 l4]. rewrite !(u64_small (_ * 19)) by (unfold D in *; lia).
  carry. split; [done|]. rewrite Hvalue, fmul_value. exists 0. ring.
Qed.

Lemma fsquare_round_spec x : loose x -> short (fsquare_round x) /\ value (fsquare_round x) =p value x * value x.
Proof.
  rewrite loose_le. destruct x as [r0 r1 r2 r3 r4]. cbn [l0 l1 l2 l3 l4]. intros (Hr0 & Hr1 & Hr2 & Hr3 & Hr4).
  unfold fsquare_round. rewrite !(u64_small (_ * 19)), !(u64_small (_ * 2)) by (unfold D in *; lia).
  carry. split; [done|]. rewrite Hvalue, fmul_value. exists 0. ring.
Qed.

(** *** Powers *)

Lemma fsquare_times_spec x n : loose x -> 0 < n < 2 ^ 64 ->
  short (fsquare_times x n) /\ value (fsquare_times x n) =p value x ^ 2 ^ n.
Proof.
  intros Hx Hn. unfold fsquare_times. destruct (Z.eqb_spec n 0) as [|_]; [lia|].
  replace (2 ^ n) with (2 ^ Z.of_nat (Z.to_nat n)) by (f_equal; lia). assert (0 < Z.to_nat n)%nat as Hk by lia. clear Hn. generalize dependent (Z.to_nat n).
  clear n. intros n Hn. destruct n as [|n]; [lia|]. clear Hn. induction n as [|n [IH1 IH2]]; cbn [Nat.iter].
  - destruct (fsquare_round_spec x Hx) as [H1 H2]. split; [done|]. rewrite H2. change (2 ^ Z.of_nat 1) with 2. by rewrite Z.pow_2_r.
  - destruct (fsquare_round_spec _ (short_loose _ IH1)) as [H1 H2]. split; [done|]. rewrite H2. cbn [Nat.iter] in IH2. rewrite IH2.
    replace (2 ^ Z.of_nat (S (S n))) with (2 ^ Z.of_nat (S n) * 2) by (rewrite (Nat2Z.inj_succ (S n)), Z.pow_succ_r by lia; lia).
    by rewrite (Z.pow_mul_r _ _ 2), Z.pow_2_r by lia.
Qed.

(** [x] is the power [e] of [z]. *)
Definition power (z : bits320) (e : Z) (x : bits320) : Prop := 0 <= e /\ short x /\ value x =p value z ^ e.

Lemma power_one z : short z -> power z 1 z.
Proof. intros Hz. split; [lia|]. split; [done|]. by rewrite Z.pow_1_r. Qed.

Lemma power_mul z e f x y : power z e x -> power z f y -> power z (e + f) (fmul x y).
Proof.
  intros (He & Hx & Ex) (Hf & Hy & Ey). destruct (fmul_spec x y) as [H1 H2]; [by apply short_loose..|].
  split; [lia|]. split; [done|]. by rewrite H2, Ex, Ey, Z.pow_add_r by lia.
Qed.

Lemma power_square z e x n : 0 < n < 2 ^ 64 -> power z e x -> power z (e * 2 ^ n) (fsquare_times x n).
Proof.
  intros Hn (He & Hx & Ex). destruct (fsquare_times_spec x n) as [H1 H2]; [by apply short_loose|done|].
  split; [lia|]. split; [done|]. rewrite H2, Z.pow_mul_r by lia. apply pow_eqp; [lia|done].
Qed.

Lemma power_exp z e f x : power z e x -> e = f -> power z f x.
Proof. by intros ? ->. Qed.

Lemma power_let z e f x (g : bits320 -> bits320) :
  power z e x -> (forall y, power z e y -> power z f (g y)) -> power z f (let y := x in g y).
Proof. intros Hx Hg. by apply Hg. Qed.

(** The power computed by a step of the chain, as a numeral. *)
Ltac power_step :=
  eapply power_exp;
  [repeat first [eassumption|apply power_mul|apply power_square; [lia|]]|vm_compute; reflexivity].

Lemma crecip_spec z : short z -> short (crecip z) /\ value (crecip z) =p value z ^ (p25519 - 2).
Proof.
  intros Hz. enough (power z (p25519 - 2) (crecip z)) as (_ & H1 & H2) by done.
  pose proof (power_one z Hz) as Hone. cbv beta delta [crecip].
  repeat match goal with |- power _ _ (let y := ?x in @?g y) =>
    eapply (power_let z _ _ x g); [power_step|cbv beta; intros ? ?] end.
  power_step.
Qed.

(** *** A product with a small number *)

Lemma fscalar_product_spec x c : loose x -> 0 <= c <= 131072 ->
  limbs_le (2 ^ 51 + 2 ^ 26) (fscalar_product x c) /\ value (fscalar_product x c) =p c * value x.
Proof.
  rewrite loose_le. destruct x as [x0 x1 x2 x3 x4]. cbn [l0 l1 l2 l3 l4]. unfold D. intros (H0 & H1 & H2 & H3 & H4) Hc.
  assert (forall a, 0 <= a <= 20266198323167232 -> 0 <= a * c <= 2656331146614175432704) as Hp.
  { intros a Ha. split; [lia|]. change 2656331146614175432704 with (20266198323167232 * 131072). apply Z.mul_le_mono_nonneg; lia. }
  pose proof (Hp x0 H0). pose proof (Hp x1 H1). pose proof (Hp x2 H2). pose proof (Hp x3 H3). pose proof (Hp x4 H4).
  unfold fscalar_product, scalar_limb, value. cbn [l0 l1 l2 l3 l4].
  rewrite !land_mask51, !shiftr_51, Z.add_0_r. rewrite (u128_small (x0 * c)) by lia.
  destruct (split51 (x0 * c)) as (c0 & r0 & E0 & Hr0 & Hc0 & -> & ->); [lia|]. rewrite (u64_small c0), (u128_small (x1 * c + c0)) by lia.
  destruct (split51 (x1 * c + c0)) as (c1 & r1 & E1 & Hr1 & Hc1 & -> & ->); [lia|]. rewrite (u64_small c1), (u128_small (x2 * c + c1)) by lia.
  destruct (split51 (x2 * c + c1)) as (c2 & r2 & E2 & Hr2 & Hc2 & -> & ->); [lia|]. rewrite (u64_small c2), (u128_small (x3 * c + c2)) by lia.
  destruct (split51 (x3 * c + c2)) as (c3 & r3 & E3 & Hr3 & Hc3 & -> & ->); [lia|]. rewrite (u64_small c3), (u128_small (x4 * c + c3)) by lia.
  destruct (split51 (x4 * c + c3)) as (c4 & r4 & E4 & Hr4 & Hc4 & -> & ->); [lia|].
  rewrite (u128_small (c4 * 19)), (u64_small (r0 + c4 * 19)) by lia.
  numerals. change (2 ^ 26) with 67108864. cbn [l0 l1 l2 l3 l4]. split; [lia|]. exists (- c4). unfold p25519.
  change (2 ^ 255) with 57896044618658097711785492504343953926634992332820282019728792003956564819968. lia.
Qed.

(** ** Bytes *)

Lemma store_from_bytes x k : store_from x k = le_bytes k x.
Proof.
  revert x. induction k as [|k IH]; intros x; [done|]. cbn [store_from le_bytes].
  change 0xff with (Z.ones 8). by rewrite Z.land_ones, Z.shiftr_div_pow2, IH by lia.
Qed.

Lemma lor_shift a b k : 0 <= k -> 0 <= a < 2 ^ k -> Z.lor a (Z.shiftl b k) = a + b * 2 ^ k.
Proof.
  intros Hk Ha. assert (Z.land a (Z.shiftl b k) = 0) as Hl.
  { apply Z.bits_inj'. intros n Hn. rewrite Z.land_spec, Z.bits_0, Z.shiftl_spec by lia. destruct (Z.ltb_spec n k).
    - by rewrite (Z.testbit_neg_r b), andb_false_r by lia.
    - rewrite <- (Z.mod_small a (2 ^ k)), Z.mod_pow2_bits_high by lia. done. }
  by rewrite <- Z.lxor_lor, <- Z.add_nocarry_lxor, Z.shiftl_mul_pow2 by done.
Qed.

Lemma le_bytes_app n m x : le_bytes (n + m) x = le_bytes n x ++ le_bytes m (x / 256 ^ Z.of_nat n).
Proof.
  revert x. induction n as [|n IH]; intros x; [by rewrite Z.div_1_r|]. cbn [le_bytes Nat.add app]. f_equal.
  rewrite IH. do 2 f_equal. rewrite Nat2Z.inj_succ, Z.pow_succ_r by lia. by rewrite Z.div_div by lia.
Qed.

Lemma le_bytes_mod n x : le_bytes n (x mod 256 ^ Z.of_nat n) = le_bytes n x.
Proof.
  revert x. induction n as [|n IH]; intros x; [done|]. cbn [le_bytes].
  rewrite Nat2Z.inj_succ, Z.pow_succ_r by lia. assert (0 < 256 ^ Z.of_nat n) by (apply Z.pow_pos_nonneg; lia).
  rewrite Z.rem_mul_r by lia. f_equal.
  - rewrite Z.mul_comm, Z.mod_add by lia. by apply Z.mod_mod.
  - rewrite (Z.mul_comm 256), Z.div_add by lia. rewrite Z.div_small, Z.add_0_l by (apply Z.mod_pos_bound; lia). apply IH.
Qed.

Lemma le_int_app a b : le_int (a ++ b) = le_int a + 256 ^ Z.of_nat (length a) * le_int b.
Proof.
  induction a as [|x a IH]; [cbn [app le_int length]; lia|]. cbn [app le_int length]. rewrite IH, Nat2Z.inj_succ, Z.pow_succ_r by lia. lia.
Qed.

(** A window of a byte array, as a number. *)
Lemma le_int_window l (i n : nat) : bytes l -> (i + n <= length l)%nat ->
  le_int (take n (drop i l)) = le_int l / 256 ^ Z.of_nat i mod 256 ^ Z.of_nat n.
Proof.
  intros Hb Hl. rewrite <- (take_drop i l) at 2. rewrite <- (take_drop n (drop i l)) at 2. rewrite !le_int_app.
  rewrite !length_take_le by (rewrite ?length_drop; lia).
  assert (0 < 256 ^ Z.of_nat i) by (apply Z.pow_pos_nonneg; lia). assert (0 < 256 ^ Z.of_nat n) by (apply Z.pow_pos_nonneg; lia).
  pose proof (le_int_range (take i l) ltac:(by apply Forall_take)) as Hr1. rewrite length_take_le in Hr1 by lia.
  pose proof (le_int_range (take n (drop i l)) ltac:(by apply Forall_take, Forall_drop)) as Hr2. rewrite length_take_le in Hr2 by (rewrite length_drop; lia).
  rewrite (Z.mul_comm (256 ^ Z.of_nat i)), Z.div_add, (Z.div_small (le_int (take i l))), Z.add_0_l by lia.
  rewrite (Z.mul_comm (256 ^ Z.of_nat n)), Z.mod_add, Z.mod_small by lia. done.
Qed.

Lemma load_limb_spec mem off : bytes mem -> 0 <= off -> off + 8 <= Z.of_nat (length mem) ->
  load_limb mem off = Some (le_int mem / 256 ^ off mod 2 ^ 64).
Proof.
  intros Hb Ho Hl. rewrite <- (Z2Nat.id off) at 2 by lia. change (2 ^ 64) with (256 ^ Z.of_nat 8).
  rewrite <- le_int_window by (done || lia).
  assert (bytes (take 8 (drop (Z.to_nat off) mem))) as Hw by (by apply Forall_take, Forall_drop).
  assert (forall k, (k < 8)%nat -> aget mem (off + Z.of_nat k) = take 8 (drop (Z.to_nat off) mem) !! k) as Hg.
  { intros k Hk. rewrite lookup_take_lt, lookup_drop by done. unfold aget. destruct (Z.ltb_spec (off + Z.of_nat k) 0); [lia|]. f_equal. lia. }
  assert (length (take 8 (drop (Z.to_nat off) mem)) = 8%nat) as Hlen by (rewrite length_take_le; [done|rewrite length_drop; lia]).
  pose proof (Hg 0%nat ltac:(lia)) as G. change (Z.of_nat 0) with 0 in G. rewrite Z.add_0_r in G.
  unfold load_limb. rewrite G, (Hg 1%nat ltac:(lia) : aget mem (off + 1) = _), (Hg 2%nat ltac:(lia) : aget mem (off + 2) = _), (Hg 3%nat ltac:(lia) : aget mem (off + 3) = _),
    (Hg 4%nat ltac:(lia) : aget mem (off + 4) = _), (Hg 5%nat ltac:(lia) : aget mem (off + 5) = _), (Hg 6%nat ltac:(lia) : aget mem (off + 6) = _), (Hg 7%nat ltac:(lia) : aget mem (off + 7) = _).
  clear Hg G. destruct (take 8 (drop (Z.to_nat off) mem)) as [|b0 [|b1 [|b2 [|b3 [|b4 [|b5 [|b6 [|b7 []]]]]]]]]; try discriminate Hlen.
  cbn [lookup list_lookup mbind option_bind]. unfold bytes in Hw. repeat (apply list.Forall_cons in Hw as [? Hw]). unfold is_byte in *.
  f_equal. cbn [le_int].
  pose proof (eq_refl : 2 ^ 8 = 256) as P8. pose proof (eq_refl : 2 ^ 16 = 65536) as P16. pose proof (eq_refl : 2 ^ 24 = 16777216) as P24.
  pose proof (eq_refl : 2 ^ 32 = 4294967296) as P32. pose proof (eq_refl : 2 ^ 40 = 1099511627776) as P40.
  pose proof (eq_refl : 2 ^ 48 = 281474976710656) as P48. pose proof (eq_refl : 2 ^ 56 = 72057594037927936) as P56.
  rewrite (lor_shift _ _ 8), (lor_shift _ _ 16), (lor_shift _ _ 24), (lor_shift _ _ 32), (lor_shift _ _ 40), (lor_shift _ _ 48), (lor_shift _ _ 56) by lia.
  lia.
Qed.

(** *** Expansion *)

(** Bits [a + b .. a + b + 50] of a number, read as bits [b ..] of a 64-bit window. *)
Lemma window_digit n a b : 0 <= a -> 0 <= b <= 13 ->
  Z.land (Z.shiftr (n / 2 ^ a mod 2 ^ 64) b) mask51 = n / 2 ^ (a + b) mod 2 ^ 51.
Proof.
  intros Ha Hb. change mask51 with (Z.ones 51). rewrite Z.land_ones by lia. apply Z.bits_inj'. intros i Hi.
  destruct (Z.ltb_spec i 51).
  - rewrite !Z.mod_pow2_bits_low, Z.shiftr_spec, Z.mod_pow2_bits_low, !Z.div_pow2_bits by lia. f_equal. lia.
  - by rewrite !Z.mod_pow2_bits_high by lia.
Qed.

(** The five digits of 51 bits, the last without bound. *)
Definition digits (n : Z) : bits320 :=
  mk_bits320 (n mod 2 ^ 51) (n / 2 ^ 51 mod 2 ^ 51) (n / 2 ^ 102 mod 2 ^ 51) (n / 2 ^ 153 mod 2 ^ 51) (n / 2 ^ 204).

(** Division by the powers of [2^51], one at a time. *)
Lemma digits_chain n : exists q1 q2 q3 q4 q5,
  n / 2 ^ 51 = q1 /\ n / 2 ^ 102 = q2 /\ n / 2 ^ 153 = q3 /\ n / 2 ^ 204 = q4 /\ n / 2 ^ 255 = q5 /\
  n = 2 ^ 51 * q1 + n mod 2 ^ 51 /\ q1 = 2 ^ 51 * q2 + q1 mod 2 ^ 51 /\ q2 = 2 ^ 51 * q3 + q2 mod 2 ^ 51 /\
  q3 = 2 ^ 51 * q4 + q3 mod 2 ^ 51 /\ q4 = 2 ^ 51 * q5 + q4 mod 2 ^ 51.
Proof.
  exists (n / 2 ^ 51), (n / 2 ^ 102), (n / 2 ^ 153), (n / 2 ^ 204), (n / 2 ^ 255).
  change (2 ^ 102) with (2 ^ 51 * 2 ^ 51). change (2 ^ 153) with (2 ^ 51 * 2 ^ 51 * 2 ^ 51).
  change (2 ^ 204) with (2 ^ 51 * 2 ^ 51 * 2 ^ 51 * 2 ^ 51). change (2 ^ 255) with (2 ^ 51 * 2 ^ 51 * 2 ^ 51 * 2 ^ 51 * 2 ^ 51).
  rewrite <- !Z.div_div by lia. repeat (split; [done|]). repeat split; apply Z.div_mod; lia.
Qed.

Lemma mod51_bound x : 0 <= x mod 2 ^ 51 < 2 ^ 51.
Proof. apply Z.mod_pos_bound. lia. Qed.

Lemma digits_value n : value (digits n) = n.
Proof.
  destruct (digits_chain n) as (q1 & q2 & q3 & q4 & q5 & E1 & E2 & E3 & E4 & E5 & H1 & H2 & H3 & H4 & H5).
  unfold digits, value. cbn [l0 l1 l2 l3 l4]. rewrite E1, E2, E3, E4. clear E1 E2 E3 E4 E5 H5.
  change (2 ^ 102) with (2 ^ 51 * 2 ^ 51). change (2 ^ 153) with (2 ^ 51 * (2 ^ 51 * 2 ^ 51)).
  change (2 ^ 204) with (2 ^ 51 * (2 ^ 51 * (2 ^ 51 * 2 ^ 51))). rewrite <- !Z.mul_assoc. lia.
Qed.

Lemma digits_bounds n : 0 <= n -> 0 <= l0 (digits n) < 2 ^ 51 /\ 0 <= l1 (digits n) < 2 ^ 51 /\ 0 <= l2 (digits n) < 2 ^ 51 /\
  0 <= l3 (digits n) < 2 ^ 51 /\ 0 <= l4 (digits n) /\ (n < 2 ^ 255 -> l4 (digits n) < 2 ^ 51).
Proof.
  intros Hn. unfold digits. cbn [l0 l1 l2 l3 l4]. repeat (split; [apply mod51_bound|]). split; [apply Z.div_pos; lia|].
  intros H. apply Z.div_lt_upper_bound; [lia|done].
Qed.

(** The limbs of a number are unique. *)
Lemma digits_unique x : 0 <= l0 x < 2 ^ 51 -> 0 <= l1 x < 2 ^ 51 -> 0 <= l2 x < 2 ^ 51 -> 0 <= l3 x < 2 ^ 51 -> digits (value x) = x.
Proof.
  destruct x as [x0 x1 x2 x3 x4]. unfold value. cbn [l0 l1 l2 l3 l4]. intros H0 H1 H2 H3.
  set (n := x0 + 2 ^ 51 * x1 + 2 ^ 102 * x2 + 2 ^ 153 * x3 + 2 ^ 204 * x4).
  destruct (digits_chain n) as (q1 & q2 & q3 & q4 & q5 & E1 & E2 & E3 & E4 & E5 & C1 & C2 & C3 & C4 & _).
  unfold digits. rewrite E1, E2, E3, E4. clear E1 E2 E3 E4 E5.
  pose proof (mod51_bound n). pose proof (mod51_bound q1). pose proof (mod51_bound q2). pose proof (mod51_bound q3).
  generalize dependent (n mod 2 ^ 51). generalize dependent (q1 mod 2 ^ 51). generalize dependent (q2 mod 2 ^ 51). generalize dependent (q3 mod 2 ^ 51).
  subst n. numerals. intros. f_equal; lia.
Qed.

(** The digits of the low 255 bits. *)
Lemma digits_low n : digits (n mod 2 ^ 255) =
  mk_bits320 (n mod 2 ^ 51) (n / 2 ^ 51 mod 2 ^ 51) (n / 2 ^ 102 mod 2 ^ 51) (n / 2 ^ 153 mod 2 ^ 51) (n / 2 ^ 204 mod 2 ^ 51).
Proof.
  set (x := mk_bits320 _ _ _ _ _). rewrite <- (digits_unique x); try apply mod51_bound. f_equal. subst x.
  destruct (digits_chain n) as (q1 & q2 & q3 & q4 & q5 & E1 & E2 & E3 & E4 & E5 & C1 & C2 & C3 & C4 & C5).
  pose proof (Z.div_mod n (2 ^ 255) ltac:(done)) as C. rewrite E5 in C.
  unfold value. cbn [l0 l1 l2 l3 l4]. rewrite E1, E2, E3, E4. clear E1 E2 E3 E4 E5.
  generalize dependent (n mod 2 ^ 255). generalize dependent (n mod 2 ^ 51). generalize dependent (q1 mod 2 ^ 51).
  generalize dependent (q2 mod 2 ^ 51). generalize dependent (q3 mod 2 ^ 51). generalize dependent (q4 mod 2 ^ 51).
  numerals. intros. lia.
Qed.

Lemma fexpand_spec m : bits256_ok m ->
  exists x, fexpand m = Some x /\ short x /\ value x = le_int m mod 2 ^ 255.
Proof.
  intros [Hl Hb]. exists (digits (le_int m mod 2 ^ 255)).
  pose proof (Z.mod_pos_bound (le_int m) (2 ^ 255) ltac:(done)) as Hr.
  destruct (digits_bounds (le_int m mod 2 ^ 255) ltac:(lia)) as (B0 & B1 & B2 & B3 & B4 & B5). split; [|split].
  - unfold fexpand. rewrite !load_limb_spec by (done || lia). cbn [mbind option_bind]. f_equal. rewrite digits_low.
    change (256 ^ 0) with (2 ^ 0). change (256 ^ 6) with (2 ^ 48). change (256 ^ 12) with (2 ^ 96).
    change (256 ^ 19) with (2 ^ 152). change (256 ^ 24) with (2 ^ 192).
    rewrite <- (Z.shiftr_0_r (le_int m / 2 ^ 0 mod 2 ^ 64)), !window_digit by lia. by rewrite Z.div_1_r.
  - unfold short, limbs_le. specialize (B5 ltac:(lia)). lia.
  - apply digits_value.
Qed.

(** *** Contraction *)

(** A pass of carries: the low 255 bits, and 19 times what is above them. *)
Lemma fcontract_iter_spec t flag : limbs_le (2 ^ 64) t ->
  fcontract_iter t flag = mk_bits320 (l0 (digits (value t)) + if flag then 19 * (value t / 2 ^ 255) else 0)
    (l1 (digits (value t))) (l2 (digits (value t))) (l3 (digits (value t))) (l4 (digits (value t)) mod 2 ^ 51).
Proof.
  destruct t as [t0 t1 t2 t3 t4]. unfold limbs_le. change (2 ^ 64) with 18446744073709551616. cbn [l0 l1 l2 l3 l4].
  intros (H0 & H1 & H2 & H3 & H4). unfold fcontract_iter. rewrite !land_mask51, !shiftr_51.
  destruct (split51 t0) as (c0 & r0 & E0 & Hr0 & Hc0 & -> & ->); [lia|]. rewrite (u128_small (t1 + c0)) by lia.
  destruct (split51 (t1 + c0)) as (c1 & r1 & E1 & Hr1 & Hc1 & -> & ->); [lia|]. rewrite (u128_small (t2 + c1)) by lia.
  destruct (split51 (t2 + c1)) as (c2 & r2 & E2 & Hr2 & Hc2 & -> & ->); [lia|]. rewrite (u128_small (t3 + c2)) by lia.
  destruct (split51 (t3 + c2)) as (c3 & r3 & E3 & Hr3 & Hc3 & -> & ->); [lia|]. rewrite (u128_small (t4 + c3)) by lia.
  assert (value (mk_bits320 t0 t1 t2 t3 t4) = value (mk_bits320 r0 r1 r2 r3 (t4 + c3))) as Hv by (numerals; cbn [l0 l1 l2 l3 l4]; lia).
  rewrite Hv. assert (value (mk_bits320 r0 r1 r2 r3 (t4 + c3)) / 2 ^ 255 = (t4 + c3) / 2251799813685248) as ->.
  { change (2 ^ 255) with (2 ^ 204 * 2251799813685248). rewrite <- Z.div_div by lia. f_equal.
    unfold value. cbn [l0 l1 l2 l3 l4]. rewrite (Z.mul_comm (2 ^ 204)), Z.div_add by lia. rewrite Z.div_small; [lia|]. numerals. lia. }
  rewrite digits_unique by (cbn [l0 l1 l2 l3 l4]; change (2 ^ 51) with 2251799813685248; lia). cbn [l0 l1 l2 l3 l4].
  change (2 ^ 51) with 2251799813685248.
  destruct (split51 (t4 + c3)) as (c4 & r4 & E4 & Hr4 & Hc4 & -> & ->); [lia|].
  destruct flag; [rewrite (u128_small (19 * _)), u128_small by lia|]; f_equal; lia.
Qed.

Lemma iter_value t flag : limbs_le (2 ^ 64) t ->
  value (fcontract_iter t flag) = value t mod 2 ^ 255 + if flag then 19 * (value t / 2 ^ 255) else 0.
Proof.
  intros Ht. rewrite fcontract_iter_spec by done. pose proof (digits_value (value t mod 2 ^ 255)) as E. rewrite digits_low in E.
  rewrite <- E. unfold digits, value. cbn [l0 l1 l2 l3 l4]. lia.
Qed.

Lemma iter_limbs t flag : limbs_le (2 ^ 64) t -> value t < 2 ^ 257 -> limbs_le (2 ^ 51 + 76) (fcontract_iter t flag).
Proof.
  intros Ht Hv. rewrite fcontract_iter_spec by done.
  assert (0 <= value t) as H0 by (unfold limbs_le, value in *; lia).
  destruct (digits_bounds (value t) H0) as (B0 & B1 & B2 & B3 & _). pose proof (mod51_bound (l4 (digits (value t)))).
  assert (0 <= value t / 2 ^ 255 < 4) by (split; [apply Z.div_pos; lia|apply Z.div_lt_upper_bound; [lia|]; change (2 ^ 255 * 4) with (2 ^ 257); lia]).
  unfold limbs_le. cbn [l0 l1 l2 l3 l4]. destruct flag; lia.
Qed.

(** Two words of limbs are two words of the number. *)
Lemma store_words n : 0 <= n < 2 ^ 255 ->
  let t := digits n in
  store_limb (u64 (Z.lor (l0 t) (u128 (Z.shiftl (l1 t) 51)))) ++
  store_limb (u64 (Z.lor (Z.shiftr (l1 t) 13) (u128 (Z.shiftl (l2 t) 38)))) ++
  store_limb (u64 (Z.lor (Z.shiftr (l2 t) 26) (u128 (Z.shiftl (l3 t) 25)))) ++
  store_limb (u64 (Z.lor (Z.shiftr (l3 t) 39) (u128 (Z.shiftl (l4 t) 12)))) = le_bytes 32 n.
Proof.
  intros Hn t. destruct (digits_bounds n ltac:(lia)) as (B0 & B1 & B2 & B3 & B4 & B5). specialize (B5 ltac:(lia)).
  pose proof (digits_value n) as V. fold t in B0, B1, B2, B3, B4, B5, V.
  assert (forall a b s, 0 <= s <= 51 -> 0 <= a < 2 ^ s -> 0 <= b < 2 ^ 51 -> Z.lor a (u128 (Z.shiftl b s)) = a + b * 2 ^ s) as Hlor.
  { intros a b s Hs Ha Hb. rewrite u128_small; [apply lor_shift; lia|]. rewrite Z.shiftl_mul_pow2 by lia.
    assert (0 < 2 ^ s <= 2 ^ 51) by (split; [lia|apply Z.pow_le_mono_r; lia]). numerals. nia. }
  assert (forall x s, 0 <= s <= 51 -> 0 <= x < 2 ^ 51 -> 0 <= Z.shiftr x s < 2 ^ (51 - s)) as Hsh.
  { intros x s Hs Hx. rewrite Z.shiftr_div_pow2 by lia. split; [apply Z.div_pos; lia|]. apply Z.div_lt_upper_bound; [lia|].
    rewrite <- Z.pow_add_r by lia. replace (s + (51 - s)) with 51 by lia. lia. }
  assert (0 <= Z.shiftr (l1 t) 13 < 2 ^ 38) by (apply (Hsh _ 13); lia).
  assert (0 <= Z.shiftr (l2 t) 26 < 2 ^ 25) by (apply (Hsh _ 26); lia).
  assert (0 <= Z.shiftr (l3 t) 39 < 2 ^ 12) by (apply (Hsh _ 39); lia).
  rewrite (Hlor (l0 t)), (Hlor (Z.shiftr (l1 t) 13)), (Hlor (Z.shiftr (l2 t) 26)), (Hlor (Z.shiftr (l3 t) 39)) by lia.
  unfold store_limb. rewrite !store_from_bytes. change 32%nat with (8 + (8 + (8 + 8)))%nat. rewrite !le_bytes_app.
  change (256 ^ Z.of_nat 8) with (2 ^ 64). rewrite !Z.div_div by lia.
  assert (forall a b, a mod 2 ^ 64 = b mod 2 ^ 64 -> le_bytes 8 (u64 a) = le_bytes 8 b) as Hb.
  { intros a b E. unfold u64, wrapU. change (2 ^ 64) with (256 ^ Z.of_nat 8) in *. by rewrite le_bytes_mod, <- (le_bytes_mod 8 a), E, le_bytes_mod. }
  rewrite !Z.shiftr_div_pow2 by lia. destruct t as [t0 t1 t2 t3 t4]. unfold value in V. cbn [l0 l1 l2 l3 l4] in *.
  pose proof (Z.div_mod t1 (2 ^ 13) ltac:(lia)). pose proof (Z.mod_pos_bound t1 (2 ^ 13) ltac:(lia)).
  pose proof (Z.div_mod t2 (2 ^ 26) ltac:(lia)). pose proof (Z.mod_pos_bound t2 (2 ^ 26) ltac:(lia)).
  pose proof (Z.div_mod t3 (2 ^ 39) ltac:(lia)). pose proof (Z.mod_pos_bound t3 (2 ^ 39) ltac:(lia)).
  generalize dependent (t1 / 2 ^ 13). intros a1. generalize dependent (t1 mod 2 ^ 13). intros b1. intros.
  generalize dependent (t2 / 2 ^ 26). intros a2. generalize dependent (t2 mod 2 ^ 26). intros b2. intros.
  generalize dependent (t3 / 2 ^ 39). intros a3. generalize dependent (t3 mod 2 ^ 39). intros b3. intros.
  assert (forall low m q, n = m * q + low -> 0 <= low < m -> n / m = q) as Hdiv by (intros low m q E Hlow; symmetry; by apply (Z.div_unique_pos n m q low)).
  assert (forall x y k, x = y + k * 2 ^ 64 -> y mod 2 ^ 64 = x mod 2 ^ 64) as Hmod by (intros x y k ->; by rewrite Z.mod_add by lia).
  change (2 ^ 64 * 2 ^ 64 * 2 ^ 64) with (2 ^ 192). change (2 ^ 64 * 2 ^ 64) with (2 ^ 128).
  rewrite (Hdiv (t0 + 2 ^ 51 * b1) (2 ^ 64) (a1 + 2 ^ 38 * t2 + 2 ^ 89 * t3 + 2 ^ 140 * t4)) by lia.
  rewrite (Hdiv (t0 + 2 ^ 51 * t1 + 2 ^ 102 * b2) (2 ^ 128) (a2 + 2 ^ 25 * t3 + 2 ^ 76 * t4)) by lia.
  rewrite (Hdiv (t0 + 2 ^ 51 * t1 + 2 ^ 102 * t2 + 2 ^ 153 * b3) (2 ^ 192) (a3 + 2 ^ 12 * t4)) by lia.
  f_equal; [apply Hb, (Hmod _ _ (2 ^ 38 * t2 + 2 ^ 89 * t3 + 2 ^ 140 * t4)); lia|].
  f_equal; [apply Hb, (Hmod _ _ (2 ^ 25 * t3 + 2 ^ 76 * t4)); lia|].
  f_equal; [apply Hb, (Hmod _ _ (2 ^ 12 * t4)); lia|].
  apply Hb, (Hmod _ _ 0). lia.
Qed.

Lemma iter_false t : limbs_le (2 ^ 64) t -> fcontract_iter t false = digits (value t mod 2 ^ 255).
Proof. intros Ht. rewrite fcontract_iter_spec, digits_low by done. unfold digits. cbn [l0 l1 l2 l3 l4]. by rewrite Z.add_0_r. Qed.

(** A pass replaces [2^255] by 19. *)
Lemma fold_pass n : 0 <= n < 2 ^ 257 -> exists q, n mod 2 ^ 255 + 19 * (n / 2 ^ 255) = n - q * p25519 /\ q = n / 2 ^ 255 /\ 0 <= q < 4.
Proof.
  intros Hn. exists (n / 2 ^ 255). rewrite Z.mod_eq by lia. split; [unfold p25519; lia|]. split; [done|].
  split; [apply Z.div_pos; lia|]. apply Z.div_lt_upper_bound; [lia|]. change (2 ^ 255 * 4) with (2 ^ 257). lia.
Qed.

Lemma fold_twice n : 0 <= n < 2 ^ 257 -> exists m q, m = n - q * p25519 /\ 0 <= m < 2 ^ 255 /\
  let n1 := n mod 2 ^ 255 + 19 * (n / 2 ^ 255) in n1 mod 2 ^ 255 + 19 * (n1 / 2 ^ 255) = m.
Proof.
  intros Hn. cbv zeta. destruct (fold_pass n Hn) as (q & E & Eq & Hq). rewrite E.
  assert (0 <= n - q * p25519 < 2 ^ 255 + 76) as H1.
  { rewrite <- E, <- Eq. pose proof (Z.mod_pos_bound n (2 ^ 255) ltac:(lia)). lia. }
  destruct (fold_pass (n - q * p25519)) as (q' & E' & Eq' & Hq').
  { change (2 ^ 257) with (2 ^ 255 * 4). lia. }
  exists (n - q * p25519 - q' * p25519), (q + q'). split; [lia|]. split; [|done].
  rewrite <- E', <- Eq'. pose proof (Z.mod_pos_bound (n - q * p25519) (2 ^ 255) ltac:(lia)).
  pose proof (Z.div_mod (n - q * p25519) (2 ^ 255) ltac:(lia)) as Hd. rewrite <- Eq' in Hd.
  destruct (decide (q' = 0)) as [->|]; [lia|]. assert (q' = 1) as -> by nia. lia.
Qed.

(** The last subtraction of [p], by adding [19] and then [2^255 - 19]. *)
Lemma fold_last m : 0 <= m < 2 ^ 255 ->
  let n := (m + 19) mod 2 ^ 255 + 19 * ((m + 19) / 2 ^ 255) in (n + (2 ^ 255 - 19)) mod 2 ^ 255 = m mod p25519.
Proof.
  intros Hm n. subst n. destruct (Z.ltb_spec m p25519) as [Hlt|Hge]; unfold p25519 in *.
  - rewrite (Z.mod_small (m + 19)), Z.div_small, (Z.mod_small m) by lia.
    replace (m + 19 + 19 * 0 + (2 ^ 255 - 19)) with (m + 1 * 2 ^ 255) by lia. rewrite Z.mod_add by lia. apply Z.mod_small. lia.
  - replace ((m + 19) / 2 ^ 255) with 1 by (apply (Z.div_unique_pos _ _ _ (m + 19 - 2 ^ 255)); lia).
    replace ((m + 19) mod 2 ^ 255) with (m + 19 - 2 ^ 255) by (apply (Z.mod_unique_pos _ _ 1); lia).
    replace (m mod (2 ^ 255 - 19)) with (m - (2 ^ 255 - 19)) by (apply (Z.mod_unique_pos _ _ 1); lia).
    replace (m + 19 - 2 ^ 255 + 19 * 1 + (2 ^ 255 - 19)) with (m - (2 ^ 255 - 19) + 1 * 2 ^ 255) by lia.
    rewrite Z.mod_add by lia. apply Z.mod_small. lia.
Qed.

Lemma limbs_add b c d x : limbs_le b x -> 0 <= c <= 2 ^ 52 -> 0 <= d <= 2 ^ 52 -> b <= 2 ^ 60 ->
  let y := mk_bits320 (u128 (l0 x + c)) (u128 (l1 x + d)) (u128 (l2 x + d)) (u128 (l3 x + d)) (u128 (l4 x + d)) in
  limbs_le (2 ^ 64) y /\ value y = value x + (c + d * (2 ^ 51 + 2 ^ 102 + 2 ^ 153 + 2 ^ 204)).
Proof.
  unfold limbs_le, value. change (2 ^ 52) with 4503599627370496. change (2 ^ 60) with 1152921504606846976. change (2 ^ 64) with 18446744073709551616.
  intros Hx Hc Hd Hb. cbn [l0 l1 l2 l3 l4]. rewrite !u128_small by lia. lia.
Qed.

Lemma limbs_add19 b x : limbs_le b x -> b <= 2 ^ 60 ->
  let y := mk_bits320 (u128 (l0 x + 19)) (l1 x) (l2 x) (l3 x) (l4 x) in limbs_le (2 ^ 64) y /\ value y = value x + 19.
Proof.
  unfold limbs_le, value. change (2 ^ 60) with 1152921504606846976. change (2 ^ 64) with 18446744073709551616.
  intros Hx Hb. cbn [l0 l1 l2 l3 l4]. rewrite u128_small by lia. lia.
Qed.

Lemma fcontract_spec x : limbs_le (2 ^ 52) x -> fcontract x = le_bytes 32 (value x mod p25519).
Proof.
  intros Hx. assert (0 <= value x < 2 ^ 257) as Hv.
  { unfold limbs_le in Hx. change (2 ^ 52) with 4503599627370496 in Hx. change (2 ^ 257) with (2 ^ 255 * 4). numerals. lia. }
  assert (forall b t, b <= 2 ^ 64 -> limbs_le b t -> limbs_le (2 ^ 64) t) as Hw by (intros; by eapply limbs_le_weaken).
  assert (limbs_le (2 ^ 64) x) as Hx0 by (by apply (Hw (2 ^ 52))).
  destruct (fold_twice (value x) Hv) as (m & q & Em & Hm & E). cbv zeta in E. unfold fcontract.
  set (t1 := fcontract_iter x true). pose proof (iter_limbs x true Hx0 ltac:(lia)) as L1. pose proof (iter_value x true Hx0) as V1. fold t1 in L1, V1.
  assert (limbs_le (2 ^ 64) t1) as L1' by (by apply (Hw (2 ^ 51 + 76))).
  assert (value t1 < 2 ^ 257) as B1.
  { clear - L1. change (2 ^ 257) with (2 ^ 255 * 4). numerals. lia. }
  set (t2 := fcontract_iter t1 true). pose proof (iter_limbs t1 true L1' B1) as L2. pose proof (iter_value t1 true L1') as V2. fold t2 in L2, V2.
  rewrite V1, E in V2.
  destruct (limbs_add19 _ t2 L2 ltac:(lia)) as [L3 V3]. set (t3 := mk_bits320 (u128 (l0 t2 + 19)) (l1 t2) (l2 t2) (l3 t2) (l4 t2)) in *. rewrite V2 in V3.
  pose proof (iter_limbs t3 true L3) as L4. rewrite V3 in L4. specialize (L4 ltac:(lia)).
  pose proof (iter_value t3 true L3) as V4. rewrite V3 in V4. set (t4 := fcontract_iter t3 true) in *.
  destruct (limbs_add _ (0x8000000000000 - 19) (0x8000000000000 - 1) t4 L4) as [L5 V5]; [lia|lia|lia|].
  set (t5 := mk_bits320 (u128 (l0 t4 + _)) _ _ _ _) in *. rewrite (iter_false t5 L5).
  assert (value t5 mod 2 ^ 255 = value x mod p25519) as ->.
  { rewrite V5, V4. change (0x8000000000000 - 19 + (0x8000000000000 - 1) * (2 ^ 51 + 2 ^ 102 + 2 ^ 153 + 2 ^ 204)) with (2 ^ 255 - 19).
    rewrite fold_last, Em by done. apply eqp_iff. exists (- q). lia. }
  apply store_words. pose proof (Z.mod_pos_bound (value x) p25519 ltac:(done)). unfold p25519 in *. lia.
Qed.

(** ** The operations as the code composes them *)

(** On the limbs the ladder passes on - each at most [2^54 + 2^51], as differences
    are - a product stays within 64 and 128 bits, its limbs are at most [2^51] again
    and it is the product modulo [p]. *)
Theorem fmul_correct x y : loose x -> loose y -> short (fmul x y) /\ value (fmul x y) =p value x * value y.
Proof. apply fmul_spec. Qed.

Example fmul_correct_witness :
  short (fmul (mk_bits320 9 0 0 0 (2 ^ 54)) (mk_bits320 (2 ^ 54) 1 2 3 4)) /\
  value (fmul (mk_bits320 9 0 0 0 (2 ^ 54)) (mk_bits320 (2 ^ 54) 1 2 3 4)) =p
    value (mk_bits320 9 0 0 0 (2 ^ 54)) * value (mk_bits320 (2 ^ 54) 1 2 3 4).
Proof. apply (fmul_correct (mk_bits320 9 0 0 0 (2 ^ 54)) (mk_bits320 (2 ^ 54) 1 2 3 4)); unfold loose, limbs_le; cbn [l0 l1 l2 l3 l4]; lia. Defined.

(** The bound of the comment above [fmul], [2^55], is too weak: the carries of the last
    limb no longer fit in 64 bits. *)
Example fmul_below_2_55 : let x := mk_bits320 (2 ^ 55 - 1) (2 ^ 55 - 1) (2 ^ 55 - 1) (2 ^ 55 - 1) (2 ^ 55 - 1) in
  bool_decide (value (fmul x x) mod p25519 = value x * value x mod p25519) = false.
Proof. vm_compute. reflexivity. Qed.

(** The chain of squarings and products computes the inverse by Fermat's little
    theorem: the power [p - 2]. *)
Theorem crecip_correct z : short z -> short (crecip z) /\ value (crecip z) =p value z ^ (p25519 - 2).
Proof. apply crecip_spec. Qed.

Example crecip_correct_witness :
  short (crecip (mk_bits320 9 0 0 0 0)) /\ value (crecip (mk_bits320 9 0 0 0 0)) =p 9 ^ (p25519 - 2).
Proof. apply (crecip_correct (mk_bits320 9 0 0 0 0)). unfold short, limbs_le; cbn [l0 l1 l2 l3 l4]; lia. Defined.

(** Expanding 32 bytes and contracting them again reduces the low 255 bits of the
    number modulo [p], to its unique representative below [p]. *)
Theorem fexpand_fcontract m : bits256_ok m ->
  fcontract <$> fexpand m = Some (le_bytes 32 (le_int m mod 2 ^ 255 mod p25519)).
Proof.
  intros Hm. destruct (fexpand_spec m Hm) as (x & -> & Hx & Hv). cbn [fmap option_fmap option_map]. f_equal.
  rewrite fcontract_spec, Hv; [done|]. apply (limbs_le_weaken (2 ^ 51)); [done|lia].
Qed.

Example fexpand_fcontract_witness :
  fcontract <$> fexpand (replicate 32 255) = Some (le_bytes 32 (le_int (replicate 32 255) mod 2 ^ 255 mod p25519)).
Proof. apply (fexpand_fcontract (replicate 32 255)). concrete. Defined.
