(* ===== verification/Ladder.v ===== *)
(** * Ladder: scalar multiplication on Curve25519

    Models the Montgomery ladder of [plugins/utils/curve25519.c], [fmonty] to
    [curve25519], on the limbs of [Field25519], and refines it to the ladder over
    the integers modulo [p], a specification in the style of RFC 7748.  The eight buffers
    of [cmult] are the fields of a record named by the pointers; exchanging two
    pointers exchanges two fields. *)

From S2P Require Import Prelude Cards Field25519.
From Stdlib Require Import Zpow_facts.

(** [cmult]'s buffers, by the pointers to them. *)
Record ladder := mk_ladder {
  nqpqx : bits320; nqpqz : bits320; nqx : bits320; nqz : bits320;
  nqpqx2 : bits320; nqpqz2 : bits320; nqx2 : bits320; nqz2 : bits320;
}.

#[export] Instance eta_ladder : Eta ladder := fun r => mk_ladder
  (nqpqx r) (nqpqz r) (nqx r) (nqz r) (nqpqx2 r) (nqpqz2 r) (nqx2 r) (nqz2 r).

(** One limb of [swap_conditional]: [swap] is zero or all ones. *)
Definition swap_limb (swap a b : Z) : Z * Z :=
  let x := Z.land swap (Z.lxor a b) in (Z.lxor a x, Z.lxor b x).

Definition swap_conditional (a b : bits320) (iswap : Z) : bits320 * bits320 :=
  let swap := u64 (- iswap) in
  let '(a0, b0) := swap_limb swap (l0 a) (l0 b) in
  let '(a1, b1) := swap_limb swap (l1 a) (l1 b) in
  let '(a2, b2) := swap_limb swap (l2 a) (l2 b) in
  let '(a3, b3) := swap_limb swap (l3 a) (l3 b) in
  let '(a4, b4) := swap_limb swap (l4 a) (l4 b) in
  (mk_bits320 a0 a1 a2 a3 a4, mk_bits320 b0 b1 b2 b3 b4).

(** The outputs [x2, z2, x3, z3], and what is left in [x, z, xprime, zprime]. *)
Definition fmonty (x z xprime zprime qmqp : bits320)
    : bits320 * bits320 * bits320 * bits320 * (bits320 * bits320 * bits320 * bits320) :=
  let origx := x in
  let x := fsum x z in
  let z := fdifference_backwards z origx in
  let origxprime := xprime in
  let xprime := fsum xprime zprime in
  let zprime := fdifference_backwards zprime origxprime in
  let xxprime := fmul xprime z in
  let zzprime := fmul x zprime in
  let origxprime := xxprime in
  let xxprime := fsum xxprime zzprime in
  let zzprime := fdifference_backwards zzprime origxprime in
  let x3 := fsquare_times xxprime 1 in
  let z3 := fmul (fsquare_times zzprime 1) qmqp in
  let xx := fsquare_times x 1 in
  let zz := fsquare_times z 1 in
  let x2 := fmul xx zz in
  let zz := fdifference_backwards zz xx in
  let zzz := fscalar_product zz 121665 in
  let z2 := fmul zz (fsum zzz xx) in
  (x2, z2, x3, z3, (x, z, xprime, zprime)).

(** The body of the inner loop of [cmult]. *)
Definition cmult_step (q : bits320) (bit : Z) (s : ladder) : ladder :=
  let '(x, px) := swap_conditional (nqx s) (nqpqx s) bit in
  let '(z, pz) := swap_conditional (nqz s) (nqpqz s) bit in
  let '(x2, z2, px2, pz2, (x, z, px, pz)) := fmonty x z px pz q in
  let '(x2, px2) := swap_conditional x2 px2 bit in
  let '(z2, pz2) := swap_conditional z2 pz2 bit in
  mk_ladder px2 pz2 x2 z2 px pz x z.

(** The bits of a byte, from the top: [bit = byte >> 7], then [byte <<= 1]. *)
Definition byte_loop {St} (step : Z -> St -> St) (byte : Z) (s : St) : St :=
  (Nat.iter 8 (fun '(byte, s) => (u8 (Z.shiftl byte 1), step (Z.shiftr byte 7) s)) (byte, s)).2.

Definition Zero320bits : bits320 := mk_bits320 0 0 0 0 0.
Definition One320bits : bits320 := mk_bits320 1 0 0 0 0.

(** The results [resultx] and [resultz]. *)
Definition cmult (secret : bits256) (q : bits320) : option (bits320 * bits320) :=
  let s := mk_ladder q One320bits One320bits Zero320bits Zero320bits One320bits Zero320bits One320bits in
  s ← for_ (fun i s => byte ← aget secret (31 - i); Some (byte_loop (cmult_step q) byte s)) 0 32 s;
  Some (nqx s, nqz s).

Definition curve25519 (mysecret basepoint : bits256) : option bits256 :=
  bp ← fexpand basepoint;
  '(x, z) ← cmult mysecret bp;
  Some (fcontract (fmul x (crecip z))).

(** ** Specification: the ladder modulo [p]

    The x-coordinates of two points whose difference has the coordinate [q], as
    fractions [x / z] and [x' / z'].  A step doubles the first and adds the second to
    it, with Montgomery's formulas for the curve [y^2 = x^3 + 486662 x^2 + x]. *)

Definition A25519 : Z := 486662.

Definition fractions : Type := Z * Z * Z * Z.

Definition spec_double_add (q : Z) (s : fractions) : fractions :=
  let '(x, z, x', z') := s in
  ((x * x - z * z) * (x * x - z * z) mod p25519,
   4 * x * z * (x * x + A25519 * x * z + z * z) mod p25519,
   4 * (x * x' - z * z') * (x * x' - z * z') mod p25519,
   4 * q * (x * z' - z * x') * (x * z' - z * x') mod p25519).

Definition spec_swap (b : bool) (s : fractions) : fractions :=
  let '(x, z, x', z') := s in if b then (x', z', x, z) else s.

Definition spec_step (q : Z) (s : fractions) (b : bool) : fractions :=
  spec_swap b (spec_double_add q (spec_swap b s)).

(** The fractions after the first [k] bits of a 256-bit number, from the top. *)
Definition spec_upto (n u : Z) (k : nat) : fractions :=
  foldl (spec_step u) (1, 0, u, 1) ((fun i => Z.testbit n (255 - Z.of_nat i)) <$> seq 0 k).

Definition x25519 (n u : Z) : Z :=
  let '(x, z, _, _) := spec_upto n u 256 in x * Zpow_mod z (p25519 - 2) p25519 mod p25519.

(** ** The code on limbs refines it *)

Definition b2z (b : bool) : Z := if b then 1 else 0.

Lemma swap_limb_spec (b : bool) x y : 0 <= x < 2 ^ 64 -> 0 <= y < 2 ^ 64 ->
  swap_limb (u64 (- b2z b)) x y = if b then (y, x) else (x, y).
Proof.
  intros Hx Hy. unfold swap_limb. destruct b; cbn [b2z].
  - replace (u64 (Z.opp 1)) with (Z.ones 64) by reflexivity. rewrite Z.land_comm, Z.land_ones by lia.
    rewrite Z.mod_small by (split; [apply Z.lxor_nonneg; lia|]; destruct (Z.eq_dec (Z.lxor x y) 0) as [->|]; [lia|];
      apply Z.log2_lt_pow2; [pose proof (proj2 (Z.lxor_nonneg x y)); lia|];
      eapply Z.le_lt_trans; [apply Z.log2_lxor; lia|]; apply Z.max_lub_lt;
      [destruct (Z.eq_dec x 0) as [->|]; [done|apply Z.log2_lt_pow2; lia]|destruct (Z.eq_dec y 0) as [->|]; [done|apply Z.log2_lt_pow2; lia]]).
    f_equal.
    + by rewrite <- Z.lxor_assoc, Z.lxor_nilpotent, Z.lxor_0_l.
    + by rewrite (Z.lxor_comm x y), <- Z.lxor_assoc, Z.lxor_nilpotent, Z.lxor_0_l.
  - by rewrite Z.land_0_l, !Z.lxor_0_r.
Qed.

Lemma swap_spec (b : bool) x y : short x -> short y -> swap_conditional x y (b2z b) = if b then (y, x) else (x, y).
Proof.
  intros Hx Hy. unfold short, limbs_le in *. change (2 ^ 51) with 2251799813685248 in *. unfold swap_conditional.
  rewrite !swap_limb_spec by (change (2 ^ 64) with 18446744073709551616; lia). destruct x, y. by destruct b.
Qed.

(** The limbs of a state are short and stand for the fractions. *)
Definition stands_for (x z px pz : bits320) (s : fractions) : Prop :=
  let '(a, b, c, d) := s in
  (short x /\ short z /\ short px /\ short pz) /\ (value x =p a /\ value z =p b /\ value px =p c /\ value pz =p d).

Lemma fmonty_spec q x z px pz s : short q -> stands_for x z px pz s ->
  exists x2 z2 px2 pz2 rest, fmonty x z px pz q = (x2, z2, px2, pz2, rest) /\
    stands_for x2 z2 px2 pz2 (spec_double_add (value q) s).
Proof.
  intros Hq. destruct s as [[[a b] c] d]. intros [(Hx & Hz & Hpx & Hpz) (Ea & Eb & Ec & Ed)].
  assert (forall u v, short u -> short v -> loose (fsum u v) /\ value (fsum u v) = value u + value v) as Hsum.
  { intros u v Hu Hv. destruct (fsum_spec u v (2 ^ 51) (2 ^ 51)) as [H1 H2]; [done|done|lia|]. split; [|done].
    by apply (limbs_le_weaken _ _ _ H1). }
  unfold fmonty.
  destruct (Hsum x z Hx Hz) as [L1 V1]. destruct (fdifference_spec z x Hz Hx) as [L2 V2].
  destruct (Hsum px pz Hpx Hpz) as [L3 V3]. destruct (fdifference_spec pz px Hpz Hpx) as [L4 V4].
  generalize dependent (fsum x z). intros xs L1 V1. generalize dependent (fdifference_backwards z x). intros xd L2 V2.
  generalize dependent (fsum px pz). intros pxs L3 V3. generalize dependent (fdifference_backwards pz px). intros pxd L4 V4.
  destruct (fmul_spec pxs xd L3 L2) as [L5 V5]. destruct (fmul_spec xs pxd L1 L4) as [L6 V6].
  generalize dependent (fmul pxs xd). intros u L5 V5. generalize dependent (fmul xs pxd). intros v L6 V6.
  destruct (Hsum u v L5 L6) as [L7 V7]. destruct (fdifference_spec v u L6 L5) as [L8 V8].
  generalize dependent (fsum u v). intros us L7 V7. generalize dependent (fdifference_backwards v u). intros ud L8 V8.
  destruct (fsquare_times_spec us 1 L7 ltac:(lia)) as [L9 V9]. destruct (fsquare_times_spec ud 1 L8 ltac:(lia)) as [L10 V10].
  destruct (fmul_spec _ q (short_loose _ L10) (short_loose _ Hq)) as [L11 V11].
  destruct (fsquare_times_spec xs 1 L1 ltac:(lia)) as [L12 V12]. destruct (fsquare_times_spec xd 1 L2 ltac:(lia)) as [L13 V13].
  generalize dependent (fsquare_times xs 1). intros aa L12 V12. generalize dependent (fsquare_times xd 1). intros bb L13 V13.
  destruct (fmul_spec aa bb (short_loose _ L12) (short_loose _ L13)) as [L14 V14].
  destruct (fdifference_spec bb aa L13 L12) as [L15 V15]. generalize dependent (fdifference_backwards bb aa). intros e L15 V15.
  destruct (fscalar_product_spec e 121665 L15 ltac:(lia)) as [L16 V16]. generalize dependent (fscalar_product e 121665). intros f L16 V16.
  destruct (fsum_spec f aa _ _ L16 L12 ltac:(lia)) as [L17 V17].
  assert (loose (fsum f aa)) as L17' by (apply (limbs_le_weaken _ _ _ L17); lia).
  destruct (fmul_spec e (fsum f aa) L15 L17') as [L18 V18].
  do 5 eexists. split; [reflexivity|]. split; [done|]. change (2 ^ 1) with 2 in *. rewrite !Z.pow_2_r in *.
  rewrite !eqp_mod. unfold A25519.
  split; [|split; [|split]].
  - rewrite V14, V12, V13, V1, V2, Ea, Eb. exists 0. ring.
  - rewrite V18, V17, V16, V15, V12, V13, V1, V2, Ea, Eb. exists 0. ring.
  - rewrite V9, V7, V5, V6, V1, V2, V3, V4, Ea, Eb, Ec, Ed. exists 0. ring.
  - rewrite V11, V10, V8, V5, V6, V1, V2, V3, V4, Ea, Eb, Ec, Ed. exists 0. ring.
Qed.

Definition state_for (s : ladder) (f : fractions) : Prop := stands_for (nqx s) (nqz s) (nqpqx s) (nqpqz s) f.

Lemma stands_for_swap (b : bool) x z px pz f : stands_for x z px pz f ->
  exists x' z' px' pz', swap_conditional x px (b2z b) = (x', px') /\ swap_conditional z pz (b2z b) = (z', pz') /\
    stands_for x' z' px' pz' (spec_swap b f).
Proof.
  destruct f as [[[a c] a'] c']. intros [(Hx & Hz & Hpx & Hpz) (E1 & E2 & E3 & E4)].
  rewrite !swap_spec by done. destruct b; do 4 eexists; (split; [done|split; [done|]]); split; by repeat split; try apply Hx; try apply Hz; try apply Hpx; try apply Hpz.
Qed.

Lemma cmult_step_spec q (b : bool) s f : short q -> state_for s f -> state_for (cmult_step q (b2z b) s) (spec_step (value q) f b).
Proof.
  intros Hq Hs. unfold cmult_step, spec_step. destruct (stands_for_swap b _ _ _ _ _ Hs) as (x & z & px & pz & -> & -> & H1).
  destruct (fmonty_spec q x z px pz _ Hq H1) as (x2 & z2 & px2 & pz2 & [[[rx rz] rpx] rpz] & -> & H2).
  destruct (stands_for_swap b _ _ _ _ _ H2) as (x3 & z3 & px3 & pz3 & -> & -> & H3). exact H3.
Qed.

Lemma byte_top byte : is_byte byte -> Z.shiftr byte 7 = b2z (Z.testbit byte 7).
Proof.
  unfold is_byte. intros Hb. change (b2z (Z.testbit byte 7)) with (Z.b2z (Z.testbit byte 7)).
  rewrite Z.testbit_spec' by lia. rewrite Z.shiftr_div_pow2 by lia. symmetry. apply Z.mod_small.
  split; [apply Z.div_pos; lia|]. apply Z.div_lt_upper_bound; lia.
Qed.

(** The bits of a byte from the top. *)
Definition byte_bits (byte : Z) (k : nat) : list bool := (fun j => Z.testbit byte (7 - Z.of_nat j)) <$> seq 0 k.

(** Bit [8 i + 7 - j] of a little-endian number. *)
Lemma le_int_byte_bit l i j b : bytes l -> aget l i = Some b -> 0 <= j < 8 -> Z.testbit (le_int l) (8 * i + j) = Z.testbit b j.
Proof.
  intros Hl [Hi E]%aget_Some Hj. pose proof (lookup_lt_Some _ _ _ E).
  pose proof (le_int_window l (Z.to_nat i) 1 Hl ltac:(lia)) as Hw. rewrite (drop_S _ _ _ E) in Hw. cbn [take le_int] in Hw.
  rewrite Z2Nat.id in Hw by lia. assert (b = le_int l / 256 ^ i mod 256) as -> by (rewrite Z.mul_0_r, Z.add_0_r in Hw; exact Hw).
  change 256 with (2 ^ 8) at 2. rewrite Z.mod_pow2_bits_low by lia. change 256 with (2 ^ 8). rewrite <- Z.pow_mul_r by lia.
  rewrite Z.div_pow2_bits by lia. f_equal. lia.
Qed.

Lemma bits_of_byte n byte i : 0 <= i < 32 -> (forall j, 0 <= j < 8 -> Z.testbit n (8 * (31 - i) + j) = Z.testbit byte j) ->
  (fun k => Z.testbit n (255 - Z.of_nat k)) <$> seq (Z.to_nat (8 * i)) 8 = byte_bits byte 8.
Proof.
  intros Hi H. unfold byte_bits. apply list_eq. intros k. rewrite !list_lookup_fmap.
  destruct (decide (k < 8)%nat); [|by rewrite !lookup_seq_ge by lia].
  rewrite !lookup_seq_lt by lia. cbn. f_equal. rewrite <- H by lia. f_equal. lia.
Qed.

Lemma spec_upto_0 n u : spec_upto n u 0 = (1, 0, u, 1).
Proof. reflexivity. Qed.

Lemma spec_upto_byte n u byte i : 0 <= i < 32 -> (forall j, 0 <= j < 8 -> Z.testbit n (8 * (31 - i) + j) = Z.testbit byte j) ->
  spec_upto n u (Z.to_nat (8 * (i + 1))) = foldl (spec_step u) (spec_upto n u (Z.to_nat (8 * i))) (byte_bits byte 8).
Proof.
  intros Hi H. unfold spec_upto. replace (Z.to_nat (8 * (i + 1))) with (Z.to_nat (8 * i) + 8)%nat by lia.
  rewrite seq_app, fmap_app, foldl_app. cbn [Nat.add]. by rewrite (bits_of_byte _ byte).
Qed.

(** The loops over the bytes of the secret and over the bits of a byte, for any step on
    any state that refines a step of the specification. *)
Section Loops.
Context {St : Type} (step : Z -> St -> St) (R : St -> fractions -> Prop) (u : Z).
Hypothesis step_refines : forall (b : bool) s f, R s f -> R (step (b2z b) s) (spec_step u f b).

Lemma byte_loop_spec byte s f : is_byte byte -> R s f -> R (byte_loop step byte s) (foldl (spec_step u) f (byte_bits byte 8)).
Proof using step_refines.
  intros Hb Hs. unfold byte_loop.
  match goal with |- context [Nat.iter 8 ?f _] => set (g := f) end.
  assert (forall k, (k <= 8)%nat -> exists s', Nat.iter k g (byte, s) = (u8 (Z.shiftl byte (Z.of_nat k)), s') /\
    R s' (foldl (spec_step u) f (byte_bits byte k))) as H.
  { induction k as [|k IH]; intros Hk.
    - exists s. split; [|done]. cbn. by rewrite u8_small.
    - destruct (IH ltac:(lia)) as (s' & E & H). change (Nat.iter (S k) g (byte, s)) with (g (Nat.iter k g (byte, s))). rewrite E. cbn [g]. eexists. split.
      + f_equal. unfold u8, wrapU. rewrite !Z.shiftl_mul_pow2, Z.mul_mod_idemp_l by lia. f_equal. rewrite Nat2Z.inj_succ, Z.pow_succ_r by lia. lia.
      + unfold byte_bits. rewrite seq_S, fmap_app, foldl_app. cbn [fmap list_fmap foldl Nat.add].
        rewrite byte_top by apply u8_range.
        replace (Z.testbit (u8 (Z.shiftl byte (Z.of_nat k))) 7) with (Z.testbit byte (7 - Z.of_nat k)).
        * by apply step_refines.
        * unfold u8, wrapU. rewrite Z.mod_pow2_bits_low, Z.shiftl_spec by lia. done. }
  destruct (H 8%nat ltac:(lia)) as (s' & -> & Hs'). exact Hs'.
Qed.

Lemma ladder_loop secret s : bits256_ok secret -> R s (1, 0, u, 1) ->
  exists s', for_ (fun i s => byte ← aget secret (31 - i); Some (byte_loop step byte s)) 0 32 s = Some s' /\
    R s' (spec_upto (le_int secret) u 256).
Proof using step_refines.
  intros [Hl Hb] Hs.
  match goal with |- context [for_ ?f _ _ ?s] =>
  destruct (for_inv (fun i st => R st (spec_upto (le_int secret) u (Z.to_nat (8 * i)))) f 32 0 s) as (s' & -> & H) end.
  - change (Z.to_nat (8 * 0)) with 0%nat. by rewrite spec_upto_0.
  - intros i s0 Hi H. destruct (aget_is_Some secret (31 - i)) as (b & Eb & Hg); [lia|]. rewrite Hg. cbn [mbind option_bind].
    eexists. split; [done|]. rewrite (spec_upto_byte _ _ b); [|lia|].
    + apply byte_loop_spec; [|done]. unfold bytes in Hb. rewrite list.Forall_forall in Hb. apply Hb. by eapply list_elem_of_lookup_2.
    + intros j Hj. by apply le_int_byte_bit.
  - exists s'. split; [done|]. assert (Z.to_nat (8 * (0 + Z.of_nat 32)) = 256%nat) as E by lia. by rewrite E in H.
Qed.
End Loops.

Lemma cmult_spec secret q : bits256_ok secret -> short q ->
  exists x z, cmult secret q = Some (x, z) /\ short x /\ short z /\
    let '(a, c, _, _) := spec_upto (le_int secret) (value q) 256 in value x =p a /\ value z =p c.
Proof.
  intros Hok Hq. unfold cmult.
  match goal with |- context [for_ _ _ _ ?s] =>
  destruct (ladder_loop (cmult_step q) state_for (value q) (fun b st f => cmult_step_spec q b st f Hq) secret s Hok) as (s' & E & H) end.
  - unfold state_for, stands_for. cbn [nqx nqz nqpqx nqpqz].
    split; [|done]. split; [|split; [|split; [exact Hq|]]]; unfold short, limbs_le; cbn; lia.
  - rewrite E. cbn [mbind option_bind]. do 2 eexists. split; [reflexivity|].
    revert H. generalize (spec_upto (le_int secret) (value q) 256). intros [[[a c] a'] c'] H. unfold state_for in H.
    destruct H as [(Hx & Hz & _) (E1 & E2 & _)]. done.
Qed.

(** The product of [x] and the inverse of [z], in bytes. *)
Lemma curve25519_x25519 secret base : bits256_ok secret -> bits256_ok base ->
  curve25519 secret base = Some (le_bytes 32 (x25519 (le_int secret) (le_int base mod 2 ^ 255))).
Proof.
  intros Hs Hb. unfold curve25519. destruct (fexpand_spec base Hb) as (q & -> & Hq & <-). cbn [mbind option_bind].
  destruct (cmult_spec secret q Hs Hq) as (x & z & -> & Hx & Hz & Hv). cbn [mbind option_bind]. unfold x25519.
  revert Hv. generalize (spec_upto (le_int secret) (value q) 256). intros [[[a c] a'] c'] [Ea Ec]. do 2 f_equal.
  destruct (crecip_spec z Hz) as [H1 V1]. destruct (fmul_spec x (crecip z)) as [H2 V2]; [by apply short_loose..|].
  rewrite fcontract_spec by (apply (limbs_le_weaken _ _ _ H2); lia). f_equal. apply eqp_iff.
  rewrite V2, V1, Ea, Zpow_mod_correct by done. rewrite eqp_mod. f_equiv. apply pow_eqp; [done|exact Ec].
Qed.

(** C24: For any 32 bytes of a secret and of a point the ladder on limbs stays within
    its arrays and returns the little-endian bytes of the x-coordinate that
    the textbook ladder computes modulo [p]: Montgomery's formulas over the bits of
    the secret from the top, then the quotient. *)
Theorem curve25519_refines secret base : bits256_ok secret -> bits256_ok base ->
  curve25519 secret base = Some (le_bytes 32 (x25519 (le_int secret) (le_int base mod 2 ^ 255))).
Proof. apply curve25519_x25519. Qed.

Example curve25519_refines_witness :
  curve25519 (7 :: replicate 31 0) (9 :: replicate 31 0) =
    Some (le_bytes 32 (x25519 (le_int (7 :: replicate 31 0)) (le_int (9 :: replicate 31 0) mod 2 ^ 255))).
Proof. apply (curve25519_refines (7 :: replicate 31 0) (9 :: replicate 31 0)); concrete. Defined.
