(* ===== verification/Sha256.v ===== *)
(** * Sha256: the hash of shared secrets and cards

    Models the SHA-256 of [plugins/utils/curve25519.c], from [LOAD32H] to
    [vupdate_sha256], and proves it equal to the hash of FIPS 180-4, stated below as
    a function of the message: blocks of the padded message, a schedule of 64 words,
    64 rounds.  The code keeps its eight working variables in an array and renames
    the entries from round to round; input comes in pieces through a buffer.
    [None] is an access outside an array. *)

From S2P Require Import Prelude Cards Field25519.

Definition LOAD32H (mem : list Z) (off : Z) : option Z :=
  b0 ← aget mem off; b1 ← aget mem (off + 1); b2 ← aget mem (off + 2); b3 ← aget mem (off + 3);
  Some (u32 (Z.lor (Z.lor (Z.lor (Z.shiftl (Z.land b0 255) 24) (Z.shiftl (Z.land b1 255) 16)) (Z.shiftl (Z.land b2 255) 8)) (Z.land b3 255))).

(** The four and the eight bytes written. *)
Definition STORE32H (x : Z) : list Z :=
  [Z.land (Z.shiftr x 24) 255; Z.land (Z.shiftr x 16) 255; Z.land (Z.shiftr x 8) 255; Z.land x 255].

Definition STORE64H (x : Z) : list Z :=
  [Z.land (Z.shiftr x 56) 255; Z.land (Z.shiftr x 48) 255; Z.land (Z.shiftr x 40) 255; Z.land (Z.shiftr x 32) 255;
   Z.land (Z.shiftr x 24) 255; Z.land (Z.shiftr x 16) 255; Z.land (Z.shiftr x 8) 255; Z.land x 255].

Definition RORc (x y : Z) : Z :=
  Z.land (Z.lor (Z.shiftr (Z.land x 0xFFFFFFFF) (Z.land y 31)) (u32 (Z.shiftl x (32 - Z.land y 31)))) 0xFFFFFFFF.
Definition Ch (x y z : Z) : Z := Z.lxor z (Z.land x (Z.lxor y z)).
Definition Maj (x y z : Z) : Z := Z.lor (Z.land (Z.lor x y) z) (Z.land x y).
Definition R_ (x n : Z) : Z := Z.shiftr (Z.land x 0xFFFFFFFF) n.
Definition Sigma0 (x : Z) : Z := Z.lxor (Z.lxor (RORc x 2) (RORc x 13)) (RORc x 22).
Definition Sigma1 (x : Z) : Z := Z.lxor (Z.lxor (RORc x 6) (RORc x 11)) (RORc x 25).
Definition Gamma0 (x : Z) : Z := Z.lxor (Z.lxor (RORc x 7) (RORc x 18)) (R_ x 3).
Definition Gamma1 (x : Z) : Z := Z.lxor (Z.lxor (RORc x 17) (RORc x 19)) (R_ x 10).

(** The last arguments of the 64 rounds, in decimal; see [round_constants_roots]. *)
Definition round_constants : list Z :=
  [1116352408; 1899447441; 3049323471; 3921009573; 961987163; 1508970993; 2453635748; 2870763221;
   3624381080; 310598401; 607225278; 1426881987; 1925078388; 2162078206; 2614888103; 3248222580;
   3835390401; 4022224774; 264347078; 604807628; 770255983; 1249150122; 1555081692; 1996064986;
   2554220882; 2821834349; 2952996808; 3210313671; 3336571891; 3584528711; 113926993; 338241895;
   666307205; 773529912; 1294757372; 1396182291; 1695183700; 1986661051; 2177026350; 2456956037;
   2730485921; 2820302411; 3259730800; 3345764771; 3516065817; 3600352804; 4094571909; 275423344;
   430227734; 506948616; 659060556; 883997877; 958139571; 1322822218; 1537002063; 1747873779;
   1955562222; 2024104815; 2227730452; 2361852424; 2428436474; 2756734187; 3204031479; 3329325298].

(** [RND] as called for round [i]: argument [k] is [S[(k - i) mod 8]]. *)
Definition RND (W : list Z) (i : Z) (S : list Z) : option (list Z) :=
  let at_ k := (k - i) mod 8 in
  ki ← aget round_constants i; w ← aget W i;
  a ← aget S (at_ 0); b ← aget S (at_ 1); c ← aget S (at_ 2); d ← aget S (at_ 3);
  e ← aget S (at_ 4); f ← aget S (at_ 5); g ← aget S (at_ 6); h ← aget S (at_ 7);
  let t0 := u32 (h + Sigma1 e + Ch e f g + ki + w) in
  let t1 := u32 (Sigma0 a + Maj a b c) in
  S ← aset S (at_ 3) (u32 (d + t0));
  aset S (at_ 7) (u32 (t0 + t1)).

(** [struct sha256_vstate]. *)
Record sha256_vstate := mk_vstate { md_length : Z; md_state : list Z; md_curlen : Z; md_buf : list Z }.

#[export] Instance eta_vstate : Eta sha256_vstate := fun r => mk_vstate (md_length r) (md_state r) (md_curlen r) (md_buf r).

(** The schedule; every word is written before it is read. *)
Definition schedule (buf : list Z) (off : Z) : option (list Z) :=
  W ← for_ (fun i W => x ← LOAD32H buf (off + 4 * i); aset W i x) 0 16 (replicate 64 0);
  for_ (fun i W =>
    a ← aget W (i - 2); b ← aget W (i - 7); c ← aget W (i - 15); d ← aget W (i - 16);
    aset W i (u32 (Gamma1 a + b + Gamma0 c + d))) 16 48 W.

Definition sha256_vcompress (md : sha256_vstate) (buf : list Z) (off : Z) : option sha256_vstate :=
  W ← schedule buf off;
  S ← for_ (RND W) 0 64 (take 8 (md_state md));
  state ← for_ (fun i st => a ← aget st i; s ← aget S i; aset st i (u32 (a + s))) 0 8 (md_state md);
  Some (md <| md_state := state |>).

Definition sha256_vinit (md : sha256_vstate) : sha256_vstate :=
  md <| md_curlen := 0 |> <| md_length := 0 |>
     <| md_state := [0x6A09E667; 0xBB67AE85; 0x3C6EF372; 0xA54FF53A; 0x510E527F; 0x9B05688C; 0x1F83D9AB; 0x5BE0CD19] |>.

(** [inp] is the offset reached in [src].  Every turn takes at least a byte or empties
    a full buffer. *)
Fixpoint process_loop (fuel : nat) (md : sha256_vstate) (src : list Z) (inp inlen : Z) : option sha256_vstate :=
  match fuel with
  | O => None
  | S fuel =>
      if 0 <? inlen then
        if (md_curlen md =? 0) && (64 <=? inlen) then
          md ← sha256_vcompress md src inp;
          process_loop fuel (md <| md_length := u64 (md_length md + 64 * 8) |>) src (inp + 64) (inlen - 64)
        else
          let n := if inlen <? 64 - md_curlen md then inlen else 64 - md_curlen md in
          buf ← memcpy (md_buf md) (md_curlen md) src inp n;
          let md := md <| md_buf := buf |> <| md_curlen := u32 (md_curlen md + n) |> in
          if md_curlen md =? 64 then
            md ← sha256_vcompress md (md_buf md) 0;
            process_loop fuel (md <| md_length := u64 (md_length md + 8 * 64) |> <| md_curlen := 0 |>) src (inp + n) (inlen - n)
          else process_loop fuel md src (inp + n) (inlen - n)
      else Some md
  end.

Definition sha256_vprocess (md : sha256_vstate) (src : list Z) (inlen : Z) : option (sha256_vstate * Z) :=
  if 64 <? md_curlen md then Some (md, -1)
  else md ← process_loop (Z.to_nat inlen + 1) md src 0 inlen; Some (md, 0).

(** Zeros up to [n]: [while (md->curlen < n) md->buf[md->curlen++] = 0]. *)
Definition zeros_to (n : Z) (md : sha256_vstate) : option sha256_vstate :=
  buf ← for_ (fun i buf => aset buf i 0) (md_curlen md) (Z.to_nat (n - md_curlen md)) (md_buf md);
  Some (md <| md_buf := buf |> <| md_curlen := Z.max (md_curlen md) n |>).

(** The hash written to [out], or [None] for the result -1. *)
Definition sha256_vdone (md : sha256_vstate) : option (option (list Z)) :=
  if 64 <=? md_curlen md then Some None
  else
    let md := md <| md_length := u64 (md_length md + u32 (md_curlen md * 8)) |> in
    buf ← aset (md_buf md) (md_curlen md) 0x80;
    let md := md <| md_buf := buf |> <| md_curlen := md_curlen md + 1 |> in
    md ← (if 56 <? md_curlen md then
            md ← zeros_to 64 md; md ← sha256_vcompress md (md_buf md) 0; Some (md <| md_curlen := 0 |>)
          else Some md);
    md ← zeros_to 56 md;
    buf ← memcpy (md_buf md) 56 (STORE64H (md_length md)) 0 8;
    let md := md <| md_buf := buf |> in
    md ← sha256_vcompress md (md_buf md) 0;
    Some (Some (md_state md ≫= STORE32H)).

(** The hash; [md] is what the stack holds. *)
Definition vcalc_sha256 (md : sha256_vstate) (src : list Z) (len : Z) : option (option (list Z)) :=
  '(md, _) ← sha256_vprocess (sha256_vinit md) src (u64 len); sha256_vdone md.

Definition vcalc_sha256cat (md : sha256_vstate) (src : list Z) (len : Z) (src2 : option (list Z)) (len2 : Z) : option (option (list Z)) :=
  '(md, _) ← sha256_vprocess (sha256_vinit md) src (u64 len);
  md ← match src2 with
       | Some src2 => fst <$> sha256_vprocess md src2 (u64 len2)
       | None => Some md
       end;
  sha256_vdone md.

(** The new state and the hash so far. *)
Definition vupdate_sha256 (state : sha256_vstate) (src : option (list Z)) (len : Z) : option (sha256_vstate * option (list Z)) :=
  md ← match src with
       | None => Some (sha256_vinit (mk_vstate 0 (replicate 8 0) 0 (replicate 64 0)))
       | Some src => fst <$> sha256_vprocess state src (u64 len)
       end;
  hash ← sha256_vdone md; Some (md, hash).

(** ** FIPS 180-4 *)

Definition rotr (n x : Z) : Z := x / 2 ^ n + (x mod 2 ^ n) * 2 ^ (32 - n).
Definition ch (x y z : Z) : Z := Z.lxor (Z.land x y) (Z.land (Z.lnot x) z).
Definition maj (x y z : Z) : Z := Z.lxor (Z.lxor (Z.land x y) (Z.land x z)) (Z.land y z).
Definition big_sigma0 (x : Z) : Z := Z.lxor (Z.lxor (rotr 2 x) (rotr 13 x)) (rotr 22 x).
Definition big_sigma1 (x : Z) : Z := Z.lxor (Z.lxor (rotr 6 x) (rotr 11 x)) (rotr 25 x).
Definition small_sigma0 (x : Z) : Z := Z.lxor (Z.lxor (rotr 7 x) (rotr 18 x)) (x / 2 ^ 3).
Definition small_sigma1 (x : Z) : Z := Z.lxor (Z.lxor (rotr 17 x) (rotr 19 x)) (x / 2 ^ 10).

(** The number of a big-endian sequence of bytes. *)
Definition be_int (l : list Z) : Z := foldl (fun v b => 256 * v + b) 0 l.

Fixpoint be_bytes (n : nat) (x : Z) : list Z :=
  match n with O => [] | S n => x / 256 ^ Z.of_nat n mod 256 :: be_bytes n x end.

(** The first [16 + k] words of the schedule of a block. *)
Fixpoint words (block : list Z) (k : nat) : list Z :=
  match k with
  | O => (fun i => be_int (take 4 (drop (4 * i) block))) <$> seq 0 16
  | S k =>
      let W := words block k in let t := (16 + k)%nat in
      W ++ [u32 (small_sigma1 (nth (t - 2) W 0) + nth (t - 7) W 0 + small_sigma0 (nth (t - 15) W 0) + nth (t - 16) W 0)]
  end.

Record vars := mk_vars { va : Z; vb : Z; vc : Z; vd : Z; ve : Z; vf : Z; vg : Z; vh : Z }.

Definition spec_round (W : list Z) (v : vars) (t : nat) : vars :=
  let T1 := vh v + big_sigma1 (ve v) + ch (ve v) (vf v) (vg v) + nth t round_constants 0 + nth t W 0 in
  let T2 := big_sigma0 (va v) + maj (va v) (vb v) (vc v) in
  mk_vars (u32 (T1 + T2)) (va v) (vb v) (vc v) (u32 (vd v + T1)) (ve v) (vf v) (vg v).

Definition spec_compress (v : vars) (block : list Z) : vars :=
  let w := foldl (spec_round (words block 48)) v (seq 0 64) in
  mk_vars (u32 (va v + va w)) (u32 (vb v + vb w)) (u32 (vc v + vc w)) (u32 (vd v + vd w))
    (u32 (ve v + ve w)) (u32 (vf v + vf w)) (u32 (vg v + vg w)) (u32 (vh v + vh w)).

Definition initial_vars : vars :=
  mk_vars 0x6A09E667 0xBB67AE85 0x3C6EF372 0xA54FF53A 0x510E527F 0x9B05688C 0x1F83D9AB 0x5BE0CD19.

(** A one bit, zeros up to 56 modulo 64, and the length in bits. *)
Definition padding (n : Z) : list Z := 0x80 :: replicate (Z.to_nat ((55 - n) mod 64)) 0 ++ be_bytes 8 (8 * n).

Definition block_of (msg : list Z) (i : nat) : list Z := take 64 (drop (64 * i) msg).

(** The variables after the first [q] blocks. *)
Definition spec_blocks (msg : list Z) (q : nat) : vars :=
  foldl (fun v i => spec_compress v (block_of msg i)) initial_vars (seq 0 q).

Definition vars_list (v : vars) : list Z := [va v; vb v; vc v; vd v; ve v; vf v; vg v; vh v].

Definition sha256 (msg : list Z) : list Z :=
  let padded := msg ++ padding (Z.of_nat (length msg)) in
  vars_list (spec_blocks padded (length padded / 64)) ≫= be_bytes 4.

(** The constants are the first 32 bits of the fractional parts of the roots of the
    first primes: [K] follows an integer part [w] below 20. *)
Definition is_root_word (n p K : Z) : bool :=
  existsb (fun w => let x := 2 ^ 32 * w + K in (x ^ n <=? p * 2 ^ (32 * n)) && (p * 2 ^ (32 * n) <? (x + 1) ^ n))
    (Z.of_nat <$> seq 1 19).

Definition primes_below (n : nat) : list Z :=
  filter (fun p => forallb (fun d => negb (p mod d =? 0)) (Z.of_nat <$> seq 2 (Z.to_nat p - 2))) (Z.of_nat <$> seq 2 (n - 2)).

Lemma round_constants_roots : length (primes_below 312) = 64%nat /\ length round_constants = 64%nat /\
  forallb (fun '(p, K) => is_root_word 3 p K) (zip (primes_below 312) round_constants) = true.
Proof. vm_compute. done. Qed.

Lemma initial_vars_roots :
  forallb (fun '(p, K) => is_root_word 2 p K) (zip (primes_below 20) (vars_list initial_vars)) = true.
Proof. vm_compute. done. Qed.

(** ** Words *)

Definition is_word (x : Z) : Prop := 0 <= x < 2 ^ 32.

Lemma u32_word x : is_word (u32 x).
Proof. apply wrapU_range. lia. Qed.

Lemma land_word x : Z.land x 0xFFFFFFFF = x mod 2 ^ 32.
Proof. change 0xFFFFFFFF with (Z.ones 32). by rewrite Z.land_ones by lia. Qed.

Lemma land_255 x : Z.land x 255 = x mod 256.
Proof. change 255 with (Z.ones 8). by rewrite Z.land_ones by lia. Qed.

Lemma word_id x : is_word x -> x mod 2 ^ 32 = x.
Proof. apply Z.mod_small. Qed.

Lemma RORc_rotr x n : is_word x -> 0 < n < 32 -> RORc x n = rotr n x.
Proof.
  intros Hx Hn. unfold RORc, rotr. rewrite !land_word, (word_id x) by done.
  assert (Z.land n 31 = n) as -> by (change 31 with (Z.ones 5); rewrite Z.land_ones, Z.mod_small by lia; done).
  assert (2 ^ 32 = 2 ^ n * 2 ^ (32 - n)) as E by (rewrite <- Z.pow_add_r by lia; f_equal; lia).
  assert (0 < 2 ^ n) by (apply Z.pow_pos_nonneg; lia). assert (0 < 2 ^ (32 - n)) by (apply Z.pow_pos_nonneg; lia).
  unfold u32, wrapU. rewrite Z.shiftl_mul_pow2 by lia. rewrite E, Z.mul_mod_distr_r, <- Z.shiftl_mul_pow2, Z.shiftr_div_pow2 by lia.
  assert (0 <= x / 2 ^ n < 2 ^ (32 - n)).
  { unfold is_word in Hx. split; [apply Z.div_pos; lia|]. apply Z.div_lt_upper_bound; lia. }
  rewrite lor_shift, Z.shiftl_mul_pow2 by lia. apply Z.mod_small. pose proof (Z.mod_pos_bound x (2 ^ n) ltac:(lia)). nia.
Qed.

Lemma rotr_word x n : is_word x -> 0 < n < 32 -> is_word (rotr n x).
Proof.
  intros Hx Hn. rewrite <- RORc_rotr by done. unfold RORc. rewrite land_word. apply u32_word.
Qed.

Lemma R_shift x n : is_word x -> 0 <= n -> R_ x n = x / 2 ^ n.
Proof. intros Hx Hn. unfold R_. by rewrite land_word, word_id, Z.shiftr_div_pow2. Qed.

Lemma Ch_ch x y z : Ch x y z = ch x y z.
Proof.
  apply Z.bits_inj'. intros n Hn. unfold Ch, ch. rewrite !Z.lxor_spec, !Z.land_spec, Z.lnot_spec, Z.lxor_spec by done.
  by destruct (Z.testbit x n), (Z.testbit y n), (Z.testbit z n).
Qed.

Lemma Maj_maj x y z : Maj x y z = maj x y z.
Proof.
  apply Z.bits_inj'. intros n Hn. unfold Maj, maj. rewrite !Z.lxor_spec, Z.lor_spec, !Z.land_spec, Z.lor_spec.
  by destruct (Z.testbit x n), (Z.testbit y n), (Z.testbit z n).
Qed.

Lemma sigmas x : is_word x ->
  Sigma0 x = big_sigma0 x /\ Sigma1 x = big_sigma1 x /\ Gamma0 x = small_sigma0 x /\ Gamma1 x = small_sigma1 x.
Proof.
  intros Hx. unfold Sigma0, Sigma1, Gamma0, Gamma1. rewrite !RORc_rotr, !R_shift by (done || lia). done.
Qed.

(** ** Bytes of words *)

Lemma LOAD32H_spec mem off : bytes mem -> 0 <= off -> off + 4 <= Z.of_nat (length mem) ->
  LOAD32H mem off = Some (be_int (take 4 (drop (Z.to_nat off) mem))).
Proof.
  intros Hb Ho Hl.
  assert (bytes (take 4 (drop (Z.to_nat off) mem))) as Hw by (by apply Forall_take, Forall_drop).
  assert (forall k, (k < 4)%nat -> aget mem (off + Z.of_nat k) = take 4 (drop (Z.to_nat off) mem) !! k) as Hg.
  { intros k Hk. rewrite lookup_take_lt, lookup_drop by done. unfold aget. destruct (Z.ltb_spec (off + Z.of_nat k) 0); [lia|]. f_equal. lia. }
  assert (length (take 4 (drop (Z.to_nat off) mem)) = 4%nat) as Hlen by (rewrite length_take_le; [done|rewrite length_drop; lia]).
  pose proof (Hg 0%nat ltac:(lia)) as G. change (Z.of_nat 0) with 0 in G. rewrite Z.add_0_r in G.
  unfold LOAD32H. rewrite G, (Hg 1%nat ltac:(lia) : aget mem (off + 1) = _), (Hg 2%nat ltac:(lia) : aget mem (off + 2) = _), (Hg 3%nat ltac:(lia) : aget mem (off + 3) = _).
  clear Hg G. destruct (take 4 (drop (Z.to_nat off) mem)) as [|b0 [|b1 [|b2 [|b3 []]]]]; try discriminate Hlen.
  cbn [lookup list_lookup mbind option_bind]. unfold bytes in Hw. repeat (apply list.Forall_cons in Hw as [? Hw]). unfold is_byte in *.
  f_equal. rewrite !land_255, !Z.mod_small by lia. unfold be_int. cbn [foldl].
  rewrite Z.lor_comm, (Z.lor_comm (Z.lor (Z.shiftl b0 24) (Z.shiftl b1 16))), (Z.lor_comm (Z.shiftl b0 24)), !Z.lor_assoc.
  pose proof (eq_refl : 2 ^ 8 = 256). pose proof (eq_refl : 2 ^ 16 = 65536). pose proof (eq_refl : 2 ^ 24 = 16777216).
  rewrite (lor_shift _ _ 8), (lor_shift _ _ 16), (lor_shift _ _ 24) by lia. rewrite u32_small; lia.
Qed.

Lemma be_int_word l : bytes l -> length l = 4%nat -> is_word (be_int l).
Proof.
  intros Hb Hl. destruct l as [|b0 [|b1 [|b2 [|b3 []]]]]; try discriminate Hl. unfold bytes in Hb.
  repeat (apply list.Forall_cons in Hb as [? Hb]). unfold is_byte, is_word, be_int in *. cbn [foldl]. change (2 ^ 32) with 4294967296. lia.
Qed.

Lemma STORE32H_spec x : STORE32H x = be_bytes 4 x.
Proof. unfold STORE32H. rewrite !land_255, !Z.shiftr_div_pow2 by lia. cbn [be_bytes]. by rewrite Z.div_1_r. Qed.

Lemma STORE64H_spec x : STORE64H x = be_bytes 8 x.
Proof. unfold STORE64H. rewrite !land_255, !Z.shiftr_div_pow2 by lia. cbn [be_bytes]. by rewrite Z.div_1_r. Qed.

Lemma be_bytes_mod n x : be_bytes n (x mod 256 ^ Z.of_nat n) = be_bytes n x.
Proof.
  assert (forall m k, (k <= m)%nat -> be_bytes k (x mod 256 ^ Z.of_nat m) = be_bytes k x) as H.
  { intros m. induction k as [|k IH]; intros Hk; [done|]. cbn [be_bytes]. f_equal; [|apply IH; lia].
    change 256 with (2 ^ 8). rewrite <- !Z.pow_mul_r by lia. apply Z.bits_inj'. intros i Hi.
    destruct (Z.ltb_spec i 8).
    - rewrite !Z.mod_pow2_bits_low, !Z.div_pow2_bits, Z.mod_pow2_bits_low by lia. done.
    - by rewrite !Z.mod_pow2_bits_high by lia. }
  by apply H.
Qed.

(** ** The schedule *)

Lemma words_length block k : length (words block k) = (16 + k)%nat.
Proof. induction k as [|k IH]; [done|]. cbn [words]. rewrite length_app, IH. cbn. lia. Qed.

Lemma words_S_lookup block k t : (t < 16 + k)%nat -> words block (S k) !! t = words block k !! t.
Proof. intros Ht. cbn [words]. by rewrite lookup_app_l by (rewrite words_length; lia). Qed.

Lemma words_ok block k : bytes block -> length block = 64%nat -> Forall is_word (words block k).
Proof.
  intros Hb Hl. induction k as [|k IH]; cbn [words].
  - apply list.Forall_forall. intros x (i & -> & Hi%elem_of_seq)%list_elem_of_fmap. apply be_int_word.
    + by apply Forall_take, Forall_drop.
    + rewrite length_take_le; [done|]. rewrite length_drop. lia.
  - apply Forall_app. split; [done|]. apply Forall_singleton, u32_word.
Qed.

Lemma nth_word W t : Forall is_word W -> is_word (nth t W 0).
Proof.
  intros HW. rewrite nth_lookup. destruct (W !! t) as [x|] eqn:E; [|done]. cbn. rewrite list.Forall_forall in HW. apply HW.
  by eapply list_elem_of_lookup_2.
Qed.

(** The first [k] entries of an array agree with a list. *)
Definition agrees (k : nat) (W l : list Z) : Prop := forall t, (t < k)%nat -> W !! t = l !! t.

Lemma agrees_set k W l l' x : (k < length W)%nat -> agrees k W l -> (forall t, (t < k)%nat -> l' !! t = l !! t) -> l' !! k = Some x ->
  agrees (S k) (<[k := x]> W) l'.
Proof.
  intros Hk Ha Hl Hx t Ht. destruct (decide (t = k)) as [->|].
  - by rewrite list_lookup_insert_eq.
  - rewrite list_lookup_insert_ne, Ha, Hl by lia. done.
Qed.

Lemma agrees_get k W l t : agrees k W l -> (t < k)%nat -> (k <= length l)%nat -> aget W (Z.of_nat t) = Some (nth t l 0).
Proof.
  intros Ha Ht Hl. rewrite aget_of_nat, Ha by done. destruct (lookup_lt_is_Some_2 l t) as [x E]; [lia|].
  by rewrite E, (nth_lookup_Some _ _ _ _ E).
Qed.

Lemma schedule_spec buf off block : bytes buf -> 0 <= off -> off + 64 <= Z.of_nat (length buf) ->
  block = take 64 (drop (Z.to_nat off) buf) ->
  exists W, schedule buf off = Some W /\ W = words block 48.
Proof.
  intros Hb Ho Hl Eb. assert (bytes block) as Hbb by (subst; by apply Forall_take, Forall_drop).
  assert (length block = 64%nat) as Hlb by (subst; rewrite length_take_le; [done|rewrite length_drop; lia]).
  unfold schedule.
  match goal with |- context [for_ ?f 0 16 ?s] =>
  destruct (for_inv (fun i W => length W = 64%nat /\ agrees (Z.to_nat i) W (words block 0)) f 16 0 s) as (W1 & -> & Hl1 & Ha1) end.
  { split; [done|]. intros t Ht. lia. }
  { intros i W Hi [HW Ha]. rewrite LOAD32H_spec by (done || lia). cbn [mbind option_bind].
    rewrite aset_in_range by lia. eexists. split; [done|]. split; [by rewrite length_insert|].
    replace (Z.to_nat (i + 1)) with (S (Z.to_nat i)) by lia. eapply agrees_set; [lia|done|done|].
    cbn [words]. rewrite list_lookup_fmap, lookup_seq_lt by lia. cbn [fmap option_fmap option_map Nat.add]. do 2 f_equal. subst block.
    rewrite skipn_firstn_comm, take_take, drop_drop. f_equal; [lia|]. f_equal. lia. }
  cbn [mbind option_bind].
  match goal with |- context [for_ ?f 16 48 ?s] =>
  destruct (for_inv (fun i W => length W = 64%nat /\ agrees (Z.to_nat i) W (words block (Z.to_nat (i - 16)))) f 48 16 s) as (W2 & -> & Hl2 & Ha2) end.
  { split; [done|]. done. }
  { intros i W Hi [HW Ha]. set (k := Z.to_nat (i - 16)) in *. assert (Z.to_nat i = (16 + k)%nat) as Ei by lia.
    rewrite Ei in Ha. assert (forall m, (0 < m <= 16)%nat -> aget W (i - Z.of_nat m) = Some (nth (16 + k - m) (words block k) 0)) as Hg.
    { intros m Hm. replace (i - Z.of_nat m) with (Z.of_nat (16 + k - m)) by lia. apply (agrees_get (16 + k)); [done|lia|rewrite words_length; lia]. }
    rewrite (Hg 2%nat ltac:(lia) : aget W (i - 2) = _), (Hg 7%nat ltac:(lia) : aget W (i - 7) = _),
      (Hg 15%nat ltac:(lia) : aget W (i - 15) = _), (Hg 16%nat ltac:(lia) : aget W (i - 16) = _). cbn [mbind option_bind].
    pose proof (words_ok block k Hbb Hlb) as Hw.
    destruct (sigmas (nth (16 + k - 2) (words block k) 0) (nth_word _ _ Hw)) as (_ & _ & _ & ->).
    destruct (sigmas (nth (16 + k - 15) (words block k) 0) (nth_word _ _ Hw)) as (_ & _ & -> & _).
    rewrite aset_in_range by lia. eexists. split; [done|]. split; [by rewrite length_insert|].
    replace (Z.to_nat (i + 1 - 16)) with (S k) by lia. replace (Z.to_nat (i + 1)) with (S (Z.to_nat i)) by lia. rewrite Ei.
    eapply agrees_set; [lia|done|intros; by apply words_S_lookup|]. cbn [words].
    rewrite lookup_app_r by (rewrite words_length; lia). by rewrite words_length, Nat.sub_diag. }
  exists W2. split; [done|]. change (Z.to_nat (16 + Z.of_nat 48)) with 64%nat in Ha2. change (Z.to_nat (16 + Z.of_nat 48 - 16)) with 48%nat in Ha2.
  apply list_eq. intros t. destruct (decide (t < 64)%nat); [by apply Ha2|].
  rewrite !lookup_ge_None_2; [done|rewrite words_length; lia|lia].
Qed.

(** ** The rounds *)

Definition vars_word (v : vars) : Prop := Forall is_word (vars_list v).

(** Variable [k] is at [(k - r) mod 8]. *)
Definition rotated (r : Z) (S : list Z) (v : vars) : Prop :=
  length S = 8%nat /\ forall k, 0 <= k < 8 -> aget S ((k - r) mod 8) = aget (vars_list v) k.

Lemma vars_word_get v k : vars_word v -> 0 <= k < 8 -> exists x, aget (vars_list v) k = Some x /\ is_word x.
Proof.
  intros Hv Hk. destruct (aget_is_Some (vars_list v) k) as (x & Hx & E); [cbn; lia|]. exists x. split; [done|].
  unfold vars_word in Hv. rewrite list.Forall_forall in Hv. apply Hv. by eapply list_elem_of_lookup_2.
Qed.

Lemma mod8_next k r : 0 <= k < 7 -> (k + 1 - (r + 1)) mod 8 = (k - r) mod 8.
Proof. intros. f_equal. lia. Qed.

Lemma aget_insert (S : list Z) i j x : 0 <= i < Z.of_nat (length S) -> 0 <= j ->
  aget (<[Z.to_nat i := x]> S) j = if decide (j = i) then Some x else aget S j.
Proof.
  intros Hi Hj. unfold aget. destruct (Z.ltb_spec j 0); [lia|]. case_decide as E.
  - subst. apply list_lookup_insert_eq. lia.
  - apply list_lookup_insert_ne. lia.
Qed.

Lemma slot_ne j k r : 0 <= j < 8 -> 0 <= k < 8 -> j <> k -> (j - r) mod 8 <> (k - r) mod 8.
Proof. intros. Z.div_mod_to_equations. lia. Qed.

Lemma u32_add_l x y : u32 (u32 x + y) = u32 (x + y).
Proof. unfold u32, wrapU. by rewrite Z.add_mod_idemp_l by lia. Qed.

Lemma u32_add_r x y : u32 (x + u32 y) = u32 (x + y).
Proof. unfold u32, wrapU. by rewrite Z.add_mod_idemp_r by lia. Qed.

Lemma spec_round_word W v t : vars_word v -> vars_word (spec_round W v t).
Proof.
  unfold vars_word, vars_list, spec_round. destruct v. cbn [va vb vc vd ve vf vg vh].
  rewrite !list.Forall_cons. intros (Ha & Hb & Hc & Hd & He & Hf & Hg & Hh & Hn).
  repeat (split; [first [apply u32_word | done]|]). constructor.
Qed.

(** A round changes two entries of the array; the others change their names. *)
Lemma rotated_step i S v a' e' : 0 <= i -> rotated i S v ->
  rotated (i + 1) (<[Z.to_nat ((7 - i) mod 8) := a']> (<[Z.to_nat ((3 - i) mod 8) := e']> S))
    (mk_vars a' (va v) (vb v) (vc v) e' (ve v) (vf v) (vg v)).
Proof.
  intros Hi [Hl Hr]. pose proof (fun k => Z.mod_pos_bound (k - i) 8 ltac:(lia)) as Hm.
  split; [by rewrite !length_insert|]. intros k Hk.
  assert ((k - (i + 1)) mod 8 = ((k - 1) mod 8 - i) mod 8) as -> by (Z.div_mod_to_equations; lia).
  set (j := (k - 1) mod 8). assert (0 <= j < 8) as Hj by (apply Z.mod_pos_bound; lia).
  rewrite !aget_insert by (rewrite ?length_insert, ?Hl; apply Hm).
  destruct (decide (j = 7)) as [E7|E7].
  { rewrite decide_True by (by rewrite E7). replace k with 0 by (subst j; Z.div_mod_to_equations; lia). done. }
  rewrite decide_False by (by apply slot_ne).
  destruct (decide (j = 3)) as [E3|E3].
  { rewrite decide_True by (by rewrite E3). replace k with 4 by (subst j; Z.div_mod_to_equations; lia). done. }
  rewrite decide_False, Hr by (done || by apply slot_ne). assert (k = j + 1) as Ek by (subst j; Z.div_mod_to_equations; lia).
  clearbody j. subst k.
  assert (j = 0 \/ j = 1 \/ j = 2 \/ j = 4 \/ j = 5 \/ j = 6) as [-> | [-> | [-> | [-> | [-> | ->]]]]] by lia; done.
Qed.

Lemma RND_spec W i S v : 0 <= i < 64 -> length W = 64%nat -> rotated i S v -> vars_word v ->
  exists S', RND W i S = Some S' /\ rotated (i + 1) S' (spec_round W v (Z.to_nat i)).
Proof.
  intros Hi HW Hrot Hv. pose proof Hrot as [Hl Hr]. pose proof (fun k => Z.mod_pos_bound (k - i) 8 ltac:(lia)) as Hm.
  pose proof (rotated_step i S v (va (spec_round W v (Z.to_nat i))) (ve (spec_round W v (Z.to_nat i))) ltac:(lia) Hrot) as Hstep.
  unfold RND. rewrite (aget_nth round_constants i 0), (aget_nth W i 0) by (rewrite ?HW; cbn [length round_constants]; lia).
  cbn [mbind option_bind]. rewrite !Hr by lia.
  change (aget (vars_list v) 0) with (Some (va v)). change (aget (vars_list v) 1) with (Some (vb v)).
  change (aget (vars_list v) 2) with (Some (vc v)). change (aget (vars_list v) 3) with (Some (vd v)).
  change (aget (vars_list v) 4) with (Some (ve v)). change (aget (vars_list v) 5) with (Some (vf v)).
  change (aget (vars_list v) 6) with (Some (vg v)). change (aget (vars_list v) 7) with (Some (vh v)).
  cbn [mbind option_bind]. unfold vars_word, vars_list in Hv. rewrite !list.Forall_cons in Hv.
  destruct Hv as (Ha & _ & _ & _ & He & _).
  destruct (sigmas _ Ha) as (-> & _ & _). destruct (sigmas _ He) as (_ & -> & _). rewrite Ch_ch, Maj_maj.
  rewrite aset_in_range by (rewrite Hl; apply Hm). cbn [mbind option_bind]. rewrite aset_in_range by (rewrite length_insert, Hl; apply Hm).
  rewrite u32_add_l, !u32_add_r. eexists. split; [reflexivity|]. exact Hstep.
Qed.

Lemma rounds_spec W S v : length W = 64%nat -> rotated 0 S v -> vars_word v ->
  exists S', for_ (RND W) 0 64 S = Some S' /\ S' = vars_list (foldl (spec_round W) v (seq 0 64)).
Proof.
  intros HW Hr Hv.
  destruct (for_inv (fun i S => rotated i S (foldl (spec_round W) v (seq 0 (Z.to_nat i))) /\ vars_word (foldl (spec_round W) v (seq 0 (Z.to_nat i))))
    (RND W) 64 0 S) as (S' & -> & [Hl Hr'] & _); [done| |].
  - intros i S0 Hi [H1 H2]. destruct (RND_spec W i S0 _ ltac:(lia) HW H1 H2) as (S' & -> & H'). eexists. split; [done|].
    replace (Z.to_nat (i + 1)) with (Z.to_nat i + 1)%nat by lia. rewrite seq_app, foldl_app. cbn [seq foldl Nat.add].
    split; [done|]. by apply spec_round_word.
  - exists S'. split; [done|]. change (0 + Z.of_nat 64) with 64 in *. change (Z.to_nat 64) with 64%nat in Hr'.
    revert Hr'. generalize (foldl (spec_round W) v (seq 0 64)). intros w Hr'.
    apply list_eq. intros t. destruct (decide (t < 8)%nat).
    + specialize (Hr' (Z.of_nat t) ltac:(lia)). rewrite <- !aget_of_nat, <- Hr'. f_equal. Z.div_mod_to_equations. lia.
    + rewrite !lookup_ge_None_2; [done|cbn; lia|lia].
Qed.

(** ** A block *)

Lemma vars_word_initial : vars_word initial_vars.
Proof. unfold vars_word, vars_list, initial_vars. cbn [va vb vc vd ve vf vg vh]. unfold is_word. change (2 ^ 32) with 4294967296. repeat (constructor; [lia|]). constructor. Qed.

Lemma spec_compress_word v block : vars_word (spec_compress v block).
Proof. unfold vars_word, spec_compress. repeat (constructor; [apply u32_word|]). constructor. Qed.

Lemma rotated_start v : rotated 0 (vars_list v) v.
Proof. split; [done|]. intros k Hk. by rewrite Z.sub_0_r, Z.mod_small by lia. Qed.

Lemma add_states v w : for_ (fun i st => a ← aget st i; s ← aget (vars_list w) i; aset st i (u32 (a + s))) 0 8 (vars_list v)
  = Some [u32 (va v + va w); u32 (vb v + vb w); u32 (vc v + vc w); u32 (vd v + vd w);
          u32 (ve v + ve w); u32 (vf v + vf w); u32 (vg v + vg w); u32 (vh v + vh w)].
Proof. destruct v, w. reflexivity. Qed.

Lemma vcompress_spec md buf off v : bytes buf -> 0 <= off -> off + 64 <= Z.of_nat (length buf) ->
  md_state md = vars_list v -> vars_word v ->
  sha256_vcompress md buf off = Some (md <| md_state := vars_list (spec_compress v (take 64 (drop (Z.to_nat off) buf))) |>).
Proof.
  intros Hb Ho Hl Hs Hv. unfold sha256_vcompress.
  destruct (schedule_spec buf off _ Hb Ho Hl eq_refl) as (W & -> & EW). cbn [mbind option_bind].
  rewrite Hs. change (take 8 (vars_list v)) with (vars_list v).
  destruct (rounds_spec W (vars_list v) v) as (S & -> & ES); [by rewrite EW, words_length|apply rotated_start|done|].
  cbn [mbind option_bind]. rewrite ES, add_states. cbn [mbind option_bind]. unfold spec_compress. by rewrite EW.
Qed.

Lemma spec_blocks_S msg q : spec_blocks msg (S q) = spec_compress (spec_blocks msg q) (block_of msg q).
Proof. unfold spec_blocks. replace (S q) with (q + 1)%nat by lia. by rewrite seq_app, foldl_app. Qed.

Lemma spec_blocks_app msg l q : (64 * q <= length msg)%nat -> spec_blocks (msg ++ l) q = spec_blocks msg q.
Proof.
  induction q as [|q IH]; intros Hq; [done|]. rewrite !spec_blocks_S, IH by lia. f_equal. unfold block_of.
  rewrite skipn_app, take_app_le; [done|]. rewrite length_drop. lia.
Qed.

Lemma spec_blocks_word msg q : vars_word (spec_blocks msg q).
Proof. destruct q; [apply vars_word_initial|]. rewrite spec_blocks_S. apply spec_compress_word. Qed.

(** ** The buffer *)

(** [q] blocks of the message are hashed, the rest of it is in the buffer. *)
Record absorbed (q : nat) (md : sha256_vstate) (msg : list Z) : Prop := {
  ab_state : md_state md = vars_list (spec_blocks msg q);
  ab_curlen : md_curlen md = Z.of_nat (length msg) - 64 * Z.of_nat q;
  ab_range : 0 <= md_curlen md <= 64;
  ab_length : Z.of_nat (length (md_buf md)) = 64;
  ab_bytes : bytes (md_buf md);
  ab_rest : take (Z.to_nat (md_curlen md)) (md_buf md) = drop (64 * q) msg
}.

(** Bytes appended to the buffer. *)
Lemma absorbed_put q md msg l n : absorbed q md msg -> bytes l -> n = Z.of_nat (length l) -> md_curlen md + n <= 64 ->
  absorbed q (md <| md_buf := take (Z.to_nat (md_curlen md)) (md_buf md) ++ l ++ drop (Z.to_nat (md_curlen md + n)) (md_buf md) |>
                 <| md_curlen := md_curlen md + n |>) (msg ++ l).
Proof.
  intros [Hs Hc Hr Hl Hb Hrest] Hbl -> Hle. split; cbn -[Nat.mul Z.mul].
  - by rewrite spec_blocks_app by lia.
  - rewrite length_app. lia.
  - lia.
  - rewrite !length_app, length_take, length_drop. lia.
  - apply Forall_app. split; [by apply Forall_take|]. apply Forall_app. split; [done|by apply Forall_drop].
  - rewrite skipn_app, <- Hrest. replace (64 * q - length msg)%nat with 0%nat by lia. rewrite drop_0, app_assoc, take_app_le.
    + apply firstn_all2. rewrite length_app, length_take. lia.
    + rewrite length_app, length_take. lia.
Qed.

Lemma flush_state q md msg md2 : absorbed q md msg -> md_curlen md = 64 -> md_state md2 = md_state md ->
  sha256_vcompress md2 (md_buf md) 0 = Some (md2 <| md_state := vars_list (spec_blocks msg (S q)) |>).
Proof.
  intros [Hs Hc Hr Hl Hb Hrest] H64 H2. rewrite Hs in H2.
  rewrite (vcompress_spec _ _ _ (spec_blocks msg q)) by (done || lia || apply spec_blocks_word).
  do 2 f_equal. rewrite spec_blocks_S. do 2 f_equal. change (Z.to_nat 0) with 0%nat. rewrite drop_0. unfold block_of.
  rewrite <- Hrest, H64. change (Z.to_nat 64) with 64%nat. by rewrite take_take.
Qed.

Lemma absorbed_flush q md msg : absorbed q md msg -> md_curlen md = 64 ->
  sha256_vcompress md (md_buf md) 0 = Some (md <| md_state := vars_list (spec_blocks msg (S q)) |>).
Proof. intros Ha Hc. by apply (flush_state q md). Qed.

Lemma absorbed_next q md msg : absorbed q md msg -> md_curlen md = 64 ->
  absorbed (S q) (md <| md_state := vars_list (spec_blocks msg (S q)) |> <| md_curlen := 0 |>) msg.
Proof.
  intros [Hs Hc Hr Hl Hb Hrest] H64. split; cbn -[Nat.mul Z.mul]; [done|lia|lia|done|done|]. change (Z.to_nat 0) with 0%nat.
  rewrite drop_ge by lia. done.
Qed.

(** A whole block taken from the input when the buffer is empty. *)
Lemma absorbed_block q md msg block n : absorbed q md msg -> md_curlen md = 0 -> bytes block -> length block = 64%nat ->
  absorbed (S q) (md <| md_state := vars_list (spec_compress (spec_blocks msg q) block) |> <| md_length := n |>) (msg ++ block).
Proof.
  intros [Hs Hc Hr Hl Hb Hrest] H0 Hbb Hlb. assert (length msg = (64 * q)%nat) as Hm by lia.
  split; cbn -[Nat.mul Z.mul vars_list spec_blocks spec_compress]; [|rewrite length_app; lia|lia|done|done|].
  - f_equal. rewrite spec_blocks_S, spec_blocks_app by lia. f_equal. unfold block_of.
    rewrite <- Hm, drop_app_length. symmetry. apply firstn_all2. lia.
  - rewrite H0. symmetry. apply drop_ge. rewrite length_app. lia.
Qed.

Lemma window_split (src : list Z) inp n m : 0 <= inp -> 0 <= n <= m ->
  take (Z.to_nat m) (drop (Z.to_nat inp) src)
  = take (Z.to_nat n) (drop (Z.to_nat inp) src) ++ take (Z.to_nat (m - n)) (drop (Z.to_nat (inp + n)) src).
Proof.
  intros Hi Hn. rewrite <- (take_drop (Z.to_nat n) (drop (Z.to_nat inp) src)) at 1. rewrite drop_drop.
  replace (Z.to_nat inp + Z.to_nat n)%nat with (Z.to_nat (inp + n)) by lia.
  rewrite firstn_app, length_take, take_take, (Nat.min_r (Z.to_nat m) (Z.to_nat n)) by lia.
  destruct (decide (Z.to_nat n <= length (drop (Z.to_nat inp) src))%nat) as [Hle|Hgt].
  - do 2 f_equal. lia.
  - rewrite (drop_ge src (Z.to_nat (inp + n))) by (rewrite length_drop in Hgt; lia). by rewrite !take_nil.
Qed.

Lemma absorbed_same q md msg n : absorbed q md msg -> absorbed q (md <| md_length := n |>) msg.
Proof. intros [Hs Hc Hr Hl Hb Hrest]. by split. Qed.

(** Between calls the buffer is not full and the length counts the hashed blocks. *)
Definition resting (q : nat) (md : sha256_vstate) (msg : list Z) : Prop :=
  absorbed q md msg /\ md_curlen md < 64 /\ md_length md = u64 (512 * Z.of_nat q).

Lemma length_next md q : md_length md = u64 (512 * Z.of_nat q) -> u64 (md_length md + 512) = u64 (512 * Z.of_nat (S q)).
Proof.
  intros ->. unfold u64, wrapU. rewrite Z.add_mod_idemp_l by lia. f_equal. lia.
Qed.

Lemma window_bytes src inp n : bytes src -> bytes (take n (drop inp src)).
Proof. intros. by apply Forall_take, Forall_drop. Qed.

Lemma process_loop_spec fuel : forall q md msg src inp inlen,
  resting q md msg -> bytes src -> 0 <= inp -> 0 <= inlen < Z.of_nat fuel -> inp + inlen <= Z.of_nat (length src) ->
  exists q' md', process_loop fuel md src inp inlen = Some md' /\
    resting q' md' (msg ++ take (Z.to_nat inlen) (drop (Z.to_nat inp) src)).
Proof.
  induction fuel as [|fuel IH]; intros q md msg src inp inlen (Ha & Hc & Hlen) Hb Hi Hf Hs; [lia|].
  pose proof (ab_range _ _ _ Ha) as Hcr. cbn [process_loop]. destruct (Z.ltb_spec 0 inlen) as [Hp|Hz].
  2:{ replace inlen with 0 by lia. exists q, md. split; [done|]. by rewrite app_nil_r. }
  destruct (Z.eqb_spec (md_curlen md) 0) as [H0|H0], (Z.leb_spec 64 inlen) as [H64|H64]; cbn [andb].
  1:{ assert (length (take 64 (drop (Z.to_nat inp) src)) = 64%nat) as Hlb by (rewrite length_take, length_drop; lia).
    rewrite (vcompress_spec _ _ _ (spec_blocks msg q)) by (done || lia || apply Ha || apply spec_blocks_word).
    cbn [mbind option_bind]. rewrite (window_split src inp 64 inlen), app_assoc by lia. change (Z.to_nat 64) with 64%nat.
    apply (IH (S q)); [|done|lia..]. split; [apply absorbed_block; [done|done|by apply window_bytes|done]|]. split; [done|].
    cbn -[Z.mul]. change (64 * 8) with 512. by apply length_next. }
  all: set (n := if inlen <? 64 - md_curlen md then inlen else 64 - md_curlen md).
  all: assert (0 < n <= inlen /\ md_curlen md + n <= 64) as Hn by (subst n; destruct (Z.ltb_spec inlen (64 - md_curlen md)); lia); clearbody n.
  all: rewrite memcpy_eq by (rewrite ?(ab_length _ _ _ Ha); lia); cbn [mbind option_bind].
  all: assert (u32 (md_curlen md + n) = md_curlen md + n) as -> by (apply u32_small; lia).
  all: assert (length (take (Z.to_nat n) (drop (Z.to_nat inp) src)) = Z.to_nat n) as Hln by (rewrite length_take, length_drop; lia).
  all: pose proof (absorbed_put q md msg (take (Z.to_nat n) (drop (Z.to_nat inp) src)) n Ha ltac:(by apply window_bytes) ltac:(lia) ltac:(lia)) as Hput.
  all: rewrite (window_split src inp n inlen), (app_assoc msg) by lia.
  all: match type of Hput with absorbed _ ?m _ => change (md_length md) with (md_length m) in Hlen; set (md2 := m) in *; assert (md_curlen md2 = md_curlen md + n) as Hc2 by done; clearbody md2 end.
  all: destruct (Z.eqb_spec (md_curlen md2) 64) as [Hfull|Hfull];
    [|apply (IH q); [split; [done|split; [lia|done]]|done|lia..]].
  all: rewrite (absorbed_flush _ _ _ Hput Hfull); cbn [mbind option_bind].
  all: apply (IH (S q)); [|done|lia..].
  all: split; [|split; [done|cbn -[Z.mul]; change (8 * 64) with 512; by apply length_next]].
  all: apply (absorbed_same _ _ _ _ (absorbed_next _ _ _ Hput Hfull)).
Qed.

Lemma vprocess_spec q md msg src inlen : resting q md msg -> bytes src -> 0 <= inlen <= Z.of_nat (length src) ->
  exists q' md', sha256_vprocess md src inlen = Some (md', 0) /\ resting q' md' (msg ++ take (Z.to_nat inlen) src).
Proof.
  intros Hr Hb Hi. unfold sha256_vprocess. destruct (Z.ltb_spec 64 (md_curlen md)) as [H|_]; [destruct Hr as (_ & ? & _); lia|].
  destruct (process_loop_spec (Z.to_nat inlen + 1) q md msg src 0 inlen Hr Hb) as (q' & md' & -> & Hr'); [lia..|].
  exists q', md'. done.
Qed.

(** ** The last blocks *)

Lemma aset_split (buf : list Z) i x : 0 <= i < Z.of_nat (length buf) ->
  aset buf i x = Some (take (Z.to_nat i) buf ++ [x] ++ drop (Z.to_nat (i + 1)) buf).
Proof.
  intros Hi. rewrite aset_in_range by done. f_equal. rewrite insert_take_drop by lia. do 2 f_equal.
  replace (Z.to_nat (i + 1)) with (S (Z.to_nat i)) by lia. done.
Qed.

Lemma absorbed_byte q md msg x : absorbed q md msg -> md_curlen md < 64 -> is_byte x ->
  exists buf, aset (md_buf md) (md_curlen md) x = Some buf /\
    absorbed q (md <| md_buf := buf |> <| md_curlen := md_curlen md + 1 |>) (msg ++ [x]).
Proof.
  intros Ha Hc Hx. pose proof (ab_range _ _ _ Ha). rewrite aset_split by (rewrite (ab_length _ _ _ Ha); lia).
  eexists. split; [reflexivity|]. apply absorbed_put; [done|by apply Forall_singleton|done|lia].
Qed.

Lemma zeros_to_spec q md msg n : absorbed q md msg -> md_curlen md <= n <= 64 ->
  exists md', zeros_to n md = Some md' /\ md_curlen md' = n /\ md_length md' = md_length md /\
    absorbed q md' (msg ++ replicate (Z.to_nat (n - md_curlen md)) 0).
Proof.
  intros Ha Hn. unfold zeros_to.
  destruct (for_inv (fun i buf => absorbed q (md <| md_buf := buf |> <| md_curlen := i |>) (msg ++ replicate (Z.to_nat (i - md_curlen md)) 0))
    (fun i buf => aset buf i 0) (Z.to_nat (n - md_curlen md)) (md_curlen md) (md_buf md)) as (buf & -> & H).
  - rewrite Z.sub_diag. change (Z.to_nat 0) with 0%nat. cbn [replicate]. rewrite app_nil_r. destruct Ha. by split.
  - intros i buf Hi Hb. destruct (absorbed_byte q _ _ 0 Hb) as (buf' & E & Hb'); [cbn; lia|unfold is_byte; lia|].
    cbn in E. exists buf'. split; [done|]. replace (Z.to_nat (i + 1 - md_curlen md)) with (Z.to_nat (i - md_curlen md) + 1)%nat by lia.
    rewrite replicate_add, app_assoc. exact Hb'.
  - cbn [mbind option_bind]. replace (md_curlen md + Z.of_nat (Z.to_nat (n - md_curlen md))) with n in H by lia.
    eexists. split; [reflexivity|]. cbn. rewrite Z.max_r by lia. done.
Qed.

Lemma be_bytes_length n x : length (be_bytes n x) = n.
Proof. induction n; cbn [be_bytes length]; congruence. Qed.

Lemma be_bytes_bytes n x : bytes (be_bytes n x).
Proof.
  induction n; cbn [be_bytes]; [constructor|]. constructor; [|done]. apply Z.mod_pos_bound. lia.
Qed.

Lemma store_all l : l ≫= STORE32H = l ≫= be_bytes 4.
Proof. induction l as [|x l IH]; [done|]. cbn [mbind list_bind]. by rewrite STORE32H_spec, IH. Qed.

(** The last block: eight bytes of length. *)
Lemma vdone_last q md msg n : absorbed q md msg -> md_curlen md = 56 -> md_length md = u64 n ->
  (buf ← memcpy (md_buf md) 56 (STORE64H (md_length md)) 0 8;
   let md := md <| md_buf := buf |> in
   md ← sha256_vcompress md (md_buf md) 0;
   Some (Some (md_state md ≫= STORE32H)))
  = Some (Some (vars_list (spec_blocks (msg ++ be_bytes 8 n) (S q)) ≫= be_bytes 4))
  /\ length (msg ++ be_bytes 8 n) = (64 * S q)%nat.
Proof.
  intros Ha H56 Hlen. assert (STORE64H (md_length md) = be_bytes 8 n) as ->.
  { rewrite STORE64H_spec, Hlen. unfold u64, wrapU. change (2 ^ 64) with (256 ^ Z.of_nat 8). apply be_bytes_mod. }
  pose proof (absorbed_put q md msg (be_bytes 8 n) 8 Ha (be_bytes_bytes _ _) ltac:(by rewrite be_bytes_length) ltac:(lia)) as Hput.
  pose proof (ab_curlen _ _ _ Hput : md_curlen md + 8 = _) as Hc. pose proof (ab_length _ _ _ Ha) as Hl.
  rewrite memcpy_eq by (rewrite ?be_bytes_length; lia). rewrite H56 in Hput, Hc. cbn [mbind option_bind].
  rewrite (firstn_all2 (n:=Z.to_nat 8)) by (rewrite length_drop, be_bytes_length; lia). change (Z.to_nat 0) with 0%nat. rewrite drop_0.
  match goal with |- context [sha256_vcompress ?m ?b 0] =>
    rewrite (flush_state _ _ _ m Hput eq_refl eq_refl : sha256_vcompress m b 0 = _) end.
  cbn [mbind option_bind]. split; [|lia].
  by rewrite store_all.
Qed.

Lemma vdone_spec q md msg : resting q md msg -> sha256_vdone md = Some (Some (sha256 msg)).
Proof.
  intros (Ha & Hc & Hlen). pose proof (ab_range _ _ _ Ha) as Hr. pose proof (ab_curlen _ _ _ Ha) as Hcl.
  unfold sha256_vdone. destruct (Z.leb_spec 64 (md_curlen md)); [lia|].
  assert (u64 (md_length md + u32 (md_curlen md * 8)) = u64 (8 * Z.of_nat (length msg))) as Hbits.
  { rewrite Hlen, u32_small by lia. unfold u64, wrapU. rewrite Z.add_mod_idemp_l by lia. f_equal. lia. }
  rewrite Hbits. set (md1 := md <| md_length := u64 (8 * Z.of_nat (length msg)) |>).
  pose proof (absorbed_same _ _ _ (u64 (8 * Z.of_nat (length msg))) Ha : absorbed q md1 msg) as Ha1.
  destruct (absorbed_byte q md1 msg 0x80 Ha1) as (buf & -> & Hb); [done|unfold is_byte; lia|].
  cbn [mbind option_bind]. match type of Hb with absorbed _ ?m _ => set (md2 := m) in * end.
  assert (md_length md2 = u64 (8 * Z.of_nat (length msg))) as Hl2 by done.
  assert (md_curlen md2 = md_curlen md + 1) as Hc2 by done.
  change (md_curlen md1 + 1) with (md_curlen md2). clearbody md2.
  unfold sha256, padding. destruct (Z.ltb_spec 56 (md_curlen md2)) as [Hbig|Hsmall].
  - destruct (zeros_to_spec q md2 _ 64 Hb) as (md3 & -> & Hc3 & Hl3 & Ha3); [lia|]. cbn [mbind option_bind].
    rewrite (absorbed_flush _ _ _ Ha3 Hc3). cbn [mbind option_bind].
    pose proof (absorbed_next _ _ _ Ha3 Hc3) as Ha4. match type of Ha4 with absorbed _ ?m _ => set (md4 := m) in * end.
    assert (md_length md4 = md_length md3) as Hl4 by done. assert (md_curlen md4 = 0) as Hc4 by done. clearbody md4.
    destruct (zeros_to_spec _ md4 _ 56 Ha4) as (md5 & -> & Hc5 & Hl5 & Ha5); [lia|]. cbn [mbind option_bind].
    destruct (vdone_last _ md5 _ (8 * Z.of_nat (length msg)) Ha5 Hc5) as [E5 Hlast]; [congruence|].
    etransitivity; [exact E5|]. clear E5.
    assert (((msg ++ [128]) ++ replicate (Z.to_nat (64 - md_curlen md2)) 0) ++ replicate (Z.to_nat (56 - md_curlen md4)) 0
      = msg ++ 128 :: replicate (Z.to_nat ((55 - Z.of_nat (length msg)) mod 64)) 0) as E.
    { rewrite <- !app_assoc, <- replicate_add. cbn [app]. do 3 f_equal. Z.div_mod_to_equations. lia. }
    rewrite E, <- app_assoc, <- app_comm_cons in Hlast |- *. do 2 f_equal. rewrite Hlast, Nat.mul_comm, Nat.div_mul by lia. done.
  - cbn [mbind option_bind]. destruct (zeros_to_spec _ md2 _ 56 Hb) as (md5 & -> & Hc5 & Hl5 & Ha5); [lia|]. cbn [mbind option_bind].
    destruct (vdone_last _ md5 _ (8 * Z.of_nat (length msg)) Ha5 Hc5) as [E5 Hlast]; [congruence|].
    etransitivity; [exact E5|]. clear E5.
    assert ((msg ++ [128]) ++ replicate (Z.to_nat (56 - md_curlen md2)) 0
      = msg ++ 128 :: replicate (Z.to_nat ((55 - Z.of_nat (length msg)) mod 64)) 0) as E.
    { rewrite <- !app_assoc. cbn [app]. do 3 f_equal. Z.div_mod_to_equations. lia. }
    rewrite E, <- app_assoc, <- app_comm_cons in Hlast |- *. do 2 f_equal. rewrite Hlast, Nat.mul_comm, Nat.div_mul by lia. done.
Qed.

Lemma vinit_resting md : length (md_buf md) = 64%nat -> bytes (md_buf md) -> resting 0 (sha256_vinit md) [].
Proof. intros Hl Hb. split; [|done]. split; cbn; (done || lia). Qed.

Lemma vprocess_all q md msg src : resting q md msg -> bytes src -> Z.of_nat (length src) < 2 ^ 31 ->
  exists q' md', sha256_vprocess md src (u64 (Z.of_nat (length src))) = Some (md', 0) /\ resting q' md' (msg ++ src).
Proof.
  intros Hr Hb Hl. rewrite u64_small by lia. destruct (vprocess_spec q md msg src (Z.of_nat (length src)) Hr Hb) as (q' & md' & E & Hr'); [lia|].
  exists q', md'. split; [done|]. rewrite Nat2Z.id, firstn_all in Hr'. done.
Qed.

(** ** The functions of the program *)

(** C15: the hash of an input that fits [int32_t], and of two of them one after the
    other, is the SHA-256 of FIPS 180-4 of the bytes, whatever the stack held before
    the call. *)
Theorem vcalc_sha256_spec md src src2 :
  length (md_buf md) = 64%nat -> bytes (md_buf md) -> bytes src -> bytes src2 ->
  Z.of_nat (length src) < 2 ^ 31 -> Z.of_nat (length src2) < 2 ^ 31 ->
  vcalc_sha256 md src (Z.of_nat (length src)) = Some (Some (sha256 src)) /\
  vcalc_sha256cat md src (Z.of_nat (length src)) None 0 = Some (Some (sha256 src)) /\
  vcalc_sha256cat md src (Z.of_nat (length src)) (Some src2) (Z.of_nat (length src2)) = Some (Some (sha256 (src ++ src2))).
Proof.
  intros Hl Hb Hs Hs2 Hn Hn2. unfold vcalc_sha256, vcalc_sha256cat.
  destruct (vprocess_all 0 (sha256_vinit md) [] src (vinit_resting _ Hl Hb) Hs Hn) as (q & md1 & -> & Hr). cbn [mbind option_bind].
  cbn [app] in Hr. rewrite (vdone_spec _ _ _ Hr). split; [done|]. split; [done|].
  destruct (vprocess_all q md1 src src2 Hr Hs2 Hn2) as (q2 & md2 & -> & Hr2).
  cbn [mbind option_bind fmap option_fmap option_map fst]. exact (vdone_spec _ _ _ Hr2).
Qed.

Lemma vcalc_sha256_spec_witness :
  let md := mk_vstate 7 [1; 2] 99 (replicate 64 165) in
  vcalc_sha256 md [97] 1 = Some (Some (sha256 [97])) /\
  vcalc_sha256cat md [97] 1 None 0 = Some (Some (sha256 [97])) /\
  vcalc_sha256cat md [97] 1 (Some [98; 99]) 2 = Some (Some (sha256 ([97] ++ [98; 99]))).
Proof.
  intros md. apply (vcalc_sha256_spec md [97] [98; 99]); try (cbn; lia); try done; repeat (constructor; [unfold is_byte; lia|]); constructor.
Defined.

Lemma vupdate_start state0 state hash : vupdate_sha256 state0 None 0 = Some (state, hash) ->
  hash = Some (sha256 []) /\ resting 0 state [].
Proof.
  pose proof (vinit_resting (mk_vstate 0 (replicate 8 0) 0 (replicate 64 0)) eq_refl ltac:(by apply Forall_replicate)) as Hr.
  revert Hr. unfold vupdate_sha256. generalize (sha256_vinit (mk_vstate 0 (replicate 8 0) 0 (replicate 64 0))). intros md Hr H.
  cbn [mbind option_bind] in H. rewrite (vdone_spec _ _ _ Hr) in H. cbn [mbind option_bind] in H. injection H as <- <-. done.
Qed.

Lemma vupdate_starts state0 : exists state hash, vupdate_sha256 state0 None 0 = Some (state, hash).
Proof.
  pose proof (vinit_resting (mk_vstate 0 (replicate 8 0) 0 (replicate 64 0)) eq_refl ltac:(by apply Forall_replicate)) as Hr.
  revert Hr. unfold vupdate_sha256. generalize (sha256_vinit (mk_vstate 0 (replicate 8 0) 0 (replicate 64 0))). intros md Hr.
  cbn [mbind option_bind]. rewrite (vdone_spec _ _ _ Hr). eexists _, _. reflexivity.
Qed.

(** Hashes after each piece of an input given piece by piece. *)
Fixpoint vupdates (state : sha256_vstate) (pieces : list (list Z)) : option (list (option (list Z))) :=
  match pieces with
  | [] => Some []
  | p :: pieces =>
      '(state, hash) ← vupdate_sha256 state (Some p) (Z.of_nat (length p));
      hashes ← vupdates state pieces; Some (hash :: hashes)
  end.

(** The messages hashed after each piece. *)
Fixpoint prefixes (msg : list Z) (pieces : list (list Z)) : list (list Z) :=
  match pieces with [] => [] | p :: pieces => (msg ++ p) :: prefixes (msg ++ p) pieces end.

Lemma vupdates_resting pieces : Forall (fun p => bytes p /\ Z.of_nat (length p) < 2 ^ 31) pieces ->
  forall q state msg, resting q state msg -> vupdates state pieces = Some (Some ∘ sha256 <$> prefixes msg pieces).
Proof.
  induction 1 as [|p pieces [Hb Hl] _ IH]; intros q state msg Hr; [done|]. cbn [vupdates]. unfold vupdate_sha256.
  destruct (vprocess_all q state msg p Hr Hb Hl) as (q2 & md2 & -> & Hr2). cbn [mbind option_bind fmap option_fmap option_map fst].
  rewrite (vdone_spec _ _ _ Hr2). cbn [mbind option_bind]. by rewrite (IH _ _ _ Hr2).
Qed.

(** a state started by a call without input and updated with any pieces gives after
    each piece the SHA-256 of everything so far: finishing a copy leaves the state
    ready for the next piece. *)
Theorem vupdate_sha256_pieces state0 state hash pieces :
  vupdate_sha256 state0 None 0 = Some (state, hash) ->
  Forall (fun p => bytes p /\ Z.of_nat (length p) < 2 ^ 31) pieces ->
  hash = Some (sha256 []) /\ vupdates state pieces = Some (Some ∘ sha256 <$> prefixes [] pieces).
Proof.
  intros H Hp. destruct (vupdate_start _ _ _ H) as [-> Hr]. split; [done|]. by apply (vupdates_resting _ Hp 0).
Qed.

Lemma vupdate_sha256_pieces_witness :
  exists state hash, vupdate_sha256 (mk_vstate 0 [] 0 []) None 0 = Some (state, hash) /\
    hash = Some (sha256 []) /\ vupdates state [[97; 98]; [99]] = Some (Some ∘ sha256 <$> prefixes [] [[97; 98]; [99]]).
Proof.
  destruct (vupdate_starts (mk_vstate 0 [] 0 [])) as (state & hash & E). exists state, hash. split; [exact E|].
  apply (vupdate_sha256_pieces _ _ _ [[97; 98]; [99]] E).
  repeat (constructor; [split; [repeat (constructor; [unfold is_byte; lia|]); constructor|cbn; lia]|]). constructor.
Defined.
