(* ===== verification/Donna.v ===== *)
(** * Donna: the field and the ladder in ten signed limbs

    Models [plugins/utils/curve25519-donna.c]: numbers modulo [p = 2^255 - 19] as ten
    signed 64-bit limbs of 26 and 25 bits in turn, the ladder on them, and the functions
    the cards use: [fmul_donna], [crecip_donna], [xoverz_donna].  Every sum, product and
    shift wraps to its type, as the compilers the code is built with define it, and each
    operation is shown to compute the operation modulo [p].  One shift does leave its
    type ([put_limbs]).  The names that also exist in
    [curve25519.c] end in [32], as the file itself does for [fmul32] and others. *)

From S2P Require Import Prelude Cards Field25519 Ladder.

(** [limb[10]]; and the 19 limbs of a product. *)
Record limbs := mk_limbs { g0 : Z; g1 : Z; g2 : Z; g3 : Z; g4 : Z; g5 : Z; g6 : Z; g7 : Z; g8 : Z; g9 : Z }.

Record long := mk_long {
  o0 : Z; o1 : Z; o2 : Z; o3 : Z; o4 : Z; o5 : Z; o6 : Z; o7 : Z; o8 : Z; o9 : Z;
  o10 : Z; o11 : Z; o12 : Z; o13 : Z; o14 : Z; o15 : Z; o16 : Z; o17 : Z; o18 : Z }.

Definition fsum32 (output inp : limbs) : limbs :=
  mk_limbs (s64 (g0 output + g0 inp)) (s64 (g1 output + g1 inp)) (s64 (g2 output + g2 inp)) (s64 (g3 output + g3 inp))
    (s64 (g4 output + g4 inp)) (s64 (g5 output + g5 inp)) (s64 (g6 output + g6 inp)) (s64 (g7 output + g7 inp))
    (s64 (g8 output + g8 inp)) (s64 (g9 output + g9 inp)).

(** The new contents of [output]. *)
Definition fdifference_backwards32 (output inp : limbs) : limbs :=
  mk_limbs (s64 (g0 inp - g0 output)) (s64 (g1 inp - g1 output)) (s64 (g2 inp - g2 output)) (s64 (g3 inp - g3 output))
    (s64 (g4 inp - g4 output)) (s64 (g5 inp - g5 output)) (s64 (g6 inp - g6 output)) (s64 (g7 inp - g7 output))
    (s64 (g8 inp - g8 output)) (s64 (g9 inp - g9 output)).

Definition fscalar_product32 (inp : limbs) (scalar : Z) : limbs :=
  mk_limbs (s64 (g0 inp * scalar)) (s64 (g1 inp * scalar)) (s64 (g2 inp * scalar)) (s64 (g3 inp * scalar))
    (s64 (g4 inp * scalar)) (s64 (g5 inp * scalar)) (s64 (g6 inp * scalar)) (s64 (g7 inp * scalar))
    (s64 (g8 inp * scalar)) (s64 (g9 inp * scalar)).

(** Sums of products, which wrap as a whole. *)
Definition fproduct (in2 inp : limbs) : long :=
  let a0 := s32 (g0 in2) in let a1 := s32 (g1 in2) in let a2 := s32 (g2 in2) in let a3 := s32 (g3 in2) in let a4 := s32 (g4 in2) in
  let a5 := s32 (g5 in2) in let a6 := s32 (g6 in2) in let a7 := s32 (g7 in2) in let a8 := s32 (g8 in2) in let a9 := s32 (g9 in2) in
  let b0 := s32 (g0 inp) in let b1 := s32 (g1 inp) in let b2 := s32 (g2 inp) in let b3 := s32 (g3 inp) in let b4 := s32 (g4 inp) in
  let b5 := s32 (g5 inp) in let b6 := s32 (g6 inp) in let b7 := s32 (g7 inp) in let b8 := s32 (g8 inp) in let b9 := s32 (g9 inp) in
  mk_long
    (s64 (a0 * b0))
    (s64 (a0 * b1 + a1 * b0))
    (s64 (2 * a1 * b1 + a0 * b2 + a2 * b0))
    (s64 (a1 * b2 + a2 * b1 + a0 * b3 + a3 * b0))
    (s64 (a2 * b2 + 2 * (a1 * b3 + a3 * b1) + a0 * b4 + a4 * b0))
    (s64 (a2 * b3 + a3 * b2 + a1 * b4 + a4 * b1 + a0 * b5 + a5 * b0))
    (s64 (2 * (a3 * b3 + a1 * b5 + a5 * b1) + a2 * b4 + a4 * b2 + a0 * b6 + a6 * b0))
    (s64 (a3 * b4 + a4 * b3 + a2 * b5 + a5 * b2 + a1 * b6 + a6 * b1 + a0 * b7 + a7 * b0))
    (s64 (a4 * b4 + 2 * (a3 * b5 + a5 * b3 + a1 * b7 + a7 * b1) + a2 * b6 + a6 * b2 + a0 * b8 + a8 * b0))
    (s64 (a4 * b5 + a5 * b4 + a3 * b6 + a6 * b3 + a2 * b7 + a7 * b2 + a1 * b8 + a8 * b1 + a0 * b9 + a9 * b0))
    (s64 (2 * (a5 * b5 + a3 * b7 + a7 * b3 + a1 * b9 + a9 * b1) + a4 * b6 + a6 * b4 + a2 * b8 + a8 * b2))
    (s64 (a5 * b6 + a6 * b5 + a4 * b7 + a7 * b4 + a3 * b8 + a8 * b3 + a2 * b9 + a9 * b2))
    (s64 (a6 * b6 + 2 * (a5 * b7 + a7 * b5 + a3 * b9 + a9 * b3) + a4 * b8 + a8 * b4))
    (s64 (a6 * b7 + a7 * b6 + a5 * b8 + a8 * b5 + a4 * b9 + a9 * b4))
    (s64 (2 * (a7 * b7 + a5 * b9 + a9 * b5) + a6 * b8 + a8 * b6))
    (s64 (a7 * b8 + a8 * b7 + a6 * b9 + a9 * b6))
    (s64 (a8 * b8 + 2 * (a7 * b9 + a9 * b7)))
    (s64 (a8 * b9 + a9 * b8))
    (s64 (2 * a9 * b9)).

(** [x += y << 4; x += y << 1; x += y]. *)
Definition add19 (x y : Z) : Z := s64 (s64 (s64 (x + s64 (Z.shiftl y 4)) + s64 (Z.shiftl y 1)) + y).

(** The first ten limbs; the others are not read any more. *)
Definition freduce_degree (output : long) : limbs :=
  mk_limbs (add19 (o0 output) (o10 output)) (add19 (o1 output) (o11 output)) (add19 (o2 output) (o12 output))
    (add19 (o3 output) (o13 output)) (add19 (o4 output) (o14 output)) (add19 (o5 output) (o15 output))
    (add19 (o6 output) (o16 output)) (add19 (o7 output) (o17 output)) (add19 (o8 output) (o18 output)) (o9 output).

Definition div_by_2_26 (v : Z) : Z :=
  let highword := u32 (Z.shiftr (u64 v) 32) in
  let sign := Z.shiftr (s32 highword) 31 in
  let roundoff := s32 (Z.shiftr (u32 sign) 6) in
  Z.shiftr (s64 (v + roundoff)) 26.

Definition div_by_2_25 (v : Z) : Z :=
  let highword := u32 (Z.shiftr (u64 v) 32) in
  let sign := Z.shiftr (s32 highword) 31 in
  let roundoff := s32 (Z.shiftr (u32 sign) 7) in
  Z.shiftr (s64 (v + roundoff)) 25.

(** A limb after [output[i] -= over << 26], and [over]. *)
Definition split_26 (v : Z) : Z * Z := let over := div_by_2_26 v in (s64 (v - s64 (Z.shiftl over 26)), over).
Definition split_25 (v : Z) : Z * Z := let over := div_by_2_25 v in (s64 (v - s64 (Z.shiftl over 25)), over).

(** The limb [output[10]] is [over] at the end of the loop. *)
Definition freduce_coefficients (output : limbs) : limbs :=
  let '(r0, over) := split_26 (g0 output) in
  let '(r1, over) := split_25 (s64 (g1 output + over)) in
  let '(r2, over) := split_26 (s64 (g2 output + over)) in
  let '(r3, over) := split_25 (s64 (g3 output + over)) in
  let '(r4, over) := split_26 (s64 (g4 output + over)) in
  let '(r5, over) := split_25 (s64 (g5 output + over)) in
  let '(r6, over) := split_26 (s64 (g6 output + over)) in
  let '(r7, over) := split_25 (s64 (g7 output + over)) in
  let '(r8, over) := split_26 (s64 (g8 output + over)) in
  let '(r9, over) := split_25 (s64 (g9 output + over)) in
  let '(r0, over) := split_26 (add19 r0 over) in
  mk_limbs r0 (s64 (r1 + over)) r2 r3 r4 r5 r6 r7 r8 r9.

Definition fmul32 (inp in2 : limbs) : limbs := freduce_coefficients (freduce_degree (fproduct inp in2)).

Definition fsquare_inner (inp : limbs) : long :=
  let a0 := s32 (g0 inp) in let a1 := s32 (g1 inp) in let a2 := s32 (g2 inp) in let a3 := s32 (g3 inp) in let a4 := s32 (g4 inp) in
  let a5 := s32 (g5 inp) in let a6 := s32 (g6 inp) in let a7 := s32 (g7 inp) in let a8 := s32 (g8 inp) in let a9 := s32 (g9 inp) in
  mk_long
    (s64 (a0 * a0))
    (s64 (2 * a0 * a1))
    (s64 (2 * (a1 * a1 + a0 * a2)))
    (s64 (2 * (a1 * a2 + a0 * a3)))
    (s64 (a2 * a2 + 4 * a1 * a3 + 2 * a0 * a4))
    (s64 (2 * (a2 * a3 + a1 * a4 + a0 * a5)))
    (s64 (2 * (a3 * a3 + a2 * a4 + a0 * a6 + 2 * a1 * a5)))
    (s64 (2 * (a3 * a4 + a2 * a5 + a1 * a6 + a0 * a7)))
    (s64 (a4 * a4 + 2 * (a2 * a6 + a0 * a8 + 2 * (a1 * a7 + a3 * a5))))
    (s64 (2 * (a4 * a5 + a3 * a6 + a2 * a7 + a1 * a8 + a0 * a9)))
    (s64 (2 * (a5 * a5 + a4 * a6 + a2 * a8 + 2 * (a3 * a7 + a1 * a9))))
    (s64 (2 * (a5 * a6 + a4 * a7 + a3 * a8 + a2 * a9)))
    (s64 (a6 * a6 + 2 * (a4 * a8 + 2 * (a5 * a7 + a3 * a9))))
    (s64 (2 * (a6 * a7 + a5 * a8 + a4 * a9)))
    (s64 (2 * (a7 * a7 + a6 * a8 + 2 * a5 * a9)))
    (s64 (2 * (a7 * a8 + a6 * a9)))
    (s64 (a8 * a8 + 4 * a7 * a9))
    (s64 (2 * a8 * a9))
    (s64 (2 * a9 * a9)).

Definition fsquare (inp : limbs) : limbs := freduce_coefficients (freduce_degree (fsquare_inner inp)).

(** [F(n, start, shift, mask)] of [fexpand32]. *)
Definition expand_limb (input : list Z) (start shift mask : Z) : option Z :=
  b0 ← aget input start; b1 ← aget input (start + 1); b2 ← aget input (start + 2); b3 ← aget input (start + 3);
  Some (Z.land (Z.shiftr (Z.lor (Z.lor (Z.lor b0 (Z.shiftl b1 8)) (Z.shiftl b2 16)) (Z.shiftl b3 24)) shift) mask).

Definition fexpand32 (input : list Z) : option limbs :=
  x0 ← expand_limb input 0 0 0x3ffffff; x1 ← expand_limb input 3 2 0x1ffffff;
  x2 ← expand_limb input 6 3 0x3ffffff; x3 ← expand_limb input 9 5 0x1ffffff;
  x4 ← expand_limb input 12 6 0x3ffffff; x5 ← expand_limb input 16 0 0x1ffffff;
  x6 ← expand_limb input 19 1 0x3ffffff; x7 ← expand_limb input 22 3 0x1ffffff;
  x8 ← expand_limb input 25 4 0x3ffffff; x9 ← expand_limb input 28 6 0x1ffffff;
  Some (mk_limbs x0 x1 x2 x3 x4 x5 x6 x7 x8 x9).

Definition s32_eq (a b : Z) : Z :=
  let a := Z.lnot (Z.lxor a b) in
  let a := Z.land a (s32 (Z.shiftl a 16)) in
  let a := Z.land a (s32 (Z.shiftl a 8)) in
  let a := Z.land a (s32 (Z.shiftl a 4)) in
  let a := Z.land a (s32 (Z.shiftl a 2)) in
  let a := Z.land a (s32 (Z.shiftl a 1)) in
  Z.shiftr a 31.

Definition s32_gte (a b : Z) : Z := Z.lnot (Z.shiftr (s32 (a - b)) 31).

(** One limb of the borrow passes of [fcontract32], of [w] bits: its new value, and
    [carry], which the next limb loses. *)
Definition borrow (w x : Z) : Z * Z :=
  let mask := Z.shiftr x 31 in
  let carry := s32 (- Z.shiftr (Z.land x mask) w) in
  (s32 (x + s32 (Z.shiftl carry w)), carry).

Definition borrow_pass (x : limbs) : limbs :=
  let '(x0, carry) := borrow 26 (g0 x) in
  let '(x1, carry) := borrow 25 (s32 (g1 x - carry)) in
  let '(x2, carry) := borrow 26 (s32 (g2 x - carry)) in
  let '(x3, carry) := borrow 25 (s32 (g3 x - carry)) in
  let '(x4, carry) := borrow 26 (s32 (g4 x - carry)) in
  let '(x5, carry) := borrow 25 (s32 (g5 x - carry)) in
  let '(x6, carry) := borrow 26 (s32 (g6 x - carry)) in
  let '(x7, carry) := borrow 25 (s32 (g7 x - carry)) in
  let '(x8, carry) := borrow 26 (s32 (g8 x - carry)) in
  let '(x9, carry) := borrow 25 (s32 (g9 x - carry)) in
  mk_limbs (s32 (x0 - s32 (carry * 19))) x1 x2 x3 x4 x5 x6 x7 x8 x9.

(** One limb of the carry passes. *)
Definition carry_limb (w mask x : Z) : Z * Z := (Z.land x mask, Z.shiftr x w).

Definition carry_pass (x : limbs) : limbs :=
  let '(x0, carry) := carry_limb 26 0x3ffffff (g0 x) in
  let '(x1, carry) := carry_limb 25 0x1ffffff (s32 (g1 x + carry)) in
  let '(x2, carry) := carry_limb 26 0x3ffffff (s32 (g2 x + carry)) in
  let '(x3, carry) := carry_limb 25 0x1ffffff (s32 (g3 x + carry)) in
  let '(x4, carry) := carry_limb 26 0x3ffffff (s32 (g4 x + carry)) in
  let '(x5, carry) := carry_limb 25 0x1ffffff (s32 (g5 x + carry)) in
  let '(x6, carry) := carry_limb 26 0x3ffffff (s32 (g6 x + carry)) in
  let '(x7, carry) := carry_limb 25 0x1ffffff (s32 (g7 x + carry)) in
  let '(x8, carry) := carry_limb 26 0x3ffffff (s32 (g8 x + carry)) in
  let '(x9, carry) := carry_limb 25 0x1ffffff (s32 (g9 x + carry)) in
  mk_limbs (s32 (x0 + s32 (19 * carry))) x1 x2 x3 x4 x5 x6 x7 x8 x9.

(** All ones if the limbs are at least those of [p]. *)
Definition ge_p_mask (x : limbs) : Z :=
  let mask := s32_gte (g0 x) 0x3ffffed in
  let mask := Z.land mask (s32_eq (g1 x) 0x1ffffff) in let mask := Z.land mask (s32_eq (g2 x) 0x3ffffff) in
  let mask := Z.land mask (s32_eq (g3 x) 0x1ffffff) in let mask := Z.land mask (s32_eq (g4 x) 0x3ffffff) in
  let mask := Z.land mask (s32_eq (g5 x) 0x1ffffff) in let mask := Z.land mask (s32_eq (g6 x) 0x3ffffff) in
  let mask := Z.land mask (s32_eq (g7 x) 0x1ffffff) in let mask := Z.land mask (s32_eq (g8 x) 0x3ffffff) in
  Z.land mask (s32_eq (g9 x) 0x1ffffff).

Definition subtract_p (x : limbs) : limbs :=
  let mask := ge_p_mask x in
  mk_limbs (s32 (g0 x - Z.land mask 0x3ffffed)) (s32 (g1 x - Z.land mask 0x1ffffff)) (s32 (g2 x - Z.land mask 0x3ffffff))
    (s32 (g3 x - Z.land mask 0x1ffffff)) (s32 (g4 x - Z.land mask 0x3ffffff)) (s32 (g5 x - Z.land mask 0x1ffffff))
    (s32 (g6 x - Z.land mask 0x3ffffff)) (s32 (g7 x - Z.land mask 0x1ffffff)) (s32 (g8 x - Z.land mask 0x3ffffff))
    (s32 (g9 x - Z.land mask 0x1ffffff)).

(** [F(i, s)] of [fcontract32]. *)
Definition put_limb (output : list Z) (x s : Z) : option (list Z) :=
  o ← aget output s; output ← aset output s (Z.lor o (Z.land x 0xff));
  output ← aset output (s + 1) (Z.land (Z.shiftr x 8) 0xff);
  output ← aset output (s + 2) (Z.land (Z.shiftr x 16) 0xff);
  aset output (s + 3) (Z.land (Z.shiftr x 24) 0xff).

(** The shifts in place, and the bytes.  [input[4] <<= 6] of line 589 overflows [int32_t]
    when bit 25 of the limb is set, which the C standard leaves undefined; here it wraps,
    as gcc and clang compile it (gcc documents that it gives signed [<<] this meaning). *)
Definition put_limbs (output : list Z) (x : limbs) : option (list Z) :=
  output ← aset output 0 0; output ← aset output 16 0;
  output ← put_limb output (g0 x) 0;
  output ← put_limb output (s32 (Z.shiftl (g1 x) 2)) 3;
  output ← put_limb output (s32 (Z.shiftl (g2 x) 3)) 6;
  output ← put_limb output (s32 (Z.shiftl (g3 x) 5)) 9;
  output ← put_limb output (s32 (Z.shiftl (g4 x) 6)) 12;
  output ← put_limb output (g5 x) 16;
  output ← put_limb output (s32 (Z.shiftl (g6 x) 1)) 19;
  output ← put_limb output (s32 (Z.shiftl (g7 x) 3)) 22;
  output ← put_limb output (s32 (Z.shiftl (g8 x) 4)) 25;
  put_limb output (s32 (Z.shiftl (g9 x) 6)) 28.

Definition fcontract32 (output : list Z) (input_limbs : limbs) : option (list Z) :=
  let input := mk_limbs (s32 (g0 input_limbs)) (s32 (g1 input_limbs)) (s32 (g2 input_limbs)) (s32 (g3 input_limbs)) (s32 (g4 input_limbs))
    (s32 (g5 input_limbs)) (s32 (g6 input_limbs)) (s32 (g7 input_limbs)) (s32 (g8 input_limbs)) (s32 (g9 input_limbs)) in
  let input := borrow_pass (borrow_pass input) in
  let '(x0, carry) := borrow 26 (g0 input) in
  let input := mk_limbs x0 (s32 (g1 input - carry)) (g2 input) (g3 input) (g4 input) (g5 input) (g6 input) (g7 input) (g8 input) (g9 input) in
  let input := carry_pass (carry_pass input) in
  put_limbs output (subtract_p input).

(** The outputs [x2, z2, x3, z3], and what is left in [x, z, xprime, zprime]. *)
Definition fmonty32 (x z xprime zprime qmqp : limbs) : limbs * limbs * limbs * limbs * (limbs * limbs * limbs * limbs) :=
  let origx := x in
  let x := fsum32 x z in
  let z := fdifference_backwards32 z origx in
  let origxprime := xprime in
  let xprime := fsum32 xprime zprime in
  let zprime := fdifference_backwards32 zprime origxprime in
  let xxprime := fproduct xprime z in
  let zzprime := fproduct x zprime in
  let xxprime := freduce_coefficients (freduce_degree xxprime) in
  let zzprime := freduce_coefficients (freduce_degree zzprime) in
  let origxprime := xxprime in
  let xxprime := fsum32 xxprime zzprime in
  let zzprime := fdifference_backwards32 zzprime origxprime in
  let xxxprime := fsquare xxprime in
  let zzzprime := fsquare zzprime in
  let zzprime := fproduct zzzprime qmqp in
  let zzprime := freduce_coefficients (freduce_degree zzprime) in
  let x3 := xxxprime in
  let z3 := zzprime in
  let xx := fsquare x in
  let zz := fsquare z in
  let x2 := fproduct xx zz in
  let x2 := freduce_coefficients (freduce_degree x2) in
  let zz := fdifference_backwards32 zz xx in
  let zzz := fscalar_product32 zz 121665 in
  let zzz := freduce_coefficients zzz in
  let zzz := fsum32 zzz xx in
  let z2 := fproduct zz zzz in
  let z2 := freduce_coefficients (freduce_degree z2) in
  (x2, z2, x3, z3, (x, z, xprime, zprime)).

(** [swap] is zero or all ones. *)
Definition swap_limb32 (swap a b : Z) : Z * Z :=
  let x := Z.land swap (Z.lxor (s32 a) (s32 b)) in (Z.lxor (s32 a) x, Z.lxor (s32 b) x).

Definition swap_conditional32 (a b : limbs) (iswap : Z) : limbs * limbs :=
  let swap := s32 (- iswap) in
  let '(a0, b0) := swap_limb32 swap (g0 a) (g0 b) in let '(a1, b1) := swap_limb32 swap (g1 a) (g1 b) in
  let '(a2, b2) := swap_limb32 swap (g2 a) (g2 b) in let '(a3, b3) := swap_limb32 swap (g3 a) (g3 b) in
  let '(a4, b4) := swap_limb32 swap (g4 a) (g4 b) in let '(a5, b5) := swap_limb32 swap (g5 a) (g5 b) in
  let '(a6, b6) := swap_limb32 swap (g6 a) (g6 b) in let '(a7, b7) := swap_limb32 swap (g7 a) (g7 b) in
  let '(a8, b8) := swap_limb32 swap (g8 a) (g8 b) in let '(a9, b9) := swap_limb32 swap (g9 a) (g9 b) in
  (mk_limbs a0 a1 a2 a3 a4 a5 a6 a7 a8 a9, mk_limbs b0 b1 b2 b3 b4 b5 b6 b7 b8 b9).

(** [cmult32]'s buffers, by the pointers to them. *)
Record ladder32 := mk_ladder32 {
  mqpqx : limbs; mqpqz : limbs; mqx : limbs; mqz : limbs;
  mqpqx2 : limbs; mqpqz2 : limbs; mqx2 : limbs; mqz2 : limbs;
}.

(** The body of the inner loop of [cmult32]. *)
Definition cmult32_step (q : limbs) (bit : Z) (s : ladder32) : ladder32 :=
  let '(x, px) := swap_conditional32 (mqx s) (mqpqx s) bit in
  let '(z, pz) := swap_conditional32 (mqz s) (mqpqz s) bit in
  let '(x2, z2, px2, pz2, (x, z, px, pz)) := fmonty32 x z px pz q in
  let '(x2, px2) := swap_conditional32 x2 px2 bit in
  let '(z2, pz2) := swap_conditional32 z2 pz2 bit in
  mk_ladder32 px2 pz2 x2 z2 px pz x z.

Definition limbs_0 : limbs := mk_limbs 0 0 0 0 0 0 0 0 0 0.
Definition limbs_1 : limbs := mk_limbs 1 0 0 0 0 0 0 0 0 0.

(** The results [resultx] and [resultz]. *)
Definition cmult32 (n : list Z) (q : limbs) : option (limbs * limbs) :=
  let s := mk_ladder32 q limbs_1 limbs_1 limbs_0 limbs_0 limbs_1 limbs_0 limbs_1 in
  s ← for_ (fun i s => byte ← aget n (31 - i); Some (byte_loop (cmult32_step q) byte s)) 0 32 s;
  Some (mqx s, mqz s).

(** [for (i = 2; i < n; i += 2) { fsquare; fsquare }] after two squarings: [n] of them. *)
Definition fsquares (n : nat) (x : limbs) : limbs := Nat.iter n fsquare x.

Definition crecip32 (z : limbs) : limbs :=
  let z2 := fsquare z in
  let t1 := fsquare z2 in
  let t0 := fsquare t1 in
  let z9 := fmul32 t0 z in
  let z11 := fmul32 z9 z2 in
  let t0 := fsquare z11 in
  let z2_5_0 := fmul32 t0 z9 in
  let t0 := fsquares 5 z2_5_0 in
  let z2_10_0 := fmul32 t0 z2_5_0 in
  let t1 := fsquares 10 z2_10_0 in
  let z2_20_0 := fmul32 t1 z2_10_0 in
  let t1 := fsquares 20 z2_20_0 in
  let t0 := fmul32 t1 z2_20_0 in
  let t0 := fsquares 10 t0 in
  let z2_50_0 := fmul32 t0 z2_10_0 in
  let t1 := fsquares 50 z2_50_0 in
  let z2_100_0 := fmul32 t1 z2_50_0 in
  let t0 := fsquares 100 z2_100_0 in
  let t1 := fmul32 t0 z2_100_0 in
  let t1 := fsquares 50 t1 in
  let t0 := fmul32 t1 z2_50_0 in
  let t1 := fsquares 5 t0 in
  fmul32 t1 z11.

(** The bytes written to [mypublic]. *)
Definition curve25519_donna (mypublic secret basepoint : list Z) : option (list Z) :=
  e ← memcpy (replicate 32 0) 0 secret 0 32;
  e0 ← aget e 0; e ← aset e 0 (Z.land e0 248);
  e31 ← aget e 31; e ← aset e 31 (Z.land e31 127);
  e31 ← aget e 31; e ← aset e 31 (Z.lor e31 64);
  bp ← fexpand32 basepoint;
  '(x, z) ← cmult32 e bp;
  let zmone := crecip32 z in
  fcontract32 mypublic (fmul32 x zmone).

(** The functions of the cards; [result] is what the stack holds. *)
Definition xoverz_donna (result a : bits256) : option bits256 :=
  bp ← fexpand32 (9 :: replicate 31 0);
  '(x, z) ← cmult32 a bp;
  let zmone := crecip32 z in
  fcontract32 result (fmul32 x zmone).

Definition fmul_donna (result a b : bits256) : option bits256 :=
  avals ← fexpand32 a;
  bvals ← fexpand32 b;
  fcontract32 result (fmul32 avals bvals).

Definition crecip_donna (result a : bits256) : option bits256 :=
  avals ← fexpand32 a;
  fcontract32 result (crecip32 avals).

(** ** Limbs and the numbers they stand for *)

Definition value32 (x : limbs) : Z :=
  g0 x + 2 ^ 26 * g1 x + 2 ^ 51 * g2 x + 2 ^ 77 * g3 x + 2 ^ 102 * g4 x + 2 ^ 128 * g5 x + 2 ^ 153 * g6 x + 2 ^ 179 * g7 x
  + 2 ^ 204 * g8 x + 2 ^ 230 * g9 x.

Definition long_value (x : long) : Z :=
  value32 (mk_limbs (o0 x) (o1 x) (o2 x) (o3 x) (o4 x) (o5 x) (o6 x) (o7 x) (o8 x) (o9 x))
  + 2 ^ 255 * value32 (mk_limbs (o10 x) (o11 x) (o12 x) (o13 x) (o14 x) (o15 x) (o16 x) (o17 x) (o18 x) 0).

(** The absolute value is at most [b]. *)
Definition within32 (b x : Z) : Prop := - b <= x <= b.

Definition limbs_in (b : Z) (x : limbs) : Prop :=
  within32 b (g0 x) /\ within32 b (g1 x) /\ within32 b (g2 x) /\ within32 b (g3 x) /\ within32 b (g4 x) /\
  within32 b (g5 x) /\ within32 b (g6 x) /\ within32 b (g7 x) /\ within32 b (g8 x) /\ within32 b (g9 x).

Definition long_in (b : Z) (x : long) : Prop :=
  limbs_in b (mk_limbs (o0 x) (o1 x) (o2 x) (o3 x) (o4 x) (o5 x) (o6 x) (o7 x) (o8 x) (o9 x)) /\
  limbs_in b (mk_limbs (o10 x) (o11 x) (o12 x) (o13 x) (o14 x) (o15 x) (o16 x) (o17 x) (o18 x) 0).

(** Reduced limbs; sums and differences of two of them. *)
Definition short32 : limbs -> Prop := limbs_in (2 ^ 26).
Definition loose32 : limbs -> Prop := limbs_in (2 ^ 27).

Lemma limbs_in_weaken b b' x : limbs_in b x -> b <= b' -> limbs_in b' x.
Proof. unfold limbs_in, within32. lia. Qed.

Lemma short_loose32 x : short32 x -> loose32 x.
Proof. intros H. apply (limbs_in_weaken _ _ _ H). lia. Qed.

(** A property of every limb, from a property of each. *)
Ltac each_limb := unfold limbs_in; cbn [g0 g1 g2 g3 g4 g5 g6 g7 g8 g9]; repeat apply conj.

Lemma fsum32_spec x y b c : limbs_in b x -> limbs_in c y -> b + c <= 2 ^ 62 ->
  limbs_in (b + c) (fsum32 x y) /\ value32 (fsum32 x y) = value32 x + value32 y.
Proof.
  change (2 ^ 62) with 4611686018427387904. unfold limbs_in, within32. intros Hx Hy Hb. unfold fsum32, value32. cbn [g0 g1 g2 g3 g4 g5 g6 g7 g8 g9].
  rewrite !s64_small by lia. split; [lia|ring].
Qed.

Lemma fdifference32_spec x y b c : limbs_in b x -> limbs_in c y -> b + c <= 2 ^ 62 ->
  limbs_in (b + c) (fdifference_backwards32 x y) /\ value32 (fdifference_backwards32 x y) = value32 y - value32 x.
Proof.
  change (2 ^ 62) with 4611686018427387904. unfold limbs_in, within32. intros Hx Hy Hb. unfold fdifference_backwards32, value32.
  cbn [g0 g1 g2 g3 g4 g5 g6 g7 g8 g9]. rewrite !s64_small by lia. split; [lia|ring].
Qed.

Lemma fscalar_product32_spec x b c : limbs_in b x -> 0 <= c -> b * c <= 2 ^ 62 ->
  limbs_in (b * c) (fscalar_product32 x c) /\ value32 (fscalar_product32 x c) = c * value32 x.
Proof.
  change (2 ^ 62) with 4611686018427387904. intros Hx Hc Hb. assert (forall y, within32 b y -> within32 (b * c) (y * c)) as H.
  { unfold within32. intros y Hy. nia. }
  assert (limbs_in (b * c) (mk_limbs (g0 x * c) (g1 x * c) (g2 x * c) (g3 x * c) (g4 x * c) (g5 x * c) (g6 x * c) (g7 x * c) (g8 x * c) (g9 x * c))) as Hp
    by (each_limb; apply H, Hx).
  unfold limbs_in, within32 in Hp. cbn [g0 g1 g2 g3 g4 g5 g6 g7 g8 g9] in Hp. unfold fscalar_product32, value32, limbs_in, within32.
  cbn [g0 g1 g2 g3 g4 g5 g6 g7 g8 g9]. rewrite !s64_small by lia. split; [lia|ring].
Qed.

(** *** Products *)

(** [e] is at most [k] products of loose limbs. *)
Definition products (k e : Z) : Prop := within32 (k * 2 ^ 54) e.

Lemma products_1 a b : within32 (2 ^ 27) a -> within32 (2 ^ 27) b -> products 1 (a * b).
Proof. unfold products, within32. change (2 ^ 54) with (2 ^ 27 * 2 ^ 27). intros Ha Hb. nia. Qed.

Lemma products_add k j a b : products k a -> products j b -> products (k + j) (a + b).
Proof. unfold products, within32. lia. Qed.

Lemma products_scale c k a : 0 <= c -> products k a -> products (c * k) (c * a).
Proof. unfold products, within32. intros Hc H. rewrite <- Z.mul_assoc. nia. Qed.

Lemma products_scale_l c k a b : 0 <= c -> products k (a * b) -> products (c * k) (c * a * b).
Proof. rewrite <- Z.mul_assoc. apply products_scale. Qed.

(** The number of products in a sum, from its shape. *)
Ltac products :=
  lazymatch goal with
  | |- products _ (_ + _) => apply products_add; products
  | |- products _ (?c * (_ * _)) => apply products_scale; [lia|products]
  | |- products _ (?c * (_ + _)) => apply products_scale; [lia|products]
  | |- products _ (_ * _ * _) => apply products_scale_l; [lia|products]
  | |- products _ (_ * _) => apply products_1; assumption
  end.

Lemma s64_products k e : products k e -> (k <=? 500) = true -> s64 e = e.
Proof. unfold products, within32. change (2 ^ 54) with 18014398509481984. intros He Hk%Z.leb_le. apply s64_small. lia. Qed.

Lemma products_14 k e : products k e -> (k <=? 14) = true -> within32 (14 * 2 ^ 54) e.
Proof. unfold products, within32. intros He Hk%Z.leb_le. lia. Qed.

Lemma s32_loose a : within32 (2 ^ 27) a -> s32 a = a.
Proof. unfold within32. change (2 ^ 27) with 134217728. intros H. apply s32_small. lia. Qed.

Ltac long_limbs := cbn [o0 o1 o2 o3 o4 o5 o6 o7 o8 o9 o10 o11 o12 o13 o14 o15 o16 o17 o18 g0 g1 g2 g3 g4 g5 g6 g7 g8 g9].

(** Remove the conversions of sums of products. *)
Ltac unwrap_products :=
  repeat match goal with |- context [s64 ?e] => rewrite (s64_products _ e ltac:(products) eq_refl) end.

Ltac long_products :=
  split; [unfold long_in; long_limbs; split; each_limb;
          first [eapply products_14; [products|reflexivity] | unfold within32; lia]
         |].

Lemma fproduct_spec x y : loose32 x -> loose32 y ->
  long_in (14 * 2 ^ 54) (fproduct x y) /\ long_value (fproduct x y) = value32 x * value32 y.
Proof.
  destruct x as [a0 a1 a2 a3 a4 a5 a6 a7 a8 a9], y as [b0 b1 b2 b3 b4 b5 b6 b7 b8 b9]. unfold loose32, limbs_in.
  cbn [g0 g1 g2 g3 g4 g5 g6 g7 g8 g9].
  intros (Ha0 & Ha1 & Ha2 & Ha3 & Ha4 & Ha5 & Ha6 & Ha7 & Ha8 & Ha9) (Hb0 & Hb1 & Hb2 & Hb3 & Hb4 & Hb5 & Hb6 & Hb7 & Hb8 & Hb9).
  unfold fproduct. long_limbs. rewrite !s32_loose by assumption. unwrap_products. long_products.
  unfold long_value, value32. long_limbs. ring.
Qed.

Lemma fsquare_inner_spec x : loose32 x ->
  long_in (14 * 2 ^ 54) (fsquare_inner x) /\ long_value (fsquare_inner x) = value32 x * value32 x.
Proof.
  destruct x as [a0 a1 a2 a3 a4 a5 a6 a7 a8 a9]. unfold loose32, limbs_in.
  cbn [g0 g1 g2 g3 g4 g5 g6 g7 g8 g9]. intros (Ha0 & Ha1 & Ha2 & Ha3 & Ha4 & Ha5 & Ha6 & Ha7 & Ha8 & Ha9).
  unfold fsquare_inner. long_limbs. rewrite !s32_loose by assumption. unwrap_products. long_products.
  unfold long_value, value32. long_limbs. ring.
Qed.

(** *** Reduction *)

Lemma add19_spec x y b : within32 b x -> within32 b y -> b <= 14 * 2 ^ 54 -> add19 x y = x + 19 * y.
Proof.
  unfold within32. change (14 * 2 ^ 54) with 252201579132747776. intros Hx Hy Hb. unfold add19. rewrite !Z.shiftl_mul_pow2 by lia.
  change (2 ^ 4) with 16. change (2 ^ 1) with 2.
  rewrite (s64_small (y * 16)), (s64_small (y * 2)), (s64_small (x + y * 16)), (s64_small (x + y * 16 + y * 2)), s64_small; lia.
Qed.

Lemma freduce_degree_spec x : long_in (14 * 2 ^ 54) x ->
  limbs_in (280 * 2 ^ 54) (freduce_degree x) /\ value32 (freduce_degree x) =p long_value x.
Proof.
  intros [H1 H2]. unfold limbs_in in H1, H2. cbn [g0 g1 g2 g3 g4 g5 g6 g7 g8 g9] in H1, H2. unfold freduce_degree.
  rewrite !(add19_spec _ _ (14 * 2 ^ 54)) by (done || apply H1 || apply H2). split.
  - unfold within32 in *. each_limb; unfold within32; lia.
  - unfold long_value. exists (- value32 (mk_limbs (o10 x) (o11 x) (o12 x) (o13 x) (o14 x) (o15 x) (o16 x) (o17 x) (o18 x) 0)).
    unfold value32, p25519. cbn [g0 g1 g2 g3 g4 g5 g6 g7 g8 g9]. ring.
Qed.

(** The sign word of a 64-bit number. *)
Lemma sign_word v : -9223372036854775808 <= v < 9223372036854775808 ->
  Z.shiftr (s32 (u32 (Z.shiftr (u64 v) 32))) 31 = if v <? 0 then -1 else 0.
Proof.
  intros Hv. rewrite !Z.shiftr_div_pow2 by lia. change (2 ^ 32) with 4294967296. change (2 ^ 31) with 2147483648.
  destruct (Z.ltb_spec v 0).
  - assert (u64 v = v + 18446744073709551616) as -> by (unfold u64, wrapU; symmetry; apply (Z.mod_unique_pos _ _ (-1)); lia).
    assert (2147483648 <= (v + 18446744073709551616) / 4294967296 < 4294967296) as Hd by (Z.div_mod_to_equations; lia).
    rewrite u32_small by lia. generalize dependent ((v + 18446744073709551616) / 4294967296). intros h Hd.
    assert (s32 h = h - 4294967296) as -> by (unfold s32, wrapS; change (2 ^ 32) with 4294967296; change (2 ^ (32 - 1)) with 2147483648; Z.div_mod_to_equations; lia).
    Z.div_mod_to_equations; lia.
  - rewrite u64_small by lia. assert (0 <= v / 4294967296 < 2147483648) as Hd by (Z.div_mod_to_equations; lia).
    rewrite u32_small, s32_small by lia. Z.div_mod_to_equations; lia.
Qed.

(** A quotient rounded towards zero, and what it leaves. *)
Definition splits (w v : Z) (rq : Z * Z) : Prop := v = w * rq.2 + rq.1 /\ within32 (w - 1) rq.1.

(** The bound of the comments: what a limb may be before a division. *)
Definition B32 : Z := 281 * 2 ^ 54.

Lemma split_26_spec v : within32 B32 v -> splits (2 ^ 26) v (split_26 v).
Proof.
  unfold within32, B32. change (281 * 2 ^ 54) with 5062045981164437504. intros Hv. unfold splits, split_26, div_by_2_26, within32. cbn [fst snd].
  rewrite sign_word by lia. change (2 ^ 26) with 67108864. destruct (Z.ltb_spec v 0).
  - change (s32 (Z.shiftr (u32 (-1)) 6)) with 67108863. rewrite (s64_small (v + 67108863)), Z.shiftr_div_pow2, Z.shiftl_mul_pow2 by lia.
    change (2 ^ 26) with 67108864. pose proof (Z.div_mod (v + 67108863) 67108864 ltac:(lia)). pose proof (Z.mod_pos_bound (v + 67108863) 67108864 ltac:(lia)).
    rewrite (s64_small (_ * _)), s64_small; lia.
  - change (s32 (Z.shiftr (u32 0) 6)) with 0. rewrite Z.add_0_r, (s64_small v), Z.shiftr_div_pow2, Z.shiftl_mul_pow2 by lia.
    change (2 ^ 26) with 67108864. pose proof (Z.div_mod v 67108864 ltac:(lia)). pose proof (Z.mod_pos_bound v 67108864 ltac:(lia)).
    rewrite (s64_small (_ * _)), s64_small; lia.
Qed.

Lemma split_25_spec v : within32 B32 v -> splits (2 ^ 25) v (split_25 v).
Proof.
  unfold within32, B32. change (281 * 2 ^ 54) with 5062045981164437504. intros Hv. unfold splits, split_25, div_by_2_25, within32. cbn [fst snd].
  rewrite sign_word by lia. change (2 ^ 25) with 33554432. destruct (Z.ltb_spec v 0).
  - change (s32 (Z.shiftr (u32 (-1)) 7)) with 33554431. rewrite (s64_small (v + 33554431)), Z.shiftr_div_pow2, Z.shiftl_mul_pow2 by lia.
    change (2 ^ 25) with 33554432. pose proof (Z.div_mod (v + 33554431) 33554432 ltac:(lia)). pose proof (Z.mod_pos_bound (v + 33554431) 33554432 ltac:(lia)).
    rewrite (s64_small (_ * _)), s64_small; lia.
  - change (s32 (Z.shiftr (u32 0) 7)) with 0. rewrite Z.add_0_r, (s64_small v), Z.shiftr_div_pow2, Z.shiftl_mul_pow2 by lia.
    change (2 ^ 25) with 33554432. pose proof (Z.div_mod v 33554432 ltac:(lia)). pose proof (Z.mod_pos_bound v 33554432 ltac:(lia)).
    rewrite (s64_small (_ * _)), s64_small; lia.
Qed.

(** The next limb with the quotient added. *)
Lemma next_limb w g v r q : within32 (280 * 2 ^ 54) g -> within32 B32 v -> 2 ^ 25 <= w -> splits w v (r, q) ->
  s64 (g + q) = g + q /\ within32 B32 (g + q) /\ within32 (2 ^ 38) q.
Proof.
  unfold splits, within32, B32. cbn [fst snd]. change (281 * 2 ^ 54) with 5062045981164437504. change (280 * 2 ^ 54) with 5044031582654955520.
  change (2 ^ 25) with 33554432. change (2 ^ 38) with 274877906944. intros Hg Hv Hw [E Hr].
  assert (- 274877906944 <= q <= 274877906944) by nia. rewrite s64_small; lia.
Qed.

Lemma freduce_coefficients_spec x : limbs_in (280 * 2 ^ 54) x ->
  short32 (freduce_coefficients x) /\ value32 (freduce_coefficients x) =p value32 x.
Proof.
  destruct x as [x0 x1 x2 x3 x4 x5 x6 x7 x8 x9]. unfold limbs_in. cbn [g0 g1 g2 g3 g4 g5 g6 g7 g8 g9].
  intros (H0 & H1 & H2 & H3 & H4 & H5 & H6 & H7 & H8 & H9). unfold freduce_coefficients. cbn [g0 g1 g2 g3 g4 g5 g6 g7 g8 g9].
  assert (within32 B32 x0) as B0 by (unfold within32, B32 in *; lia).
  pose proof (split_26_spec x0 B0) as E0. destruct (split_26 x0) as [r0 q0]. destruct (next_limb (2 ^ 26) x1 _ _ _ H1 B0 ltac:(lia) E0) as (-> & B1 & _).
  pose proof (split_25_spec _ B1) as E1. destruct (split_25 (x1 + q0)) as [r1 q1]. destruct (next_limb (2 ^ 25) x2 _ _ _ H2 B1 ltac:(lia) E1) as (-> & B2 & _).
  pose proof (split_26_spec _ B2) as E2. destruct (split_26 (x2 + q1)) as [r2 q2]. destruct (next_limb (2 ^ 26) x3 _ _ _ H3 B2 ltac:(lia) E2) as (-> & B3 & _).
  pose proof (split_25_spec _ B3) as E3. destruct (split_25 (x3 + q2)) as [r3 q3]. destruct (next_limb (2 ^ 25) x4 _ _ _ H4 B3 ltac:(lia) E3) as (-> & B4 & _).
  pose proof (split_26_spec _ B4) as E4. destruct (split_26 (x4 + q3)) as [r4 q4]. destruct (next_limb (2 ^ 26) x5 _ _ _ H5 B4 ltac:(lia) E4) as (-> & B5 & _).
  pose proof (split_25_spec _ B5) as E5. destruct (split_25 (x5 + q4)) as [r5 q5]. destruct (next_limb (2 ^ 25) x6 _ _ _ H6 B5 ltac:(lia) E5) as (-> & B6 & _).
  pose proof (split_26_spec _ B6) as E6. destruct (split_26 (x6 + q5)) as [r6 q6]. destruct (next_limb (2 ^ 26) x7 _ _ _ H7 B6 ltac:(lia) E6) as (-> & B7 & _).
  pose proof (split_25_spec _ B7) as E7. destruct (split_25 (x7 + q6)) as [r7 q7]. destruct (next_limb (2 ^ 25) x8 _ _ _ H8 B7 ltac:(lia) E7) as (-> & B8 & _).
  pose proof (split_26_spec _ B8) as E8. destruct (split_26 (x8 + q7)) as [r8 q8]. destruct (next_limb (2 ^ 26) x9 _ _ _ H9 B8 ltac:(lia) E8) as (-> & B9 & _).
  pose proof (split_25_spec _ B9) as E9. destruct (split_25 (x9 + q8)) as [r9 q9]. destruct (next_limb (2 ^ 25) x9 _ _ _ H9 B9 ltac:(lia) E9) as (_ & _ & Hq).
  unfold splits in *. cbn [fst snd] in *. unfold within32 in *. change (2 ^ 38) with 274877906944 in Hq. change (2 ^ 26) with 67108864 in *. change (2 ^ 25) with 33554432 in *.
  rewrite (add19_spec r0 q9 274877906944) by (unfold within32; lia).
  assert (within32 B32 (r0 + 19 * q9)) as B10 by (unfold within32, B32; lia).
  pose proof (split_26_spec _ B10) as E10. destruct (split_26 (r0 + 19 * q9)) as [r0' q10]. unfold splits, within32 in E10. cbn [fst snd] in E10.
  change (2 ^ 26) with 67108864 in E10. rewrite (s64_small (r1 + q10)) by lia. split.
  - unfold short32. change (2 ^ 26) with 67108864. each_limb; unfold within32; lia.
  - exists (- q9). unfold value32, p25519. cbn [g0 g1 g2 g3 g4 g5 g6 g7 g8 g9].
    replace r0' with (r0 + 19 * q9 - 67108864 * q10) by lia. replace r0 with (x0 - 67108864 * q0) by lia.
    replace r1 with (x1 + q0 - 33554432 * q1) by lia. replace r2 with (x2 + q1 - 67108864 * q2) by lia.
    replace r3 with (x3 + q2 - 33554432 * q3) by lia. replace r4 with (x4 + q3 - 67108864 * q4) by lia.
    replace r5 with (x5 + q4 - 33554432 * q5) by lia. replace r6 with (x6 + q5 - 67108864 * q6) by lia.
    replace r7 with (x7 + q6 - 33554432 * q7) by lia. replace r8 with (x8 + q7 - 67108864 * q8) by lia.
    replace r9 with (x9 + q8 - 33554432 * q9) by lia. ring.
Qed.

Lemma reduce_spec t n : long_in (14 * 2 ^ 54) t -> long_value t = n ->
  short32 (freduce_coefficients (freduce_degree t)) /\ value32 (freduce_coefficients (freduce_degree t)) =p n.
Proof.
  intros H <-. destruct (freduce_degree_spec t H) as [H1 V1]. destruct (freduce_coefficients_spec _ H1) as [H2 V2].
  split; [done|]. by rewrite V2, V1.
Qed.

Lemma fmul32_spec x y : loose32 x -> loose32 y -> short32 (fmul32 x y) /\ value32 (fmul32 x y) =p value32 x * value32 y.
Proof. intros Hx Hy. destruct (fproduct_spec x y Hx Hy). by apply reduce_spec. Qed.

Lemma fsquare_spec x : loose32 x -> short32 (fsquare x) /\ value32 (fsquare x) =p value32 x * value32 x.
Proof. intros Hx. destruct (fsquare_inner_spec x Hx). by apply reduce_spec. Qed.

(** *** Powers *)

(** [x] is the power [e] of [z]. *)
Definition power32 (z : limbs) (e : Z) (x : limbs) : Prop := 0 <= e /\ short32 x /\ value32 x =p value32 z ^ e.

Lemma power32_one z : short32 z -> power32 z 1 z.
Proof. intros Hz. split; [lia|]. split; [done|]. by rewrite Z.pow_1_r. Qed.

Lemma power32_mul z e f x y : power32 z e x -> power32 z f y -> power32 z (e + f) (fmul32 x y).
Proof.
  intros (He & Hx & Ex) (Hf & Hy & Ey). destruct (fmul32_spec x y) as [H1 H2]; [by apply short_loose32..|].
  split; [lia|]. split; [done|]. by rewrite H2, Ex, Ey, Z.pow_add_r by lia.
Qed.

Lemma power32_square z e x : power32 z e x -> power32 z (e * 2) (fsquare x).
Proof.
  intros (He & Hx & Ex). destruct (fsquare_spec x) as [H1 H2]; [by apply short_loose32|].
  split; [lia|]. split; [done|]. by rewrite H2, Z.pow_mul_r, Z.pow_2_r, Ex by lia.
Qed.

Lemma power32_squares z e x n : power32 z e x -> power32 z (e * 2 ^ Z.of_nat n) (fsquares n x).
Proof.
  intros Hx. unfold fsquares. induction n as [|n IH]; [by rewrite Z.mul_1_r|]. cbn [Nat.iter].
  rewrite Nat2Z.inj_succ, Z.pow_succ_r, (Z.mul_comm 2), Z.mul_assoc by lia. by apply power32_square.
Qed.

Lemma power32_exp z e f x : power32 z e x -> e = f -> power32 z f x.
Proof. by intros ? ->. Qed.

Lemma power32_let z e f x (g : limbs -> limbs) :
  power32 z e x -> (forall y, power32 z e y -> power32 z f (g y)) -> power32 z f (let y := x in g y).
Proof. intros Hx Hg. by apply Hg. Qed.

Ltac power32_chain :=
  lazymatch goal with
  | |- power32 _ _ (fmul32 _ _) => apply power32_mul; power32_chain
  | |- power32 _ _ (fsquare _) => apply power32_square; power32_chain
  | |- power32 _ _ (fsquares _ _) => apply power32_squares; power32_chain
  | |- power32 _ _ ?y => is_var y; match goal with H : power32 _ _ y |- _ => exact H end
  end.

Ltac power32_step := eapply power32_exp; [power32_chain|vm_compute; reflexivity].

Lemma crecip32_spec z : short32 z -> short32 (crecip32 z) /\ value32 (crecip32 z) =p value32 z ^ (p25519 - 2).
Proof.
  intros Hz. enough (power32 z (p25519 - 2) (crecip32 z)) as (_ & H1 & H2) by done.
  pose proof (power32_one z Hz) as Hone. cbv beta delta [crecip32].
  repeat match goal with |- power32 _ _ (let y := ?x in @?g y) =>
    eapply (power32_let z _ _ x g); [power32_step|cbv beta; intros ? ?] end.
  power32_step.
Qed.

(** *** The ladder *)

Lemma swap_limb32_spec (b : bool) x y : within32 (2 ^ 26) x -> within32 (2 ^ 26) y ->
  swap_limb32 (s32 (- b2z b)) x y = if b then (y, x) else (x, y).
Proof.
  unfold within32. change (2 ^ 26) with 67108864. intros Hx Hy. unfold swap_limb32. rewrite !s32_small by (destruct b; cbn [b2z]; lia).
  destruct b; cbn [b2z].
  - change (Z.opp 1) with (-1). rewrite Z.land_m1_l. f_equal.
    + by rewrite <- Z.lxor_assoc, Z.lxor_nilpotent, Z.lxor_0_l.
    + by rewrite (Z.lxor_comm x y), <- Z.lxor_assoc, Z.lxor_nilpotent, Z.lxor_0_l.
  - by rewrite Z.land_0_l, !Z.lxor_0_r.
Qed.

Lemma swap32_spec (b : bool) x y : short32 x -> short32 y -> swap_conditional32 x y (b2z b) = if b then (y, x) else (x, y).
Proof.
  intros (Hx0 & Hx1 & Hx2 & Hx3 & Hx4 & Hx5 & Hx6 & Hx7 & Hx8 & Hx9) (Hy0 & Hy1 & Hy2 & Hy3 & Hy4 & Hy5 & Hy6 & Hy7 & Hy8 & Hy9).
  unfold swap_conditional32. rewrite !swap_limb32_spec by assumption. destruct x, y. by destruct b.
Qed.

Definition stands_for32 (x z px pz : limbs) (s : fractions) : Prop :=
  let '(a, b, c, d) := s in
  (short32 x /\ short32 z /\ short32 px /\ short32 pz) /\ (value32 x =p a /\ value32 z =p b /\ value32 px =p c /\ value32 pz =p d).

Lemma fmonty32_spec q x z px pz s : short32 q -> stands_for32 x z px pz s ->
  exists x2 z2 px2 pz2 rest, fmonty32 x z px pz q = (x2, z2, px2, pz2, rest) /\
    stands_for32 x2 z2 px2 pz2 (spec_double_add (value32 q) s).
Proof.
  intros Hq. destruct s as [[[a b] c] d]. intros [(Hx & Hz & Hpx & Hpz) (Ea & Eb & Ec & Ed)].
  assert (forall u v, short32 u -> short32 v -> loose32 (fsum32 u v) /\ value32 (fsum32 u v) = value32 u + value32 v) as Hsum.
  { intros u v Hu Hv. destruct (fsum32_spec u v (2 ^ 26) (2 ^ 26)) as [H1 H2]; [done|done|lia|done]. }
  assert (forall u v, short32 u -> short32 v -> loose32 (fdifference_backwards32 u v) /\
    value32 (fdifference_backwards32 u v) = value32 v - value32 u) as Hdiff.
  { intros u v Hu Hv. destruct (fdifference32_spec u v (2 ^ 26) (2 ^ 26)) as [H1 H2]; [done|done|lia|done]. }
  unfold fmonty32.
  destruct (Hsum x z Hx Hz) as [L1 V1]. destruct (Hdiff z x Hz Hx) as [L2 V2].
  destruct (Hsum px pz Hpx Hpz) as [L3 V3]. destruct (Hdiff pz px Hpz Hpx) as [L4 V4].
  generalize dependent (fsum32 x z). intros xs L1 V1. generalize dependent (fdifference_backwards32 z x). intros xd L2 V2.
  generalize dependent (fsum32 px pz). intros pxs L3 V3. generalize dependent (fdifference_backwards32 pz px). intros pxd L4 V4.
  change (freduce_coefficients (freduce_degree (fproduct pxs xd))) with (fmul32 pxs xd).
  change (freduce_coefficients (freduce_degree (fproduct xs pxd))) with (fmul32 xs pxd).
  destruct (fmul32_spec pxs xd L3 L2) as [L5 V5]. destruct (fmul32_spec xs pxd L1 L4) as [L6 V6].
  generalize dependent (fmul32 pxs xd). intros u L5 V5. generalize dependent (fmul32 xs pxd). intros v L6 V6.
  destruct (Hsum u v L5 L6) as [L7 V7]. destruct (Hdiff v u L6 L5) as [L8 V8].
  generalize dependent (fsum32 u v). intros us L7 V7. generalize dependent (fdifference_backwards32 v u). intros ud L8 V8.
  destruct (fsquare_spec us L7) as [L9 V9]. destruct (fsquare_spec ud L8) as [L10 V10].
  change (freduce_coefficients (freduce_degree (fproduct (fsquare ud) q))) with (fmul32 (fsquare ud) q).
  destruct (fmul32_spec _ q (short_loose32 _ L10) (short_loose32 _ Hq)) as [L11 V11].
  destruct (fsquare_spec xs L1) as [L12 V12]. destruct (fsquare_spec xd L2) as [L13 V13].
  generalize dependent (fsquare xs). intros aa L12 V12. generalize dependent (fsquare xd). intros bb L13 V13.
  change (freduce_coefficients (freduce_degree (fproduct aa bb))) with (fmul32 aa bb).
  destruct (fmul32_spec aa bb (short_loose32 _ L12) (short_loose32 _ L13)) as [L14 V14].
  destruct (Hdiff bb aa L13 L12) as [L15 V15]. generalize dependent (fdifference_backwards32 bb aa). intros e L15 V15.
  destruct (fscalar_product32_spec e (2 ^ 27) 121665 L15 ltac:(lia) ltac:(lia)) as [L16 V16].
  destruct (freduce_coefficients_spec _ (limbs_in_weaken _ (280 * 2 ^ 54) _ L16 ltac:(lia))) as [L17 V17]. rewrite V16 in V17.
  generalize dependent (freduce_coefficients (fscalar_product32 e 121665)). intros f L17 V17.
  destruct (Hsum f aa L17 L12) as [L18 V18].
  change (freduce_coefficients (freduce_degree (fproduct e (fsum32 f aa)))) with (fmul32 e (fsum32 f aa)).
  destruct (fmul32_spec e (fsum32 f aa) L15 L18) as [L19 V19].
  do 5 eexists. split; [reflexivity|]. split; [done|]. rewrite !eqp_mod. unfold A25519.
  split; [|split; [|split]].
  - rewrite V14, V12, V13, V1, V2, Ea, Eb. exists 0. ring.
  - rewrite V19, V18, V17, V15, V12, V13, V1, V2, Ea, Eb. exists 0. ring.
  - rewrite V9, V7, V5, V6, V1, V2, V3, V4, Ea, Eb, Ec, Ed. exists 0. ring.
  - rewrite V11, V10, V8, V5, V6, V1, V2, V3, V4, Ea, Eb, Ec, Ed. exists 0. ring.
Qed.

Definition state_for32 (s : ladder32) (f : fractions) : Prop := stands_for32 (mqx s) (mqz s) (mqpqx s) (mqpqz s) f.

Lemma stands_for32_swap (b : bool) x z px pz f : stands_for32 x z px pz f ->
  exists x' z' px' pz', swap_conditional32 x px (b2z b) = (x', px') /\ swap_conditional32 z pz (b2z b) = (z', pz') /\
    stands_for32 x' z' px' pz' (spec_swap b f).
Proof.
  destruct f as [[[a c] a'] c']. intros [(Hx & Hz & Hpx & Hpz) (E1 & E2 & E3 & E4)].
  rewrite !swap32_spec by done. destruct b; do 4 eexists; (split; [done|split; [done|]]); by split.
Qed.

Lemma cmult32_step_spec q (b : bool) s f : short32 q -> state_for32 s f -> state_for32 (cmult32_step q (b2z b) s) (spec_step (value32 q) f b).
Proof.
  intros Hq Hs. unfold cmult32_step, spec_step. destruct (stands_for32_swap b _ _ _ _ _ Hs) as (x & z & px & pz & -> & -> & H1).
  destruct (fmonty32_spec q x z px pz _ Hq H1) as (x2 & z2 & px2 & pz2 & [[[rx rz] rpx] rpz] & -> & H2).
  destruct (stands_for32_swap b _ _ _ _ _ H2) as (x3 & z3 & px3 & pz3 & -> & -> & H3). exact H3.
Qed.

Lemma cmult32_spec n q : bits256_ok n -> short32 q ->
  exists x z, cmult32 n q = Some (x, z) /\ short32 x /\ short32 z /\
    let '(a, c, _, _) := spec_upto (le_int n) (value32 q) 256 in value32 x =p a /\ value32 z =p c.
Proof.
  intros Hok Hq. unfold cmult32.
  match goal with |- context [for_ _ _ _ ?s] =>
  destruct (ladder_loop (cmult32_step q) state_for32 (value32 q) (fun b st f => cmult32_step_spec q b st f Hq) n s Hok) as (s' & E & H) end.
  - unfold state_for32, stands_for32. cbn [mqx mqz mqpqx mqpqz].
    split; [|done]. split; [|split; [|split; [exact Hq|]]]; unfold short32, within32; each_limb; unfold within32; cbn; lia.
  - rewrite E. cbn [mbind option_bind]. do 2 eexists. split; [reflexivity|].
    revert H. generalize (spec_upto (le_int n) (value32 q) 256). intros [[[a c] a'] c'] H. unfold state_for32 in H.
    destruct H as [(Hx & Hz & _) (E1 & E2 & _)]. done.
Qed.

(** ** Bytes *)

(** *** Expansion *)

Lemma expand_limb_total input start shift w : 0 <= start -> start + 4 <= Z.of_nat (length input) -> 0 <= w ->
  exists x, expand_limb input start shift (Z.ones w) = Some x /\ 0 <= x < 2 ^ w.
Proof.
  intros Hs Hl Hw. unfold expand_limb.
  destruct (aget_is_Some input start) as (b0 & _ & ->); [lia|]. destruct (aget_is_Some input (start + 1)) as (b1 & _ & ->); [lia|].
  destruct (aget_is_Some input (start + 2)) as (b2 & _ & ->); [lia|]. destruct (aget_is_Some input (start + 3)) as (b3 & _ & ->); [lia|].
  cbn [mbind option_bind]. eexists. split; [reflexivity|]. rewrite Z.land_ones by lia. apply Z.mod_pos_bound. lia.
Qed.

Lemma expand_limb_spec input start shift w : bytes input -> 0 <= start -> start + 4 <= Z.of_nat (length input) ->
  0 <= shift -> 0 <= w -> shift + w <= 32 ->
  expand_limb input start shift (Z.ones w) = Some (le_int input / 2 ^ (8 * start + shift) mod 2 ^ w).
Proof.
  intros Hb Hs Hl Hsh Hw Hsum.
  assert (bytes (take 4 (drop (Z.to_nat start) input))) as Hwin by (by apply Forall_take, Forall_drop).
  assert (forall k, (k < 4)%nat -> aget input (start + Z.of_nat k) = take 4 (drop (Z.to_nat start) input) !! k) as Hg.
  { intros k Hk. rewrite lookup_take_lt, lookup_drop by done. unfold aget. destruct (Z.ltb_spec (start + Z.of_nat k) 0); [lia|]. f_equal. lia. }
  pose proof (le_int_window input (Z.to_nat start) 4 Hb ltac:(lia)) as Hn. rewrite Z2Nat.id in Hn by lia.
  assert (length (take 4 (drop (Z.to_nat start) input)) = 4%nat) as Hlen by (rewrite length_take_le; [done|rewrite length_drop; lia]).
  pose proof (Hg 0%nat ltac:(lia)) as G. change (Z.of_nat 0) with 0 in G. rewrite Z.add_0_r in G.
  unfold expand_limb. rewrite G, (Hg 1%nat ltac:(lia) : aget input (start + 1) = _), (Hg 2%nat ltac:(lia) : aget input (start + 2) = _), (Hg 3%nat ltac:(lia) : aget input (start + 3) = _).
  clear Hg G. destruct (take 4 (drop (Z.to_nat start) input)) as [|b0 [|b1 [|b2 [|b3 []]]]]; try discriminate Hlen.
  cbn [lookup list_lookup mbind option_bind]. unfold bytes in Hwin. repeat (apply list.Forall_cons in Hwin as [? Hwin]). unfold is_byte in *.
  f_equal. pose proof (eq_refl : 2 ^ 8 = 256). pose proof (eq_refl : 2 ^ 16 = 65536). pose proof (eq_refl : 2 ^ 24 = 16777216).
  rewrite (lor_shift _ _ 8), (lor_shift _ _ 16), (lor_shift _ _ 24) by lia.
  replace (b0 + b1 * 2 ^ 8 + b2 * 2 ^ 16 + b3 * 2 ^ 24) with (le_int [b0; b1; b2; b3]) by (cbn [le_int]; lia). rewrite Hn.
  change (256 ^ Z.of_nat 4) with (2 ^ 32). change 256 with (2 ^ 8). rewrite <- Z.pow_mul_r by lia.
  rewrite Z.land_ones by lia. apply Z.bits_inj'. intros i Hi. destruct (Z.ltb_spec i w).
  - rewrite !Z.mod_pow2_bits_low, Z.shiftr_spec, Z.mod_pow2_bits_low, !Z.div_pow2_bits by lia. f_equal. lia.
  - by rewrite !Z.mod_pow2_bits_high by lia.
Qed.

Lemma mod_digit n a w : 0 <= a -> 0 <= w -> n mod 2 ^ (a + w) = n mod 2 ^ a + 2 ^ a * (n / 2 ^ a mod 2 ^ w).
Proof. intros Ha Hw. rewrite Z.pow_add_r by lia. apply Z.rem_mul_r; lia. Qed.

(** The ten digits of a number below [2^255]. *)
Definition digits32 (n : Z) : limbs :=
  mk_limbs (n mod 2 ^ 26) (n / 2 ^ 26 mod 2 ^ 25) (n / 2 ^ 51 mod 2 ^ 26) (n / 2 ^ 77 mod 2 ^ 25) (n / 2 ^ 102 mod 2 ^ 26)
    (n / 2 ^ 128 mod 2 ^ 25) (n / 2 ^ 153 mod 2 ^ 26) (n / 2 ^ 179 mod 2 ^ 25) (n / 2 ^ 204 mod 2 ^ 26) (n / 2 ^ 230 mod 2 ^ 25).

Lemma digits32_value n : value32 (digits32 n) = n mod 2 ^ 255.
Proof.
  pose proof (mod_digit n 230 25 ltac:(lia) ltac:(lia)) as E230. change (230 + 25) with 255 in E230.
  pose proof (mod_digit n 204 26 ltac:(lia) ltac:(lia)) as E204. change (204 + 26) with 230 in E204.
  pose proof (mod_digit n 179 25 ltac:(lia) ltac:(lia)) as E179. change (179 + 25) with 204 in E179.
  pose proof (mod_digit n 153 26 ltac:(lia) ltac:(lia)) as E153. change (153 + 26) with 179 in E153.
  pose proof (mod_digit n 128 25 ltac:(lia) ltac:(lia)) as E128. change (128 + 25) with 153 in E128.
  pose proof (mod_digit n 102 26 ltac:(lia) ltac:(lia)) as E102. change (102 + 26) with 128 in E102.
  pose proof (mod_digit n 77 25 ltac:(lia) ltac:(lia)) as E77. change (77 + 25) with 102 in E77.
  pose proof (mod_digit n 51 26 ltac:(lia) ltac:(lia)) as E51. change (51 + 26) with 77 in E51.
  pose proof (mod_digit n 26 25 ltac:(lia) ltac:(lia)) as E26. change (26 + 25) with 51 in E26.
  rewrite E230, E204, E179, E153, E128, E102, E77, E51, E26. reflexivity.
Qed.

(** Limbs within their widths. *)
Definition tight (x : limbs) : Prop :=
  0 <= g0 x < 2 ^ 26 /\ 0 <= g1 x < 2 ^ 25 /\ 0 <= g2 x < 2 ^ 26 /\ 0 <= g3 x < 2 ^ 25 /\ 0 <= g4 x < 2 ^ 26 /\
  0 <= g5 x < 2 ^ 25 /\ 0 <= g6 x < 2 ^ 26 /\ 0 <= g7 x < 2 ^ 25 /\ 0 <= g8 x < 2 ^ 26 /\ 0 <= g9 x < 2 ^ 25.

Lemma tight_short x : tight x -> short32 x.
Proof. unfold tight, short32, limbs_in, within32. change (2 ^ 26) with 67108864. change (2 ^ 25) with 33554432. lia. Qed.

Lemma digits32_tight n : tight (digits32 n).
Proof. repeat apply conj; apply Z.mod_pos_bound; lia. Qed.

Lemma fexpand32_total m : length m = 32%nat -> exists x, fexpand32 m = Some x /\ tight x.
Proof.
  intros Hl. unfold fexpand32. change 0x3ffffff with (Z.ones 26). change 0x1ffffff with (Z.ones 25).
  destruct (expand_limb_total m 0 0 26) as (x0 & -> & ?); [lia..|]. destruct (expand_limb_total m 3 2 25) as (x1 & -> & ?); [lia..|].
  destruct (expand_limb_total m 6 3 26) as (x2 & -> & ?); [lia..|]. destruct (expand_limb_total m 9 5 25) as (x3 & -> & ?); [lia..|].
  destruct (expand_limb_total m 12 6 26) as (x4 & -> & ?); [lia..|]. destruct (expand_limb_total m 16 0 25) as (x5 & -> & ?); [lia..|].
  destruct (expand_limb_total m 19 1 26) as (x6 & -> & ?); [lia..|]. destruct (expand_limb_total m 22 3 25) as (x7 & -> & ?); [lia..|].
  destruct (expand_limb_total m 25 4 26) as (x8 & -> & ?); [lia..|]. destruct (expand_limb_total m 28 6 25) as (x9 & -> & ?); [lia..|].
  cbn [mbind option_bind]. eexists. split; [reflexivity|]. unfold tight. cbn [g0 g1 g2 g3 g4 g5 g6 g7 g8 g9]. done.
Qed.

Lemma fexpand32_spec m : bits256_ok m -> exists x, fexpand32 m = Some x /\ tight x /\ value32 x = le_int m mod 2 ^ 255.
Proof.
  intros [Hl Hb]. exists (digits32 (le_int m)). split; [|split; [apply digits32_tight|apply digits32_value]].
  unfold fexpand32. change 0x3ffffff with (Z.ones 26). change 0x1ffffff with (Z.ones 25).
  rewrite !expand_limb_spec by (done || lia). cbn [mbind option_bind]. unfold digits32.
  change (8 * 0 + 0) with 0. change (8 * 3 + 2) with 26. change (8 * 6 + 3) with 51. change (8 * 9 + 5) with 77. change (8 * 12 + 6) with 102.
  change (8 * 16 + 0) with 128. change (8 * 19 + 1) with 153. change (8 * 22 + 3) with 179. change (8 * 25 + 4) with 204. change (8 * 28 + 6) with 230.
  by rewrite Z.div_1_r.
Qed.

(** *** Contraction *)

(** **** Borrows *)

Lemma borrow_spec w x : 25 <= w <= 26 -> within32 (2 ^ 28) x -> exists y c, borrow w x = (y, c) /\ x = y - 2 ^ w * c /\
  0 <= y /\ (x < 0 -> y < 2 ^ w) /\ (0 <= x -> c = 0) /\ (x < 0 -> 0 < c <= 8).
Proof.
  unfold within32. change (2 ^ 28) with 268435456. intros Hw Hx. unfold borrow. rewrite (Z.shiftr_div_pow2 x) by lia. change (2 ^ 31) with 2147483648.
  assert (2 ^ w = 33554432 \/ 2 ^ w = 67108864) as Hp by (assert (w = 25 \/ w = 26) as [-> | ->] by lia; [by left|by right]).
  rewrite !Z.shiftr_div_pow2, Z.shiftl_mul_pow2 by lia. destruct (Z.ltb_spec x 0).
  - assert (x / 2147483648 = -1) as -> by (Z.div_mod_to_equations; lia). rewrite Z.land_m1_r.
    assert (-8 <= x / 2 ^ w < 0) as Hd by (destruct Hp as [-> | ->]; Z.div_mod_to_equations; lia).
    pose proof (Z.div_mod x (2 ^ w) ltac:(lia)). pose proof (Z.mod_pos_bound x (2 ^ w) ltac:(lia)).
    generalize dependent (x mod 2 ^ w). generalize dependent (x / 2 ^ w). generalize dependent (2 ^ w). intros W Hp q Hd r E Hr.
    assert (- q * W = r - x) as Eq by lia. rewrite (s32_small (- q)) by lia. rewrite Eq, (s32_small (r - x)), s32_small by lia.
    do 2 eexists. split; [reflexivity|]. lia.
  - rewrite (Z.div_small x) by lia. rewrite Z.land_0_r. rewrite Z.div_0_l by lia. do 2 eexists. split; [reflexivity|].
    change (s32 (- 0)) with 0. change (s32 (0 * 2 ^ w)) with 0. rewrite s32_small; lia.
Qed.

(** Every limb between 0 and [2^26]. *)
Definition nonneg (x : limbs) : Prop :=
  0 <= g0 x <= 2 ^ 26 /\ 0 <= g1 x <= 2 ^ 26 /\ 0 <= g2 x <= 2 ^ 26 /\ 0 <= g3 x <= 2 ^ 26 /\ 0 <= g4 x <= 2 ^ 26 /\
  0 <= g5 x <= 2 ^ 26 /\ 0 <= g6 x <= 2 ^ 26 /\ 0 <= g7 x <= 2 ^ 26 /\ 0 <= g8 x <= 2 ^ 26 /\ 0 <= g9 x <= 2 ^ 26.

(** One limb of a pass, with the borrow [c] of the limb before it. *)
Lemma borrow_next w x c : 25 <= w <= 26 -> within32 (2 ^ 26) x -> 0 <= c <= 160 -> exists y c', borrow w (s32 (x - c)) = (y, c') /\
  x - c = y - 2 ^ w * c' /\ 0 <= y <= 2 ^ 26 /\ 0 <= c' <= 8 /\ (c <= x -> c' = 0) /\ (x < c -> y < 2 ^ w).
Proof.
  intros Hw Hx Hc. unfold within32 in Hx. change (2 ^ 26) with 67108864 in *.
  destruct (borrow_spec w (x - c) Hw) as (y & c' & E & Hv & H0 & H1 & H2 & H3).
  { unfold within32. change (2 ^ 28) with 268435456. lia. }
  rewrite s32_small by lia. exists y, c'. split; [done|]. split; [done|].
  assert (2 ^ w = 33554432 \/ 2 ^ w = 67108864) as Hp by (assert (w = 25 \/ w = 26) as [-> | ->] by lia; [by left|by right]).
  destruct (Z.ltb_spec (x - c) 0).
  - specialize (H1 ltac:(lia)). specialize (H3 ltac:(lia)). lia.
  - specialize (H2 ltac:(lia)). subst c'. lia.
Qed.

Definition tail_nonneg (x : limbs) : Prop :=
  0 <= g1 x <= 2 ^ 26 /\ 0 <= g2 x <= 2 ^ 26 /\ 0 <= g3 x <= 2 ^ 26 /\ 0 <= g4 x <= 2 ^ 26 /\
  0 <= g5 x <= 2 ^ 26 /\ 0 <= g6 x <= 2 ^ 26 /\ 0 <= g7 x <= 2 ^ 26 /\ 0 <= g8 x <= 2 ^ 26 /\ 0 <= g9 x <= 2 ^ 26.

(** After a pass only the first limb can be negative, by a borrow of the last; in a
    second pass such a borrow takes one through zeros, and the first limb has then just
    grown by [2^26]. *)
Lemma borrow_pass_spec x : limbs_in (2 ^ 26) x ->
  value32 (borrow_pass x) =p value32 x /\ -152 <= g0 (borrow_pass x) <= 2 ^ 26 /\ tail_nonneg (borrow_pass x) /\
  (tail_nonneg x -> -152 <= g0 x -> 0 <= g0 (borrow_pass x)).
Proof.
  destruct x as [x0 x1 x2 x3 x4 x5 x6 x7 x8 x9]. unfold limbs_in, tail_nonneg. cbn [g0 g1 g2 g3 g4 g5 g6 g7 g8 g9].
  intros (H0 & H1 & H2 & H3 & H4 & H5 & H6 & H7 & H8 & H9). unfold borrow_pass. cbn [g0 g1 g2 g3 g4 g5 g6 g7 g8 g9].
  destruct (borrow_next 26 x0 0 ltac:(lia) H0 ltac:(lia)) as (y0 & c0 & E0 & V0 & B0 & C0 & N0 & _). rewrite Z.sub_0_r, s32_small in E0 by (unfold within32 in H0; change (2 ^ 26) with 67108864 in H0; lia). rewrite E0.
  destruct (borrow_next 25 x1 c0 ltac:(lia) H1 ltac:(lia)) as (y1 & c1 & -> & V1 & B1 & C1 & N1 & M1).
  destruct (borrow_next 26 x2 c1 ltac:(lia) H2 ltac:(lia)) as (y2 & c2 & -> & V2 & B2 & C2 & N2 & M2).
  destruct (borrow_next 25 x3 c2 ltac:(lia) H3 ltac:(lia)) as (y3 & c3 & -> & V3 & B3 & C3 & N3 & M3).
  destruct (borrow_next 26 x4 c3 ltac:(lia) H4 ltac:(lia)) as (y4 & c4 & -> & V4 & B4 & C4 & N4 & M4).
  destruct (borrow_next 25 x5 c4 ltac:(lia) H5 ltac:(lia)) as (y5 & c5 & -> & V5 & B5 & C5 & N5 & M5).
  destruct (borrow_next 26 x6 c5 ltac:(lia) H6 ltac:(lia)) as (y6 & c6 & -> & V6 & B6 & C6 & N6 & M6).
  destruct (borrow_next 25 x7 c6 ltac:(lia) H7 ltac:(lia)) as (y7 & c7 & -> & V7 & B7 & C7 & N7 & M7).
  destruct (borrow_next 26 x8 c7 ltac:(lia) H8 ltac:(lia)) as (y8 & c8 & -> & V8 & B8 & C8 & N8 & M8).
  destruct (borrow_next 25 x9 c8 ltac:(lia) H9 ltac:(lia)) as (y9 & c9 & -> & V9 & B9 & C9 & N9 & M9).
  cbn [g0 g1 g2 g3 g4 g5 g6 g7 g8 g9]. unfold within32 in *. change (2 ^ 26) with 67108864 in *. change (2 ^ 25) with 33554432 in *.
  rewrite (s32_small (c9 * 19)), s32_small by (clear - B0 C9; lia). split; [|split; [clear - B0 C9; lia|split; [done|]]].
  - exists c9. unfold value32, p25519. cbn [g0 g1 g2 g3 g4 g5 g6 g7 g8 g9].
    replace x0 with (y0 - 67108864 * c0) by (clear - V0; lia).
    replace x1 with (y1 - 33554432 * c1 + c0) by (clear - V1; lia).
    replace x2 with (y2 - 67108864 * c2 + c1) by (clear - V2; lia).
    replace x3 with (y3 - 33554432 * c3 + c2) by (clear - V3; lia).
    replace x4 with (y4 - 67108864 * c4 + c3) by (clear - V4; lia).
    replace x5 with (y5 - 33554432 * c5 + c4) by (clear - V5; lia).
    replace x6 with (y6 - 67108864 * c6 + c5) by (clear - V6; lia).
    replace x7 with (y7 - 33554432 * c7 + c6) by (clear - V7; lia).
    replace x8 with (y8 - 67108864 * c8 + c7) by (clear - V8; lia).
    replace x9 with (y9 - 33554432 * c9 + c8) by (clear - V9; lia).
    ring.
  - intros (T1 & T2 & T3 & T4 & T5 & T6 & T7 & T8 & T9) Hx0.
    assert (c0 <= 1 /\ (c0 = 0 \/ 33554432 <= y0)) as [D0 D] by (clear - Hx0 V0 B0 C0 N0; lia).
    assert (c1 <= c0) as D1 by (clear - C1 N1 M1 V1 B1 T1 C0 D0 ; lia).
    assert (c2 <= c1) as D2 by (clear - C2 N2 M2 V2 B2 T2 C1 D1 D0; lia).
    assert (c3 <= c2) as D3 by (clear - C3 N3 M3 V3 B3 T3 C2 D2 D0; lia).
    assert (c4 <= c3) as D4 by (clear - C4 N4 M4 V4 B4 T4 C3 D3 D0; lia).
    assert (c5 <= c4) as D5 by (clear - C5 N5 M5 V5 B5 T5 C4 D4 D0; lia).
    assert (c6 <= c5) as D6 by (clear - C6 N6 M6 V6 B6 T6 C5 D5 D0; lia).
    assert (c7 <= c6) as D7 by (clear - C7 N7 M7 V7 B7 T7 C6 D6 D0; lia).
    assert (c8 <= c7) as D8 by (clear - C8 N8 M8 V8 B8 T8 C7 D7 D0; lia).
    assert (c9 <= c8) as D9 by (clear - C9 N9 M9 V9 B9 T9 C8 D8 D0; lia).
    clear - D D0 D1 D2 D3 D4 D5 D6 D7 D8 D9 C0 C9 B0. lia.
Qed.

(** **** Carries *)

Lemma carry_limb_spec w x : 25 <= w <= 26 -> 0 <= x -> exists r c, carry_limb w (Z.ones w) x = (r, c) /\ x = r + 2 ^ w * c /\ 0 <= r < 2 ^ w.
Proof.
  intros Hw Hx. exists (x mod 2 ^ w), (x / 2 ^ w). unfold carry_limb. rewrite Z.land_ones, Z.shiftr_div_pow2 by lia.
  split; [done|]. split; [rewrite Z.add_comm; apply Z.div_mod; lia|apply Z.mod_pos_bound; lia].
Qed.

(** The number's low 255 bits, and 19 times what is above them. *)
Lemma carry_pass_spec x : 0 <= g0 x <= 2 ^ 27 -> tail_nonneg x -> exists r c,
  tight r /\ value32 x = value32 r + 2 ^ 255 * c /\ 0 <= c <= 4 /\
  carry_pass x = mk_limbs (g0 r + 19 * c) (g1 r) (g2 r) (g3 r) (g4 r) (g5 r) (g6 r) (g7 r) (g8 r) (g9 r).
Proof.
  destruct x as [x0 x1 x2 x3 x4 x5 x6 x7 x8 x9]. unfold tail_nonneg. cbn [g0 g1 g2 g3 g4 g5 g6 g7 g8 g9].
  change (2 ^ 26) with 67108864. change (2 ^ 27) with 134217728.
  intros H0 (H1 & H2 & H3 & H4 & H5 & H6 & H7 & H8 & H9). unfold carry_pass. cbn [g0 g1 g2 g3 g4 g5 g6 g7 g8 g9].
  destruct (carry_limb_spec 26 x0 ltac:(lia) ltac:(lia)) as (r0 & c0 & E0 & V0 & R0). change 0x3ffffff with (Z.ones 26). change 0x1ffffff with (Z.ones 25). rewrite E0.
  assert (0 <= c0 <= 4) as B0 by (clear - V0 R0 H0; lia). rewrite (s32_small (x1 + c0)) by (clear - H1 B0; lia).
  destruct (carry_limb_spec 25 (x1 + c0) ltac:(lia) ltac:(clear - H1 B0; lia)) as (r1 & c1 & E1 & V1 & R1). rewrite E1.
  assert (0 <= c1 <= 4) as B1 by (clear - V1 R1 H1 B0; lia). rewrite (s32_small (x2 + c1)) by (clear - H2 B1; lia).
  destruct (carry_limb_spec 26 (x2 + c1) ltac:(lia) ltac:(clear - H2 B1; lia)) as (r2 & c2 & E2 & V2 & R2). rewrite E2.
  assert (0 <= c2 <= 4) as B2 by (clear - V2 R2 H2 B1; lia). rewrite (s32_small (x3 + c2)) by (clear - H3 B2; lia).
  destruct (carry_limb_spec 25 (x3 + c2) ltac:(lia) ltac:(clear - H3 B2; lia)) as (r3 & c3 & E3 & V3 & R3). rewrite E3.
  assert (0 <= c3 <= 4) as B3 by (clear - V3 R3 H3 B2; lia). rewrite (s32_small (x4 + c3)) by (clear - H4 B3; lia).
  destruct (carry_limb_spec 26 (x4 + c3) ltac:(lia) ltac:(clear - H4 B3; lia)) as (r4 & c4 & E4 & V4 & R4). rewrite E4.
  assert (0 <= c4 <= 4) as B4 by (clear - V4 R4 H4 B3; lia). rewrite (s32_small (x5 + c4)) by (clear - H5 B4; lia).
  destruct (carry_limb_spec 25 (x5 + c4) ltac:(lia) ltac:(clear - H5 B4; lia)) as (r5 & c5 & E5 & V5 & R5). rewrite E5.
  assert (0 <= c5 <= 4) as B5 by (clear - V5 R5 H5 B4; lia). rewrite (s32_small (x6 + c5)) by (clear - H6 B5; lia).
  destruct (carry_limb_spec 26 (x6 + c5) ltac:(lia) ltac:(clear - H6 B5; lia)) as (r6 & c6 & E6 & V6 & R6). rewrite E6.
  assert (0 <= c6 <= 4) as B6 by (clear - V6 R6 H6 B5; lia). rewrite (s32_small (x7 + c6)) by (clear - H7 B6; lia).
  destruct (carry_limb_spec 25 (x7 + c6) ltac:(lia) ltac:(clear - H7 B6; lia)) as (r7 & c7 & E7 & V7 & R7). rewrite E7.
  assert (0 <= c7 <= 4) as B7 by (clear - V7 R7 H7 B6; lia). rewrite (s32_small (x8 + c7)) by (clear - H8 B7; lia).
  destruct (carry_limb_spec 26 (x8 + c7) ltac:(lia) ltac:(clear - H8 B7; lia)) as (r8 & c8 & E8 & V8 & R8). rewrite E8.
  assert (0 <= c8 <= 4) as B8 by (clear - V8 R8 H8 B7; lia). rewrite (s32_small (x9 + c8)) by (clear - H9 B8; lia).
  destruct (carry_limb_spec 25 (x9 + c8) ltac:(lia) ltac:(clear - H9 B8; lia)) as (r9 & c9 & E9 & V9 & R9). rewrite E9.
  assert (0 <= c9 <= 4) as B9 by (clear - V9 R9 H9 B8; lia).
  change (2 ^ 26) with 67108864 in *. change (2 ^ 25) with 33554432 in *.
  exists (mk_limbs r0 r1 r2 r3 r4 r5 r6 r7 r8 r9), c9. cbn [g0 g1 g2 g3 g4 g5 g6 g7 g8 g9]. split; [|split; [|split; [done|]]].
  - repeat apply conj; cbn [g0 g1 g2 g3 g4 g5 g6 g7 g8 g9]; (apply R0 || apply R1 || apply R2 || apply R3 || apply R4 || apply R5 || apply R6 || apply R7 || apply R8 || apply R9).
  - unfold value32. cbn [g0 g1 g2 g3 g4 g5 g6 g7 g8 g9].
    replace x0 with (r0 + 67108864 * c0) by (clear - V0; lia).
    replace x1 with (r1 + 33554432 * c1 - c0) by (clear - V1; lia).
    replace x2 with (r2 + 67108864 * c2 - c1) by (clear - V2; lia).
    replace x3 with (r3 + 33554432 * c3 - c2) by (clear - V3; lia).
    replace x4 with (r4 + 67108864 * c4 - c3) by (clear - V4; lia).
    replace x5 with (r5 + 33554432 * c5 - c4) by (clear - V5; lia).
    replace x6 with (r6 + 67108864 * c6 - c5) by (clear - V6; lia).
    replace x7 with (r7 + 33554432 * c7 - c6) by (clear - V7; lia).
    replace x8 with (r8 + 67108864 * c8 - c7) by (clear - V8; lia).
    replace x9 with (r9 + 33554432 * c9 - c8) by (clear - V9; lia).
    ring.
  - rewrite (s32_small (19 * c9)), s32_small by (clear - R0 B9; lia). done.
Qed.

Lemma tight_bound x : tight x -> 0 <= value32 x < 2 ^ 255 /\ (value32 x < 2 ^ 26 -> g0 x = value32 x).
Proof.
  unfold tight, value32. change (2 ^ 26) with 67108864. change (2 ^ 25) with 33554432. intros (H0 & H1 & H2 & H3 & H4 & H5 & H6 & H7 & H8 & H9). lia.
Qed.

Lemma tight_tail x : tight x -> tail_nonneg x.
Proof. unfold tight, tail_nonneg. change (2 ^ 26) with 67108864. change (2 ^ 25) with 33554432. intros (_ & H1 & H2 & H3 & H4 & H5 & H6 & H7 & H8 & H9). lia. Qed.

Lemma carry_passes x : 0 <= g0 x <= 2 ^ 26 -> tail_nonneg x ->
  tight (carry_pass (carry_pass x)) /\ value32 (carry_pass (carry_pass x)) =p value32 x.
Proof.
  intros H0 Ht. destruct (carry_pass_spec x ltac:(lia) Ht) as (r & c & Hr & Hv & Hc & ->).
  pose proof (tight_bound r Hr) as [Hb _]. pose proof (tight_tail r Hr) as Htr.
  set (y := mk_limbs (g0 r + 19 * c) (g1 r) (g2 r) (g3 r) (g4 r) (g5 r) (g6 r) (g7 r) (g8 r) (g9 r)).
  assert (value32 y = value32 r + 19 * c) as Hy by (unfold value32, y; cbn [g0 g1 g2 g3 g4 g5 g6 g7 g8 g9]; ring).
  assert (0 <= g0 y <= 2 ^ 27) as Hy0.
  { destruct Hr as [Hr0 _]. unfold y. cbn [g0]. change (2 ^ 26) with 67108864 in Hr0. change (2 ^ 27) with 134217728. lia. }
  destruct (carry_pass_spec y Hy0 Htr) as (r' & c' & Hr' & Hv' & Hc' & ->). pose proof (tight_bound r' Hr') as [Hb' Hs'].
  assert (c' = 0 \/ (c' = 1 /\ value32 r' < 76)) as Hcase by (clear - Hy Hv' Hb Hb' Hc Hc'; lia).
  assert (g0 r' + 19 * c' < 2 ^ 26) as Hg.
  { destruct Hcase as [-> | [-> Hlt]]; [rewrite Z.mul_0_r, Z.add_0_r; apply Hr'|]. rewrite Hs'; change (2 ^ 26) with 67108864; lia. }
  split.
  - destruct Hr' as (R0 & R). split; [|done]. cbn [g0]. clear - Hg R0 Hc'. lia.
  - exists (- c - c'). replace (value32 (mk_limbs _ _ _ _ _ _ _ _ _ _)) with (value32 r' + 19 * c') by (unfold value32; cbn [g0 g1 g2 g3 g4 g5 g6 g7 g8 g9]; ring).
    unfold p25519. clear - Hv Hy Hv'. lia.
Qed.

(** **** The comparison with [p] *)

(** A 32-bit number: bit 31 is its sign. *)
Definition in_s32 (z : Z) : Prop := forall i, 31 <= i -> Z.testbit z i = Z.testbit z 31.

Lemma in_s32_range z : - 2 ^ 31 <= z < 2 ^ 31 -> in_s32 z.
Proof.
  intros Hz i Hi. assert (forall k, 31 <= k -> Z.testbit z k = (z <? 0)) as H; [|by rewrite !H by lia].
  intros k Hk. assert (2 ^ 31 <= 2 ^ k) by (apply Z.pow_le_mono_r; lia). destruct (Z.ltb_spec z 0).
  - rewrite <- (Z.lnot_involutive z), Z.lnot_spec by lia. rewrite <- (Z.mod_small (Z.lnot z) (2 ^ k)) by (unfold Z.lnot; lia).
    by rewrite Z.mod_pow2_bits_high by lia.
  - rewrite <- (Z.mod_small z (2 ^ k)) by lia. by rewrite Z.mod_pow2_bits_high by lia.
Qed.

Lemma in_s32_land x y : in_s32 x -> in_s32 y -> in_s32 (Z.land x y).
Proof. intros Hx Hy i Hi. by rewrite !Z.land_spec, Hx, Hy. Qed.

Lemma in_s32_s32 x : in_s32 (s32 x).
Proof. apply in_s32_range. apply (wrapS_range 32). lia. Qed.

Lemma testbit_s32 x i : 0 <= i < 32 -> Z.testbit (s32 x) i = Z.testbit x i.
Proof.
  intros Hi. rewrite <- (Z.mod_pow2_bits_low x 32), <- (Z.mod_pow2_bits_low (s32 x) 32) by lia. f_equal.
  unfold s32, wrapS. rewrite Zminus_mod_idemp_l. f_equal. lia.
Qed.

(** One step of [s32_eq]: a bit and the one [k] below it. *)
Lemma eq_step a k i : k <= i < 32 -> 0 <= k ->
  Z.testbit (Z.land a (s32 (Z.shiftl a k))) i = Z.testbit a i && Z.testbit a (i - k).
Proof. intros Hi Hk. rewrite Z.land_spec, testbit_s32, Z.shiftl_spec by lia. done. Qed.

Lemma sign_shift a : in_s32 a -> Z.shiftr a 31 = if Z.testbit a 31 then -1 else 0.
Proof.
  intros Ha. apply Z.bits_inj'. intros i Hi. rewrite Z.shiftr_spec, Ha by lia.
  destruct (Z.testbit a 31); [symmetry; by apply Z.bits_m1|symmetry; apply Z.bits_0].
Qed.

Lemma s32_eq_spec a b : 0 <= a < 2 ^ 26 -> 0 <= b < 2 ^ 26 -> s32_eq a b = if a =? b then -1 else 0.
Proof.
  intros Ha Hb. destruct (Z.eqb_spec a b) as [->|Hne]; [unfold s32_eq; by rewrite Z.lxor_nilpotent|].
  assert (exists k, 0 <= k < 26 /\ Z.testbit (Z.lnot (Z.lxor a b)) k = false) as (k & Hk & Hbit).
  { destruct (decide (Exists (fun k => Z.testbit (Z.lnot (Z.lxor a b)) (Z.of_nat k) = false) (seq 0 26))) as [(k & Hk%elem_of_seq & H)%list.Exists_exists|Hno].
    { exists (Z.of_nat k). split; [lia|done]. }
    exfalso. apply Hne. apply Z.bits_inj'. intros i Hi. destruct (decide (i < 26)).
    - destruct (Z.testbit (Z.lnot (Z.lxor a b)) i) eqn:E.
      + rewrite Z.lnot_spec, Z.lxor_spec in E by lia. by destruct (Z.testbit a i), (Z.testbit b i).
      + exfalso. apply Hno. apply list.Exists_exists. exists (Z.to_nat i). rewrite Z2Nat.id by lia. split; [apply elem_of_seq; lia|done].
    - rewrite <- (Z.mod_small a (2 ^ 26)), <- (Z.mod_small b (2 ^ 26)) by lia. by rewrite !Z.mod_pow2_bits_high by lia. }
  unfold s32_eq. set (x := Z.lnot (Z.lxor a b)) in *.
  rewrite sign_shift by (apply in_s32_land, in_s32_s32; apply in_s32_land, in_s32_s32; apply in_s32_land, in_s32_s32;
    apply in_s32_land, in_s32_s32; apply in_s32_land, in_s32_s32; intros i Hi; unfold x; rewrite !Z.lnot_spec, !Z.lxor_spec by lia;
    by rewrite !(in_s32_range a), !(in_s32_range b) by (done || lia)).
  rewrite !eq_step by lia.
  assert (k = 0 \/ k = 1 \/ k = 2 \/ k = 3 \/ k = 4 \/ k = 5 \/ k = 6 \/ k = 7 \/ k = 8 \/ k = 9 \/ k = 10 \/ k = 11 \/ k = 12 \/ k = 13 \/
    k = 14 \/ k = 15 \/ k = 16 \/ k = 17 \/ k = 18 \/ k = 19 \/ k = 20 \/ k = 21 \/ k = 22 \/ k = 23 \/ k = 24 \/ k = 25) as Hc by lia.
  repeat match goal with |- context [Z.testbit x (?e - ?d)] => let v := eval compute in (e - d) in change (e - d) with v end.
  repeat (destruct Hc as [-> | Hc]); [rewrite Hbit, ?andb_false_r; done..|]. subst k. rewrite Hbit, ?andb_false_r; done.
Qed.

Lemma s32_gte_spec a b : 0 <= a < 2 ^ 26 -> 0 <= b < 2 ^ 26 -> s32_gte a b = if b <=? a then -1 else 0.
Proof.
  change (2 ^ 26) with 67108864. intros Ha Hb. unfold s32_gte. rewrite s32_small, Z.shiftr_div_pow2 by lia. change (2 ^ 31) with 2147483648.
  destruct (Z.leb_spec b a).
  - by rewrite Z.div_small by lia.
  - assert ((a - b) / 2147483648 = -1) as -> by (Z.div_mod_to_equations; lia). done.
Qed.

Lemma land_masks (a b : bool) : Z.land (if a then -1 else 0) (if b then -1 else 0) = if a && b then -1 else 0.
Proof. by destruct a, b. Qed.

Lemma ge_p_mask_spec x : tight x -> ge_p_mask x = if p25519 <=? value32 x then -1 else 0.
Proof.
  intros (H0 & H1 & H2 & H3 & H4 & H5 & H6 & H7 & H8 & H9). unfold ge_p_mask. change (2 ^ 25) with 33554432 in *. change (2 ^ 26) with 67108864 in *.
  rewrite s32_gte_spec, !s32_eq_spec by (change (2 ^ 26) with 67108864; lia). rewrite !land_masks.
  match goal with |- (if ?b then _ else _) = _ => replace b with (p25519 <=? value32 x); [done|] end.
  apply eq_true_iff_eq. rewrite !andb_true_iff, !Z.eqb_eq, !Z.leb_le. unfold value32, p25519. clear - H0 H1 H2 H3 H4 H5 H6 H7 H8 H9. lia.
Qed.

Lemma subtract_p_spec x : tight x -> tight (subtract_p x) /\ value32 (subtract_p x) = value32 x mod p25519.
Proof.
  intros Ht. pose proof (tight_bound x Ht) as [Hb _]. unfold subtract_p. rewrite ge_p_mask_spec by done.
  destruct Ht as (H0 & H1 & H2 & H3 & H4 & H5 & H6 & H7 & H8 & H9). change (2 ^ 25) with 33554432 in *. change (2 ^ 26) with 67108864 in *.
  destruct (Z.leb_spec p25519 (value32 x)) as [Hge|Hlt].
  - rewrite !Z.land_m1_l.
    assert (g1 x = 33554431 /\ g2 x = 67108863 /\ g3 x = 33554431 /\ g4 x = 67108863 /\ g5 x = 33554431 /\ g6 x = 67108863 /\
      g7 x = 33554431 /\ g8 x = 67108863 /\ g9 x = 33554431 /\ 67108845 <= g0 x) as (E1 & E2 & E3 & E4 & E5 & E6 & E7 & E8 & E9 & E0)
      by (unfold value32, p25519 in Hge; lia).
    rewrite E1, E2, E3, E4, E5, E6, E7, E8, E9. change (s32 (33554431 - 33554431)) with 0. change (s32 (67108863 - 67108863)) with 0.
    rewrite s32_small by lia. split.
    + unfold tight. cbn [g0 g1 g2 g3 g4 g5 g6 g7 g8 g9]. change (2 ^ 25) with 33554432. change (2 ^ 26) with 67108864. lia.
    + apply (Z.mod_unique_pos _ _ 1); unfold value32, p25519 in *; cbn [g0 g1 g2 g3 g4 g5 g6 g7 g8 g9]; lia.
  - rewrite !Z.land_0_l, !Z.sub_0_r, !s32_small by lia. split.
    + unfold tight. cbn [g0 g1 g2 g3 g4 g5 g6 g7 g8 g9]. change (2 ^ 25) with 33554432. change (2 ^ 26) with 67108864. lia.
    + rewrite Z.mod_small by lia. done.
Qed.

(** **** The bytes *)

Lemma put_limbs_eq output x : length output = 32%nat ->
  let y0 := g0 x in
  let y1 := s32 (Z.shiftl (g1 x) 2) in
  let y2 := s32 (Z.shiftl (g2 x) 3) in
  let y3 := s32 (Z.shiftl (g3 x) 5) in
  let y4 := s32 (Z.shiftl (g4 x) 6) in
  let y5 := g5 x in
  let y6 := s32 (Z.shiftl (g6 x) 1) in
  let y7 := s32 (Z.shiftl (g7 x) 3) in
  let y8 := s32 (Z.shiftl (g8 x) 4) in
  let y9 := s32 (Z.shiftl (g9 x) 6) in
  put_limbs output x = Some [Z.lor 0 (Z.land y0 0xff); Z.land (Z.shiftr y0 8) 0xff; Z.land (Z.shiftr y0 16) 0xff; Z.lor (Z.land (Z.shiftr y0 24) 0xff) (Z.land y1 0xff); Z.land (Z.shiftr y1 8) 0xff; Z.land (Z.shiftr y1 16) 0xff; Z.lor (Z.land (Z.shiftr y1 24) 0xff) (Z.land y2 0xff); Z.land (Z.shiftr y2 8) 0xff; Z.land (Z.shiftr y2 16) 0xff; Z.lor (Z.land (Z.shiftr y2 24) 0xff) (Z.land y3 0xff); Z.land (Z.shiftr y3 8) 0xff; Z.land (Z.shiftr y3 16) 0xff; Z.lor (Z.land (Z.shiftr y3 24) 0xff) (Z.land y4 0xff); Z.land (Z.shiftr y4 8) 0xff; Z.land (Z.shiftr y4 16) 0xff; Z.land (Z.shiftr y4 24) 0xff; Z.lor 0 (Z.land y5 0xff); Z.land (Z.shiftr y5 8) 0xff; Z.land (Z.shiftr y5 16) 0xff; Z.lor (Z.land (Z.shiftr y5 24) 0xff) (Z.land y6 0xff); Z.land (Z.shiftr y6 8) 0xff; Z.land (Z.shiftr y6 16) 0xff; Z.lor (Z.land (Z.shiftr y6 24) 0xff) (Z.land y7 0xff); Z.land (Z.shiftr y7 8) 0xff; Z.land (Z.shiftr y7 16) 0xff; Z.lor (Z.land (Z.shiftr y7 24) 0xff) (Z.land y8 0xff); Z.land (Z.shiftr y8 8) 0xff; Z.land (Z.shiftr y8 16) 0xff; Z.lor (Z.land (Z.shiftr y8 24) 0xff) (Z.land y9 0xff); Z.land (Z.shiftr y9 8) 0xff; Z.land (Z.shiftr y9 16) 0xff; Z.land (Z.shiftr y9 24) 0xff].
Proof.
  intros Hl. destruct output as [|b0 [|b1 [|b2 [|b3 [|b4 [|b5 [|b6 [|b7 [|b8 [|b9 [|b10 [|b11 [|b12 [|b13 [|b14 [|b15 [|b16 [|b17 [|b18 [|b19 [|b20 [|b21 [|b22 [|b23 [|b24 [|b25 [|b26 [|b27 [|b28 [|b29 [|b30 [|b31 []]]]]]]]]]]]]]]]]]]]]]]]]]]]]]]]]; try discriminate Hl. reflexivity.
Qed.

(** The bytes of a shifted limb do not depend on whether it fits [int32_t]. *)
Lemma byte_of_s32 y k : 0 <= k <= 24 -> Z.land (Z.shiftr (s32 y) k) 0xff = y / 2 ^ k mod 256.
Proof.
  intros Hk. change 0xff with (Z.ones 8). change 256 with (2 ^ 8). rewrite Z.land_ones by lia. apply Z.bits_inj'. intros i Hi.
  destruct (Z.ltb_spec i 8).
  - by rewrite !Z.mod_pow2_bits_low, Z.shiftr_spec, testbit_s32, Z.div_pow2_bits by lia.
  - by rewrite !Z.mod_pow2_bits_high by lia.
Qed.

Lemma low_byte_of_s32 y : Z.land (s32 y) 0xff = y mod 256.
Proof. pose proof (byte_of_s32 y 0 ltac:(lia)) as H. by rewrite Z.shiftr_0_r, Z.div_1_r in H. Qed.

(** Two limbs meet in a byte: their bits are disjoint. *)
Lemma overlap a x s : 0 <= s <= 8 -> 0 <= a < 2 ^ s -> Z.lor a ((x * 2 ^ s) mod 256) = a + (x * 2 ^ s) mod 256.
Proof.
  intros Hs Ha. replace 256 with (2 ^ (8 - s) * 2 ^ s) by (rewrite <- Z.pow_add_r by lia; by replace (8 - s + s) with 8 by lia).
  assert (0 < 2 ^ s) by lia. assert (0 < 2 ^ (8 - s)) by (apply Z.pow_pos_nonneg; lia).
  rewrite Z.mul_mod_distr_r by lia. rewrite <- Z.shiftl_mul_pow2, lor_shift by lia. by rewrite Z.shiftl_mul_pow2 by lia.
Qed.

Lemma overlap_byte a x s : 0 <= s <= 8 -> 0 <= a < 2 ^ s -> is_byte (a + (x * 2 ^ s) mod 256).
Proof.
  intros Hs Ha. assert (2 ^ (8 - s) * 2 ^ s = 256) as E by (rewrite <- Z.pow_add_r by lia; by replace (8 - s + s) with 8 by lia).
  assert (0 < 2 ^ s) by lia. assert (0 < 2 ^ (8 - s)) by (apply Z.pow_pos_nonneg; lia). unfold is_byte.
  replace (x * 2 ^ s mod 256) with (x mod 2 ^ (8 - s) * 2 ^ s) by (rewrite <- E, Z.mul_mod_distr_r by lia; done).
  pose proof (Z.mod_pos_bound x (2 ^ (8 - s)) ltac:(lia)). nia.
Qed.

Lemma four_bytes y : 0 <= y < 2 ^ 32 ->
  y = y mod 256 + 256 * (y / 2 ^ 8 mod 256) + 65536 * (y / 2 ^ 16 mod 256) + 16777216 * (y / 2 ^ 24 mod 256).
Proof.
  change (2 ^ 32) with 4294967296. change (2 ^ 8) with 256. change (2 ^ 16) with 65536. change (2 ^ 24) with 16777216. intros Hy.
  Z.div_mod_to_equations; lia.
Qed.

Lemma top_byte y b : 0 <= y < b * 2 ^ 24 -> b <= 256 -> 0 <= y / 2 ^ 24 mod 256 < b.
Proof.
  change (2 ^ 24) with 16777216. intros Hy Hb. assert (0 <= y / 16777216 < b) by (split; [apply Z.div_pos; lia|apply Z.div_lt_upper_bound; lia]).
  rewrite Z.mod_small; lia.
Qed.

Lemma put_limbs_spec output x : length output = 32%nat -> tight x -> put_limbs output x = Some (le_bytes 32 (value32 x)).
Proof.
  intros Hl (H0 & H1 & H2 & H3 & H4 & H5 & H6 & H7 & H8 & H9). rewrite put_limbs_eq by done. f_equal.
  destruct x as [x0 x1 x2 x3 x4 x5 x6 x7 x8 x9]. cbn [g0 g1 g2 g3 g4 g5 g6 g7 g8 g9] in *.
  change (2 ^ 26) with 67108864 in *. change (2 ^ 25) with 33554432 in *.
  rewrite <- (s32_small x0), <- (s32_small x5) by lia. rewrite !Z.shiftl_mul_pow2 by lia. rewrite !byte_of_s32, !low_byte_of_s32, !Z.lor_0_l by lia.
  rewrite (s32_small x0), (s32_small x5) by lia.
  pose proof (top_byte x0 (2 ^ 2) ltac:(lia) ltac:(lia)) as T0.
  pose proof (top_byte (x1 * 2 ^ 2) (2 ^ 3) ltac:(lia) ltac:(lia)) as T1.
  pose proof (top_byte (x2 * 2 ^ 3) (2 ^ 5) ltac:(lia) ltac:(lia)) as T2.
  pose proof (top_byte (x3 * 2 ^ 5) (2 ^ 6) ltac:(lia) ltac:(lia)) as T3.
  pose proof (top_byte x5 (2 ^ 1) ltac:(lia) ltac:(lia)) as T5.
  pose proof (top_byte (x6 * 2 ^ 1) (2 ^ 3) ltac:(lia) ltac:(lia)) as T6.
  pose proof (top_byte (x7 * 2 ^ 3) (2 ^ 4) ltac:(lia) ltac:(lia)) as T7.
  pose proof (top_byte (x8 * 2 ^ 4) (2 ^ 6) ltac:(lia) ltac:(lia)) as T8.
  rewrite (overlap _ x1 2 ltac:(lia) T0), (overlap _ x2 3 ltac:(lia) T1), (overlap _ x3 5 ltac:(lia) T2), (overlap _ x4 6 ltac:(lia) T3), (overlap _ x6 1 ltac:(lia) T5), (overlap _ x7 3 ltac:(lia) T6), (overlap _ x8 4 ltac:(lia) T7), (overlap _ x9 6 ltac:(lia) T8).
  pose proof (overlap_byte _ x1 2 ltac:(lia) T0) as O0.
  pose proof (overlap_byte _ x2 3 ltac:(lia) T1) as O1.
  pose proof (overlap_byte _ x3 5 ltac:(lia) T2) as O2.
  pose proof (overlap_byte _ x4 6 ltac:(lia) T3) as O3.
  pose proof (overlap_byte _ x6 1 ltac:(lia) T5) as O5.
  pose proof (overlap_byte _ x7 3 ltac:(lia) T6) as O6.
  pose proof (overlap_byte _ x8 4 ltac:(lia) T7) as O7.
  pose proof (overlap_byte _ x9 6 ltac:(lia) T8) as O8.
  pose proof (four_bytes x0 ltac:(change (2 ^ 32) with 4294967296; lia)) as F0.
  pose proof (four_bytes (x1 * 2 ^ 2) ltac:(change (2 ^ 32) with 4294967296; lia)) as F1.
  pose proof (four_bytes (x2 * 2 ^ 3) ltac:(change (2 ^ 32) with 4294967296; lia)) as F2.
  pose proof (four_bytes (x3 * 2 ^ 5) ltac:(change (2 ^ 32) with 4294967296; lia)) as F3.
  pose proof (four_bytes (x4 * 2 ^ 6) ltac:(change (2 ^ 32) with 4294967296; lia)) as F4.
  pose proof (four_bytes x5 ltac:(change (2 ^ 32) with 4294967296; lia)) as F5.
  pose proof (four_bytes (x6 * 2 ^ 1) ltac:(change (2 ^ 32) with 4294967296; lia)) as F6.
  pose proof (four_bytes (x7 * 2 ^ 3) ltac:(change (2 ^ 32) with 4294967296; lia)) as F7.
  pose proof (four_bytes (x8 * 2 ^ 4) ltac:(change (2 ^ 32) with 4294967296; lia)) as F8.
  pose proof (four_bytes (x9 * 2 ^ 6) ltac:(change (2 ^ 32) with 4294967296; lia)) as F9.
  pose proof (Z.mod_pos_bound (x0 / 2 ^ 8) 256 ltac:(lia)) as P0_8. generalize dependent (x0 / 2 ^ 8 mod 256). intros b0_8; intros.
  pose proof (Z.mod_pos_bound (x0 / 2 ^ 16) 256 ltac:(lia)) as P0_16. generalize dependent (x0 / 2 ^ 16 mod 256). intros b0_16; intros.
  pose proof (Z.mod_pos_bound (x0 / 2 ^ 24) 256 ltac:(lia)) as P0_24. generalize dependent (x0 / 2 ^ 24 mod 256). intros b0_24; intros.
  pose proof (Z.mod_pos_bound x0 256 ltac:(lia)) as P0_0. generalize dependent (x0 mod 256). intros b0_0; intros.
  pose proof (Z.mod_pos_bound ((x1 * 2 ^ 2) / 2 ^ 8) 256 ltac:(lia)) as P1_8. generalize dependent ((x1 * 2 ^ 2) / 2 ^ 8 mod 256). intros b1_8; intros.
  pose proof (Z.mod_pos_bound ((x1 * 2 ^ 2) / 2 ^ 16) 256 ltac:(lia)) as P1_16. generalize dependent ((x1 * 2 ^ 2) / 2 ^ 16 mod 256). intros b1_16; intros.
  pose proof (Z.mod_pos_bound ((x1 * 2 ^ 2) / 2 ^ 24) 256 ltac:(lia)) as P1_24. generalize dependent ((x1 * 2 ^ 2) / 2 ^ 24 mod 256). intros b1_24; intros.
  pose proof (Z.mod_pos_bound (x1 * 2 ^ 2) 256 ltac:(lia)) as P1_0. generalize dependent ((x1 * 2 ^ 2) mod 256). intros b1_0; intros.
  pose proof (Z.mod_pos_bound ((x2 * 2 ^ 3) / 2 ^ 8) 256 ltac:(lia)) as P2_8. generalize dependent ((x2 * 2 ^ 3) / 2 ^ 8 mod 256). intros b2_8; intros.
  pose proof (Z.mod_pos_bound ((x2 * 2 ^ 3) / 2 ^ 16) 256 ltac:(lia)) as P2_16. generalize dependent ((x2 * 2 ^ 3) / 2 ^ 16 mod 256). intros b2_16; intros.
  pose proof (Z.mod_pos_bound ((x2 * 2 ^ 3) / 2 ^ 24) 256 ltac:(lia)) as P2_24. generalize dependent ((x2 * 2 ^ 3) / 2 ^ 24 mod 256). intros b2_24; intros.
  pose proof (Z.mod_pos_bound (x2 * 2 ^ 3) 256 ltac:(lia)) as P2_0. generalize dependent ((x2 * 2 ^ 3) mod 256). intros b2_0; intros.
  pose proof (Z.mod_pos_bound ((x3 * 2 ^ 5) / 2 ^ 8) 256 ltac:(lia)) as P3_8. generalize dependent ((x3 * 2 ^ 5) / 2 ^ 8 mod 256). intros b3_8; intros.
  pose proof (Z.mod_pos_bound ((x3 * 2 ^ 5) / 2 ^ 16) 256 ltac:(lia)) as P3_16. generalize dependent ((x3 * 2 ^ 5) / 2 ^ 16 mod 256). intros b3_16; intros.
  pose proof (Z.mod_pos_bound ((x3 * 2 ^ 5) / 2 ^ 24) 256 ltac:(lia)) as P3_24. generalize dependent ((x3 * 2 ^ 5) / 2 ^ 24 mod 256). intros b3_24; intros.
  pose proof (Z.mod_pos_bound (x3 * 2 ^ 5) 256 ltac:(lia)) as P3_0. generalize dependent ((x3 * 2 ^ 5) mod 256). intros b3_0; intros.
  pose proof (Z.mod_pos_bound ((x4 * 2 ^ 6) / 2 ^ 8) 256 ltac:(lia)) as P4_8. generalize dependent ((x4 * 2 ^ 6) / 2 ^ 8 mod 256). intros b4_8; intros.
  pose proof (Z.mod_pos_bound ((x4 * 2 ^ 6) / 2 ^ 16) 256 ltac:(lia)) as P4_16. generalize dependent ((x4 * 2 ^ 6) / 2 ^ 16 mod 256). intros b4_16; intros.
  pose proof (Z.mod_pos_bound ((x4 * 2 ^ 6) / 2 ^ 24) 256 ltac:(lia)) as P4_24. generalize dependent ((x4 * 2 ^ 6) / 2 ^ 24 mod 256). intros b4_24; intros.
  pose proof (Z.mod_pos_bound (x4 * 2 ^ 6) 256 ltac:(lia)) as P4_0. generalize dependent ((x4 * 2 ^ 6) mod 256). intros b4_0; intros.
  pose proof (Z.mod_pos_bound (x5 / 2 ^ 8) 256 ltac:(lia)) as P5_8. generalize dependent (x5 / 2 ^ 8 mod 256). intros b5_8; intros.
  pose proof (Z.mod_pos_bound (x5 / 2 ^ 16) 256 ltac:(lia)) as P5_16. generalize dependent (x5 / 2 ^ 16 mod 256). intros b5_16; intros.
  pose proof (Z.mod_pos_bound (x5 / 2 ^ 24) 256 ltac:(lia)) as P5_24. generalize dependent (x5 / 2 ^ 24 mod 256). intros b5_24; intros.
  pose proof (Z.mod_pos_bound x5 256 ltac:(lia)) as P5_0. generalize dependent (x5 mod 256). intros b5_0; intros.
  pose proof (Z.mod_pos_bound ((x6 * 2 ^ 1) / 2 ^ 8) 256 ltac:(lia)) as P6_8. generalize dependent ((x6 * 2 ^ 1) / 2 ^ 8 mod 256). intros b6_8; intros.
  pose proof (Z.mod_pos_bound ((x6 * 2 ^ 1) / 2 ^ 16) 256 ltac:(lia)) as P6_16. generalize dependent ((x6 * 2 ^ 1) / 2 ^ 16 mod 256). intros b6_16; intros.
  pose proof (Z.mod_pos_bound ((x6 * 2 ^ 1) / 2 ^ 24) 256 ltac:(lia)) as P6_24. generalize dependent ((x6 * 2 ^ 1) / 2 ^ 24 mod 256). intros b6_24; intros.
  pose proof (Z.mod_pos_bound (x6 * 2 ^ 1) 256 ltac:(lia)) as P6_0. generalize dependent ((x6 * 2 ^ 1) mod 256). intros b6_0; intros.
  pose proof (Z.mod_pos_bound ((x7 * 2 ^ 3) / 2 ^ 8) 256 ltac:(lia)) as P7_8. generalize dependent ((x7 * 2 ^ 3) / 2 ^ 8 mod 256). intros b7_8; intros.
  pose proof (Z.mod_pos_bound ((x7 * 2 ^ 3) / 2 ^ 16) 256 ltac:(lia)) as P7_16. generalize dependent ((x7 * 2 ^ 3) / 2 ^ 16 mod 256). intros b7_16; intros.
  pose proof (Z.mod_pos_bound ((x7 * 2 ^ 3) / 2 ^ 24) 256 ltac:(lia)) as P7_24. generalize dependent ((x7 * 2 ^ 3) / 2 ^ 24 mod 256). intros b7_24; intros.
  pose proof (Z.mod_pos_bound (x7 * 2 ^ 3) 256 ltac:(lia)) as P7_0. generalize dependent ((x7 * 2 ^ 3) mod 256). intros b7_0; intros.
  pose proof (Z.mod_pos_bound ((x8 * 2 ^ 4) / 2 ^ 8) 256 ltac:(lia)) as P8_8. generalize dependent ((x8 * 2 ^ 4) / 2 ^ 8 mod 256). intros b8_8; intros.
  pose proof (Z.mod_pos_bound ((x8 * 2 ^ 4) / 2 ^ 16) 256 ltac:(lia)) as P8_16. generalize dependent ((x8 * 2 ^ 4) / 2 ^ 16 mod 256). intros b8_16; intros.
  pose proof (Z.mod_pos_bound ((x8 * 2 ^ 4) / 2 ^ 24) 256 ltac:(lia)) as P8_24. generalize dependent ((x8 * 2 ^ 4) / 2 ^ 24 mod 256). intros b8_24; intros.
  pose proof (Z.mod_pos_bound (x8 * 2 ^ 4) 256 ltac:(lia)) as P8_0. generalize dependent ((x8 * 2 ^ 4) mod 256). intros b8_0; intros.
  pose proof (Z.mod_pos_bound ((x9 * 2 ^ 6) / 2 ^ 8) 256 ltac:(lia)) as P9_8. generalize dependent ((x9 * 2 ^ 6) / 2 ^ 8 mod 256). intros b9_8; intros.
  pose proof (Z.mod_pos_bound ((x9 * 2 ^ 6) / 2 ^ 16) 256 ltac:(lia)) as P9_16. generalize dependent ((x9 * 2 ^ 6) / 2 ^ 16 mod 256). intros b9_16; intros.
  pose proof (Z.mod_pos_bound ((x9 * 2 ^ 6) / 2 ^ 24) 256 ltac:(lia)) as P9_24. generalize dependent ((x9 * 2 ^ 6) / 2 ^ 24 mod 256). intros b9_24; intros.
  pose proof (Z.mod_pos_bound (x9 * 2 ^ 6) 256 ltac:(lia)) as P9_0. generalize dependent ((x9 * 2 ^ 6) mod 256). intros b9_0; intros.
  match goal with |- ?l = le_bytes 32 ?v => assert (le_int l = v) as E; [|rewrite <- E; symmetry; apply (le_bytes_int l)] end.
  - unfold value32. cbn [le_int g0 g1 g2 g3 g4 g5 g6 g7 g8 g9]. change (2 ^ 1) with 2 in *. change (2 ^ 2) with 4 in *. change (2 ^ 3) with 8 in *.
    change (2 ^ 4) with 16 in *. change (2 ^ 5) with 32 in *. change (2 ^ 6) with 64 in *. clear - F0 F1 F2 F3 F4 F5 F6 F7 F8 F9. lia.
  - repeat (constructor; [assumption|]). constructor.
Qed.

Lemma fcontract32_spec output x : length output = 32%nat -> short32 x ->
  fcontract32 output x = Some (le_bytes 32 (value32 x mod p25519)).
Proof.
  intros Hl Hx. unfold fcontract32.
  replace (mk_limbs (s32 (g0 x)) _ _ _ _ _ _ _ _ _) with x.
  2:{ destruct x as [x0 x1 x2 x3 x4 x5 x6 x7 x8 x9]. unfold short32, limbs_in, within32 in Hx. cbn [g0 g1 g2 g3 g4 g5 g6 g7 g8 g9] in *.
      change (2 ^ 26) with 67108864 in *. by rewrite !s32_small by lia. }
  destruct (borrow_pass_spec x Hx) as (V1 & B1 & T1 & _). set (y := borrow_pass x) in *.
  assert (limbs_in (2 ^ 26) y) as Hy.
  { unfold tail_nonneg in T1. unfold limbs_in, within32. change (2 ^ 26) with 67108864 in *. clear - B1 T1. lia. }
  destruct (borrow_pass_spec y Hy) as (V2 & B2 & T2 & N2). specialize (N2 T1 ltac:(apply B1)). set (z := borrow_pass y) in *.
  assert (borrow 26 (g0 z) = (g0 z, 0)) as ->.
  { destruct (borrow_spec 26 (g0 z) ltac:(lia)) as (a & c & -> & E & _ & _ & Hc & _).
    { unfold within32. change (2 ^ 28) with 268435456. change (2 ^ 26) with 67108864 in B2. lia. }
    specialize (Hc N2). subst c. rewrite Z.mul_0_r, Z.sub_0_r in E. by rewrite E. }
  rewrite Z.sub_0_r, (s32_small (g1 z)) by (destruct T2 as [T2 _]; change (2 ^ 26) with 67108864 in T2; lia).
  replace (mk_limbs (g0 z) (g1 z) _ _ _ _ _ _ _ _) with z by (by destruct z).
  destruct (carry_passes z (conj N2 (proj2 B2)) T2) as [Ht V3]. destruct (subtract_p_spec _ Ht) as [Hs E].
  rewrite put_limbs_spec by done. rewrite E. do 2 f_equal. apply eqp_iff. by rewrite V3, V2, V1.
Qed.

(** ** The functions of the cards *)

(** Any 32 entries expand to limbs; the results are reduced bytes. *)
Lemma fmul_donna_any result a b : length result = 32%nat -> length a = 32%nat -> length b = 32%nat ->
  exists v, fmul_donna result a b = Some (le_bytes 32 (v mod p25519)).
Proof.
  intros Hr Ha Hb. unfold fmul_donna. destruct (fexpand32_total a Ha) as (x & -> & Hx). destruct (fexpand32_total b Hb) as (y & -> & Hy).
  cbn [mbind option_bind]. destruct (fmul32_spec x y) as [H1 H2]; [by apply short_loose32, tight_short..|].
  eexists. by apply fcontract32_spec.
Qed.

Lemma crecip_donna_any result a : length result = 32%nat -> length a = 32%nat ->
  exists v, crecip_donna result a = Some (le_bytes 32 (v mod p25519)).
Proof.
  intros Hr Ha. unfold crecip_donna. destruct (fexpand32_total a Ha) as (x & -> & Hx). cbn [mbind option_bind].
  destruct (crecip32_spec x) as [H1 H2]; [by apply tight_short|]. eexists. by apply fcontract32_spec.
Qed.

Lemma fmul_donna_spec result a b : length result = 32%nat -> bits256_ok a -> bits256_ok b ->
  fmul_donna result a b = Some (le_bytes 32 ((le_int a mod 2 ^ 255) * (le_int b mod 2 ^ 255) mod p25519)).
Proof.
  intros Hr Ha Hb. unfold fmul_donna. destruct (fexpand32_spec a Ha) as (x & -> & Hx & <-). destruct (fexpand32_spec b Hb) as (y & -> & Hy & <-).
  cbn [mbind option_bind]. destruct (fmul32_spec x y) as [H1 H2]; [by apply short_loose32, tight_short..|].
  rewrite fcontract32_spec by done. apply (f_equal (Some ∘ le_bytes 32)). by apply eqp_iff.
Qed.

Lemma crecip_donna_spec result a : length result = 32%nat -> bits256_ok a ->
  crecip_donna result a = Some (le_bytes 32 ((le_int a mod 2 ^ 255) ^ (p25519 - 2) mod p25519)).
Proof.
  intros Hr Ha. unfold crecip_donna. destruct (fexpand32_spec a Ha) as (x & -> & Hx & <-). cbn [mbind option_bind].
  destruct (crecip32_spec x) as [H1 H2]; [by apply tight_short|]. rewrite fcontract32_spec by done. apply (f_equal (Some ∘ le_bytes 32)). by apply eqp_iff.
Qed.

(** The quotient of the ladder's results. *)
Lemma quotient_x25519 result n q x z : length result = 32%nat -> short32 x -> short32 z ->
  (let '(a, c, _, _) := spec_upto n q 256 in value32 x =p a /\ value32 z =p c) ->
  fcontract32 result (fmul32 x (crecip32 z)) = Some (le_bytes 32 (x25519 n q)).
Proof.
  intros Hr Hx Hz. unfold x25519. generalize (spec_upto n q 256). intros [[[a c] a'] c'] [Ea Ec].
  destruct (crecip32_spec z Hz) as [H1 V1]. destruct (fmul32_spec x (crecip32 z)) as [H2 V2]; [by apply short_loose32..|].
  rewrite fcontract32_spec by done. apply (f_equal (Some ∘ le_bytes 32)). apply eqp_iff.
  rewrite V2, V1, Ea, Zpow_facts.Zpow_mod_correct by done. rewrite eqp_mod. f_equiv. apply pow_eqp; [done|exact Ec].
Qed.

Lemma xoverz_donna_x25519 result a : length result = 32%nat -> bits256_ok a ->
  xoverz_donna result a = Some (le_bytes 32 (x25519 (le_int a) 9)).
Proof.
  intros Hr Ha. unfold xoverz_donna. destruct (fexpand32_spec (9 :: replicate 31 0)) as (q & -> & Hq & E); [concrete|].
  change (le_int (9 :: replicate 31 0) mod 2 ^ 255) with 9 in E. cbn [mbind option_bind].
  destruct (cmult32_spec a q Ha (tight_short _ Hq)) as (x & z & -> & Hx & Hz & Hv). cbn [mbind option_bind]. rewrite E in Hv.
  by apply quotient_x25519.
Qed.

(** C23: [fmul_donna] returns the product and [crecip_donna] the inverse - the power
    [p - 2] - of the low 255 bits of its arguments modulo [p], as the 32 bytes of the
    number below [p].  This is on a machine whose signed words wrap: the shift of line
    589 leaves [int32_t] for half of the results. *)
Theorem donna_correct result a b : length result = 32%nat -> bits256_ok a -> bits256_ok b ->
  fmul_donna result a b = Some (le_bytes 32 ((le_int a mod 2 ^ 255) * (le_int b mod 2 ^ 255) mod p25519)) /\
  crecip_donna result a = Some (le_bytes 32 ((le_int a mod 2 ^ 255) ^ (p25519 - 2) mod p25519)).
Proof. split; [by apply fmul_donna_spec|by apply crecip_donna_spec]. Qed.

Example donna_correct_witness :
  fmul_donna (replicate 32 77) (replicate 32 255) (9 :: replicate 31 200) =
    Some (le_bytes 32 ((le_int (replicate 32 255) mod 2 ^ 255) * (le_int (9 :: replicate 31 200) mod 2 ^ 255) mod p25519)) /\
  crecip_donna (replicate 32 77) (replicate 32 255) =
    Some (le_bytes 32 ((le_int (replicate 32 255) mod 2 ^ 255) ^ (p25519 - 2) mod p25519)).
Proof. apply (donna_correct (replicate 32 77) (replicate 32 255) (9 :: replicate 31 200)); concrete. Defined.

(** The shift by six of the limb of bits 102 to 127 does not fit [int32_t] when its top
    bit is set; the bytes are still right on a machine that wraps. *)
Example input4_shift : (Z.shiftl (2 ^ 25) 6 =? s32 (Z.shiftl (2 ^ 25) 6)) = false.
Proof. reflexivity. Qed.

(** [curve25519_donna] clamps the secret first. *)
Lemma curve25519_donna_spec mypublic secret base e : length mypublic = 32%nat -> length e = 32%nat -> bits256_ok secret -> bits256_ok base ->
  (e0 ← aget secret 0; e ← aset secret 0 (Z.land e0 248); e31 ← aget e 31; e ← aset e 31 (Z.land e31 127);
   e31 ← aget e 31; aset e 31 (Z.lor e31 64)) = Some e -> bits256_ok e ->
  curve25519_donna mypublic secret base = Ladder.curve25519 e base.
Proof.
  intros Hm He [Hl Hb] Hbase Hc Hok. rewrite curve25519_x25519 by done. unfold curve25519_donna.
  assert (memcpy (replicate 32 0) 0 secret 0 32 = Some secret) as ->.
  { rewrite memcpy_eq by (rewrite ?length_replicate; lia). f_equal. change (Z.to_nat 0) with 0%nat. rewrite drop_0, take_0, firstn_all2 by lia.
    change (drop (Z.to_nat (0 + 32)) (replicate 32 0)) with (@nil Z). apply app_nil_r. }
  cbn [mbind option_bind]. destruct (aget secret 0) as [e0|]; [|done]. cbn [mbind option_bind] in *. destruct (aset secret 0 _) as [s1|]; [|done].
  cbn [mbind option_bind] in *. destruct (aget s1 31) as [e1|]; [|done]. cbn [mbind option_bind] in *. destruct (aset s1 31 _) as [s2|]; [|done].
  cbn [mbind option_bind] in *. destruct (aget s2 31) as [e2|]; [|done]. cbn [mbind option_bind] in *. rewrite Hc. cbn [mbind option_bind].
  destruct (fexpand32_spec base Hbase) as (q & -> & Hq & <-). cbn [mbind option_bind].
  destruct (cmult32_spec e q Hok (tight_short _ Hq)) as (x & z & -> & Hx & Hz & Hv). cbn [mbind option_bind].
  by apply quotient_x25519.
Qed.
