(* ===== verification/Prime25519.v ===== *)
(** * Prime25519: the modulus of the field is prime

    Pocklington's criterion, with Fermat's little theorem of the Standard Library, along
    the chain [8574133 | 1919519569386763 - 1], and so on up to [2^255 - 19].  The powers
    are computed with Barrett's reduction, whose result is only claimed to be congruent:
    the comparisons at the end need no more. *)

From S2P Require Import Prelude Field25519.
From Stdlib Require Import Znumtheory Zdivisibility ZmodInv.

(** ** Prime divisors *)

Lemma prime_divisor n : 1 < n -> exists r, Z.prime r /\ (r | n).
Proof.
  intros Hn. assert (0 <= n) as H0 by lia. revert n H0 Hn.
  apply (Zlt_0_ind (fun n => 1 < n -> exists r, Z.prime r /\ (r | n))).
  intros n IH _ Hn. destruct (prime_dec n) as [Hp|Hp].
  - exists n. split; [by apply prime_alt|apply Z.divide_refl].
  - destruct (not_prime_divide n Hn Hp) as (d & Hd & Hdiv). destruct (IH d ltac:(lia) ltac:(lia)) as (r & Hr & Hrd).
    exists r. split; [done|]. by apply (Z.divide_trans _ d).
Qed.

(** A number without a prime divisor up to its root is prime. *)
Lemma prime_by_root n : 1 < n -> (forall r, Z.prime r -> (r | n) -> n < r * r) -> Z.prime n.
Proof.
  intros Hn H. split; [done|]. intros d Hd [e He].
  assert (1 < e) by nia.
  assert (forall f g, 1 < f -> n = f * g -> f <= g -> False) as Hcase.
  { intros f g Hf E Hle. destruct (prime_divisor f Hf) as (r & Hr & Hrf).
    pose proof (Z.prime_ge_2 r Hr). pose proof (Z.divide_pos_le r f ltac:(lia) Hrf).
    assert (n < r * r) by (apply H; [done|]; rewrite E; by apply Z.divide_mul_l). nia. }
  destruct (Z.le_ge_cases d e) as [Hle|Hle].
  - apply (Hcase d e); lia.
  - apply (Hcase e d); lia.
Qed.

(** ** Pocklington's criterion *)

(** If [g^q] and [g^(r - 1)] are 1 and [q] does not divide [r - 1], then [g] is 1. *)
Lemma order_prime g q r : Z.prime q -> Z.prime r -> 2 < r -> g ^ q mod r = 1 -> g mod r <> 0 -> ~ (q | r - 1) -> g mod r = 1.
Proof.
  intros Hq Hr Hr2 Hgq Hg Hdiv. pose proof (Z.prime_ge_2 q Hq).
  destruct (Z.Bezout_coprime q (r - 1) (Z.coprime_prime_l q (r - 1) Hq Hdiv)) as (x & y & E).
  set (a := x mod (r - 1)). pose proof (Z.mod_pos_bound x (r - 1) ltac:(lia)) as Ha. fold a in Ha.
  pose proof (Z.div_mod x (r - 1) ltac:(lia)) as Hx. fold a in Hx.
  assert (a * q = 1 + (- y - x / (r - 1) * q) * (r - 1)) as Eb by lia. set (b := - y - x / (r - 1) * q) in Eb.
  assert (0 <= b) as Hb by nia.
  assert (g ^ (a * q) mod r = 1) as H1.
  { rewrite Z.mul_comm, Z.pow_mul_r, <- Z.mod_pow_l, Hgq, Z.pow_1_l by lia. apply Z.mod_small. lia. }
  rewrite Eb, (Z.mul_comm b), Z.pow_add_r, Z.pow_1_r, Z.pow_mul_r in H1 by nia.
  rewrite <- Z.mul_mod_idemp_r, <- Z.mod_pow_l, (ZmodInv.Z.fermat_nz r g Hr Hg), Z.pow_1_l, (Z.mod_small 1), Z.mul_1_r in H1 by lia. done.
Qed.

Lemma mod_of_divisor a n r : 1 < r -> 0 < n -> (r | n) -> a mod n = 1 -> a mod r = 1.
Proof.
  intros Hr Hn [k E] Ha. rewrite (Z.div_mod a n) by lia. rewrite Ha, E.
  replace (k * r * (a / (k * r)) + 1) with (1 + (k * (a / (k * r))) * r) by ring. rewrite Z.mod_add by lia. apply Z.mod_small. lia.
Qed.

Section Criterion.
Variables (n q m u : Z) (K : nat).
Hypothesis q_prime : Z.prime q.
Hypothesis n_large : 2 < n.
Hypothesis n_eq : n - 1 = m * q.
Hypothesis m_pos : 0 <= m.
Hypothesis fermat_n : 2 ^ (n - 1) mod n = 1.
Hypothesis unit_n : (2 ^ m - 1) * u mod n = 1.

(** Every prime divisor is 1 modulo [q]. *)
Lemma divisor_form r : Z.prime r -> (r | n) -> (q | r - 1).
Proof using All.
  intros Hr Hrn. pose proof (Z.prime_ge_2 r Hr). pose proof (Z.prime_ge_2 q q_prime).
  destruct (Z.BoolSpec_divide q (r - 1)) as [|Hno]; [done|exfalso].
  pose proof (mod_of_divisor _ n r ltac:(lia) ltac:(lia) Hrn fermat_n) as H1.
  pose proof (mod_of_divisor _ n r ltac:(lia) ltac:(lia) Hrn unit_n) as H2.
  rewrite n_eq, Z.pow_mul_r in H1 by lia.
  assert (2 < r) as Hr2.
  { destruct (decide (r = 2)) as [->|]; [|lia]. exfalso. destruct (decide (m = 0)) as [E|]; [rewrite E in n_eq; lia|].
    rewrite <- Z.pow_mul_r, <- (Z.succ_pred (m * q)), Z.pow_succ_r, Z.mul_comm, Z.mod_mul in H1 by nia. lia. }
  assert (2 ^ m mod r <> 0) as Hg.
  { intros E. rewrite <- Z.mod_pow_l, E, Z.pow_0_l, Z.mod_0_l in H1 by lia. lia. }
  pose proof (order_prime _ _ _ q_prime Hr Hr2 H1 Hg Hno) as H3.
  assert ((2 ^ m - 1) mod r = 0) as H4 by (rewrite Zminus_mod, H3, (Z.mod_small 1), Z.sub_diag by lia; apply Z.mod_0_l; lia).
  rewrite <- Z.mul_mod_idemp_l, H4, Z.mul_0_l, Z.mod_0_l in H2 by lia. lia.
Qed.

(** No divisor [1 + k * q] up to the root. *)
Lemma pocklington : forallb (fun k => negb (n mod (1 + Z.of_nat k * q) =? 0)) (seq 1 K) = true ->
  n < (1 + (Z.of_nat K + 1) * q) * (1 + (Z.of_nat K + 1) * q) -> Z.prime n.
Proof using All.
  intros Hk Hn. apply prime_by_root; [lia|]. intros r Hr Hrn. pose proof (Z.prime_ge_2 r Hr). pose proof (Z.prime_ge_2 q q_prime).
  destruct (divisor_form r Hr Hrn) as [k Ek]. destruct (decide (n < r * r)) as [|Hge]; [done|exfalso].
  assert (0 < k) by nia. assert (k < Z.of_nat K + 1) as HkK.
  { destruct (Z.ltb_spec k (Z.of_nat K + 1)); [done|]. assert (1 + (Z.of_nat K + 1) * q <= r) by nia. nia. }
  rewrite forallb_forall in Hk. specialize (Hk (Z.to_nat k)). rewrite in_seq, Z2Nat.id in Hk by lia. specialize (Hk ltac:(lia)).
  replace (1 + k * q) with r in Hk by lia. apply negb_true_iff, Z.eqb_neq in Hk. apply Hk. by apply Z.mod_divide; [lia|].
Qed.
End Criterion.

(** ** Powers *)

(** Barrett's reduction modulo [n]: [mu = 4^k / n], with a [k] some bits above the size
    of [n], so that the remainders stay below a few times [n]. *)
Definition barrett (n mu k x : Z) : Z := x - Z.shiftr (Z.shiftr x (k - 1) * mu) (k + 1) * n.

Fixpoint power_mod (n mu k : Z) (e : positive) : Z :=
  match e with
  | xH => 2
  | xO e => let r := power_mod n mu k e in barrett n mu k (r * r)
  | xI e => let r := power_mod n mu k e in barrett n mu k (2 * (r * r))
  end.

Lemma barrett_mod n mu k x : n <> 0 -> barrett n mu k x mod n = x mod n.
Proof. intros Hn. unfold barrett. rewrite <- Z.add_opp_r, <- Z.mul_opp_l. by apply Z.mod_add. Qed.

Lemma power_mod_spec n mu k e : n <> 0 -> power_mod n mu k e mod n = 2 ^ Zpos e mod n.
Proof.
  intros Hn. induction e as [e IH|e IH|]; cbn [power_mod]; [| |done]; rewrite barrett_mod by done.
  - rewrite <- Z.mul_mod_idemp_r, (Z.mul_mod (power_mod n mu k e)), IH, <- Z.mul_mod, Z.mul_mod_idemp_r by done.
    f_equal. replace (Z.pos e~1) with (Z.pos e + Z.pos e + 1) by lia. rewrite !Z.pow_add_r, Z.pow_1_r by lia. ring.
  - rewrite Z.mul_mod, IH, <- Z.mul_mod by done. f_equal. replace (Z.pos e~0) with (Z.pos e + Z.pos e) by lia. by rewrite Z.pow_add_r by lia.
Qed.

(** What is computed for one step of the chain. *)
Definition step_checks (n q m u mu k : Z) (K : nat) : bool :=
  (n - 1 =? m * q) && (0 <? m) && (2 <? n) &&
  (power_mod n mu k (Z.to_pos (n - 1)) mod n =? 1) &&
  ((power_mod n mu k (Z.to_pos m) - 1) * u mod n =? 1) &&
  forallb (fun k => negb (n mod (1 + Z.of_nat k * q) =? 0)) (seq 1 K) &&
  (n <? (1 + (Z.of_nat K + 1) * q) * (1 + (Z.of_nat K + 1) * q)).

Lemma prime_step n q m u mu k K : Z.prime q -> step_checks n q m u mu k K = true -> Z.prime n.
Proof.
  intros Hq. unfold step_checks. rewrite !andb_true_iff, !Z.eqb_eq, !Z.ltb_lt. intros [[[[[[E Hm] Hn] H1] H2] Hk] Hsq].
  apply (pocklington n q m u K); try (done || lia).
  - rewrite power_mod_spec, Z2Pos.id in H1 by lia. done.
  - rewrite <- Z.mul_mod_idemp_l, Zminus_mod, power_mod_spec, Z2Pos.id, <- Zminus_mod, Z.mul_mod_idemp_l in H2 by lia. done.
Qed.

(** ** The chain *)

Lemma prime_24 : Z.prime 8574133.
Proof.
  apply prime_by_root; [lia|]. intros r Hr [k Hk]. pose proof (Z.prime_ge_2 r Hr). destruct (decide (8574133 < r * r)) as [|Hno]; [done|exfalso].
  assert (forallb (fun i => negb (8574133 mod Z.of_nat i =? 0)) (seq 2 2928) = true) as Hall by (vm_compute; reflexivity).
  rewrite forallb_forall in Hall. specialize (Hall (Z.to_nat r)). rewrite in_seq, Z2Nat.id in Hall by lia. specialize (Hall ltac:(nia)).
  apply negb_true_iff, Z.eqb_neq in Hall. apply Hall. rewrite Hk. apply Z.mod_mul. lia.
Qed.

Lemma prime_51 : Z.prime 1919519569386763.
Proof. apply (prime_step _ 8574133
  223873314
  1290547218147893
  169062383543243602 54 5 prime_24). vm_compute. reflexivity. Qed.

Lemma prime_116 : Z.prime 75445702479781427272750846543864801.
Proof. apply (prime_step _ 1919519569386763
  39304471641247389600
  74602835786463724888147869570305675
  5854697506633591353062686705279598738 119 143 prime_51). vm_compute. reflexivity. Qed.

Lemma prime_236 : Z.prime 74058212732561358302231226437062788676166966415465897661863160754340907.
Proof. apply (prime_step _ 75445702479781427272750846543864801
  981609426360740691344999861639072106
  70463328703800545008217672123162676565183935400628861884889913886334520
  10538157873149176384219032191244407276972634286171504052558741381434048512 239 3 prime_116). vm_compute. reflexivity. Qed.

(** The modulus of the field is prime. *)
Lemma p25519_prime : Z.prime p25519.
Proof. apply (prime_step _ 74058212732561358302231226437062788676166966415465897661863160754340907
  781764
  55540832096118778044507775605005710249233119951144946814680141076505643269084
  3705346855594118253554271520278013051304639509300498049262642688253220148479168 258 0 prime_236). vm_compute. reflexivity. Qed.
