(* ===== verification/Concrete.v ===== *)
(** * Concrete: the card arithmetic with the program's own field and hash

    The interfaces [FieldOps] of [Cards] and [CurveOps] of [Keys] state what the card
    code relies on.  Here they are discharged by the code itself: products and inverses
    by [Donna], whose modulus is prime ([Prime25519]), key exchange by [Ladder] and the
    digest by [Sha256].  One law is left as a hypothesis of the instance: that the
    x-coordinates the ladder computes are those of multiples of one point, so that
    multiplying twice does not depend on the order - a fact about the curve. *)

From S2P Require Import Prelude Interp GF256 GFShare Cards Table Bits Keys Field25519 Ladder Sha256 Donna Prime25519.
From Stdlib Require Import ZmodInv.

(** ** Numbers of 32 bytes *)

Lemma p_below_2_255 : 0 < p25519 < 2 ^ 255.
Proof. unfold p25519. lia. Qed.

Lemma le_int_reduced v : le_int (le_bytes 32 (v mod p25519)) = v mod p25519.
Proof.
  pose proof p_below_2_255. pose proof (Z.mod_pos_bound v p25519 ltac:(lia)). rewrite le_int_bytes. apply Z.mod_small.
  change (256 ^ Z.of_nat 32) with (2 * 2 ^ 255). lia.
Qed.

Lemma reduced_ok v : bits256_ok (le_bytes 32 v).
Proof. split; [apply length_le_bytes|apply le_bytes_ok]. Qed.

(** The bytes of a number below [p]. *)
Definition reduced (x : bits256) : Prop := bits256_ok x /\ le_int x < p25519.

Lemma reduced_bytes v : reduced (le_bytes 32 (v mod p25519)).
Proof. split; [apply reduced_ok|]. rewrite le_int_reduced. apply Z.mod_pos_bound. pose proof p_below_2_255. lia. Qed.

Lemma reduced_number x : reduced x -> 0 <= le_int x < p25519 /\ le_int x mod 2 ^ 255 = le_int x /\ x = le_bytes 32 (le_int x).
Proof.
  intros [[Hl Hb] Hp]. pose proof (le_int_range x Hb). pose proof p_below_2_255. split; [lia|]. split; [apply Z.mod_small; lia|].
  rewrite <- Hl. symmetry. by apply le_bytes_int.
Qed.

Lemma le_int_nonzero x : bits256_ok x -> x <> zero256 -> le_int x <> 0.
Proof. intros [Hl Hb] Hx E. apply Hx. rewrite <- (le_bytes_int x Hb), Hl, E. reflexivity. Qed.

(** ** The field *)

(** Fermat: a power [p - 2] is an inverse. *)
Lemma inverse_mod x : x mod p25519 <> 0 -> x * x ^ (p25519 - 2) =p 1.
Proof.
  intros Hx. replace (x * x ^ (p25519 - 2)) with (x ^ (p25519 - 1)) by (rewrite <- Z.pow_succ_r by (unfold p25519; lia); f_equal; lia).
  apply eqp_iff. rewrite (Z.fermat_nz p25519 x p25519_prime Hx). by rewrite Z.mod_small by (unfold p25519; lia).
Qed.

(** The functions as the card code calls them: on 32 bytes, with a result. *)
Definition fmul_bytes (a b : bits256) : bits256 := default zero256 (Donna.fmul_donna zero256 a b).
Definition crecip_bytes (a : bits256) : bits256 := default zero256 (Donna.crecip_donna zero256 a).

Lemma fmul_bytes_eq a b : bits256_ok a -> bits256_ok b ->
  fmul_bytes a b = le_bytes 32 ((le_int a mod 2 ^ 255) * (le_int b mod 2 ^ 255) mod p25519).
Proof. intros Ha Hb. unfold fmul_bytes. by rewrite fmul_donna_spec by done. Qed.

Lemma crecip_bytes_eq a : bits256_ok a -> crecip_bytes a = le_bytes 32 ((le_int a mod 2 ^ 255) ^ (p25519 - 2) mod p25519).
Proof. intros Ha. unfold crecip_bytes. by rewrite crecip_donna_spec by done. Qed.

Lemma fmul_bytes_reduced a b : is256 a -> is256 b -> reduced (fmul_bytes a b).
Proof.
  intros Ha Hb. unfold fmul_bytes. destruct (fmul_donna_any zero256 a b) as (v & ->); [done..|]. apply reduced_bytes.
Qed.

Lemma crecip_bytes_reduced a : is256 a -> reduced (crecip_bytes a).
Proof.
  intros Ha. unfold crecip_bytes. destruct (crecip_donna_any zero256 a) as (v & ->); [done..|]. apply reduced_bytes.
Qed.

(** A product with a factor and then with its inverse, in either order. *)
Lemma cancel_bytes h c : bits256_ok h -> le_int h mod 2 ^ 255 mod p25519 <> 0 -> reduced c ->
  fmul_bytes h (fmul_bytes (crecip_bytes h) c) = c /\ fmul_bytes (fmul_bytes c h) (crecip_bytes h) = c.
Proof.
  intros Hh Hnz Hc. destruct (reduced_number c Hc) as (Rc & Ec & Bc). pose proof (proj1 Hc) as Okc.
  set (H := le_int h mod 2 ^ 255) in *. pose proof (inverse_mod H Hnz) as Hinv.
  rewrite (crecip_bytes_eq h Hh). fold H. set (I := le_bytes 32 (H ^ (p25519 - 2) mod p25519)).
  assert (reduced I) as RI by apply reduced_bytes. destruct (reduced_number I RI) as (_ & EI & _).
  assert (le_int I =p H ^ (p25519 - 2)) as VI by (unfold I; rewrite le_int_reduced; apply eqp_mod).
  assert (forall v, le_int (le_bytes 32 (v mod p25519)) mod 2 ^ 255 = v mod p25519) as Hred.
  { intros v. destruct (reduced_number _ (reduced_bytes v)) as (_ & -> & _). apply le_int_reduced. }
  assert (forall v, v =p le_int c -> le_bytes 32 (v mod p25519) = c) as Hback.
  { intros v Hv. etransitivity; [|symmetry; exact Bc]. f_equal. apply eqp_iff in Hv. rewrite Hv. apply Z.mod_small. lia. }
  rewrite (fmul_bytes_eq I c (proj1 RI) Okc), (fmul_bytes_eq c h Okc Hh), EI, Ec. fold H. split.
  - rewrite fmul_bytes_eq by (done || apply reduced_ok). fold H. rewrite Hred. apply Hback.
    rewrite eqp_mod, VI, Z.mul_assoc, Hinv. exists 0. lia.
  - rewrite fmul_bytes_eq by (apply reduced_ok || apply RI). rewrite Hred, EI. apply Hback.
    rewrite eqp_mod, VI, <- Z.mul_assoc, Hinv. exists 0. lia.
Qed.

Lemma donna_field_cancel x c : reduced x -> x <> zero256 -> reduced c -> fmul_bytes x (fmul_bytes (crecip_bytes x) c) = c.
Proof.
  intros Hx Hnz Hc. apply cancel_bytes; [apply Hx| |done]. destruct (reduced_number x Hx) as (R & -> & _).
  rewrite Z.mod_small by done. apply le_int_nonzero; [apply Hx|done].
Qed.

Definition donna_field : FieldOps :=
  {| Cards.fmul_donna := fmul_bytes; Cards.crecip_donna := crecip_bytes; canonical := reduced; fmul_cancel := donna_field_cancel |}.

(** ** The curve and the hash *)

(** The digest of bytes that fit [int32_t]; its [struct] starts out as what the stack
    holds. *)
Definition sha256_bytes (l : list Z) : bits256 :=
  if decide (bytes l /\ Z.of_nat (length l) < 2 ^ 31)
  then default zero256 (mjoin (Sha256.vcalc_sha256 (mk_vstate 0 [] 0 (replicate 64 0)) l (Z.of_nat (length l))))
  else zero256.

Definition curve25519_bytes (a b : bits256) : bits256 := default zero256 (Ladder.curve25519 a b).

Lemma sha256_length msg : length (Sha256.sha256 msg) = 32%nat.
Proof. unfold Sha256.sha256. generalize (spec_blocks (msg ++ padding (Z.of_nat (length msg))) (length (msg ++ padding (Z.of_nat (length msg))) / 64)). by intros []. Qed.

Lemma sha256_bytes_eq l : bytes l -> Z.of_nat (length l) < 2 ^ 31 -> sha256_bytes l = Sha256.sha256 l.
Proof.
  intros Hb Hl. unfold sha256_bytes. rewrite decide_True by done.
  unfold Sha256.vcalc_sha256.
  destruct (vprocess_all 0 (sha256_vinit (mk_vstate 0 [] 0 (replicate 64 0))) [] l) as (q & md & -> & Hr);
    [by apply vinit_resting; [|apply Forall_replicate]|done|done|].
  cbn [mbind option_bind]. rewrite (vdone_spec _ _ _ Hr). done.
Qed.

Lemma sha256_bytes_is256 l : is256 (sha256_bytes l).
Proof.
  destruct (decide (bytes l /\ Z.of_nat (length l) < 2 ^ 31)) as [[Hb Hl]|Hno].
  - rewrite sha256_bytes_eq by done. apply sha256_length.
  - unfold sha256_bytes. by rewrite decide_False by done.
Qed.

Lemma curve25519_bytes_eq a b : bits256_ok a -> bits256_ok b ->
  curve25519_bytes a b = le_bytes 32 (x25519 (le_int a) (le_int b mod 2 ^ 255)).
Proof. intros Ha Hb. unfold curve25519_bytes. by rewrite curve25519_x25519 by done. Qed.

Lemma let_length (e : bits320) (g : bits320 -> list Z) n : (forall t, length (g t) = n) -> length (let t := e in g t) = n.
Proof. intros H. apply H. Qed.

Lemma fcontract_length x : length (fcontract x) = 32%nat.
Proof.
  cbv beta delta [fcontract]. repeat match goal with |- length (let t := ?e in @?g t) = _ => apply (let_length e g); intros ?; cbv beta end.
  unfold store_limb. by rewrite !length_app, !store_from_bytes, !length_le_bytes.
Qed.

Lemma curve25519_bytes_is256 a b : is256 (curve25519_bytes a b).
Proof.
  unfold curve25519_bytes, Ladder.curve25519. destruct (fexpand b); [|done]. cbn [mbind option_bind].
  destruct (cmult a b0) as [[x z]|]; [|done]. apply fcontract_length.
Qed.

(** A number the code can divide by. *)
Definition invertible (h : bits256) : Prop := bits256_ok h /\ le_int h mod 2 ^ 255 mod p25519 <> 0.

Lemma x25519_reduced n u : exists v, x25519 n u = v mod p25519.
Proof. unfold x25519. destruct (spec_upto n u 256) as [[[x z] x'] z']. by eexists. Qed.

Lemma curve25519_twice a b : bits256_ok a -> bits256_ok b ->
  curve25519_bytes a (curve25519_bytes b curve25519_basepoint9) = le_bytes 32 (x25519 (le_int a) (x25519 (le_int b) 9)).
Proof.
  intros Ha Hb. rewrite (curve25519_bytes_eq b) by (done || concrete). change (le_int curve25519_basepoint9 mod 2 ^ 255) with 9.
  rewrite curve25519_bytes_eq by (done || apply reduced_ok). destruct (x25519_reduced (le_int b) 9) as [v ->].
  do 2 f_equal. destruct (reduced_number _ (reduced_bytes v)) as (_ & -> & _). apply le_int_reduced.
Qed.

Section Exchange.
(** The key exchange of RFC 7748: multiples of the base point do not depend on the order. *)
Hypothesis x25519_commutes : forall a b, 0 <= a < 2 ^ 256 -> 0 <= b < 2 ^ 256 -> x25519 a (x25519 b 9) = x25519 b (x25519 a 9).

Lemma donna_dh a b : reduced a -> bits256_ok b ->
  curve25519_bytes a (curve25519_bytes b curve25519_basepoint9) = curve25519_bytes b (curve25519_bytes a curve25519_basepoint9).
Proof using x25519_commutes.
  intros Ha Hb. rewrite !curve25519_twice by (done || apply Ha). f_equal. pose proof (le_int_range b (proj2 Hb)) as Rb.
  rewrite (proj1 Hb) in Rb. destruct (reduced_number a Ha) as (Ra & _). pose proof p_below_2_255.
  change (256 ^ Z.of_nat 32) with (2 ^ 256) in Rb. apply x25519_commutes; [|done]. change (2 ^ 256) with (2 * 2 ^ 255). lia.
Qed.

Definition donna_curve : @CurveOps donna_field :=
  @Build_CurveOps donna_field curve25519_bytes sha256_bytes invertible
    (fun x H => proj1 (proj1 H)) (fun x H => proj1 (proj1 (crecip_bytes_reduced x H))) sha256_bytes_is256
    (fun a b _ _ => curve25519_bytes_is256 a b) fmul_bytes_reduced
    (fun c h Hc Hh => proj2 (cancel_bytes h c (proj1 Hh) (proj2 Hh) Hc)) donna_dh.
End Exchange.

(** ** The laws of the card code *)

(** C21: the arithmetic of the cards is the arithmetic of a field: [p] is prime, so a
    card multiplied by the inverse of a blinding factor and then by the factor - the
    order of [cards777_layer] and [cards777_decode] - or the other way round, as
    [cards777_initcrypt] does with a shared secret, is the same 32 bytes again. *)
Theorem donna_cancels h c result : bits256_ok h -> le_int h mod 2 ^ 255 mod p25519 <> 0 -> bits256_ok c -> le_int c < p25519 ->
  length result = 32%nat ->
  Z.prime p25519 /\
  (i ← Donna.crecip_donna result h; b ← Donna.fmul_donna result i c; Donna.fmul_donna result h b) = Some c /\
  (i ← Donna.crecip_donna result h; b ← Donna.fmul_donna result c h; Donna.fmul_donna result b i) = Some c.
Proof.
  intros Hh Hnz Hc Hp Hr. split; [exact p25519_prime|]. destruct (cancel_bytes h c Hh Hnz (conj Hc Hp)) as [H1 H2].
  rewrite (crecip_bytes_eq h Hh) in H1, H2. rewrite (crecip_donna_spec result h Hr Hh). cbn [mbind option_bind].
  set (i := le_bytes 32 ((le_int h mod 2 ^ 255) ^ (p25519 - 2) mod p25519)) in *. assert (bits256_ok i) as Hi by apply reduced_ok.
  rewrite (fmul_bytes_eq i c), (fmul_bytes_eq h) in H1 by (apply reduced_ok || assumption).
  rewrite (fmul_bytes_eq c h), fmul_bytes_eq in H2 by (apply reduced_ok || assumption). split.
  - rewrite (fmul_donna_spec result i c) by assumption. cbn [mbind option_bind]. rewrite fmul_donna_spec by (apply reduced_ok || assumption). by f_equal.
  - rewrite (fmul_donna_spec result c h) by assumption. cbn [mbind option_bind]. rewrite fmul_donna_spec by (apply reduced_ok || assumption). by f_equal.
Qed.

Example donna_cancels_witness :
  Z.prime p25519 /\
  (i ← Donna.crecip_donna zero256 (7 :: replicate 31 0); b ← Donna.fmul_donna zero256 i (9 :: replicate 31 1);
   Donna.fmul_donna zero256 (7 :: replicate 31 0) b) = Some (9 :: replicate 31 1) /\
  (i ← Donna.crecip_donna zero256 (7 :: replicate 31 0); b ← Donna.fmul_donna zero256 (9 :: replicate 31 1) (7 :: replicate 31 0);
   Donna.fmul_donna zero256 b i) = Some (9 :: replicate 31 1).
Proof. apply (donna_cancels (7 :: replicate 31 0) (9 :: replicate 31 1) zero256); concrete. Defined.


(** ** The two ladders *)

Lemma land_byte b m : is_byte b -> 0 <= m -> is_byte (Z.land b m).
Proof.
  intros Hb Hm. apply byte_of_bits; [apply Z.land_nonneg; lia|]. intros j Hj. by rewrite Z.land_spec, (byte_testbit_high b) by done.
Qed.

Lemma aset_bytes l i v l' : bytes l -> is_byte v -> aset l i v = Some l' -> bytes l'.
Proof. intros Hl Hv [_ ->]%aset_Some. by apply Forall_insert. Qed.

Lemma aget_byte l i b : bytes l -> aget l i = Some b -> is_byte b.
Proof. intros Hl [_ E]%aget_Some. exact (Forall_lookup_1 _ _ _ _ Hl E). Qed.

Lemma clamp_ok x : bits256_ok x -> exists y, clamp x = Some y /\ bits256_ok y.
Proof.
  intros [Hl Hb]. destruct (clamp_total x Hl) as (y & E & Hy & _). exists y. split; [done|]. split; [done|]. unfold clamp in E.
  destruct (aget x 0) as [b0|] eqn:E0; [cbn [mbind option_bind] in E|done].
  destruct (aset x 0 (Z.land b0 0xf8)) as [x1|] eqn:E1; [cbn [mbind option_bind] in E|done].
  assert (bytes x1) as H1 by (apply (aset_bytes _ _ _ _ Hb (land_byte _ 0xf8 (aget_byte _ _ _ Hb E0) ltac:(lia)) E1)).
  destruct (aget x1 31) as [b1|] eqn:E2; [cbn [mbind option_bind] in E|done].
  destruct (aset x1 31 (Z.land b1 0x7f)) as [x2|] eqn:E3; [cbn [mbind option_bind] in E|done].
  assert (bytes x2) as H2 by (apply (aset_bytes _ _ _ _ H1 (land_byte _ 0x7f (aget_byte _ _ _ H1 E2) ltac:(lia)) E3)).
  destruct (aget x2 31) as [b2|] eqn:E4; [cbn [mbind option_bind] in E|done].
  apply (aset_bytes _ _ _ _ H2) in E; [done|]. apply (lor_bit_byte b2 6); [by apply (aget_byte x2 31)|lia].
Qed.

(** the two implementations of the ladder in the tree agree, on ten limbs of 26 and
    25 bits ([curve25519-donna.c]) and on five of 51 bits ([curve25519.c]): a blinding
    factor made by [xoverz_donna] is the public key [curve25519] gives the seed, and
    [curve25519_donna] is [curve25519] of the clamped secret. *)
Theorem ladders_agree result secret base : length result = 32%nat -> bits256_ok secret -> bits256_ok base ->
  xoverz_donna result secret = Ladder.curve25519 secret curve25519_basepoint9 /\
  exists e, clamp secret = Some e /\ curve25519_donna result secret base = Ladder.curve25519 e base.
Proof.
  intros Hr Hs Hb. split.
  - rewrite xoverz_donna_x25519, curve25519_x25519 by (assumption || concrete).
    by change (le_int curve25519_basepoint9 mod 2 ^ 255) with 9.
  - destruct (clamp_ok secret Hs) as (e & E & He). exists e. split; [done|]. by apply curve25519_donna_spec; [|apply He|..].
Qed.

Example ladders_agree_witness :
  xoverz_donna zero256 (replicate 32 255) = Ladder.curve25519 (replicate 32 255) curve25519_basepoint9 /\
  exists e, clamp (replicate 32 255) = Some e /\
    curve25519_donna zero256 (replicate 32 255) (7 :: replicate 31 8) = Ladder.curve25519 e (7 :: replicate 31 8).
Proof. apply (ladders_agree zero256 (replicate 32 255) (7 :: replicate 31 8)); concrete. Defined.
