(* ===== verification/Salsa.v ===== *)
(** * Salsa: the stream cipher of the message boxes

    Models the first half of [plugins/utils/tweetnacl.c]: the Salsa20 core and the
    stream made of its blocks.  The file's [u32] is [unsigned long], 64 bits wide where
    the code runs, so sums and shifts keep bits above the 32nd; the specification below
    has words of 32 bits, as the cipher is published. *)

From S2P Require Import Prelude Cards Field25519.

(** ** The code *)

(** [(x << c) | ((x & 0xffffffff) >> (32 - c))] *)
Definition L32 (x c : Z) : Z := Z.lor (u64 (Z.shiftl x c)) (Z.shiftr (Z.land x 0xffffffff) (32 - c)).

Definition ld32 (x : list Z) (off : Z) : option Z :=
  u ← aget x (off + 3);
  x2 ← aget x (off + 2); let u := Z.lor (u64 (Z.shiftl u 8)) x2 in
  x1 ← aget x (off + 1); let u := Z.lor (u64 (Z.shiftl u 8)) x1 in
  x0 ← aget x off; Some (Z.lor (u64 (Z.shiftl u 8)) x0).

(** The four bytes written. *)
Definition st32 (u : Z) : list Z := store_from u 4.

(** The array [x], whose sixteen entries are all set before they are read. *)
Definition core_load (inp k c : list Z) : option (list Z) :=
  for_ (fun i x =>
    v ← ld32 c (4 * i); x ← aset x (5 * i) v;
    v ← ld32 k (4 * i); x ← aset x (1 + i) v;
    v ← ld32 inp (4 * i); x ← aset x (6 + i) v;
    v ← ld32 k (16 + 4 * i); aset x (11 + i) v) 0 4 (replicate 16 0).

(** Sums and differences of the type [unsigned long]. *)
Definition word_add (a b : Z) : Z := u64 (a + b).
Definition word_sub (a b : Z) : Z := u64 (a - b).

(** The four assignments to [t]. *)
Definition core_mix (t0 t1 t2 t3 : Z) : list Z :=
  let t1 := Z.lxor t1 (L32 (u64 (t0 + t3)) 7) in
  let t2 := Z.lxor t2 (L32 (u64 (t1 + t0)) 9) in
  let t3 := Z.lxor t3 (L32 (u64 (t2 + t1)) 13) in
  let t0 := Z.lxor t0 (L32 (u64 (t3 + t2)) 18) in
  [t0; t1; t2; t3].

(** One round: [w] is set from [x], then copied to it. *)
Definition core_round (x : list Z) : option (list Z) :=
  for_ (fun j w =>
    t0 ← aget x ((5 * j) mod 16); t1 ← aget x ((5 * j + 4) mod 16);
    t2 ← aget x ((5 * j + 8) mod 16); t3 ← aget x ((5 * j + 12) mod 16);
    let t := core_mix t0 t1 t2 t3 in
    for_ (fun m w => v ← aget t m; aset w (4 * j + (j + m) mod 4) v) 0 4 w) 0 4 (replicate 16 0).

(** With [h] set, the words of the constant and of the input are taken away again, and
    the words at their places are the result. *)
Definition core_sub (inp c x : list Z) : option (list Z) :=
  for_ (fun i x =>
    v ← ld32 c (4 * i); xi ← aget x (5 * i); x ← aset x (5 * i) (word_sub xi v);
    v ← ld32 inp (4 * i); xi ← aget x (6 + i); aset x (6 + i) (word_sub xi v)) 0 4 x.

Definition core_pick (x : list Z) : option (list Z) :=
  '(lo, hi) ← for_ (fun i '(lo, hi) =>
    a ← aget x (5 * i); b ← aget x (6 + i); Some (lo ++ st32 a, hi ++ st32 b)) 0 4 ([], []);
  Some (lo ++ hi).

(** The bytes written to [out]: 64, or 32 when [h] is set. *)
Definition core (inp k c : list Z) (h : bool) : option (list Z) :=
  y ← core_load inp k c;
  x ← for_ (fun _ x => core_round x) 0 20 y;
  if h then
    x ← for_ (fun i x => xi ← aget x i; yi ← aget y i; aset x i (word_add xi yi)) 0 16 x;
    x ← core_sub inp c x;
    core_pick x
  else for_ (fun i out => xi ← aget x i; yi ← aget y i; Some (out ++ st32 (word_add xi yi))) 0 16 [].

Definition crypto_core_salsa20 (inp k c : list Z) : option (list Z) := core inp k c false.
Definition crypto_core_hsalsa20 (inp k c : list Z) : option (list Z) := core inp k c true.

(** ["expand 32-byte k"] *)
Definition sigma : list Z := [101; 120; 112; 97; 110; 100; 32; 51; 50; 45; 98; 121; 116; 101; 32; 107].

(** The counter in [z[8..15]]: [u += z[i], z[i] = u, u >>= 8] from [u = 1]. *)
Fixpoint count_up (u : Z) (z : list Z) : list Z :=
  match z with
  | [] => []
  | zi :: z => let u := u64 (u + zi) in u8 u :: count_up (Z.shiftr u 8) z
  end.

(** [c[i] = (m ? m[i] : 0) ^ x[i]] for [i < n]: the bytes written. *)
Definition xor_block (m : option (list Z)) (off : Z) (x : list Z) (n : Z) : option (list Z) :=
  for_ (fun i c => mi ← match m with Some m => aget m (off + i) | None => Some 0 end;
    xi ← aget x i; Some (c ++ [Z.lxor mi xi])) 0 (Z.to_nat n) [].

(** The blocks from [m + off] on; [blocks] bounds their number. *)
Fixpoint salsa20_blocks (blocks : nat) (m : option (list Z)) (off b : Z) (z k c : list Z) : option (list Z) :=
  if b <? 64 then
    if b =? 0 then Some c
    else x ← crypto_core_salsa20 z k sigma; out ← xor_block m off x b; Some (c ++ out)
  else
    match blocks with
    | O => None
    | S blocks =>
      x ← crypto_core_salsa20 z k sigma;
      out ← xor_block m off x 64;
      salsa20_blocks blocks m (off + 64) (b - 64) (take 8 z ++ count_up 1 (drop 8 z)) k (c ++ out)
    end.

(** The [b] bytes written to [c]; [m] may be NULL. *)
Definition crypto_stream_salsa20_xor (m : option (list Z)) (b : Z) (n k : list Z) : option (list Z) :=
  if b =? 0 then Some []
  else
    z ← memcpy (replicate 16 0) 0 n 0 8;
    salsa20_blocks (Z.to_nat (b / 64)) m 0 b z k [].

Definition crypto_stream_salsa20 (d : Z) (n k : list Z) : option (list Z) := crypto_stream_salsa20_xor None d n k.

Definition crypto_stream (d : Z) (n k : list Z) : option (list Z) :=
  s ← crypto_core_hsalsa20 n k sigma; crypto_stream_salsa20 d (drop 16 n) s.

Definition crypto_stream_xor (m : list Z) (d : Z) (n k : list Z) : option (list Z) :=
  s ← crypto_core_hsalsa20 n k sigma; crypto_stream_salsa20_xor (Some m) d (drop 16 n) s.

(** ** The cipher as published

    Words of 32 bits; a quarter round, the rounds over rows and columns of a four by
    four matrix, and the core, ten double rounds added to the input. *)

Definition add32 (x y : Z) : Z := (x + y) mod 2 ^ 32.
Definition rotl (x c : Z) : Z := (x * 2 ^ c) mod 2 ^ 32 + x / 2 ^ (32 - c).

Definition quarterround (y : Z * Z * Z * Z) : Z * Z * Z * Z :=
  let '(y0, y1, y2, y3) := y in
  let z1 := Z.lxor y1 (rotl (add32 y0 y3) 7) in
  let z2 := Z.lxor y2 (rotl (add32 z1 y0) 9) in
  let z3 := Z.lxor y3 (rotl (add32 z2 z1) 13) in
  let z0 := Z.lxor y0 (rotl (add32 z3 z2) 18) in
  (z0, z1, z2, z3).

Definition columnround (y : list Z) : list Z :=
  match y with
  | [y0; y1; y2; y3; y4; y5; y6; y7; y8; y9; y10; y11; y12; y13; y14; y15] =>
    let '(z0, z4, z8, z12) := quarterround (y0, y4, y8, y12) in
    let '(z5, z9, z13, z1) := quarterround (y5, y9, y13, y1) in
    let '(z10, z14, z2, z6) := quarterround (y10, y14, y2, y6) in
    let '(z15, z3, z7, z11) := quarterround (y15, y3, y7, y11) in
    [z0; z1; z2; z3; z4; z5; z6; z7; z8; z9; z10; z11; z12; z13; z14; z15]
  | _ => []
  end.

Definition rowround (y : list Z) : list Z :=
  match y with
  | [y0; y1; y2; y3; y4; y5; y6; y7; y8; y9; y10; y11; y12; y13; y14; y15] =>
    let '(z0, z1, z2, z3) := quarterround (y0, y1, y2, y3) in
    let '(z5, z6, z7, z4) := quarterround (y5, y6, y7, y4) in
    let '(z10, z11, z8, z9) := quarterround (y10, y11, y8, y9) in
    let '(z15, z12, z13, z14) := quarterround (y15, y12, y13, y14) in
    [z0; z1; z2; z3; z4; z5; z6; z7; z8; z9; z10; z11; z12; z13; z14; z15]
  | _ => []
  end.

Definition doubleround (y : list Z) : list Z := rowround (columnround y).

(** Word [i] of a byte string. *)
Definition word_at (l : list Z) (i : nat) : Z := le_int (take 4 (drop (4 * i) l)).

(** The matrix of constant, key and input. *)
Definition matrix (inp k c : list Z) : list Z :=
  let w := word_at in
  [w c 0; w k 0; w k 1; w k 2; w k 3; w c 1; w inp 0; w inp 1;
   w inp 2; w inp 3; w c 2; w k 4; w k 5; w k 6; w k 7; w c 3]%nat.

Definition rounds (inp k c : list Z) : list Z := Nat.iter 10 doubleround (matrix inp k c).

Definition salsa20 (inp k c : list Z) : list Z :=
  concat (le_bytes 4 <$> zip_with add32 (rounds inp k c) (matrix inp k c)).

(** The derived key: the rounds alone, at the places of constant and input. *)
Definition hsalsa20 (inp k c : list Z) : list Z :=
  concat ((fun i => le_bytes 4 (nth i (rounds inp k c) 0)) <$> [0; 5; 10; 15; 6; 7; 8; 9]%nat).

(** [d] bytes of the stream of the blocks [i], [i + 1] and so on. *)
Definition stream_of (block : Z -> list Z) (i : Z) (d : nat) : list Z :=
  take d (concat ((fun j => block (i + Z.of_nat j)) <$> seq 0 (S (d / 64)))).

Definition key_block (n k : list Z) (i : Z) : list Z := salsa20 (n ++ le_bytes 8 i) k sigma.
Definition key_stream_from (n k : list Z) : Z -> nat -> list Z := stream_of (key_block n k).

(** XSalsa20: 24 bytes of nonce, of which the first 16 make the key of the stream. *)
Definition xsalsa20 (n k : list Z) (d : nat) : list Z :=
  key_stream_from (take 8 (drop 16 n)) (hsalsa20 n k sigma) 0 d.

(** ** Words *)

Definition low (x : Z) : Z := x mod 2 ^ 32.

Lemma st32_low u : st32 u = le_bytes 4 (low u).
Proof. unfold st32. rewrite store_from_bytes. symmetry. apply (le_bytes_mod 4). Qed.

Lemma low_range x : 0 <= low x < 2 ^ 32.
Proof. apply Z.mod_pos_bound. lia. Qed.

Lemma low_u64 x : low (u64 x) = low x.
Proof. unfold low, u64, wrapU. apply Z.mod_mod_divide. by exists (2 ^ 32). Qed.

Lemma low_lor x y : low (Z.lor x y) = Z.lor (low x) (low y).
Proof. unfold low. rewrite <- !Z.land_ones by lia. apply Z.land_lor_distr_l. Qed.

Lemma low_lxor x y : low (Z.lxor x y) = Z.lxor (low x) (low y).
Proof.
  unfold low. rewrite <- !Z.land_ones by lia. apply Z.bits_inj'. intros i Hi.
  rewrite Z.lxor_spec, !Z.land_spec, Z.lxor_spec by done. by destruct (Z.testbit x i), (Z.testbit y i), (Z.testbit (Z.ones 32) i).
Qed.

Lemma low_add x y : low (u64 (x + y)) = add32 (low x) (low y).
Proof. rewrite low_u64. unfold low, add32. apply Z.add_mod. lia. Qed.

Lemma L32_low x c : 0 < c < 32 -> low (L32 x c) = rotl (low x) c.
Proof.
  intros Hc. unfold L32, rotl. rewrite low_lor, low_u64. change 0xffffffff with (Z.ones 32). rewrite Z.land_ones by lia.
  fold (low x). rewrite Z.shiftl_mul_pow2, Z.shiftr_div_pow2 by lia.
  assert (2 ^ 32 = 2 ^ (32 - c) * 2 ^ c) as E by (rewrite <- Z.pow_add_r by lia; f_equal; lia).
  assert (0 < 2 ^ c) by (apply Z.pow_pos_nonneg; lia). assert (0 < 2 ^ (32 - c)) by (apply Z.pow_pos_nonneg; lia).
  assert (0 <= low x / 2 ^ (32 - c) < 2 ^ c) as Hq.
  { pose proof (low_range x). split; [apply Z.div_pos; lia|]. apply Z.div_lt_upper_bound; lia. }
  assert (low (low x / 2 ^ (32 - c)) = low x / 2 ^ (32 - c)) as -> by (apply Z.mod_small; nia).
  assert (low (x * 2 ^ c) = (low x * 2 ^ c) mod 2 ^ 32) as -> by (unfold low; by rewrite Z.mul_mod_idemp_l by lia).
  rewrite E, Z.mul_mod_distr_r by lia. rewrite Z.lor_comm, <- Z.shiftl_mul_pow2 by lia. rewrite lor_shift, Z.shiftl_mul_pow2 by lia. lia.
Qed.

(** One assignment of the quarter round. *)
Lemma mix_low t a b c : 0 < c < 32 ->
  low (Z.lxor t (L32 (u64 (a + b)) c)) = Z.lxor (low t) (rotl (add32 (low a) (low b)) c).
Proof. intros Hc. by rewrite low_lxor, L32_low, low_add. Qed.

Lemma core_mix_low t0 t1 t2 t3 :
  low <$> core_mix t0 t1 t2 t3 =
    (let '(z0, z1, z2, z3) := quarterround (low t0, low t1, low t2, low t3) in [z0; z1; z2; z3]).
Proof. cbv beta zeta delta [core_mix quarterround]. cbn [fmap list_fmap]. by rewrite !mix_low by lia. Qed.

Lemma low_id x : 0 <= x < 2 ^ 32 -> low x = x.
Proof. apply Z.mod_small. Qed.

Lemma ld_step u b : 0 <= u < 2 ^ 24 -> 0 <= b < 256 -> Z.lor (u64 (Z.shiftl u 8)) b = b + 256 * u.
Proof.
  intros Hu Hb. rewrite u64_small by (rewrite Z.shiftl_mul_pow2 by lia; lia). rewrite Z.lor_comm, lor_shift by lia. lia.
Qed.

Lemma ld32_spec x off : bytes x -> 0 <= off -> off + 4 <= Z.of_nat (length x) ->
  ld32 x off = Some (le_int (take 4 (drop (Z.to_nat off) x))).
Proof.
  intros Hx Ho Hl. pose proof (length_drop x (Z.to_nat off)) as Ld.
  assert (forall i, aget x (off + Z.of_nat i) = drop (Z.to_nat off) x !! i) as Hg.
  { intros i. rewrite lookup_drop. rewrite <- aget_of_nat. f_equal. lia. }
  pose proof (Forall_drop _ (Z.to_nat off) _ Hx) as Hb.
  unfold ld32. rewrite (Hg 3%nat : aget x (off + 3) = _), (Hg 2%nat : aget x (off + 2) = _), (Hg 1%nat : aget x (off + 1) = _).
  replace (aget x off) with (drop (Z.to_nat off) x !! 0%nat) by (rewrite <- Hg; f_equal; lia).
  revert Ld Hb. generalize (drop (Z.to_nat off) x). intros [|b0 [|b1 [|b2 [|b3 l]]]] Ld Hb; cbn in Ld; try lia.
  decompose_Forall_hyps. unfold is_byte in *. cbn [lookup list_lookup mbind option_bind take le_int]. f_equal.
  rewrite (ld_step b3 b2), (ld_step _ b1), (ld_step _ b0) by lia. lia.
Qed.

(** ** The core

    A round of the code is a round over the columns, written transposed. *)

Definition transpose (y : list Z) : list Z :=
  match y with
  | [y0; y1; y2; y3; y4; y5; y6; y7; y8; y9; y10; y11; y12; y13; y14; y15] =>
    [y0; y4; y8; y12; y1; y5; y9; y13; y2; y6; y10; y14; y3; y7; y11; y15]
  | _ => []
  end.

Ltac split16 x := do 16 (destruct x as [|? x]; [done|]); destruct x; [|done].

Lemma transpose_rounds y : length y = 16%nat -> transpose (columnround (transpose (columnround y))) = doubleround y.
Proof.
  intros Hl. unfold doubleround. assert (length (columnround y) = 16%nat) as Hc.
  { split16 y. unfold columnround. do 4 destruct (quarterround _) as [[[? ?] ?] ?]. done. }
  revert Hc. generalize (columnround y). clear y Hl. intros y Hl. split16 y. unfold transpose at 2, columnround, rowround.
  do 4 destruct (quarterround _) as [[[? ?] ?] ?]. done.
Qed.

Lemma core_mix_parts a b c d : exists a' b' c' d', core_mix a b c d = [a'; b'; c'; d'] /\
  quarterround (low a, low b, low c, low d) = (low a', low b', low c', low d').
Proof.
  pose proof (core_mix_low a b c d) as E. unfold core_mix in *. do 4 eexists. split; [reflexivity|].
  cbv zeta in E. revert E. destruct (quarterround _) as [[[? ?] ?] ?]. cbn [fmap list_fmap]. by intros [= <- <- <- <-].
Qed.

Lemma core_round_low x : length x = 16%nat ->
  exists x', core_round x = Some x' /\ length x' = 16%nat /\ low <$> x' = transpose (columnround (low <$> x)).
Proof.
  intros Hl. destruct x as [|x0 [|x1 [|x2 [|x3 [|x4 [|x5 [|x6 [|x7 [|x8 [|x9 [|x10 [|x11 [|x12 [|x13 [|x14 [|x15 [|]]]]]]]]]]]]]]]]]; try done.
  destruct (core_mix_parts x0 x4 x8 x12) as (a0 & b0 & c0 & d0 & E0 & Q0).
  destruct (core_mix_parts x5 x9 x13 x1) as (a1 & b1 & c1 & d1 & E1 & Q1).
  destruct (core_mix_parts x10 x14 x2 x6) as (a2 & b2 & c2 & d2 & E2 & Q2).
  destruct (core_mix_parts x15 x3 x7 x11) as (a3 & b3 & c3 & d3 & E3 & Q3).
  exists [a0; b0; c0; d0; d1; a1; b1; c1; c2; d2; a2; b2; b3; c3; d3; a3]. unfold core_round. split; [|split; [done|]].
  - revert E0 E1 E2 E3. generalize core_mix as mix. intros mix E0 E1 E2 E3.
    lazy. rewrite E0. lazy. rewrite E1. lazy. rewrite E2. lazy. rewrite E3. lazy. reflexivity.
  - unfold columnround, fmap, list_fmap. by rewrite Q0, Q1, Q2, Q3.
Qed.

Lemma core_rounds n i x : length x = 16%nat ->
  exists x', for_ (fun _ x => core_round x) i (2 * n) x = Some x' /\ length x' = 16%nat /\
    low <$> x' = Nat.iter n doubleround (low <$> x).
Proof.
  revert i x. induction n as [|n IH]; intros i x Hl; [by exists x|].
  replace (2 * S n)%nat with (S (S (2 * n))) by lia. cbn [for_].
  destruct (core_round_low x Hl) as (x1 & -> & L1 & E1). cbn [mbind option_bind].
  destruct (core_round_low x1 L1) as (x2 & -> & L2 & E2). cbn [mbind option_bind].
  destruct (IH (i + 1 + 1) x2 L2) as (x' & -> & L' & E'). exists x'. split; [done|]. split; [done|].
  rewrite E', E2, E1, transpose_rounds, Nat.iter_succ_r; [done|by rewrite length_fmap].
Qed.

(** The three arguments of the core. *)
Record core_args (inp k c : list Z) : Prop := mk_core_args {
  ca_inp : bytes inp /\ (16 <= length inp)%nat;
  ca_k : bytes k /\ (32 <= length k)%nat;
  ca_c : bytes c /\ (16 <= length c)%nat;
}.

Lemma ld32_word x i : bytes x -> 0 <= i -> 4 * i + 4 <= Z.of_nat (length x) -> ld32 x (4 * i) = Some (word_at x (Z.to_nat i)).
Proof. intros Hx Hi Hl. rewrite ld32_spec by (done || lia). unfold word_at. by replace (Z.to_nat (4 * i)) with (4 * Z.to_nat i)%nat by lia. Qed.

Lemma core_load_spec inp k c : core_args inp k c -> core_load inp k c = Some (matrix inp k c).
Proof.
  intros [[Hi Li] [Hk Lk] [Hc Lc]]. unfold core_load.
  rewrite (for_ext _ (fun i x => x ← aset x (5 * i) (word_at c (Z.to_nat i)); x ← aset x (1 + i) (word_at k (Z.to_nat i));
    x ← aset x (6 + i) (word_at inp (Z.to_nat i)); aset x (11 + i) (word_at k (Z.to_nat (4 + i))))).
  - unfold matrix. generalize word_at. intros w. lazy. reflexivity.
  - intros i x Hr. replace (16 + 4 * i) with (4 * (4 + i)) by lia. by rewrite !ld32_word by (done || lia).
Qed.

Lemma low_word l i : bytes l -> low (word_at l i) = word_at l i.
Proof.
  intros Hl. apply low_id. unfold word_at. pose proof (le_int_range (take 4 (drop (4 * i) l)) ltac:(by apply Forall_take, Forall_drop)).
  rewrite length_take in H. assert (256 ^ Z.of_nat (4 `min` length (drop (4 * i) l)) <= 2 ^ 32); [|lia].
  change (2 ^ 32) with (256 ^ 4). apply Z.pow_le_mono_r; lia.
Qed.

Lemma low_matrix inp k c : core_args inp k c -> low <$> matrix inp k c = matrix inp k c.
Proof. intros [[Hi _] [Hk _] [Hc _]]. unfold matrix. cbn [fmap list_fmap]. by rewrite !low_word by done. Qed.

(** A loop that appends. *)
Lemma for_append {A} (f : Z -> list A -> option (list A)) (h : nat -> list A) n acc :
  (forall i out, (i < n)%nat -> f (Z.of_nat i) out = Some (out ++ h i)) -> for_ f 0 n acc = Some (acc ++ concat (h <$> seq 0 n)).
Proof.
  intros Hf. destruct (for_inv (fun k s => s = acc ++ concat (h <$> seq 0 (Z.to_nat k))) f n 0 acc) as (s & E & Hs).
  - by rewrite app_nil_r.
  - intros k s Hk ->. specialize (Hf (Z.to_nat k)). rewrite Z2Nat.id in Hf by lia. rewrite Hf by lia. eexists. split; [done|].
    replace (Z.to_nat (k + 1)) with (S (Z.to_nat k)) by lia. rewrite seq_S, fmap_app, concat_app. cbn [fmap list_fmap concat Nat.add].
    by rewrite app_nil_r, app_assoc.
  - rewrite E, Hs. by replace (Z.to_nat (0 + Z.of_nat n)) with n by lia.
Qed.

Lemma low_sum x y : length x = 16%nat -> length y = 16%nat ->
  zip_with add32 (low <$> x) (low <$> y) = (fun i => low (word_add (nth i x 0) (nth i y 0))) <$> seq 0 16.
Proof. intros Hx Hy. split16 x. split16 y. unfold word_add. cbn [fmap list_fmap seq nth]. by rewrite !low_add. Qed.

Lemma core_sum x y : length x = 16%nat -> length y = 16%nat -> low <$> y = y ->
  for_ (fun i out => xi ← aget x i; yi ← aget y i; Some (out ++ st32 (word_add xi yi))) 0 16 [] =
    Some (concat (le_bytes 4 <$> zip_with add32 (low <$> x) y)).
Proof.
  intros Hx Hy Ey. rewrite (for_append _ (fun i => st32 (word_add (nth i x 0) (nth i y 0)))).
  - replace (zip_with add32 (low <$> x) y) with (zip_with add32 (low <$> x) (low <$> y)) by (by rewrite Ey).
    rewrite low_sum, <- list_fmap_compose by done. f_equal. cbn [app]. f_equal. apply list_fmap_ext. intros. apply st32_low.
  - intros i out Hi. rewrite (aget_nth x _ 0), (aget_nth y _ 0) by lia. by rewrite Nat2Z.id.
Qed.

Lemma core_add x y : length x = 16%nat -> length y = 16%nat ->
  for_ (fun i x => xi ← aget x i; yi ← aget y i; aset x i (word_add xi yi)) 0 16 x = Some (zip_with word_add x y).
Proof. intros Hx Hy. split16 x. split16 y. generalize word_add. intros g. lazy. reflexivity. Qed.

Lemma core_sub_spec inp c x x0 x1 x2 x3 x4 x5 x6 x7 x8 x9 x10 x11 x12 x13 x14 x15 :
  bytes inp -> (16 <= length inp)%nat -> bytes c -> (16 <= length c)%nat ->
  x = [x0; x1; x2; x3; x4; x5; x6; x7; x8; x9; x10; x11; x12; x13; x14; x15] ->
  core_sub inp c x = Some [word_sub x0 (word_at c 0); x1; x2; x3; x4; word_sub x5 (word_at c 1);
    word_sub x6 (word_at inp 0); word_sub x7 (word_at inp 1); word_sub x8 (word_at inp 2); word_sub x9 (word_at inp 3);
    word_sub x10 (word_at c 2); x11; x12; x13; x14; word_sub x15 (word_at c 3)].
Proof.
  intros Hi Li Hc Lc ->. unfold core_sub.
  rewrite (for_ext _ (fun i x => xi ← aget x (5 * i); x ← aset x (5 * i) (word_sub xi (word_at c (Z.to_nat i)));
    xi ← aget x (6 + i); aset x (6 + i) (word_sub xi (word_at inp (Z.to_nat i))))).
  - generalize word_at word_sub. intros w sub. lazy. reflexivity.
  - intros i x Hr. by rewrite !ld32_word by (done || lia).
Qed.

Lemma core_pick_spec x0 x1 x2 x3 x4 x5 x6 x7 x8 x9 x10 x11 x12 x13 x14 x15 :
  core_pick [x0; x1; x2; x3; x4; x5; x6; x7; x8; x9; x10; x11; x12; x13; x14; x15] =
    Some (concat (st32 <$> [x0; x5; x10; x15; x6; x7; x8; x9])).
Proof.
  unfold core_pick. generalize st32. intros st.
  transitivity (Some ((((st x0 ++ st x5) ++ st x10) ++ st x15) ++ ((st x6 ++ st x7) ++ st x8) ++ st x9)); [lazy; reflexivity|].
  cbn [fmap list_fmap concat]. by rewrite <- !app_assoc, app_nil_r.
Qed.

(** Taking away what was added. *)
Lemma st32_difference a b : st32 (word_sub (word_add a b) b) = le_bytes 4 (low a).
Proof.
  rewrite st32_low. unfold word_sub, word_add. rewrite low_u64. f_equal. unfold low, u64, wrapU.
  rewrite Zminus_mod, (Z.mod_mod_divide (a + b)) by (by exists (2 ^ 32)). rewrite <- Zminus_mod. f_equal. lia.
Qed.

Lemma core_places inp k c x : core_args inp k c -> length x = 16%nat ->
  (x ← core_sub inp c (zip_with word_add x (matrix inp k c)); core_pick x) =
    Some (concat ((fun i => le_bytes 4 (nth i (low <$> x) 0)) <$> [0; 5; 10; 15; 6; 7; 8; 9]%nat)).
Proof.
  intros [[Hi Li] _ [Hc Lc]] Hx. split16 x. unfold matrix. cbn [zip_with].
  erewrite core_sub_spec by (done || reflexivity). cbn [mbind option_bind].
  rewrite core_pick_spec. cbn [fmap list_fmap nth]. by rewrite !st32_difference.
Qed.

Lemma core_rounds_matrix inp k c : core_args inp k c ->
  exists x, for_ (fun _ x => core_round x) 0 20 (matrix inp k c) = Some x /\ length x = 16%nat /\ low <$> x = rounds inp k c.
Proof.
  intros Ha. destruct (core_rounds 10 0 (matrix inp k c) eq_refl) as (x & Ex & Lx & E). rewrite low_matrix in E by done.
  exists x. split; [exact Ex|]. split; [exact Lx|]. unfold rounds. exact E.
Qed.

(** A step that succeeds. *)
Lemma bind_step {A B} (m : option A) (f : A -> option B) a r : m = Some a -> f a = r -> m ≫= f = r.
Proof. intros -> <-. done. Qed.

Lemma core_hsalsa20 inp k c : core_args inp k c -> core inp k c true = Some (hsalsa20 inp k c).
Proof.
  intros Ha. destruct (core_rounds_matrix inp k c Ha) as (x & Ex & Lx & E).
  refine (bind_step _ _ _ _ (core_load_spec inp k c Ha) _). refine (bind_step _ _ _ _ Ex _).
  refine (bind_step _ _ _ _ (core_add x (matrix inp k c) Lx eq_refl) _). unfold hsalsa20. rewrite <- E. exact (core_places inp k c x Ha Lx).
Qed.

Lemma core_salsa20 inp k c : core_args inp k c -> core inp k c false = Some (salsa20 inp k c).
Proof.
  intros Ha. destruct (core_rounds_matrix inp k c Ha) as (x & Ex & Lx & E).
  refine (bind_step _ _ _ _ (core_load_spec inp k c Ha) _). refine (bind_step _ _ _ _ Ex _).
  unfold salsa20. rewrite <- E. exact (core_sum x (matrix inp k c) Lx eq_refl (low_matrix inp k c Ha)).
Qed.

Lemma length_le_words l : length (concat (le_bytes 4 <$> l)) = (4 * length l)%nat.
Proof. induction l as [|x l IH]; [done|]. rewrite fmap_cons. cbn [concat length]. rewrite length_app, length_le_bytes, IH. lia. Qed.

Lemma bytes_le_words l : bytes (concat (le_bytes 4 <$> l)).
Proof. induction l as [|x l IH]; [constructor|]. rewrite fmap_cons. apply Forall_app. split; [apply le_bytes_ok|exact IH]. Qed.

Lemma length_doubleround y : length y = 16%nat -> length (doubleround y) = 16%nat.
Proof.
  intros Hl. unfold doubleround. assert (length (columnround y) = 16%nat) as Hc.
  { split16 y. unfold columnround. do 4 destruct (quarterround _) as [[[? ?] ?] ?]. done. }
  revert Hc. generalize (columnround y). clear y Hl. intros y Hl. split16 y.
  unfold rowround. do 4 destruct (quarterround _) as [[[? ?] ?] ?]. done.
Qed.

Lemma length_iter_double n y : length y = 16%nat -> length (Nat.iter n doubleround y) = 16%nat.
Proof. intros Hy. induction n as [|n IH]; [done|]. exact (length_doubleround _ IH). Qed.

Lemma length_rounds inp k c : length (rounds inp k c) = 16%nat.
Proof. unfold rounds. exact (length_iter_double 10 (matrix inp k c) eq_refl). Qed.

Lemma salsa20_block inp k c : length (salsa20 inp k c) = 64%nat /\ bytes (salsa20 inp k c).
Proof. unfold salsa20. split; [|apply bytes_le_words]. by rewrite length_le_words, length_zip_with, length_rounds. Qed.

Lemma hsalsa20_key inp k c : bits256_ok (hsalsa20 inp k c).
Proof.
  unfold hsalsa20. rewrite (list_fmap_compose (fun i => nth i (rounds inp k c) 0) (le_bytes 4)).
  split; [by rewrite length_le_words|apply bytes_le_words].
Qed.

(** ** The stream *)

(** Counting in eight bytes. *)
Lemma count_up_spec u z : bytes z -> 0 <= u < 256 -> count_up u z = le_bytes (length z) (le_int z + u).
Proof.
  intros Hz. revert u. induction Hz as [|b z Hb Hz IH]; intros u Hu; [done|]. unfold is_byte in Hb. cbn [count_up length le_bytes le_int].
  rewrite u64_small by lia. rewrite IH by (rewrite Z.shiftr_div_pow2 by lia; change (2 ^ 8) with 256; split; [apply Z.div_pos|apply Z.div_lt_upper_bound]; lia).
  rewrite Z.shiftr_div_pow2 by lia. unfold u8, wrapU. change (2 ^ 8) with 256.
  replace (b + 256 * le_int z + u) with (u + b + le_int z * 256) by lia. rewrite Z.mod_add, Z.div_add by lia. do 2 f_equal. lia.
Qed.

Definition xor_bytes : list Z -> list Z -> list Z := zip_with Z.lxor.

(** The [n] bytes at [m + off], zeros for a NULL pointer. *)
Definition source (m : option (list Z)) (off n : nat) : list Z :=
  match m with Some m => take n (drop off m) | None => replicate n 0 end.

Definition source_ok (m : option (list Z)) (n : nat) : Prop :=
  match m with Some m => (n <= length m)%nat | None => True end.

Lemma xor_block_spec m off x n : source_ok m (off + n) -> (n <= length x)%nat ->
  xor_block m (Z.of_nat off) x (Z.of_nat n) = Some (xor_bytes (source m off n) (take n x)).
Proof.
  intros Hm Hx. unfold xor_block. rewrite Nat2Z.id.
  destruct (for_inv (fun k c => c = xor_bytes (source m off (Z.to_nat k)) (take (Z.to_nat k) x)) (fun i c =>
    mi ← match m with Some m => aget m (Z.of_nat off + i) | None => Some 0 end; xi ← aget x i; Some (c ++ [Z.lxor mi xi])) n 0 [])
    as (c & -> & Hc).
  - unfold source. by destruct m.
  - intros k c Hk ->. replace (Z.to_nat (k + 1)) with (S (Z.to_nat k)) by lia.
    destruct (aget_is_Some x k) as (xk & Ex & ->); [lia|]. rewrite (take_S_r x _ _ Ex).
    assert (exists mk, match m with Some m => aget m (Z.of_nat off + k) | None => Some 0 end = Some mk /\
      source m off (S (Z.to_nat k)) = source m off (Z.to_nat k) ++ [mk]) as (mk & -> & ->).
    { destruct m as [m|]; cbn [source_ok source] in *.
      - destruct (aget_is_Some m (Z.of_nat off + k)) as (mk & Em & ->); [lia|]. exists mk. split; [done|].
        apply take_S_r. rewrite lookup_drop, <- Em. f_equal. lia.
      - exists 0. split; [done|]. by rewrite <- replicate_S_end. }
    cbn [mbind option_bind]. eexists. split; [done|]. unfold xor_bytes. rewrite zip_with_app; [done|].
    rewrite length_take, Nat.min_l by lia. destruct m as [m|]; cbn [source_ok source] in *; [rewrite length_take, length_drop; lia|apply length_replicate].
  - rewrite Hc. by replace (Z.to_nat (0 + Z.of_nat n)) with n by lia.
Qed.

Lemma key_block_ok n k i : length (key_block n k i) = 64%nat /\ bytes (key_block n k i).
Proof. apply salsa20_block. Qed.

Section Blocks.
Context (block : Z -> list Z).
Hypothesis length_block : forall i, length (block i) = 64%nat.

Lemma stream_small i d : (d < 64)%nat -> stream_of block i d = take d (block i).
Proof. intros Hd. unfold stream_of. rewrite Nat.div_small by done. cbn [seq fmap list_fmap concat]. by rewrite app_nil_r, Z.add_0_r. Qed.

Lemma stream_next i d : stream_of block i (64 + d) = block i ++ stream_of block (i + 1) d.
Proof using length_block.
  unfold stream_of. replace ((64 + d) / 64)%nat with (S (d / 64)) by (replace (64 + d)%nat with (d + 1 * 64)%nat by lia; rewrite Nat.div_add; lia).
  rewrite <- (cons_seq (S (d / 64))). rewrite fmap_cons. cbn [concat]. rewrite Z.add_0_r.
  rewrite take_app, length_block, take_ge by (rewrite length_block; lia). f_equal. f_equal; [lia|]. f_equal.
  rewrite <- (fmap_S_seq 0), <- list_fmap_compose. apply list_fmap_ext. intros j ? _. unfold compose. f_equal. lia.
Qed.

Lemma length_stream i d : length (stream_of block i d) = d.
Proof using length_block.
  revert i. induction d as [d IH] using lt_wf_ind. intros i. destruct (decide (d < 64)%nat) as [Hd|Hd].
  - rewrite stream_small by done. rewrite length_take, length_block. lia.
  - replace d with (64 + (d - 64))%nat by lia. rewrite stream_next, length_app, length_block, IH by lia. done.
Qed.
End Blocks.

Lemma length_key_stream n k i d : length (key_stream_from n k i d) = d.
Proof. apply length_stream. intros j. apply key_block_ok. Qed.

Lemma sigma_bytes : bytes sigma /\ (16 <= length sigma)%nat.
Proof. split; [by apply (bool_decide_unpack _)|cbn; lia]. Qed.

Lemma length_source m off n : source_ok m (off + n) -> length (source m off n) = n.
Proof. destruct m as [m|]; cbn [source_ok source]; [rewrite length_take, length_drop; lia|intros _; apply length_replicate]. Qed.

Lemma source_split m off n d : source m off (n + d) = source m off n ++ source m (off + n) d.
Proof.
  destruct m as [m|]; cbn [source]; [|apply replicate_add].
  by rewrite <- (take_take_drop _ n d), drop_drop.
Qed.

Lemma counted_args n i k : bytes n -> length n = 8%nat -> bytes k -> (32 <= length k)%nat -> core_args (n ++ le_bytes 8 i) k sigma.
Proof.
  intros Hn Ln Hk Lk. split; [|done|apply sigma_bytes]. rewrite length_app, length_le_bytes. split; [|lia].
  apply Forall_app. split; [done|apply le_bytes_ok].
Qed.

Lemma key_block_core n i k : bytes n -> length n = 8%nat -> bytes k -> (32 <= length k)%nat ->
  crypto_core_salsa20 (n ++ le_bytes 8 i) k sigma = Some (key_block n k i).
Proof. intros Hn Ln Hk Lk. exact (core_salsa20 _ _ _ (counted_args n i k Hn Ln Hk Lk)). Qed.

#[local] Opaque crypto_core_salsa20 key_block sigma.

(** The loop, for whatever blocks the core makes of the counter. *)
Lemma blocks_loop blocks m off b n i k c block : length n = 8%nat ->
  (forall i, crypto_core_salsa20 (n ++ le_bytes 8 i) k sigma = Some (block i)) -> (forall i, length (block i) = 64%nat) ->
  (b / 64 <= blocks)%nat -> source_ok m (off + b) ->
  salsa20_blocks blocks m (Z.of_nat off) (Z.of_nat b) (n ++ le_bytes 8 i) k c =
    Some (c ++ xor_bytes (source m off b) (stream_of block i b)).
Proof.
  intros Ln Hcore Lb. revert off b i c.
  induction blocks as [|blocks IH]; intros off b i c Hb Hm; cbn [salsa20_blocks]; destruct (Z.ltb_spec (Z.of_nat b) 64) as [Hlt|Hge].
  2: { pose proof (Nat.Div0.div_le_mono 64 b 64 ltac:(lia)). change (64 / 64)%nat with 1%nat in *. lia. }
  1,2: rewrite stream_small by lia; destruct (Z.eqb_spec (Z.of_nat b) 0) as [E|E].
  1,3: replace b with 0%nat by lia; destruct m; cbn [source take replicate xor_bytes zip_with]; by rewrite app_nil_r.
  1,2: rewrite Hcore; cbn [mbind option_bind]; by rewrite xor_block_spec by (rewrite ?Lb; done || lia).
  assert (source_ok m (off + 64)) as Hm64 by (destruct m; cbn [source_ok] in *; [lia|done]).
  assert (source_ok m (off + 64 + (b - 64))) as Hm' by (destruct m; cbn [source_ok] in *; [lia|done]).
  rewrite Hcore. cbn [mbind option_bind]. rewrite (xor_block_spec m off (block i) 64 Hm64 ltac:(rewrite Lb; lia) : xor_block m (Z.of_nat off) (block i) 64 = _). cbn [mbind option_bind].
  rewrite take_app_length', drop_app_length' by done.
  rewrite count_up_spec by (lia || apply le_bytes_ok). rewrite length_le_bytes, le_int_bytes.
  replace (le_bytes 8 (i mod 256 ^ Z.of_nat 8 + 1)) with (le_bytes 8 (i + 1)).
  2: { rewrite <- (le_bytes_mod 8 (i + 1)), <- (le_bytes_mod 8 (_ + 1)). by rewrite Z.add_mod_idemp_l. }
  replace (Z.of_nat off + 64) with (Z.of_nat (off + 64)) by lia. replace (Z.of_nat b - 64) with (Z.of_nat (b - 64)) by lia.
  rewrite IH by (done || (replace b with (b - 64 + 1 * 64)%nat in Hb by lia; rewrite Nat.div_add in Hb; lia)).
  replace (source m off b) with (source m off 64 ++ source m (off + 64) (b - 64)) by (rewrite <- source_split; f_equal; lia).
  replace (stream_of block i b) with (block i ++ stream_of block (i + 1) (b - 64)) by (rewrite <- stream_next by done; f_equal; lia).
  unfold xor_bytes. rewrite zip_with_app by (by rewrite length_source, Lb). rewrite (take_ge (block i)) by (rewrite Lb; lia). by rewrite app_assoc.
Qed.

Lemma stream_xor_spec m b n k : bytes n -> (8 <= length n)%nat -> bytes k -> (32 <= length k)%nat -> source_ok m b ->
  crypto_stream_salsa20_xor m (Z.of_nat b) n k = Some (xor_bytes (source m 0 b) (key_stream_from (take 8 n) k 0 b)).
Proof.
  intros Hn Ln Hk Lk Hm. unfold crypto_stream_salsa20_xor. destruct (Z.eqb_spec (Z.of_nat b) 0) as [E|E].
  { replace b with 0%nat by lia. by destruct m. }
  rewrite memcpy_eq by (rewrite ?length_replicate; lia). cbn [mbind option_bind].
  change (take (Z.to_nat 8) (drop (Z.to_nat 0) n)) with (take 8 n).
  change (take (Z.to_nat 0) (replicate 16 0) ++ take 8 n ++ drop (Z.to_nat (0 + 8)) (replicate 16 0)) with (take 8 n ++ le_bytes 8 0).
  assert (length (take 8 n) = 8%nat) as L8 by (rewrite length_take; lia).
  assert (bytes (take 8 n)) as H8 by (by apply Forall_take).
  refine (blocks_loop _ m 0 b _ 0 k [] (key_block (take 8 n) k) L8 _ _ _ Hm).
  - intros i. exact (key_block_core (take 8 n) i k H8 L8 Hk Lk).
  - intros i. apply key_block_ok.
  - rewrite <- (Nat2Z.inj_div b 64 : _ = Z.of_nat b / 64), Nat2Z.id. done.
Qed.

Lemma xor_zeros l : xor_bytes (replicate (length l) 0) l = l.
Proof. unfold xor_bytes. induction l as [|x l IH]; [done|]. cbn [length replicate zip_with]. by rewrite IH. Qed.

Section XSalsa.
Context (n k : list Z).
Hypothesis nonce_ok : bytes n /\ (24 <= length n)%nat.
Hypothesis key_ok : bytes k /\ (32 <= length k)%nat.

Lemma stream_key : crypto_core_hsalsa20 n k sigma = Some (hsalsa20 n k sigma).
Proof using nonce_ok key_ok. apply core_hsalsa20. split; [split; [apply nonce_ok|destruct nonce_ok; lia]|done|apply sigma_bytes]. Qed.

Lemma xsalsa20_xor m b : source_ok m b ->
  (s ← crypto_core_hsalsa20 n k sigma; crypto_stream_salsa20_xor m (Z.of_nat b) (drop 16 n) s) =
    Some (xor_bytes (source m 0 b) (xsalsa20 n k b)).
Proof using nonce_ok key_ok.
  intros Hm. refine (bind_step _ _ _ _ stream_key _). destruct (hsalsa20_key n k sigma) as [Lh Hh]. destruct nonce_ok as [Hn Ln].
  apply stream_xor_spec; [by apply Forall_drop|rewrite length_drop; lia|done|lia|done].
Qed.

(** The first [d] bytes of the stream. *)
Lemma crypto_stream_spec d : crypto_stream (Z.of_nat d) n k = Some (xsalsa20 n k d).
Proof using nonce_ok key_ok.
  unfold crypto_stream, crypto_stream_salsa20. rewrite xsalsa20_xor by done. cbn [source].
  rewrite <- (length_key_stream (take 8 (drop 16 n)) (hsalsa20 n k sigma) 0 d) at 1. by rewrite xor_zeros.
Qed.

Lemma stream_xor_eq m d : (d <= length m)%nat -> crypto_stream_xor m (Z.of_nat d) n k = Some (xor_bytes (take d m) (xsalsa20 n k d)).
Proof using nonce_ok key_ok. intros Hd. unfold crypto_stream_xor. by rewrite xsalsa20_xor by done. Qed.
End XSalsa.

(** C16: [crypto_stream_xor] is XSalsa20: for any message of any length the loops end
    within the message, the nonce and the key, and byte [i] of the result is byte [i] of
    the message xor byte [i] of the key stream, whose blocks are the published cipher's
    - double rounds of rows and columns over 32-bit words, although the code computes in
    64-bit ones with a transposition per round - for the nonce and a 64-bit counter. *)
Theorem crypto_stream_xor_spec m d n k : bytes n -> (24 <= length n)%nat -> bytes k -> (32 <= length k)%nat -> (d <= length m)%nat ->
  crypto_stream_xor m (Z.of_nat d) n k = Some (xor_bytes (take d m) (xsalsa20 n k d)).
Proof. intros Hn Ln Hk Lk Hd. exact (stream_xor_eq n k (conj Hn Ln) (conj Hk Lk) m d Hd). Qed.

Lemma crypto_stream_xor_spec_witness :
  crypto_stream_xor (replicate 100 7) (Z.of_nat 99) (replicate 24 5) (replicate 32 9) =
    Some (xor_bytes (take 99 (replicate 100 7)) (xsalsa20 (replicate 24 5) (replicate 32 9) 99)).
Proof. exact (crypto_stream_xor_spec (replicate 100 7) 99 (replicate 24 5) (replicate 32 9) ltac:(concrete) ltac:(concrete) ltac:(concrete) ltac:(concrete) ltac:(concrete)). Defined.
