(* ===== verification/Poly1305.v ===== *)
(** * Poly1305: the authenticator of the message boxes

    Models [crypto_onetimeauth] of [plugins/utils/tweetnacl.c] and the functions it
    calls: numbers modulo [2^130 - 5] as seventeen limbs of a byte, in 64-bit words, and
    shows the sixteen bytes it computes to be those of the polynomial that Poly1305 is
    defined by. *)

From S2P Require Import Prelude GF256 Field25519.

(** ** The code *)

(** [add1305]: the limbs of [h + c], with the carry [u]. *)
Fixpoint add_from (u : Z) (h c : list Z) : list Z :=
  match h, c with
  | hj :: h, cj :: c => let u := u64 (u + u64 (hj + cj)) in Z.land u 255 :: add_from (Z.shiftr u 8) h c
  | _, _ => []
  end.
Definition add1305 (h c : list Z) : list Z := add_from 0 h c.

Definition minusp : list Z := [5; 0; 0; 0; 0; 0; 0; 0; 0; 0; 0; 0; 0; 0; 0; 0; 252].

(** [x[i]]: all indices stay below seventeen. *)
Definition mul_limb (h r : list Z) (i : nat) : Z :=
  foldl (fun x j => u64 (x + u64 (nth j h 0 * (if (j <=? i)%nat then nth (i - j) r 0 else u64 (320 * nth (i + 17 - j) r 0)))))
    0 (seq 0 17).
Definition mul1305 (h r : list Z) : list Z := mul_limb h r <$> seq 0 17.

(** [u += h[j], h[j] = u & 255, u >>= 8] along the limbs: the limbs and [u]. *)
Fixpoint carry_from (u : Z) (h : list Z) : list Z * Z :=
  match h with
  | [] => ([], u)
  | hj :: h => let u := u64 (u + hj) in let '(h, v) := carry_from (Z.shiftr u 8) h in (Z.land u 255 :: h, v)
  end.

(** The two carry passes: what is above bit 130 comes back five times. *)
Definition squeeze (h : list Z) : list Z :=
  let '(lo, u) := carry_from 0 (take 16 h) in
  let u := u64 (u + nth 16 h 0) in
  let h16 := Z.land u 3 in
  let u := u64 (5 * Z.shiftr u 2) in
  let '(lo, u) := carry_from u lo in
  lo ++ [u64 (u + h16)].

(** [c]: up to sixteen bytes of the message, then a one. *)
Definition load_block (m : list Z) (off n : Z) : option (list Z) :=
  let j := Z.min 16 n in
  c ← for_ (fun j c => mj ← aget m (off + j); aset c j mj) 0 (Z.to_nat j) (replicate 17 0);
  aset c j 1.

(** The loop over the message; [blocks] bounds its rounds. *)
Fixpoint auth_blocks (blocks : nat) (m : list Z) (off n : Z) (r h : list Z) : option (list Z) :=
  if n =? 0 then Some h
  else
    match blocks with
    | O => None
    | S blocks =>
      c ← load_block m off n;
      let j := Z.min 16 n in
      auth_blocks blocks m (off + j) (n - j) r (squeeze (mul1305 (add1305 h c) r))
    end.

(** [r]: the first half of the key without the bits the masks take away. *)
Definition load_r (k : list Z) : option (list Z) :=
  r ← memcpy (replicate 17 0) 0 k 0 16;
  foldl (fun r '(j, mask) => r ← r; rj ← aget r j; aset r j (Z.land rj mask)) (Some r)
    [(3, 15); (4, 252); (7, 15); (8, 252); (11, 15); (12, 252); (15, 15)].

(** [h] itself or [h - p], by the sign of the latter, without a branch. *)
Definition freeze1305 (h : list Z) : list Z :=
  let g := h in
  let h := add1305 h minusp in
  let s := u64 (- Z.shiftr (nth 16 h 0) 7) in
  zip_with (fun hj gj => Z.lxor hj (Z.land s (Z.lxor gj hj))) h g.

(** The sixteen bytes written to [out]; [m] are the bytes from the pointer on. *)
Definition crypto_onetimeauth (m : list Z) (n : Z) (k : list Z) : option (list Z) :=
  r ← load_r k;
  h ← auth_blocks (Z.to_nat (n / 16 + 1)) m 0 n r (replicate 17 0);
  c ← memcpy (replicate 17 0) 0 k 16 16;
  Some (take 16 (add1305 (freeze1305 h) c)).

(** [d |= x[i] ^ y[i]], and [(1 & ((d - 1) >> 8)) - 1]. *)
Definition vn (x y : list Z) (n : nat) : option Z :=
  d ← for_ (fun i d => xi ← aget x i; yi ← aget y i; Some (Z.lor d (Z.lxor xi yi))) 0 n 0;
  Some (Z.land 1 (Z.shiftr (u64 (d - 1)) 8) - 1).

Definition crypto_verify_16 (x y : list Z) : option Z := vn x y 16.

Definition crypto_onetimeauth_verify (h m : list Z) (n : Z) (k : list Z) : option Z :=
  x ← crypto_onetimeauth m n k; crypto_verify_16 h x.

(** ** The polynomial

    The blocks of sixteen bytes, each with a one on top, are the coefficients; the
    polynomial is evaluated at [r] modulo [2^130 - 5] and the second half of the key is
    added. *)

Definition p1305 : Z := 2 ^ 130 - 5.

Definition clamp_r (k : list Z) : Z := Z.land (le_int (take 16 k)) 0x0ffffffc0ffffffc0ffffffc0fffffff.

Definition poly_block (m : list Z) (i : nat) : Z := le_int (take 16 (drop (16 * i) m) ++ [1]).

Definition poly_from (r a : Z) (m : list Z) : Z :=
  foldl (fun a i => (a + poly_block m i) * r mod p1305) a (seq 0 ((length m + 15) / 16)).

Definition poly1305 (m k : list Z) : list Z :=
  le_bytes 16 ((poly_from (clamp_r k) 0 m + le_int (take 16 (drop 16 k))) mod 2 ^ 128).

(** ** Limbs *)

Definition below (b : Z) (l : list Z) : Prop := Forall (fun x => 0 <= x < b) l.

Lemma below_weaken b c l : below b l -> b <= c -> below c l.
Proof. intros H Hc. unfold below in *. apply (list.Forall_impl _ _ _ H). cbn. lia. Qed.

Lemma land_255_mod x : Z.land x 255 = x mod 256.
Proof. change 255 with (Z.ones 8). by rewrite Z.land_ones. Qed.

Lemma add_from_spec u h c : length h = length c -> below (2 ^ 40) h -> below (2 ^ 40) c -> 0 <= u < 2 ^ 40 ->
  add_from u h c = le_bytes (length h) (le_int h + le_int c + u).
Proof.
  revert u c. induction h as [|x h IH]; intros u [|y c] Hl Hh Hc Hu; [done..|]. injection Hl as Hl.
  apply Forall_cons_1 in Hh as [Hx Hh]. apply Forall_cons_1 in Hc as [Hy Hc]. cbn [add_from length le_bytes le_int].
  rewrite (u64_small (x + y)), (u64_small (u + (x + y))) by lia. rewrite land_255_mod, Z.shiftr_div_pow2 by lia. change (2 ^ 8) with 256.
  assert (0 <= (u + (x + y)) / 256 < 2 ^ 40) by (split; [apply Z.div_pos|apply Z.div_lt_upper_bound]; lia). rewrite IH by done.
  replace (x + 256 * le_int h + (y + 256 * le_int c) + u) with (u + (x + y) + (le_int h + le_int c) * 256) by lia.
  rewrite Z.mod_add, Z.div_add by lia. do 2 f_equal. lia.
Qed.

Lemma carry_from_spec u h : below (2 ^ 40) h -> 0 <= u < 2 ^ 40 ->
  carry_from u h = (le_bytes (length h) (le_int h + u), (le_int h + u) / 256 ^ Z.of_nat (length h)).
Proof.
  revert u. induction h as [|x h IH]; intros u Hh Hu.
  { cbn [carry_from length le_bytes le_int]. change (256 ^ Z.of_nat 0) with 1. by rewrite Z.div_1_r. }
  apply Forall_cons_1 in Hh as [Hx Hh]. cbn [carry_from length le_bytes le_int].
  rewrite u64_small by lia. rewrite land_255_mod, Z.shiftr_div_pow2 by lia. change (2 ^ 8) with 256.
  assert (0 <= (u + x) / 256 < 2 ^ 40) by (split; [apply Z.div_pos|apply Z.div_lt_upper_bound]; lia). rewrite IH by done.
  rewrite Nat2Z.inj_succ, Z.pow_succ_r by lia. rewrite <- Z.div_div by lia.
  replace (x + 256 * le_int h + u) with (u + x + le_int h * 256) by lia.
  rewrite Z.mod_add, Z.div_add by lia. by rewrite (Z.add_comm (le_int h)).
Qed.

Lemma le_int_scale c l : le_int ((fun x => c * x) <$> l) = c * le_int l.
Proof. induction l as [|x l IH]; [cbn; lia|]. rewrite fmap_cons. cbn [le_int]. rewrite IH. lia. Qed.

(** ** The product *)

Definition eq1305 (x y : Z) : Prop := exists k, x = y + k * p1305.

#[export] Instance eq1305_equiv : Equivalence eq1305.
Proof.
  split.
  - intros x. exists 0. lia.
  - intros x y [k ->]. exists (- k). lia.
  - intros x y z [k ->] [j ->]. exists (j + k). lia.
Qed.

#[export] Instance eq1305_add : Proper (eq1305 ==> eq1305 ==> eq1305) Z.add.
Proof. intros x y [k ->] a b [j ->]. exists (k + j). lia. Qed.

#[export] Instance eq1305_mul : Proper (eq1305 ==> eq1305 ==> eq1305) Z.mul.
Proof. intros x y [k ->] a b [j ->]. exists (k * b + y * j + k * j * p1305). lia. Qed.

Lemma eq1305_mod x : eq1305 (x mod p1305) x.
Proof. exists (- (x / p1305)). pose proof (Z.div_mod x p1305 ltac:(done)). lia. Qed.

Lemma eq1305_iff x y : eq1305 x y -> x mod p1305 = y mod p1305.
Proof. intros [k ->]. by apply Z.mod_add. Qed.

(** Entry [i] of [r] moved up by [j] places, what leaves coming back 320 times:
    [256^17] is [320] modulo [p]. *)
Definition rotated (r : list Z) (j i : nat) : Z := if (j <=? i)%nat then nth (i - j) r 0 else 320 * nth (i + 17 - j) r 0.

Lemma rotated_list r j : length r = 17%nat -> (j < 17)%nat ->
  rotated r j <$> seq 0 17 = ((fun x => 320 * x) <$> drop (17 - j) r) ++ take (17 - j) r.
Proof.
  intros Hr Hj. do 17 (destruct r as [|? r]; [done|]). destruct r; [|done].
  do 17 (destruct j as [|j]; [reflexivity|]). lia.
Qed.

Lemma rotated_value r j : length r = 17%nat -> (j < 17)%nat ->
  eq1305 (le_int (rotated r j <$> seq 0 17)) (256 ^ Z.of_nat j * le_int r).
Proof.
  intros Hr Hj. rewrite rotated_list, le_int_app, le_int_scale, length_fmap, length_drop, Hr by done.
  replace (17 - (17 - j))%nat with j by lia. rewrite <- (take_drop (17 - j) r) at 3. rewrite le_int_app, length_take, Hr, Nat.min_l by lia.
  rewrite Z.mul_add_distr_l, Z.mul_assoc, <- Z.pow_add_r by lia. replace (Z.of_nat j + Z.of_nat (17 - j)) with 17 by lia.
  exists (- (64 * le_int (drop (17 - j) r))). unfold p1305. change (256 ^ 17) with (64 * 2 ^ 130). lia.
Qed.

(** The limbs of a product, without the wraps. *)
Definition product_limb (h r : list Z) (n i : nat) : Z := sumZ ((fun j => nth j h 0 * rotated r j i) <$> seq 0 n).

Lemma nth_below l k : below 256 l -> 0 <= nth k l 0 <= 255.
Proof.
  intros Hl. destruct (nth_in_or_default k l 0) as [Hk| ->]; [|lia].
  pose proof (proj1 (list.Forall_forall _ _) Hl _ (proj2 (list_elem_of_In _ _) Hk)) as Hb. cbn in Hb. lia.
Qed.

Lemma product_term h r j i : below 256 h -> below 256 r -> 0 <= nth j h 0 * rotated r j i <= 255 * (320 * 255).
Proof.
  intros Hh Hr. pose proof (nth_below h j Hh). unfold rotated. pose proof (nth_below r (i - j) Hr).
  pose proof (nth_below r (i + 17 - j) Hr). destruct (j <=? i)%nat; nia.
Qed.

Lemma product_bound h r n i : below 256 h -> below 256 r -> 0 <= product_limb h r n i <= Z.of_nat n * (255 * (320 * 255)).
Proof.
  intros Hh Hr. unfold product_limb. induction n as [|n IH]; [done|]. rewrite seq_S, fmap_app, sumZ_app.
  pose proof (product_term h r n i Hh Hr). cbn [Nat.add fmap list_fmap sumZ foldr] in *. lia.
Qed.

Lemma mul_limb_spec h r i : below 256 h -> below 256 r -> mul_limb h r i = product_limb h r 17 i.
Proof.
  intros Hh Hr. unfold mul_limb.
  assert (forall n, (n <= 17)%nat -> foldl (fun x j => u64 (x + u64 (nth j h 0 * (if (j <=? i)%nat then nth (i - j) r 0 else u64 (320 * nth (i + 17 - j) r 0)))))
    0 (seq 0 n) = product_limb h r n i) as H; [|by apply H].
  induction n as [|n IH]; intros Hn; [done|]. rewrite seq_S, foldl_app, IH by lia.
  pose proof (product_bound h r n i Hh Hr) as Hp. pose proof (product_term h r n i Hh Hr) as Ht. pose proof (nth_below r (i + 17 - n) Hr).
  unfold product_limb at 2. rewrite seq_S, fmap_app, sumZ_app. fold (product_limb h r n i).
  cbn [foldl Nat.add fmap list_fmap sumZ foldr]. rewrite Z.add_0_r. set (q := product_limb h r n i) in *. unfold rotated in *.
  destruct (n <=? i)%nat; [|rewrite (u64_small (320 * _)) by lia]; rewrite (u64_small (nth n h 0 * _)), u64_small by lia; done.
Qed.

(** A sum of rows is a row of sums. *)
Lemma le_int_rows (f : nat -> nat -> Z) n l :
  le_int ((fun i => sumZ ((fun j => f j i) <$> seq 0 n)) <$> l) = sumZ ((fun j => le_int (f j <$> l)) <$> seq 0 n).
Proof.
  induction n as [|n IH].
  - induction l as [|x l IHl]; [done|]. rewrite fmap_cons. cbn [le_int]. rewrite IHl. done.
  - rewrite seq_S, fmap_app, sumZ_app, <- IH. cbn [fmap list_fmap sumZ foldr Nat.add]. clear IH.
    induction l as [|x l IHl]; [done|]. rewrite !fmap_cons. cbn [le_int]. rewrite IHl, fmap_app, sumZ_app.
    cbn [fmap list_fmap sumZ foldr Nat.add]. lia.
Qed.

Lemma le_int_sum l n : length l = n -> sumZ ((fun j => 256 ^ Z.of_nat j * nth j l 0) <$> seq 0 n) = le_int l.
Proof.
  revert n. induction l as [|x l IH] using rev_ind; intros n Hn; [by subst|]. rewrite length_app in Hn. cbn in Hn.
  replace n with (S (length l)) by lia. rewrite seq_S, fmap_app, sumZ_app, le_int_app. cbn [fmap list_fmap sumZ foldr Nat.add le_int].
  rewrite (app_nth2 l), Nat.sub_diag by lia. cbn [nth]. rewrite <- (IH (length l)) by done.
  erewrite list_fmap_ext; [rewrite Z.add_0_r, Z.mul_0_r, !Z.add_0_r; reflexivity|].
  intros i j Hj%lookup_seq. cbn. rewrite app_nth1 by lia. done.
Qed.

Lemma mul1305_spec h r : length h = 17%nat -> length r = 17%nat -> below 256 h -> below 256 r ->
  length (mul1305 h r) = 17%nat /\ below (2 ^ 32) (mul1305 h r) /\ eq1305 (le_int (mul1305 h r)) (le_int h * le_int r).
Proof.
  intros Lh Lr Hh Hr. unfold mul1305. split; [by rewrite length_fmap, length_seq|].
  rewrite (list_fmap_ext _ (product_limb h r 17) (seq 0 17)) by (intros; by apply mul_limb_spec). split.
  - apply Forall_fmap, Forall_true. intros i. pose proof (product_bound h r 17 i Hh Hr).
    change (0 <= product_limb h r 17 i < 2 ^ 32). lia.
  - unfold product_limb. rewrite le_int_rows. rewrite <- (le_int_sum h 17 Lh).
    assert (forall n, (n <= 17)%nat -> eq1305 (sumZ ((fun j => le_int ((fun i => nth j h 0 * rotated r j i) <$> seq 0 17)) <$> seq 0 n))
      (sumZ ((fun j => 256 ^ Z.of_nat j * nth j h 0) <$> seq 0 n) * le_int r)) as H; [|by apply H].
    induction n as [|n IH]; intros Hn; [done|]. rewrite (seq_S n 0), !fmap_app, !sumZ_app, Z.mul_add_distr_r, IH by lia.
    cbn [Nat.add fmap list_fmap sumZ foldr]. rewrite !Z.add_0_r. f_equiv.
    rewrite (list_fmap_compose (rotated r n) (fun x => nth n h 0 * x)), le_int_scale, rotated_value by (done || lia).
    rewrite Z.mul_assoc, (Z.mul_comm (nth n h 0)). done.
Qed.

(** ** A step of the polynomial *)

(** The limbs between two blocks: bytes, and at most 4 on top. *)
Record acc_ok (h : list Z) (v : Z) : Prop := mk_acc_ok {
  ac_length : length h = 17%nat;
  ac_bytes : below 256 h;
  ac_top : le_int h < 5 * 2 ^ 128;
  ac_value : eq1305 (le_int h) v;
}.

Lemma bytes_below l : bytes l <-> below 256 l.
Proof. done. Qed.

Lemma words_range l : below (2 ^ 32) l -> 0 <= le_int l <= 2 ^ 25 * (256 ^ Z.of_nat (length l) - 1).
Proof.
  intros Hl. induction Hl as [|b l Hb Hl IH]; [cbn; lia|]. cbn [le_int length]. rewrite Nat2Z.inj_succ, Z.pow_succ_r by lia. lia.
Qed.

Lemma squeeze_spec x v : length x = 17%nat -> below (2 ^ 32) x -> eq1305 (le_int x) v -> acc_ok (squeeze x) v.
Proof.
  intros Lx Hx Hv. assert (length (take 16 x) = 16%nat) as L16 by (rewrite length_take; lia).
  assert (exists top, x = take 16 x ++ [top] /\ nth 16 x 0 = top /\ 0 <= top < 2 ^ 32) as (top & Ex & Et & Ht).
  { destruct (drop 16 x) as [|top l] eqn:E; [apply (f_equal length) in E; rewrite length_drop in E; cbn in E; lia|].
    assert (l = []) as -> by (apply (f_equal length) in E; rewrite length_drop, Lx in E; by destruct l).
    exists top. rewrite <- E, take_drop. split; [done|]. assert (x !! 16%nat = Some top) as El by (apply (f_equal (fun l => l !! 0%nat)) in E; by rewrite lookup_drop in E).
    split; [by apply nth_lookup_Some|]. exact (Forall_lookup_1 _ _ _ _ Hx El). }
  assert (le_int x = le_int (take 16 x) + 2 ^ 128 * top) as Vx by (rewrite Ex at 1; rewrite le_int_app, L16; cbn [le_int]; change (256 ^ Z.of_nat 16) with (2 ^ 128); lia).
  assert (below (2 ^ 32) (take 16 x)) as H16 by (by apply Forall_take).
  unfold squeeze. rewrite carry_from_spec by (lia || by apply (below_weaken (2 ^ 32))). rewrite L16, Et, Z.add_0_r.
  change (256 ^ Z.of_nat 16) with (2 ^ 128).
  pose proof (words_range _ H16) as Hlo. rewrite L16 in Hlo. change (256 ^ Z.of_nat 16) with (2 ^ 128) in Hlo.
  set (A := le_int (take 16 x)) in *. pose proof (Z.div_mod A (2 ^ 128) ltac:(lia)) as DA. pose proof (Z.mod_pos_bound A (2 ^ 128) ltac:(lia)).
  set (a := A mod 2 ^ 128) in *. set (q := A / 2 ^ 128) in *. assert (0 <= q < 2 ^ 26) by (split; [apply Z.div_pos|apply Z.div_lt_upper_bound]; lia).
  rewrite (u64_small (q + top)) by lia. set (u := q + top) in *. change 3 with (Z.ones 2). rewrite Z.land_ones, Z.shiftr_div_pow2 by lia.
  pose proof (Z.div_mod u (2 ^ 2) ltac:(lia)) as Du. pose proof (Z.mod_pos_bound u (2 ^ 2) ltac:(lia)).
  set (w := u / 2 ^ 2) in *. set (t := u mod 2 ^ 2) in *. change (2 ^ 2) with 4 in *.
  rewrite (u64_small (5 * w)) by lia. rewrite carry_from_spec by (lia || (apply (below_weaken 256); [apply le_bytes_ok|lia])).
  rewrite length_le_bytes, le_int_bytes. change (256 ^ Z.of_nat 16) with (2 ^ 128). fold a.
  assert (0 <= (a + 5 * w) / 2 ^ 128 < 2) as Hc by (split; [apply Z.div_pos|apply Z.div_lt_upper_bound]; lia).
  pose proof (Z.div_mod (a + 5 * w) (2 ^ 128) ltac:(lia)) as Dw. pose proof (Z.mod_pos_bound (a + 5 * w) (2 ^ 128) ltac:(lia)).
  set (c := (a + 5 * w) / 2 ^ 128) in *. rewrite u64_small by lia.
  assert (le_int (le_bytes 16 (a + 5 * w) ++ [c + t]) = a + 5 * w + 2 ^ 128 * t) as V.
  { rewrite le_int_app, length_le_bytes, le_int_bytes. cbn [le_int]. change (256 ^ Z.of_nat 16) with (2 ^ 128). lia. }
  split.
  - by rewrite length_app, length_le_bytes.
  - apply Forall_app. split; [apply le_bytes_ok|]. apply Forall_singleton. lia.
  - rewrite V. lia.
  - rewrite V. rewrite <- Hv, Vx. exists (- w). unfold p1305. lia.
Qed.

Lemma le_int_zeros n : le_int (replicate n 0) = 0.
Proof. induction n as [|n IH]; [done|]. cbn [replicate le_int]. lia. Qed.

Lemma insert_at {A} (l : list A) n x y r : length l = n -> <[n := x]> (l ++ y :: r) = l ++ x :: r.
Proof. intros <-. by rewrite insert_app_r_alt, Nat.sub_diag by lia. Qed.

Lemma load_block_spec m off n : bytes m -> (0 < n)%nat -> (off + n <= length m)%nat ->
  exists c, load_block m (Z.of_nat off) (Z.of_nat n) = Some c /\ length c = 17%nat /\ below 256 c /\
    le_int c = poly_block (take n (drop off m)) 0.
Proof.
  intros Hm Hn Hl. unfold load_block. set (j := Nat.min 16 n). replace (Z.min 16 (Z.of_nat n)) with (Z.of_nat j) by lia. rewrite Nat2Z.id.
  destruct (for_inv (fun k c => c = take (Z.to_nat k) (drop off m) ++ replicate (17 - Z.to_nat k) 0)
    (fun j c => mj ← aget m (Z.of_nat off + j); aset c j mj) j 0 (replicate 17 0)) as (c & -> & Hc).
  - done.
  - intros k c Hk ->. destruct (aget_is_Some m (Z.of_nat off + k)) as (b & Eb & ->); [lia|]. cbn [mbind option_bind].
    assert (length (take (Z.to_nat k) (drop off m)) = Z.to_nat k) as Lk by (rewrite length_take, length_drop; lia).
    rewrite aset_in_range by (rewrite length_app, Lk, length_replicate; lia). eexists. split; [done|].
    replace (17 - Z.to_nat k)%nat with (S (17 - Z.to_nat (k + 1)))%nat by lia. cbn [replicate].
    rewrite insert_at by done. replace (take (Z.to_nat (k + 1)) (drop off m)) with (take (S (Z.to_nat k)) (drop off m)) by (f_equal; lia).
    rewrite (take_S_r _ _ b); [by rewrite <- app_assoc|]. rewrite lookup_drop, <- Eb. f_equal. lia.
  - replace (Z.to_nat (0 + Z.of_nat j)) with j in Hc by lia. cbn [mbind option_bind]. subst c.
    assert (length (take j (drop off m)) = j) as Lj by (rewrite length_take, length_drop; lia).
    rewrite aset_in_range by (rewrite length_app, Lj, length_replicate; lia). rewrite Nat2Z.id. eexists. split; [done|].
    replace (17 - j)%nat with (S (16 - j)) by lia. cbn [replicate].
    rewrite insert_at by done. split; [|split].
    + rewrite length_app. cbn [length]. rewrite length_replicate. lia.
    + apply Forall_app. split; [by apply Forall_take, Forall_drop|]. constructor; [lia|]. by apply Forall_replicate.
    + unfold poly_block. rewrite drop_0, take_take. fold j. rewrite !le_int_app. cbn [le_int]. by rewrite le_int_zeros.
Qed.

Lemma poly_from_next r a m : (0 < length m)%nat ->
  poly_from r a m = poly_from r ((a + poly_block m 0) * r mod p1305) (drop 16 m).
Proof.
  intros Hm. unfold poly_from.
  assert (((length m + 15) / 16)%nat = S ((length (drop 16 m) + 15) / 16)) as ->.
  { rewrite length_drop. destruct (decide (length m <= 16)%nat) as [H|H].
    - replace (length m - 16)%nat with 0%nat by lia. change ((0 + 15) / 16)%nat with 0%nat.
      symmetry. apply (Nat.div_unique _ 16 1 (length m - 1)); lia.
    - replace (length m + 15)%nat with (length m - 16 + 15 + 1 * 16)%nat by lia. rewrite Nat.div_add; lia. }
  rewrite <- cons_seq. cbn [foldl]. generalize ((a + poly_block m 0) * r mod p1305). generalize ((length (drop 16 m) + 15) / 16)%nat.
  intros q. rewrite <- (fmap_S_seq 0). generalize (seq 0 q). intros l. induction l as [|i l IH]; intros a'; [done|].
  rewrite fmap_cons. cbn [foldl]. rewrite IH. f_equal. f_equal. f_equal. unfold poly_block. rewrite drop_drop. by replace (16 + 16 * i)%nat with (16 * S i)%nat by lia.
Qed.

Lemma poly_from_nil r a : poly_from r a [] = a.
Proof. reflexivity. Qed.

Lemma poly_from_range r m : 0 <= poly_from r 0 m < p1305.
Proof.
  unfold poly_from. generalize (seq 0 ((length m + 15) / 16)). intros l. induction l as [|i l IH] using rev_ind; [done|].
  rewrite foldl_app. cbn [foldl]. apply Z.mod_pos_bound. done.
Qed.

Lemma add1305_spec h c : length h = 17%nat -> length c = 17%nat -> below 256 h -> below 256 c ->
  add1305 h c = le_bytes 17 (le_int h + le_int c).
Proof.
  intros Lh Lc Hh Hc. unfold add1305. rewrite add_from_spec, Lh, Z.add_0_r; [done|congruence|..|lia]; by apply (below_weaken 256).
Qed.

Lemma auth_step h v c r : acc_ok h v -> length c = 17%nat -> below 256 c -> le_int c < 2 ^ 130 -> length r = 17%nat -> below 256 r ->
  acc_ok (squeeze (mul1305 (add1305 h c) r)) ((v + le_int c) * le_int r mod p1305).
Proof.
  intros [Lh Hh Th Vh] Lc Hc Tc Lr Hr. rewrite add1305_spec by done.
  destruct (mul1305_spec (le_bytes 17 (le_int h + le_int c)) r) as (Lx & Hx & Vx); [apply length_le_bytes|done|apply le_bytes_ok|done|].
  apply squeeze_spec; [done..|]. rewrite eq1305_mod, Vx, le_int_bytes. rewrite Z.mod_small, Vh; [done|].
  pose proof (le_int_range h Hh). pose proof (le_int_range c Hc). change (256 ^ Z.of_nat 17) with (64 * 2 ^ 130). lia.
Qed.

Lemma poly_block_range m i : bytes m -> le_int (take 16 (drop (16 * i) m) ++ [1]) < 2 ^ 130.
Proof.
  intros Hm. rewrite le_int_app. cbn [le_int]. pose proof (le_int_range (take 16 (drop (16 * i) m)) ltac:(by apply Forall_take, Forall_drop)).
  assert (256 ^ Z.of_nat (length (take 16 (drop (16 * i) m))) <= 256 ^ 16); [apply Z.pow_le_mono_r; [lia|]; rewrite length_take; lia|].
  change (256 ^ 16) with (2 ^ 128) in *. lia.
Qed.

Lemma auth_blocks_spec blocks m off n r h v : bytes m -> (off + n <= length m)%nat -> (n <= 16 * blocks)%nat ->
  length r = 17%nat -> below 256 r -> acc_ok h v ->
  exists h', auth_blocks blocks m (Z.of_nat off) (Z.of_nat n) r h = Some h' /\ acc_ok h' (poly_from (le_int r) v (take n (drop off m))).
Proof.
  intros Hm Hn Hb Lr Hr. revert off n h v Hn Hb. induction blocks as [|blocks IH]; intros off n h v Hn Hb Hh.
  - replace n with 0%nat by lia. exists h. split; [done|]. by rewrite take_0.
  - cbn [auth_blocks]. destruct (Z.eqb_spec (Z.of_nat n) 0) as [E|E]; [replace n with 0%nat by lia; exists h; split; [done|by rewrite take_0]|].
    destruct (load_block_spec m off n Hm) as (c & -> & Lc & Hc & Vc); [lia..|]. cbn [mbind option_bind].
    replace (Z.of_nat off + Z.min 16 (Z.of_nat n)) with (Z.of_nat (off + Nat.min 16 n)) by lia.
    replace (Z.of_nat n - Z.min 16 (Z.of_nat n)) with (Z.of_nat (n - Nat.min 16 n)) by lia.
    destruct (IH (off + Nat.min 16 n)%nat (n - Nat.min 16 n)%nat (squeeze (mul1305 (add1305 h c) r)) ((v + le_int c) * le_int r mod p1305)) as (h' & -> & Hh').
    + lia. + lia. + apply auth_step; try done. rewrite Vc. apply poly_block_range. by apply Forall_take, Forall_drop.
    + exists h'. split; [done|]. assert (length (take n (drop off m)) = n) as Ln by (rewrite length_take, length_drop; lia).
      rewrite poly_from_next by lia. rewrite <- Vc.
      assert (drop 16 (take n (drop off m)) = take (n - Nat.min 16 n) (drop (off + Nat.min 16 n) m)) as ->; [|done].
      rewrite skipn_firstn_comm, drop_drop. destruct (decide (16 <= n)%nat); [by rewrite Nat.min_l by lia|].
      rewrite Nat.min_r by lia. replace (n - n)%nat with 0%nat by lia. by replace (n - 16)%nat with 0%nat by lia.
Qed.

(** ** The key *)

Lemma land_byte_split b c x y : 0 <= b < 256 -> 0 <= c < 256 -> Z.land (b + 256 * x) (c + 256 * y) = Z.land b c + 256 * Z.land x y.
Proof.
  intros Hb Hc. assert (forall u v, 0 <= u < 256 -> u + 256 * v = Z.lor u (Z.shiftl v 8)) as Hs by (intros u v Hu; rewrite lor_shift by lia; lia).
  assert (0 <= Z.land b c < 256) as Hbc.
  { rewrite <- (Z.mod_small b 256), <- Z.land_ones with (n := 8) by lia. rewrite (Z.land_comm b), <- Z.land_assoc, Z.land_comm, Z.land_ones by lia.
    apply Z.mod_pos_bound. lia. }
  rewrite (Hs b x), (Hs c y), (Hs _ (Z.land x y)) by done. apply Z.bits_inj'. intros n Hn.
  rewrite !Z.land_spec, !Z.lor_spec, !Z.land_spec, !Z.shiftl_spec, Z.land_spec by done. destruct (Z.ltb_spec n 8) as [Hlt|Hge].
  - by rewrite !(Z.testbit_neg_r _ (n - 8)), !orb_false_r by lia.
  - rewrite <- (Z.mod_small b (2 ^ 8)), <- (Z.mod_small c (2 ^ 8)), !Z.mod_pow2_bits_high by lia. done.
Qed.

Lemma le_int_land a b : bytes a -> bytes b -> length a = length b -> le_int (zip_with Z.land a b) = Z.land (le_int a) (le_int b).
Proof.
  intros Ha. revert b. induction Ha as [|x a Hx Ha IH]; intros [|y b] Hb Hl; try done.
  apply Forall_cons_1 in Hb as [Hy Hb]. injection Hl as Hl. cbn [zip_with le_int]. by rewrite land_byte_split, IH by done.
Qed.

(** The masks, byte by byte. *)
Definition r_mask : list Z := [255; 255; 255; 15; 252; 255; 255; 15; 252; 255; 255; 15; 252; 255; 255; 15].

Lemma land_all b : 0 <= b < 256 -> Z.land b 255 = b.
Proof. intros Hb. rewrite land_255_mod. by apply Z.mod_small. Qed.

Lemma load_r_spec k : bytes k -> (32 <= length k)%nat ->
  exists r, load_r k = Some r /\ length r = 17%nat /\ below 256 r /\ le_int r = clamp_r k.
Proof.
  intros Hk Lk. exists (zip_with Z.land (take 16 k) r_mask ++ [0]).
  assert (length (take 16 k) = 16%nat) as L16 by (rewrite length_take; lia). pose proof (Forall_take _ 16 _ Hk : bytes (take 16 k)) as H16.
  split; [|split; [|split]].
  - unfold load_r. rewrite memcpy_eq by (rewrite ?length_replicate; lia).
    change (take (Z.to_nat 0) (replicate 17 0) ++ take (Z.to_nat 16) (drop (Z.to_nat 0) k) ++ drop (Z.to_nat (0 + 16)) (replicate 17 0)) with (take 16 k ++ [0]).
    revert L16 H16. generalize (take 16 k). clear k Hk Lk. intros k Lk Hk. do 16 (destruct k as [|? k]; [done|]). destruct k; [|done].
    unfold r_mask. cbn [zip_with]. unfold bytes, is_byte in Hk. decompose_Forall_hyps.
    rewrite !land_all by assumption.
    generalize Z.land. intros f. lazy. reflexivity.
  - rewrite length_app, length_zip_with, L16. done.
  - apply Forall_app. split; [|by apply Forall_singleton].
    assert (Forall (fun b => 0 <= b < 256) r_mask) as Hr by (by apply (bool_decide_unpack _)).
    clear L16. revert H16 Hr. generalize (take 16 k) r_mask. intros a b Ha. revert b. induction Ha as [|x a Hx Ha IH]; intros b Hb; [constructor|].
    destruct Hb as [|y b Hy Hb]; [constructor|]. cbn [zip_with]. constructor; [|by apply IH].
    unfold is_byte in Hx. rewrite <- (land_all x Hx), <- Z.land_assoc, (Z.land_comm 255), Z.land_assoc, land_255_mod. apply Z.mod_pos_bound. lia.
  - rewrite le_int_app, le_int_land by (done || by apply (bool_decide_unpack _)). unfold clamp_r.
    replace (le_int r_mask) with 0x0ffffffc0ffffffc0ffffffc0fffffff by (vm_compute; reflexivity). cbn [le_int]. lia.
Qed.

(** ** The last reduction *)

Lemma zip_select (b : bool) h g : bytes h -> bytes g -> length h = length g ->
  zip_with (fun hj gj => Z.lxor hj (Z.land (if b then Z.ones 64 else 0) (Z.lxor gj hj))) h g = if b then g else h.
Proof.
  intros Hh. revert g. induction Hh as [|x h Hx Hh IH]; intros [|y g] Hg Hl; try done; [by destruct b|].
  apply Forall_cons_1 in Hg as [Hy Hg]. injection Hl as Hl. cbn [zip_with]. rewrite IH by done. destruct b; f_equal.
  - assert (0 <= Z.lxor y x < 2 ^ 64) as Hr.
    { unfold is_byte in *. split; [apply Z.lxor_nonneg; lia|]. destruct (Z.eq_dec (Z.lxor y x) 0) as [->|]; [lia|].
      apply Z.log2_lt_pow2; [pose proof (proj2 (Z.lxor_nonneg y x)); lia|]. eapply Z.le_lt_trans; [apply Z.log2_lxor; lia|].
      assert (forall z, 0 <= z < 256 -> Z.log2 z < 64) as Hlog; [|pose proof (Hlog x); pose proof (Hlog y); lia].
      intros z Hz. destruct (Z.eq_dec z 0) as [->|]; [done|]. apply Z.log2_lt_pow2; lia. }
    rewrite Z.land_comm, Z.land_ones, Z.mod_small by lia. rewrite (Z.lxor_comm y), <- Z.lxor_assoc, Z.lxor_nilpotent. apply Z.lxor_0_l.
  - by rewrite Z.land_0_l, Z.lxor_0_r.
Qed.

Lemma top_limb d : length d = 17%nat -> bytes d -> nth 16 d 0 = le_int d / 2 ^ 128.
Proof.
  intros Ld Hd. assert (length (take 16 d) = 16%nat) as L16 by (rewrite length_take; lia).
  destruct (lookup_lt_is_Some_2 d 16) as [x Ex]; [lia|]. rewrite (nth_lookup_Some _ _ _ _ Ex).
  rewrite <- (take_drop 16 d), le_int_app, L16, (drop_S _ _ _ Ex), drop_ge by lia. cbn [le_int].
  pose proof (le_int_range (take 16 d) ltac:(by apply Forall_take)) as Hr. rewrite L16 in Hr. change (256 ^ Z.of_nat 16) with (2 ^ 128) in *.
  apply (Z.div_unique _ _ _ (le_int (take 16 d))); lia.
Qed.

Lemma freeze1305_spec h v : acc_ok h v -> length (freeze1305 h) = 17%nat /\ bytes (freeze1305 h) /\ le_int (freeze1305 h) = v mod p1305.
Proof.
  intros [Lh Hh Th Vh]. unfold freeze1305. rewrite add1305_spec by (done || by apply (bool_decide_unpack _)).
  pose proof (le_int_range h Hh) as Rh. replace (le_int minusp) with (2 ^ 136 - p1305) by (vm_compute; reflexivity).
  set (d := le_bytes 17 (le_int h + (2 ^ 136 - p1305))).
  assert (le_int d = (le_int h + (2 ^ 136 - p1305)) mod 2 ^ 136) as Vd by (unfold d; rewrite le_int_bytes; reflexivity).
  assert (length d = 17%nat /\ bytes d) as [Ld Hd] by (split; [apply length_le_bytes|apply le_bytes_ok]).
  clearbody d. rewrite (top_limb d Ld Hd).
  assert (le_int h < 2 * p1305) as H2p by (unfold p1305 in *; lia).
  assert (v mod p1305 = le_int h mod p1305) as -> by (symmetry; by apply eq1305_iff).
  destruct (decide (le_int h < p1305)) as [Hlt|Hge].
  - assert (le_int d = le_int h + (2 ^ 136 - p1305)) as E by (rewrite Vd; apply Z.mod_small; unfold p1305 in *; lia).
    assert (Z.shiftr (le_int d / 2 ^ 128) 7 = 1) as ->.
    { rewrite Z.shiftr_div_pow2, Z.div_div by lia. symmetry. apply (Z.div_unique _ _ _ (le_int d - 2 ^ 135)); unfold p1305 in *; lia. }
    change (u64 (- (1))) with (if true then Z.ones 64 else 0). rewrite zip_select by (done || congruence). split; [done|]. split; [done|].
    symmetry. apply Z.mod_small. lia.
  - assert (le_int d = le_int h - p1305) as E.
    { rewrite Vd. symmetry. apply (Z.mod_unique _ _ 1); unfold p1305 in *; lia. }
    assert (Z.shiftr (le_int d / 2 ^ 128) 7 = 0) as ->.
    { rewrite Z.shiftr_div_pow2, Z.div_div by lia. apply Z.div_small. unfold p1305 in *. lia. }
    change (u64 (- 0)) with (if false then Z.ones 64 else 0). rewrite zip_select by (done || congruence). split; [done|]. split; [done|].
    rewrite E. apply (Z.mod_unique _ _ 1); unfold p1305 in *; lia.
Qed.

(** ** The authenticator *)

Lemma take_le_bytes n j x : (n <= j)%nat -> take n (le_bytes j x) = le_bytes n x.
Proof.
  intros Hn. replace j with (n + (j - n))%nat by lia. rewrite le_bytes_app, take_app_le by (rewrite length_le_bytes; lia).
  apply take_ge. rewrite length_le_bytes. lia.
Qed.

Lemma onetimeauth_eq m n k : bytes m -> (n <= length m)%nat -> bytes k -> (32 <= length k)%nat ->
  crypto_onetimeauth m (Z.of_nat n) k = Some (poly1305 (take n m) k).
Proof.
  intros Hm Hn Hk Lk. unfold crypto_onetimeauth. destruct (load_r_spec k Hk Lk) as (r & -> & Lr & Hr & Vr). cbn [mbind option_bind].
  destruct (auth_blocks_spec (Z.to_nat (Z.of_nat n / 16 + 1)) m 0 n r (replicate 17 0) 0 Hm) as (h & Eh & Hh); [done|..|done|done|split; try done|].
  { pose proof (Z.div_mod (Z.of_nat n) 16 ltac:(lia)). pose proof (Z.mod_pos_bound (Z.of_nat n) 16 ltac:(lia)). lia. }
  { apply Forall_replicate. lia. }
  change (Z.of_nat 0) with 0 in Eh. rewrite Eh. cbn [mbind option_bind]. rewrite memcpy_eq by (rewrite ?length_replicate; lia). cbn [mbind option_bind].
  change (take (Z.to_nat 0) (replicate 17 0) ++ take (Z.to_nat 16) (drop (Z.to_nat 16) k) ++ drop (Z.to_nat (0 + 16)) (replicate 17 0)) with (take 16 (drop 16 k) ++ [0]).
  destruct (freeze1305_spec h _ Hh) as (Lf & Hf & Vf). f_equal. rewrite add1305_spec; [|done|..|done|].
  - rewrite take_le_bytes by lia. unfold poly1305. rewrite Vf, le_int_app. cbn [le_int]. rewrite drop_0, Vr.
    rewrite (Z.mod_small (poly_from _ _ _)) by apply poly_from_range. rewrite <- (le_bytes_mod 16 (_ + _)). change (256 ^ Z.of_nat 16) with (2 ^ 128).
    do 2 f_equal. lia.
  - rewrite length_app, length_take, length_drop. cbn [length]. lia.
  - apply Forall_app. split; [by apply Forall_take, Forall_drop|]. by apply Forall_singleton.
Qed.

(** Reading on behind the message is reading outside the array. *)
Lemma load_block_overrun m off n : 0 < n -> 0 <= off <= Z.of_nat (length m) -> Z.of_nat (length m) < off + Z.min 16 n -> load_block m off n = None.
Proof.
  intros Hn Ho Hl. unfold load_block. replace (Z.to_nat (Z.min 16 n)) with (Z.to_nat (Z.of_nat (length m) - off) + (S (Z.to_nat (Z.min 16 n - (Z.of_nat (length m) - off)) - 1)))%nat by lia.
  rewrite for_app. destruct (for_ _ 0 _ _) as [c|]; [|done]. cbn [mbind option_bind for_].
  assert (aget m (off + (0 + Z.of_nat (Z.to_nat (Z.of_nat (length m) - off)))) = None) as ->; [|done].
  unfold aget. destruct (Z.ltb_spec (off + (0 + Z.of_nat (Z.to_nat (Z.of_nat (length m) - off)))) 0); [done|]. apply lookup_ge_None_2. lia.
Qed.

Lemma auth_blocks_overrun blocks m off n r h : 0 <= off <= Z.of_nat (length m) -> Z.of_nat (length m) < off + n ->
  auth_blocks blocks m off n r h = None.
Proof.
  revert off n h. induction blocks as [|blocks IH]; intros off n h Ho Hn; cbn [auth_blocks]; (destruct (Z.eqb_spec n 0); [lia|]); [done|].
  destruct (decide (Z.of_nat (length m) < off + Z.min 16 n)) as [Hl|Hl]; [by rewrite load_block_overrun by lia|].
  destruct (load_block m off n); [|done]. cbn [mbind option_bind]. apply IH; lia.
Qed.

Lemma onetimeauth_overrun m n k : Z.of_nat (length m) < n -> crypto_onetimeauth m n k = None.
Proof. intros Hn. unfold crypto_onetimeauth. destruct (load_r k); [|done]. cbn [mbind option_bind]. by rewrite auth_blocks_overrun by lia. Qed.

(** C17: [crypto_onetimeauth] is Poly1305: for any message of any length and any key
    every byte read lies in the message or the key, and the sixteen bytes are those of the polynomial of the message modulo
    [2^130 - 5] plus the second half of the key, modulo [2^128]. *)
Theorem crypto_onetimeauth_spec m n k : bytes m -> (n <= length m)%nat -> bytes k -> (32 <= length k)%nat ->
  crypto_onetimeauth m (Z.of_nat n) k = Some (poly1305 (take n m) k).
Proof. apply onetimeauth_eq. Qed.

Lemma crypto_onetimeauth_spec_witness :
  crypto_onetimeauth (replicate 20 7) (Z.of_nat 19) (replicate 32 9) = Some (poly1305 (take 19 (replicate 20 7)) (replicate 32 9)).
Proof. apply (crypto_onetimeauth_spec (replicate 20 7) 19 (replicate 32 9)); concrete. Defined.

(** ** Comparing *)

Lemma length_poly1305 m k : length (poly1305 m k) = 16%nat.
Proof. apply length_le_bytes. Qed.

Lemma bytes_poly1305 m k : bytes (poly1305 m k).
Proof. apply le_bytes_ok. Qed.

(** The bits in which two byte strings differ. *)
Definition differing (x y : list Z) : Z := foldr Z.lor 0 (zip_with Z.lxor x y).

Lemma byte_lor a b : is_byte a -> is_byte b -> is_byte (Z.lor a b).
Proof.
  unfold is_byte. intros Ha Hb. split; [apply Z.lor_nonneg; lia|].
  destruct (Z.eq_dec (Z.lor a b) 0) as [->|]; [lia|]. apply (Z.log2_lt_pow2 _ 8); [pose proof (proj2 (Z.lor_nonneg a b)); lia|].
  rewrite Z.log2_lor by lia. assert (forall z, 0 <= z < 256 -> Z.log2 z < 8) as Hlog; [|pose proof (Hlog a); pose proof (Hlog b); lia].
  intros z Hz. destruct (Z.eq_dec z 0) as [->|]; [done|]. apply Z.log2_lt_pow2; lia.
Qed.

Lemma differing_spec x y : bytes x -> bytes y -> length x = length y -> is_byte (differing x y) /\ (differing x y = 0 <-> x = y).
Proof.
  intros Hx. revert y. induction Hx as [|a x Ha Hx IH]; intros [|b y] Hy Hl; try done.
  apply Forall_cons_1 in Hy as [Hb Hy]. injection Hl as Hl. destruct (IH y Hy Hl) as [H1 H2]. unfold differing in *. cbn [zip_with foldr].
  split; [apply byte_lor; [|done]; by apply lxor_byte|].
  rewrite Z.lor_eq_0_iff, H2, Z.lxor_eq_0_iff. split; [by intros [-> ->]|by intros [= -> ->]].
Qed.

Lemma crypto_verify_16_spec x y : bytes x -> bytes y -> (16 <= length x)%nat -> (16 <= length y)%nat ->
  crypto_verify_16 x y = Some (if decide (take 16 x = take 16 y) then 0 else -1).
Proof.
  intros Hx Hy Lx Ly. unfold crypto_verify_16, vn.
  destruct (for_inv (fun k d => d = foldl Z.lor 0 (zip_with Z.lxor (take (Z.to_nat k) x) (take (Z.to_nat k) y)))
    (fun i d => xi ← aget x i; yi ← aget y i; Some (Z.lor d (Z.lxor xi yi))) 16 0 0) as (d & -> & Hd); [done|..].
  - intros k d Hk ->. destruct (aget_is_Some x k) as (a & Ea & ->); [lia|]. destruct (aget_is_Some y k) as (b & Eb & ->); [lia|].
    eexists. split; [done|]. replace (Z.to_nat (k + 1)) with (S (Z.to_nat k)) by lia. rewrite (take_S_r x _ _ Ea), (take_S_r y _ _ Eb).
    rewrite zip_with_app by (rewrite !length_take; lia). by rewrite foldl_app.
  - cbn [mbind option_bind]. change (Z.to_nat (0 + Z.of_nat 16)) with 16%nat in Hd.
    assert (d = differing (take 16 x) (take 16 y)) as ->.
    { rewrite Hd. unfold differing. generalize (zip_with Z.lxor (take 16 x) (take 16 y)). intros l.
      assert (forall a, foldl Z.lor a l = Z.lor a (foldr Z.lor 0 l)) as H; [|by rewrite H, Z.lor_0_l].
      induction l as [|b l IH]; intros a; cbn [foldl foldr]; [by rewrite Z.lor_0_r|]. by rewrite IH, Z.lor_assoc. }
    destruct (differing_spec (take 16 x) (take 16 y)) as [Hb He]; [by apply Forall_take..|rewrite !length_take; lia|]. unfold is_byte in Hb.
    destruct (decide (take 16 x = take 16 y)) as [E|E].
    + apply He in E. rewrite E. done.
    + assert (differing (take 16 x) (take 16 y) <> 0) by (by rewrite He). rewrite u64_small by lia. rewrite Z.shiftr_div_pow2 by lia.
      rewrite Z.div_small by (change (2 ^ 8) with 256; lia). done.
Qed.

Lemma onetimeauth_verify_eq h m n k : bytes h -> (16 <= length h)%nat -> bytes m -> (n <= length m)%nat -> bytes k -> (32 <= length k)%nat ->
  crypto_onetimeauth_verify h m (Z.of_nat n) k = Some (if decide (take 16 h = poly1305 (take n m) k) then 0 else -1).
Proof.
  intros Hh Lh Hm Hn Hk Lk. unfold crypto_onetimeauth_verify. rewrite onetimeauth_eq by done. cbn [mbind option_bind].
  rewrite crypto_verify_16_spec by (done || apply bytes_poly1305 || by rewrite length_poly1305).
  by rewrite (take_ge (poly1305 _ _)) by (by rewrite length_poly1305).
Qed.

Lemma onetimeauth_verify_overrun h m n k : Z.of_nat (length m) < n -> crypto_onetimeauth_verify h m n k = None.
Proof. intros Hn. unfold crypto_onetimeauth_verify. by rewrite onetimeauth_overrun by done. Qed.
