(* ===== verification/Tweet.v ===== *)
(** * Tweet: the curve of the message boxes

    Models [crypto_scalarmult] of [plugins/utils/tweetnacl.c] and the field below it: a
    third implementation of x25519 in the tree, on sixteen signed 64-bit limbs of 16
    bits.  The functions the file calls [A], [Z], [M] and [S] are [gf_A], [gf_Z], [gf_M]
    and [gf_S] here.  Every sum, product and shift wraps to its type. *)

From S2P Require Import Prelude Cards Bits Keys Field25519 Ladder Prime25519 Donna Concrete Salsa.
From Stdlib Require Import Zpow_facts ZmodInv.

(** ** The code *)

(** One step of [car25519]: [c = o[i] >> 16] moves on, from the last limb 38 times to the
    first. *)
Definition car_step (i : Z) (o : list Z) : option (list Z) :=
  oi ← aget o i; o ← aset o i (s64 (oi + 65536));
  oi ← aget o i; let c := Z.shiftr oi 16 in
  let j := if i <? 15 then i + 1 else 0 in
  oj ← aget o j; o ← aset o j (s64 (oj + (c - 1 + (if i =? 15 then 37 * (c - 1) else 0))));
  oi ← aget o i; aset o i (s64 (oi - s64 (Z.shiftl c 16))).

Definition car25519 (o : list Z) : option (list Z) := for_ car_step 0 16 o.

(** Both arrays, exchanged when [b] is 1. *)
Definition sel25519 (p q : list Z) (b : Z) : list Z * list Z :=
  let c := Z.lnot (b - 1) in
  (zip_with (fun pi qi => Z.lxor pi (Z.land c (Z.lxor pi qi))) p q,
   zip_with (fun pi qi => Z.lxor qi (Z.land c (Z.lxor pi qi))) p q).

(** One round of the loop over [j] in [pack25519]: [p] is taken away if it fits. *)
Definition pack_round (t : list Z) : option (list Z) :=
  t0 ← aget t 0;
  m ← for_ (fun i m =>
    ti ← aget t i; mp ← aget m (i - 1);
    m ← aset m i (s64 (ti - 0xffff - Z.land (Z.shiftr mp 16) 1));
    aset m (i - 1) (Z.land mp 0xffff)) 1 14 (s64 (t0 - 0xffed) :: replicate 15 0);
  t15 ← aget t 15; m14 ← aget m 14;
  m ← aset m 15 (s64 (t15 - 0x7fff - Z.land (Z.shiftr m14 16) 1));
  m15 ← aget m 15;
  let b := Z.land (Z.shiftr m15 16) 1 in
  m ← aset m 14 (Z.land m14 0xffff);
  Some (fst (sel25519 t m (1 - b))).

Definition pack25519 (n : list Z) : option bits256 :=
  t ← car25519 n; t ← car25519 t; t ← car25519 t;
  t ← pack_round t; t ← pack_round t;
  for_ (fun i o => ti ← aget t i; Some (o ++ [Z.land ti 0xff; u8 (Z.shiftr ti 8)])) 0 16 [].

Definition unpack25519 (n : list Z) : option (list Z) :=
  o ← for_ (fun i o => a ← aget n (2 * i); b ← aget n (2 * i + 1); Some (o ++ [a + Z.shiftl b 8])) 0 16 [];
  o15 ← aget o 15; aset o 15 (Z.land o15 0x7fff).

Definition gf_A (a b : list Z) : list Z := zip_with (fun x y => s64 (x + y)) a b.
Definition gf_Z (a b : list Z) : list Z := zip_with (fun x y => s64 (x - y)) a b.

Definition mul_step (a b : list Z) (i j : Z) (t : list Z) : option (list Z) :=
  ai ← aget a i; bj ← aget b j; tij ← aget t (i + j); aset t (i + j) (s64 (tij + s64 (ai * bj))).

Definition fold_limb (t u : Z) : Z := s64 (t + s64 (38 * u)).

Definition gf_M (a b : list Z) : option (list Z) :=
  t ← for_ (fun i t => for_ (mul_step a b i) 0 16 t) 0 16 (replicate 31 0);
  t ← for_ (fun i t => ti ← aget t i; u ← aget t (i + 16); aset t i (fold_limb ti u)) 0 15 t;
  o ← car25519 (take 16 t);
  car25519 o.

Definition gf_S (a : list Z) : option (list Z) := gf_M a a.

(** [a] counts down from 253. *)
Definition inv_round (i : list Z) (a : Z) (c : list Z) : option (list Z) :=
  c ← gf_S c; if (a =? 2) || (a =? 4) then Some c else gf_M c i.

Definition inv25519 (i : list Z) : option (list Z) := for_ (fun k c => inv_round i (253 - k) c) 0 254 i.

Definition gf0 : list Z := replicate 16 0.
Definition gf1 : list Z := 1 :: replicate 15 0.
Definition _121665 : list Z := 0xDB41 :: 1 :: replicate 14 0.

(** The two points of the ladder; [e] and [f] are temporaries. *)
Record tweet := mk_tweet { ta : list Z; tb : list Z; tc : list Z; td : list Z }.

(** The body of the loop for the bit [r]. *)
Definition tweet_step (x : list Z) (r : Z) (s : tweet) : option tweet :=
  let '(a, b) := sel25519 (ta s) (tb s) r in
  let '(c, d) := sel25519 (tc s) (td s) r in
  let e := gf_A a c in
  let a := gf_Z a c in
  let c := gf_A b d in
  let b := gf_Z b d in
  d ← gf_S e;
  f ← gf_S a;
  a ← gf_M c a;
  c ← gf_M b e;
  let e := gf_A a c in
  let a := gf_Z a c in
  b ← gf_S a;
  let c := gf_Z d f in
  a ← gf_M c _121665;
  let a := gf_A a d in
  c ← gf_M c a;
  a ← gf_M d f;
  d ← gf_M b x;
  b ← gf_S e;
  let '(a, b) := sel25519 a b r in
  let '(c, d) := sel25519 c d r in
  Some (mk_tweet a b c d).

(** The scalar with its bits set and cleared, like the program's own keys. *)
Definition tweet_clamp (n : list Z) : option (list Z) :=
  z ← memcpy (replicate 32 0) 0 n 0 31;
  n31 ← aget n 31; z ← aset z 31 (Z.lor (Z.land n31 127) 64);
  z0 ← aget z 0; aset z 0 (Z.land z0 248).

Definition crypto_scalarmult (n p : list Z) : option bits256 :=
  z ← tweet_clamp n;
  x ← unpack25519 p;
  s ← for_ (fun k s => let i := 254 - k in
    zi ← aget z (Z.shiftr i 3); tweet_step x (Z.land (Z.shiftr zi (Z.land i 7)) 1) s) 0 255 (mk_tweet gf1 x gf0 gf1);
  c ← inv25519 (tc s);
  a ← gf_M (ta s) c;
  pack25519 a.

(** ** Digits of 16 bits *)

Fixpoint gval (l : list Z) : Z := match l with [] => 0 | x :: l => x + 65536 * gval l end.
Fixpoint dig (n : nat) (v : Z) : list Z := match n with O => [] | S n => v mod 65536 :: dig n (v / 65536) end.

Definition base (n : nat) : Z := 65536 ^ Z.of_nat n.

Lemma base_S n : base (S n) = 65536 * base n.
Proof. unfold base. by rewrite Nat2Z.inj_succ, Z.pow_succ_r by lia. Qed.

Lemma base_pos n : 0 < base n.
Proof. apply Z.pow_pos_nonneg; lia. Qed.

Lemma length_dig n v : length (dig n v) = n.
Proof. revert v. induction n as [|n IH]; intros v; [done|]. cbn. by rewrite IH. Qed.

Lemma dig_range n v : Forall (fun x => 0 <= x < 65536) (dig n v).
Proof. revert v. induction n as [|n IH]; intros v; constructor; [apply Z.mod_pos_bound; lia|apply IH]. Qed.

Lemma gval_app a b : gval (a ++ b) = gval a + base (length a) * gval b.
Proof.
  induction a as [|x a IH]; [cbn [app gval length]; change (base 0) with 1; lia|]. cbn [app gval length]. rewrite IH, base_S. lia.
Qed.

Lemma gval_dig n v : gval (dig n v) = v mod base n.
Proof.
  revert v. induction n as [|n IH]; intros v; cbn [dig gval]; [change (base 0) with 1; by rewrite Z.mod_1_r|].
  rewrite IH, base_S. pose proof (base_pos n). rewrite Z.rem_mul_r by lia. done.
Qed.

Lemma dig_gval l : Forall (fun x => 0 <= x < 65536) l -> dig (length l) (gval l) = l.
Proof.
  induction 1 as [|x l Hx Hl IH]; [done|]. cbn [length dig gval]. rewrite (Z.mul_comm 65536), Z.mod_add, Z.div_add by lia.
  rewrite Z.mod_small, Z.div_small, Z.add_0_l by lia. by rewrite IH.
Qed.

Lemma dig_snoc n v : dig (S n) v = dig n v ++ [(v / base n) mod 65536].
Proof.
  revert v. induction n as [|n IH]; intros v; [cbn [dig app]; change (base 0) with 1; by rewrite Z.div_1_r|].
  change (dig (S (S n)) v) with (v mod 65536 :: dig (S n) (v / 65536)). rewrite IH. cbn [dig app]. do 3 f_equal.
  rewrite base_S. pose proof (base_pos n). by rewrite Z.div_div by lia.
Qed.

Lemma dig_add n v k : dig n (v + base n * k) = dig n v.
Proof.
  revert v k. induction n as [|n IH]; intros v k; [done|]. cbn [dig]. rewrite base_S.
  replace (v + 65536 * base n * k) with (v + (base n * k) * 65536) by lia. rewrite Z.mod_add, Z.div_add by lia. by rewrite IH.
Qed.

(** Limbs of limited size. *)
Definition within (b : Z) (l : list Z) : Prop := Forall (fun x => - b <= x <= b) l.

Lemma within_weaken b c l : within b l -> b <= c -> within c l.
Proof. intros H Hc. unfold within in *. apply (list.Forall_impl _ _ _ H). cbn. lia. Qed.

Lemma gval_bound l : within (2 ^ 50) l -> - (2 ^ 35 * (base (length l) - 1)) <= gval l <= 2 ^ 35 * (base (length l) - 1).
Proof.
  unfold within. induction 1 as [|x l Hx Hl IH]; [by vm_compute|]. cbn [gval length]. rewrite base_S. pose proof (base_pos (length l)). lia.
Qed.

(** ** The carries *)

Definition bump (k : Z) (l : list Z) : list Z := match l with [] => [] | x :: l => (x + k) :: l end.

Lemma aget_middle l i (x : Z) r : i = Z.of_nat (length l) -> aget (l ++ x :: r) i = Some x.
Proof. intros ->. rewrite aget_of_nat. by apply list_lookup_middle. Qed.

Lemma aset_middle l i (x y : Z) r : i = Z.of_nat (length l) -> aset (l ++ x :: r) i y = Some (l ++ y :: r).
Proof.
  intros ->. rewrite aset_in_range by (rewrite length_app; cbn [length]; lia). rewrite Nat2Z.id.
  by rewrite insert_app_r_alt, Nat.sub_diag by lia.
Qed.

Lemma car_limb x : - 2 ^ 51 <= x <= 2 ^ 51 ->
  Z.shiftr (s64 (x + 65536)) 16 - 1 = x / 65536 /\
  s64 (s64 (x + 65536) - s64 (Z.shiftl (Z.shiftr (s64 (x + 65536)) 16) 16)) = x mod 65536.
Proof.
  intros Hx. rewrite (s64_small (x + 65536)) by lia. rewrite Z.shiftr_div_pow2, Z.shiftl_mul_pow2 by lia. change (2 ^ 16) with 65536.
  replace (x + 65536) with (x + 1 * 65536) by lia. rewrite Z.div_add by lia. pose proof (Z.div_mod x 65536 ltac:(lia)).
  pose proof (Z.mod_pos_bound x 65536 ltac:(lia)). split; [lia|]. rewrite !s64_small; rewrite ?s64_small; lia.
Qed.

Lemma car_step_spec l i x y r : (length l < 15)%nat -> i = Z.of_nat (length l) -> - 2 ^ 51 <= x <= 2 ^ 51 -> - 2 ^ 51 <= y <= 2 ^ 51 ->
  car_step i (l ++ x :: y :: r) = Some (l ++ x mod 65536 :: (y + x / 65536) :: r).
Proof.
  intros Hl Hi Hx Hy. destruct (car_limb x Hx) as [Hc Hm]. unfold car_step.
  destruct (Z.ltb_spec i 15); [|lia]. destruct (Z.eqb_spec i 15); [lia|].
  assert (forall z, l ++ z :: y :: r = (l ++ [z]) ++ y :: r) as E by (intros; by rewrite <- app_assoc).
  assert (forall z, i + 1 = Z.of_nat (length (l ++ [z]))) as Hi1 by (intros; rewrite length_app; cbn [length]; lia).
  rewrite (aget_middle l i x _ Hi). cbn [mbind option_bind]. rewrite (aset_middle l i x _ _ Hi). cbn [mbind option_bind].
  rewrite (aget_middle l i _ (y :: r) Hi). cbn [mbind option_bind].
  rewrite (E (s64 (x + 65536))), (aget_middle _ _ _ _ (Hi1 _)). cbn [mbind option_bind]. rewrite (aset_middle _ _ _ _ _ (Hi1 _)).
  cbn [mbind option_bind]. rewrite <- app_assoc. cbn [app]. rewrite (aget_middle l i _ _ Hi). cbn [mbind option_bind].
  rewrite (aset_middle l i _ _ _ Hi), Hm, Z.add_0_r, Hc.
  pose proof (Z.div_mod x 65536 ltac:(lia)). pose proof (Z.mod_pos_bound x 65536 ltac:(lia)). by rewrite s64_small by lia.
Qed.

Lemma car_last_spec h l x : length l = 14%nat -> - 2 ^ 51 <= h <= 2 ^ 51 -> - 2 ^ 51 <= x <= 2 ^ 51 ->
  car_step 15 (h :: l ++ [x]) = Some ((h + 38 * (x / 65536)) :: l ++ [x mod 65536]).
Proof.
  intros Hl Hh Hx. destruct (car_limb x Hx) as [Hc Hm]. unfold car_step. change (15 <? 15) with false. change (15 =? 15) with true.
  assert (forall a, 15 = Z.of_nat (length (a :: l))) as Hi by (intros; cbn [length]; lia). cbv iota.
  change (h :: l ++ [x]) with ((h :: l) ++ [x]).
  rewrite (aget_middle (h :: l) 15 x [] (Hi h)). cbn [mbind option_bind]. rewrite (aset_middle (h :: l) 15 x _ [] (Hi h)). cbn [mbind option_bind].
  rewrite (aget_middle (h :: l) 15 _ [] (Hi h)). cbn [mbind option_bind].
  change (aget ((h :: l) ++ [s64 (x + 65536)]) 0) with (Some h). cbn [mbind option_bind].
  rewrite aset_in_range by (rewrite length_app; cbn [length]; lia). cbn [mbind option_bind].
  change (<[Z.to_nat 0:=?b]> ((h :: l) ++ ?a)) with ((b :: l) ++ a).
  rewrite (aget_middle (_ :: l) 15 _ [] (Hi _)). cbn [mbind option_bind]. rewrite (aset_middle (_ :: l) 15 _ _ [] (Hi _)), Hm, Hc.
  pose proof (Z.div_mod x 65536 ltac:(lia)). pose proof (Z.mod_pos_bound x 65536 ltac:(lia)). rewrite s64_small by lia. cbn [app].
  do 2 f_equal. lia.
Qed.

Lemma drop_two (l : list Z) (i : nat) : (S i < length l)%nat -> exists x y, drop i l = x :: y :: drop (2 + i) l /\ l !! i = Some x /\ l !! S i = Some y.
Proof.
  intros Hi. destruct (lookup_lt_is_Some_2 l i) as [x Ex]; [lia|]. destruct (lookup_lt_is_Some_2 l (S i)) as [y Ey]; [lia|].
  exists x, y. rewrite (drop_S _ _ _ Ex), (drop_S _ _ _ Ey). done.
Qed.

Lemma carry_bound l : within (2 ^ 50) l -> - 2 ^ 35 <= gval l / base (length l) <= 2 ^ 35.
Proof.
  intros Hl. pose proof (gval_bound l Hl). pose proof (base_pos (length l)). split; [apply Z.div_le_lower_bound; lia|].
  apply Z.lt_succ_r, Z.div_lt_upper_bound; lia.
Qed.

(** After [i] steps: the digits of the first [i] limbs, and what they carry added to the next. *)
Lemma car_loop x n : length x = 16%nat -> within (2 ^ 50) x -> (n <= 15)%nat ->
  for_ car_step 0 n x = Some (dig n (gval (take n x)) ++ bump (gval (take n x) / base n) (drop n x)).
Proof.
  intros Lx Hx Hn.
  destruct (for_inv (fun i o => o = dig (Z.to_nat i) (gval (take (Z.to_nat i) x)) ++ bump (gval (take (Z.to_nat i) x) / base (Z.to_nat i)) (drop (Z.to_nat i) x))
    car_step n 0 x) as (o & -> & Ho).
  - destruct x as [|h x]; [done|]. change (h :: x = [] ++ (h + 0) :: x). by rewrite Z.add_0_r.
  - intros k o Hk ->. set (i := Z.to_nat k). destruct (drop_two x i) as (a & b & -> & Ea & Eb); [lia|].
    pose proof (Forall_take _ i _ Hx) as Hti. pose proof (carry_bound _ Hti) as Hc. rewrite length_take, Nat.min_l in Hc by lia.
    pose proof (Forall_lookup_1 _ _ _ _ Hx Ea) as Ha. pose proof (Forall_lookup_1 _ _ _ _ Hx Eb) as Hb. cbn in Ha, Hb.
    cbn [bump]. rewrite car_step_spec by (rewrite ?length_dig; lia). eexists. split; [done|].
    replace (Z.to_nat (k + 1)) with (S i) by lia. rewrite (take_S_r _ _ _ Ea), gval_app, length_take, Nat.min_l by lia. cbn [gval].
    rewrite Z.mul_0_r, Z.add_0_r, dig_snoc, dig_add. rewrite (drop_S _ _ _ Eb). cbn [bump]. rewrite <- app_assoc. cbn [app].
    pose proof (base_pos i). rewrite base_S. replace (65536 * base i) with (base i * 65536) by lia. rewrite <- Z.div_div by lia.
    replace (gval (take i x) + base i * a) with (gval (take i x) + a * base i) by lia. rewrite Z.div_add by lia.
    rewrite (Z.add_comm a). done.
  - rewrite Ho. by replace (Z.to_nat (0 + Z.of_nat n)) with n by lia.
Qed.

Lemma car25519_spec x : length x = 16%nat -> within (2 ^ 50) x ->
  car25519 x = Some (bump (38 * (gval x / base 16)) (dig 16 (gval x))).
Proof.
  intros Lx Hx. unfold car25519. change 16%nat with (15 + 1)%nat. rewrite for_app, car_loop by (done || lia). cbn [mbind option_bind].
  destruct (lookup_lt_is_Some_2 x 15) as [a Ea]; [lia|]. pose proof (Forall_lookup_1 _ _ _ _ Hx Ea) as Ha. cbn in Ha.
  pose proof (carry_bound (take 15 x) ltac:(by apply Forall_take)) as Hc. rewrite length_take, Nat.min_l in Hc by lia.
  rewrite (drop_S _ _ _ Ea), (drop_ge x) by lia. cbn [bump]. set (g := gval (take 15 x)) in *.
  assert (gval x = g + base 15 * a) as Vx.
  { rewrite <- (take_drop 15 x), gval_app, length_take, Nat.min_l, (drop_S _ _ _ Ea), (drop_ge x) by lia. cbn [gval]. fold g. lia. }
  change (dig 15 g) with (g mod 65536 :: dig 14 (g / 65536)). cbn [app]. cbn [for_]. change (0 + Z.of_nat 15) with 15.
  pose proof (Z.mod_pos_bound g 65536 ltac:(lia)). rewrite car_last_spec by (rewrite ?length_dig; lia). cbn [mbind option_bind].
  change (15 + 1)%nat with 16%nat. rewrite (dig_snoc 15 (gval x)), Vx, dig_add. change (dig 15 g) with (g mod 65536 :: dig 14 (g / 65536)). cbn [bump app].
  change (base 16) with (base 15 * 65536). pose proof (base_pos 15). rewrite <- Z.div_div by lia.
  replace (g + base 15 * a) with (g + a * base 15) by lia. rewrite Z.div_add by lia. rewrite (Z.add_comm a). done.
Qed.

(** ** The field *)

Definition limbs16 (b : Z) (l : list Z) : Prop := length l = 16%nat /\ within b l.

(** What a product leaves, and what sums and differences of two of them are. *)
Definition tight : list Z -> Prop := fun l => length l = 16%nat /\ Forall (fun x => - 38 <= x < 65536 + 38) l.
Definition loose16 : list Z -> Prop := limbs16 (2 ^ 18).

Lemma base16 : base 16 = 2 ^ 256.
Proof. reflexivity. Qed.

Lemma wrap256 v : v mod 2 ^ 256 + 38 * (v / 2 ^ 256) =p v.
Proof.
  pose proof (Z.div_mod v (2 ^ 256) ltac:(lia)). exists (- (2 * (v / 2 ^ 256))). unfold p25519. change (2 ^ 256) with (2 * 2 ^ 255) in *. lia.
Qed.

Lemma gval_bump k l : l <> [] -> gval (bump k l) = gval l + k.
Proof. destruct l as [|x l]; [done|]. intros _. cbn [bump gval]. lia. Qed.

Lemma car_value x : length x = 16%nat -> within (2 ^ 50) x ->
  exists o, car25519 x = Some o /\ length o = 16%nat /\ gval o = gval x mod 2 ^ 256 + 38 * (gval x / 2 ^ 256) /\
    o = bump (38 * (gval x / 2 ^ 256)) (dig 16 (gval x)).
Proof.
  intros Lx Hx. eexists. split; [by apply car25519_spec|]. rewrite base16. split; [by rewrite <- (length_dig 16 (gval x)) at 2|].
  split; [|done]. rewrite gval_bump, gval_dig by done. done.
Qed.

Lemma bump_tight q v : - 1 <= q <= 1 -> tight (bump (38 * q) (dig 16 v)).
Proof.
  intros Hq. split; [done|]. change (dig 16 v) with (v mod 65536 :: dig 15 (v / 65536)). cbn [bump].
  pose proof (Z.mod_pos_bound v 65536 ltac:(lia)). constructor; [lia|]. apply (list.Forall_impl _ _ _ (dig_range 15 (v / 65536))). cbn. lia.
Qed.

(** Two carries of anything a product can leave. *)
Lemma car_twice x : length x = 16%nat -> within (2 ^ 50) x ->
  exists o o', car25519 x = Some o /\ car25519 o = Some o' /\ tight o' /\ gval o' =p gval x.
Proof.
  intros Lx Hx. destruct (car_value x Lx Hx) as (o & E & Lo & Vo & Do). pose proof (carry_bound x Hx) as Hq. rewrite Lx, base16 in Hq.
  set (q := gval x / 2 ^ 256) in *. assert (within (2 ^ 50) o) as Ho.
  { rewrite Do. change (dig 16 (gval x)) with (gval x mod 65536 :: dig 15 (gval x / 65536)). cbn [bump].
    pose proof (Z.mod_pos_bound (gval x) 65536 ltac:(lia)). constructor; [lia|]. apply (list.Forall_impl _ _ _ (dig_range 15 (gval x / 65536))). cbn. lia. }
  destruct (car_value o Lo Ho) as (o' & E' & Lo' & Vo' & Do'). exists o, o'. split; [done|]. split; [done|].
  assert (- 1 <= gval o / 2 ^ 256 <= 1) as Hq'.
  { pose proof (Z.mod_pos_bound (gval x) (2 ^ 256) ltac:(lia)). rewrite Vo. split; [apply Z.div_le_lower_bound; lia|].
    apply Z.lt_succ_r, Z.div_lt_upper_bound; lia. }
  split; [rewrite Do'; by apply bump_tight|]. rewrite Vo', wrap256, Vo. apply wrap256.
Qed.

(** ** Products *)

Lemma gval_insert l (k : nat) x y : l !! k = Some x -> gval (<[k := y]> l) = gval l + base k * (y - x).
Proof.
  revert k. induction l as [|z l IH]; intros [|k] E; simplify_eq/=; [change (base 0) with 1; lia|]. rewrite (IH _ E), base_S. lia.
Qed.

Lemma within_insert b l (k : nat) y : within b l -> - b <= y <= b -> within b (<[k := y]> l).
Proof. intros Hl Hy. by apply Forall_insert. Qed.

Lemma mul_row a b t i c : limbs16 (2 ^ 18) a -> limbs16 (2 ^ 18) b -> length t = 31%nat -> within c t -> 0 <= c <= 2 ^ 44 -> 0 <= i < 16 ->
  exists t' ai, for_ (mul_step a b i) 0 16 t = Some t' /\ a !! Z.to_nat i = Some ai /\ length t' = 31%nat /\ within (c + 16 * 2 ^ 36) t' /\
    gval t' = gval t + base (Z.to_nat i) * (ai * gval b).
Proof.
  intros [La Ha] [Lb Hb] Lt Ht Hc Hi. destruct (aget_is_Some a i) as (ai & Ea & Ga); [lia|]. pose proof (Forall_lookup_1 _ _ _ _ Ha Ea) as Hai. cbn in Hai.
  destruct (for_inv (fun j t' => length t' = 31%nat /\ within (c + j * 2 ^ 36) t' /\
    gval t' = gval t + base (Z.to_nat i) * (ai * gval (take (Z.to_nat j) b))) (mul_step a b i) 16 0 t) as (t' & E & Lt' & Ht' & V).
  - split; [done|]. split; [apply (within_weaken _ _ _ Ht); lia|]. change (take (Z.to_nat 0) b) with (@nil Z). cbn [gval]. lia.
  - intros j t' Hj (Lt' & Ht' & V). destruct (aget_is_Some b j) as (bj & Eb & Gb); [lia|]. pose proof (Forall_lookup_1 _ _ _ _ Hb Eb) as Hbj. cbn in Hbj.
    destruct (aget_is_Some t' (i + j)) as (tij & Et & Gt); [lia|]. pose proof (Forall_lookup_1 _ _ _ _ Ht' Et) as Htij. cbn in Htij.
    unfold mul_step. rewrite Ga, Gb. cbn [mbind option_bind]. rewrite Gt. cbn [mbind option_bind].
    assert (- 2 ^ 36 <= ai * bj <= 2 ^ 36) as Hp by nia. rewrite (s64_small (ai * bj)), s64_small by lia. rewrite aset_in_range by lia.
    eexists. split; [done|]. split; [by rewrite length_insert|]. split.
    + apply within_insert; [apply (within_weaken _ _ _ Ht')|]; lia.
    + rewrite (gval_insert _ _ _ _ Et), V. replace (Z.to_nat (j + 1)) with (S (Z.to_nat j)) by lia. rewrite (take_S_r _ _ _ Eb), gval_app.
      rewrite length_take, Nat.min_l by lia. cbn [gval]. replace (base (Z.to_nat (i + j))) with (base (Z.to_nat i) * base (Z.to_nat j)).
      * ring.
      * unfold base. rewrite <- Z.pow_add_r by lia. f_equal. lia.
  - exists t', ai. rewrite take_ge in V by lia. change (0 + Z.of_nat 16) with 16 in Ht'. done.
Qed.

Lemma mul_rows a b : limbs16 (2 ^ 18) a -> limbs16 (2 ^ 18) b ->
  exists t, for_ (fun i t => for_ (mul_step a b i) 0 16 t) 0 16 (replicate 31 0) = Some t /\ length t = 31%nat /\ within (2 ^ 44) t /\
    gval t = gval a * gval b.
Proof.
  intros Ha Hb. destruct (for_inv (fun i t => length t = 31%nat /\ within (i * (16 * 2 ^ 36)) t /\ gval t = gval (take (Z.to_nat i) a) * gval b)
    (fun i t => for_ (mul_step a b i) 0 16 t) 16 0 (replicate 31 0)) as (t & -> & Lt & Ht & V).
  - split; [done|]. split; [by apply Forall_replicate|done].
  - intros i t Hi (Lt & Ht & V). destruct (mul_row a b t i _ Ha Hb Lt Ht) as (t' & ai & -> & Ea & Lt' & Ht' & V'); [lia..|].
    eexists. split; [done|]. split; [done|]. split; [apply (within_weaken _ _ _ Ht'); lia|]. rewrite V', V.
    replace (Z.to_nat (i + 1)) with (S (Z.to_nat i)) by lia. rewrite (take_S_r _ _ _ Ea), gval_app, length_take, Nat.min_l by (destruct Ha; lia).
    cbn [gval]. ring.
  - exists t. split; [done|]. split; [done|]. split; [apply (within_weaken _ _ _ Ht); lia|]. rewrite V. rewrite take_ge; [done|]. destruct Ha as [-> _]. lia.
Qed.

Lemma fold_loop t : length t = 31%nat ->
  for_ (fun i t => ti ← aget t i; u ← aget t (i + 16); aset t i (fold_limb ti u)) 0 15 t =
    Some (zip_with fold_limb (take 15 t) (drop 16 t) ++ drop 15 t).
Proof. intros Lt. do 31 (destruct t as [|? t]; [done|]). destruct t; [|done]. generalize fold_limb. intros f. lazy. reflexivity. Qed.

Lemma fold_limbs a b : length a = length b -> within (2 ^ 44) a -> within (2 ^ 44) b ->
  within (2 ^ 50) (zip_with fold_limb a b) /\ gval (zip_with fold_limb a b) = gval a + 38 * gval b.
Proof.
  intros Hl Ha. revert b Hl. induction Ha as [|x a Hx Ha IH]; intros [|y b] Hl Hb; try done; [split; [constructor|done]|].
  apply Forall_cons_1 in Hb as [Hy Hb]. injection Hl as Hl. destruct (IH b Hl Hb) as [H1 H2]. cbn [zip_with gval].
  assert (fold_limb x y = x + 38 * y) as -> by (unfold fold_limb; rewrite (s64_small (38 * y)), s64_small; lia).
  split; [constructor; [lia|done]|lia].
Qed.

Lemma gf_M_spec a b : loose16 a -> loose16 b -> exists o, gf_M a b = Some o /\ tight o /\ gval o =p gval a * gval b.
Proof.
  intros Ha Hb. unfold gf_M. destruct (mul_rows a b Ha Hb) as (t & -> & Lt & Ht & V). cbn [mbind option_bind]. rewrite fold_loop by done. cbn [mbind option_bind].
  destruct (lookup_lt_is_Some_2 t 15) as [t15 E15]; [lia|]. pose proof (Forall_lookup_1 _ _ _ _ Ht E15) as H15. cbn in H15.
  destruct (fold_limbs (take 15 t) (drop 16 t)) as [Hf Vf]; [rewrite length_take, length_drop; lia|by apply Forall_take|by apply Forall_drop|].
  assert (length (zip_with fold_limb (take 15 t) (drop 16 t)) = 15%nat) as Lz by (rewrite length_zip_with, length_take, length_drop; lia).
  rewrite (drop_S _ _ _ E15). rewrite take_app, Lz. change (16 - 15)%nat with 1%nat.
  change (take 1 (t15 :: drop 16 t)) with [t15]. rewrite (take_ge (zip_with _ _ _)) by lia.
  destruct (car_twice (zip_with fold_limb (take 15 t) (drop 16 t) ++ [t15])) as (o & o' & -> & E' & Ho & Vo).
  - rewrite length_app, Lz. done.
  - apply Forall_app. split; [done|]. apply Forall_singleton. lia.
  - cbn [mbind option_bind]. exists o'. split; [done|]. split; [done|]. rewrite Vo, <- V, gval_app, Lz, Vf. cbn [gval].
    rewrite <- (take_drop 15 t) at 3. rewrite gval_app, length_take, Nat.min_l, (drop_S _ _ _ E15) by lia. cbn [gval].
    exists (- (2 * gval (drop 16 t))). unfold p25519. change (base 15) with (2 ^ 240). lia.
Qed.

Lemma tight_limbs l : tight l -> limbs16 (2 ^ 17) l.
Proof. intros [Hl H]. split; [done|]. apply (list.Forall_impl _ _ _ H). cbn. lia. Qed.

Lemma tight_loose l : tight l -> loose16 l.
Proof. intros H. destruct (tight_limbs l H) as [Hl Hb]. split; [done|]. by apply (within_weaken (2 ^ 17)). Qed.

Lemma zip_limbs (f : Z -> Z -> Z) (g : Z -> Z -> Z) a b : length a = length b -> within (2 ^ 17) a -> within (2 ^ 17) b ->
  (forall x y, - 2 ^ 17 <= x <= 2 ^ 17 -> - 2 ^ 17 <= y <= 2 ^ 17 -> f x y = g x y /\ - 2 ^ 18 <= g x y <= 2 ^ 18) ->
  zip_with f a b = zip_with g a b /\ within (2 ^ 18) (zip_with g a b).
Proof.
  intros Hl Ha Hb Hf. revert b Hl Hb. induction Ha as [|x a Hx Ha IH]; intros [|y b] Hl Hb; try done; [split; [done|constructor]|].
  apply Forall_cons_1 in Hb as [Hy Hb]. injection Hl as Hl. destruct (IH b Hl Hb) as [H1 H2]. destruct (Hf x y Hx Hy) as [E Hr]. cbn [zip_with].
  rewrite E, H1. split; [done|]. by constructor.
Qed.

Lemma gf_A_spec a b : tight a -> tight b -> loose16 (gf_A a b) /\ gval (gf_A a b) = gval a + gval b.
Proof.
  intros [La Ha]%tight_limbs [Lb Hb]%tight_limbs.
  destruct (zip_limbs (fun x y => s64 (x + y)) Z.add a b) as [E H]; [congruence|done|done|intros; rewrite s64_small; lia|].
  unfold gf_A. rewrite E. split; [split; [rewrite length_zip_with; lia|done]|].
  assert (length a = length b) as Hl by congruence. clear - Hl. revert b Hl. induction a as [|x a IH]; intros [|y b] Hl; try done.
  injection Hl as Hl. cbn [zip_with gval]. rewrite IH by done. lia.
Qed.

Lemma gf_Z_spec a b : tight a -> tight b -> loose16 (gf_Z a b) /\ gval (gf_Z a b) = gval a - gval b.
Proof.
  intros [La Ha]%tight_limbs [Lb Hb]%tight_limbs.
  destruct (zip_limbs (fun x y => s64 (x - y)) Z.sub a b) as [E H]; [congruence|done|done|intros; rewrite s64_small; lia|].
  unfold gf_Z. rewrite E. split; [split; [rewrite length_zip_with; lia|done]|].
  assert (length a = length b) as Hl by congruence. clear - Hl. revert b Hl. induction a as [|x a IH]; intros [|y b] Hl; try done.
  injection Hl as Hl. cbn [zip_with gval]. rewrite IH by done. lia.
Qed.

Lemma sel25519_spec (r : bool) p q : length p = length q -> sel25519 p q (b2z r) = if r then (q, p) else (p, q).
Proof.
  intros Hl. unfold sel25519.
  assert (zip_with (fun pi qi => Z.lxor pi (Z.land (Z.lnot (b2z r - 1)) (Z.lxor pi qi))) p q = (if r then q else p) /\
    zip_with (fun pi qi => Z.lxor qi (Z.land (Z.lnot (b2z r - 1)) (Z.lxor pi qi))) p q = (if r then p else q)) as [-> ->]; [|by destruct r].
  revert q Hl. induction p as [|x p IH]; intros [|y q] Hl; try done; [by destruct r|]. injection Hl as Hl. destruct (IH q Hl) as [H1 H2].
  cbn [zip_with]. rewrite H1, H2. destruct r; cbn [b2z].
  - change (Z.lnot (1 - 1)) with (-1). rewrite !Z.land_m1_l. rewrite <- Z.lxor_assoc, Z.lxor_nilpotent, Z.lxor_0_l.
    by rewrite (Z.lxor_comm x y), <- Z.lxor_assoc, Z.lxor_nilpotent, Z.lxor_0_l.
  - change (Z.lnot (0 - 1)) with 0. by rewrite !Z.land_0_l, !Z.lxor_0_r.
Qed.

(** ** The inverse *)

(** The exponent after [k] rounds. *)
Fixpoint inv_exp (k : nat) : Z :=
  match k with
  | O => 1
  | S k => let a := 253 - Z.of_nat k in 2 * inv_exp k + if (a =? 2) || (a =? 4) then 0 else 1
  end.

Lemma inv_exp_pos k : 0 < inv_exp k.
Proof. induction k as [|k IH]; [done|]. cbn [inv_exp]. destruct ((253 - Z.of_nat k =? 2) || (253 - Z.of_nat k =? 4)); lia. Qed.

Lemma inv_exp_last : inv_exp 254 = p25519 - 2.
Proof. vm_compute. reflexivity. Qed.

Lemma inv25519_spec z : tight z -> exists c, inv25519 z = Some c /\ tight c /\ gval c =p gval z ^ (p25519 - 2).
Proof.
  intros Hz. unfold inv25519.
  destruct (for_inv (fun k c => tight c /\ gval c =p gval z ^ inv_exp (Z.to_nat k))
    (fun k c => inv_round z (253 - k) c) 254 0 z) as (c & -> & Hc & V).
  - split; [done|]. change (inv_exp (Z.to_nat 0)) with 1. by rewrite Z.pow_1_r.
  - intros k c Hk (Hc & V). unfold inv_round, gf_S. destruct (gf_M_spec c c) as (c2 & -> & H2 & V2); [by apply tight_loose..|]. cbn [mbind option_bind].
    replace (Z.to_nat (k + 1)) with (S (Z.to_nat k)) by lia. cbn [inv_exp]. rewrite Z2Nat.id by lia. pose proof (inv_exp_pos (Z.to_nat k)).
    destruct ((253 - k =? 2) || (253 - k =? 4)).
    + exists c2. split; [done|]. split; [done|]. rewrite V2, V, Z.add_0_r, <- Z.pow_add_r by lia. f_equiv. f_equal. lia.
    + destruct (gf_M_spec c2 z) as (c3 & -> & H3 & V3); [by apply tight_loose..|]. exists c3. split; [done|]. split; [done|].
      rewrite V3, V2, V, <- Z.pow_add_r by lia. replace (2 * inv_exp (Z.to_nat k) + 1) with (inv_exp (Z.to_nat k) + inv_exp (Z.to_nat k) + 1) by lia.
      rewrite (Z.pow_add_r _ _ 1), Z.pow_1_r by lia. done.
  - exists c. split; [done|]. split; [done|]. change (Z.to_nat (0 + Z.of_nat 254)) with 254%nat in V. by rewrite inv_exp_last in V.
Qed.

(** ** Numbers in and out *)

Lemma unpack25519_spec n : bits256_ok n -> exists x, unpack25519 n = Some x /\ tight x /\ gval x = le_int n mod 2 ^ 255.
Proof.
  intros [Ln Hn]. unfold unpack25519.
  rewrite (for_append _ (fun i => [nth (2 * i) n 0 + Z.shiftl (nth (2 * i + 1) n 0) 8])).
  - do 32 (destruct n as [|? n]; [done|]). destruct n; [|done]. unfold bytes, is_byte in Hn. decompose_Forall_hyps.
    cbn [seq fmap list_fmap concat app nth Nat.mul Nat.add mbind option_bind].
    rewrite aset_in_range by (cbn [length]; lia). eexists. split; [reflexivity|]. change 0x7fff with (Z.ones 15). rewrite Z.land_ones by lia. rewrite !Z.shiftl_mul_pow2 by lia. change (2 ^ 8) with 256.
    change (Z.to_nat 15) with 15%nat. cbn [insert list_insert].
    split.
    + split; [done|]. repeat (constructor; [lia|]). constructor; [|constructor]. pose proof (Z.mod_pos_bound (z29 + z30 * 256) (2 ^ 15) ltac:(lia)). lia.
    + cbn [gval le_int]. pose proof (Z.div_mod (z29 + z30 * 256) (2 ^ 15) ltac:(lia)). pose proof (Z.mod_pos_bound (z29 + z30 * 256) (2 ^ 15) ltac:(lia)).
      apply (Z.mod_unique_pos _ _ ((z29 + z30 * 256) / 2 ^ 15)); lia.
  - intros i out Hi. rewrite !(aget_nth _ _ 0) by lia. cbn [mbind option_bind]. do 5 f_equal; [f_equal; lia|]. f_equal. f_equal. lia.
Qed.

Lemma aget_last l i (x : Z) r : i = Z.of_nat (length l) -> aget ((l ++ [x]) ++ r) i = Some x.
Proof. intros Hi. rewrite <- app_assoc. by apply aget_middle. Qed.

(** The limbs of [p]. *)
Definition p_limbs : list Z := 0xffed :: replicate 14 0xffff ++ [0x7fff].

Lemma gval_range l : Forall (fun x => 0 <= x < 65536) l -> 0 <= gval l < base (length l).
Proof. induction 1 as [|x l Hx Hl IH]; [done|]. cbn [gval length]. rewrite base_S. lia. Qed.

Lemma p_limbs_range i : Forall (fun x => 0 <= x < 65536) (take i p_limbs).
Proof. apply Forall_take. by apply (bool_decide_unpack _). Qed.

(** The borrow out of a difference of limbs. *)
Lemma borrow_bit w : - 65536 <= w <= 65535 -> Z.land (Z.shiftr w 16) 1 = - (w / 65536) /\ Z.land w 0xffff = w mod 65536.
Proof.
  intros Hw. rewrite Z.shiftr_div_pow2 by lia. change (2 ^ 16) with 65536. change 0xffff with (Z.ones 16). rewrite Z.land_ones by lia.
  split; [|done]. assert (w / 65536 = 0 \/ w / 65536 = -1) as [-> | ->]; [|done|done].
  pose proof (Z.div_mod w 65536 ltac:(lia)). pose proof (Z.mod_pos_bound w 65536 ltac:(lia)). lia.
Qed.

Section Pack.
Context (t : list Z).
Hypothesis length_t : length t = 16%nat.
Hypothesis range_t : Forall (fun x => 0 <= x < 65536) t.

(** The difference of the first [i] limbs. *)
Let W (i : nat) : Z := gval (take i t) - gval (take i p_limbs).

Lemma W_next i ti pi : t !! i = Some ti -> p_limbs !! i = Some pi -> W (S i) = W i + base i * (ti - pi).
Proof using length_t.
  intros Et Ep. pose proof (lookup_lt_Some _ _ _ Et). pose proof (lookup_lt_Some _ _ _ Ep). unfold W.
  rewrite (take_S_r _ _ _ Et), (take_S_r _ _ _ Ep), !gval_app, !length_take, !Nat.min_l by lia. cbn [gval]. ring.
Qed.

Lemma W_top i : (i < 16)%nat -> - 65536 <= W (S i) / base i <= 65535.
Proof using range_t length_t.
  intros Hi. pose proof (gval_range (take (S i) t) ltac:(by apply Forall_take)) as Ht. pose proof (gval_range _ (p_limbs_range (S i))) as Hp.
  rewrite length_take, Nat.min_l in Ht by lia. rewrite length_take, Nat.min_l in Hp by (cbn; lia). rewrite base_S in *. pose proof (base_pos i). unfold W.
  split; [apply Z.div_le_lower_bound; lia|]. apply Z.lt_succ_r, Z.div_lt_upper_bound; lia.
Qed.

(** A limb of the difference, and the one before it cut to 16 bits. *)
Lemma sub_limb i ti pi z r : t !! S i = Some ti -> p_limbs !! S i = Some pi ->
  (let w := W (S i) / base i in
   m ← aset ((dig i (W (S i)) ++ [w]) ++ z :: r) (Z.of_nat (S i)) (s64 (ti - pi - Z.land (Z.shiftr w 16) 1));
   aset m (Z.of_nat i) (Z.land w 0xffff)) =
  Some ((dig (S i) (W (S (S i))) ++ [W (S (S i)) / base (S i)]) ++ r).
Proof using range_t length_t.
  intros Et Ep. pose proof (lookup_lt_Some _ _ _ Et). pose proof (W_top i ltac:(lia)) as Hw. cbv zeta. destruct (borrow_bit _ Hw) as [-> ->].
  rewrite aset_middle by (rewrite length_app, length_dig; cbn [length]; lia). cbn [mbind option_bind].
  rewrite <- app_assoc. cbn [app]. rewrite aset_middle by (by rewrite length_dig). rewrite (W_next _ _ _ Et Ep).
  rewrite dig_add, dig_snoc. pose proof (base_pos i). rewrite base_S.
  rewrite (Z.mul_comm 65536), <- Z.div_div by lia.
  replace (W (S i) + base i * 65536 * (ti - pi)) with (W (S i) + (65536 * (ti - pi)) * base i) by lia. rewrite Z.div_add by lia.
  replace (W (S i) / base i + 65536 * (ti - pi)) with (W (S i) / base i + (ti - pi) * 65536) by lia. rewrite Z.div_add by lia.
  rewrite <- !app_assoc. cbn [app]. do 5 f_equal. pose proof (Forall_lookup_1 _ _ _ _ range_t Et) as Hti. cbn in Hti.
  assert (0 <= pi < 65536) as Hpi by (apply (Forall_lookup_1 _ _ (S i) _ (p_limbs_range 16)); exact Ep).
  pose proof (Z.div_mod (W (S i) / base i) 65536 ltac:(lia)). pose proof (Z.mod_pos_bound (W (S i) / base i) 65536 ltac:(lia)).
  rewrite s64_small; lia.
Qed.

Lemma pack_round_spec : pack_round t = Some (if decide (gval t < p25519) then t else dig 16 (gval t - p25519)).
Proof using range_t length_t.
  unfold pack_round. destruct (aget_is_Some t 0) as (t0 & E0 & ->); [lia|]. cbn [mbind option_bind].
  pose proof (Forall_lookup_1 _ _ _ _ range_t E0) as H0. cbn in H0.
  destruct (for_inv (fun i m => m = (dig (Z.to_nat i - 1) (W (Z.to_nat i)) ++ [W (Z.to_nat i) / base (Z.to_nat i - 1)]) ++ replicate (16 - Z.to_nat i) 0)
    (fun i m => ti ← aget t i; mp ← aget m (i - 1); m ← aset m i (s64 (ti - 0xffff - Z.land (Z.shiftr mp 16) 1)); aset m (i - 1) (Z.land mp 0xffff))
    14 1 (s64 (t0 - 0xffed) :: replicate 15 0)) as (m & -> & Hm).
  - change (Z.to_nat 1) with 1%nat. rewrite (W_next 0 _ _ E0 eq_refl). change (W 0) with 0. change (base 0) with 1. rewrite s64_small by lia.
    change (1 - 1)%nat with 0%nat. cbn [dig app]. change (base 0) with 1. rewrite Z.div_1_r. change (16 - 1)%nat with 15%nat. f_equal. lia.
  - intros i m Hi ->. destruct (aget_is_Some t i) as (ti & Et & ->); [lia|]. cbn [mbind option_bind].
    destruct (Z.to_nat i) as [|j] eqn:Ej; [lia|]. replace (S j - 1)%nat with j by lia. replace (i - 1) with (Z.of_nat j) by lia.
    replace (16 - S j)%nat with (S (15 - S j)) by lia. cbn [replicate].
    assert (p_limbs !! S j = Some 0xffff) as Ep by (do 14 (destruct j as [|j]; [done|]); lia).
    rewrite aget_last by (by rewrite length_dig). cbn [mbind option_bind].
    eexists. split; [|reflexivity]. replace i with (Z.of_nat (S j)) by lia. etrans; [exact (sub_limb j ti _ _ _ Et Ep)|].
    replace (Z.to_nat (Z.of_nat (S j) + 1)) with (S (S j)) by lia. by replace (S (S j) - 1)%nat with (S j) by lia.
  - change (Z.to_nat (1 + Z.of_nat 14)) with 15%nat in Hm. change (15 - 1)%nat with 14%nat in Hm. change (16 - 15)%nat with 1%nat in Hm. cbn [mbind option_bind].
    destruct (aget_is_Some t 15) as (t15 & Et & ->); [lia|]. cbn [mbind option_bind]. subst m.
    rewrite aget_last by (by rewrite length_dig). cbn [mbind option_bind].
    pose proof (sub_limb 14 t15 0x7fff 0 [] Et eq_refl) as Hs. cbv zeta in Hs. change (Z.of_nat 15) with 15 in Hs. change (Z.of_nat 14) with 14 in Hs.
    change (replicate 1 0) with [0]. destruct (aset _ 15 _) as [m|] eqn:Em; [|done]. cbn [mbind option_bind] in Hs |- *.
    rewrite app_nil_r in Hs. pose proof Em as Em2. apply aset_Some in Em2 as [Hl Em2].
    assert (exists m15, aget m 15 = Some m15 /\ m15 = W 16 / base 15) as (m15 & -> & Hm15).
    { apply aset_Some in Hs as [_ Hs].
      assert (length m = 16%nat) as Lm by (rewrite Em2, length_insert, !length_app, length_dig; done).
      destruct (aget_is_Some m 15) as (m15 & E15 & ->); [lia|]. exists m15. split; [done|].
      assert ((dig 15 (W 16) ++ [W 16 / base 15]) !! 15%nat = Some m15) as H15 by (rewrite Hs, list_lookup_insert_ne by lia; exact E15).
      rewrite lookup_app_r in H15 by (by rewrite length_dig). rewrite length_dig in H15. by injection H15 as <-. }
    cbn [mbind option_bind]. rewrite Hs. cbn [mbind option_bind].
    destruct (borrow_bit (W 16 / base 15) (W_top 15 ltac:(lia))) as [Hb _]. rewrite Hm15, Hb.
    assert (W 16 = gval t - p25519) as VW by (unfold W; rewrite take_ge by lia; reflexivity).
    assert (W 16 / base 15 / 65536 = if decide (gval t < p25519) then -1 else 0) as ->.
    { pose proof (base_pos 15). rewrite Z.div_div by lia. change (base 15 * 65536) with (2 ^ 256). rewrite VW.
      pose proof (gval_range t range_t) as Hr. rewrite length_t, base16 in Hr. unfold p25519 in *. change (2 ^ 256) with (2 * 2 ^ 255) in *.
      destruct (decide _); [symmetry; apply (Z.div_unique_pos _ _ _ (gval t - (2 ^ 255 - 19) + 2 * 2 ^ 255)); lia|apply Z.div_small; lia]. }
    f_equal. assert (length (dig 15 (W 16) ++ [W 16 / base 15]) = 16%nat) as L16 by (rewrite length_app, length_dig; done).
    destruct (decide (gval t < p25519)) as [Hlt|Hge].
    + change (1 - - (-1)) with (b2z false). rewrite sel25519_spec by congruence. done.
    + change (1 - - 0) with (b2z true). rewrite sel25519_spec by congruence. cbn [fst]. rewrite <- VW, (dig_snoc 15 (W 16)). f_equal. f_equal.
      symmetry. apply Z.mod_small. split; [apply Z.div_pos; [unfold p25519 in *; lia|apply base_pos]|]. pose proof (W_top 15 ltac:(lia)). lia.
Qed.
End Pack.

Lemma round_dig T : 0 <= T < 2 ^ 256 -> pack_round (dig 16 T) = Some (dig 16 (if decide (T < p25519) then T else T - p25519)).
Proof.
  intros HT. rewrite pack_round_spec by (apply length_dig || apply dig_range). rewrite gval_dig, base16, Z.mod_small by done.
  by destruct (decide (T < p25519)).
Qed.

Lemma tight_range l : Forall (fun x => - 38 <= x < 65536 + 38) l -> - (base (length l) - 1) <= gval l <= 2 * (base (length l) - 1).
Proof. induction 1 as [|x l Hx Hl IH]; [by vm_compute|]. cbn [gval length]. rewrite base_S. pose proof (base_pos (length l)). lia. Qed.

Lemma car_tight x : tight x ->
  exists o, car25519 x = Some o /\ tight o /\ gval o = gval x mod 2 ^ 256 + 38 * (gval x / 2 ^ 256) /\
    o = bump (38 * (gval x / 2 ^ 256)) (dig 16 (gval x)) /\ - 1 <= gval x / 2 ^ 256 <= 1.
Proof.
  intros Hx. destruct (tight_limbs x Hx) as [Lx Hl]. destruct (car_value x Lx) as (o & E & Lo & Vo & Do); [by apply (within_weaken (2 ^ 17))|].
  assert (- 1 <= gval x / 2 ^ 256 <= 1) as Hq.
  { destruct Hx as [_ Hx]. pose proof (tight_range x Hx) as Hr. rewrite Lx, base16 in Hr.
    split; [apply Z.div_le_lower_bound; lia|]. apply Z.lt_succ_r, Z.div_lt_upper_bound; lia. }
  exists o. split; [done|]. split; [rewrite Do; by apply bump_tight|]. done.
Qed.

Lemma bump_dig k v n : 0 <= v mod 65536 + k < 65536 -> bump k (dig (S n) v) = dig (S n) (v + k).
Proof.
  intros Hk. cbn [dig bump]. pose proof (Z.div_mod v 65536 ltac:(lia)).
  f_equal; [|f_equal]; [apply (Z.mod_unique_pos _ _ (v / 65536)); lia|apply (Z.div_unique_pos _ _ _ (v mod 65536 + k)); lia].
Qed.

(** Three carries of what a product leaves are the digits of a number of 256 bits. *)
Lemma car_canonical x : tight x ->
  exists o o' T, car25519 x = Some o /\ car25519 o = Some o' /\ car25519 o' = Some (dig 16 T) /\ 0 <= T < 2 ^ 256 /\ T =p gval x.
Proof.
  intros Hx. destruct (car_tight x Hx) as (o & E1 & Ho & V1 & _ & Hq). destruct (car_tight o Ho) as (o' & E2 & Ho' & V2 & D2 & Hq').
  pose proof (Z.mod_pos_bound (gval x) (2 ^ 256) ltac:(lia)). pose proof (Z.div_mod (gval o) (2 ^ 256) ltac:(lia)) as Dm.
  pose proof (Z.mod_pos_bound (gval o) (2 ^ 256) ltac:(lia)).
  assert (gval o' =p gval x) as Veq by (rewrite V2, wrap256, V1; apply wrap256).
  assert (o' = dig 16 (gval o') /\ 0 <= gval o' < 2 ^ 256) as [Ho2 Hr].
  { rewrite V2. revert D2 V2. assert (dig 16 (gval o) = dig 16 (gval o mod 2 ^ 256)) as ->.
    { rewrite Dm at 1. rewrite Z.add_comm. apply (dig_add 16). }
    set (e := gval o mod 2 ^ 256) in *. assert (gval o / 2 ^ 256 = 0 \/ gval o / 2 ^ 256 = 1 \/ gval o / 2 ^ 256 = -1) as [E|[E|E]] by lia; rewrite E in *; intros -> V2.
    - split; [|lia]. apply bump_dig. pose proof (Z.mod_pos_bound e 65536). lia.
    - split; [|lia]. apply bump_dig. rewrite Z.mod_small by lia. lia.
    - split; [|lia]. apply bump_dig. assert (e mod 65536 = e - (2 ^ 256 - 65536)) as ->; [|lia].
      symmetry. apply (Z.mod_unique_pos _ _ (2 ^ 240 - 1)); lia. }
  destruct (car_tight o' Ho') as (o3 & E3 & _ & _ & D3 & _). exists o, o', (gval o'). split; [done|]. split; [done|].
  split; [|done]. rewrite E3, D3. rewrite (Z.div_small (gval o')) by done. f_equal.
  rewrite <- (Z.add_0_r (gval o')) at 2. apply bump_dig. pose proof (Z.mod_pos_bound (gval o') 65536). lia.
Qed.

Lemma digits_bytes n v : concat ((fun x => [Z.land x 0xff; u8 (Z.shiftr x 8)]) <$> dig n v) = le_bytes (2 * n) v.
Proof.
  revert v. induction n as [|n IH]; intros v; [done|]. replace (2 * S n)%nat with (S (S (2 * n))) by lia.
  cbn [dig le_bytes]. rewrite fmap_cons. cbn [concat app]. rewrite IH, Z.div_div by lia. change (256 * 256) with 65536.
  change 0xff with (Z.ones 8). rewrite Z.land_ones, Z.shiftr_div_pow2 by lia. unfold u8, wrapU. change (2 ^ 8) with 256.
  replace 65536 with (256 * 256) by lia. rewrite Z.rem_mul_r by lia. rewrite (Z.mul_comm 256 (_ mod 256)), Z.mod_add, Z.div_add by lia.
  rewrite Z.mod_mod, (Z.div_small (v mod 256)), Z.add_0_l, Z.mod_mod by (lia || (apply Z.mod_pos_bound; lia)). done.
Qed.

Lemma pack25519_spec x : tight x -> pack25519 x = Some (le_bytes 32 (gval x mod p25519)).
Proof.
  intros Hx. unfold pack25519. destruct (car_canonical x Hx) as (o & o' & T & -> & E2 & E3 & HT & VT). cbn [mbind option_bind].
  rewrite E2. cbn [mbind option_bind]. rewrite E3. cbn [mbind option_bind]. rewrite round_dig by done. cbn [mbind option_bind].
  set (T1 := if decide (T < p25519) then T else T - p25519). assert (0 <= T1 < 2 ^ 256 /\ (if decide (T1 < p25519) then T1 else T1 - p25519) = T mod p25519) as [H1 E].
  { unfold T1, p25519 in *. change (2 ^ 256) with (2 * 2 ^ 255) in *. destruct (decide (T < 2 ^ 255 - 19)) as [Ht|Ht].
    - rewrite decide_True by done. split; [lia|]. symmetry. apply Z.mod_small. lia.
    - destruct (decide (T - (2 ^ 255 - 19) < 2 ^ 255 - 19)); (split; [lia|]); [apply (Z.mod_unique_pos _ _ 1); lia|apply (Z.mod_unique_pos _ _ 2); lia]. }
  rewrite round_dig by done. rewrite E. cbn [mbind option_bind].
  rewrite (for_append _ (fun i => [Z.land (nth i (dig 16 (T mod p25519)) 0) 0xff; u8 (Z.shiftr (nth i (dig 16 (T mod p25519)) 0) 8)])).
  - cbn [app]. f_equal. rewrite <- (proj1 (eqp_iff T (gval x)) VT). rewrite <- (digits_bytes 16). f_equal.
  - intros i out Hi. rewrite (aget_nth _ _ 0) by (rewrite length_dig; lia). by rewrite Nat2Z.id.
Qed.

(** ** The ladder *)

(** The buffers are tight and stand for the fractions. *)
Definition tweet_for (s : tweet) (f : fractions) : Prop :=
  let '(x, z, x', z') := f in
  (tight (ta s) /\ tight (tc s) /\ tight (tb s) /\ tight (td s)) /\
  (gval (ta s) =p x /\ gval (tc s) =p z /\ gval (tb s) =p x' /\ gval (td s) =p z').

Lemma const_121665 : loose16 _121665 /\ gval _121665 = 121665.
Proof. split; [split; [done|by apply (bool_decide_unpack _)]|reflexivity]. Qed.

(** A product of the ladder and what is known of it. *)
Ltac product H1 H2 H V :=
  let o := fresh "o" in destruct (gf_M_spec _ _ H1 H2) as (o & -> & H & V); cbn [mbind option_bind].

Lemma tweet_double_add x a b c d (f : fractions) (k : list Z -> list Z -> list Z -> list Z -> option tweet) : tight x ->
  tight a -> tight b -> tight c -> tight d ->
  (let '(x1, z1, x2, z2) := f in gval a =p x1 /\ gval c =p z1 /\ gval b =p x2 /\ gval d =p z2) ->
  exists a' b' c' d', (let e := gf_A a c in let a := gf_Z a c in let c := gf_A b d in let b := gf_Z b d in
    d ← gf_S e; f ← gf_S a; a ← gf_M c a; c ← gf_M b e; let e := gf_A a c in let a := gf_Z a c in
    b ← gf_S a; let c := gf_Z d f in a ← gf_M c _121665; let a := gf_A a d in c ← gf_M c a; a ← gf_M d f; d ← gf_M b x; b ← gf_S e;
    k a b c d) = k a' b' c' d' /\ tweet_for (mk_tweet a' b' c' d') (spec_double_add (gval x) f).
Proof.
  intros Hx Ha Hb Hc Hd. destruct f as [[[x1 z1] x2] z2]. intros (V1 & V2 & V3 & V4). cbv zeta. unfold gf_S.
  destruct (gf_A_spec a c Ha Hc) as [L1 E1]. destruct (gf_Z_spec a c Ha Hc) as [L2 E2].
  destruct (gf_A_spec b d Hb Hd) as [L3 E3]. destruct (gf_Z_spec b d Hb Hd) as [L4 E4].
  product L1 L1 T1 W1. product L2 L2 T2 W2. product L3 L2 T3 W3. product L4 L1 T4 W4.
  destruct (gf_A_spec _ _ T3 T4) as [L5 E5]. destruct (gf_Z_spec _ _ T3 T4) as [L6 E6].
  product L6 L6 T5 W5. destruct (gf_Z_spec _ _ T1 T2) as [L7 E7]. destruct const_121665 as [L8 E8].
  product L7 L8 T6 W6. destruct (gf_A_spec _ _ T6 T1) as [L9 E9]. product L7 L9 T7 W7.
  product (tight_loose _ T1) (tight_loose _ T2) T8 W8. product (tight_loose _ T5) (tight_loose _ Hx) T9 W9. product L5 L5 T10 W10.
  do 4 eexists. split; [reflexivity|]. cbn [tweet_for spec_double_add ta tb tc td]. split; [done|].
  rewrite !eqp_mod. unfold A25519. split; [|split; [|split]].
  - rewrite W8, W1, W2, E1, E2, V1, V2. exists 0. ring.
  - rewrite W7, E9, W6, E7, E8, W1, W2, E1, E2, V1, V2. exists 0. ring.
  - rewrite W10, E5, W3, W4, E1, E2, E3, E4, V1, V2, V3, V4. exists 0. ring.
  - rewrite W9, W5, E6, W3, W4, E1, E2, E3, E4, V1, V2, V3, V4. exists 0. ring.
Qed.

Lemma tweet_step_spec x (r : bool) s f : tight x -> tweet_for s f ->
  exists s', tweet_step x (b2z r) s = Some s' /\ tweet_for s' (spec_step (gval x) f r).
Proof.
  intros Hx Hs. destruct f as [[[x1 z1] x2] z2]. destruct Hs as [(Ta & Tc & Tb & Td) (V1 & V2 & V3 & V4)].
  unfold tweet_step. rewrite !sel25519_spec by (destruct Ta, Tb, Tc, Td; congruence).
  destruct (tweet_double_add x (if r then tb s else ta s) (if r then ta s else tb s) (if r then td s else tc s) (if r then tc s else td s)
    (spec_swap r (x1, z1, x2, z2)) (fun a b c d => let '(a, b) := sel25519 a b (b2z r) in let '(c, d) := sel25519 c d (b2z r) in Some (mk_tweet a b c d)) Hx)
    as (a' & b' & c' & d' & E & Hs'); [by destruct r..|].
  exists (if r then mk_tweet b' a' d' c' else mk_tweet a' b' c' d'). split.
  - unfold tweet_for in Hs'. revert Hs'. destruct (spec_double_add _ _) as [[[y1 w1] y2] w2]. intros [(Ha' & Hc' & Hb' & Hd') _]. cbn [ta tb tc td] in *.
    assert (length a' = length b' /\ length c' = length d') as [Lab Lcd] by (destruct Ha', Hb', Hc', Hd'; split; congruence).
    rewrite (sel25519_spec r a' b' Lab), (sel25519_spec r c' d' Lcd) in E. destruct r; exact E.
  - unfold spec_step. revert Hs'. destruct (spec_double_add _ _) as [[[y1 w1] y2] w2]. intros [(Ha' & Hc' & Hb' & Hd') (U1 & U2 & U3 & U4)]. by destruct r.
Qed.

(** ** One bit less

    The loop starts at bit 254; the specification at bit 255, which the keys have
    cleared.  A step for a cleared bit from the start multiplies the fraction of the
    second point, and fractions are only known up to a factor. *)

Definition unit_p (a : Z) : Prop := exists b, a * b =p 1.

Lemma unit_mul a b : unit_p a -> unit_p b -> unit_p (a * b).
Proof. intros [a' Ha] [b' Hb]. exists (a' * b'). replace (a * b * (a' * b')) with ((a * a') * (b * b')) by ring. by rewrite Ha, Hb. Qed.

Lemma unit_1 : unit_p 1.
Proof. by exists 1. Qed.

Lemma unit_nonzero a : a mod p25519 <> 0 -> unit_p a.
Proof.
  intros Ha. exists (a ^ (p25519 - 2)). replace (a * a ^ (p25519 - 2)) with (a ^ (p25519 - 1)) by (rewrite <- Z.pow_succ_r by (unfold p25519; lia); f_equal; lia).
  apply eqp_iff. rewrite (Z.fermat_nz p25519 a p25519_prime Ha). by rewrite Z.mod_small by (unfold p25519; lia).
Qed.

Lemma unit_4 : unit_p 4.
Proof. apply unit_nonzero. rewrite Z.mod_small by (unfold p25519; lia). lia. Qed.

Lemma unit_power a : unit_p a -> a ^ (p25519 - 1) =p 1.
Proof.
  intros [b Hb]. apply eqp_iff. rewrite (Z.fermat_nz p25519 a p25519_prime); [by rewrite Z.mod_small by (unfold p25519; lia)|].
  intros E. assert (a =p 0) as E0 by (apply eqp_iff; rewrite E; done). rewrite E0 in Hb. apply eqp_iff in Hb. rewrite Z.mul_0_l in Hb. vm_compute in Hb. done.
Qed.

(** The same two fractions, each up to a factor. *)
Definition scaled (s t : fractions) : Prop :=
  exists a b, unit_p a /\ unit_p b /\
    let '(x, z, x', z') := s in let '(y, w, y', w') := t in
    x =p a * y /\ z =p a * w /\ x' =p b * y' /\ z' =p b * w'.

Lemma scaled_swap r s t : scaled s t -> scaled (spec_swap r s) (spec_swap r t).
Proof.
  destruct s as [[[x z] x'] z'], t as [[[y w] y'] w']. intros (a & b & Ha & Hb & E1 & E2 & E3 & E4).
  destruct r; [exists b, a|exists a, b]; done.
Qed.

Lemma scaled_double_add q s t : scaled s t -> scaled (spec_double_add q s) (spec_double_add q t).
Proof.
  destruct s as [[[x z] x'] z'], t as [[[y w] y'] w']. intros (a & b & Ha & Hb & E1 & E2 & E3 & E4).
  exists (a * a * (a * a)), (a * b * (a * b)). split; [by repeat apply unit_mul|]. split; [by repeat apply unit_mul|].
  unfold spec_double_add. rewrite !eqp_mod. rewrite E1, E2, E3, E4. split; [|split; [|split]]; exists 0; ring.
Qed.

Lemma scaled_steps q bits s t : scaled s t -> scaled (foldl (spec_step q) s bits) (foldl (spec_step q) t bits).
Proof.
  revert s t. induction bits as [|r bits IH]; intros s t H; [done|]. cbn [foldl]. apply IH. unfold spec_step.
  by apply scaled_swap, scaled_double_add, scaled_swap.
Qed.

(** The number a fraction stands for. *)
Definition quotient (f : fractions) : Z := let '(x, z, _, _) := f in x * Zpow_mod z (p25519 - 2) p25519 mod p25519.

Lemma quotient_eq x z x' z' : quotient (x, z, x', z') = x * z ^ (p25519 - 2) mod p25519.
Proof. unfold quotient. rewrite Zpow_mod_correct by done. apply eqp_iff. by rewrite eqp_mod. Qed.

Lemma pow_p x y : x =p y -> x ^ (p25519 - 2) =p y ^ (p25519 - 2).
Proof. apply pow_eqp. unfold p25519. lia. Qed.

Lemma quotient_scaled s t : scaled s t -> quotient s = quotient t.
Proof.
  destruct s as [[[x z] x'] z'], t as [[[y w] y'] w']. intros (a & b & Ha & _ & E1 & E2 & _). rewrite !quotient_eq. apply eqp_iff.
  rewrite E1, (pow_p z (a * w) E2), Z.pow_mul_l.
  replace (a * y * (a ^ (p25519 - 2) * w ^ (p25519 - 2))) with ((a * a ^ (p25519 - 2)) * (y * w ^ (p25519 - 2))) by ring.
  replace (a * a ^ (p25519 - 2)) with (a ^ (p25519 - 1)) by (rewrite <- Z.pow_succ_r by (unfold p25519; lia); f_equal; lia).
  rewrite (unit_power a Ha), Z.mul_1_l. done.
Qed.

(** With the point 0 every denominator is zero after one step. *)
Definition vanishing (f : fractions) : Prop := let '(_, z, _, z') := f in z =p 0 /\ z' =p 0.

Lemma vanishing_step q r f : q =p 0 -> vanishing f \/ f = (1, 0, q, 1) -> vanishing (spec_step q f r).
Proof.
  intros Hq Hf. unfold spec_step. assert (vanishing (spec_double_add q (spec_swap r f))) as H.
  - destruct f as [[[x z] x'] z']. destruct Hf as [[H1 H2]|[= -> -> -> ->]]; destruct r; unfold vanishing; cbn [spec_swap spec_double_add]; rewrite !eqp_mod.
    + rewrite Hq, H2. split; exists 0; ring.
    + rewrite Hq, H1. split; exists 0; ring.
    + rewrite Hq. split; exists 0; ring.
    + rewrite Hq. split; exists 0; ring.
  - destruct (spec_double_add _ _) as [[[x z] x'] z']. destruct H. by destruct r.
Qed.

Lemma vanishing_steps q bits f : q =p 0 -> vanishing f -> vanishing (foldl (spec_step q) f bits).
Proof. intros Hq. revert f. induction bits as [|r bits IH]; intros f Hf; [done|]. cbn [foldl]. apply IH, vanishing_step; auto. Qed.

Lemma quotient_vanishing f : vanishing f -> quotient f = 0.
Proof.
  destruct f as [[[x z] x'] z']. intros [Hz _]. rewrite quotient_eq. assert (x * z ^ (p25519 - 2) =p 0) as E.
  { rewrite (pow_p z 0 Hz). rewrite Z.pow_0_l by (unfold p25519; lia). exists 0. ring. }
  apply eqp_iff in E. by rewrite E.
Qed.

Definition tweet_bits (n : Z) (k : nat) : list bool := (fun i => Z.testbit n (254 - Z.of_nat i)) <$> seq 0 k.

Lemma top_bits n k : (fun i => Z.testbit n (255 - Z.of_nat i)) <$> seq 0 (S k) = Z.testbit n 255 :: tweet_bits n k.
Proof.
  rewrite <- cons_seq, fmap_cons. f_equal. unfold tweet_bits. rewrite <- (fmap_S_seq 0 k), <- list_fmap_compose.
  apply list_fmap_ext. intros i j _. unfold compose. f_equal. lia.
Qed.

Lemma tweet_bits_cons n k : exists r l, tweet_bits n (S k) = r :: l.
Proof. unfold tweet_bits. rewrite <- cons_seq, fmap_cons. by do 2 eexists. Qed.

Lemma quotient_tail n u k : Z.testbit n 255 = false ->
  quotient (foldl (spec_step u) (1, 0, u, 1) (tweet_bits n (S k))) = quotient (spec_upto n u (S (S k))).
Proof.
  intros Hn. unfold spec_upto. rewrite top_bits, Hn. cbn [foldl]. destruct (decide (u mod p25519 = 0)) as [Hu|Hu].
  - assert (u =p 0) as Hu0 by (apply eqp_iff; by rewrite Hu). destruct (tweet_bits_cons n k) as (r & l & ->). cbn [foldl].
    rewrite !quotient_vanishing; [done|..]; apply vanishing_steps; try done; apply vanishing_step; auto using vanishing_step.
  - apply quotient_scaled, scaled_steps. unfold spec_step. cbn [spec_swap spec_double_add].
    assert (unit_p (4 * u)) as [v Hv] by (exact (unit_mul _ _ unit_4 (unit_nonzero u Hu))).
    exists 1, v. split; [apply unit_1|]. split; [exists (4 * u); by rewrite Z.mul_comm|]. rewrite !eqp_mod. split; [exists 0; ring|]. split; [exists 0; ring|].
    split; [transitivity (4 * u * v * u); [rewrite Hv; exists 0; ring|exists 0; ring]|transitivity (4 * u * v); [by rewrite Hv|exists 0; ring]].
Qed.

Lemma x25519_quotient n u : x25519 n u = quotient (spec_upto n u 256).
Proof. unfold x25519, quotient. reflexivity. Qed.

Lemma x25519_tail n u : Z.testbit n 255 = false ->
  quotient (foldl (spec_step u) (1, 0, u, 1) (tweet_bits n 255)) = x25519 n u.
Proof.
  intros Hn. rewrite x25519_quotient. pose proof (quotient_tail n u 254 Hn) as E.
  change (S (S 254)) with 256%nat in E. change (S 254) with 255%nat in E. exact E.
Qed.

(** ** Scalar multiplication *)

Lemma tweet_clamp_eq n : length n = 32%nat -> tweet_clamp n = clamp n.
Proof.
  intros Ln. do 32 (destruct n as [|? n]; [done|]). destruct n; [|done]. unfold tweet_clamp, clamp.
  generalize Z.land, Z.lor. intros f g. lazy. reflexivity.
Qed.

Lemma clamp_bits n : bits256_ok n -> exists e, clamp n = Some e /\ bits256_ok e /\ Z.testbit (le_int e) 255 = false.
Proof.
  intros Hn. destruct (clamp_ok n Hn) as (e & E & He). exists e. split; [done|]. split; [done|].
  assert (exists b, aget e 31 = Some (Z.lor (Z.land b 0x7f) 64)) as (b & Eb).
  { destruct Hn as [Ln _]. do 32 (destruct n as [|? n]; [done|]). destruct n; [|done]. unfold clamp in E. revert E.
    generalize Z.land, Z.lor. intros f g. lazy. intros [= <-]. by eexists. }
  rewrite (le_int_byte_bit e 31 7 _ (proj2 He) Eb ltac:(lia) : Z.testbit (le_int e) 255 = _).
  by rewrite Z.lor_spec, Z.land_spec, andb_false_r.
Qed.

Lemma bit_b2z v j : 0 <= j -> Z.land (Z.shiftr v j) 1 = b2z (Z.testbit v j).
Proof.
  intros Hj. change 1 with (Z.ones 1). rewrite Z.land_ones by lia. change (2 ^ 1) with 2. rewrite Z.shiftr_div_pow2 by done.
  change (b2z (Z.testbit v j)) with (Z.b2z (Z.testbit v j)). by rewrite Z.testbit_spec'.
Qed.

Lemma tweet_loop z x : bits256_ok z -> tight x ->
  exists s, for_ (fun k s => let i := 254 - k in zi ← aget z (Z.shiftr i 3); tweet_step x (Z.land (Z.shiftr zi (Z.land i 7)) 1) s)
    0 255 (mk_tweet gf1 x gf0 gf1) = Some s /\
    tweet_for s (foldl (spec_step (gval x)) (1, 0, gval x, 1) (tweet_bits (le_int z) 255)).
Proof.
  intros [Lz Hz] Hx.
  destruct (for_inv (fun k s => tweet_for s (foldl (spec_step (gval x)) (1, 0, gval x, 1) (tweet_bits (le_int z) (Z.to_nat k))))
    (fun k s => let i := 254 - k in zi ← aget z (Z.shiftr i 3); tweet_step x (Z.land (Z.shiftr zi (Z.land i 7)) 1) s)
    255 0 (mk_tweet gf1 x gf0 gf1)) as (s & E & Hs).
  - assert (tight gf1 /\ tight gf0) as [H1 H0] by (by split; split; [|apply (bool_decide_unpack _)| |apply (bool_decide_unpack _)]).
    split; [done|]. done.
  - intros k s Hk Hs. cbv zeta. rewrite shiftr_3, land_7. set (i := 254 - k).
    destruct (aget_is_Some z (i / 8)) as (zi & _ & Gz).
    { rewrite Lz. split; [apply Z.div_pos; lia|]. apply Z.div_lt_upper_bound; lia. }
    rewrite Gz. cbn [mbind option_bind]. pose proof (Z.mod_pos_bound i 8 ltac:(lia)). rewrite bit_b2z by lia.
    rewrite <- (le_int_byte_bit z (i / 8) (i mod 8) zi Hz Gz) by lia. rewrite <- (Z.div_mod i 8) by lia.
    destruct (tweet_step_spec x (Z.testbit (le_int z) i) s _ Hx Hs) as (s' & -> & Hs'). exists s'. split; [done|].
    replace (Z.to_nat (k + 1)) with (S (Z.to_nat k)) by lia. unfold tweet_bits. rewrite (seq_S (Z.to_nat k)), fmap_app, foldl_app. cbn [fmap list_fmap foldl Nat.add].
    rewrite Z2Nat.id by lia. exact Hs'.
  - exists s. split; [exact E|]. exact Hs.
Qed.

Lemma scalarmult_x25519 n p : bits256_ok n -> bits256_ok p ->
  exists e, clamp n = Some e /\ bits256_ok e /\ crypto_scalarmult n p = Some (le_bytes 32 (x25519 (le_int e) (le_int p mod 2 ^ 255))).
Proof.
  intros Hn Hp. destruct (clamp_bits n Hn) as (e & Ee & He & H255). exists e. split; [done|]. split; [done|].
  unfold crypto_scalarmult. rewrite tweet_clamp_eq, Ee by apply Hn. cbn [mbind option_bind].
  destruct (unpack25519_spec p Hp) as (x & -> & Hx & <-). cbn [mbind option_bind]. destruct (tweet_loop e x He Hx) as (s & E & Hs).
  cbv zeta in E. rewrite E. cbn [mbind option_bind]. rewrite <- (x25519_tail _ _ H255).
  revert Hs. generalize (foldl (spec_step (gval x)) (1, 0, gval x, 1) (tweet_bits (le_int e) 255)). intros [[[y w] y'] w'] [(Ta & Tc & _) (Va & Vc & _)].
  destruct (inv25519_spec (tc s) Tc) as (c & -> & Hc & Vi). cbn [mbind option_bind].
  destruct (gf_M_spec (ta s) c) as (a & -> & Ha & V); [by apply tight_loose..|]. cbn [mbind option_bind].
  rewrite pack25519_spec by done. do 2 f_equal. rewrite quotient_eq. apply eqp_iff. rewrite V, Vi, Va, (pow_p _ _ Vc). done.
Qed.

(** C22: The three ladders of the tree return the same bytes for any secret and point:
    [crypto_scalarmult] on sixteen signed limbs of 16 bits, [curve25519_donna] on ten of
    25 and 26, and [curve25519] of the clamped secret on five of 51 bits: those of x25519.
    [crypto_scalarmult] stays within its arrays, and that it starts at bit 254 instead
    of 255 only scales the fractions.  Signed words wrap in all three. *)
Theorem crypto_scalarmult_agrees result n p : length result = 32%nat -> bits256_ok n -> bits256_ok p ->
  exists e, clamp n = Some e /\ crypto_scalarmult n p = Some (le_bytes 32 (x25519 (le_int e) (le_int p mod 2 ^ 255))) /\
    crypto_scalarmult n p = Ladder.curve25519 e p /\ crypto_scalarmult n p = curve25519_donna result n p.
Proof.
  intros Hr Hn Hp. destruct (scalarmult_x25519 n p Hn Hp) as (e & Ee & He & ->). exists e. split; [done|]. split; [done|].
  rewrite (curve25519_donna_spec result n p e Hr (proj1 He) Hn Hp Ee He), curve25519_x25519 by done. done.
Qed.

Example crypto_scalarmult_agrees_witness :
  exists e, clamp (replicate 32 255) = Some e /\
    crypto_scalarmult (replicate 32 255) (9 :: replicate 31 0) = Some (le_bytes 32 (x25519 (le_int e) (le_int (9 :: replicate 31 0) mod 2 ^ 255))) /\
    crypto_scalarmult (replicate 32 255) (9 :: replicate 31 0) = Ladder.curve25519 e (9 :: replicate 31 0) /\
    crypto_scalarmult (replicate 32 255) (9 :: replicate 31 0) = curve25519_donna zero256 (replicate 32 255) (9 :: replicate 31 0).
Proof. exact (crypto_scalarmult_agrees zero256 (replicate 32 255) (9 :: replicate 31 0) ltac:(concrete) ltac:(concrete) ltac:(concrete)). Defined.
