(* ===== verification/Box.v ===== *)
(** * Box: authenticated encryption of the messages

    Models [crypto_secretbox] to [crypto_box_open] of [plugins/utils/tweetnacl.c] over
    [Salsa], [Poly1305] and [Tweet].  A buffer that is written is an argument and part of
    the result.  What is sealed with one pair of keys opens with the other pair: of the
    curve this needs that the two sides of an exchange agree, as for the cards. *)

From S2P Require Import Prelude GF256 Cards Bits Keys Field25519 Ladder Concrete Salsa Poly1305 Tweet.

(** ** The code *)

(** The result, and the contents of [c]. *)
Definition crypto_secretbox (c m : list Z) (d : Z) (n k : list Z) : option (Z * list Z) :=
  if d <? 32 then Some (-1, c)
  else
    x ← crypto_stream_xor m d n k;
    c ← memcpy c 0 x 0 d;
    a ← crypto_onetimeauth (drop 32 c) (d - 32) c;
    c ← memcpy c 16 a 0 16;
    c ← memset c 0 0 16;
    Some (0, c).

(** The result, and the contents of [m]. *)
Definition crypto_secretbox_open (m c : list Z) (d : Z) (n k : list Z) : option (Z * list Z) :=
  if d <? 32 then Some (-1, m)
  else
    x ← crypto_stream 32 n k;
    v ← crypto_onetimeauth_verify (drop 16 c) (drop 32 c) (d - 32) x;
    if v =? 0 then
      y ← crypto_stream_xor c d n k;
      m ← memcpy m 0 y 0 d;
      m ← memset m 0 0 32;
      Some (0, m)
    else Some (-1, m).

Definition crypto_box_beforenm (y x : bits256) : option bits256 :=
  s ← crypto_scalarmult x y; crypto_core_hsalsa20 (replicate 16 0) s sigma.

(** [d] is converted to [unsigned long long]. *)
Definition crypto_box (c m : list Z) (d : Z) (n : list Z) (y x : bits256) : option (Z * list Z) :=
  k ← crypto_box_beforenm y x; crypto_secretbox c m (u64 d) n k.

Definition crypto_box_open (m c : list Z) (d : Z) (n : list Z) (y x : bits256) : option (Z * list Z) :=
  k ← crypto_box_beforenm y x; crypto_secretbox_open m c (u64 d) n k.

(** ** What a box is *)

(** The sealed bytes of a message [p]: sixteen zeros, the authenticator and the
    ciphertext. *)
Definition sealed (n k p : list Z) : list Z :=
  let s := xsalsa20 n k (32 + length p) in
  let ct := xor_bytes p (drop 32 s) in
  replicate 16 0 ++ poly1305 ct (take 32 s) ++ ct.

(** ** The stream *)

Lemma length_blocks (f : nat -> list Z) i n : (forall j, length (f j) = 64%nat) -> length (concat (f <$> seq i n)) = (64 * n)%nat.
Proof.
  intros Hf. revert i. induction n as [|n IH]; intros i; [done|]. rewrite <- cons_seq, fmap_cons. cbn [concat]. rewrite length_app, Hf, IH. lia.
Qed.

Lemma stream_prefix block i a d : (forall i, length (block i) = 64%nat) -> (a <= d)%nat -> take a (stream_of block i d) = stream_of block i a.
Proof.
  intros Hb Had. unfold stream_of. rewrite take_take, Nat.min_l by done.
  replace (S (d / 64)) with (S (a / 64) + (d / 64 - a / 64))%nat by (pose proof (Nat.Div0.div_le_mono a d 64 Had); lia).
  rewrite seq_app, fmap_app, concat_app. apply take_app_le. rewrite length_blocks by (intros; apply Hb).
  pose proof (Nat.div_mod_eq a 64). pose proof (Nat.mod_upper_bound a 64). lia.
Qed.

Lemma xsalsa20_prefix n k a d : (a <= d)%nat -> take a (xsalsa20 n k d) = xsalsa20 n k a.
Proof. intros Had. unfold xsalsa20, key_stream_from. apply stream_prefix; [intros; apply key_block_ok|done]. Qed.

Lemma length_xsalsa20 n k d : length (xsalsa20 n k d) = d.
Proof. unfold xsalsa20. exact (length_key_stream _ _ 0 d). Qed.

Lemma stream_bytes (f : nat -> list Z) i n : (forall j, bytes (f j)) -> bytes (concat (f <$> seq i n)).
Proof.
  intros Hf. revert i. induction n as [|n IH]; intros i; [constructor|]. rewrite <- cons_seq, fmap_cons. cbn [concat].
  apply Forall_app. split; [apply Hf|apply IH].
Qed.

Lemma xsalsa20_bytes n k d : bytes (xsalsa20 n k d).
Proof. unfold xsalsa20, key_stream_from, stream_of. apply Forall_take, stream_bytes. intros j. apply key_block_ok. Qed.

Lemma xor_bytes_ok a b : bytes a -> bytes b -> bytes (xor_bytes a b).
Proof.
  intros Ha. revert b. induction Ha as [|x a Hx Ha IH]; intros b Hb; [constructor|]. destruct Hb as [|y b Hy Hb]; [constructor|].
  constructor; [by apply lxor_byte|by apply IH].
Qed.

Lemma xor_twice a b : length a = length b -> xor_bytes (xor_bytes a b) b = a.
Proof.
  unfold xor_bytes. revert b. induction a as [|x a IH]; intros [|y b] Hl; try done. injection Hl as Hl. cbn [zip_with].
  by rewrite IH, Z.lxor_assoc, Z.lxor_nilpotent, Z.lxor_0_r.
Qed.

Lemma length_xor_bytes a b : length a = length b -> length (xor_bytes a b) = length a.
Proof. intros Hl. unfold xor_bytes. rewrite length_zip_with. lia. Qed.

#[local] Opaque xsalsa20 hsalsa20 crypto_stream crypto_stream_xor crypto_onetimeauth crypto_onetimeauth_verify.

(** Only the first 32 bytes of the key are used. *)
Lemma poly1305_key m a b : take 32 a = take 32 b -> poly1305 m a = poly1305 m b.
Proof.
  intros E. assert (take 16 a = take 16 b) as E1 by (apply (f_equal (take 16)) in E; by rewrite !take_take in E).
  assert (take 16 (drop 16 a) = take 16 (drop 16 b)) as E2 by (apply (f_equal (drop 16)) in E; by rewrite !skipn_firstn_comm in E).
  unfold poly1305, clamp_r. by rewrite E1, E2.
Qed.

#[local] Opaque poly1305.

(** ** Sealing and opening *)

Lemma length_sealed n k p : length (sealed n k p) = (32 + length p)%nat.
Proof.
  unfold sealed. rewrite !length_app, length_replicate, length_poly1305, length_xor_bytes; [done|]. rewrite length_drop, length_xsalsa20. lia.
Qed.

Lemma sealed_bytes n k p : bytes p -> bytes (sealed n k p).
Proof.
  intros Hp. unfold sealed. apply Forall_app. split; [by apply Forall_replicate|]. apply Forall_app. split; [apply bytes_poly1305|].
  apply xor_bytes_ok; [done|]. apply Forall_drop, xsalsa20_bytes.
Qed.

Lemma open_verify n k c d : (32 <= d)%nat -> (d <= length c)%nat -> bytes c ->
  crypto_onetimeauth_verify (drop 16 c) (drop 32 c) (Z.of_nat d - 32) (xsalsa20 n k 32) =
    Some (if decide (take 16 (drop 16 c) = poly1305 (take (d - 32) (drop 32 c)) (xsalsa20 n k 32)) then 0 else -1).
Proof.
  intros Hd Hc Bc. replace (Z.of_nat d - 32) with (Z.of_nat (d - 32)) by lia.
  apply onetimeauth_verify_eq; [by apply Forall_drop|rewrite length_drop; lia|by apply Forall_drop|rewrite length_drop; lia|apply xsalsa20_bytes|rewrite length_xsalsa20; lia].
Qed.

(** The result is written over the message buffer, and 32 zeros in front. *)
Lemma open_write m c s d ct : (32 <= d)%nat -> (d <= length m)%nat -> length c = d -> length s = d -> drop 32 c = ct ->
  (m ← memcpy m 0 (xor_bytes c s) 0 (Z.of_nat d); m ← memset m 0 0 32; Some (0, m)) =
    Some (0, replicate 32 0 ++ xor_bytes ct (drop 32 s) ++ drop d m).
Proof.
  intros Hd Hm Lc Ls <-. assert (length (xor_bytes c s) = d) as Lx by (rewrite length_xor_bytes; lia).
  rewrite memcpy_eq by lia. cbn [mbind option_bind]. unfold memset.
  rewrite memcpy_eq by (rewrite ?length_app, ?length_take, ?length_drop, ?length_replicate; lia). cbn [mbind option_bind].
  change (Z.to_nat 0) with 0%nat. change (Z.to_nat (0 + 32)) with 32%nat. change (Z.to_nat 32) with 32%nat.
  rewrite !drop_0, Z.add_0_l, Nat2Z.id, (take_ge (xor_bytes _ _)) by lia. change (take 0 ?l) with (@nil Z). rewrite !app_nil_l.
  change (take 32 (replicate 32 0)) with (replicate 32 0). rewrite drop_app_le by lia. unfold xor_bytes. by rewrite zip_with_drop.
Qed.

Lemma take_drop_mid (c : list Z) d : (32 <= d)%nat -> drop 32 (take d c) = take (d - 32) (drop 32 c).
Proof. intros _. apply skipn_firstn_comm. Qed.

Section Secret.
Context (n k : list Z).
Hypothesis nonce_ok : bytes n /\ (24 <= length n)%nat.
Hypothesis key_ok : bytes k /\ (32 <= length k)%nat.

(** A message with 32 zeros in front is sealed; the rest of the buffer stays. *)
Lemma secretbox_eq c m d p : (32 + length p = d)%nat -> bytes p -> take d m = replicate 32 0 ++ p -> (d <= length c)%nat -> bytes c ->
  crypto_secretbox c m (Z.of_nat d) n k = Some (0, sealed n k p ++ drop d c).
Proof using nonce_ok key_ok.
  intros Hd Hp Hm Hc Bc. assert (d <= length m)%nat as Hdm.
  { apply (f_equal length) in Hm. rewrite length_take, length_app, length_replicate in Hm. lia. }
  unfold crypto_secretbox. destruct (Z.ltb_spec (Z.of_nat d) 32); [lia|]. rewrite (stream_xor_eq n k nonce_ok key_ok m d Hdm), Hm. cbn [mbind option_bind].
  unfold sealed. rewrite Hd. pose proof (length_xsalsa20 n k d) as Ls. pose proof (xsalsa20_bytes n k d) as Hs. revert Ls Hs. generalize (xsalsa20 n k d). intros s Ls Hs.
  assert (length (take 32 s) = 32%nat) as L32 by (rewrite length_take; lia).
  assert (xor_bytes (replicate 32 0 ++ p) s = take 32 s ++ xor_bytes p (drop 32 s)) as ->.
  { rewrite <- (take_drop 32 s) at 1. unfold xor_bytes at 1. rewrite zip_with_app by (by rewrite length_replicate).
    f_equal. rewrite <- L32 at 1. apply xor_zeros. }
  assert (length (xor_bytes p (drop 32 s)) = length p) as Lct by (apply length_xor_bytes; rewrite length_drop; lia).
  assert (bytes (xor_bytes p (drop 32 s))) as Hct by (apply xor_bytes_ok; [done|by apply Forall_drop]).
  revert Lct Hct. generalize (xor_bytes p (drop 32 s)). intros ct Lct Hct.
  rewrite memcpy_eq by (rewrite ?length_app, ?L32, ?Lct; lia). cbn [mbind option_bind].
  change (take (Z.to_nat 0) c) with (@nil Z). rewrite app_nil_l, drop_0, Z.add_0_l, Nat2Z.id.
  rewrite (take_ge (take 32 s ++ ct)) by (rewrite length_app; lia). rewrite <- app_assoc.
  rewrite drop_app_length' by done. replace (Z.of_nat d - 32) with (Z.of_nat (length ct)) by lia.
  assert (bytes (ct ++ drop d c)) as Hr by (apply Forall_app; split; [done|by apply Forall_drop]).
  rewrite onetimeauth_eq; [|done|rewrite length_app; lia|apply Forall_app; split; [by apply Forall_take|done]|rewrite length_app; lia].
  rewrite take_app_length. cbn [mbind option_bind].
  assert (poly1305 ct (take 32 s ++ ct ++ drop d c) = poly1305 ct (take 32 s)) as -> by (apply poly1305_key; rewrite take_app_length' by (symmetry; exact L32); by rewrite take_take).
  pose proof (length_poly1305 ct (take 32 s)) as La. revert La. generalize (poly1305 ct (take 32 s)). intros a La.
  rewrite memcpy_eq by (rewrite ?length_app; lia). cbn [mbind option_bind]. unfold memset.
  assert (length (take 16 (take 32 s)) = 16%nat) as L16 by (rewrite length_take; lia).
  rewrite memcpy_eq by (rewrite ?length_app, ?length_take, ?length_drop, ?length_app, ?length_replicate; lia).
  change (Z.to_nat 16) with 16%nat. change (Z.to_nat 0) with 0%nat. change (Z.to_nat (0 + 16)) with 16%nat. change (Z.to_nat (16 + 16)) with 32%nat.
  rewrite !drop_0, (take_ge a), (take_app_le (take 32 s)) by lia. rewrite (drop_app_length' (take 32 s)) by congruence.
  cbn [mbind option_bind]. rewrite (drop_app_length' (take 16 (take 32 s))) by congruence. change (take 16 (replicate 16 0)) with (replicate 16 0).
  rewrite <- !app_assoc. reflexivity.
Qed.

(** Opening decides by the authenticator alone. *)
Lemma secretbox_open_eq m c d : (32 <= d)%nat -> (d <= length c)%nat -> (d <= length m)%nat -> bytes c ->
  crypto_secretbox_open m c (Z.of_nat d) n k =
    Some (if decide (take 16 (drop 16 c) = poly1305 (take (d - 32) (drop 32 c)) (xsalsa20 n k 32))
          then (0, replicate 32 0 ++ xor_bytes (take (d - 32) (drop 32 c)) (drop 32 (xsalsa20 n k d)) ++ drop d m) else (-1, m)).
Proof using nonce_ok key_ok.
  intros Hd Hc Hm Bc. unfold crypto_secretbox_open. destruct (Z.ltb_spec (Z.of_nat d) 32) as [?|_]; [lia|].
  refine (bind_step _ _ _ _ (crypto_stream_spec n k nonce_ok key_ok 32) _).
  refine (bind_step _ _ _ _ (open_verify n k c d Hd Hc Bc) _).
  destruct (decide (take 16 (drop 16 c) = poly1305 (take (d - 32) (drop 32 c)) (xsalsa20 n k 32))) as [E|E]; [|reflexivity].
  refine (bind_step _ _ _ _ (stream_xor_eq n k nonce_ok key_ok c d Hc) _).
  exact (open_write m (take d c) (xsalsa20 n k d) d _ Hd Hm ltac:(rewrite length_take; lia) (length_xsalsa20 n k d) (take_drop_mid c d Hd)).
Qed.

(** What was sealed opens to the same message. *)
Lemma open_sealed m p c r : bytes p -> (32 + length p <= length m)%nat -> c = sealed n k p ++ r -> bytes r ->
  crypto_secretbox_open m c (Z.of_nat (32 + length p)) n k = Some (0, replicate 32 0 ++ p ++ drop (32 + length p) m).
Proof using nonce_ok key_ok.
  intros Hp Hm -> Hr. pose proof (length_sealed n k p) as Lse.
  rewrite secretbox_open_eq; [|lia|rewrite length_app; lia|done|apply Forall_app; split; [by apply sealed_bytes|done]].
  assert (drop 16 (sealed n k p ++ r) = poly1305 (xor_bytes p (drop 32 (xsalsa20 n k (32 + length p)))) (take 32 (xsalsa20 n k (32 + length p))) ++
    xor_bytes p (drop 32 (xsalsa20 n k (32 + length p))) ++ r) as E16 by (unfold sealed; by rewrite <- !app_assoc).
  assert (length (xor_bytes p (drop 32 (xsalsa20 n k (32 + length p)))) = length p) as Lct by (apply length_xor_bytes; rewrite length_drop, length_xsalsa20; lia).
  assert (drop 32 (sealed n k p ++ r) = xor_bytes p (drop 32 (xsalsa20 n k (32 + length p))) ++ r) as E32.
  { replace 32%nat with (16 + 16)%nat at 1 by done. rewrite <- drop_drop, E16. rewrite drop_app_length' by (by rewrite length_poly1305). done. }
  rewrite E16, E32. rewrite take_app_length' by (by rewrite length_poly1305). replace (32 + length p - 32)%nat with (length p) by lia.
  rewrite take_app_length' by done. rewrite xsalsa20_prefix by lia. rewrite decide_True by done. do 4 f_equal.
  apply xor_twice. rewrite length_drop, length_xsalsa20. lia.
Qed.

(** A length beyond the buffer is read beyond the buffer. *)
Lemma secretbox_open_overrun m c d : 32 <= d -> Z.of_nat (length c) < d -> (32 <= length c)%nat ->
  crypto_secretbox_open m c d n k = None.
Proof using nonce_ok key_ok.
  intros Hd Hc Lc. unfold crypto_secretbox_open. destruct (Z.ltb_spec d 32) as [?|_]; [lia|].
  refine (bind_step _ _ _ _ (crypto_stream_spec n k nonce_ok key_ok 32) _).
  rewrite onetimeauth_verify_overrun; [reflexivity|]. rewrite length_drop. lia.
Qed.

Lemma secretbox_open_short m c d : d < 32 -> crypto_secretbox_open m c d n k = Some (-1, m).
Proof using nonce_ok key_ok. intros Hd. unfold crypto_secretbox_open. by destruct (Z.ltb_spec d 32); [|lia]. Qed.
End Secret.

(** ** Boxes *)

Lemma beforenm_key y x : bits256_ok x -> bits256_ok y ->
  exists k s, crypto_box_beforenm y x = Some k /\ bits256_ok k /\ crypto_scalarmult x y = Some s /\ k = hsalsa20 (replicate 16 0) s sigma.
Proof.
  intros Hx Hy. unfold crypto_box_beforenm. destruct (scalarmult_x25519 x y Hx Hy) as (e & _ & _ & E). rewrite E.
  exists (hsalsa20 (replicate 16 0) (le_bytes 32 (x25519 (le_int e) (le_int y mod 2 ^ 255))) sigma). eexists.
  split; [|split; [apply hsalsa20_key|split; reflexivity]]. cbn [mbind option_bind]. apply core_hsalsa20.
  split; [split; [by apply Forall_replicate|done]|split; [apply le_bytes_ok|by rewrite length_le_bytes]|apply sigma_bytes].
Qed.

(** Two pairs of keys that exchange the same secret. *)
Definition agree (a A b B : bits256) : Prop :=
  bits256_ok a /\ bits256_ok A /\ bits256_ok b /\ bits256_ok B /\ crypto_scalarmult a B = crypto_scalarmult b A.

Lemma agree_key a A b B : agree a A b B -> exists k, crypto_box_beforenm B a = Some k /\ crypto_box_beforenm A b = Some k /\ bits256_ok k.
Proof.
  intros (Ha & HA & Hb & HB & E). destruct (beforenm_key B a Ha HB) as (k & s & Ek & Hk & _). exists k. split; [done|].
  split; [|done]. unfold crypto_box_beforenm in *. by rewrite <- E.
Qed.

(** The keys the program makes agree if the exchange of RFC 7748 does. *)
Lemma exchange_agrees a b ea eb : (forall a b, 0 <= a < 2 ^ 256 -> 0 <= b < 2 ^ 256 -> x25519 a (x25519 b 9) = x25519 b (x25519 a 9)) ->
  bits256_ok a -> bits256_ok b -> clamp a = Some ea -> clamp b = Some eb ->
  agree a (curve25519_bytes ea curve25519_basepoint9) b (curve25519_bytes eb curve25519_basepoint9).
Proof.
  intros Hx Ha Hb Ea Eb. destruct (scalarmult_x25519 a (curve25519_bytes eb curve25519_basepoint9)) as (e & E1 & He & S1); [done|..].
  { destruct (clamp_bits b Hb) as (e & E & He & _). rewrite curve25519_bytes_eq; [apply reduced_ok|congruence|concrete]. }
  destruct (scalarmult_x25519 b (curve25519_bytes ea curve25519_basepoint9)) as (f & E2 & Hf & S2); [done|..].
  { rewrite curve25519_bytes_eq; [apply reduced_ok|congruence|concrete]. }
  assert (e = ea) as -> by congruence. assert (f = eb) as -> by congruence.
  split; [done|]. split; [rewrite curve25519_bytes_eq by (done || concrete); apply reduced_ok|]. split; [done|].
  split; [rewrite curve25519_bytes_eq by (done || concrete); apply reduced_ok|]. rewrite S1, S2.
  pose proof (curve25519_x25519 ea (curve25519_bytes eb curve25519_basepoint9)) as L1.
  assert (forall u v, bits256_ok u -> bits256_ok v -> le_int (curve25519_bytes v curve25519_basepoint9) mod 2 ^ 255 = x25519 (le_int v) 9) as Hle.
  { intros u v _ Hv. rewrite curve25519_bytes_eq by (done || concrete). change (le_int curve25519_basepoint9 mod 2 ^ 255) with 9.
    destruct (x25519_reduced (le_int v) 9) as [w ->]. destruct (reduced_number _ (reduced_bytes w)) as (_ & -> & _). apply le_int_reduced. }
  rewrite (Hle ea eb), (Hle ea ea) by done. do 2 f_equal.
  pose proof (le_int_range ea (proj2 He)). pose proof (le_int_range eb (proj2 Hf)). rewrite (proj1 He), (proj1 Hf) in *. by apply Hx.
Qed.

(** A box, wherever it is written and read. *)
Lemma box_sealed a A b B n p : agree a A b B -> bytes n -> (24 <= length n)%nat -> bytes p -> Z.of_nat (length p) < 2 ^ 63 ->
  exists box, length box = (32 + length p)%nat /\ bytes box /\
    (forall c msg, bytes c -> (32 + length p <= length c)%nat -> take (32 + length p) msg = replicate 32 0 ++ p ->
      crypto_box c msg (Z.of_nat (32 + length p)) n B a = Some (0, box ++ drop (32 + length p) c)) /\
    (forall out r, bytes r -> (32 + length p <= length out)%nat ->
      crypto_box_open out (box ++ r) (Z.of_nat (32 + length p)) n A b = Some (0, replicate 32 0 ++ p ++ drop (32 + length p) out)).
Proof.
  intros Hk Hn Ln Hp Lp. destruct (agree_key _ _ _ _ Hk) as (k & Ek & Ek' & [Lk Bk]). exists (sealed n k p).
  assert (bytes k /\ (32 <= length k)%nat) as Ok by (split; [done|lia]).
  unfold crypto_box, crypto_box_open. rewrite Ek, Ek'. rewrite u64_small by lia.
  split; [apply length_sealed|]. split; [by apply sealed_bytes|]. split.
  - intros c msg Hc Lc Hm. exact (secretbox_eq n k (conj Hn Ln) Ok c msg (32 + length p) p eq_refl Hp Hm Lc Hc).
  - intros out r Hr Lo. exact (open_sealed n k (conj Hn Ln) Ok out p _ r Hp Lo eq_refl Hr).
Qed.

(** C12: For two pairs of keys that exchange the same secret, what [crypto_box] seals with
    the secret key of one and the public key of the other, [crypto_box_open] opens with
    the public key of the first and the secret key of the second: the message comes back
    behind its 32 zeros and both functions return 0; the bytes of both buffers behind
    the length given stay as they were. *)
Theorem crypto_box_roundtrip a A b B n p msg c out : agree a A b B -> bytes n -> (24 <= length n)%nat ->
  bytes p -> Z.of_nat (length p) < 2 ^ 63 -> bytes c -> (32 + length p <= length c)%nat -> (32 + length p <= length out)%nat ->
  take (32 + length p) msg = replicate 32 0 ++ p ->
  exists box, crypto_box c msg (Z.of_nat (32 + length p)) n B a = Some (0, box ++ drop (32 + length p) c) /\ length box = (32 + length p)%nat /\
    crypto_box_open out (box ++ drop (32 + length p) c) (Z.of_nat (32 + length p)) n A b =
      Some (0, replicate 32 0 ++ p ++ drop (32 + length p) out).
Proof.
  intros Hk Hn Ln Hp Lp Hc Lc Lo Hm. destruct (box_sealed a A b B n p Hk Hn Ln Hp Lp) as (box & L & _ & E & O). exists box.
  split; [by apply E|]. split; [done|]. apply O; [by apply Forall_drop|done].
Qed.

(** A pair of keys agrees with itself. *)
Lemma agree_self a : bits256_ok a -> agree a (curve25519_bytes a curve25519_basepoint9) a (curve25519_bytes a curve25519_basepoint9).
Proof.
  intros Ha. assert (bits256_ok (curve25519_bytes a curve25519_basepoint9)) as HA by (rewrite curve25519_bytes_eq by (done || concrete); apply reduced_ok).
  split; [done|]. split; [done|]. split; [done|]. split; [done|]. reflexivity.
Qed.

Lemma crypto_box_roundtrip_witness :
  exists box, crypto_box (replicate 40 1) (replicate 32 0 ++ [104; 105] ++ replicate 6 7) (Z.of_nat (32 + length [104; 105])) (replicate 24 5)
      (curve25519_bytes (replicate 32 64) curve25519_basepoint9) (replicate 32 64) = Some (0, box ++ drop (32 + length [104; 105]) (replicate 40 1)) /\
    length box = (32 + length [104; 105])%nat /\
    crypto_box_open (replicate 36 9) (box ++ drop (32 + length [104; 105]) (replicate 40 1)) (Z.of_nat (32 + length [104; 105])) (replicate 24 5)
      (curve25519_bytes (replicate 32 64) curve25519_basepoint9) (replicate 32 64) =
      Some (0, replicate 32 0 ++ [104; 105] ++ drop (32 + length [104; 105]) (replicate 36 9)).
Proof.
  exact (crypto_box_roundtrip (replicate 32 64) (curve25519_bytes (replicate 32 64) curve25519_basepoint9)
    (replicate 32 64) (curve25519_bytes (replicate 32 64) curve25519_basepoint9) (replicate 24 5) [104; 105]
    (replicate 32 0 ++ [104; 105] ++ replicate 6 7) (replicate 40 1) (replicate 36 9) (agree_self (replicate 32 64) ltac:(concrete))
    ltac:(concrete) ltac:(concrete) ltac:(concrete) ltac:(concrete) ltac:(concrete) ltac:(concrete) ltac:(concrete) ltac:(concrete)).
Defined.

(** C38: Every way [crypto_secretbox_open] can end: a length below 32 is refused; a length
    beyond the buffer makes it read behind the buffer; otherwise the message is written
    behind 32 zeros if the sixteen bytes in front of the ciphertext are its authenticator,
    and if they are not it returns -1 and writes nothing. *)
Theorem crypto_secretbox_open_spec n k m c d : bytes n -> (24 <= length n)%nat -> bytes k -> (32 <= length k)%nat -> bytes c ->
  (32 <= length c)%nat -> 0 <= d -> Z.of_nat (length c) <= Z.of_nat (length m) ->
  (d < 32 -> crypto_secretbox_open m c d n k = Some (-1, m)) /\
  (Z.of_nat (length c) < d -> crypto_secretbox_open m c d n k = None) /\
  (32 <= d <= Z.of_nat (length c) ->
    let ct := take (Z.to_nat d - 32) (drop 32 c) in
    (take 16 (drop 16 c) = poly1305 ct (xsalsa20 n k 32) ->
      crypto_secretbox_open m c d n k =
        Some (0, replicate 32 0 ++ xor_bytes ct (drop 32 (xsalsa20 n k (Z.to_nat d))) ++ drop (Z.to_nat d) m)) /\
    (take 16 (drop 16 c) <> poly1305 ct (xsalsa20 n k 32) -> crypto_secretbox_open m c d n k = Some (-1, m))).
Proof.
  intros Hn Ln Hk Lk Hc Lc Hd Hm. split; [|split].
  - exact (secretbox_open_short n k (conj Hn Ln) (conj Hk Lk) m c d).
  - intros Hl. apply (secretbox_open_overrun n k (conj Hn Ln) (conj Hk Lk) m c d); [lia|done|done].
  - intros Hr ct. pose proof (secretbox_open_eq n k (conj Hn Ln) (conj Hk Lk) m c (Z.to_nat d) ltac:(lia) ltac:(lia) ltac:(lia) Hc) as E.
    rewrite Z2Nat.id in E by done. fold ct in E. rewrite E. by split; intros Ht; [rewrite decide_True by done|rewrite decide_False by done].
Qed.

Lemma crypto_secretbox_open_spec_witness :
  (36 < 32 -> crypto_secretbox_open (replicate 40 0) (replicate 40 3) 36 (replicate 24 5) (replicate 32 9) = Some (-1, replicate 40 0)) /\
  (Z.of_nat (length (replicate 40 3)) < 36 -> crypto_secretbox_open (replicate 40 0) (replicate 40 3) 36 (replicate 24 5) (replicate 32 9) = None) /\
  (32 <= 36 <= Z.of_nat (length (replicate 40 3)) ->
    let ct := take (Z.to_nat 36 - 32) (drop 32 (replicate 40 3)) in
    (take 16 (drop 16 (replicate 40 3)) = poly1305 ct (xsalsa20 (replicate 24 5) (replicate 32 9) 32) ->
      crypto_secretbox_open (replicate 40 0) (replicate 40 3) 36 (replicate 24 5) (replicate 32 9) =
        Some (0, replicate 32 0 ++ xor_bytes ct (drop 32 (xsalsa20 (replicate 24 5) (replicate 32 9) (Z.to_nat 36))) ++ drop (Z.to_nat 36) (replicate 40 0))) /\
    (take 16 (drop 16 (replicate 40 3)) <> poly1305 ct (xsalsa20 (replicate 24 5) (replicate 32 9) 32) ->
      crypto_secretbox_open (replicate 40 0) (replicate 40 3) 36 (replicate 24 5) (replicate 32 9) = Some (-1, replicate 40 0))).
Proof.
  exact (crypto_secretbox_open_spec (replicate 24 5) (replicate 32 9) (replicate 40 0) (replicate 40 3) 36 ltac:(concrete) ltac:(concrete) ltac:(concrete)
    ltac:(concrete) ltac:(concrete) ltac:(concrete) ltac:(concrete) ltac:(concrete)).
Defined.
