(* ===== verification/SaM.v ===== *)
(** * SaM: the ternary sponge of the proofs of work

    Models [plugins/utils/SaM.c]: the permutation of 729 trits, absorbing, squeezing, the
    hash with the number a proof of work is measured by, the search for and the check of
    a nonce, and the stream cipher that signs transactions.  The table [SAM_INDICES],
    which the program fills once at its start, is an argument; memory that the code does
    not initialise is an argument too, and the theorems hold whatever it contains.  The
    vectors of the self-test [SaM_test] are those of another hash: the one with the two
    constants of the filling exchanged. *)

From S2P Require Import Prelude Bits Field25519 Salsa.

(** ** The code *)

Definition SAM_HASH_SIZE : Z := 243.
Definition SAM_STATE_SIZE : Z := 729.
Definition SAM_NUMBER_OF_ROUNDS : Z := 9.
Definition SAM_DELTA : Z := 254.
Definition SAMHIT_LIMIT : Z := 7625597484987.
Definition TRIT_FALSE : Z := 1.
Definition TRIT_TRUE : Z := -1.

(** The second component is [currentIndex]. *)
Definition prepare_step (i : Z) (s : list Z * Z) : option (list Z * Z) :=
  let '(indices, currentIndex) := s in
  let nextIndex := Z.rem (currentIndex + SAM_DELTA) SAM_STATE_SIZE in
  indices ← aset indices i nextIndex; Some (indices, nextIndex).

Definition SaM_PrepareIndices (indices : list Z) : option (list Z) :=
  fst <$> for_ prepare_step 0 (Z.to_nat SAM_STATE_SIZE) (indices, 0).

Definition SaM_Bias (a b : Z) : Z := if a =? 0 then 0 else if a =? - b then a else - a.
Definition SaM_Sum (a b : Z) : Z := if a =? b then - a else a + b.

Definition SAMSUM : list (list Z) := [[1; -1; 0]; [-1; 0; 1]; [0; 1; -1]].
Definition SAMBIAS : list (list Z) := [[1; 1; -1]; [0; 0; 0]; [1; -1; -1]].

Definition trit_entry (table : list (list Z)) (a b : Z) : option Z := row ← aget table (a + 1); aget row (1 + b).

(** [leftPart.trits], [rightPart.trits] up to [i], and [currentIndex]. *)
Definition split_step (indices trits : list Z) (i : Z) (s : list Z * list Z * Z) : option (list Z * list Z * Z) :=
  let '(leftPart, rightPart, currentIndex) := s in
  nextIndex ← aget indices i;
  a ← aget trits currentIndex; b ← aget trits nextIndex;
  l ← trit_entry SAMBIAS a b; r ← trit_entry SAMBIAS b a;
  Some (leftPart ++ [l], rightPart ++ [r], nextIndex).

(** The new [state->trits] up to [i], and [currentIndex]. *)
Definition merge_step (indices leftPart rightPart : list Z) (i : Z) (s : list Z * Z) : option (list Z * Z) :=
  let '(trits, currentIndex) := s in
  nextIndex ← aget indices i;
  l ← aget leftPart currentIndex; r ← aget rightPart nextIndex;
  t ← trit_entry SAMSUM l r;
  Some (trits ++ [t], nextIndex).

Definition sam_round (indices : list Z) (s : list Z * Z) : option (list Z * Z) :=
  let '(trits, currentIndex) := s in
  '(leftPart, rightPart, currentIndex) ← for_ (split_step indices trits) 0 (Z.to_nat SAM_STATE_SIZE) ([], [], currentIndex);
  for_ (merge_step indices leftPart rightPart) 0 (Z.to_nat SAM_STATE_SIZE) ([], currentIndex).

Definition SaM_SplitAndMerge (indices trits : list Z) : option (list Z) :=
  fst <$> for_ (fun _ => sam_round indices) 0 (Z.to_nat SAM_NUMBER_OF_ROUNDS) (trits, 0).

Record SaM_info := mk_SaM_info { sam_bits : list Z; sam_trits : list Z; sam_hash : list Z }.

(** The filling of the rest of a block, and of the second and third part of the state. *)
Definition fill_trit (i : Z) (trits : list Z) : option (list Z) :=
  aset trits i (if negb (Z.land i 1 =? 0) then TRIT_FALSE else TRIT_TRUE).

Definition SaM_Initialize (state : SaM_info) : option SaM_info :=
  trits ← for_ fill_trit SAM_HASH_SIZE (Z.to_nat (SAM_STATE_SIZE - SAM_HASH_SIZE)) (sam_trits state);
  Some (mk_SaM_info (sam_bits state) trits (sam_hash state)).

(** [output] is [state->hash], the only place it is called with. *)
Definition SaM_Squeeze (indices : list Z) (state : SaM_info) : option SaM_info :=
  hash ← memcpy (sam_hash state) 0 (sam_trits state) 0 SAM_HASH_SIZE;
  trits ← SaM_SplitAndMerge indices (sam_trits state);
  Some (mk_SaM_info (sam_bits state) trits hash).

(** A block of the input at the start of the state, with its filling. *)
Definition load_trits (trits input : list Z) (inputSize remainder : Z) : option (list Z) :=
  let size := if SAM_HASH_SIZE <=? remainder then SAM_HASH_SIZE else remainder in
  trits ← memcpy trits 0 input (inputSize - remainder) size;
  if size <? SAM_HASH_SIZE then for_ fill_trit size (Z.to_nat (SAM_HASH_SIZE - size)) trits else Some trits.

(** The rounds of the [do] loop; [blocks] bounds those that follow the first. *)
Fixpoint absorb_loop (blocks : nat) (indices trits input : list Z) (inputSize remainder : Z) : option (list Z) :=
  trits ← load_trits trits input inputSize remainder;
  let remainder := remainder - SAM_HASH_SIZE in
  trits ← SaM_SplitAndMerge indices trits;
  if 0 <? remainder then
    match blocks with
    | O => None
    | S blocks => absorb_loop blocks indices trits input inputSize remainder
    end
  else Some trits.

Definition _SaM_Absorb (indices : list Z) (state : SaM_info) (input : list Z) (inputSize : Z) : option SaM_info :=
  trits ← absorb_loop (Z.to_nat (inputSize / SAM_HASH_SIZE)) indices (sam_trits state) input inputSize inputSize;
  Some (mk_SaM_info (sam_bits state) trits (sam_hash state)).

(** The bits of one of the two inputs, which may be NULL, behind the [trits] so far; the
    buffer has [room] elements. *)
Definition push_bits (room : Z) (input : option (list Z)) (inputSize : Z) (trits : list Z) : option (list Z) :=
  match input with
  | None => Some trits
  | Some input =>
    if inputSize =? 0 then Some trits
    else
      for_ (fun i trits =>
        b ← aget input (Z.shiftr i 3);
        if Z.of_nat (length trits) <? room then
          Some (trits ++ [if negb (Z.land b (Z.shiftl 1 (Z.land i 7)) =? 0) then 1 else 0])
        else None) 0 (Z.to_nat (u32 (Z.shiftl inputSize 3))) trits
  end.

(** The array on the stack has 4096 elements; [malloc] of a negative [size], taken as an
    unsigned one, returns nothing. *)
Definition trits_room (inputSize inputSize2 : Z) : Z :=
  let size := s32 (u32 (Z.shiftl (u32 (inputSize + inputSize2)) 3)) in
  if size <? 0 then 0 else if size <? 4096 then 4096 else size.

Definition SaM_Absorb (indices : list Z) (state : SaM_info) (input : option (list Z)) (inputSize : Z)
    (input2 : option (list Z)) (inputSize2 : Z) : option SaM_info :=
  let room := trits_room inputSize inputSize2 in
  trits ← push_bits room input inputSize [];
  trits ← push_bits room input2 inputSize2 trits;
  _SaM_Absorb indices state trits (Z.of_nat (length trits)).

(** [rawbits] of [n] trits from place [i] of the hash on. *)
Definition raw_trits (hash : list Z) (i : Z) (n : nat) : option Z :=
  for_ (fun j rawbits => t ← aget hash (i + j); Some (u32 (rawbits * 3 + t + 1))) 0 n 0.

Definition emit_word (hash : list Z) (i : Z) : option Z :=
  rawbits ← raw_trits hash (12 * i) 12; Some (u32 (Z.land (u64 (Z.shiftl rawbits 19) / 531441) 0x7ffff)).

(** [state->bits] and [bits64]. *)
Definition emit_step (bits19 : list Z) (i : Z) (s : list Z * Z) : option (list Z * Z) :=
  let '(bits, bits64) := s in
  w ← aget bits19 i;
  bits ← memcpy bits (i * 2) (le_bytes 4 w) 0 2;
  Some (bits, Z.lor (u64 (Z.shiftl bits64 3)) (Z.land (Z.shiftr w 16) 7)).

Definition emit_bits (bits hash : list Z) : option (list Z) :=
  bits19 ← for_ (fun i bits19 => w ← emit_word hash i; Some (bits19 ++ [w])) 0 (Z.to_nat (SAM_HASH_SIZE / 12)) [];
  rawbits ← raw_trits hash 240 3;
  let rawbits := Z.land (u32 (Z.shiftl rawbits 4) / 27) 0xf in
  '(bits, bits64) ← for_ (emit_step bits19) 0 20 (bits, 0);
  let bits64 := Z.lor (u64 (Z.shiftl bits64 4)) (Z.land rawbits 0xf) in
  memcpy bits 40 (le_bytes 8 bits64) 0 8.

(** The state holds the result [state->bits]. *)
Definition SaM_emit (indices : list Z) (state : SaM_info) : option SaM_info :=
  state ← SaM_Squeeze indices state;
  bits ← emit_bits (sam_bits state) (sam_hash state);
  Some (mk_SaM_info bits (sam_trits state) (sam_hash state)).

(** The bytes of a round of [SaM_encrypt]: [xorpad] and [dest], which may be NULL. *)
Definition encrypt_byte (pad src : list Z) (pos i : Z) (s : list Z * option (list Z)) : option (list Z * option (list Z)) :=
  let '(xorpad, dest) := s in
  p ← aget pad i; c ← aget src (pos + i);
  xorpad ← aset xorpad i (Z.lxor p c);
  dest ← match dest with Some dest => x ← aget xorpad i; dest ← aset dest (pos + i) x; Some (Some dest) | None => Some None end;
  Some (xorpad, dest).

(** The [while] loop: [src] and [dest] have moved on by [pos]; [blocks] bounds the rounds. *)
Fixpoint encrypt_loop (blocks : nat) (indices : list Z) (state : SaM_info) (xorpad : list Z) (dest : option (list Z)) (src : list Z)
    (pos len : Z) : option (list Z * option (list Z)) :=
  if 0 <=? len then
    match blocks with
    | O => None
    | S blocks =>
      state ← SaM_emit indices state;
      let n := Z.min 48 (len + 1) in
      '(xorpad, dest) ← for_ (encrypt_byte (sam_bits state) src pos) 0 (Z.to_nat n) (xorpad, dest);
      encrypt_loop blocks indices state xorpad dest src (pos + n) (len - n)
    end
  else Some (xorpad, dest).

(** The result [xorpad], and [dest]; [junk] and [xorpad] are what the stack holds. *)
Definition SaM_encrypt (indices : list Z) (junk : SaM_info) (xorpad : list Z) (dest : option (list Z)) (src : list Z) (len : Z)
    (password : list Z) (timestamp : Z) : option (list Z * option (list Z)) :=
  state ← SaM_Initialize junk;
  state ← SaM_Absorb indices state (Some password) 48 (Some (le_bytes 4 timestamp)) 4;
  encrypt_loop (Z.to_nat (len / 48 + 1)) indices state xorpad dest src 0 len.

Definition SaM_hit (state : SaM_info) : option Z :=
  for_ (fun i hit => t ← aget (sam_hash state) i; Some (u64 (hit * 3 + t + 1))) 0 27 0.

(** The result, and [*sigp]. *)
Definition SaM (indices : list Z) (junk : SaM_info) (input : option (list Z)) (inputSize : Z) (input2 : option (list Z)) (inputSize2 : Z)
    : option (Z * list Z) :=
  state ← SaM_Initialize junk;
  state ← SaM_Absorb indices state input inputSize input2 inputSize2;
  state ← SaM_emit indices state;
  hit ← SaM_hit state;
  Some (hit, sam_bits state).

Definition SaM_threshold (leverage : Z) : option Z :=
  let leverage := if 26 <? leverage then 26 else leverage in
  divisor ← for_ (fun _ divisor => Some (u64 (divisor * 3))) 0 (Z.to_nat leverage) 1;
  if divisor =? 0 then None else Some (SAMHIT_LIMIT / divisor).

(** [SaM_nonce] with [maxmillis] 0: the check of a nonce. *)
Definition check_nonce (indices : list Z) (junk : SaM_info) (data : list Z) (datalen leverage nonce : Z) : option Z :=
  if leverage =? 0 then Some 0
  else
    threshold ← SaM_threshold leverage;
    '(hit, _) ← SaM indices junk (Some data) (u32 datalen) (Some (le_bytes 4 nonce)) 4;
    if threshold <=? hit then
      if Z.shiftl 1 32 <? u64 (threshold - hit) then Some 0xffffffff else Some (u32 (threshold - hit))
    else Some 0.

(** The search: [draws] are the nonces drawn until the time is over. *)
Fixpoint find_nonce (indices : list Z) (junk : SaM_info) (data : list Z) (datalen leverage threshold : Z) (draws : list Z) : option Z :=
  match draws with
  | [] => Some 0
  | nonce :: draws =>
    '(hit, _) ← SaM indices junk (Some data) (u32 datalen) (Some (le_bytes 4 nonce)) 4;
    if hit <? threshold then _ ← check_nonce indices junk data datalen leverage nonce; Some nonce
    else find_nonce indices junk data datalen leverage threshold draws
  end.

Definition SaM_nonce (indices : list Z) (junk : SaM_info) (data : list Z) (datalen leverage maxmillis nonce : Z) (draws : list Z) : option Z :=
  if leverage =? 0 then Some 0
  else if maxmillis =? 0 then check_nonce indices junk data datalen leverage nonce
  else threshold ← SaM_threshold leverage; find_nonce indices junk data datalen leverage threshold draws.

(** The vectors of [SaM_test]. *)
Definition InputA : list Z := [0].
Definition OutputA : list Z :=
  [1; -1; 1; 1; -1; -1; 0; -1; 0; 0; 0; 1; -1; 0; 1; 1; 0; -1; 1; 0; 0; 0; 1; 1; -1; -1; 0; 0; 1; -1; -1; 0; 0; -1; 1;
   -1; 0; 0; -1; -1; -1; -1; 0; 0; 0; -1; 1; 0; 1; 0; -1; -1; -1; -1; 0; 1; -1; 1; -1; 0; 1; 1; 0; 0; -1; 0; 1; 1; -1;
   1; 0; 0; 0; 1; 0; -1; 1; 1; 0; -1; -1; 1; 1; -1; 1; 1; 1; 1; -1; 0; 1; -1; 1; -1; 0; 0; 1; 1; 1; 1; -1; 1; 1; -1;
   0; 0; 1; 1; 0; 0; -1; 1; 1; -1; 0; 0; -1; 0; 0; 1; 0; 0; 0; -1; 1; -1; 0; 1; -1; 0; -1; 1; 1; 1; -1; 0; 1; 1; -1;
   -1; 0; 0; 1; -1; -1; -1; 0; -1; -1; 1; 1; 0; 1; 0; 1; -1; 1; -1; -1; 0; 0; -1; 1; 0; 0; 0; 0; 1; 1; 1; 0; 0; 1; -1;
   1; -1; 0; 0; 1; 0; -1; -1; -1; 1; -1; 1; -1; -1; 1; 0; 1; -1; 1; -1; 1; -1; 1; 0; 1; 0; 1; -1; -1; -1; -1; 1; 0; 0;
   -1; -1; 1; 0; 1; 1; -1; 1; -1; -1; -1; 0; 0; -1; 0; 1; 1; 1; 0; 1; 1; -1; 1; 1; 0; 1; 1; 1; 0; -1; 0; 0; -1; -1; -1].
Definition InputB : list Z := [0].
Definition OutputB : list Z :=
  [-1; -1; -1; 1; 0; 0; 1; 1; 0; 1; 0; 0; -1; 0; -1; 0; 0; 0; 0; 1; 1; 0; -1; 1; 0; 1; 0; 1; -1; 0; -1; 0; 0; -1; 1;
   -1; -1; 0; 0; 1; -1; -1; 0; 0; -1; 1; 1; 0; 1; 0; 0; 1; -1; 1; 0; -1; -1; 1; -1; 0; -1; 1; -1; 0; 0; 0; 1; -1; 0;
   1; -1; 1; 1; 1; 1; -1; 1; -1; -1; 1; 0; 1; -1; -1; -1; 0; 1; 0; 0; -1; 1; 1; 0; 0; -1; 1; 1; 0; -1; -1; 0; 0; 0;
   -1; 1; 0; -1; 0; -1; 0; -1; 0; -1; 0; 1; 0; 1; 0; -1; 1; 0; -1; 1; 1; -1; 1; 0; 1; -1; -1; 1; 1; 0; -1; 0; -1; -1;
   -1; 1; -1; -1; 1; 1; 1; 1; 1; -1; -1; 1; 0; 0; 0; 0; -1; -1; 1; 1; 1; -1; 1; 0; -1; 1; 0; 1; 0; 0; -1; -1; 1; 1; 0;
   0; 1; 0; 0; 0; 0; -1; 1; 0; 0; 1; 1; 0; -1; 1; -1; 1; 0; -1; 0; 0; 1; -1; -1; 0; 0; 0; 1; 0; 1; 1; 0; 1; 1; -1; 1;
   -1; 1; 1; 1; -1; 0; 1; 0; -1; 1; 0; 1; 1; 0; -1; 1; 1; -1; 0; -1; 1; 1; 0; -1; -1; -1; -1; 1; 0; 0; -1; -1; -1; 0;
   1].
Definition InputC : list Z := [1].
Definition OutputC : list Z :=
  [1; -1; 1; 1; -1; -1; 0; -1; 0; 0; 0; 1; -1; 0; 1; 1; 0; -1; 1; 0; 0; 0; 1; 1; -1; -1; 0; 0; 1; -1; -1; 0; 0; -1; 1;
   -1; 0; 0; -1; -1; -1; -1; 0; 0; 0; -1; 1; 0; 1; 0; -1; -1; -1; -1; 0; 1; -1; 1; -1; 0; 1; 1; 0; 0; -1; 0; 1; 1; -1;
   1; 0; 0; 0; 1; 0; -1; 1; 1; 0; -1; -1; 1; 1; -1; 1; 1; 1; 1; -1; 0; 1; -1; 1; -1; 0; 0; 1; 1; 1; 1; -1; 1; 1; -1;
   0; 0; 1; 1; 0; 0; -1; 1; 1; -1; 0; 0; -1; 0; 0; 1; 0; 0; 0; -1; 1; -1; 0; 1; -1; 0; -1; 1; 1; 1; -1; 0; 1; 1; -1;
   -1; 0; 0; 1; -1; -1; -1; 0; -1; -1; 1; 1; 0; 1; 0; 1; -1; 1; -1; -1; 0; 0; -1; 1; 0; 0; 0; 0; 1; 1; 1; 0; 0; 1; -1;
   1; -1; 0; 0; 1; 0; -1; -1; -1; 1; -1; 1; -1; -1; 1; 0; 1; -1; 1; -1; 1; -1; 1; 0; 1; 0; 1; -1; -1; -1; -1; 1; 0; 0;
   -1; -1; 1; 0; 1; 1; -1; 1; -1; -1; -1; 0; 0; -1; 0; 1; 1; 1; 0; 1; 1; -1; 1; 1; 0; 1; 1; 1; 0; -1; 0; 0; -1; -1; -1].
Definition InputD : list Z := [-1].
Definition OutputD : list Z :=
  [-1; 0; 0; 1; 1; 0; -1; 1; 1; 0; 1; 0; -1; 1; -1; 0; 0; 1; 0; -1; 0; -1; 1; 1; 1; 1; -1; 1; -1; 1; -1; 0; 0; 0; -1;
   -1; 1; 1; -1; 1; -1; 0; -1; 1; -1; 0; 0; -1; 0; 0; 0; -1; -1; 0; -1; 1; -1; 1; 1; 0; -1; 1; -1; 0; 0; 1; -1; 1; -1;
   0; 0; 1; 1; -1; -1; -1; -1; 1; 0; 0; -1; 0; 0; -1; 0; 0; 1; -1; -1; -1; -1; 1; 1; 0; 0; -1; 1; -1; 1; 0; 0; -1; 1;
   -1; 0; 1; 1; -1; 1; -1; 0; -1; -1; 0; 0; 0; -1; 0; 0; -1; 1; -1; 0; -1; 1; -1; 1; 1; -1; -1; 0; 0; 0; -1; 1; -1; 1;
   -1; 1; 1; 1; 1; -1; 0; -1; 0; 1; 0; 0; -1; 1; -1; 0; 1; 0; 1; 1; -1; 0; 1; 1; 0; 0; -1; -1; -1; -1; 0; 1; 0; -1;
   -1; 0; 0; 1; 1; 1; 0; 0; -1; 1; -1; 0; 1; 0; 1; 0; 0; 1; 0; 1; 0; 1; 1; -1; -1; 0; -1; -1; 0; -1; -1; 1; 0; 0; -1;
   -1; 1; 0; 0; 0; 1; 1; 0; -1; 1; -1; -1; 1; -1; -1; 1; 1; 0; 1; 0; 0; 0; -1; 1; 0; -1; -1; 0; 1; -1; 0; 0; 0; -1;
   -1; 1; 1].
Definition InputE : list Z := replicate 1000 0.
Definition OutputE : list Z :=
  [0; 1; 0; 1; -1; -1; 1; -1; -1; 0; 0; 1; 1; -1; -1; -1; 0; 1; 0; 0; -1; -1; 1; 1; 1; -1; 0; -1; -1; -1; -1; -1; 1;
   -1; -1; -1; 0; 0; 1; 1; 0; 1; -1; -1; 0; -1; -1; 1; 1; 1; -1; 1; 1; 0; -1; 0; 1; -1; 1; -1; 1; 1; -1; 1; 0; -1; -1;
   -1; 0; 0; 1; 1; 0; -1; 0; 0; -1; 0; 0; 1; 1; -1; 0; 1; -1; -1; 1; -1; 1; -1; 0; 1; -1; 1; 0; 1; -1; -1; -1; 0; 1;
   -1; 0; 1; -1; 1; 0; -1; 1; -1; 1; 0; -1; -1; 1; 0; 1; 0; 0; 1; 1; 1; -1; 1; -1; -1; 0; 1; 0; 0; 0; 0; 0; 0; 0; 0;
   0; 1; -1; -1; 1; 0; 0; -1; -1; -1; -1; 0; -1; -1; -1; -1; -1; 1; 0; 0; 1; 0; -1; -1; 0; 0; -1; -1; 1; -1; 0; -1; 1;
   -1; 0; 1; -1; 0; 1; 1; -1; 1; -1; 1; -1; 0; 0; 0; -1; 0; -1; 1; -1; 1; 1; 1; 1; 1; 0; -1; 0; -1; -1; 0; 0; -1; -1;
   1; -1; -1; -1; 1; 0; 0; 0; 1; 0; 1; 0; 1; -1; 0; -1; -1; 1; -1; -1; 1; 1; 0; 1; 1; 1; 1; 0; 1; 0; 0; -1; -1; -1;
   -1; 1; 0; -1; 0; 0].

(** The result [errs] of a test; the vectors are only printed when they differ. *)
Definition _SaM_test (indices : list Z) (junk : SaM_info) (testvector : list Z) (n : Z) (checkvals : list Z) : option Z :=
  state ← SaM_Initialize junk;
  state ← _SaM_Absorb indices state testvector n;
  state ← SaM_emit indices state;
  for_ (fun i errs => h ← aget (sam_hash state) i; c ← aget checkvals i;
    Some (if negb (h =? c) then errs + 1 else errs)) 0 243 0.

(** ** The permutation *)

Definition is_trit (x : Z) : Prop := -1 <= x <= 1.
Definition trits (l : list Z) : Prop := Forall is_trit l.

#[export] Instance is_trit_dec x : Decision (is_trit x).
Proof. unfold is_trit. apply _. Defined.
#[export] Instance trits_dec l : Decision (trits l).
Proof. unfold trits. apply _. Defined.

(** The element at a place of the circle of 729. *)
Definition at729 (t : list Z) (k : Z) : Z := nth (Z.to_nat (k mod 729)) t 0.

(** A round without the walk over the table: four places determine a trit. *)
Definition new_trit (t : list Z) (k : Z) : Z :=
  SaM_Sum (SaM_Bias (at729 t (364 * k)) (at729 t (364 * k + 254)))
          (SaM_Bias (at729 t (364 * k + 618)) (at729 t (364 * k + 364))).

Definition round729 (t : list Z) : list Z := (fun k => new_trit t (Z.of_nat k)) <$> seq 0 729.
Definition permute (t : list Z) : list Z := Nat.iter 9 round729 t.

(** Walking by 254 from 0, the place [i + 1] is entry [i]. *)
Definition indices_ok (indices : list Z) : Prop := forall i, 0 <= i < 729 -> aget indices i = Some ((254 * (i + 1)) mod 729).
Definition state_ok (t : list Z) : Prop := length t = 729%nat /\ trits t.

Lemma PrepareIndices_ok l : length l = 729%nat -> exists indices, SaM_PrepareIndices l = Some indices /\ indices_ok indices.
Proof.
  intros Hl. unfold SaM_PrepareIndices, SAM_STATE_SIZE. change (Z.to_nat 729) with 729%nat.
  destruct (for_inv (fun k s => length s.1 = 729%nat /\ s.2 = (254 * k) mod 729 /\
    forall i, 0 <= i < k -> aget s.1 i = Some ((254 * (i + 1)) mod 729)) prepare_step 729 0 (l, 0)) as ([ind c] & E & H & _ & Hi).
  - split; [done|]. split; [done|]. lia.
  - intros k [s c] Hk (Hs & Hc & Hi). cbn [fst snd] in *. unfold prepare_step, SAM_DELTA, SAM_STATE_SIZE.
    rewrite aset_in_range by lia. eexists. split; [reflexivity|]. cbn [fst snd].
    assert (Z.rem (c + 254) 729 = (254 * (k + 1)) mod 729) as ->.
    { pose proof (Z.mod_pos_bound (254 * k) 729). rewrite Z.rem_mod_nonneg by lia. subst c. rewrite Z.add_mod_idemp_l by lia. f_equal. lia. }
    split; [by rewrite length_insert|]. split; [done|]. intros i Hlt. destruct (decide (i = k)) as [->|].
    + apply aget_lookup; [lia|]. by rewrite list_lookup_insert_eq by lia.
    + specialize (Hi i ltac:(lia)). apply aget_Some in Hi as [Hi0 Hi]. apply aget_lookup; [lia|]. by rewrite list_lookup_insert_ne by lia.
  - rewrite E. cbn [fmap option_fmap option_map fst]. exists ind. by split.
Qed.

Lemma Bias_trit a b : is_trit a -> is_trit (SaM_Bias a b).
Proof. unfold is_trit, SaM_Bias. intros. repeat case_match; lia. Qed.

Lemma Sum_trit a b : is_trit a -> is_trit b -> is_trit (SaM_Sum a b).
Proof. unfold is_trit, SaM_Sum. intros. case_match; lia. Qed.

(** The tables are the two functions. *)
Lemma trit_entry_spec a b : is_trit a -> is_trit b ->
  trit_entry SAMBIAS a b = Some (SaM_Bias a b) /\ trit_entry SAMSUM a b = Some (SaM_Sum a b).
Proof.
  unfold is_trit. intros Ha Hb. assert (a = -1 \/ a = 0 \/ a = 1) as [->|[->| ->]] by lia; assert (b = -1 \/ b = 0 \/ b = 1) as [->|[->| ->]] by lia; done.
Qed.

Lemma at729_get t k : length t = 729%nat -> aget t (k mod 729) = Some (at729 t k).
Proof. intros Ht. pose proof (Z.mod_pos_bound k 729). apply aget_nth. lia. Qed.

Lemma at729_trit t k : state_ok t -> is_trit (at729 t k).
Proof.
  intros [Ht Hk]. pose proof (at729_get t k Ht) as E. apply aget_Some in E as [_ E]. revert E. by apply Forall_lookup_1.
Qed.

Lemma at729_mod t k j : k mod 729 = j mod 729 -> at729 t k = at729 t j.
Proof. unfold at729. by intros ->. Qed.

Lemma at729_seq f k : at729 ((fun i => f (Z.of_nat i)) <$> seq 0 729) k = f (k mod 729).
Proof.
  pose proof (Z.mod_pos_bound k 729). unfold at729. erewrite nth_lookup_Some.
  2: { rewrite list_lookup_fmap, lookup_seq_lt by lia. reflexivity. }
  cbn [Nat.add]. f_equal. lia.
Qed.

Section Round.
Context (indices t : list Z).
Hypothesis Hi : indices_ok indices.
Hypothesis Ht : state_ok t.

Definition split_l (k : Z) : Z := SaM_Bias (at729 t (254 * k)) (at729 t (254 * (k + 1))).
Definition split_r (k : Z) : Z := SaM_Bias (at729 t (254 * (k + 1))) (at729 t (254 * k)).
Definition upto (f : Z -> Z) (n : Z) : list Z := (fun i => f (Z.of_nat i)) <$> seq 0 (Z.to_nat n).

Lemma upto_next f n : 0 <= n -> upto f (n + 1) = upto f n ++ [f n].
Proof.
  intros Hn. unfold upto. replace (Z.to_nat (n + 1)) with (S (Z.to_nat n)) by lia. rewrite seq_S, fmap_app. cbn [fmap list_fmap Nat.add]. by rewrite Z2Nat.id.
Qed.

Lemma at729_upto f k : at729 (upto f 729) k = f (k mod 729).
Proof. apply at729_seq. Qed.

Lemma split_loop : for_ (split_step indices t) 0 729 ([], [], 0) = Some (upto split_l 729, upto split_r 729, 0).
Proof using Hi Ht.
  destruct (for_inv (fun k s => s = (upto split_l k, upto split_r k, (254 * k) mod 729)) (split_step indices t) 729 0 ([], [], 0))
    as (s & -> & ->); [done| |done].
  intros k s Hk ->. unfold split_step. rewrite Hi by lia. cbn [mbind option_bind]. rewrite !at729_get by apply Ht. cbn [mbind option_bind].
  destruct (trit_entry_spec _ _ (at729_trit t (254 * k) Ht) (at729_trit t (254 * (k + 1)) Ht)) as [-> _].
  destruct (trit_entry_spec _ _ (at729_trit t (254 * (k + 1)) Ht) (at729_trit t (254 * k) Ht)) as [-> _].
  cbn [mbind option_bind]. eexists. split; [done|]. rewrite !upto_next by lia. done.
Qed.

Lemma merge_loop : for_ (merge_step indices (upto split_l 729) (upto split_r 729)) 0 729 ([], 0) = Some (upto (new_trit t) 729, 0).
Proof using Hi Ht.
  destruct (for_inv (fun k s => s = (upto (new_trit t) k, (254 * k) mod 729)) (merge_step indices (upto split_l 729) (upto split_r 729)) 729 0 ([], 0))
    as (s & -> & ->); [done| |done].
  intros k s Hk ->. unfold merge_step. rewrite Hi by lia. cbn [mbind option_bind].
  rewrite !at729_get by (unfold upto; by rewrite length_fmap, length_seq). cbn [mbind option_bind].
  rewrite !at729_upto. unfold split_l, split_r.
  rewrite (at729_mod t (254 * (254 * k mod 729)) (364 * k)) by (rewrite Z.mul_mod_idemp_r by lia; replace (254 * (254 * k)) with (364 * k + 88 * k * 729) by lia; by rewrite Z.mod_add).
  rewrite (at729_mod t (254 * (254 * k mod 729 + 1)) (364 * k + 254)).
  2: { rewrite Z.mul_add_distr_l, <- Z.add_mod_idemp_l, Z.mul_mod_idemp_r by lia. replace (254 * (254 * k)) with (364 * k + 88 * k * 729) by lia.
       by rewrite Z.mod_add, Z.add_mod_idemp_l by lia. }
  rewrite (at729_mod t (254 * (254 * (k + 1) mod 729)) (364 * k + 364)) by (rewrite Z.mul_mod_idemp_r by lia; replace (254 * (254 * (k + 1))) with (364 * k + 364 + 88 * (k + 1) * 729) by lia; by rewrite Z.mod_add).
  rewrite (at729_mod t (254 * (254 * (k + 1) mod 729 + 1)) (364 * k + 618)).
  2: { rewrite Z.mul_add_distr_l, <- Z.add_mod_idemp_l, Z.mul_mod_idemp_r by lia. replace (254 * (254 * (k + 1))) with (364 * k + 364 + 88 * (k + 1) * 729) by lia.
       rewrite Z.mod_add, Z.add_mod_idemp_l by lia. f_equal. lia. }
  destruct (trit_entry_spec _ _ (Bias_trit _ (at729 t (364 * k + 254)) (at729_trit t (364 * k) Ht)) (Bias_trit _ (at729 t (364 * k + 364)) (at729_trit t (364 * k + 618) Ht))) as [_ ->].
  cbn [mbind option_bind]. eexists. split; [done|]. by rewrite upto_next by lia.
Qed.

Lemma round_eq : sam_round indices (t, 0) = Some (round729 t, 0) /\ state_ok (round729 t).
Proof using Hi Ht.
  split.
  - unfold sam_round, SAM_STATE_SIZE. change (Z.to_nat 729) with 729%nat. rewrite split_loop. cbn [mbind option_bind]. apply merge_loop.
  - split; [unfold round729; by rewrite length_fmap, length_seq|]. apply Forall_fmap, Forall_true. intros k.
    apply Sum_trit; apply Bias_trit; by apply at729_trit.
Qed.
End Round.

Lemma SplitAndMerge_eq indices t : indices_ok indices -> state_ok t -> SaM_SplitAndMerge indices t = Some (permute t) /\ state_ok (permute t).
Proof.
  intros Hi Ht. unfold SaM_SplitAndMerge, SAM_NUMBER_OF_ROUNDS. change (Z.to_nat 9) with 9%nat.
  destruct (for_inv (fun k s => s = (Nat.iter (Z.to_nat k) round729 t, 0) /\ state_ok (Nat.iter (Z.to_nat k) round729 t)) (fun _ => sam_round indices) 9 0 (t, 0))
    as (s & E & -> & H).
  - done.
  - intros k s Hk [-> Hok]. destruct (round_eq indices _ Hi Hok) as [-> H']. replace (Z.to_nat (k + 1)) with (S (Z.to_nat k)) by lia. rewrite Nat.iter_succ. eauto.
  - rewrite E. done.
Qed.

(** ** The sponge

    A block is 243 trits; it replaces the first third of the state.  The last block is
    filled with alternating trits; a message of whole blocks gets no filling. *)

Definition filler (m n : nat) : list Z := (fun i => if Nat.odd i then TRIT_FALSE else TRIT_TRUE) <$> seq m n.
Definition pad_block (b : list Z) : list Z := b ++ filler (length b) (243 - length b).

Fixpoint blocks (n : nat) (input : list Z) : list (list Z) :=
  match n with
  | O => [pad_block input]
  | S n => if (243 <? length input)%nat then take 243 input :: blocks n (drop 243 input) else [pad_block input]
  end.
Definition blocks_of (input : list Z) : list (list Z) := blocks (length input / 243) input.

Definition absorb_block (t b : list Z) : list Z := permute (b ++ drop 243 t).
Definition start_state : list Z := replicate 243 0 ++ filler 243 486.
Definition sponge (input : list Z) : list Z := foldl absorb_block start_state (blocks_of input).

(** The bits of a message, the lowest of a byte first. *)
Definition byte_bits (b : Z) : list Z := (fun j => if Z.testbit b (Z.of_nat j) then 1 else 0) <$> seq 0 8.
Definition bits_of (l : list Z) : list Z := concat (byte_bits <$> l).

(** *** Filling and starting *)

Lemma filler_trits m n : trits (filler m n).
Proof. apply Forall_fmap, Forall_true. intros i. unfold is_trit, TRIT_FALSE, TRIT_TRUE. cbn. destruct (Nat.odd i); lia. Qed.

Lemma length_filler m n : length (filler m n) = n.
Proof. unfold filler. by rewrite length_fmap, length_seq. Qed.

Lemma fill_trit_odd i t : 0 <= i < Z.of_nat (length t) ->
  fill_trit i t = Some (<[Z.to_nat i := if Nat.odd (Z.to_nat i) then TRIT_FALSE else TRIT_TRUE]> t).
Proof.
  intros Hi. unfold fill_trit. rewrite aset_in_range by done. do 3 f_equal.
  change 1 with (Z.ones 1). rewrite Z.land_ones by lia. change (2 ^ 1) with 2. rewrite Zmod_odd.
  replace (Z.odd i) with (Nat.odd (Z.to_nat i)); [by destruct (Nat.odd _)|].
  rewrite <- (Z2Nat.id i) at 2 by lia. apply eq_true_iff_eq. rewrite Z.odd_spec, Nat.odd_spec. split; intros [k Hk].
  - exists (Z.of_nat k). lia.
  - exists (Z.to_nat k). lia.
Qed.

Lemma fill_range t m n : (m + n <= length t)%nat ->
  for_ fill_trit (Z.of_nat m) n t = Some (take m t ++ filler m n ++ drop (m + n) t).
Proof.
  intros Hl. destruct (for_inv (fun k s => s = take m t ++ filler m (Z.to_nat k - m) ++ drop (Z.to_nat k) t) fill_trit n (Z.of_nat m) t) as (s & E & Hs).
  - rewrite Nat2Z.id, Nat.sub_diag. cbn. by rewrite take_drop.
  - intros k s Hk ->. rewrite fill_trit_odd by (rewrite !length_app, length_take, length_filler, length_drop; lia). eexists. split; [done|].
    rewrite insert_app_r_alt by (rewrite length_take; lia). rewrite length_take, Nat.min_l by lia. f_equal.
    replace (Z.to_nat (k + 1) - m)%nat with (S (Z.to_nat k - m)) by lia. unfold filler. rewrite seq_S, fmap_app, <- app_assoc. f_equal.
    rewrite insert_app_r_alt by (rewrite length_fmap, length_seq; lia). f_equal. rewrite length_fmap, length_seq, Nat.sub_diag.
    destruct (lookup_lt_is_Some_2 t (Z.to_nat k)) as [x Hx]; [lia|]. rewrite (drop_S t x _ Hx). cbn [list_insert insert fmap list_fmap app].
    replace (m + (Z.to_nat k - m))%nat with (Z.to_nat k) by lia. by replace (Z.to_nat (k + 1)) with (S (Z.to_nat k)) by lia.
  - rewrite E, Hs. by replace (Z.to_nat (Z.of_nat m + Z.of_nat n) - m)%nat with n by lia; replace (Z.to_nat (Z.of_nat m + Z.of_nat n)) with (m + n)%nat by lia.
Qed.

(** Sizes of the three arrays; the contents of the state do not matter. *)
Record info_ok (s : SaM_info) : Prop := mk_info_ok {
  info_bits : length (sam_bits s) = 48%nat;
  info_trits : length (sam_trits s) = 729%nat;
  info_hash : length (sam_hash s) = 243%nat
}.

Lemma Initialize_eq s : info_ok s ->
  SaM_Initialize s = Some (mk_SaM_info (sam_bits s) (take 243 (sam_trits s) ++ filler 243 486) (sam_hash s)).
Proof.
  intros [_ H _]. unfold SaM_Initialize, SAM_HASH_SIZE, SAM_STATE_SIZE. change (Z.to_nat (729 - 243)) with 486%nat.
  change 243 with (Z.of_nat 243). rewrite fill_range by lia. cbn [mbind option_bind]. rewrite (drop_ge (sam_trits s)) by lia. by rewrite app_nil_r.
Qed.

(** *** Absorbing *)

Lemma length_pad_block b : (length b <= 243)%nat -> length (pad_block b) = 243%nat.
Proof. intros H. unfold pad_block. rewrite length_app, length_filler. lia. Qed.

Lemma pad_block_trits b : trits b -> trits (pad_block b).
Proof. intros H. apply Forall_app. split; [done|apply filler_trits]. Qed.

Lemma block_state b t : length b = 243%nat -> trits b -> length t = 729%nat -> trits (drop 243 t) -> state_ok (b ++ drop 243 t).
Proof. intros Lb Hb Lt Ht. split; [rewrite length_app, length_drop; lia|]. by apply Forall_app. Qed.

Lemma state_tail t : state_ok t -> trits (drop 243 t).
Proof. intros [_ H]. by apply Forall_drop. Qed.

(** The first block does not care about the first third of the state. *)
Lemma absorb_first b1 b2 tail bs : length b1 = 243%nat -> length b2 = 243%nat -> bs <> [] ->
  foldl absorb_block (b1 ++ tail) bs = foldl absorb_block (b2 ++ tail) bs.
Proof.
  intros L1 L2. destruct bs as [|b bs]; [done|]. intros _. cbn [foldl]. unfold absorb_block at 2 4. by rewrite !drop_app_length'.
Qed.

Lemma permute_start b t t' : drop 243 t = drop 243 t' -> absorb_block t b = absorb_block t' b.
Proof. unfold absorb_block. by intros ->. Qed.

Lemma blocks_nonempty n l : blocks n l <> [].
Proof. destruct n; cbn [blocks]; [done|]. by destruct (_ <? _)%nat. Qed.

Lemma blocks_more n m l : (length l / 243 <= n)%nat -> (length l / 243 <= m)%nat -> blocks n l = blocks m l.
Proof.
  assert (forall k, (length l / 243 <= k)%nat -> (length l <= 243 * (k + 1))%nat) as H.
  { intros k Hk. pose proof (Nat.div_mod_eq (length l) 243). pose proof (Nat.mod_upper_bound (length l) 243). lia. }
  intros Hn%H Hm%H. clear H. revert m l Hn Hm. induction n as [|n IH]; intros [|m] l Hn Hm; cbn [blocks]; [done|..].
  1,2: destruct (Nat.ltb_spec 243 (length l)); [lia|done].
  destruct (Nat.ltb_spec 243 (length l)); [|done]. f_equal. apply IH; rewrite length_drop; lia.
Qed.

(** The place of a block in the input, and its size. *)
Lemma input_place {A} (pre input : list A) : Z.to_nat (Z.of_nat (length (pre ++ input)) - Z.of_nat (length input)) = length pre.
Proof. rewrite length_app. lia. Qed.

Lemma load_full t pre input : (243 <= length input)%nat -> length t = 729%nat ->
  load_trits t (pre ++ input) (Z.of_nat (length (pre ++ input))) (Z.of_nat (length input)) = Some (take 243 input ++ drop 243 t).
Proof.
  intros Hl Lt. unfold load_trits, SAM_HASH_SIZE. destruct (Z.leb_spec 243 (Z.of_nat (length input))); [|lia].
  rewrite memcpy_eq by (rewrite ?length_app; lia). by rewrite input_place, drop_app_length.
Qed.

Lemma load_last t pre input : (length input <= 243)%nat -> length t = 729%nat ->
  load_trits t (pre ++ input) (Z.of_nat (length (pre ++ input))) (Z.of_nat (length input)) = Some (pad_block input ++ drop 243 t).
Proof.
  intros Hl Lt. destruct (decide (length input = 243%nat)) as [E|E].
  { rewrite load_full by lia. unfold pad_block. rewrite E, take_ge by lia. cbn [Nat.sub filler seq fmap list_fmap]. by rewrite app_nil_r. }
  unfold load_trits, SAM_HASH_SIZE. destruct (Z.leb_spec 243 (Z.of_nat (length input))); [lia|].
  rewrite memcpy_eq by (rewrite ?length_app; lia). rewrite input_place, drop_app_length, Z.add_0_l, Nat2Z.id, (take_ge input) by lia. cbn [Z.to_nat take app mbind option_bind].
  destruct (Z.ltb_spec (Z.of_nat (length input)) 243); [|lia]. replace (Z.to_nat (243 - Z.of_nat (length input))) with (243 - length input)%nat by lia.
  match goal with |- for_ _ _ _ ?x = _ => rewrite (fill_range x (length input) (243 - length input)) by (rewrite ?length_app, ?length_drop; lia) end. change (take (Z.to_nat 0) t) with (@nil Z). cbn [app].
  rewrite take_app_length. unfold pad_block. rewrite <- app_assoc.
  do 3 f_equal. rewrite drop_app_ge by lia. rewrite drop_drop. f_equal. lia.
Qed.

Section Sponge.
Context (indices : list Z).
Hypothesis Hi : indices_ok indices.

Lemma absorb_step t b : length b = 243%nat -> trits b -> length t = 729%nat -> trits (drop 243 t) ->
  SaM_SplitAndMerge indices (b ++ drop 243 t) = Some (absorb_block t b) /\ state_ok (absorb_block t b).
Proof using Hi. intros. apply SplitAndMerge_eq; [done|]. by apply block_state. Qed.

Lemma absorb_loop_eq n t pre input : (length input <= 243 * (n + 1))%nat -> length t = 729%nat -> trits (drop 243 t) -> trits input ->
  absorb_loop n indices t (pre ++ input) (Z.of_nat (length (pre ++ input))) (Z.of_nat (length input)) = Some (foldl absorb_block t (blocks n input)) /\
  state_ok (foldl absorb_block t (blocks n input)).
Proof using Hi.
  revert t pre input. induction n as [|n IH]; intros t pre input Hn Lt Ht Hb; cbn [absorb_loop blocks]; unfold SAM_HASH_SIZE.
  2: destruct (Nat.ltb_spec 243 (length input)) as [Hl|Hl].
  1,3: destruct (absorb_step t (pad_block input)) as [E Hok]; [apply length_pad_block; lia|by apply pad_block_trits|done|done|];
    rewrite load_last by lia; cbn [mbind option_bind]; rewrite E; cbn [mbind option_bind foldl]; split; [|done];
    by destruct (Z.ltb_spec 0 (Z.of_nat (length input) - 243)); [lia|].
  destruct (absorb_step t (take 243 input)) as [E Hok]; [rewrite length_take; lia|by apply Forall_take|done|done|].
  rewrite load_full by lia. cbn [mbind option_bind]. rewrite E. cbn [mbind option_bind foldl].
  destruct (Z.ltb_spec 0 (Z.of_nat (length input) - 243)); [|lia].
  specialize (IH (absorb_block t (take 243 input)) (pre ++ take 243 input) (drop 243 input)).
  rewrite <- app_assoc, take_drop, length_drop in IH. replace (Z.of_nat (length input - 243)) with (Z.of_nat (length input) - 243) in IH by lia.
  apply IH; [lia|apply Hok|by apply state_tail|by apply Forall_drop].
Qed.
End Sponge.

(** *** The bits of the input *)

Definition part (input : option (list Z)) (size : Z) : list Z := match input with Some l => take (Z.to_nat size) l | None => [] end.
Definition part_ok (input : option (list Z)) (size : Z) : Prop := match input with Some l => 0 <= size <= Z.of_nat (length l) | None => True end.

Definition bit_trit (l : list Z) (i : nat) : Z := if Z.testbit (nth (i / 8) l 0) (Z.of_nat (i mod 8)) then 1 else 0.

Lemma bits_of_seq l : bits_of l = bit_trit l <$> seq 0 (8 * length l).
Proof.
  induction l as [|b l IH]; [done|]. unfold bits_of in *. rewrite fmap_cons. cbn [concat length]. rewrite IH.
  replace (8 * S (length l))%nat with (8 + 8 * length l)%nat by lia. rewrite seq_app, fmap_app. f_equal.
  rewrite <- (fmap_add_seq 8 0 : forall n, _ = seq (0 + 8) n).
  rewrite <- list_fmap_compose. apply list_fmap_ext. intros i j _. unfold compose, bit_trit.
  replace (8 + j)%nat with (j + 1 * 8)%nat by lia. rewrite Nat.div_add, Nat.Div0.mod_add by lia. by rewrite Nat.add_1_r.
Qed.

Lemma length_bits_of l : length (bits_of l) = (8 * length l)%nat.
Proof. by rewrite bits_of_seq, length_fmap, length_seq. Qed.

Lemma bits_of_app a b : bits_of (a ++ b) = bits_of a ++ bits_of b.
Proof. unfold bits_of. by rewrite fmap_app, concat_app. Qed.

Lemma bits_of_trit l : Forall (fun x => x = 0 \/ x = 1) (bits_of l).
Proof. rewrite bits_of_seq. apply Forall_fmap, Forall_true. intros i. unfold bit_trit. cbn. destruct (Z.testbit _ _); auto. Qed.

Lemma bits_of_trits l : trits (bits_of l).
Proof. eapply list.Forall_impl; [apply bits_of_trit|]. unfold is_trit. cbn. lia. Qed.

Lemma push_bits_eq room input size t : part_ok input size -> size < 2 ^ 28 -> Z.of_nat (length t + length (bits_of (part input size))) <= room ->
  push_bits room input size t = Some (t ++ bits_of (part input size)).
Proof.
  intros Hp Hs Hr. destruct input as [l|]; cbn [push_bits part part_ok] in *; [|by rewrite app_nil_r].
  destruct (Z.eqb_spec size 0) as [->|Hz]; [cbn; by rewrite app_nil_r|].
  rewrite bits_of_seq, length_fmap, length_seq in *. rewrite length_take, Nat.min_l in * by lia.
  assert (u32 (Z.shiftl size 3) = 8 * size) as ->.
  { rewrite Z.shiftl_mul_pow2 by lia. unfold u32, wrapU. change (2 ^ 3) with 8. rewrite Z.mod_small; lia. }
  destruct (for_inv (fun k s => s = t ++ (bit_trit (take (Z.to_nat size) l) <$> seq 0 (Z.to_nat k))) (fun i trits =>
        b ← aget l (Z.shiftr i 3);
        if Z.of_nat (length trits) <? room then
          Some (trits ++ [if negb (Z.land b (Z.shiftl 1 (Z.land i 7)) =? 0) then 1 else 0])
        else None) (Z.to_nat (8 * size)) 0 t) as (s & E & Hf).
  - by rewrite app_nil_r.
  - intros k s Hk ->. rewrite Z.shiftr_div_pow2 by lia. change (2 ^ 3) with 8.
    assert (0 <= k / 8 < size) as Hd by (split; [apply Z.div_pos|apply Z.div_lt_upper_bound]; lia).
    rewrite (aget_nth l _ 0) by lia. cbn [mbind option_bind].
    rewrite length_app, length_fmap, length_seq. destruct (Z.ltb_spec (Z.of_nat (length t + Z.to_nat k)) room); [|lia].
    eexists. split; [done|]. replace (Z.to_nat (k + 1)) with (S (Z.to_nat k)) by lia. rewrite seq_S, fmap_app, app_assoc. f_equal.
    cbn [fmap list_fmap Nat.add]. change 7 with (Z.ones 3). rewrite Z.land_ones by lia. change (2 ^ 3) with 8.
    pose proof (Z.mod_pos_bound k 8). rewrite land_bit_0, negb_involutive by lia. unfold bit_trit. do 2 f_equal.
    replace (Z.to_nat (k / 8)) with (Z.to_nat k / 8)%nat by (rewrite <- (Z2Nat.id k) at 2 by lia; change 8 with (Z.of_nat 8); rewrite <- Nat2Z.inj_div; lia).
    replace (Z.of_nat (Z.to_nat k mod 8)) with (k mod 8) by (rewrite Nat2Z.inj_mod, Z2Nat.id; lia).
    f_equal. rewrite nth_lookup, nth_lookup, lookup_take_lt; [done|]. apply Nat.Div0.div_lt_upper_bound; lia.
  - rewrite E, Hf. by replace (Z.to_nat (0 + Z.of_nat (Z.to_nat (8 * size)))) with (8 * Z.to_nat size)%nat by lia.
Qed.

(** What the two inputs together hold. *)
Definition sam_message (input : option (list Z)) (size : Z) (input2 : option (list Z)) (size2 : Z) : list Z :=
  bits_of (part input size ++ part input2 size2).

Record input_ok (input : option (list Z)) (size : Z) (input2 : option (list Z)) (size2 : Z) : Prop := mk_input_ok {
  input_part : part_ok input size;
  input_part2 : part_ok input2 size2;
  input_small : 0 <= size /\ 0 <= size2 /\ size + size2 < 2 ^ 28
}.

Section Hash.
Context (indices : list Z).
Hypothesis Hi : indices_ok indices.

Lemma Absorb_eq s input size input2 size2 : input_ok input size input2 size2 -> length (sam_trits s) = 729%nat -> trits (drop 243 (sam_trits s)) ->
  let t := foldl absorb_block (sam_trits s) (blocks_of (sam_message input size input2 size2)) in
  SaM_Absorb indices s input size input2 size2 = Some (mk_SaM_info (sam_bits s) t (sam_hash s)) /\ state_ok t.
Proof using Hi.
  intros [H1 H2 Hs] Lt Ht t. unfold SaM_Absorb.
  assert (Z.of_nat (length (part input size)) <= size) as L1 by (destruct input; cbn [part part_ok length] in *; [rewrite length_take|]; lia).
  assert (Z.of_nat (length (part input2 size2)) <= size2) as L2 by (destruct input2; cbn [part part_ok length] in *; [rewrite length_take|]; lia).
  assert (8 * (size + size2) <= trits_room size size2) as Hr.
  { unfold trits_room. rewrite Z.shiftl_mul_pow2 by lia. unfold u32, s32, wrapU, wrapS. change (2 ^ 3) with 8. change (2 ^ (32 - 1)) with (2 ^ 31).
    rewrite (Z.mod_small (size + size2) (2 ^ 32)), (Z.mod_small ((size + size2) * 8) (2 ^ 32)), (Z.mod_small (_ + 2 ^ 31) (2 ^ 32)) by lia. replace ((size + size2) * 8 + 2 ^ 31 - 2 ^ 31) with ((size + size2) * 8) by lia. repeat case_match; lia. }
  rewrite push_bits_eq by (rewrite ?length_bits_of; cbn [length]; done || lia). cbn [mbind option_bind app].
  rewrite push_bits_eq by (rewrite ?length_bits_of; done || lia). cbn [mbind option_bind]. rewrite <- bits_of_app.
  fold (sam_message input size input2 size2) in *. unfold _SaM_Absorb, SAM_HASH_SIZE.
  destruct (absorb_loop_eq indices Hi (Z.to_nat (Z.of_nat (length (sam_message input size input2 size2)) / 243)) (sam_trits s) [] (sam_message input size input2 size2)) as [E Hok].
  - change 243 with (Z.of_nat 243). rewrite <- Nat2Z.inj_div, Nat2Z.id.
    pose proof (Nat.div_mod_eq (length (sam_message input size input2 size2)) 243). pose proof (Nat.mod_upper_bound (length (sam_message input size input2 size2)) 243). lia.
  - done.
  - done.
  - apply bits_of_trits.
  - cbn [app] in E. rewrite E. cbn [mbind option_bind]. subst t. unfold blocks_of.
    replace (Z.to_nat (Z.of_nat (length (sam_message input size input2 size2)) / 243)) with (length (sam_message input size input2 size2) / 243)%nat in Hok |- *; [done|].
    change 243 with (Z.of_nat 243). by rewrite <- Nat2Z.inj_div, Nat2Z.id.
Qed.

(** Starting and absorbing, whatever the memory held. *)
Lemma start_absorb junk input size input2 size2 : info_ok junk -> input_ok input size input2 size2 ->
  exists s0, SaM_Initialize junk = Some s0 /\
    SaM_Absorb indices s0 input size input2 size2 = Some (mk_SaM_info (sam_bits junk) (sponge (sam_message input size input2 size2)) (sam_hash junk)) /\
    state_ok (sponge (sam_message input size input2 size2)).
Proof using Hi.
  intros Hj Hin. eexists. split; [by apply Initialize_eq|]. destruct Hj as [_ Lj _].
  assert (length (take 243 (sam_trits junk)) = 243%nat) as L243 by (rewrite length_take; lia).
  match goal with |- SaM_Absorb _ ?s _ _ _ _ = _ /\ _ => destruct (Absorb_eq s input size input2 size2 Hin) as [E Hok] end.
  - cbn [sam_trits]. rewrite length_app, length_filler. lia.
  - cbn [sam_trits]. rewrite drop_app_length' by done. apply filler_trits.
  - cbn [sam_trits sam_bits sam_hash] in *. unfold sponge, start_state.
    rewrite (absorb_first _ (replicate 243 0)) in E, Hok by (rewrite ?length_replicate; done || apply blocks_nonempty). done.
Qed.
End Hash.

(** ** Squeezing *)

(** A number in base 3, the first trit highest. *)
Definition base3 (l : list Z) : Z := foldl (fun a t => 3 * a + (t + 1)) 0 l.

(** Twelve trits scaled to 19 bits, and the last three to four. *)
Definition word19 (h : list Z) (i : nat) : Z := base3 (take 12 (drop (12 * i) h)) * 2 ^ 19 / 3 ^ 12.
Definition words19 (h : list Z) : list Z := word19 h <$> seq 0 20.
Definition nibble (h : list Z) : Z := base3 (drop 240 h) * 16 / 27.

(** The upper three bits of the words. *)
Definition tops (ws : list Z) : Z := foldl (fun a w => 8 * a + w / 2 ^ 16) 0 ws.

(** The 48 bytes: the lower sixteen bits of the words, then their upper bits and the
    four bits in one number. *)
Definition digest (h : list Z) : list Z := concat (le_bytes 2 <$> words19 h) ++ le_bytes 8 (tops (words19 h) * 16 + nibble h).

Lemma base3_from x b : foldl (fun a t => 3 * a + (t + 1)) x b = x * 3 ^ Z.of_nat (length b) + base3 b.
Proof.
  unfold base3. induction b as [|t b IH] using rev_ind; [cbn; lia|].
  rewrite !foldl_app, IH, length_app. cbn [foldl length]. rewrite Nat.add_1_r, Nat2Z.inj_succ, Z.pow_succ_r by lia. ring.
Qed.

Lemma base3_app a b : base3 (a ++ b) = base3 a * 3 ^ Z.of_nat (length b) + base3 b.
Proof. unfold base3 at 1. rewrite foldl_app. apply base3_from. Qed.

Lemma base3_range l : trits l -> 0 <= base3 l < 3 ^ Z.of_nat (length l).
Proof.
  induction l as [|t l IH] using rev_ind; [cbn; lia|]. intros [Hl Ht]%Forall_app. apply Forall_cons_1 in Ht as [Ht _]. specialize (IH Hl).
  rewrite base3_app, length_app. change (3 ^ Z.of_nat (length [t])) with 3. change (length [t]) with 1%nat. rewrite Nat.add_1_r, Nat2Z.inj_succ, Z.pow_succ_r by lia. unfold is_trit in Ht.
  assert (base3 [t] = t + 1) as -> by (unfold base3; cbn [foldl]; lia). lia.
Qed.

Lemma base3_snoc l t : base3 (l ++ [t]) = 3 * base3 l + (t + 1).
Proof. rewrite base3_app. change (3 ^ Z.of_nat (length [t])) with 3. assert (base3 [t] = t + 1) as -> by (unfold base3; cbn [foldl]; lia). lia. Qed.

Lemma raw_trits_eq h i n : trits h -> (i + n <= length h)%nat -> (n <= 20)%nat -> raw_trits h (Z.of_nat i) n = Some (base3 (take n (drop i h))).
Proof.
  intros Hh Hl Hn. unfold raw_trits.
  destruct (for_inv (fun k s => s = base3 (take (Z.to_nat k) (drop i h))) (fun j rawbits => t ← aget h (Z.of_nat i + j); Some (u32 (rawbits * 3 + t + 1))) n 0 0)
    as (s & -> & ->).
  - done.
  - intros k s Hk ->. destruct (aget_is_Some h (Z.of_nat i + k)) as (t & Et & ->); [lia|]. cbn [mbind option_bind]. eexists. split; [done|].
    assert (drop i h !! Z.to_nat k = Some t) as Ed by (rewrite lookup_drop, <- Et; f_equal; lia).
    replace (Z.to_nat (k + 1)) with (S (Z.to_nat k)) by lia. rewrite (take_S_r _ _ _ Ed), base3_snoc.
    assert (trits (take (Z.to_nat k) (drop i h))) as Hp by (by apply Forall_take, Forall_drop).
    pose proof (base3_range _ Hp) as Hr. rewrite length_take, length_drop in Hr.
    assert (is_trit t) as Ht by (exact (Forall_lookup_1 _ _ _ _ Hh Et)). unfold is_trit in Ht.
    assert (3 ^ Z.of_nat (Z.to_nat k `min` (length h - i)) <= 3 ^ 19) by (apply Z.pow_le_mono_r; lia).
    unfold u32, wrapU. rewrite Z.mod_small; [lia|]. change (2 ^ 32) with 4294967296. change (3 ^ 19) with 1162261467 in *. lia.
  - by replace (Z.to_nat (0 + Z.of_nat n)) with n by lia.
Qed.

Section Digest.
Context (h : list Z).
Hypothesis Lh : length h = 243%nat.
Hypothesis Hh : trits h.

Lemma slice_range i n : (i + n <= 243)%nat -> 0 <= base3 (take n (drop i h)) < 3 ^ Z.of_nat n.
Proof using Lh Hh.
  intros Hn. pose proof (base3_range (take n (drop i h)) ltac:(by apply Forall_take, Forall_drop)) as H.
  rewrite length_take, length_drop, Lh in H. by replace (n `min` (243 - i))%nat with n in H by lia.
Qed.

Lemma word19_range i : (i < 20)%nat -> 0 <= word19 h i < 2 ^ 19.
Proof using Lh Hh.
  intros Hi. pose proof (slice_range (12 * i) 12 ltac:(lia)) as H. unfold word19. change (3 ^ Z.of_nat 12) with (3 ^ 12) in H.
  split; [apply Z.div_pos; [lia|done]|]. apply Z.div_lt_upper_bound; [done|]. nia.
Qed.

Lemma emit_word_eq i : (i < 20)%nat -> emit_word h (Z.of_nat i) = Some (word19 h i).
Proof using Lh Hh.
  intros Hi. unfold emit_word. replace (12 * Z.of_nat i) with (Z.of_nat (12 * i)) by lia. rewrite raw_trits_eq by (done || lia). cbn [mbind option_bind].
  pose proof (slice_range (12 * i) 12 ltac:(lia)) as H. pose proof (word19_range i Hi) as Hw. unfold word19 in *. f_equal.
  rewrite Z.shiftl_mul_pow2 by lia. change (3 ^ Z.of_nat 12) with (3 ^ 12) in H. change 531441 with (3 ^ 12).
  unfold u64, u32, wrapU. rewrite (Z.mod_small _ (2 ^ 64)) by (change (3 ^ 12) with 531441 in *; change (2 ^ 19) with 524288 in *; change (2 ^ 64) with 18446744073709551616; lia).
  change 0x7ffff with (Z.ones 19). rewrite Z.land_ones by lia. rewrite (Z.mod_small _ (2 ^ 19)) by done. apply Z.mod_small.
  change (2 ^ 32) with 4294967296. change (2 ^ 19) with 524288 in *. lia.
Qed.

Lemma emit_words : for_ (fun i bits19 => w ← emit_word h i; Some (bits19 ++ [w])) 0 20 [] = Some (words19 h).
Proof using Lh Hh.
  rewrite (for_append _ (fun i => [word19 h i])).
  - cbn [app]. f_equal.
  - intros i out Hi. by rewrite emit_word_eq.
Qed.

Lemma nibble_eq : (r ← raw_trits h 240 3; Some (Z.land (u32 (Z.shiftl r 4) / 27) 0xf)) = Some (nibble h) /\ 0 <= nibble h < 16.
Proof using Lh Hh.
  rewrite (raw_trits_eq h 240 3 Hh ltac:(lia) ltac:(lia) : raw_trits h 240 3 = _). cbn [mbind option_bind].
  pose proof (slice_range 240 3 ltac:(lia)) as H. rewrite take_ge in H |- * by (rewrite length_drop; lia).
  change (3 ^ Z.of_nat 3) with 27 in H. unfold nibble. assert (0 <= base3 (drop 240 h) * 16 / 27 < 16) as Hn by (split; [apply Z.div_pos|apply Z.div_lt_upper_bound]; lia).
  split; [|done]. f_equal. rewrite Z.shiftl_mul_pow2 by lia. unfold u32, wrapU. rewrite Z.mod_small by (change (2 ^ 32) with 4294967296; lia).
  change 0xf with (Z.ones 4). rewrite Z.land_ones by lia. change (2 ^ 4) with 16. by apply Z.mod_small.
Qed.
End Digest.

Lemma tops_range ws : Forall (fun w => 0 <= w < 2 ^ 19) ws -> 0 <= tops ws < 8 ^ Z.of_nat (length ws).
Proof.
  unfold tops. induction ws as [|w ws IH] using rev_ind; [cbn; lia|]. intros [Hl Hw]%Forall_app. apply Forall_cons_1 in Hw as [Hw _]. specialize (IH Hl).
  rewrite foldl_app, length_app. cbn [foldl length]. rewrite Nat.add_1_r, Nat2Z.inj_succ, Z.pow_succ_r by lia.
  assert (0 <= w / 2 ^ 16 < 8) by (split; [apply Z.div_pos|apply Z.div_lt_upper_bound]; lia). lia.
Qed.

(** The loop that takes the words apart. *)
Lemma emit_loop ws bits n : Forall (fun w => 0 <= w < 2 ^ 19) ws -> length ws = n -> (n <= 20)%nat -> (2 * n <= length bits)%nat ->
  for_ (emit_step ws) 0 n (bits, 0) = Some (concat (le_bytes 2 <$> ws) ++ drop (2 * n) bits, tops ws).
Proof.
  intros Hw Ln Hn Hb.
  destruct (for_inv (fun k s => s = (concat (le_bytes 2 <$> take (Z.to_nat k) ws) ++ drop (2 * Z.to_nat k) bits, tops (take (Z.to_nat k) ws))) (emit_step ws) n 0 (bits, 0))
    as (s & -> & ->).
  - done.
  - intros k s Hk ->. unfold emit_step. destruct (aget_is_Some ws k) as (w & Ew & ->); [lia|]. cbn [mbind option_bind].
    assert (length (concat (le_bytes 2 <$> take (Z.to_nat k) ws)) = (2 * Z.to_nat k)%nat) as Lc.
    { assert (forall l : list Z, length (concat (le_bytes 2 <$> l)) = (2 * length l)%nat) as ->.
      { intros l. induction l as [|x l IH]; [done|]. rewrite fmap_cons. cbn [concat length]. rewrite length_app, IH, length_le_bytes. lia. }
      rewrite length_take. lia. }
    rewrite memcpy_eq by (rewrite ?length_app, ?Lc, ?length_drop, ?length_le_bytes; lia). cbn [mbind option_bind].
    eexists. split; [done|]. replace (Z.to_nat (k + 1)) with (S (Z.to_nat k)) by lia. rewrite (take_S_r _ _ _ Ew).
    assert (0 <= w < 2 ^ 19) as Hwk by (exact (Forall_lookup_1 _ _ _ _ Hw Ew)). f_equal.
    + rewrite fmap_app, concat_app. cbn [fmap list_fmap concat]. rewrite app_nil_r, <- app_assoc.
      replace (Z.to_nat (k * 2)) with (2 * Z.to_nat k)%nat by lia. rewrite take_app_length' by done.
      replace (Z.to_nat (k * 2 + 2)) with (2 * Z.to_nat k + 2)%nat by lia. rewrite drop_app_ge by lia. rewrite Lc, drop_drop.
      f_equal. f_equal. f_equal. lia.
    + assert (Forall (fun w => 0 <= w < 2 ^ 19) (take (Z.to_nat k) ws)) as Hp by (by apply Forall_take). apply tops_range in Hp.
      rewrite length_take in Hp. assert (8 ^ Z.of_nat (Z.to_nat k `min` length ws) <= 8 ^ 19) by (apply Z.pow_le_mono_r; lia).
      unfold tops at 2. rewrite foldl_app. cbn [foldl]. fold (tops (take (Z.to_nat k) ws)). set (b := tops _) in *.
      rewrite Z.shiftl_mul_pow2, Z.shiftr_div_pow2 by lia. change (2 ^ 3) with 8.
      unfold u64, wrapU. rewrite Z.mod_small by (change (2 ^ 64) with 18446744073709551616; change (8 ^ 19) with 144115188075855872 in *; lia).
      change 7 with (Z.ones 3). rewrite Z.land_ones by lia. assert (0 <= w / 2 ^ 16 < 2 ^ 3) as Ht by (split; [apply Z.div_pos|apply Z.div_lt_upper_bound]; lia).
      rewrite (Z.mod_small _ (2 ^ 3)) by done. rewrite Z.lor_comm. change (b * 8) with (b * 2 ^ 3). rewrite <- Z.shiftl_mul_pow2, lor_shift by lia. change (2 ^ 3) with 8. lia.
  - rewrite !take_ge by lia. by replace (Z.to_nat (0 + Z.of_nat n)) with n by lia.
Qed.

Lemma emit_bits_eq bits h : length bits = 48%nat -> length h = 243%nat -> trits h -> emit_bits bits h = Some (digest h).
Proof.
  intros Lb Lh Hh. unfold emit_bits, SAM_HASH_SIZE. change (Z.to_nat (243 / 12)) with 20%nat. rewrite emit_words by done. cbn [mbind option_bind].
  destruct (nibble_eq h Lh Hh) as [En Hn]. destruct (raw_trits h 240 3) as [r|]; [|done]. cbn [mbind option_bind] in En |- *. injection En as ->.
  assert (Forall (fun w => 0 <= w < 2 ^ 19) (words19 h)) as Hw.
  { apply Forall_fmap, Forall_seq. intros i Hi. cbn. apply word19_range; (done || lia). }
  assert (length (words19 h) = 20%nat) as Lw by (unfold words19; by rewrite length_fmap, length_seq).
  rewrite (emit_loop (words19 h) bits 20) by (done || lia). cbn [mbind option_bind]. pose proof (tops_range _ Hw) as Ht. rewrite Lw in Ht.
  assert (Z.lor (u64 (Z.shiftl (tops (words19 h)) 4)) (Z.land (nibble h) 15) = tops (words19 h) * 16 + nibble h) as ->.
  { rewrite Z.shiftl_mul_pow2 by lia. unfold u64, wrapU. change (8 ^ Z.of_nat 20) with 1152921504606846976 in Ht.
    rewrite Z.mod_small by (change (2 ^ 4) with 16; change (2 ^ 64) with 18446744073709551616; lia).
    change 15 with (Z.ones 4). rewrite Z.land_ones by lia. rewrite (Z.mod_small (nibble h)) by (change (2 ^ 4) with 16; lia).
    rewrite Z.lor_comm, <- Z.shiftl_mul_pow2, lor_shift by (change (2 ^ 4) with 16; lia). change (2 ^ 4) with 16. lia. }
  assert (length (concat (le_bytes 2 <$> words19 h)) = 40%nat) as Lc by (unfold words19; rewrite <- list_fmap_compose; by cbn).
  rewrite memcpy_eq by (rewrite ?length_app, ?length_le_bytes, ?length_drop, ?Lc; lia).
  change (Z.to_nat 40) with 40%nat. change (Z.to_nat (40 + 8)) with 48%nat. rewrite take_app_length' by done.
  rewrite (drop_ge (concat _ ++ _)) by (rewrite length_app, length_drop; lia). unfold digest. rewrite app_nil_r. done.
Qed.

Lemma length_digest h : length (digest h) = 48%nat.
Proof. unfold digest, words19. rewrite <- list_fmap_compose, length_app, length_le_bytes. by cbn. Qed.

Lemma bytes_digest h : bytes (digest h).
Proof.
  apply Forall_app. split; [|apply le_bytes_ok]. unfold words19. rewrite <- list_fmap_compose. apply Forall_concat, Forall_fmap, Forall_true. intros i. apply le_bytes_ok.
Qed.

Lemma emit_eq indices s : indices_ok indices -> length (sam_bits s) = 48%nat -> length (sam_hash s) = 243%nat -> state_ok (sam_trits s) ->
  SaM_emit indices s = Some (mk_SaM_info (digest (take 243 (sam_trits s))) (permute (sam_trits s)) (take 243 (sam_trits s))).
Proof.
  intros Hi Lb Lh Ht. unfold SaM_emit, SaM_Squeeze, SAM_HASH_SIZE. pose proof (proj1 Ht) as Lt. rewrite memcpy_eq by lia. cbn [mbind option_bind].
  destruct (SplitAndMerge_eq indices _ Hi Ht) as [-> _]. cbn [mbind option_bind sam_bits sam_hash sam_trits].
  change (take (Z.to_nat 0) (sam_hash s)) with (@nil Z). change (drop (Z.to_nat 0) (sam_trits s)) with (sam_trits s).
  rewrite (drop_ge (sam_hash s)) by lia. rewrite app_nil_r. cbn [app]. change (Z.to_nat 243) with 243%nat.
  rewrite emit_bits_eq by (first [done | rewrite length_take; lia | apply Forall_take, Ht]). done.
Qed.

Lemma hit_eq s : (27 <= length (sam_hash s))%nat -> trits (sam_hash s) -> SaM_hit s = Some (base3 (take 27 (sam_hash s))).
Proof.
  intros Hl Hh. unfold SaM_hit.
  destruct (for_inv (fun k v => v = base3 (take (Z.to_nat k) (sam_hash s))) (fun i hit => t ← aget (sam_hash s) i; Some (u64 (hit * 3 + t + 1))) 27 0 0)
    as (v & -> & ->); [done| |done].
  intros k v Hk ->. destruct (aget_is_Some (sam_hash s) k) as (t & Et & ->); [lia|]. cbn [mbind option_bind]. eexists. split; [done|].
  replace (Z.to_nat (k + 1)) with (S (Z.to_nat k)) by lia. rewrite (take_S_r _ _ _ Et), base3_snoc.
  pose proof (base3_range (take (Z.to_nat k) (sam_hash s)) ltac:(by apply Forall_take)) as Hr. rewrite length_take in Hr.
  assert (is_trit t) as Ht by (exact (Forall_lookup_1 _ _ _ _ Hh Et)). unfold is_trit in Ht.
  assert (3 ^ Z.of_nat (Z.to_nat k `min` length (sam_hash s)) <= 3 ^ 26) by (apply Z.pow_le_mono_r; lia).
  unfold u64, wrapU. rewrite Z.mod_small; [lia|]. change (2 ^ 64) with 18446744073709551616. change (3 ^ 26) with 2541865828329 in *. lia.
Qed.

(** ** The hash *)

Lemma state_hash t : state_ok t -> length (take 243 t) = 243%nat /\ trits (take 243 t).
Proof. intros [Lt Ht]. split; [rewrite length_take; lia|by apply Forall_take]. Qed.

Definition sam_of (m : list Z) : list Z := take 243 (sponge m).

Lemma SaM_eq indices junk input size input2 size2 : indices_ok indices -> info_ok junk -> input_ok input size input2 size2 ->
  let h := sam_of (sam_message input size input2 size2) in
  SaM indices junk input size input2 size2 = Some (base3 (take 27 h), digest h) /\ length h = 243%nat /\ trits h.
Proof.
  intros Hi Hj Hin h. destruct (start_absorb indices Hi junk _ _ _ _ Hj Hin) as (s0 & E0 & E1 & Hok).
  destruct (state_hash _ Hok) as [Lh Hh]. split; [|done]. unfold SaM. rewrite E0. cbn [mbind option_bind]. rewrite E1. cbn [mbind option_bind].
  rewrite emit_eq by (cbn [sam_bits sam_hash sam_trits]; first [done | apply Hj]). cbn [mbind option_bind sam_trits].
  rewrite hit_eq by (cbn [sam_hash]; first [done | lia]). done.
Qed.

(** *** The vectors of [SaM_test]

    A round in an order in which the four places of a trit are neighbours, up to a
    rotation, so that it can be evaluated. *)

Fixpoint interleave {A} (l k : list A) : list A :=
  match l with
  | [] => []
  | x :: l => x :: match k with [] => l | y :: k => y :: interleave l k end
  end.

(** The places 0, 364, 728, ... *)
Definition half_steps {A} (l : list A) : list A := interleave (take 1 l ++ reverse (drop 365 l)) (reverse (take 364 (drop 1 l))).
Definition turned {A} (n : nat) (l : list A) : list A := drop n (half_steps l) ++ take n (half_steps l).
Definition round_fast (t : list Z) : list Z :=
  zip_with (fun p q => SaM_Sum (SaM_Bias p.1 p.2) (SaM_Bias q.1 q.2)) (zip (turned 0 t) (turned 221 t)) (zip (turned 222 t) (turned 1 t)).

Lemma interleave_fmap {A B} (f : A -> B) l k : interleave (f <$> l) (f <$> k) = f <$> interleave l k.
Proof. revert k. induction l as [|x l IH]; intros [|y k]; cbn; [done..|]. f_equal. f_equal. apply IH. Qed.

Lemma turned_fmap {A B} (f : A -> B) n l : turned n (f <$> l) = f <$> turned n l.
Proof.
  unfold turned, half_steps. rewrite fmap_app, fmap_drop, fmap_take. rewrite <- !interleave_fmap.
  by rewrite fmap_app, !fmap_reverse, !fmap_take, !fmap_drop.
Qed.

Lemma turned_places n : n ∈ [0; 221; 222; 1]%nat ->
  turned n (Z.of_nat <$> seq 0 729) = (fun k => (364 * (Z.of_nat k + Z.of_nat n)) mod 729) <$> seq 0 729.
Proof. intros Hn. repeat (apply elem_of_cons in Hn as [-> | Hn]; [vm_compute; reflexivity|]). by apply elem_of_nil in Hn. Qed.

Lemma turned_eq t n : length t = 729%nat -> n ∈ [0; 221; 222; 1]%nat ->
  turned n t = (fun k => at729 t (364 * (Z.of_nat k + Z.of_nat n))) <$> seq 0 729.
Proof.
  intros Lt Hn. assert (t = at729 t <$> (Z.of_nat <$> seq 0 729)) as E.
  { apply list_eq. intros i. rewrite <- list_fmap_compose, list_lookup_fmap. destruct (decide (i < 729)%nat) as [Hi|Hi].
    - rewrite lookup_seq_lt by done. cbn [fmap option_fmap option_map]. unfold compose, at729. cbn [Nat.add]. rewrite Z.mod_small, Nat2Z.id by lia.
      destruct (lookup_lt_is_Some_2 t i) as [x Hx]; [lia|]. by rewrite Hx, (nth_lookup_Some _ _ _ _ Hx).
    - rewrite lookup_seq_ge by lia. rewrite lookup_ge_None_2 by lia. done. }
  rewrite E at 1. rewrite turned_fmap, turned_places, <- list_fmap_compose by done. apply list_fmap_ext. intros i k _. unfold compose.
  apply at729_mod, Z.mod_mod. lia.
Qed.

Lemma zip_with_fmaps {A B C D} (f : B -> C -> D) (g : A -> B) (h : A -> C) l : zip_with f (g <$> l) (h <$> l) = (fun x => f (g x) (h x)) <$> l.
Proof. induction l as [|x l IH]; cbn; [done|]. by f_equal. Qed.

Lemma round_fast_eq t : length t = 729%nat -> round729 t = round_fast t.
Proof.
  intros Lt. unfold round_fast. rewrite !turned_eq by (done || concrete). rewrite !zip_with_fmaps. apply list_fmap_ext.
  intros i k _. unfold new_trit. cbn [fst snd]. f_equal; f_equal; apply at729_mod.
  - f_equal. lia.
  - rewrite <- (Z.mod_add _ 110) by lia. f_equal. lia.
  - rewrite <- (Z.mod_add _ 110) by lia. f_equal. lia.
  - f_equal. lia.
Qed.

Lemma length_round t : length (round729 t) = 729%nat.
Proof. unfold round729. by rewrite length_fmap, length_seq. Qed.

Lemma permute_fast t : length t = 729%nat -> permute t = Nat.iter 9 round_fast t.
Proof.
  intros Lt. unfold permute. assert (forall n, Nat.iter n round729 t = Nat.iter n round_fast t /\ length (Nat.iter n round729 t) = 729%nat) as H.
  { induction n as [|n [IH L]]; [done|]. rewrite !Nat.iter_succ. split; [|apply length_round]. by rewrite round_fast_eq, IH by done. }
  apply H.
Qed.

(** The hash, evaluated round by round. *)
Definition sponge_fast (input : list Z) : list Z :=
  foldl (fun t b => Nat.iter 9 round_fast (b ++ drop 243 t)) start_state (blocks_of input).

Lemma pad_blocks n l : (length l <= 243 * (n + 1))%nat -> Forall (fun b => length b = 243%nat) (blocks n l).
Proof.
  revert l. induction n as [|n IH]; intros l Hl; cbn [blocks].
  - apply Forall_singleton, length_pad_block. lia.
  - destruct (Nat.ltb_spec 243 (length l)); [|apply Forall_singleton, length_pad_block; lia].
    constructor; [rewrite length_take; lia|]. apply IH. rewrite length_drop. lia.
Qed.

Lemma sponge_eq input : sponge input = sponge_fast input.
Proof.
  unfold sponge, sponge_fast. assert (Forall (fun b => length b = 243%nat) (blocks_of input)) as Hb.
  { apply pad_blocks. pose proof (Nat.div_mod_eq (length input) 243). pose proof (Nat.mod_upper_bound (length input) 243). lia. }
  assert (length start_state = 729%nat) as Ls by done. revert Ls. generalize start_state. induction Hb as [|b bs Lb Hb IH]; intros t Lt; [done|].
  cbn [foldl]. assert (length (b ++ drop 243 t) = 729%nat) as L by (rewrite length_app, length_drop; lia).
  unfold absorb_block at 2. rewrite <- (permute_fast _ L). apply IH. unfold permute. rewrite Nat.iter_succ. apply length_round.
Qed.

(** Exchanging [TRIT_TRUE] and [TRIT_FALSE] negates the hash. *)
Lemma at729_opp t k : at729 (Z.opp <$> t) k = - at729 t k.
Proof. unfold at729. change 0 with (- 0) at 1. apply (map_nth Z.opp). Qed.

Lemma Bias_opp a b : SaM_Bias (- a) (- b) = - SaM_Bias a b.
Proof. unfold SaM_Bias. repeat case_match; lia. Qed.

Lemma Sum_opp a b : SaM_Sum (- a) (- b) = - SaM_Sum a b.
Proof. unfold SaM_Sum. repeat case_match; lia. Qed.

Lemma permute_opp t : permute (Z.opp <$> t) = Z.opp <$> permute t.
Proof.
  unfold permute. generalize 9%nat. intros n. revert t. induction n as [|n IH]; intros t; [done|]. rewrite !Nat.iter_succ, IH.
  unfold round729. rewrite <- list_fmap_compose. apply list_fmap_ext. intros i k _. unfold compose, new_trit.
  by rewrite !at729_opp, !Bias_opp, Sum_opp.
Qed.

(** The hash with the two constants exchanged. *)
Definition exchanged_blocks (input : list Z) : list (list Z) := map (map Z.opp) (blocks_of (map Z.opp input)).
Definition sam_exchanged (input : list Z) : list Z := take 243 (foldl absorb_block (Z.opp <$> start_state) (exchanged_blocks input)).

Lemma exchanged_eq input : sam_exchanged input = Z.opp <$> sam_of (Z.opp <$> input).
Proof.
  unfold sam_exchanged, sam_of, sponge, exchanged_blocks. rewrite fmap_take. f_equal. change (map Z.opp input) with (Z.opp <$> input).
  generalize (blocks_of (Z.opp <$> input)), start_state. intros bs. induction bs as [|b bs IH]; intros t; [done|]. cbn [map foldl].
  rewrite <- IH. f_equal. unfold absorb_block. rewrite <- permute_opp, fmap_app, fmap_drop. done.
Qed.

Lemma vectors_computed :
  sam_of [] = Z.opp <$> OutputA /\ sam_of InputB = Z.opp <$> OutputB /\ sam_of InputC = Z.opp <$> OutputD /\
  sam_of InputD = Z.opp <$> OutputC /\ sam_of InputE = Z.opp <$> OutputE.
Proof. unfold sam_of. rewrite !sponge_eq. repeat split; vm_compute; reflexivity. Qed.

(** The memory of a process at its start. *)
Definition clear_info : SaM_info := mk_SaM_info (replicate 48 0) (replicate 729 0) (replicate 243 0).

Lemma clear_info_ok : info_ok clear_info.
Proof. done. Qed.

(** How many of the places of two lists differ. *)
Definition differences (h out : list Z) : Z := foldl (fun n p => if negb (p.1 =? p.2) then n + 1 else n) 0 (zip h out).

Lemma differences_loop h out : length h = 243%nat -> length out = 243%nat ->
  for_ (fun i errs => h ← aget h i; c ← aget out i; Some (if negb (h =? c) then errs + 1 else errs)) 0 243 0 = Some (differences h out).
Proof.
  intros Lh Lo. destruct (for_inv (fun k e => e = differences (take (Z.to_nat k) h) (take (Z.to_nat k) out))
    (fun i errs => h ← aget h i; c ← aget out i; Some (if negb (h =? c) then errs + 1 else errs)) 243 0 0) as (e & -> & ->).
  - done.
  - intros k e Hk ->. destruct (aget_is_Some h k) as (x & Hx & ->); [lia|]. destruct (aget_is_Some out k) as (y & Hy & ->); [lia|].
    cbn [mbind option_bind]. eexists. split; [done|]. replace (Z.to_nat (k + 1)) with (S (Z.to_nat k)) by lia.
    rewrite (take_S_r _ _ _ Hx), (take_S_r _ _ _ Hy). unfold differences. rewrite zip_with_app by (rewrite !length_take; lia). by rewrite foldl_app.
  - cbn [Z.add]. change (Z.to_nat (0 + Z.of_nat 243)) with 243%nat. by rewrite !take_ge by lia.
Qed.

Lemma absorb_nothing indices s v : _SaM_Absorb indices s v 0 = _SaM_Absorb indices s [] 0.
Proof.
  unfold _SaM_Absorb. change (Z.to_nat (0 / SAM_HASH_SIZE)) with 0%nat. cbn [absorb_loop]. unfold load_trits, memcpy.
  change (SAM_HASH_SIZE <=? 0) with false. cbn [andb orb]. change (0 - 0) with 0. change (Z.to_nat 0) with 0%nat. cbn [take drop].
  destruct (Z.ltb_spec (Z.of_nat (length v)) (0 + 0)); [lia|]. done.
Qed.

Lemma test_nothing indices junk v out : _SaM_test indices junk v 0 out = _SaM_test indices junk [] 0 out.
Proof. unfold _SaM_test. destruct (SaM_Initialize junk); [|done]. cbn [mbind option_bind]. by rewrite absorb_nothing. Qed.

Lemma test_eq indices junk v out : indices_ok indices -> info_ok junk -> trits v -> length out = 243%nat ->
  _SaM_test indices junk v (Z.of_nat (length v)) out = Some (differences (sam_of v) out).
Proof.
  intros Hi Hj Hv Lo. unfold _SaM_test. rewrite Initialize_eq by done. cbn [mbind option_bind]. destruct Hj as [Lb Lt Lh].
  assert (length (take 243 (sam_trits junk)) = 243%nat) as L243 by (rewrite length_take; lia).
  unfold _SaM_Absorb, SAM_HASH_SIZE. cbn [sam_trits sam_bits sam_hash].
  replace (Z.to_nat (Z.of_nat (length v) / 243)) with (length v / 243)%nat by (change 243 with (Z.of_nat 243); by rewrite <- Nat2Z.inj_div, Nat2Z.id).
  destruct (absorb_loop_eq indices Hi (length v / 243) (take 243 (sam_trits junk) ++ filler 243 486) [] v) as [E Hok].
  - pose proof (Nat.div_mod_eq (length v) 243). pose proof (Nat.mod_upper_bound (length v) 243). lia.
  - rewrite length_app, length_filler. lia.
  - rewrite drop_app_length' by done. apply filler_trits.
  - done.
  - cbn [app] in E. rewrite E. cbn [mbind option_bind].
    rewrite (absorb_first _ (replicate 243 0)) in Hok |- * by (rewrite ?length_replicate; done || apply blocks_nonempty).
    change (foldl absorb_block (replicate 243 0 ++ filler 243 486) (blocks (length v / 243) v)) with (sponge v) in *.
    rewrite emit_eq by (cbn [sam_bits sam_hash sam_trits]; done). cbn [mbind option_bind sam_trits sam_hash].
    apply differences_loop; [by apply state_hash|done].
Qed.

(** C18: [SaM] is a sponge: with the table filled by [SaM_PrepareIndices] it ends inside its
    arrays for any two inputs, whatever the stack held, and returns the first 27 trits as
    a number and the 48 bytes of the first third of the state that the blocks of the two
    inputs' bits leave behind.  A round of its permutation gives each trit by a closed
    formula from four others instead of the walk over the table.  This is not the hash
    that the vectors of [SaM_test] describe: what the blocks of no input and of 125 zero
    bytes leave behind is the negation of the vectors A and E. *)
Theorem SaM_spec table junk input size input2 size2 : length table = 729%nat -> info_ok junk -> input_ok input size input2 size2 ->
  let hash m := take 243 (foldl absorb_block start_state (blocks_of (bits_of m))) in
  let h := hash (part input size ++ part input2 size2) in
  (exists indices, SaM_PrepareIndices table = Some indices /\ SaM indices junk input size input2 size2 = Some (base3 (take 27 h), digest h)) /\
  hash [] = Z.opp <$> OutputA /\ hash (replicate 125 0) = Z.opp <$> OutputE.
Proof.
  intros Ht Hj Hin. split; [|split; apply vectors_computed]. destruct (PrepareIndices_ok table Ht) as (indices & E & Hi). exists indices. split; [done|].
  apply (SaM_eq indices junk _ _ _ _ Hi Hj Hin).
Qed.

Lemma SaM_spec_witness :
  let hash m := take 243 (foldl absorb_block start_state (blocks_of (bits_of m))) in
  let h := hash (part (Some [1; 2; 3]) 3 ++ part None 0) in
  (exists indices, SaM_PrepareIndices (replicate 729 0) = Some indices /\ SaM indices clear_info (Some [1; 2; 3]) 3 None 0 = Some (base3 (take 27 h), digest h)) /\
  hash [] = Z.opp <$> OutputA /\ hash (replicate 125 0) = Z.opp <$> OutputE.
Proof. exact (SaM_spec (replicate 729 0) clear_info (Some [1; 2; 3]) 3 None 0 ltac:(concrete) clear_info_ok ltac:(split; concrete)). Defined.

(** Every test of [SaM_test] fails: 166, 159, 171, 171 and 169 of the 243 trits differ
    from the vectors.  The vectors are those of the same hash with [TRIT_TRUE] and
    [TRIT_FALSE] exchanged in the start of the state and in the filling of the blocks. *)
Theorem SaM_test_fails indices junk : indices_ok indices -> info_ok junk ->
  _SaM_test indices junk InputA 0 OutputA = Some 166 /\ _SaM_test indices junk InputB 1 OutputB = Some 159 /\
  _SaM_test indices junk InputC 1 OutputC = Some 171 /\ _SaM_test indices junk InputD 1 OutputD = Some 171 /\
  _SaM_test indices junk InputE 1000 OutputE = Some 169 /\
  sam_exchanged [] = OutputA /\ sam_exchanged InputB = OutputB /\ sam_exchanged InputC = OutputC /\
  sam_exchanged InputD = OutputD /\ sam_exchanged InputE = OutputE.
Proof.
  intros Hi Hj. destruct vectors_computed as (HA & HB & HC & HD & HE).
  assert (forall v out h n d, sam_of v = h -> n = Z.of_nat (length v) -> trits v -> length out = 243%nat -> differences h out = d ->
    _SaM_test indices junk v n out = Some d) as Ht by (intros v out h n d <- -> Hv Lo <-; by apply test_eq).
  assert (forall v out, sam_of (Z.opp <$> v) = Z.opp <$> out -> sam_exchanged v = out) as He.
  { intros v out E. rewrite exchanged_eq, E, <- list_fmap_compose. rewrite <- (list_fmap_id out) at 2. apply list_fmap_ext. intros. apply Z.opp_involutive. }
  split; [|split; [|split; [|split; [|split; [|split; [|split; [|split; [|split]]]]]]]].
  - rewrite (test_nothing indices junk InputA). exact (Ht [] OutputA _ 0 166 HA eq_refl (Forall_nil_2 _) eq_refl eq_refl).
  - exact (Ht InputB OutputB _ 1 159 HB eq_refl ltac:(concrete) eq_refl eq_refl).
  - exact (Ht InputC OutputC _ 1 171 HC eq_refl ltac:(concrete) eq_refl eq_refl).
  - exact (Ht InputD OutputD _ 1 171 HD eq_refl ltac:(concrete) eq_refl eq_refl).
  - exact (Ht InputE OutputE _ 1000 169 HE eq_refl ltac:(concrete) eq_refl eq_refl).
  - exact (He [] OutputA HA).
  - exact (He InputB OutputB HB).
  - exact (He InputC OutputC HD).
  - exact (He InputD OutputD HC).
  - exact (He InputE OutputE HE).
Qed.

(** *** The filling is unambiguous *)

Lemma blocks_concat n l : (length l <= 243 * (n + 1))%nat -> exists a k, concat (blocks n l) = l ++ filler a k.
Proof.
  revert l. induction n as [|n IH]; intros l Hl; cbn [blocks].
  - cbn [concat]. rewrite app_nil_r. unfold pad_block. eauto.
  - destruct (Nat.ltb_spec 243 (length l)) as [H|H]; [|cbn [concat]; rewrite app_nil_r; unfold pad_block; eauto].
    destruct (IH (drop 243 l)) as (a & k & E); [rewrite length_drop; lia|]. exists a, k. cbn [concat]. rewrite E, app_assoc, take_drop. done.
Qed.

Lemma blocks_of_concat l : exists a k, concat (blocks_of l) = l ++ filler a k.
Proof.
  apply blocks_concat. pose proof (Nat.div_mod_eq (length l) 243). pose proof (Nat.mod_upper_bound (length l) 243). lia.
Qed.

(** Of two neighbouring places of a filling one holds -1. *)
Lemma filler_true a k : (2 <= k)%nat -> exists i, (i < 2)%nat /\ filler a k !! i = Some (-1).
Proof.
  intros Hk. unfold filler. assert (Nat.odd a = false \/ Nat.odd (a + 1) = false) as [E|E].
  { rewrite Nat.add_1_r, Nat.odd_succ, <- Nat.negb_odd. destruct (Nat.odd a); auto. }
  - exists 0%nat. split; [lia|]. rewrite list_lookup_fmap, lookup_seq_lt by lia. cbn. by rewrite Nat.add_0_r, E.
  - exists 1%nat. split; [lia|]. rewrite list_lookup_fmap, lookup_seq_lt by lia. cbn. by rewrite E.
Qed.

Lemma fillings_differ x y a b k j : Forall (fun t => t = 0 \/ t = 1) y -> x ++ filler a k = y ++ filler b j -> (length x + 2 <= length y)%nat -> False.
Proof.
  intros Hy E Hl. pose proof (f_equal length E) as L. rewrite !length_app, !length_filler in L.
  destruct (filler_true a k) as (i & Hi & Hf); [lia|].
  assert ((x ++ filler a k) !! (length x + i)%nat = Some (-1)) as H by (rewrite lookup_app_r by lia; rewrite <- Hf; f_equal; lia).
  rewrite E, lookup_app_l in H by lia. destruct (Forall_lookup_1 _ _ _ _ Hy H) as [?|?]; lia.
Qed.

(** The number a list of bits stands for. *)
Definition unbits : list Z -> Z := foldr (fun t a => t + 2 * a) 0.

Lemma unbits_byte b : is_byte b -> unbits (byte_bits b) = b.
Proof.
  intros Hb. assert (forallb (fun n => unbits (byte_bits (Z.of_nat n)) =? Z.of_nat n) (seq 0 256) = true) as H by (vm_compute; reflexivity).
  rewrite forallb_forall in H. specialize (H (Z.to_nat b)). rewrite Z2Nat.id in H by apply Hb. apply Z.eqb_eq, H, in_seq. unfold is_byte in Hb. lia.
Qed.

Lemma bits_of_inj l k : bytes l -> bytes k -> bits_of l = bits_of k -> l = k.
Proof.
  intros Hl. revert k. induction Hl as [|b l Hb Hl IH]; intros k Hk E; destruct Hk as [|c k Hc Hk]; try done.
  unfold bits_of in *. rewrite !fmap_cons in E. cbn [concat] in E.
  apply app_inj_1 in E as [E1 E2]; [|done]. f_equal; [|by apply IH].
  by rewrite <- (unbits_byte b Hb), <- (unbits_byte c Hc), E1.
Qed.

Lemma blocks_of_bits_inj l k : bytes l -> bytes k -> blocks_of (bits_of l) = blocks_of (bits_of k) -> l = k.
Proof.
  intros Hl Hk E. apply (f_equal (@concat Z)) in E.
  destruct (blocks_of_concat (bits_of l)) as (a & m & E1), (blocks_of_concat (bits_of k)) as (b & n & E2). rewrite E1, E2 in E.
  assert (length l = length k) as L.
  { destruct (lt_eq_lt_dec (length l) (length k)) as [[H|H]|H]; [exfalso|done|exfalso].
    - eapply (fillings_differ (bits_of l) (bits_of k)); [apply bits_of_trit|exact E|rewrite !length_bits_of; lia].
    - eapply (fillings_differ (bits_of k) (bits_of l)); [apply bits_of_trit|symmetry; exact E|rewrite !length_bits_of; lia]. }
  apply bits_of_inj; [done|done|]. apply app_inj_1 in E as [E _]; [done|by rewrite !length_bits_of, L].
Qed.

(** The blocks absorbed determine the message: two byte strings that are cut and
    filled into the same blocks are equal, although a message of whole blocks gets no
    filling, because every filling holds a trit that no bit has. *)
Theorem sam_padding_injective l k : bytes l -> bytes k -> blocks_of (bits_of l) = blocks_of (bits_of k) -> l = k.
Proof. apply blocks_of_bits_inj. Qed.

Lemma sam_padding_injective_witness : [7; 9] = [7; 9].
Proof. apply (sam_padding_injective [7; 9] [7; 9]); [concrete|concrete|reflexivity]. Defined.

(** ** Proofs of work

    A hit below [3^(27 - k)] is a hash that starts with [k] true trits. *)

Definition leading (leverage : Z) : nat := Z.to_nat (Z.min 26 leverage).

Lemma base3_zero l : trits l -> base3 l = 0 <-> l = replicate (length l) TRIT_TRUE.
Proof.
  induction l as [|t l IH] using rev_ind; [done|]. intros [Hl Ht]%Forall_app. apply Forall_cons_1 in Ht as [Ht _]. specialize (IH Hl). unfold is_trit in Ht.
  pose proof (base3_range l Hl). rewrite base3_snoc, length_app. cbn [length]. rewrite Nat.add_1_r, replicate_S_end. unfold TRIT_TRUE in *. split.
  - intros E. f_equal; [apply IH; lia|]. f_equal. lia.
  - intros [E1 E2]%app_inj_2; [|done]. apply IH in E1. injection E2. lia.
Qed.

Lemma hit_below h k : length h = 27%nat -> trits h -> (k <= 27)%nat ->
  base3 h < 3 ^ Z.of_nat (27 - k) <-> take k h = replicate k TRIT_TRUE.
Proof.
  intros Lh Hh Hk. rewrite <- (take_drop k h) at 1. rewrite base3_app, length_drop, Lh.
  assert (trits (take k h)) as H1 by (by apply Forall_take). assert (trits (drop k h)) as H2 by (by apply Forall_drop).
  pose proof (base3_range _ H1) as R1. pose proof (base3_range _ H2) as R2. rewrite length_drop, Lh in R2.
  pose proof (base3_zero _ H1) as Z1. rewrite length_take, Lh, Nat.min_l in Z1 by done. rewrite <- Z1. nia.
Qed.

Lemma threshold_eq leverage : SaM_threshold leverage = Some (3 ^ Z.of_nat (27 - leading leverage)).
Proof.
  unfold SaM_threshold. assert (Z.to_nat (if 26 <? leverage then 26 else leverage) = leading leverage) as ->.
  { unfold leading. destruct (Z.ltb_spec 26 leverage); lia. }
  assert (leading leverage <= 26)%nat as Hk by (unfold leading; lia).
  destruct (for_inv (fun k d => d = 3 ^ k) (fun _ divisor => Some (u64 (divisor * 3))) (leading leverage) 0 1) as (d & -> & ->); [done| |].
  - intros k d Hlt ->. eexists. split; [done|]. rewrite Z.pow_add_r by lia. change (3 ^ 1) with 3.
    assert (3 ^ k <= 3 ^ 26) by (apply Z.pow_le_mono_r; lia). pose proof (Z.pow_nonneg 3 k). unfold u64, wrapU. apply Z.mod_small.
    change (3 ^ 26) with 2541865828329 in *. change (2 ^ 64) with 18446744073709551616. lia.
  - cbn [mbind option_bind]. rewrite Z.add_0_l. assert (0 < 3 ^ Z.of_nat (leading leverage)) by (apply Z.pow_pos_nonneg; lia).
    destruct (Z.eqb_spec (3 ^ Z.of_nat (leading leverage)) 0); [lia|]. f_equal. change SAMHIT_LIMIT with (3 ^ 27).
    replace 27 with (Z.of_nat (27 - leading leverage) + Z.of_nat (leading leverage)) at 1 by lia. rewrite Z.pow_add_r by lia. apply Z.div_mul. lia.
Qed.

(** The hash the work is measured by. *)
Definition work_hash (data : list Z) (datalen nonce : Z) : list Z :=
  take 27 (sam_of (bits_of (take (Z.to_nat datalen) data ++ le_bytes 4 nonce))).
Definition work_done (data : list Z) (datalen leverage nonce : Z) : Prop :=
  take (leading leverage) (work_hash data datalen nonce) = replicate (leading leverage) TRIT_TRUE.

#[export] Instance work_done_dec data datalen leverage nonce : Decision (work_done data datalen leverage nonce).
Proof. unfold work_done. apply _. Defined.

Section Work.
Context (indices : list Z) (junk : SaM_info) (data : list Z) (datalen leverage : Z).
Hypothesis Hi : indices_ok indices.
Hypothesis Hj : info_ok junk.
Hypothesis Hd : 0 <= datalen <= Z.of_nat (length data) /\ datalen < 2 ^ 28 - 4.

Lemma work_ok nonce : length (work_hash data datalen nonce) = 27%nat /\ trits (work_hash data datalen nonce) /\
  exists sig, SaM indices junk (Some data) (u32 datalen) (Some (le_bytes 4 nonce)) 4 = Some (base3 (work_hash data datalen nonce), sig).
Proof using Hi Hj Hd.
  assert (u32 datalen = datalen) as -> by (unfold u32, wrapU; apply Z.mod_small; lia).
  destruct (SaM_eq indices junk (Some data) datalen (Some (le_bytes 4 nonce)) 4 Hi Hj) as (E & Lh & Hh).
  { split; cbn [part_ok]; rewrite ?length_le_bytes; lia. }
  unfold sam_message in *. cbn [part] in *. rewrite (take_ge (le_bytes 4 nonce)) in * by (rewrite length_le_bytes; lia).
  split; [unfold work_hash; rewrite length_take; lia|]. split; [by apply Forall_take|]. eauto.
Qed.

Lemma work_below nonce : base3 (work_hash data datalen nonce) < 3 ^ Z.of_nat (27 - leading leverage) <-> work_done data datalen leverage nonce.
Proof using Hi Hj Hd. destruct (work_ok nonce) as (L & H & _). apply hit_below; [done|done|unfold leading; lia]. Qed.

Lemma check_nonce_eq nonce : leverage <> 0 -> check_nonce indices junk data datalen leverage nonce =
  Some (if base3 (work_hash data datalen nonce) <=? 3 ^ Z.of_nat (27 - leading leverage) then 0 else 0xffffffff).
Proof using Hi Hj Hd.
  intros Hl. unfold check_nonce. destruct (Z.eqb_spec leverage 0); [done|]. rewrite threshold_eq. cbn [mbind option_bind].
  destruct (work_ok nonce) as (L & H & sig & ->). cbn [mbind option_bind]. pose proof (base3_range _ H) as R. rewrite L in R.
  set (hit := base3 _) in *. assert (3 ^ Z.of_nat (27 - leading leverage) <= 3 ^ 27) by (apply Z.pow_le_mono_r; lia).
  assert (0 < 3 ^ Z.of_nat (27 - leading leverage)) by (apply Z.pow_pos_nonneg; lia). set (th := 3 ^ Z.of_nat (27 - leading leverage)) in *.
  change (3 ^ Z.of_nat 27) with 7625597484987 in *. change (3 ^ 27) with 7625597484987 in *.
  destruct (Z.leb_spec th hit), (Z.leb_spec hit th); try lia.
  - replace (th - hit) with 0 by lia. done.
  - assert (u64 (th - hit) = 2 ^ 64 + (th - hit)) as ->.
    { unfold u64, wrapU. rewrite <- (Z.mod_add (th - hit) 1) by done. rewrite Z.mod_small; change (2 ^ 64) with 18446744073709551616; lia. }
    destruct (Z.ltb_spec (Z.shiftl 1 32) (2 ^ 64 + (th - hit))) as [_|Hc]; [done|]. change (Z.shiftl 1 32) with 4294967296 in Hc.
    change (2 ^ 64) with 18446744073709551616 in Hc. lia.
  - done.
Qed.

Lemma find_nonce_eq draws : leverage <> 0 -> find_nonce indices junk data datalen leverage (3 ^ Z.of_nat (27 - leading leverage)) draws =
  Some (hd 0 (filter (work_done data datalen leverage) draws)).
Proof using Hi Hj Hd.
  intros Hl. induction draws as [|nonce draws IH]; [done|]. cbn [find_nonce]. destruct (work_ok nonce) as (_ & _ & sig & ->). cbn [mbind option_bind].
  pose proof (work_below nonce) as Hw. destruct (Z.ltb_spec (base3 (work_hash data datalen nonce)) (3 ^ Z.of_nat (27 - leading leverage))) as [Hlt|Hge].
  - rewrite check_nonce_eq by done. cbn [mbind option_bind]. rewrite filter_cons_True by (by apply Hw). done.
  - rewrite filter_cons_False by (rewrite <- Hw; lia). done.
Qed.
End Work.

(** C19: [SaM_nonce] is a proof of work.  The search returns the first nonce drawn whose
    hash of data and nonce starts with [leverage] true trits, at most 26, or 0; the check
    accepts, with 0, such a nonce, and so every nonce the search returns.  Otherwise it
    returns 0xffffffff, but for the one hit that equals the threshold, which is taken too:
    the difference it returns as the error is then 0. *)
Theorem SaM_nonce_spec indices junk data datalen leverage nonce draws : indices_ok indices -> info_ok junk ->
  0 <= datalen <= Z.of_nat (length data) /\ datalen < 2 ^ 28 - 4 -> leverage <> 0 ->
  let check n := SaM_nonce indices junk data datalen leverage 0 n [] in
  let k := leading leverage in
  (forall n, check n = Some 0 \/ check n = Some 0xffffffff) /\
  (forall n, check n = Some 0 <-> work_done data datalen leverage n \/ base3 (work_hash data datalen n) = 3 ^ Z.of_nat (27 - k)) /\
  forall maxmillis, maxmillis <> 0 ->
    SaM_nonce indices junk data datalen leverage maxmillis nonce draws = Some (hd 0 (filter (work_done data datalen leverage) draws)) /\
    forall n, SaM_nonce indices junk data datalen leverage maxmillis nonce draws = Some n -> n <> 0 -> check n = Some 0.
Proof.
  intros Hi Hj Hd Hl check k.
  assert (forall n, check n = Some (if base3 (work_hash data datalen n) <=? 3 ^ Z.of_nat (27 - k) then 0 else 0xffffffff)) as Hc.
  { intros n. unfold check, SaM_nonce. destruct (Z.eqb_spec leverage 0); [done|]. by apply check_nonce_eq. }
  assert (forall n, check n = Some 0 <-> work_done data datalen leverage n \/ base3 (work_hash data datalen n) = 3 ^ Z.of_nat (27 - k)) as Hw.
  { intros n. rewrite Hc, <- (work_below indices junk) by done. fold k. destruct (Z.leb_spec (base3 (work_hash data datalen n)) (3 ^ Z.of_nat (27 - k))).
    - split; [lia|done].
    - split; [done|lia]. }
  split; [intros n; rewrite Hc; case_match; auto|]. split; [done|]. intros maxmillis Hm.
  assert (SaM_nonce indices junk data datalen leverage maxmillis nonce draws = Some (hd 0 (filter (work_done data datalen leverage) draws))) as Hs.
  { unfold SaM_nonce. destruct (Z.eqb_spec leverage 0); [done|]. destruct (Z.eqb_spec maxmillis 0); [done|]. rewrite threshold_eq. cbn [mbind option_bind]. by apply find_nonce_eq. }
  split; [done|]. intros n E Hn. apply Hw. left. rewrite Hs in E. injection E as E.
  destruct (filter (work_done data datalen leverage) draws) as [|x l] eqn:F; cbn [hd] in E; [lia|]. subst x.
  assert (n ∈ filter (work_done data datalen leverage) draws) as [H _]%list_elem_of_filter by (rewrite F; left). done.
Qed.

(** A table as the program fills it. *)
Definition walk : list Z := (fun i => (254 * (Z.of_nat i + 1)) mod 729) <$> seq 0 729.

Lemma walk_ok : indices_ok walk.
Proof.
  intros i Hi. apply aget_lookup; [lia|]. unfold walk. rewrite list_lookup_fmap, lookup_seq_lt by lia. cbn [fmap option_fmap option_map Nat.add]. by rewrite Z2Nat.id by lia.
Qed.

Lemma SaM_test_fails_witness :
  _SaM_test walk clear_info InputA 0 OutputA = Some 166 /\ _SaM_test walk clear_info InputB 1 OutputB = Some 159 /\
  _SaM_test walk clear_info InputC 1 OutputC = Some 171 /\ _SaM_test walk clear_info InputD 1 OutputD = Some 171 /\
  _SaM_test walk clear_info InputE 1000 OutputE = Some 169 /\
  sam_exchanged [] = OutputA /\ sam_exchanged InputB = OutputB /\ sam_exchanged InputC = OutputC /\
  sam_exchanged InputD = OutputD /\ sam_exchanged InputE = OutputE.
Proof. exact (SaM_test_fails walk clear_info walk_ok clear_info_ok). Defined.

Lemma SaM_nonce_spec_witness :
  let check n := SaM_nonce walk clear_info [1; 2; 3] 3 5 0 n [] in
  let k := leading 5 in
  (forall n, check n = Some 0 \/ check n = Some 0xffffffff) /\
  (forall n, check n = Some 0 <-> work_done [1; 2; 3] 3 5 n \/ base3 (work_hash [1; 2; 3] 3 n) = 3 ^ Z.of_nat (27 - k)) /\
  forall maxmillis, maxmillis <> 0 ->
    SaM_nonce walk clear_info [1; 2; 3] 3 5 maxmillis 0 [17; 18] = Some (hd 0 (filter (work_done [1; 2; 3] 3 5) [17; 18])) /\
    forall n, SaM_nonce walk clear_info [1; 2; 3] 3 5 maxmillis 0 [17; 18] = Some n -> n <> 0 -> check n = Some 0.
Proof. exact (SaM_nonce_spec walk clear_info [1; 2; 3] 3 5 0 [17; 18] walk_ok clear_info_ok ltac:(concrete) ltac:(concrete)). Defined.

(** ** The cipher and the signature

    The stream is made of the digests of the states that follow one another. *)

Fixpoint pads (t : list Z) (n : nat) : list Z :=
  match n with O => [] | S n => digest (take 243 t) ++ pads (permute t) n end.
Definition sam_stream (t : list Z) (n : nat) : list Z := take n (pads t (n / 48 + 1)).

(** What the array [xorpad] holds in the end: place [i] the last byte of the text whose
    number is [i] modulo 48. *)
Definition final_pad (x c : list Z) : list Z :=
  if (length c <? 48)%nat then c ++ drop (length c) x
  else let r := (length c mod 48)%nat in let last := drop (length c - 48) c in drop (48 - r) last ++ take (48 - r) last.

Lemma length_pads t n : length (pads t n) = (48 * n)%nat.
Proof. revert t. induction n as [|n IH]; intros t; cbn [pads]; [done|]. rewrite length_app, IH, length_digest. lia. Qed.

Lemma sam_stream_small t n : (n <= 48)%nat -> sam_stream t n = take n (digest (take 243 t)).
Proof.
  intros Hn. unfold sam_stream. rewrite Nat.add_1_r. cbn [pads]. by rewrite take_app_le by (rewrite length_digest; lia).
Qed.

Lemma sam_stream_next t n : sam_stream t (48 + n) = digest (take 243 t) ++ sam_stream (permute t) n.
Proof.
  unfold sam_stream. replace ((48 + n) / 48 + 1)%nat with (S (n / 48 + 1)) by (replace (48 + n)%nat with (n + 1 * 48)%nat by lia; rewrite Nat.div_add; lia).
  cbn [pads]. rewrite take_app_ge by (rewrite length_digest; lia). rewrite length_digest. by replace (48 + n - 48)%nat with n by lia.
Qed.

Lemma length_sam_stream t n : length (sam_stream t n) = n.
Proof.
  unfold sam_stream. rewrite length_take, length_pads. pose proof (Nat.div_mod_eq n 48). pose proof (Nat.mod_upper_bound n 48). lia.
Qed.

Lemma final_pad_small x c : length x = 48%nat -> (length c <= 48)%nat -> final_pad x c = c ++ drop (length c) x.
Proof.
  intros Lx Hc. unfold final_pad. destruct (Nat.ltb_spec (length c) 48); [done|]. assert (length c = 48%nat) as -> by lia.
  change (48 mod 48)%nat with 0%nat. change (48 - 48)%nat with 0%nat. change (48 - 0)%nat with 48%nat. by rewrite drop_0, (drop_ge c), (drop_ge x), take_ge, app_nil_r by lia.
Qed.

Lemma final_pad_next x c : (48 < length c)%nat -> final_pad x c = final_pad (take 48 c) (drop 48 c).
Proof.
  intros Hc. unfold final_pad at 1. destruct (Nat.ltb_spec (length c) 48); [lia|]. unfold final_pad. rewrite length_drop.
  destruct (Nat.ltb_spec (length c - 48) 48) as [H1|H1].
  - replace (length c mod 48)%nat with (length c - 48)%nat.
    2: { replace (length c) with (length c - 48 + 1 * 48)%nat at 2 by lia. by rewrite Nat.Div0.mod_add, Nat.mod_small. }
    rewrite drop_drop. replace (length c - 48 + (48 - (length c - 48)))%nat with 48%nat by lia. f_equal.
    rewrite skipn_firstn_comm. done.
  - replace (length c mod 48)%nat with ((length c - 48) mod 48)%nat.
    2: { replace (length c) with (length c - 48 + 1 * 48)%nat at 2 by lia. by rewrite Nat.Div0.mod_add. }
    by replace (drop (length c - 48 - 48) (drop 48 c)) with (drop (length c - 48) c) by (rewrite drop_drop; f_equal; lia).
Qed.

(** The inner loop. *)
Lemma encrypt_bytes pad src pos n xorpad dest : (n <= length pad)%nat -> (n <= length xorpad)%nat -> (pos + n <= length src)%nat ->
  (forall d, dest = Some d -> (pos + n <= length d)%nat) ->
  let c := xor_bytes (take n pad) (take n (drop pos src)) in
  for_ (encrypt_byte pad src (Z.of_nat pos)) 0 n (xorpad, dest) =
    Some (c ++ drop n xorpad, (fun d => take pos d ++ c ++ drop (pos + n) d) <$> dest).
Proof.
  intros Hp Hx Hs Hd c.
  destruct (for_inv (fun k s => let c := xor_bytes (take (Z.to_nat k) pad) (take (Z.to_nat k) (drop pos src)) in
    s = (c ++ drop (Z.to_nat k) xorpad, (fun d => take pos d ++ c ++ drop (pos + Z.to_nat k) d) <$> dest)) (encrypt_byte pad src (Z.of_nat pos)) n 0 (xorpad, dest))
    as (s & -> & ->).
  - change (Z.to_nat 0) with 0%nat. cbn [take drop]. change (xor_bytes [] []) with (@nil Z). cbn [app]. f_equal. destruct dest as [d|]; [|done].
    change (Some d = Some (take pos d ++ drop (pos + 0) d)). by rewrite Nat.add_0_r, take_drop.
  - intros k s Hk ->. unfold encrypt_byte. destruct (aget_is_Some pad k) as (p & Ep & ->); [lia|]. destruct (aget_is_Some src (Z.of_nat pos + k)) as (b & Eb & ->); [lia|].
    cbn [mbind option_bind].
    assert (drop pos src !! Z.to_nat k = Some b) as Eb' by (rewrite lookup_drop, <- Eb; f_equal; lia).
    set (c' := xor_bytes (take (Z.to_nat k) pad) (take (Z.to_nat k) (drop pos src))).
    assert (length c' = Z.to_nat k) as Lc by (unfold c', xor_bytes; rewrite length_zip_with, !length_take, length_drop; lia).
    replace (Z.to_nat (k + 1)) with (S (Z.to_nat k)) by lia.
    assert (xor_bytes (take (S (Z.to_nat k)) pad) (take (S (Z.to_nat k)) (drop pos src)) = c' ++ [Z.lxor p b]) as ->.
    { rewrite (take_S_r _ _ _ Ep), (take_S_r _ _ _ Eb'). unfold xor_bytes. rewrite zip_with_app by (rewrite !length_take, length_drop; lia). done. }
    assert (forall (l : list Z) z, (Z.to_nat k < length l)%nat -> aset (c' ++ drop (Z.to_nat k) l) k z = Some ((c' ++ [z]) ++ drop (S (Z.to_nat k)) l)) as Hset.
    { intros l z Hl. rewrite aset_in_range by (rewrite length_app, length_drop; lia). rewrite insert_app_r_alt by lia. rewrite Lc, Nat.sub_diag.
      destruct (lookup_lt_is_Some_2 l (Z.to_nat k)) as [y Hy]; [lia|]. rewrite (drop_S _ _ _ Hy). cbn [list_insert insert]. by rewrite <- app_assoc. }
    rewrite Hset by lia. cbn [mbind option_bind]. destruct dest as [d|]; cbn [fmap option_fmap option_map mbind option_bind]; [|eauto].
    specialize (Hd d eq_refl). erewrite aget_lookup; [|lia|rewrite <- app_assoc, lookup_app_r by (rewrite Lc; lia); rewrite Lc, Nat.sub_diag; reflexivity]. cbn [mbind option_bind].
    eexists. split.
    { rewrite aset_in_range by (rewrite !length_app, length_take, length_drop, Lc; lia). cbn [mbind option_bind]. reflexivity. }
    f_equal. f_equal. rewrite insert_app_r_alt by (rewrite length_take; lia). f_equal. rewrite length_take, Nat.min_l by lia.
    replace (Z.to_nat (Z.of_nat pos + k) - pos)%nat with (Z.to_nat k) by lia. rewrite insert_app_r_alt by lia. rewrite Lc, Nat.sub_diag.
    destruct (lookup_lt_is_Some_2 d (pos + Z.to_nat k)) as [y Hy]; [lia|]. rewrite (drop_S _ _ _ Hy). cbn [list_insert insert].
    rewrite <- app_assoc. cbn [app]. by rewrite Nat.add_succ_r.
  - by rewrite Z.add_0_l, Nat2Z.id.
Qed.

(** The loop from place [pos] on, [n] bytes before the end. *)
Lemma encrypt_loop_eq indices blocks s xorpad dest src pos n : indices_ok indices ->
  length (sam_bits s) = 48%nat -> length (sam_hash s) = 243%nat -> state_ok (sam_trits s) -> length xorpad = 48%nat ->
  (n <= 48 * blocks)%nat -> (pos + n <= length src)%nat -> (forall d, dest = Some d -> (pos + n <= length d)%nat) ->
  let c := xor_bytes (sam_stream (sam_trits s) n) (take n (drop pos src)) in
  encrypt_loop blocks indices s xorpad dest src (Z.of_nat pos) (Z.of_nat n - 1) =
    Some (if (n =? 0)%nat then xorpad else final_pad xorpad c, (fun d => take pos d ++ c ++ drop (pos + n) d) <$> dest).
Proof.
  intros Hi. revert s xorpad dest pos n. induction blocks as [|blocks IH]; intros s xorpad dest pos n Lb Lh Ht Lx Hn Hs Hd c.
  all: destruct (decide (n = 0%nat)) as [->|Hz]; [cbn [encrypt_loop]; change (Z.of_nat 0 - 1) with (-1); change (0 <=? -1) with false; cbn;
    destruct dest as [d|]; [change (c ++ drop (pos + 0) d) with (drop (pos + 0) d); cbn; by rewrite Nat.add_0_r, take_drop|done]|].
  { lia. }
  cbn [encrypt_loop]. destruct (Z.leb_spec 0 (Z.of_nat n - 1)); [|lia]. rewrite emit_eq by done. cbn [mbind option_bind sam_bits].
  assert (Z.min 48 (Z.of_nat n - 1 + 1) = Z.of_nat (n `min` 48)) as -> by lia. rewrite Nat2Z.id.
  rewrite encrypt_bytes by (rewrite ?length_digest; first [lia | intros d E; specialize (Hd d E); lia]). cbn [mbind option_bind].
  destruct (Nat.eqb_spec n 0); [done|]. destruct (decide (n <= 48)%nat) as [Hsm|Hbig].
  - rewrite Nat.min_l by done. replace (Z.of_nat n - 1 - Z.of_nat n) with (-1) by lia.
    assert (forall b i s x (d : option (list Z)) sr p, encrypt_loop b i s x d sr p (-1) = Some (x, d)) as -> by (by intros []).
    rewrite <- sam_stream_small by done. fold c. do 2 f_equal. rewrite final_pad_small; [|done|].
    + assert (length c = n) as -> by (unfold c, xor_bytes; rewrite length_zip_with, length_sam_stream, length_take, length_drop; lia). done.
    + unfold c, xor_bytes. rewrite length_zip_with, length_sam_stream. lia.
  - rewrite Nat.min_r by lia. assert (exists m, n = (48 + m)%nat) as [m ->] by (exists (n - 48)%nat; lia).
    replace (Z.of_nat pos + Z.of_nat 48) with (Z.of_nat (pos + 48)) by lia. replace (Z.of_nat (48 + m) - 1 - Z.of_nat 48) with (Z.of_nat m - 1) by lia.
    rewrite (take_ge (digest _)) by (rewrite length_digest; lia).
    set (b := xor_bytes (digest (take 243 (sam_trits s))) (take 48 (drop pos src))).
    assert (length b = 48%nat) as Lbl by (unfold b, xor_bytes; rewrite length_zip_with, length_digest, length_take, length_drop; lia).
    assert (length (take 243 (sam_trits s)) = 243%nat) as L243 by (rewrite length_take, (proj1 Ht); done).
    rewrite (drop_ge xorpad) by lia. rewrite app_nil_r.
    assert (c = b ++ xor_bytes (sam_stream (permute (sam_trits s)) m) (take m (drop (pos + 48) src))) as Ec.
    { unfold c, b, xor_bytes. rewrite sam_stream_next, <- (take_take_drop _ 48 m), drop_drop, zip_with_app; [done|]. rewrite length_digest, length_take, length_drop. lia. }
    set (c2 := xor_bytes (sam_stream (permute (sam_trits s)) m) _) in Ec.
    assert (length c2 = m) as Lc2 by (unfold c2, xor_bytes; rewrite length_zip_with, length_sam_stream, length_take, length_drop; lia).
    match goal with |- encrypt_loop _ _ ?s' _ ?d' _ _ _ = _ => rewrite (IH s' b d' (pos + 48)%nat m) end.
    2: apply length_digest. 2: exact L243. 2: { apply (SplitAndMerge_eq indices _ Hi Ht). } 2: exact Lbl. 2: lia. 2: lia.
    2: { intros d. destruct dest as [d0|]; cbn [fmap option_fmap option_map]; [|done]. intros [= <-]. specialize (Hd d0 eq_refl).
         rewrite !length_app, length_take, length_drop, Lbl. lia. }
    cbn [sam_trits]. fold c2. f_equal. f_equal.
    + destruct (Nat.eqb_spec m 0); [lia|]. rewrite (final_pad_next _ c) by (rewrite Ec, length_app; lia). rewrite Ec, take_app_length', drop_app_length' by done. done.
    + destruct dest as [d|]; cbn [fmap option_fmap option_map]; [|done]. specialize (Hd d eq_refl). f_equal.
      rewrite take_app_ge by (rewrite length_take; lia). rewrite length_take, Nat.min_l, Ec, <- !app_assoc by lia. f_equal.
      rewrite take_app_length' by lia. f_equal. f_equal. rewrite drop_app_ge by (rewrite length_take; lia). rewrite length_take, Nat.min_l by lia.
      rewrite drop_app_ge by lia. rewrite drop_drop. f_equal. lia.
Qed.

(** The state a password and a time lead to, and the key stream. *)
Definition cipher_state (password : list Z) (timestamp : Z) : list Z := sponge (bits_of (take 48 password ++ le_bytes 4 timestamp)).
Definition cipher (password : list Z) (timestamp : Z) (text : list Z) : list Z :=
  xor_bytes (sam_stream (cipher_state password timestamp) (length text)) text.

Lemma encrypt_eq indices junk xorpad dest src n password timestamp : indices_ok indices -> info_ok junk -> length xorpad = 48%nat ->
  (48 <= length password)%nat -> (n < length src)%nat -> (forall d, dest = Some d -> (n < length d)%nat) ->
  let c := cipher password timestamp (take (S n) src) in
  SaM_encrypt indices junk xorpad dest src (Z.of_nat n) password timestamp = Some (final_pad xorpad c, (fun d => c ++ drop (S n) d) <$> dest).
Proof.
  intros Hi Hj Lx Lp Hs Hd c. unfold SaM_encrypt.
  destruct (start_absorb indices Hi junk (Some password) 48 (Some (le_bytes 4 timestamp)) 4 Hj) as (s0 & -> & E1 & Hok).
  { split; cbn [part_ok]; rewrite ?length_le_bytes; lia. }
  cbn [mbind option_bind]. rewrite E1. cbn [mbind option_bind]. unfold sam_message in *. cbn [part] in *. change (Z.to_nat 48) with 48%nat in *.
  rewrite (take_ge (le_bytes 4 timestamp)) in * by (rewrite length_le_bytes; lia). fold (cipher_state password timestamp) in *.
  pose proof (Nat.div_mod_eq n 48). pose proof (Nat.mod_upper_bound n 48).
  replace (Z.to_nat (Z.of_nat n / 48 + 1)) with (n / 48 + 1)%nat by (change 48 with (Z.of_nat 48); rewrite <- Nat2Z.inj_div; lia).
  replace (Z.of_nat n) with (Z.of_nat (S n) - 1) by lia. change 0 with (Z.of_nat 0) at 1.
  rewrite encrypt_loop_eq; [|done|apply Hj|apply Hj|exact Hok|done|lia|cbn; lia|cbn; intros d E; specialize (Hd d E); lia].
  cbn [sam_trits Nat.eqb drop Nat.add]. replace (sam_stream (cipher_state password timestamp) (S n)) with (sam_stream (cipher_state password timestamp) (length (take (S n) src))) by (rewrite length_take; f_equal; lia).
  fold (cipher password timestamp (take (S n) src)). fold c. done.
Qed.

Lemma xor_bytes_twice k l : length k = length l -> xor_bytes k (xor_bytes k l) = l.
Proof.
  unfold xor_bytes. revert l. induction k as [|x k IH]; intros [|y l] H; simplify_eq/=; [done|]. f_equal; [|by apply IH].
  by rewrite <- Z.lxor_assoc, Z.lxor_nilpotent, Z.lxor_0_l.
Qed.

Lemma length_cipher p t l : length (cipher p t l) = length l.
Proof. unfold cipher, xor_bytes. rewrite length_zip_with, length_sam_stream. lia. Qed.

Lemma cipher_twice p t l : cipher p t (cipher p t l) = l.
Proof.
  unfold cipher at 1. rewrite length_cipher. apply xor_bytes_twice. apply length_sam_stream.
Qed.

(** C20: [SaM_encrypt] with the same password and time takes back what it did: whatever
    the stack held, it ends inside its arrays and turns the text into as many bytes, one
    more than the length it is given, and these back into the text; what follows in both
    buffers stays as it was. *)
Theorem SaM_encrypt_roundtrip indices junk junk' xorpad xorpad' src d1 d2 n password timestamp : indices_ok indices -> info_ok junk -> info_ok junk' ->
  length xorpad = 48%nat -> length xorpad' = 48%nat -> (48 <= length password)%nat -> (n < length src)%nat -> (n < length d1)%nat -> (n < length d2)%nat ->
  exists sig sig' c, length c = S n /\
    SaM_encrypt indices junk xorpad (Some d1) src (Z.of_nat n) password timestamp = Some (sig, Some (c ++ drop (S n) d1)) /\
    SaM_encrypt indices junk' xorpad' (Some d2) (c ++ drop (S n) d1) (Z.of_nat n) password timestamp = Some (sig', Some (take (S n) src ++ drop (S n) d2)).
Proof.
  intros Hi Hj Hj' Lx Lx' Lp Hs H1 H2. set (c := cipher password timestamp (take (S n) src)).
  assert (length c = S n) as Lc by (unfold c; rewrite length_cipher, length_take; lia).
  exists (final_pad xorpad c), (final_pad xorpad' (take (S n) src)), c. split; [done|]. split.
  - apply encrypt_eq; [done..|]. by intros d [= <-].
  - rewrite encrypt_eq by (first [done | rewrite length_app; lia | by intros d [= <-]]). rewrite take_app_length' by done.
    replace (cipher password timestamp c) with (take (S n) src) by (unfold c; by rewrite cipher_twice). done.
Qed.

(** C39: What transactions are signed with, the result of [SaM_encrypt], is made of the
    last 48 bytes of the text alone: two texts of one length that end in the same 48
    bytes get the same signature from one key, whatever they say before. *)
Theorem SaM_signature_tail indices junk junk' xorpad xorpad' src src' n password timestamp : indices_ok indices -> info_ok junk -> info_ok junk' ->
  length xorpad = 48%nat -> length xorpad' = 48%nat -> (48 <= length password)%nat -> (47 <= n)%nat -> length src = S n -> length src' = S n ->
  drop (n - 47) src = drop (n - 47) src' ->
  exists sig, SaM_encrypt indices junk xorpad None src (Z.of_nat n) password timestamp = Some (sig, None) /\
    SaM_encrypt indices junk' xorpad' None src' (Z.of_nat n) password timestamp = Some (sig, None).
Proof.
  intros Hi Hj Hj' Lx Lx' Lp Hn Ls Ls' E. exists (final_pad xorpad (cipher password timestamp (take (S n) src))).
  rewrite !encrypt_eq by (done || lia). split; [done|]. cbn [fmap option_fmap option_map]. rewrite !take_ge by lia. do 2 f_equal.
  unfold final_pad. rewrite !length_cipher, Ls, Ls'. destruct (Nat.ltb_spec (S n) 48); [lia|].
  replace (drop (S n - 48) (cipher password timestamp src')) with (drop (S n - 48) (cipher password timestamp src)); [done|].
  unfold cipher, xor_bytes. rewrite Ls, Ls', !zip_with_drop. replace (S n - 48)%nat with (n - 47)%nat by lia. by rewrite E.
Qed.

(** A loop that ends has made each of its steps. *)
Lemma for_last {S} (f : Z -> S -> option S) n i s r : for_ f i (Datatypes.S n) s = Some r -> exists s', for_ f i n s = Some s' /\ f (i + Z.of_nat n) s' = Some r.
Proof.
  replace (Datatypes.S n) with (n + 1)%nat by lia. rewrite for_app. destruct (for_ f i n s) as [s'|]; [|done]. cbn [mbind option_bind for_].
  intros E. exists s'. split; [done|]. by destruct (f (i + Z.of_nat n) s').
Qed.

Lemma encrypt_byte_range pad src pos i s r : encrypt_byte pad src pos i s = Some r -> pos + i < Z.of_nat (length src) /\
  match s.2, r.2 with Some d, Some d' => pos + i < Z.of_nat (length d) /\ length d' = length d | None, None => True | _, _ => False end.
Proof.
  destruct s as [x dest]. unfold encrypt_byte. destruct (aget pad i) as [p|]; [|done]. destruct (aget src (pos + i)) as [b|] eqn:Eb; [|done]. apply aget_range in Eb.
  cbn [mbind option_bind]. destruct (aset x i (Z.lxor p b)) as [x'|]; [|done]. destruct dest as [d|]; cbn [mbind option_bind].
  - destruct (aget x' i) as [y|]; [|done]. cbn [mbind option_bind]. destruct (aset d (pos + i) y) as [d'|] eqn:Ed; [|done].
    cbn [mbind option_bind]. intros [= <-]. apply aset_Some in Ed as [Hr ->]. cbn [snd]. rewrite length_insert. split; [lia|]. split; [lia|done].
  - intros [= <-]. split; [lia|done].
Qed.

Lemma encrypt_for_range pad src pos n s r : for_ (encrypt_byte pad src pos) 0 n s = Some r ->
  match s.2, r.2 with Some d, Some d' => length d' = length d | None, None => True | _, _ => False end.
Proof.
  revert r. induction n as [|n IH]; intros r E.
  - injection E as <-. by destruct (s.2).
  - apply for_last in E as (s' & E' & E). apply IH in E'. apply encrypt_byte_range in E as [_ E].
    destruct (s.2), (s'.2), (r.2); try done. destruct E. congruence.
Qed.

Lemma encrypt_loop_range indices blocks s xorpad dest src pos len r : 0 <= len ->
  encrypt_loop blocks indices s xorpad dest src pos len = Some r ->
  pos + len < Z.of_nat (length src) /\ forall d, dest = Some d -> pos + len < Z.of_nat (length d).
Proof.
  revert s xorpad dest pos len. induction blocks as [|blocks IH]; intros s xorpad dest pos len Hl; cbn [encrypt_loop]; destruct (Z.leb_spec 0 len); try lia; [done|].
  destruct (SaM_emit indices s) as [s'|]; [|done]. cbn [mbind option_bind].
  destruct (for_ (encrypt_byte (sam_bits s') src pos) 0 (Z.to_nat (Z.min 48 (len + 1))) (xorpad, dest)) as [[x' dest']|] eqn:E; [|done]. cbn [mbind option_bind]. intros H0.
  destruct (decide (len < 48)) as [Hs|Hb].
  - replace (Z.to_nat (Z.min 48 (len + 1))) with (S (Z.to_nat len)) in E by lia. apply for_last in E as (y & Ey & E). apply encrypt_for_range in Ey.
    apply encrypt_byte_range in E as [Hs1 E]. cbn [snd] in *. rewrite Z.add_0_l, Z2Nat.id in * by lia. split; [done|]. intros d ->.
    destruct (y.2) as [d'|]; [|done]. destruct dest' as [d2|]; [|done]. rewrite Ey in E. lia.
  - apply encrypt_for_range in E. cbn [snd] in E. apply IH in H0 as [Hs1 Hd]; [|lia]. split; [lia|]. intros d ->.
    destruct dest' as [d2|]; [|done]. specialize (Hd d2 eq_refl). lia.
Qed.

(** The length [SaM_encrypt] is given is one less than what it takes: given the length
    of the text, as for a transaction, it reads behind it, and with the length of a
    buffer it writes behind the buffer. *)
Theorem SaM_encrypt_overrun indices junk xorpad dest src len password timestamp : 0 <= len ->
  Z.of_nat (length src) <= len \/ (exists d, dest = Some d /\ Z.of_nat (length d) <= len) ->
  SaM_encrypt indices junk xorpad dest src len password timestamp = None.
Proof.
  intros Hl Hs. unfold SaM_encrypt. destruct (SaM_Initialize junk) as [s|]; [|done]. cbn [mbind option_bind].
  destruct (SaM_Absorb indices s (Some password) 48 (Some (le_bytes 4 timestamp)) 4) as [s'|]; [|done]. cbn [mbind option_bind].
  destruct (encrypt_loop _ indices s' xorpad dest src 0 len) as [r|] eqn:E; [|done].
  apply encrypt_loop_range in E as [H1 H2]; [|done]. destruct Hs as [Hs|(d & Ed & Hs)]; [lia|]. specialize (H2 d Ed). lia.
Qed.

Lemma SaM_encrypt_roundtrip_witness : exists sig sig' c, length c = 5%nat /\
    SaM_encrypt walk clear_info (replicate 48 7) (Some (replicate 6 0)) [1; 2; 3; 4; 5] (Z.of_nat 4) (replicate 48 9) 77 = Some (sig, Some (c ++ drop 5 (replicate 6 0))) /\
    SaM_encrypt walk clear_info (replicate 48 8) (Some (replicate 7 1)) (c ++ drop 5 (replicate 6 0)) (Z.of_nat 4) (replicate 48 9) 77 =
      Some (sig', Some (take 5 [1; 2; 3; 4; 5] ++ drop 5 (replicate 7 1))).
Proof.
  exact (SaM_encrypt_roundtrip walk clear_info clear_info (replicate 48 7) (replicate 48 8) [1; 2; 3; 4; 5] (replicate 6 0) (replicate 7 1) 4 (replicate 48 9) 77
    walk_ok clear_info_ok clear_info_ok ltac:(concrete) ltac:(concrete) ltac:(concrete) ltac:(concrete) ltac:(concrete) ltac:(concrete)).
Defined.

Lemma SaM_signature_tail_witness : exists sig,
  SaM_encrypt walk clear_info (replicate 48 7) None (1 :: replicate 48 5) (Z.of_nat 48) (replicate 48 9) 77 = Some (sig, None) /\
  SaM_encrypt walk clear_info (replicate 48 8) None (2 :: replicate 48 5) (Z.of_nat 48) (replicate 48 9) 77 = Some (sig, None).
Proof.
  exact (SaM_signature_tail walk clear_info clear_info (replicate 48 7) (replicate 48 8) (1 :: replicate 48 5) (2 :: replicate 48 5) 48 (replicate 48 9) 77
    walk_ok clear_info_ok clear_info_ok ltac:(concrete) ltac:(concrete) ltac:(concrete) ltac:(concrete) ltac:(concrete) ltac:(concrete) ltac:(concrete)).
Defined.

Lemma SaM_encrypt_overrun_witness : SaM_encrypt walk clear_info (replicate 48 7) None [1; 2; 3] 3 (replicate 48 9) 77 = None.
Proof. exact (SaM_encrypt_overrun walk clear_info (replicate 48 7) None [1; 2; 3] 3 (replicate 48 9) 77 ltac:(concrete) (or_introl (Z.le_refl 3))). Defined.
