(* ===== verification/Signature.v ===== *)
(** * Signature: accounts and the signatures of messages

    Models the account functions of [plugins/utils/bits777.c]: the public key and the
    number of an account, the signature of a message with a key shared between two
    parties, its check, and the chains of lock hashes.  The hash of [sha256.c], a
    third-party file, and the two keys that every node reads from the text of the program
    are an interface; an instance with SHA-256 serves the witnesses. *)

From S2P Require Import Prelude Cards Keys Field25519 Ladder Sha256 Donna Concrete Tweet.

(** ** What the account code uses *)

Class AccountOps := {
  calc_sha256 : list Z -> bits256;
  calc_sha256cat : list Z -> list Z -> bits256;
  GENESIS_PUBKEY : bits256;
  GENESIS_PRIVKEY : bits256;
}.

(** A hash has 32 bytes; the genesis key is a clamped private key, with its public key. *)
Class AccountLaws `{AccountOps} := {
  calc_sha256_ok : forall src, bits256_ok (calc_sha256 src);
  calc_sha256cat_ok : forall src src2, bits256_ok (calc_sha256cat src src2);
  genesis_priv_ok : bits256_ok GENESIS_PRIVKEY;
  genesis_clamped : clamp GENESIS_PRIVKEY = Some GENESIS_PRIVKEY;
  genesis_pub : Ladder.curve25519 GENESIS_PRIVKEY curve25519_basepoint9 = Some GENESIS_PUBKEY;
}.

(** ** The code *)

Record acct777_sig := mk_acct777_sig {
  sig_sigbits : bits256;
  sig_pubkey : bits256;
  sig_signer64bits : Z;
  sig_timestamp : Z;
}.

(** [n] bytes at a pointer into [mem]. *)
Definition bytes_at (mem : list Z) (n : Z) : option (list Z) :=
  if (n <? 0) || (Z.of_nat (length mem) <? n) then None else Some (take (Z.to_nat n) mem).

Section Account.
Context `{AccountOps}.

(** [junk] is the uninitialised result. *)
Definition acct777_pubkey (junk privkey : bits256) : option bits256 :=
  privkey ← clamp privkey; curve25519_donna junk privkey curve25519_basepoint9.

(** [acct.txid]: the first eight bytes. *)
Definition acct777_nxt64bits (pubkey : bits256) : Z := le_int (take 8 (calc_sha256 pubkey)).

Definition acct777_hashiter (privkey pubkey : bits256) (lockdays chainlen : Z) : option bits256 :=
  let lockseed := u16 (Z.lor (Z.land chainlen 0x7f) (s32 (Z.shiftl lockdays 7))) in
  let signbuf := [Z.land lockseed 0xff; Z.land (Z.shiftr lockseed 8) 0xff] in
  privkey ← clamp privkey;
  shared ← Ladder.curve25519 privkey pubkey;
  Some (calc_sha256cat shared signbuf).

(** [while ( chainlen > 0 )], with [chainlen--]. *)
Fixpoint lockhash_from (lockhash pubkey : bits256) (lockdays : Z) (chainlen : nat) : option bits256 :=
  match chainlen with
  | O => Some lockhash
  | S n => lockhash ← acct777_hashiter lockhash pubkey lockdays (Z.of_nat chainlen); lockhash_from lockhash pubkey lockdays n
  end.

Definition acct777_lockhash (pubkey : bits256) (lockdays chainlen : Z) : option bits256 :=
  lockhash_from GENESIS_PRIVKEY pubkey lockdays (Z.to_nat chainlen).

(** [*invoicehash] for the random [privkey] that is returned. *)
Definition acct777_invoicehash (privkey : bits256) (lockdays chainlen : Z) : option bits256 :=
  for_ (fun i lockhash => acct777_hashiter lockhash GENESIS_PUBKEY (chainlen - i) (u8 lockdays)) 0 (Z.to_nat chainlen) privkey.

(** The result is [sig->signer64bits] of the signature. *)
Definition acct777_sign (junk privkey otherpubkey : bits256) (timestamp : Z) (data : list Z) (datalen : Z) : option acct777_sig :=
  shared ← Ladder.curve25519 privkey otherpubkey;
  data ← bytes_at data datalen;
  let sigbits := calc_sha256cat (le_bytes 4 timestamp ++ shared) data in
  pubkey ← acct777_pubkey junk privkey;
  Some (mk_acct777_sig sigbits pubkey (acct777_nxt64bits pubkey) timestamp).

Definition acct777_validate (junk : bits256) (sig : acct777_sig) (timestamp : Z) (data : list Z) (datalen : Z) : option Z :=
  checksig ← acct777_sign junk GENESIS_PRIVKEY (sig_pubkey sig) timestamp data datalen;
  if decide (sig_sigbits checksig = sig_sigbits sig) then Some (acct777_nxt64bits (sig_pubkey sig)) else Some 0.

Definition acct777_signtx (junk privkey : bits256) (timestamp : Z) (data : list Z) (datalen : Z) : option acct777_sig :=
  acct777_sign junk privkey GENESIS_PUBKEY timestamp data datalen.

(** The result, and [*sig]. *)
Definition acct777_swaptx (junk privkey : bits256) (sig : acct777_sig) (timestamp : Z) (data : list Z) (datalen : Z) : option (Z * acct777_sig) :=
  othernxt ← acct777_validate junk sig timestamp data datalen;
  if othernxt =? sig_signer64bits sig then
    sig ← acct777_sign junk privkey GENESIS_PUBKEY timestamp data datalen; Some (sig_signer64bits sig, sig)
  else Some (0, sig).
End Account.

(** ** Keys *)

Lemma land_idem a m : Z.land (Z.land a m) m = Z.land a m.
Proof. by rewrite <- Z.land_assoc, Z.land_diag. Qed.

Lemma clamp_top b : Z.lor (Z.land (Z.lor (Z.land b 0x7f) 64) 0x7f) 64 = Z.lor (Z.land b 0x7f) 64.
Proof. rewrite Z.land_lor_distr_l, land_idem. change (Z.land 64 127) with 64. by rewrite <- Z.lor_assoc, Z.lor_diag. Qed.

(** Clamping a clamped key changes nothing. *)
Lemma clamp_twice x e : length x = 32%nat -> clamp x = Some e -> clamp e = Some e.
Proof.
  intros L. do 32 (destruct x as [|? x]; [done|]). destruct x; [|done]. clear L.
  match goal with |- clamp (?b0 :: _) = _ -> _ => pose proof (land_idem b0 0xf8) as H0 end.
  match goal with |- clamp [_;_;_;_;_;_;_;_;_;_;_;_;_;_;_;_;_;_;_;_;_;_;_;_;_;_;_;_;_;_;_;?b31] = _ -> _ => pose proof (clamp_top b31) as H31 end.
  unfold clamp. revert H0 H31. generalize Z.land, Z.lor. intros f g. lazy. intros H0 H31 [= <-]. by rewrite H0, H31.
Qed.

Lemma curve25519_ok a b : bits256_ok a -> bits256_ok b -> exists s, Ladder.curve25519 a b = Some s /\ bits256_ok s.
Proof. intros Ha Hb. rewrite curve25519_x25519 by done. eexists. split; [done|]. split; [by rewrite length_le_bytes|apply le_bytes_ok]. Qed.

(** The public key is the one the ladder computes of the clamped key. *)
Lemma pubkey_eq junk privkey e : length junk = 32%nat -> bits256_ok privkey -> clamp privkey = Some e ->
  acct777_pubkey junk privkey = Ladder.curve25519 e curve25519_basepoint9.
Proof.
  intros Hj Hp E. unfold acct777_pubkey. rewrite E. cbn [mbind option_bind].
  destruct (clamp_bits privkey Hp) as (e' & E' & He & _). assert (e' = e) as -> by congruence.
  apply (curve25519_donna_spec junk e curve25519_basepoint9 e Hj (proj1 He) He ltac:(concrete)); [|done].
  exact (clamp_twice privkey e (proj1 Hp) E).
Qed.

Lemma bytes_at_whole l : bytes_at l (Z.of_nat (length l)) = Some l.
Proof.
  unfold bytes_at. destruct (Z.ltb_spec (Z.of_nat (length l)) 0); [lia|]. destruct (Z.ltb_spec (Z.of_nat (length l)) (Z.of_nat (length l))); [lia|].
  cbn [orb]. by rewrite Nat2Z.id, take_ge.
Qed.

Section Signatures.
Context `{AccountLaws}.

Lemma genesis_pub_ok : bits256_ok GENESIS_PUBKEY.
Proof.
  destruct (curve25519_ok GENESIS_PRIVKEY curve25519_basepoint9 genesis_priv_ok ltac:(concrete)) as (s & E & Hs).
  rewrite genesis_pub in E. congruence.
Qed.

(** What is hashed for the key [shared]. *)
Definition signature_of (shared : bits256) (timestamp : Z) (data : list Z) : bits256 := calc_sha256cat (le_bytes 4 timestamp ++ shared) data.

Lemma sign_eq junk privkey e otherpubkey timestamp data : length junk = 32%nat -> bits256_ok privkey -> clamp privkey = Some e -> bits256_ok otherpubkey ->
  exists shared pubkey, Ladder.curve25519 privkey otherpubkey = Some shared /\ Ladder.curve25519 e curve25519_basepoint9 = Some pubkey /\
    bits256_ok shared /\ bits256_ok pubkey /\
    acct777_sign junk privkey otherpubkey timestamp data (Z.of_nat (length data)) =
      Some (mk_acct777_sig (signature_of shared timestamp data) pubkey (acct777_nxt64bits pubkey) timestamp).
Proof.
  intros Hj Hp E Ho. destruct (curve25519_ok privkey otherpubkey Hp Ho) as (shared & Es & Hs).
  destruct (clamp_bits privkey Hp) as (e' & E' & He & _). assert (e' = e) as -> by congruence.
  destruct (curve25519_ok e curve25519_basepoint9 He ltac:(concrete)) as (pubkey & Epub & Hpub).
  exists shared, pubkey. split; [done|]. split; [done|]. split; [done|]. split; [done|].
  unfold acct777_sign. rewrite Es. cbn [mbind option_bind]. rewrite bytes_at_whole. cbn [mbind option_bind].
  rewrite (pubkey_eq junk privkey e) by done. rewrite Epub. done.
Qed.

(** The check depends on the public constants and the signature alone. *)
Lemma validate_eq junk sig timestamp data : length junk = 32%nat -> bits256_ok (sig_pubkey sig) ->
  exists shared, Ladder.curve25519 GENESIS_PRIVKEY (sig_pubkey sig) = Some shared /\
    acct777_validate junk sig timestamp data (Z.of_nat (length data)) =
      Some (if decide (signature_of shared timestamp data = sig_sigbits sig) then acct777_nxt64bits (sig_pubkey sig) else 0).
Proof.
  intros Hj Hp. destruct (sign_eq junk GENESIS_PRIVKEY GENESIS_PRIVKEY (sig_pubkey sig) timestamp data Hj genesis_priv_ok genesis_clamped Hp)
    as (shared & pubkey & Es & _ & _ & _ & E).
  exists shared. split; [done|]. unfold acct777_validate. rewrite E. cbn [mbind option_bind sig_sigbits]. by case_decide.
Qed.

(** What an account with a clamped private key signs with [acct777_signtx],
    [acct777_validate] gives back to it, provided the exchange of its key with the
    genesis key agrees; with another time or other data it answers 0 unless the hashes
    collide; and a counterparty's [acct777_swaptx] of a valid signature signs the same
    bytes itself. *)
Theorem acct777_sign_validate junk privkey timestamp data pubkey : length junk = 32%nat -> bits256_ok privkey -> clamp privkey = Some privkey ->
  Ladder.curve25519 privkey curve25519_basepoint9 = Some pubkey ->
  Ladder.curve25519 privkey GENESIS_PUBKEY = Ladder.curve25519 GENESIS_PRIVKEY pubkey ->
  exists sig, acct777_signtx junk privkey timestamp data (Z.of_nat (length data)) = Some sig /\
    sig_pubkey sig = pubkey /\ sig_signer64bits sig = acct777_nxt64bits pubkey /\
    acct777_validate junk sig timestamp data (Z.of_nat (length data)) = Some (acct777_nxt64bits pubkey) /\
    (forall timestamp' data', acct777_validate junk sig timestamp' data' (Z.of_nat (length data')) = Some 0 \/
      exists shared, calc_sha256cat (le_bytes 4 timestamp' ++ shared) data' = calc_sha256cat (le_bytes 4 timestamp ++ shared) data) /\
    forall privkey' e, bits256_ok privkey' -> clamp privkey' = Some e ->
      acct777_swaptx junk privkey' sig timestamp data (Z.of_nat (length data)) =
        ((fun s => (sig_signer64bits s, s)) <$> acct777_signtx junk privkey' timestamp data (Z.of_nat (length data))).
Proof.
  intros Hj Hp Hc Epub Hx. unfold acct777_signtx.
  destruct (sign_eq junk privkey privkey GENESIS_PUBKEY timestamp data Hj Hp Hc genesis_pub_ok) as (shared & pub & Es & E' & _ & Hpub & ->).
  assert (pub = pubkey) as -> by congruence. eexists. split; [reflexivity|]. cbn [sig_pubkey sig_signer64bits]. split; [done|]. split; [done|].
  assert (forall t d, acct777_validate junk (mk_acct777_sig (signature_of shared timestamp data) pubkey (acct777_nxt64bits pubkey) timestamp) t d (Z.of_nat (length d)) =
    Some (if decide (signature_of shared t d = signature_of shared timestamp data) then acct777_nxt64bits pubkey else 0)) as Hv.
  { intros t d. destruct (validate_eq junk (mk_acct777_sig (signature_of shared timestamp data) pubkey (acct777_nxt64bits pubkey) timestamp) t d Hj Hpub) as (s & E & ->).
    cbn [sig_pubkey sig_sigbits] in *. by assert (s = shared) as -> by congruence. }
  split; [by rewrite Hv, decide_True by done|]. split.
  - intros t d. rewrite Hv. case_decide as Hd; [right|by left]. by exists shared.
  - intros privkey' e Hp' He. unfold acct777_swaptx. rewrite Hv, decide_True by done. cbn [mbind option_bind sig_signer64bits].
    rewrite Z.eqb_refl. by destruct (acct777_sign junk privkey' GENESIS_PUBKEY timestamp data (Z.of_nat (length data))).
Qed.

(** Anyone can sign for any account: the check uses a private key that is part of the
    program, and with it and the public key of the victim the bits it expects can be
    computed, for any time and data. *)
Theorem acct777_validate_forged junk pubkey timestamp data : length junk = 32%nat -> bits256_ok pubkey ->
  exists sigbits, (fun shared => calc_sha256cat (le_bytes 4 timestamp ++ shared) data) <$> Ladder.curve25519 GENESIS_PRIVKEY pubkey = Some sigbits /\
    forall signer t, acct777_validate junk (mk_acct777_sig sigbits pubkey signer t) timestamp data (Z.of_nat (length data)) = Some (acct777_nxt64bits pubkey).
Proof.
  intros Hj Hp. destruct (curve25519_ok GENESIS_PRIVKEY pubkey genesis_priv_ok Hp) as (shared & Es & _).
  exists (signature_of shared timestamp data). rewrite Es. split; [done|]. intros signer t.
  destruct (validate_eq junk (mk_acct777_sig (signature_of shared timestamp data) pubkey signer t) timestamp data Hj Hp) as (s & E & ->).
  cbn [sig_pubkey sig_sigbits] in *. assert (s = shared) as -> by congruence. by rewrite decide_True.
Qed.

(** Both chains end for any length. *)
Lemma hashiter_ok privkey pubkey lockdays chainlen : bits256_ok privkey -> bits256_ok pubkey ->
  exists h, acct777_hashiter privkey pubkey lockdays chainlen = Some h /\ bits256_ok h.
Proof.
  intros Hp Hq. unfold acct777_hashiter. destruct (clamp_bits privkey Hp) as (e & -> & He & _). cbn [mbind option_bind].
  destruct (curve25519_ok e pubkey He Hq) as (s & -> & _). cbn [mbind option_bind]. eexists. split; [done|]. apply calc_sha256cat_ok.
Qed.

Lemma lockhash_ok pubkey lockdays chainlen : bits256_ok pubkey -> exists h, acct777_lockhash pubkey lockdays chainlen = Some h /\ bits256_ok h.
Proof.
  intros Hq. unfold acct777_lockhash. generalize genesis_priv_ok. generalize GENESIS_PRIVKEY. induction (Z.to_nat chainlen) as [|n IH]; intros k Hk; cbn [lockhash_from].
  - by exists k.
  - destruct (hashiter_ok k pubkey lockdays (Z.of_nat (S n)) Hk Hq) as (h & -> & Hh). cbn [mbind option_bind]. by apply IH.
Qed.

Lemma invoicehash_ok privkey lockdays chainlen : bits256_ok privkey -> exists h, acct777_invoicehash privkey lockdays chainlen = Some h /\ bits256_ok h.
Proof.
  intros Hk. unfold acct777_invoicehash.
  destruct (for_inv (fun _ => bits256_ok) (fun i lockhash => acct777_hashiter lockhash GENESIS_PUBKEY (chainlen - i) (u8 lockdays)) (Z.to_nat chainlen) 0 privkey Hk) as (h & E & Hh).
  - intros k s _ Hs. apply hashiter_ok; [done|apply genesis_pub_ok].
  - by exists h.
Qed.
End Signatures.

(** ** SHA-256 and the keys of the program *)

Lemma sha256_ok msg : bits256_ok (Sha256.sha256 msg).
Proof.
  split; [apply sha256_length|]. unfold Sha256.sha256. generalize (vars_list (spec_blocks (msg ++ padding (Z.of_nat (length msg))) (length (msg ++ padding (Z.of_nat (length msg))) / 64))).
  intros l. induction l as [|x l IH]; [constructor|]. apply Forall_app. split; [apply be_bytes_bytes|exact IH].
Qed.

#[local] Opaque Ladder.curve25519 Sha256.sha256.

(** The private key of [GENESISPRIVKEYSTR]. *)
Definition genesis_private : bits256 :=
  [136; 167; 22; 113; 166; 237; 217; 135; 173; 158; 144; 151; 66; 143; 195; 241; 105; 222; 203; 163; 172; 143; 16; 218; 123; 36; 224; 202; 22; 128; 59; 112].

#[export] Instance Sha256AccountOps : AccountOps := {
  calc_sha256 := Sha256.sha256;
  calc_sha256cat := fun src src2 => Sha256.sha256 (src ++ src2);
  GENESIS_PUBKEY := curve25519_bytes genesis_private curve25519_basepoint9;
  GENESIS_PRIVKEY := genesis_private;
}.

Lemma genesis_public : Ladder.curve25519 genesis_private curve25519_basepoint9 = Some (curve25519_bytes genesis_private curve25519_basepoint9).
Proof.
  destruct (curve25519_ok genesis_private curve25519_basepoint9 ltac:(concrete) ltac:(concrete)) as (s & E & _). unfold curve25519_bytes. by rewrite E.
Qed.

#[export] Instance Sha256AccountLaws : AccountLaws.
Proof.
  split.
  - intros src. apply sha256_ok.
  - intros src src2. apply sha256_ok.
  - change (bits256_ok genesis_private). concrete.
  - reflexivity.
  - exact genesis_public.
Qed.

Lemma acct777_sign_validate_witness :
  let pubkey := curve25519_bytes genesis_private curve25519_basepoint9 in
  exists sig, acct777_signtx zero256 genesis_private 77 [1; 2; 3] (Z.of_nat (length [1; 2; 3])) = Some sig /\
    sig_pubkey sig = pubkey /\ sig_signer64bits sig = acct777_nxt64bits pubkey /\
    acct777_validate zero256 sig 77 [1; 2; 3] (Z.of_nat (length [1; 2; 3])) = Some (acct777_nxt64bits pubkey) /\
    (forall timestamp' data', acct777_validate zero256 sig timestamp' data' (Z.of_nat (length data')) = Some 0 \/
      exists shared, calc_sha256cat (le_bytes 4 timestamp' ++ shared) data' = calc_sha256cat (le_bytes 4 77 ++ shared) [1; 2; 3]) /\
    forall privkey' e, bits256_ok privkey' -> clamp privkey' = Some e ->
      acct777_swaptx zero256 privkey' sig 77 [1; 2; 3] (Z.of_nat (length [1; 2; 3])) =
        ((fun s => (sig_signer64bits s, s)) <$> acct777_signtx zero256 privkey' 77 [1; 2; 3] (Z.of_nat (length [1; 2; 3]))).
Proof.
  exact (acct777_sign_validate zero256 genesis_private 77 [1; 2; 3] (curve25519_bytes genesis_private curve25519_basepoint9)
    ltac:(concrete) ltac:(concrete) eq_refl genesis_public eq_refl).
Defined.

Lemma acct777_validate_forged_witness :
  exists sigbits, (fun shared => calc_sha256cat (le_bytes 4 77 ++ shared) [1; 2; 3]) <$> Ladder.curve25519 GENESIS_PRIVKEY (replicate 32 9) = Some sigbits /\
    forall signer t, acct777_validate zero256 (mk_acct777_sig sigbits (replicate 32 9) signer t) 77 [1; 2; 3] (Z.of_nat (length [1; 2; 3])) =
      Some (acct777_nxt64bits (replicate 32 9)).
Proof. exact (acct777_validate_forged zero256 (replicate 32 9) 77 [1; 2; 3] ltac:(concrete) ltac:(concrete)). Defined.
