(* ===== verification/Message.v ===== *)
(** * Message: the messages between the nodes

    Models the messages of [plugins/common/hostnet777.c]: [hostnet777_sendmsg] up to the
    socket, with [hostnet777_encode], and [hostnet777_decrypt] with [hostnet777_decode].
    A message is packed by the arithmetic coder, signed, put behind the envelope and, for
    a known sender and receiver, sealed in a box.  Random bytes, the time and what the
    stack holds are arguments. *)

From S2P Require Import Prelude Cards Keys Bits Field25519 Ladder Stream Ramcoder Coding Salsa Poly1305 Concrete Tweet Box Signature.

(** ** The code *)

Definition crypto_box_NONCEBYTES : Z := 24.
Definition crypto_box_ZEROBYTES : Z := 32.

(** The first eight bytes as a number. *)
Definition txid (x : bits256) : Z := le_int (take 8 x).

(** The seed of the coder: bits for the ASCII codes of the hexadecimal digits. *)
Definition message_seed : option (list Z) :=
  seed ← for_ (fun i seed => SETBIT seed 0 i) 48 10 (replicate 32 0);
  for_ (fun i seed => SETBIT seed 0 i) 97 6 seed.

(** What the receiver unpacks from the [len] bytes at [buf]. *)
Definition unpack_message (H : HUFF) (buf : list Z) (len : Z) (dest : list Z) (maxlen : Z) : option (list Z * Z) :=
  seed ← message_seed;
  let hp := _init_HUFF H len (take (Z.to_nat len) buf) <| hp_endpos := u32 (Z.shiftl len 3) |> in
  '(_, _, dest, newlen) ← ramcoder_decoder None true dest maxlen hp seed;
  Some (dest, newlen).

Section Messages.
Context `{AccountOps}.

(** The allocated packet and [*cipherlenp]; [nonce] are the random bytes. *)
Definition hostnet777_encode (str : list Z) (len : Z) (destpubkey myprivkey mypubkey : bits256) (senderbits : Z) (sig : bits256) (timestamp : Z)
    (nonce : list Z) : option (list Z * Z) :=
  let destbits := if decide (destpubkey = GENESIS_PUBKEY) then 0 else acct777_nxt64bits destpubkey in
  let totalsize := s32 (len + 52) in
  let buf := replicate (Z.to_nat (totalsize + 88)) 0 in
  let cipher := replicate (Z.to_nat (totalsize + 88)) 0 in
  '(_, cipher, hdrlen) ← hostnet777_serialize false (mk_envelope (le_bytes 8 destbits) mypubkey (le_bytes 8 senderbits) (le_bytes 4 timestamp) sig) cipher;
  let totalsize := if senderbits =? 0 then totalsize else s32 (totalsize + 32) in
  if negb (destbits =? 0) && negb (senderbits =? 0) then
    cipher ← memcpy cipher hdrlen nonce 0 crypto_box_NONCEBYTES;
    let at_ := hdrlen + crypto_box_NONCEBYTES in
    cipher ← memset cipher at_ 0 (len + crypto_box_ZEROBYTES);
    buf ← memset buf 0 0 crypto_box_ZEROBYTES;
    buf ← memcpy buf crypto_box_ZEROBYTES str 0 len;
    '(_, box) ← crypto_box (drop (Z.to_nat at_) cipher) buf (len + crypto_box_ZEROBYTES) nonce destpubkey myprivkey;
    Some (take (Z.to_nat at_) cipher ++ box, s32 (totalsize + (crypto_box_NONCEBYTES + crypto_box_ZEROBYTES)))
  else
    cipher ← memcpy cipher hdrlen str 0 len; Some (cipher, totalsize).

(** The result, the fields of the envelope, [str] and [*lenp]; [e] is what the objects
    of the fields held. *)
Definition hostnet777_decode (e : envelope) (str cipher : list Z) (len : Z) (myprivkey : bits256) : option (Z * envelope * list Z * Z) :=
  '(e, cipher, hdrlen) ← hostnet777_serialize true e cipher;
  let rest := drop (Z.to_nat hdrlen) cipher in
  let n := len - hdrlen in
  if negb (le_int (e_destbits e) =? 0) && negb (le_int (e_senderbits e) =? 0) then
    let nonce := take (Z.to_nat crypto_box_NONCEBYTES) rest in
    let c := drop (Z.to_nat crypto_box_NONCEBYTES) rest in
    let n := n - crypto_box_NONCEBYTES in
    '(err, str) ← crypto_box_open str c n nonce (e_senderpub e) myprivkey;
    str ← for_ (fun i str => x ← aget str (i + crypto_box_ZEROBYTES); aset str i x) 0 (Z.to_nat (n - crypto_box_ZEROBYTES)) str;
    Some (err, e, str, n - crypto_box_ZEROBYTES)
  else str ← memcpy str 0 rest 0 n; Some (0, e, str, len).

(** The result, [*senderpubp], [*senderbitsp], [*timestampp] and [dest]. *)
Definition hostnet777_decrypt (H : HUFF) (junk : bits256) (e0 e1 : envelope) (mypriv mypub : bits256) (dest : list Z) (maxlen : Z) (src : list Z) (len : Z)
    : option (Z * bits256 * Z * Z * list Z) :=
  let my64bits := acct777_nxt64bits mypub in
  let buf := replicate (Z.to_nat maxlen) 0 in
  '(e, src, _) ← hostnet777_serialize true e0 src;
  let destbits := le_int (e_destbits e) in
  let senderbits := le_int (e_senderbits e) in
  if negb (destbits =? 0) && negb (my64bits =? destbits) && negb (destbits =? acct777_nxt64bits GENESIS_PUBKEY) then
    Some (-1, e_senderpub e, 0, le_int (e_timestamp e), dest)
  else
    '(err, e1, buf, len) ← hostnet777_decode e1 buf src len mypriv;
    if err =? 0 then
      '(dest, newlen) ← unpack_message H buf len dest maxlen;
      if negb (senderbits =? 0) && negb (txid (e_senderpub e) =? 0) then
        let msgpriv := if destbits =? 0 then GENESIS_PRIVKEY else mypriv in
        (* a wrong signature is only printed *)
        _ ← acct777_sign junk msgpriv (e_senderpub e) (le_int (e_timestamp e1)) dest newlen;
        Some (newlen, e_senderpub e, senderbits, le_int (e_timestamp e1), dest)
      else Some (newlen, e_senderpub e, 0, le_int (e_timestamp e1), dest)
    else Some (-1, e_senderpub e, 0, le_int (e_timestamp e1), dest).

(** The packet handed to the socket. *)
Definition hostnet777_sendmsg (H : HUFF) (junk randkey : bits256) (nonce : list Z) (now : Z) (destpub mypriv mypub : bits256) (msg : list Z) (len : Z)
    : option (list Z) :=
  let destpub := if txid destpub =? 0 then GENESIS_PUBKEY else destpub in
  '(sig, mypriv, mypub) ←
    (if (txid mypub =? 0) || (txid mypriv =? 0) then
       mypriv ← clamp randkey;
       mypub ← Ladder.curve25519 mypriv curve25519_basepoint9;
       Some (mk_acct777_sig zero256 zero256 0 now, mypriv, mypub)
     else
       sig ← acct777_sign junk mypriv destpub now msg len; Some (sig, mypriv, mypub));
  seed ← message_seed;
  let hp := _init_HUFF H (len * 2) (replicate (Z.to_nat (len * 2)) 0) in
  '(_, hp, _) ← ramcoder_encoder None true msg len hp seed;
  let datalen := hconv_bitlen (hp_bitoffset hp) in
  '(cipher, cipherlen) ← hostnet777_encode (hp_buf hp) datalen destpub mypriv mypub (sig_signer64bits sig) (sig_sigbits sig) (sig_timestamp sig) nonce;
  bytes_at cipher cipherlen.
End Messages.

(** ** The packed message *)

(** *** The end of the stream does not matter to the encoder

    [hostnet777_sendmsg] does not initialise [endpos]; the bits written do not depend
    on it. *)

Definition same_stream (hp hp' : HUFF) : Prop := hp <| hp_endpos := 0 |> = hp' <| hp_endpos := 0 |>.
Definition same_put (a a' : HUFF * Z) : Prop := same_stream a.1 a'.1 /\ a.2 = a'.2.
Definition same_step (a a' : ramcoder * HUFF * Z) : Prop := a.1.1 = a'.1.1 /\ same_stream a.1.2 a'.1.2 /\ a.2 = a'.2.

Lemma same_internals hp hp' : same_stream hp hp' -> same_put (hupdate_internals hp) (hupdate_internals hp').
Proof.
  destruct hp, hp'. intros [= <- <- <- <- <-]. unfold hupdate_internals, same_put, same_stream. cbn. repeat case_match; done.
Qed.

#[local] Arguments hupdate_internals : simpl never.
#[local] Opaque u32.

Lemma put_next_eq b p o m e s buf : put_next (mk_HUFF b p o m e s) buf =
  let o1 := u32 (o + 1) in
  let e1 := if e <? o1 then o1 else e in
  let m1 := if 8 <=? m + 1 then 0 else m + 1 in
  let p1 := if 8 <=? m + 1 then p + 1 else p in
  if s <=? Z.shiftr o1 3 then Some ((hupdate_internals (mk_HUFF buf p1 (u32 (o1 - 1)) m1 e1 s)).1, -1) else Some (mk_HUFF buf p1 o1 m1 e1 s, 0).
Proof.
  unfold put_next. change (8 <=? hp_maski (mk_HUFF b p o m e s <| hp_buf := buf |> <| hp_maski := hp_maski (mk_HUFF b p o m e s) + 1 |>)) with (8 <=? m + 1).
  destruct (8 <=? m + 1); cbv zeta.
  - match goal with |- context [if hp_endpos ?h <? ?x then ?y else ?z] => change (if hp_endpos h <? x then y else z) with (if e <? u32 (o + 1) then mk_HUFF buf (p + 1) (u32 (o + 1)) 0 (u32 (o + 1)) s else mk_HUFF buf (p + 1) (u32 (o + 1)) 0 e s) end.
    destruct (e <? u32 (o + 1)); reflexivity.
  - match goal with |- context [if hp_endpos ?h <? ?x then ?y else ?z] => change (if hp_endpos h <? x then y else z) with (if e <? u32 (o + 1) then mk_HUFF buf p (u32 (o + 1)) (m + 1) (u32 (o + 1)) s else mk_HUFF buf p (u32 (o + 1)) (m + 1) e s) end.
    destruct (e <? u32 (o + 1)); reflexivity.
Qed.

Lemma same_next hp hp' buf : same_stream hp hp' -> option_Forall2 same_put (put_next hp buf) (put_next hp' buf).
Proof.
  destruct hp as [b ptr off maski e size], hp' as [b' ptr' off' maski' e' size']. intros [= <- <- <- <- <-]. rewrite !put_next_eq. cbv zeta.
  generalize (u32 (off + 1)). intros o. generalize (if e <? o then o else e), (if e' <? o then o else e'). intros e1 e1'.
  destruct (size <=? Z.shiftr o 3); constructor; (split; [|done]); [by apply same_internals|done].
Qed.

Lemma same_putbit hp hp' b : same_stream hp hp' -> option_Forall2 same_put (hputbit hp b) (hputbit hp' b).
Proof.
  intros Hs. change (hputbit ?h b) with (x ← aget (hp_buf h) (hp_ptr h); m ← (if b then aget huffmasks (hp_maski h) else aget huffoppomasks (hp_maski h));
    buf ← aset (hp_buf h) (hp_ptr h) (if b then Z.lor x m else Z.land x m); put_next h buf).
  assert (hp_buf hp' = hp_buf hp /\ hp_ptr hp' = hp_ptr hp /\ hp_maski hp' = hp_maski hp) as (-> & -> & ->) by (destruct hp, hp'; by injection Hs).
  destruct (aget (hp_buf hp) (hp_ptr hp)) as [x|]; [|constructor]. cbn [mbind option_bind].
  destruct (if b then aget huffmasks (hp_maski hp) else aget huffoppomasks (hp_maski hp)) as [m|]; [|constructor]. cbn [mbind option_bind].
  destruct (aset (hp_buf hp) (hp_ptr hp) (if b then Z.lor x m else Z.land x m)) as [buf|]; [|constructor]. by apply same_next.
Qed.

Lemma same_repeat b k hp hp' : same_stream hp hp' -> option_Forall2 same_stream (put_repeat b k hp) (put_repeat b k hp').
Proof.
  revert hp hp'. induction k as [|k IH]; intros hp hp' Hs; cbn [put_repeat]; [by constructor|].
  refine (bind_rel _ _ _ _ _ _ (same_putbit hp hp' b Hs) _). intros [h r] [h' r'] [H1 _]. by apply IH.
Qed.

Lemma same_default flush hp hp' c n : same_stream hp hp' -> option_Forall2 same_step (putbits_default flush hp c n) (putbits_default flush hp' c n).
Proof.
  intros Hs. unfold putbits_default. destruct flush; [|by constructor].
  refine (bind_rel _ _ _ _ _ _ (same_putbit hp hp' _ Hs) _). intros [h r] [h' r'] [H1 _].
  refine (bind_rel _ _ _ _ _ _ (same_repeat _ _ h h' H1) _). intros g g' Hg. by constructor.
Qed.

Lemma same_putbits fuel flush : forall hp hp' c n, same_stream hp hp' -> option_Forall2 same_step (putbits_loop fuel flush hp c n) (putbits_loop fuel flush hp' c n).
Proof.
  induction fuel as [|fuel IH]; intros hp hp' c n Hs; cbn [putbits_loop]; [constructor|].
  destruct (ramcoder_state c =? 1); [by apply IH|]. destruct (ramcoder_state c =? 0); [|by apply same_default].
  refine (bind_rel _ _ _ _ _ _ (same_putbit hp hp' _ Hs) _). intros [h r] [h' r'] [H1 _].
  refine (bind_rel _ _ _ _ _ _ (same_repeat _ _ h h' H1) _). intros g g' Hg. by apply IH.
Qed.

Lemma same_update s c up flush hp hp' : same_stream hp hp' ->
  option_Forall2 same_step (ramcoder_update s c up (Some flush) hp) (ramcoder_update s c up (Some flush) hp').
Proof.
  intros Hs. unfold ramcoder_update. destruct (ramcoder_narrow s c) as [c1|]; [|constructor]. cbn [mbind option_bind].
  destruct (if up then ramcoder_adapt s c1 else Some c1) as [c2|]; [|constructor]. cbn [mbind option_bind]. by apply same_putbits.
Qed.

Lemma same_emit hp hp' c up buf len : same_stream hp hp' -> option_Forall2 same_step (ramcoder_emit hp c up buf len) (ramcoder_emit hp' c up buf len).
Proof.
  intros Hs. apply (for_rel same_step); [|done]. intros i [[c1 h] n] [[c1' h'] n'] (H1 & H2 & H3). cbn in H1, H2, H3. subst c1' n'.
  destruct (aget buf i) as [s|]; [|constructor]. cbn [mbind option_bind]. refine (bind_rel _ _ _ _ _ _ (same_update s c1 up false h h' H2) _).
  intros [[c2 g] m] [[c2' g'] m'] (G1 & G2 & G3). cbn in G1, G2, G3. subst. by constructor.
Qed.

Definition same_message (a a' : ramcoder * HUFF) : Prop := a.1 = a'.1 /\ same_stream a.2 a'.2.

Lemma same_encode up buf len hp hp' seed : same_stream (hrewind hp).1 (hrewind hp').1 ->
  option_Forall2 same_message (encode_message up buf len hp seed) (encode_message up buf len hp' seed).
Proof.
  unfold encode_message. destruct (hrewind hp) as [h r], (hrewind hp') as [h' r']. cbn [fst]. intros Hs.
  destruct (init_ramcoder cleared_coder None seed) as [[c0 z]|]; [|constructor]. cbn [mbind option_bind].
  refine (bind_rel _ _ _ _ _ _ (same_emit h h' c0 up buf len Hs) _). intros [[c1 h1] n1] [[c1' h1'] n1'] (A1 & A2 & _). cbn in A1, A2. subst c1'.
  refine (bind_rel _ _ _ _ _ _ (same_update _ c1 up false h1 h1' A2) _). intros [[c2 h2] n2] [[c2' h2'] n2'] (B1 & B2 & _). cbn in B1, B2. subst c2'.
  refine (bind_rel _ _ _ _ _ _ (same_update _ c2 up true h2 h2' B2) _). intros [[c3 h3] n3] [[c3' h3'] n3'] (C1 & C2 & _). cbn in C1, C2. subst c3'. by constructor.
Qed.

(** *** What is packed is unpacked *)

Definition message_bits : list Z :=
  replicate 6 0 ++ [255; 3] ++ replicate 4 0 ++ [126] ++ replicate 19 0.

Lemma message_bits_length : (8 <= length message_bits)%nat.
Proof. cbn. lia. Qed.

Lemma message_seed_eq : message_seed = Some message_bits.
Proof. vm_compute. reflexivity. Qed.

(** The coder is certain to have room for the seed it returns. *)
Lemma message_coder : exists coder0, init_ramcoder cleared_coder None message_bits = Some (coder0, None) /\ 771 <= rc_cumulativeProb coder0.
Proof.
  assert (match init_ramcoder cleared_coder None message_bits with Some (c, None) => 771 <=? rc_cumulativeProb c | _ => false end = true) as H by compute_true.
  destruct (init_ramcoder cleared_coder None message_bits) as [[c [h|]]|]; [done| |done]. exists c. split; [done|lia].
Qed.

Lemma abit_take l n i : 0 <= i < 8 * n -> abit (take (Z.to_nat n) l) i = abit l i.
Proof.
  intros Hi. unfold abit. rewrite !nth_lookup, lookup_take_lt; [done|]. Z.div_mod_to_equations; lia.
Qed.

Lemma bitlen_bytes b : 0 <= b -> 0 <= hconv_bitlen b /\ 8 * hconv_bitlen b - 7 <= b <= 8 * hconv_bitlen b.
Proof.
  intros Hb. unfold hconv_bitlen. rewrite shiftr_3, land_7. destruct (Z.eqb_spec (b mod 8) 0); cbn [negb]; Z.div_mod_to_equations; lia.
Qed.

Lemma same_fields hp hp' : same_stream hp hp' -> hp_buf hp = hp_buf hp' /\ hp_bitoffset hp = hp_bitoffset hp'.
Proof. destruct hp, hp'. intros [= <- <- <- <- <-]. done. Qed.

Lemma same_Some {A B} (R : A -> B -> Prop) r y : option_Forall2 R r (Some y) -> exists x, r = Some x /\ R x y.
Proof. inversion 1. eauto. Qed.

(** A stream at its start, with [e] bits in it. *)
Definition fresh (buf : list Z) (e n : Z) : HUFF := mk_HUFF buf 0 0 0 e n.

Lemma fresh_ok buf e n : Z.of_nat (length buf) = n -> 0 <= e <= 8 * n -> 8 * n < 2 ^ 32 -> bytes buf -> stream_ok (fresh buf e n).
Proof. intros Hn He H32 Hb. split; try done; unfold fresh; cbn [hp_endpos hp_allocsize hp_bitoffset]; lia. Qed.

Lemma rewound h : 0 <= hp_allocsize h -> (hrewind h).1 = fresh (hp_buf h) (if hp_endpos h <? 0 then 0 else hp_endpos h) (hp_allocsize h).
Proof.
  destruct h as [b p o m e n]. cbn [hp_allocsize]. intros Hn. unfold hrewind, hseek, hupdate_internals. change (u32 0) with 0.
  match goal with |- context [if ?b then _ else _] => assert (b = false) as -> by (change ((n <? 0) = false); lia) end.
  match goal with |- context [if ?b then _ else _] => change b with (e <? 0) end. cbn [hp_endpos]. destruct (e <? 0); reflexivity.
Qed.

(** Of the stream the receiver needs the bytes the encoder has filled. *)
Definition packs (msg data : list Z) : Prop := forall H buf n dest maxlen, bytes buf -> Z.of_nat (length data) <= n <= Z.of_nat (length buf) ->
  8 * n < 2 ^ 32 -> take (length data) buf = data -> Z.of_nat (length msg) <= maxlen -> (length msg <= length dest)%nat ->
  unpack_message H buf n dest maxlen = Some (msg ++ drop (length msg) dest, Z.of_nat (length msg)).

#[local] Opaque encode_message newseed_of ramcoder_decoder hrewind message_bits init_ramcoder.

(** The decoder finds [msg] in every stream that starts with [bs]. *)
Definition decodes_to (msg : list Z) (bs : list bool) : Prop := forall hpq hpd dest maxlen, (hrewind hpq).1 = hpd -> stream_ok hpd ->
  hp_bitoffset hpd = 0 -> holds hpd bs -> Z.of_nat (length msg) <= maxlen -> (length msg <= length dest)%nat ->
  exists coder2 hp2, ramcoder_decoder None true dest maxlen hpq message_bits = Some (coder2, hp2, msg ++ drop (length msg) dest, Z.of_nat (length msg)).

Lemma filled_packs msg bs buf : decodes_to msg bs -> (forall k b, bs !! k = Some b -> abit buf (Z.of_nat k) = b) ->
  let m := Z.to_nat (hconv_bitlen (Z.of_nat (length bs))) in (m <= length buf)%nat -> packs msg (take m buf).
Proof.
  intros Hd Hbits m Hm H' buf' n dest maxlen Bb Hn Hn32 Ht Hmax Hdest. destruct (bitlen_bytes (Z.of_nat (length bs))) as [L0 L1]; [lia|].
  rewrite length_take, Nat.min_l in Hn, Ht by done.
  unfold unpack_message. rewrite message_seed_eq. refine (bind_step _ _ _ _ eq_refl _). rewrite Z.shiftl_mul_pow2 by lia. change (2 ^ 3) with 8. rewrite u32_id by lia.
  assert (length (take (Z.to_nat n) buf') = Z.to_nat n) as Lt by (rewrite length_take; lia).
  assert (8 * hconv_bitlen (Z.of_nat (length bs)) = 8 * Z.of_nat m) as Lm by (unfold m; lia).
  destruct (Hd (_init_HUFF H' n (take (Z.to_nat n) buf') <| hp_endpos := n * 8 |>) (fresh (take (Z.to_nat n) buf') (n * 8) n) dest maxlen) as (coder2 & hp2 & E).
  - rewrite rewound by (change (0 <= n); lia). change (fresh (take (Z.to_nat n) buf') (if n * 8 <? 0 then 0 else n * 8) n = fresh (take (Z.to_nat n) buf') (n * 8) n).
    by destruct (Z.ltb_spec (n * 8) 0); [lia|].
  - apply fresh_ok; [lia|lia|lia|by apply Forall_take].
  - done.
  - split; [change (0 + Z.of_nat (length bs) <= n * 8); lia|]. intros k b Hk. pose proof (lookup_lt_Some _ _ _ Hk). rewrite <- (Hbits k b Hk).
    change (abit (take (Z.to_nat n) buf') (Z.of_nat k) = abit buf (Z.of_nat k)).
    rewrite abit_take by lia. rewrite <- (abit_take _ (Z.of_nat m)), <- (abit_take buf (Z.of_nat m)) by lia. by rewrite Nat2Z.id, Ht.
  - done.
  - done.
  - exact (bind_step _ _ _ _ E eq_refl).
Qed.

Lemma pack_message H msg : bytes msg -> (33 <= length msg <= 4366)%nat ->
  let size := Z.of_nat (length msg) * 2 in
  exists coder hp1 seed1, ramcoder_encoder None true msg (Z.of_nat (length msg)) (_init_HUFF H size (replicate (Z.to_nat size) 0)) message_bits = Some (coder, hp1, seed1) /\
    exists data, hconv_bitlen (hp_bitoffset hp1) = Z.of_nat (length data) /\ take (length data) (hp_buf hp1) = data /\
      (length data <= length msg * 2)%nat /\ bytes data /\ packs msg data.
Proof.
  intros Hb Hl size. set (zeros := replicate (Z.to_nat size) 0). assert (Z.of_nat (length zeros) = size) as Lz by (unfold zeros; rewrite length_replicate; lia).
  assert (bytes zeros) as Bz by (by apply Forall_replicate). clearbody zeros. pose proof (fresh_ok zeros 0 size Lz ltac:(lia) ltac:(lia) Bz) as Hok.
  assert (same_stream (hrewind (_init_HUFF H size zeros)).1 (hrewind (fresh zeros 0 size)).1) as Hrw.
  { rewrite !rewound by (change (0 <= size); lia). done. }
  destruct (message_codes message_bits msg (fresh zeros 0 size) message_bits_length Hb Hok ltac:(lia) ltac:(change (hp_allocsize _) with size; lia)) as (coder & hp1 & bs & E & W & Hseed & Hd).
  destruct message_coder as (coder0 & E0 & Hcum). destruct (Hseed coder0 E0 Hcum) as [seed1 Es].
  pose proof (same_encode true msg (Z.of_nat (length msg)) _ _ message_bits Hrw) as Hse. rewrite E in Hse.
  destruct (same_Some _ _ _ Hse) as ([coder' hp'] & Ex & H1 & H2). cbn [fst snd] in H1, H2. subst coder'.
  destruct (same_fields _ _ H2) as [Eb Eo]. exists coder, hp', seed1.
  split; [exact (bind_step _ _ _ _ Ex (bind_step _ _ _ _ Es eq_refl))|].
  pose proof (wr_offset _ _ _ W) as Ho. change (hp_bitoffset (advance (fresh zeros 0 size) _)) with 0 in Ho. rewrite Z.add_0_l in Ho.
  pose proof (wr_size _ _ _ W) as Hsz. change (hp_allocsize hp1 = size) in Hsz. destruct (wr_ok _ _ _ W) as [_ _ Hof Hen Hbuf _ Hbytes].
  rewrite Eb, Eo, Ho. destruct (bitlen_bytes (Z.of_nat (length bs))) as [L0 L1]; [lia|].
  pose proof (filled_packs msg bs (hp_buf hp1) Hd (wr_in _ _ _ W)) as Hp. cbv zeta in Hp. revert L0 L1 Hp. generalize (hconv_bitlen (Z.of_nat (length bs))). intros m L0 L1 Hp.
  exists (take (Z.to_nat m) (hp_buf hp1)). assert (length (take (Z.to_nat m) (hp_buf hp1)) = Z.to_nat m) as Ld by (rewrite length_take; lia).
  rewrite Ld. split; [lia|]. split; [done|]. split; [lia|]. split; [by apply Forall_take|]. apply Hp. lia.
Qed.

(** ** Packets *)

(** The loop that moves the message over the zeros in front of it. *)
Lemma shift_message (n : nat) (str : list Z) : (n + 32 <= length str)%nat ->
  for_ (fun i str => x ← aget str (i + crypto_box_ZEROBYTES); aset str i x) 0 n str = Some (take n (drop 32 str) ++ drop n str).
Proof.
  intros Hn. destruct (for_inv (fun i s => s = take (Z.to_nat i) (drop 32 str) ++ drop (Z.to_nat i) str)
    (fun i str => x ← aget str (i + crypto_box_ZEROBYTES); aset str i x) n 0 str) as (s & E & Hs); [done| |].
  - intros i s Hi ->. rewrite Z.add_0_l in Hi. destruct (nth_lookup_or_length str (Z.to_nat i + 32) 0) as [Ex|]; [|lia].
    set (x := nth (Z.to_nat i + 32) str 0) in *. set (l := take (Z.to_nat i) (drop 32 str)).
    assert (length l = Z.to_nat i) as Ll by (unfold l; rewrite length_take, length_drop; lia).
    exists (<[Z.to_nat i := x]> (l ++ drop (Z.to_nat i) str)). split.
    + rewrite (aget_lookup _ _ x); [|unfold crypto_box_ZEROBYTES; lia|].
      * cbn [mbind option_bind]. apply aset_in_range. rewrite length_app, length_drop. lia.
      * unfold crypto_box_ZEROBYTES. rewrite lookup_app_r by lia. rewrite lookup_drop, <- Ex. f_equal. lia.
    + replace (Z.to_nat (i + 1)) with (S (Z.to_nat i)) by lia. replace (Z.to_nat i) with (length l + 0)%nat at 1 by lia. rewrite insert_app_r.
      rewrite (take_S_r (drop 32 str) _ x) by (rewrite lookup_drop, <- Ex; f_equal; lia). fold l. rewrite <- app_assoc. f_equal.
      destruct (drop (Z.to_nat i) str) as [|y t] eqn:Ed; [apply (f_equal length) in Ed; rewrite length_drop in Ed; cbn in Ed; lia|].
      cbn. f_equal. apply (f_equal (drop 1)) in Ed. rewrite drop_drop, Nat.add_1_r in Ed. by rewrite Ed.
  - rewrite E, Hs. do 3 f_equal; lia.
Qed.

Lemma bytes_at_prefix a b : bytes_at (a ++ b) (Z.of_nat (length a)) = Some a.
Proof.
  unfold bytes_at. rewrite length_app. destruct (Z.ltb_spec (Z.of_nat (length a)) 0); [lia|].
  destruct (Z.ltb_spec (Z.of_nat (length a + length b)) (Z.of_nat (length a))); [lia|]. cbn [orb]. by rewrite Nat2Z.id, take_app_length.
Qed.

Lemma le_int_field n x : 0 <= x < 256 ^ Z.of_nat n -> le_int (le_bytes n x) = x.
Proof. intros Hx. by rewrite le_int_bytes, Z.mod_small. Qed.

Lemma received_id e : le_int (e_senderbits e) <> 0 -> received e = e.
Proof. intros H. unfold received. by destruct (Z.eqb_spec (le_int (e_senderbits e)) 0). Qed.

Lemma received_fields e : e_destbits (received e) = e_destbits e /\ e_senderpub (received e) = e_senderpub e /\
  e_senderbits (received e) = e_senderbits e /\ e_timestamp (received e) = e_timestamp e.
Proof. unfold received. by case_match. Qed.

(** The size of the envelope. *)
Definition header (e : envelope) : nat := if le_int (e_senderbits e) =? 0 then 52 else 84.

Lemma length_payload e : envelope_ok e -> length (payload e) = header e.
Proof.
  intros [[L1 _] [L2 _] [L3 _] [L4 _] [L5 _]]. unfold payload, header. rewrite !length_app, L1, L2, L3, L4. case_match; [done|]. by rewrite L5.
Qed.

Lemma payload_bytes e : envelope_ok e -> bytes (payload e).
Proof. intros [[_ B1] [_ B2] [_ B3] [_ B4] [_ B5]]. unfold payload. repeat (apply Forall_app_2; [done|]). case_match; [constructor|done]. Qed.

Section Packets.
Context `{AccountLaws}.

Lemma nxt64bits_range pubkey : 0 <= acct777_nxt64bits pubkey < 2 ^ 64.
Proof.
  unfold acct777_nxt64bits. destruct (calc_sha256_ok pubkey) as [L B]. pose proof (le_int_range (take 8 (calc_sha256 pubkey)) (Forall_take _ _ _ B)) as Hr.
  rewrite length_take, L in Hr. exact Hr.
Qed.

(** The account a message is for; 0 for everybody. *)
Definition destbits_of (destpub : bits256) : Z := if decide (destpub = GENESIS_PUBKEY) then 0 else acct777_nxt64bits destpub.

Definition sent (destpub mypub : bits256) (senderbits : Z) (sig : bits256) (timestamp : Z) : envelope :=
  mk_envelope (le_bytes 8 (destbits_of destpub)) mypub (le_bytes 8 senderbits) (le_bytes 4 timestamp) sig.

Lemma sent_ok destpub mypub senderbits sig timestamp : bits256_ok mypub -> bits256_ok sig -> envelope_ok (sent destpub mypub senderbits sig timestamp).
Proof. intros [Lp Bp] [Ls Bs]. split; cbn [sent e_destbits e_senderpub e_senderbits e_timestamp e_sig]; (split; [by rewrite ?length_le_bytes|first [apply le_bytes_ok|done]]). Qed.

Lemma destbits_range destpub : 0 <= destbits_of destpub < 2 ^ 64.
Proof. unfold destbits_of. case_decide; [lia|apply nxt64bits_range]. Qed.

Lemma sent_fields destpub mypub senderbits sig timestamp : 0 <= senderbits < 2 ^ 64 -> 0 <= timestamp < 2 ^ 32 ->
  let e := sent destpub mypub senderbits sig timestamp in
  le_int (e_destbits e) = destbits_of destpub /\ le_int (e_senderbits e) = senderbits /\ le_int (e_timestamp e) = timestamp.
Proof. intros Hs Ht. split; [|split]; apply le_int_field; [apply destbits_range|exact Hs|exact Ht]. Qed.

(** In the clear: no sender, or for everybody. *)
Lemma encode_open str p destpub mypriv mypub senderbits sig timestamp nonce : bits256_ok mypub -> bits256_ok sig -> 0 <= senderbits < 2 ^ 64 ->
  take (length p) str = p -> Z.of_nat (length p) < 2 ^ 30 -> destbits_of destpub = 0 \/ senderbits = 0 ->
  let e := sent destpub mypub senderbits sig timestamp in
  exists cipher, hostnet777_encode str (Z.of_nat (length p)) destpub mypriv mypub senderbits sig timestamp nonce =
      Some (cipher, Z.of_nat (length (payload e ++ p))) /\ bytes_at cipher (Z.of_nat (length (payload e ++ p))) = Some (payload e ++ p).
Proof.
  intros Hpub Hsig Hs Hp Hl Ho e. pose proof (sent_ok destpub mypub senderbits sig timestamp Hpub Hsig) as He. fold e in He.
  assert (length p <= length str)%nat as Lp by (apply (f_equal length) in Hp; rewrite length_take in Hp; lia).
  assert (le_int (e_senderbits e) = senderbits) as Es by (by apply le_int_field).
  pose proof (length_payload e He) as Lh. unfold header in Lh. rewrite Es in Lh.
  unfold hostnet777_encode. fold (destbits_of destpub). rewrite (s32_small (Z.of_nat (length p) + 52)) by lia.
  set (zeros := replicate (Z.to_nat (Z.of_nat (length p) + 52 + 88)) 0). assert (length zeros = length p + 140)%nat as Lz by (unfold zeros; rewrite length_replicate; lia).
  destruct (serialize_write e zeros He ltac:(lia)) as (rest & n & E & En & Er). fold (sent destpub mypub senderbits sig timestamp). fold e. rewrite E. cbn [mbind option_bind].
  assert (negb (destbits_of destpub =? 0) && negb (senderbits =? 0) = false) as -> by (destruct Ho as [-> | ->]; [done|by rewrite andb_false_r]).
  assert (length rest = length p + 140 - length (payload e))%nat as Lr by (rewrite Er, length_drop; lia).
  rewrite memcpy_eq by (rewrite ?length_app; destruct (senderbits =? 0); lia). cbn [mbind option_bind].
  rewrite En, Nat2Z.id, take_app_length, Nat2Z.id. change (Z.to_nat 0) with 0%nat. rewrite drop_0, Hp.
  eexists. split.
  - rewrite length_app, Lh. f_equal. f_equal. destruct (senderbits =? 0); [lia|]. rewrite s32_small by lia. lia.
  - rewrite app_assoc. apply bytes_at_prefix.
Qed.

Lemma decode_open e e0 p str mypriv : envelope_ok e -> envelope_ok e0 -> bytes p -> (length p <= length str)%nat ->
  le_int (e_destbits e) = 0 \/ le_int (e_senderbits e) = 0 ->
  hostnet777_decode e0 str (payload e ++ p) (Z.of_nat (length (payload e ++ p))) mypriv =
    Some (0, received e, p ++ drop (length p) str, Z.of_nat (length (payload e ++ p))).
Proof.
  intros He He0 Bp Lp Ho. unfold hostnet777_decode. rewrite serialize_read by done. cbn [mbind option_bind].
  destruct (received_fields e) as (-> & _ & -> & _).
  assert (negb (le_int (e_destbits e) =? 0) && negb (le_int (e_senderbits e) =? 0) = false) as -> by (destruct Ho as [-> | ->]; [done|by rewrite andb_false_r]).
  rewrite Nat2Z.id, drop_app_length. replace (Z.of_nat (length (payload e ++ p)) - Z.of_nat (length (payload e))) with (Z.of_nat (length p)) by (rewrite length_app; lia).
  rewrite memcpy_eq by lia. cbn [mbind option_bind]. rewrite Z.add_0_l, Nat2Z.id. change (Z.to_nat 0) with 0%nat. rewrite drop_0, (take_ge p) by done. done.
Qed.

Lemma memset_zeros (pre : list Z) k n : (n <= k)%nat ->
  memset (pre ++ replicate k 0) (Z.of_nat (length pre)) 0 (Z.of_nat n) = Some (pre ++ replicate k 0).
Proof.
  intros Hn. unfold memset. rewrite memcpy_eq by (rewrite ?length_app, ?length_replicate; lia).
  rewrite !Nat2Z.id, <- Nat2Z.inj_add, Nat2Z.id, take_app_length, <- drop_drop, drop_app_length, drop_replicate.
  change (Z.to_nat 0) with 0%nat. rewrite Nat.sub_0_r, drop_replicate, (take_ge (replicate n 0)) by (by rewrite length_replicate).
  rewrite <- replicate_add. do 3 f_equal. lia.
Qed.

(** From one account to another: sealed. *)
Lemma encode_sealed str p destpub mypriv mypub destpriv senderbits sig timestamp nonce : agree mypriv mypub destpriv destpub ->
  bits256_ok sig -> 0 < senderbits < 2 ^ 64 -> destbits_of destpub <> 0 -> bytes nonce -> length nonce = 24%nat ->
  bytes p -> take (length p) str = p -> Z.of_nat (length p) < 2 ^ 30 ->
  let e := sent destpub mypub senderbits sig timestamp in
  exists box, length box = (32 + length p)%nat /\ bytes box /\
    hostnet777_encode str (Z.of_nat (length p)) destpub mypriv mypub senderbits sig timestamp nonce =
      Some (payload e ++ nonce ++ box, Z.of_nat (length (payload e ++ nonce ++ box))) /\
    forall out, (32 + length p <= length out)%nat ->
      crypto_box_open out box (Z.of_nat (32 + length p)) nonce mypub destpriv = Some (0, replicate 32 0 ++ p ++ drop (32 + length p) out).
Proof.
  intros Hk Hsig Hs Hd Hn Ln Bp Hp Hl e. pose proof Hk as (_ & Hpub & _). pose proof (sent_ok destpub mypub senderbits sig timestamp Hpub Hsig) as He. fold e in He.
  assert (length p <= length str)%nat as Lp by (apply (f_equal length) in Hp; rewrite length_take in Hp; lia).
  assert (le_int (e_senderbits e) = senderbits) as Es by (apply le_int_field; change (256 ^ Z.of_nat 8) with (2 ^ 64); lia).
  pose proof (length_payload e He) as Lh. unfold header in Lh. rewrite Es in Lh.
  destruct (box_sealed mypriv mypub destpriv destpub nonce p Hk Hn ltac:(lia) Bp ltac:(lia)) as (box & Lb & Bb & E & O). exists box.
  split; [done|]. split; [done|]. split; [|intros out Lo; rewrite <- (app_nil_r box) at 1; by apply O; [constructor|]].
  unfold hostnet777_encode. fold (destbits_of destpub). rewrite (s32_small (Z.of_nat (length p) + 52)) by lia.
  replace (Z.to_nat (Z.of_nat (length p) + 52 + 88)) with (84 + (24 + (32 + length p)))%nat by lia.
  destruct (serialize_write e (replicate (84 + (24 + (32 + length p))) 0) He ltac:(rewrite length_replicate; lia)) as (rest & n & E1 & En & Er).
  fold (sent destpub mypub senderbits sig timestamp). fold e. rewrite E1. cbn [mbind option_bind].
  destruct (Z.eqb_spec (destbits_of destpub) 0); [lia|]. destruct (Z.eqb_spec senderbits 0); [lia|]. cbn [negb andb].
  rewrite Er, Lh, drop_replicate. replace (84 + (24 + (32 + length p)) - 84)%nat with (24 + (32 + length p))%nat by lia. rewrite En, Lh. change (Z.of_nat 84) with 84.
  unfold crypto_box_NONCEBYTES, crypto_box_ZEROBYTES.
  rewrite memcpy_eq by (rewrite ?length_app, ?length_replicate, ?Lh, ?Ln; lia). cbn [mbind option_bind].
  change (Z.to_nat 84) with 84%nat. change (Z.to_nat (84 + 24)) with (84 + 24)%nat. change (Z.to_nat 0) with 0%nat. change (Z.to_nat 24) with 24%nat.
  rewrite drop_0, (take_ge nonce) by lia. rewrite (take_app_length' (payload e)) by done. rewrite <- drop_drop, (drop_app_length' (payload e)) by done.
  rewrite drop_replicate. replace (24 + (32 + length p) - 24)%nat with (32 + length p)%nat by lia.
  replace (84 + 24)%nat with (length (payload e ++ nonce)) by (rewrite length_app, Lh, Ln; done).
  replace (84 + 24) with (Z.of_nat (length (payload e ++ nonce))) by (rewrite length_app, Lh, Ln; done).
  replace (Z.of_nat (length p) + 32) with (Z.of_nat (32 + length p)) by lia. rewrite (app_assoc (payload e) nonce), memset_zeros by lia. cbn [mbind option_bind].
  pose proof (memset_zeros [] (84 + (24 + (32 + length p))) 32 ltac:(lia)) as M. cbn [app length] in M. change (Z.of_nat 0) with 0 in M. change (Z.of_nat 32) with 32 in M.
  rewrite M. cbn [mbind option_bind].
  rewrite memcpy_eq by (rewrite ?length_replicate; lia). cbn [mbind option_bind]. change (Z.to_nat 0) with 0%nat. change (Z.to_nat 32) with 32%nat.
  rewrite drop_0, !Nat2Z.id, take_app_length, drop_app_length, Hp, take_replicate, Nat.min_l by lia. rewrite E.
  - cbn [mbind option_bind]. rewrite drop_replicate, Nat.sub_diag. cbn [replicate]. rewrite app_nil_r, <- app_assoc. do 3 f_equal.
    rewrite !length_app, Lh, Ln, Lb. rewrite (s32_small (Z.of_nat (length p) + 52 + 32)), s32_small by lia. lia.
  - by apply Forall_replicate.
  - by rewrite length_replicate.
  - rewrite app_assoc. rewrite take_app_length' by (by rewrite length_app, length_replicate). done.
Qed.

Lemma decode_sealed e e0 box nonce p str mypriv : envelope_ok e -> envelope_ok e0 -> bytes nonce -> length nonce = 24%nat -> bytes box ->
  length box = (32 + length p)%nat -> le_int (e_destbits e) <> 0 -> le_int (e_senderbits e) <> 0 -> (32 + length p <= length str)%nat -> bytes p -> bytes str ->
  crypto_box_open str box (Z.of_nat (32 + length p)) nonce (e_senderpub e) mypriv = Some (0, replicate 32 0 ++ p ++ drop (32 + length p) str) ->
  exists str', hostnet777_decode e0 str (payload e ++ nonce ++ box) (Z.of_nat (length (payload e ++ nonce ++ box))) mypriv = Some (0, e, str', Z.of_nat (length p)) /\
    take (length p) str' = p /\ length str' = length str /\ bytes str'.
Proof.
  intros He He0 Bn Ln Bb Lb Hd Hs Lstr Bp Bstr E. eexists. split.
  - unfold hostnet777_decode. rewrite serialize_read by (try done; by apply Forall_app). rewrite received_id by done. cbn [mbind option_bind].
    destruct (Z.eqb_spec (le_int (e_destbits e)) 0); [done|]. destruct (Z.eqb_spec (le_int (e_senderbits e)) 0); [done|]. cbn [negb andb].
    rewrite Nat2Z.id, drop_app_length. change (Z.to_nat crypto_box_NONCEBYTES) with 24%nat. rewrite (take_app_length' nonce), (drop_app_length' nonce) by done.
    replace (Z.of_nat (length (payload e ++ nonce ++ box)) - Z.of_nat (length (payload e)) - crypto_box_NONCEBYTES) with (Z.of_nat (32 + length p))
      by (rewrite !length_app, Ln, Lb; unfold crypto_box_NONCEBYTES; lia).
    rewrite E. cbn [mbind option_bind]. replace (Z.of_nat (32 + length p) - crypto_box_ZEROBYTES) with (Z.of_nat (length p)) by (unfold crypto_box_ZEROBYTES; lia).
    rewrite Nat2Z.id, shift_message by (rewrite !length_app, length_replicate; lia). reflexivity.
  - rewrite (drop_app_length' (replicate 32 0)) by (by rewrite length_replicate). rewrite take_app_length. split; [by rewrite take_app_length|]. split.
    + rewrite !length_app, !length_drop, !length_app, length_replicate, length_drop. lia.
    + apply Forall_app_2; [done|]. apply Forall_drop. apply Forall_app_2; [by apply Forall_replicate|]. apply Forall_app_2; [done|by apply Forall_drop].
Qed.
End Packets.

#[local] Opaque Ladder.curve25519 ramcoder_encoder message_seed hostnet777_encode hostnet777_decode unpack_message hostnet777_serialize acct777_sign.

Section Delivery.
Context `{AccountLaws}.

(** The account a message goes to when no key is given. *)
Definition addressee (destpub : bits256) : bits256 := if txid destpub =? 0 then GENESIS_PUBKEY else destpub.

(** The three parts of sending: once the message is packed it is enough to say what
    [hostnet777_encode] makes of it. *)
Lemma send_parts Hf junk randkey nonce now destpub mypriv mypub msg sig priv pub :
  bytes msg -> (33 <= length msg <= 4366)%nat ->
  (if (txid mypub =? 0) || (txid mypriv =? 0) then
     mypriv ← clamp randkey; mypub ← Ladder.curve25519 mypriv curve25519_basepoint9; Some (mk_acct777_sig zero256 zero256 0 now, mypriv, mypub)
   else sig ← acct777_sign junk mypriv (addressee destpub) now msg (Z.of_nat (length msg)); Some (sig, mypriv, mypub)) = Some (sig, priv, pub) ->
  exists str p, take (length p) str = p /\ bytes p /\ packs msg p /\ (length p <= length msg * 2)%nat /\
    forall cipher packet, hostnet777_encode str (Z.of_nat (length p)) (addressee destpub) priv pub (sig_signer64bits sig) (sig_sigbits sig) (sig_timestamp sig) nonce =
        Some (cipher, Z.of_nat (length packet)) -> bytes_at cipher (Z.of_nat (length packet)) = Some packet ->
      hostnet777_sendmsg Hf junk randkey nonce now destpub mypriv mypub msg (Z.of_nat (length msg)) = Some packet.
Proof.
  intros Hb Hl Hs. destruct (pack_message Hf msg Hb Hl) as (coder & hp1 & seed1 & E & p & Lp & Tp & L2 & Bp & Hp). exists (hp_buf hp1), p.
  split; [exact Tp|]. split; [exact Bp|]. split; [exact Hp|]. split; [exact L2|]. intros cipher packet E1 E2. unfold hostnet777_sendmsg. fold (addressee destpub).
  refine (bind_step _ _ _ _ Hs _). refine (bind_step _ _ _ _ message_seed_eq _). refine (bind_step _ _ _ _ E _).
  rewrite <- Lp in E1. exact (bind_step _ _ _ _ E1 E2).
Qed.

(** Signing the first bytes of a buffer. *)
Lemma sign_prefix junk priv e pub ts a b : length junk = 32%nat -> bits256_ok priv -> clamp priv = Some e -> bits256_ok pub ->
  exists sig, acct777_sign junk priv pub ts (a ++ b) (Z.of_nat (length a)) = Some sig.
Proof.
  intros Hj Hp Hc Hpub. destruct (sign_eq junk priv e pub ts a Hj Hp Hc Hpub) as (shared & pubkey & _ & _ & _ & _ & E). eexists. rewrite <- E.
  Transparent acct777_sign. unfold acct777_sign. by rewrite bytes_at_prefix, bytes_at_whole.
Qed.

#[local] Opaque acct777_sign.

(** The parts of receiving. *)
Lemma receive_parts Hf junk e0 e1 mypriv mypub dest maxlen src len e h e' str n msg :
  length junk = 32%nat -> bits256_ok mypriv -> bits256_ok (e_senderpub e) ->
  hostnet777_serialize true e0 src = Some (e, src, h) ->
  le_int (e_destbits e) = 0 \/ le_int (e_destbits e) = acct777_nxt64bits mypub ->
  hostnet777_decode e1 (replicate (Z.to_nat maxlen) 0) src len mypriv = Some (0, e', str, n) ->
  unpack_message Hf str n dest maxlen = Some (msg ++ drop (length msg) dest, Z.of_nat (length msg)) ->
  hostnet777_decrypt Hf junk e0 e1 mypriv mypub dest maxlen src len =
    Some (Z.of_nat (length msg), e_senderpub e, if txid (e_senderpub e) =? 0 then 0 else le_int (e_senderbits e), le_int (e_timestamp e'), msg ++ drop (length msg) dest).
Proof.
  intros Hj Hp Hpub Es Hd Ed Eu. unfold hostnet777_decrypt. refine (bind_step _ _ _ _ Es _). cbv beta iota zeta.
  assert (negb (le_int (e_destbits e) =? 0) && negb (acct777_nxt64bits mypub =? le_int (e_destbits e)) && negb (le_int (e_destbits e) =? acct777_nxt64bits GENESIS_PUBKEY) = false) as ->.
  { destruct Hd as [-> | ->]; [done|]. by rewrite Z.eqb_refl, andb_false_r. }
  refine (bind_step _ _ _ _ Ed _). cbv beta iota. change (0 =? 0) with true. cbv beta iota. refine (bind_step _ _ _ _ Eu _). cbv beta iota.
  destruct (Z.eqb_spec (le_int (e_senderbits e)) 0) as [E0|E0]; [|destruct (txid (e_senderpub e) =? 0)]; cbn [negb andb]; [|done|].
  - rewrite E0. by destruct (txid (e_senderpub e) =? 0).
  - destruct (clamp_bits mypriv Hp) as (k & Ek & _). pose proof genesis_priv_ok. pose proof genesis_clamped.
    destruct (sign_prefix junk (if le_int (e_destbits e) =? 0 then GENESIS_PRIVKEY else mypriv) (if le_int (e_destbits e) =? 0 then GENESIS_PRIVKEY else k)
      (e_senderpub e) (le_int (e_timestamp e')) msg (drop (length msg) dest) Hj) as (sig & ->); [by case_match|by case_match|done|done].
Qed.

Definition time_ok (now : Z) : Prop := 0 <= now < 2 ^ 32.

(** A sealed packet opens with the other key, to what was packed. *)
Lemma receive_sealed destpub mypub senderbits sig now nonce box p destpriv msg : bits256_ok mypub -> bits256_ok sig -> bits256_ok destpriv ->
  0 < senderbits < 2 ^ 64 -> time_ok now -> destbits_of destpub = acct777_nxt64bits destpub -> acct777_nxt64bits destpub <> 0 -> txid mypub <> 0 ->
  bytes nonce -> length nonce = 24%nat -> bytes box -> length box = (32 + length p)%nat -> bytes p -> packs msg p ->
  (forall out, (32 + length p <= length out)%nat ->
    crypto_box_open out box (Z.of_nat (32 + length p)) nonce mypub destpriv = Some (0, replicate 32 0 ++ p ++ drop (32 + length p) out)) ->
  let packet := payload (sent destpub mypub senderbits sig now) ++ nonce ++ box in
  length packet = (140 + length p)%nat /\
  forall Hf junk e0 e1 dest maxlen, length junk = 32%nat -> envelope_ok e0 -> envelope_ok e1 ->
    Z.of_nat (length packet) <= maxlen < 2 ^ 28 -> Z.of_nat (length msg) <= maxlen -> (length msg <= length dest)%nat ->
    hostnet777_decrypt Hf junk e0 e1 destpriv destpub dest maxlen packet (Z.of_nat (length packet)) =
      Some (Z.of_nat (length msg), mypub, senderbits, now, msg ++ drop (length msg) dest).
Proof.
  intros Hpub Hsig Hb Hs Hnow Edb Hd Htx Bn Ln Bb Lb Bp Hpk Hopen. cbv zeta. pose proof (sent_ok destpub mypub senderbits sig now Hpub Hsig) as He.
  destruct (sent_fields destpub mypub senderbits sig now ltac:(lia) Hnow) as (F1 & F2 & F3). assert (e_senderpub (sent destpub mypub senderbits sig now) = mypub) as F4 by done.
  revert He F1 F2 F3 F4. generalize (sent destpub mypub senderbits sig now). intros e He F1 F2 F3 F4.
  assert (length (payload e ++ nonce ++ box) = 140 + length p)%nat as Lpk.
  { rewrite !length_app, Ln, Lb, (length_payload e He). unfold header. rewrite F2. by destruct (Z.eqb_spec senderbits 0); [lia|]. }
  split; [done|]. intros Hf junk e0 e1 dest maxlen Hj He0 He1 Hmax Hmsg Hdest.
  destruct (decode_sealed e e1 box nonce p (replicate (Z.to_nat maxlen) 0) destpriv He He1 Bn Ln Bb Lb) as (out & Edec & Tout & Lout & Bout);
    [by rewrite F1, Edb|rewrite F2; lia|rewrite length_replicate; lia|done|by apply Forall_replicate|rewrite F4; apply Hopen; rewrite length_replicate; lia|].
  pose proof (serialize_read e e0 (nonce ++ box) He He0 ltac:(by apply Forall_app)) as Eser. rewrite received_id in Eser by (rewrite F2; lia).
  rewrite (receive_parts Hf junk e0 e1 destpriv destpub dest maxlen _ _ e _ e out (Z.of_nat (length p)) msg Hj Hb ltac:(by rewrite F4) Eser ltac:(right; by rewrite F1) Edec).
  - rewrite F2, F3, F4. by destruct (Z.eqb_spec (txid mypub) 0).
  - rewrite length_replicate in Lout. apply Hpk; [done|lia|lia|done|done|done].
Qed.

(** C7: A signed message to one account arrives: [hostnet777_sendmsg] packs, signs, seals
    and frames it, and [hostnet777_decrypt] of the account it is for returns its length,
    the key it was sent with, the number of the key that signed it, the time and, at the
    start of the buffer, the message.  Nothing makes the two keys one: [mypub] is the key
    of the box alone, and the signer is computed from [mypriv]. *)
Theorem hostnet777_signedPM_roundtrip Hf junk randkey nonce now destpub mypriv mypub destpriv signer msg :
  length junk = 32%nat -> agree mypriv mypub destpriv destpub -> clamp mypriv = Some mypriv ->
  Ladder.curve25519 mypriv curve25519_basepoint9 = Some signer -> txid mypub <> 0 -> txid mypriv <> 0 -> txid destpub <> 0 ->
  destpub <> GENESIS_PUBKEY -> acct777_nxt64bits signer <> 0 -> acct777_nxt64bits destpub <> 0 ->
  bytes nonce -> length nonce = 24%nat -> time_ok now -> bytes msg -> (33 <= length msg <= 4366)%nat ->
  exists packet, hostnet777_sendmsg Hf junk randkey nonce now destpub mypriv mypub msg (Z.of_nat (length msg)) = Some packet /\
    (length packet <= 2 * length msg + 140)%nat /\
    forall Hf' junk' e0 e1 dest maxlen, length junk' = 32%nat -> envelope_ok e0 -> envelope_ok e1 ->
      Z.of_nat (length packet) <= maxlen < 2 ^ 28 -> Z.of_nat (length msg) <= maxlen -> (length msg <= length dest)%nat ->
      hostnet777_decrypt Hf' junk' e0 e1 destpriv destpub dest maxlen packet (Z.of_nat (length packet)) =
        Some (Z.of_nat (length msg), mypub, acct777_nxt64bits signer, now, msg ++ drop (length msg) dest).
Proof.
  intros Hj Hk Hc Epub Hp1 Hp2 Hd1 Hgen Hs Hd Bn Ln Hnow Bm Lm. pose proof Hk as (Ha & HA & Hb & HB & _).
  assert (addressee destpub = destpub) as Ead by (unfold addressee; by destruct (Z.eqb_spec (txid destpub) 0)).
  assert (destbits_of destpub = acct777_nxt64bits destpub) as Edb by (unfold destbits_of; by rewrite decide_False).
  pose proof (nxt64bits_range signer). pose proof (nxt64bits_range destpub).
  destruct (sign_eq junk mypriv mypriv destpub now msg Hj Ha Hc HB) as (shared & pub & _ & Epub' & _ & _ & Esig). assert (pub = signer) as -> by congruence. clear Epub'.
  set (sig := signature_of shared now msg) in *. assert (bits256_ok sig) as Hsig by apply calc_sha256cat_ok.
  set (e := sent destpub mypub (acct777_nxt64bits signer) sig now). pose proof (sent_ok destpub mypub (acct777_nxt64bits signer) sig now HA Hsig) as He.
  destruct (send_parts Hf junk randkey nonce now destpub mypriv mypub msg (mk_acct777_sig sig signer (acct777_nxt64bits signer) now) mypriv mypub Bm Lm) as (str & p & Tp & Bp & Hpk & L2 & Esend).
  { destruct (Z.eqb_spec (txid mypub) 0), (Z.eqb_spec (txid mypriv) 0); try done. cbn [orb]. rewrite Ead. exact (bind_step _ _ _ _ Esig eq_refl). }
  rewrite Ead in Esend. cbn [sig_signer64bits sig_sigbits sig_timestamp] in Esend.
  assert (0 < acct777_nxt64bits signer < 2 ^ 64) as Hs' by lia. assert (destbits_of destpub <> 0) as Hd' by congruence. assert (Z.of_nat (length p) < 2 ^ 30) as Lp by lia.
  destruct (encode_sealed str p destpub mypriv mypub destpriv (acct777_nxt64bits signer) sig now nonce Hk Hsig Hs' Hd' Bn Ln Bp Tp Lp) as (box & Lb & Bb & Eenc & Hopen).
  exists (payload e ++ nonce ++ box). split; [apply (Esend _ _ Eenc), bytes_at_whole|].
  destruct (receive_sealed destpub mypub (acct777_nxt64bits signer) sig now nonce box p destpriv msg HA Hsig Hb Hs' Hnow Edb Hd Hp1 Bn Ln Bb Lb Bp Hpk Hopen) as [Lpk Hrecv].
  split; [unfold e; lia|exact Hrecv].
Qed.

(** A packet in the clear gives its message to everybody it lets through. *)
Lemma receive_open e p mypriv mypub msg : envelope_ok e -> bytes p -> packs msg p -> bits256_ok mypriv ->
  le_int (e_destbits e) = 0 \/ le_int (e_senderbits e) = 0 ->
  le_int (e_destbits e) = 0 \/ le_int (e_destbits e) = acct777_nxt64bits mypub ->
  forall Hf junk e0 e1 dest maxlen, length junk = 32%nat -> envelope_ok e0 -> envelope_ok e1 ->
    Z.of_nat (length (payload e ++ p)) <= maxlen < 2 ^ 28 -> Z.of_nat (length msg) <= maxlen -> (length msg <= length dest)%nat ->
    hostnet777_decrypt Hf junk e0 e1 mypriv mypub dest maxlen (payload e ++ p) (Z.of_nat (length (payload e ++ p))) =
      Some (Z.of_nat (length msg), e_senderpub e, if txid (e_senderpub e) =? 0 then 0 else le_int (e_senderbits e), le_int (e_timestamp e), msg ++ drop (length msg) dest).
Proof.
  intros He Bp Hpk Hpriv Ho Hd Hf junk e0 e1 dest maxlen Hj He0 He1 Hmax Hmsg Hdest. rewrite length_app in *.
  pose proof (serialize_read e e0 p He He0 Bp) as Eser. destruct (received_fields e) as (F1 & F2 & F3 & F4). pose proof (eo_senderpub _ He) as Hpub.
  pose proof (decode_open e e1 p (replicate (Z.to_nat maxlen) 0) mypriv He He1 Bp ltac:(rewrite length_replicate; lia) Ho) as Edec. rewrite length_app in Edec.
  rewrite (receive_parts Hf junk e0 e1 mypriv mypub dest maxlen _ _ (received e) _ _ _ _ msg Hj Hpriv ltac:(by rewrite F2) Eser ltac:(by rewrite F1) Edec).
  - by rewrite F2, F3, F4.
  - rewrite drop_replicate. apply Hpk; [|rewrite length_app, length_replicate; lia|lia|by rewrite take_app_length|done|done].
    apply Forall_app_2; [done|by apply Forall_replicate].
Qed.

(** A message without a sender is never encrypted, not even one that is sent to a
    single account: whoever sees the packet unpacks the message from what follows the
    52 bytes of the envelope, without any key.  The account it is for, or everybody when
    it is for nobody, receives it with [hostnet777_decrypt]. *)
Theorem hostnet777_blind_readable Hf junk randkey priv pub nonce now destpub mypriv mypub msg : txid mypub = 0 \/ txid mypriv = 0 ->
  bits256_ok randkey -> clamp randkey = Some priv -> Ladder.curve25519 priv curve25519_basepoint9 = Some pub -> time_ok now ->
  bytes msg -> (33 <= length msg <= 4366)%nat ->
  exists packet, hostnet777_sendmsg Hf junk randkey nonce now destpub mypriv mypub msg (Z.of_nat (length msg)) = Some packet /\
    (52 <= length packet <= 2 * length msg + 52)%nat /\
    (forall Hf' dest maxlen, Z.of_nat (length msg) <= maxlen -> (length msg <= length dest)%nat ->
      unpack_message Hf' (drop 52 packet) (Z.of_nat (length packet) - 52) dest maxlen = Some (msg ++ drop (length msg) dest, Z.of_nat (length msg))) /\
    forall Hf' junk' e0 e1 anypriv anypub dest maxlen, length junk' = 32%nat -> envelope_ok e0 -> envelope_ok e1 -> bits256_ok anypriv ->
      destbits_of (addressee destpub) = 0 \/ destbits_of (addressee destpub) = acct777_nxt64bits anypub ->
      Z.of_nat (length packet) <= maxlen < 2 ^ 28 -> Z.of_nat (length msg) <= maxlen -> (length msg <= length dest)%nat ->
      hostnet777_decrypt Hf' junk' e0 e1 anypriv anypub dest maxlen packet (Z.of_nat (length packet)) =
        Some (Z.of_nat (length msg), pub, 0, now, msg ++ drop (length msg) dest).
Proof.
  intros Hblind Hr Ek Epub Hnow Bm Lm. destruct (clamp_bits randkey Hr) as (priv' & Ek' & Hpriv & _). assert (priv' = priv) as -> by congruence.
  destruct (curve25519_ok priv curve25519_basepoint9 Hpriv ltac:(concrete)) as (pub' & Epub' & Hpub). assert (pub' = pub) as -> by congruence.
  destruct (send_parts Hf junk randkey nonce now destpub mypriv mypub msg (mk_acct777_sig zero256 zero256 0 now) priv pub Bm Lm) as (str & p & Tp & Bp & Hpk & L2 & Esend).
  { assert ((txid mypub =? 0) || (txid mypriv =? 0) = true) as -> by (destruct Hblind as [-> | ->]; [done|by rewrite orb_true_r]).
    exact (bind_step _ _ _ _ Ek (bind_step _ _ _ _ Epub eq_refl)). }
  cbn [sig_signer64bits sig_sigbits sig_timestamp] in Esend. assert (Z.of_nat (length p) < 2 ^ 30) as Lp by lia.
  destruct (encode_open str p (addressee destpub) priv pub 0 zero256 now nonce Hpub ltac:(concrete) ltac:(lia) Tp Lp ltac:(by right)) as (cipher & E1 & E2).
  destruct (sent_fields (addressee destpub) pub 0 zero256 now ltac:(lia) Hnow) as (F1 & F2 & F3).
  pose proof (sent_ok (addressee destpub) pub 0 zero256 now Hpub ltac:(concrete)) as He. assert (e_senderpub (sent (addressee destpub) pub 0 zero256 now) = pub) as F4 by done.
  pose proof (Esend _ _ E1 E2) as E. clear Esend E1 E2. revert E F1 F2 F3 F4 He. generalize (sent (addressee destpub) pub 0 zero256 now). intros e E F1 F2 F3 F4 He.
  assert (length (payload e) = 52)%nat as Lh by (rewrite (length_payload e He); unfold header; by rewrite F2).
  exists (payload e ++ p). split; [exact E|]. split; [rewrite length_app; lia|]. split.
  - intros Hf' dest maxlen Hmax Hdest. rewrite drop_app_length' by done. apply Hpk; [done|rewrite length_app; lia|rewrite length_app; lia|by rewrite firstn_all|done|done].
  - intros Hf' junk' e0 e1 anypriv anypub dest maxlen Hj' He0 He1 Hany Hd Hmax Hmsg Hdest.
    rewrite (receive_open e p anypriv anypub msg He Bp Hpk Hany ltac:(by right) ltac:(by rewrite F1)) by done.
    rewrite F2, F3, F4. by case_match.
Qed.

(** A packet of 84 to 107 bytes that names a sender and a receiver makes
    [hostnet777_decode] read behind it, however much memory follows: the length of the
    box is negative and [crypto_box_open] takes it for a huge unsigned one. *)
Theorem hostnet777_decode_overrun e0 e str mem len mypriv : envelope_ok e -> envelope_ok e0 -> bits256_ok mypriv ->
  le_int (e_destbits e) <> 0 -> le_int (e_senderbits e) <> 0 -> bytes mem -> 56 <= Z.of_nat (length mem) < 2 ^ 63 -> 84 <= len < 108 ->
  hostnet777_decode e0 str (payload e ++ mem) len mypriv = None.
Proof.
  intros He He0 Hk Hd Hs Bm Lm Hl. Transparent hostnet777_decode. unfold hostnet777_decode. rewrite serialize_read by done. rewrite received_id by done. cbn [mbind option_bind].
  destruct (Z.eqb_spec (le_int (e_destbits e)) 0); [done|]. destruct (Z.eqb_spec (le_int (e_senderbits e)) 0); [done|]. cbn [negb andb].
  rewrite Nat2Z.id, drop_app_length. change (Z.to_nat crypto_box_NONCEBYTES) with 24%nat.
  destruct (beforenm_key (e_senderpub e) mypriv Hk (eo_senderpub _ He)) as (k & s & Ek & [Lk Bk] & _). unfold crypto_box_open. rewrite Ek. cbn [mbind option_bind].
  rewrite (length_payload e He). unfold header. destruct (Z.eqb_spec (le_int (e_senderbits e)) 0); [done|].
  replace (u64 (len - Z.of_nat 84 - crypto_box_NONCEBYTES)) with (len - 108 + 2 ^ 64) by (unfold crypto_box_NONCEBYTES, u64, wrapU; rewrite <- (Z.mod_add _ 1) by lia; rewrite Z.mod_small; lia).
  assert (bytes (take 24 mem) /\ (24 <= length (take 24 mem))%nat) as Ok by (split; [by apply Forall_take|rewrite length_take; lia]).
  assert (bytes k /\ (32 <= length k)%nat) as Okk by (split; [done|lia]).
  rewrite (secretbox_open_overrun (take 24 mem) k Ok Okk str (drop 24 mem)); [done|lia|rewrite length_drop; lia|rewrite length_drop; lia].
Qed.
End Delivery.

(** ** Witnesses *)

(** The key of a box counts without its top bit. *)
Lemma agree_alike a A B : bits256_ok a -> bits256_ok A -> bits256_ok B -> le_int A mod 2 ^ 255 = le_int B mod 2 ^ 255 -> agree a A a B.
Proof.
  intros Ha HA HB E. split; [done|]. split; [done|]. split; [done|]. split; [done|].
  destruct (scalarmult_x25519 a A Ha HA) as (e & Ee & _ & ->). destruct (scalarmult_x25519 a B Ha HB) as (e' & Ee' & _ & ->).
  by rewrite E, (inj Some _ _ (eq_trans (eq_sym Ee) Ee')).
Qed.

(** A hash with one value. *)
Definition ConstantOps : AccountOps := {|
  calc_sha256 := fun _ => replicate 32 1;
  calc_sha256cat := fun _ _ => replicate 32 1;
  GENESIS_PUBKEY := curve25519_bytes genesis_private curve25519_basepoint9;
  GENESIS_PRIVKEY := genesis_private;
|}.

Lemma ConstantLaws : @AccountLaws ConstantOps.
Proof.
  split; [intros src; change (bits256_ok (replicate 32 1)); concrete|intros src src2; change (bits256_ok (replicate 32 1)); concrete|
    change (bits256_ok genesis_private); concrete|reflexivity|exact genesis_public].
Qed.

Lemma constant_number pub : @acct777_nxt64bits ConstantOps pub <> 0.
Proof. change (le_int (take 8 (replicate 32 1)) <> 0). vm_compute. discriminate. Qed.

(** No public key the program computes has the top bit. *)
Lemma top_bit_public priv k : bits256_ok priv -> 2 ^ 255 <= le_int k -> curve25519_bytes priv curve25519_basepoint9 <> k.
Proof.
  intros Hp Hk <-. rewrite curve25519_bytes_eq in Hk by (done || concrete). change (le_int curve25519_basepoint9 mod 2 ^ 255) with 9 in Hk.
  destruct (x25519_reduced (le_int priv) 9) as [w E]. rewrite E, le_int_reduced in Hk. pose proof p_below_2_255. pose proof (Z.mod_pos_bound w p25519). lia.
Qed.

(** Two boxes' keys that differ in the bit that does not count. *)
Definition low_key : bits256 := replicate 32 9.
Definition high_key : bits256 := replicate 31 9 ++ [137].
Definition empty_envelope : envelope := mk_envelope (replicate 8 0) (replicate 32 0) (replicate 8 0) (replicate 4 0) (replicate 32 0).

Lemma empty_envelope_ok : envelope_ok empty_envelope.
Proof. split; concrete. Qed.

Lemma clamped_public priv : bits256_ok priv -> Ladder.curve25519 priv curve25519_basepoint9 = Some (curve25519_bytes priv curve25519_basepoint9).
Proof. intros Hp. destruct (curve25519_ok priv curve25519_basepoint9 Hp ltac:(concrete)) as (s & E & _). unfold curve25519_bytes. by rewrite E. Qed.

Definition sample_text : list Z := replicate 33 65.
Definition sample_huff : HUFF := mk_HUFF [] 0 0 0 0 0.

Lemma hostnet777_signedPM_roundtrip_witness :
  let priv := replicate 32 64 in
  exists packet, @hostnet777_sendmsg ConstantOps sample_huff zero256 zero256 (replicate 24 5) 77 high_key priv low_key sample_text (Z.of_nat (length sample_text)) = Some packet /\
    (length packet <= 2 * length sample_text + 140)%nat /\
    forall Hf' junk' e0 e1 dest maxlen, length junk' = 32%nat -> envelope_ok e0 -> envelope_ok e1 ->
      Z.of_nat (length packet) <= maxlen < 2 ^ 28 -> Z.of_nat (length sample_text) <= maxlen -> (length sample_text <= length dest)%nat ->
      @hostnet777_decrypt ConstantOps Hf' junk' e0 e1 priv high_key dest maxlen packet (Z.of_nat (length packet)) =
        Some (Z.of_nat (length sample_text), low_key, @acct777_nxt64bits ConstantOps (curve25519_bytes priv curve25519_basepoint9), 77,
          sample_text ++ drop (length sample_text) dest).
Proof.
  exact (@hostnet777_signedPM_roundtrip ConstantOps ConstantLaws sample_huff zero256 zero256 (replicate 24 5) 77 high_key (replicate 32 64) low_key (replicate 32 64)
    (curve25519_bytes (replicate 32 64) curve25519_basepoint9) sample_text ltac:(concrete)
    (agree_alike (replicate 32 64) low_key high_key ltac:(concrete) ltac:(concrete) ltac:(concrete) ltac:(vm_compute; reflexivity))
    ltac:(reflexivity) (clamped_public (replicate 32 64) ltac:(concrete)) ltac:(vm_compute; discriminate) ltac:(vm_compute; discriminate) ltac:(vm_compute; discriminate)
    (fun E => top_bit_public genesis_private high_key ltac:(concrete) ltac:(vm_compute; discriminate) (eq_sym E))
    (constant_number _) (constant_number _) ltac:(concrete) ltac:(concrete) ltac:(concrete) ltac:(concrete) ltac:(concrete)).
Defined.

Lemma hostnet777_blind_readable_witness :
  let priv := replicate 32 64 in let pub := curve25519_bytes priv curve25519_basepoint9 in
  exists packet, @hostnet777_sendmsg ConstantOps sample_huff zero256 priv [] 77 high_key zero256 zero256 sample_text (Z.of_nat (length sample_text)) = Some packet /\
    (52 <= length packet <= 2 * length sample_text + 52)%nat /\
    (forall Hf' dest maxlen, Z.of_nat (length sample_text) <= maxlen -> (length sample_text <= length dest)%nat ->
      unpack_message Hf' (drop 52 packet) (Z.of_nat (length packet) - 52) dest maxlen = Some (sample_text ++ drop (length sample_text) dest, Z.of_nat (length sample_text))) /\
    forall Hf' junk' e0 e1 anypriv anypub dest maxlen, length junk' = 32%nat -> envelope_ok e0 -> envelope_ok e1 -> bits256_ok anypriv ->
      @destbits_of ConstantOps (@addressee ConstantOps high_key) = 0 \/ @destbits_of ConstantOps (@addressee ConstantOps high_key) = @acct777_nxt64bits ConstantOps anypub ->
      Z.of_nat (length packet) <= maxlen < 2 ^ 28 -> Z.of_nat (length sample_text) <= maxlen -> (length sample_text <= length dest)%nat ->
      @hostnet777_decrypt ConstantOps Hf' junk' e0 e1 anypriv anypub dest maxlen packet (Z.of_nat (length packet)) =
        Some (Z.of_nat (length sample_text), pub, 0, 77, sample_text ++ drop (length sample_text) dest).
Proof.
  exact (@hostnet777_blind_readable ConstantOps ConstantLaws sample_huff zero256 (replicate 32 64) (replicate 32 64) (curve25519_bytes (replicate 32 64) curve25519_basepoint9) []
    77 high_key zero256 zero256 sample_text (or_introl eq_refl) ltac:(concrete) eq_refl (clamped_public (replicate 32 64) ltac:(concrete)) ltac:(concrete) ltac:(concrete)
    ltac:(concrete)).
Defined.

Lemma hostnet777_decode_overrun_witness :
  let e := mk_envelope (replicate 8 1) low_key (replicate 8 2) (replicate 4 3) (replicate 32 4) in
  hostnet777_decode empty_envelope (replicate 200 0) (payload e ++ replicate 60 7) 100 (replicate 32 64) = None.
Proof.
  exact (hostnet777_decode_overrun empty_envelope (mk_envelope (replicate 8 1) low_key (replicate 8 2) (replicate 4 3) (replicate 32 4)) (replicate 200 0) (replicate 60 7) 100
    (replicate 32 64) ltac:(split; concrete) empty_envelope_ok ltac:(concrete) ltac:(vm_compute; discriminate) ltac:(vm_compute; discriminate) ltac:(concrete)
    ltac:(vm_compute; split; [discriminate|reflexivity]) ltac:(lia)).
Defined.
