(* ===== verification/Coin.v ===== *)
(** * Coin: Bitcoin transactions and scripts

    Models the transaction encoder and decoder of [plugins/coins/cointx.c] and the
    scripts and addresses of [plugins/InstantDEX/subatomic.h].  A character array
    of the structures is given by its string; behind it the array is zero, as
    [calloc] and [memset] leave it.  [None] is an access outside an array.  The
    hashes and the base 58 encoding are those of the libraries [libtom] and
    [picocoin]: they are variables.  Fields of the structures that these
    functions do not use are left out. *)

From stdpp Require Import strings.
From S2P Require Import Prelude Bits Utils.

#[global] Open Scope Z_scope.

(** ** Reading and writing at an offset *)

Definition read_at (data : list Z) (offset n : Z) : option (list Z) :=
  if offset <? 0 then None else take_exact (Z.to_nat n) (drop (Z.to_nat offset) data).

Definition store (data : list Z) (offset : Z) (bs : list Z) : option (list Z) :=
  memcpy data offset bs 0 (Z.of_nat (length bs)).

(** [decode_hex(&data[offset], n, hex)]. *)
Definition store_hex (data : list Z) (offset n : Z) (hex : list Z) : option (list Z) :=
  if (offset <? 0) || (Z.of_nat (length data) <? offset) then None
  else '(bs, _) ← decode_hex (drop (Z.to_nat offset) data) n hex;
       Some (take (Z.to_nat offset) data ++ bs).

(** The array of [size] characters that holds a string. *)
Definition chars (size : Z) (str : list Z) : list Z :=
  str ++ replicate (Z.to_nat size - length str) 0.

(** ** Integers *)

(** The value and the new offset, -1 when the number does not fit. *)
Definition hdecode_varint (ptr : list Z) (offset mappedsize : Z) : option (Z * Z) :=
  if (offset <? 0) || (mappedsize <=? offset) then Some (0, -1)
  else
    c ← aget ptr offset;
    let offset := offset + 1 in
    let wide (n : Z) :=
      if mappedsize <? offset + n then Some (0, -1)
      else x ← read_at ptr offset n; Some (le_int x, offset + n) in
    if c =? 0xfd then wide 2
    else if c =? 0xfe then wide 4
    else if c =? 0xff then wide 8
    else Some (c, offset).

(** The bytes written to [buf]; their number is returned. *)
Definition hcalc_varint (x : Z) : list Z :=
  if x <? 0xfd then [Z.land x 0xff]
  else if x <=? 0xffff then 0xfd :: le_bytes 2 (u16 x)
  else if x <=? 0xffffffff then 0xfe :: le_bytes 4 (u32 x)
  else 0xff :: le_bytes 8 x.

Definition _emit_uint32 (data : list Z) (offset x : Z) : option (list Z * Z) :=
  data ← store data offset (le_bytes 4 x); Some (data, offset + 4).

Definition _decode_uint32 (data : list Z) (offset len : Z) : option (Z * Z) :=
  x ← read_at data offset 4;
  let offset := offset + 4 in
  Some (le_int x, if len <? offset then -1 else offset).

Definition emit_varint (data : list Z) (offset x : Z) : option (list Z * Z) :=
  let bs := hcalc_varint x in data ← store data offset bs; Some (data, offset + Z.of_nat (length bs)).

(** ** Inputs and outputs *)

(** [tx.txidstr], [tx.vout] of 16 bits, [sigs] and [sequence]. *)
Record cointx_input := mk_input {
  i_txidstr : list Z;
  i_vout : Z;
  i_sigs : list Z;
  i_sequence : Z;
}.

Record rawvout := mk_rawvout {
  o_script : list Z;
  o_value : Z;
}.

Record cointx_info := mk_cointx {
  x_version : Z;
  x_timestamp : Z;
  x_numinputs : Z;
  x_numoutputs : Z;
  x_inputs : list cointx_input;
  x_outputs : list rawvout;
  x_nlocktime : Z;
}.

(** A hexadecimal string in an array of [size] characters: its length in bytes as
    a variable integer, then the bytes. *)
Definition emit_hexstr (data : list Z) (offset : Z) (size : Z) (str : list Z) : option (list Z * Z) :=
  let n := Z.shiftr (Z.of_nat (length str)) 1 in
  '(data, offset) ← emit_varint data offset n;
  if negb (n =? 0) then data ← store_hex data offset n (chars size str); Some (data, offset + n)
  else Some (data, offset).

(** The check before the text is written compares the number of bytes, not of
    characters, with the size of the array. *)
Definition decode_hexstr (data : list Z) (offset len size : Z) : option (option (list Z * Z)) :=
  '(n, offset) ← hdecode_varint data offset len;
  if (offset <? 0) || (size <? n) then Some None
  else
    '(text, _) ← init_hexbytes_noT (drop (Z.to_nat offset) data) n;
    if size <? 2 * n + 1 then None else Some (Some (text, offset + n)).

(** [None] inside is -1: the input does not fit. *)
Definition _decode_vin (data : list Z) (offset len : Z) : option (option (cointx_input * Z)) :=
  txid ← read_at data offset 32;
  '(txidstr, _) ← init_hexbytes_noT (rev txid) 32;
  '(vout, offset) ← _decode_uint32 data (offset + 32) len;
  if offset <? 0 then Some None
  else
    r ← decode_hexstr data offset len 4096;
    match r with
    | None => Some None
    | Some (sigs, offset) =>
        '(sequence, offset) ← _decode_uint32 data offset len;
        if offset <? 0 then Some None
        else Some (Some (mk_input txidstr (u16 vout) sigs sequence, offset))
    end.

Definition _emit_cointx_input (data : list Z) (offset : Z) (vin : cointx_input) : option (list Z * Z) :=
  '(revdata, _) ← decode_hex (replicate 32 0) 32 (chars 128 (i_txidstr vin));
  data ← store data offset (rev revdata);
  '(data, offset) ← _emit_uint32 data (offset + 32) (i_vout vin);
  '(data, offset) ← emit_hexstr data offset 4096 (i_sigs vin);
  _emit_uint32 data offset (i_sequence vin).

Definition _emit_cointx_output (data : list Z) (offset : Z) (vout : rawvout) : option (list Z * Z) :=
  '(data, offset) ← _emit_uint32 data offset (u32 (o_value vout));
  '(data, offset) ← _emit_uint32 data offset (Z.shiftr (o_value vout) 32);
  emit_hexstr data offset 2048 (o_script vout).

Definition _decode_vout (data : list Z) (offset len : Z) : option (option (rawvout * Z)) :=
  '(low, offset) ← _decode_uint32 data offset len;
  if offset <? 0 then Some None
  else
    '(high, offset) ← _decode_uint32 data offset len;
    if offset <? 0 then Some None
    else
      r ← decode_hexstr data offset len 2048;
      match r with
      | None => Some None
      | Some (script, offset) => Some (Some (mk_rawvout script (Z.lor (Z.shiftl high 32) low), offset))
      end.

(** ** Transactions *)

(** The elements of an array, one after the other; -1 as soon as [maxlen] is passed. *)
Fixpoint emit_all {A} (f : list Z -> Z -> A -> option (list Z * Z)) (data : list Z) (offset maxlen : Z)
    (l : list A) (i : Z) (k : nat) : option (list Z * Z) :=
  match k with
  | O => Some (data, offset)
  | S k =>
      x ← aget l i;
      '(data, offset) ← f data offset x;
      if maxlen <? offset then Some (data, -1) else emit_all f data offset maxlen l (i + 1) k
  end.

Definition emit_cointxdata (data : list Z) (maxlen : Z) (cointx : cointx_info) (oldtx : Z)
  : option (list Z * Z) :=
  '(data, offset) ← _emit_uint32 data 0 (x_version cointx);
  '(data, offset) ← (if oldtx =? 0 then _emit_uint32 data offset (x_timestamp cointx) else Some (data, offset));
  '(data, offset) ← emit_varint data offset (x_numinputs cointx);
  '(data, offset) ← emit_all _emit_cointx_input data offset maxlen (x_inputs cointx) 0 (Z.to_nat (x_numinputs cointx));
  if offset <? 0 then Some (data, -1)
  else
    '(data, offset) ← emit_varint data offset (x_numoutputs cointx);
    '(data, offset) ← emit_all _emit_cointx_output data offset maxlen (x_outputs cointx) 0 (Z.to_nat (x_numoutputs cointx));
    if offset <? 0 then Some (data, -1) else _emit_uint32 data offset (x_nlocktime cointx).

(** The string written and the length in bytes.  A length of -1 passes the test,
    and the terminating zero goes before the string. *)
Definition _emit_cointx (len : Z) (cointx : cointx_info) (oldtx : Z) : option (list Z * Z) :=
  '(data, offset) ← emit_cointxdata (replicate (Z.to_nat len) 0) len cointx oldtx;
  if offset <? Z.quot len 2 - 1 then
    if offset <? 0 then None
    else '(text, _) ← init_hexbytes_noT data offset; Some (text, offset)
  else Some ([], -1).

(** [hexstr], two zeros shorter if it had these in excess, and whether the strings
    were equal. *)
Definition _validate_decoderawtransaction (hexstr : list Z) (cointx : cointx_info) (oldtx : Z)
  : option (list Z * bool) :=
  '(checkstr, _) ← _emit_cointx (Z.of_nat (length hexstr) * 2) cointx oldtx;
  if bool_decide (checkstr = hexstr) then Some (hexstr, true)
  else
    let hlen := Z.of_nat (length hexstr) in
    if Z.of_nat (length checkstr) + 2 =? hlen then
      a ← aget hexstr (hlen - 1); b ← aget hexstr (hlen - 2);
      Some (if (a =? b) && (a =? 48) then take (length checkstr) hexstr else hexstr, false)
    else Some (hexstr, false).

Fixpoint decode_all {A} (f : list Z -> Z -> Z -> option (option (A * Z))) (data : list Z) (offset len : Z)
    (k : nat) : option (option (list A * Z)) :=
  match k with
  | O => Some (Some ([], offset))
  | S k =>
      r ← f data offset len;
      match r with
      | None => Some None
      | Some (x, offset) =>
          r ← decode_all f data offset len k;
          Some (match r with Some (l, offset) => Some (x :: l, offset) | None => None end)
      end
  end.

(** [emit_cointx]: the transaction in the caller's array, its length and, with a
    [hashtype], the double hash of it and that number. *)
Definition emit_cointx (calc_sha256 : list Z -> list Z) (data : list Z) (max : Z) (cointx : cointx_info)
    (oldtx hashtype : Z) : option (list Z * Z * option (list Z)) :=
  '(data, offset) ← emit_cointxdata data max cointx oldtx;
  if (max <? offset) || (offset <? 0) then Some (data, -1, None)
  else if negb (hashtype =? 0) then
    '(data, _) ← _emit_uint32 data offset hashtype;
    m ← take_exact (Z.to_nat (offset + 4)) data;
    Some (data, offset, Some (calc_sha256 (calc_sha256 m)))
  else Some (data, offset, None).

Definition MAX_COINTX_INPUTS : Z := 256.
Definition MAX_COINTX_OUTPUTS : Z := 256.

(** [stack] is the former contents of the 8192 bytes [data]; the result is the
    string, which the validation may shorten, and the transaction, if any. *)
Definition _decode_rawtransaction (stack : list Z) (hexstr : list Z) (oldtx : Z)
  : option (list Z * option cointx_info) :=
  let len := Z.of_nat (length hexstr) in
  if (8192 * 2 - 1 <=? len) || negb (is_hexstr hexstr) || negb (Z.land len 1 =? 0) then Some (hexstr, None)
  else
    let len := Z.shiftr len 1 in
    '(data, _) ← decode_hex stack len (hexstr ++ [0; 0]);
    '(version, offset) ← _decode_uint32 data 0 len;
    '(timestamp, offset) ← (if oldtx =? 0 then _decode_uint32 data offset len else Some (0, offset));
    '(numinputs, offset) ← hdecode_varint data offset len;
    if MAX_COINTX_INPUTS <? numinputs then Some (hexstr, None)
    else
      r ← decode_all _decode_vin data offset len (Z.to_nat numinputs);
      match r with
      | None => Some (hexstr, None)
      | Some (inputs, offset) =>
          '(numoutputs, offset) ← hdecode_varint data offset len;
          if MAX_COINTX_OUTPUTS <? numoutputs then Some (hexstr, None)
          else
            r ← decode_all _decode_vout data offset len (Z.to_nat numoutputs);
            match r with
            | None => Some (hexstr, None)
            | Some (outputs, offset) =>
                '(nlocktime, offset) ← _decode_uint32 data offset len;
                let cointx := mk_cointx version timestamp numinputs numoutputs inputs outputs nlocktime in
                '(hexstr, _) ← _validate_decoderawtransaction hexstr cointx oldtx;
                Some (hexstr, Some cointx)
            end
      end.

(** ** Scripts and addresses *)

Definition SCRIPT_OP_IF : Z := 0x63.
Definition SCRIPT_OP_ELSE : Z := 0x67.
Definition SCRIPT_OP_DUP : Z := 0x76.
Definition SCRIPT_OP_ENDIF : Z := 0x68.
Definition SCRIPT_OP_2 : Z := 0x52.
Definition SCRIPT_OP_EQUALVERIFY : Z := 0x88.
Definition SCRIPT_OP_HASH160 : Z := 0xa9.
Definition SCRIPT_OP_EQUAL : Z := 0x87.
Definition SCRIPT_OP_CHECKSIG : Z := 0xac.
Definition SCRIPT_OP_CHECKMULTISIG : Z := 0xae.

(** The address type of a coin and its type for scripts; for an unknown coin the
    former value of [*p2shtypep] stays. *)
Definition coin777_addrtype (p2shtype : Z) (coinstr : string) : Z * Z :=
  if String.eqb coinstr "BTC" then (0, 5)
  else if String.eqb coinstr "LTC" then (48, 5)
  else if String.eqb coinstr "BTCD" then (60, 85)
  else if String.eqb coinstr "DOGE" then (30, 35)
  else if String.eqb coinstr "VRC" then (70, 85)
  else if String.eqb coinstr "OPAL" then (115, 28)
  else if String.eqb coinstr "BITS" then (25, 8)
  else (0, p2shtype).

Section Scripts.
(** The hash of the bytes of a hexadecimal text, of twenty bytes; the address of a
    type and a hash, if there is one. *)
Context (calc_OP_HASH160 : list Z -> list Z) (base58_encode_check : Z -> list Z -> option (list Z)).

(** The [n] bytes of a hexadecimal string; the two bytes behind it are readable. *)
Definition hex_bytes (n : nat) (str : list Z) : option (list Z) :=
  fst <$> decode_hex (replicate n 0) (Z.of_nat n) (str ++ [0; 0]).

(** [OP_HASH160 <hash> OP_EQUAL]. *)
Definition p2sh_script (hash160 : list Z) : list Z := [SCRIPT_OP_HASH160; 20] ++ hash160 ++ [SCRIPT_OP_EQUAL].

(** An address of 36 characters or more is left out. *)
Definition p2sh_address (addrtype : Z) (hash160 : list Z) : list Z :=
  match base58_encode_check addrtype hash160 with
  | Some addr => if (length addr <? 36)%nat then addr else []
  | None => []
  end.

(** Redeem script, script and address of an M-of-N account, and the length of the
    redeem script in bytes; it is built in an array of 4096. *)
Definition create_MofN (addrtype : Z) (pubkeys : list (list Z)) (M N : Z)
  : option (list Z * list Z * list Z * Z) :=
  keys ← for_ (fun i keys =>
      str ← aget pubkeys i; pubkey ← hex_bytes 33 str; Some (keys ++ 33 :: pubkey)) 0 (Z.to_nat N) [];
  let hex := u8 (0x50 + M) :: keys ++ [u8 (0x50 + N); SCRIPT_OP_CHECKMULTISIG] in
  if (4096 <? Z.of_nat (length hex)) then None
  else
    let redeemScript := hex ≫= hex_digits in
    let hash160 := calc_OP_HASH160 redeemScript in
    Some (redeemScript, p2sh_script hash160 ≫= hex_digits, p2sh_address addrtype hash160,
          Z.of_nat (length hex)).

(** Refund to both keys or payment to the owner of [hash160str]. *)
Definition create_atomictx_scripts (addrtype : Z) (pubkeyA pubkeyB hash160str : list Z)
  : option (list Z * list Z * list Z) :=
  pubkeyA ← hex_bytes 33 pubkeyA;
  pubkeyB ← hex_bytes 33 pubkeyB;
  hash160 ← hex_bytes 20 hash160str;
  let hex := [SCRIPT_OP_IF; SCRIPT_OP_2; 33] ++ pubkeyA ++ [33] ++ pubkeyB ++
    [SCRIPT_OP_2; SCRIPT_OP_CHECKMULTISIG; SCRIPT_OP_ELSE; SCRIPT_OP_DUP; SCRIPT_OP_HASH160; 20] ++ hash160 ++
    [SCRIPT_OP_EQUALVERIFY; SCRIPT_OP_CHECKSIG; SCRIPT_OP_ENDIF] in
  let retstr := hex ≫= hex_digits in
  let hash160 := calc_OP_HASH160 retstr in
  Some (retstr, p2sh_script hash160 ≫= hex_digits, p2sh_address addrtype hash160).

(** The result is 0 with the address in [coinaddr], or -1. *)
Definition btc_convrmd160 (addrtype : Z) (md160 : list Z) : option (list Z) := base58_encode_check addrtype md160.

Definition btc_coinaddr (addrtype : Z) (pubkeystr : list Z) : option (list Z) :=
  btc_convrmd160 addrtype (calc_OP_HASH160 pubkeystr).
End Scripts.

(** ** Theorems: what is written is read back *)

(** Offsets are lengths of prefixes. *)
#[local] Abbreviation len l := (Z.of_nat (length l)).

Lemma read_at_app pre bs post n : n = len bs -> read_at (pre ++ bs ++ post) (len pre) n = Some bs.
Proof.
  intros ->. unfold read_at. destruct (Z.ltb_spec (len pre) 0); [lia|].
  rewrite !Nat2Z.id, drop_app_length, take_exact_le by (rewrite length_app; lia). by rewrite take_app_length.
Qed.

Lemma aget_app {A} (pre : list A) c l post : aget (pre ++ (c :: l) ++ post) (len pre) = Some c.
Proof. rewrite aget_of_nat. by apply list_lookup_middle. Qed.

Lemma store_app pre bs rest : (length bs <= length rest)%nat ->
  store (pre ++ rest) (len pre) bs = Some (pre ++ bs ++ drop (length bs) rest).
Proof.
  intros H. unfold store, memcpy. rewrite length_app.
  destruct (Z.ltb_spec (len pre) 0), (Z.ltb_spec 0 0), (Z.ltb_spec (len bs) 0),
    (Z.ltb_spec (Z.of_nat (length pre + length rest)) (len pre + len bs)),
    (Z.ltb_spec (len bs) (0 + len bs)); try lia. cbn [orb].
  rewrite !Nat2Z.id, take_app_length, drop_0, firstn_all.
  replace (Z.to_nat (len pre + len bs)) with (length pre + length bs)%nat by lia.
  by rewrite <- drop_drop, drop_app_length.
Qed.

(** [f] writes [ser]; [f] reads [x] from [ser]. *)
Definition writes (maxlen : Z) (f : list Z -> Z -> option (list Z * Z)) (ser : list Z) : Prop :=
  forall pre rest, (length ser <= length rest)%nat -> len pre + len rest <= maxlen ->
    f (pre ++ rest) (len pre) = Some (pre ++ ser ++ drop (length ser) rest, len pre + len ser).

Definition parses {A} (f : list Z -> Z -> Z -> option (option (A * Z))) (x : A) (ser : list Z) : Prop :=
  forall pre post n, len pre + len ser <= n ->
    f (pre ++ ser ++ post) (len pre) n = Some (Some (x, len pre + len ser)).

Lemma writes_bind m f g a b : writes m f a -> writes m g b ->
  writes m (fun data offset => '(data, offset) ← f data offset; g data offset) (a ++ b).
Proof.
  intros Hf Hg pre rest Hl Hm. rewrite length_app in Hl. rewrite Hf by lia. cbn [mbind option_bind].
  replace (len pre + len a) with (len (pre ++ a)) by (rewrite length_app; lia).
  rewrite app_assoc, Hg by (rewrite ?length_app, length_drop; lia).
  rewrite drop_drop, <- !app_assoc, !length_app. do 2 f_equal. lia.
Qed.

Lemma writes_ext m f g a : (forall data offset, 0 <= offset -> f data offset = g data offset) ->
  writes m g a -> writes m f a.
Proof. intros E Hg pre rest Hl Hm. rewrite E by lia. by apply Hg. Qed.

Lemma writes_bind_check m f g a b : writes m f a -> writes m g b ->
  writes m (fun data offset => '(data, offset) ← f data offset;
              if offset <? 0 then Some (data, -1) else g data offset) (a ++ b).
Proof.
  intros Hf Hg. apply writes_bind; [done|]. eapply writes_ext, Hg.
  intros data offset H. cbn beta. by destruct (Z.ltb_spec offset 0); [lia|].
Qed.

Lemma writes_store m f a n :
  (forall data offset, f data offset = (d ← store data offset a; Some (d, offset + n))) ->
  n = len a -> writes m f a.
Proof. intros Hf -> pre rest Hl Hm. by rewrite Hf, store_app. Qed.

Lemma writes_uint32 m x : writes m (fun data offset => _emit_uint32 data offset x) (le_bytes 4 x).
Proof. by apply writes_store with (n := 4). Qed.

Lemma decode_uint32_app x pre post n : 0 <= x < 2 ^ 32 -> len pre + 4 <= n ->
  _decode_uint32 (pre ++ le_bytes 4 x ++ post) (len pre) n = Some (x, len pre + 4).
Proof.
  intros Hx Hn. unfold _decode_uint32. rewrite read_at_app by by rewrite length_le_bytes.
  cbn [mbind option_bind]. destruct (Z.ltb_spec n (len pre + 4)); [lia|].
  rewrite le_int_bytes, Z.mod_small by (change (256 ^ Z.of_nat 4) with (2 ^ 32); lia). done.
Qed.

Lemma varint_cases x : 0 <= x < 2 ^ 64 ->
  (x < 0xfd /\ hcalc_varint x = [x]) \/
  exists c k, hcalc_varint x = c :: le_bytes k x /\ x < 256 ^ Z.of_nat k /\
    ((c = 0xfd /\ k = 2%nat) \/ (c = 0xfe /\ k = 4%nat) \/ (c = 0xff /\ k = 8%nat)).
Proof.
  intros Hx. unfold hcalc_varint. case_cmp.
  - left. split; [done|]. f_equal. change 0xff with (Z.ones 8). rewrite Z.land_ones by lia. rewrite Z.mod_small; lia.
  - right. exists 0xfd, 2%nat. rewrite u16_small by lia. split; [done|]. split; [simpl; lia|]. by left.
  - right. exists 0xfe, 4%nat. rewrite u32_small by lia. split; [done|]. split; [simpl; lia|]. by right; left.
  - right. exists 0xff, 8%nat. split; [done|]. split; [simpl; lia|]. by right; right.
Qed.

Lemma writes_varint m x : writes m (fun data offset => emit_varint data offset x) (hcalc_varint x).
Proof. by eapply writes_store. Qed.

Lemma hdecode_varint_app x pre post n : 0 <= x < 2 ^ 64 -> len pre + len (hcalc_varint x) <= n ->
  hdecode_varint (pre ++ hcalc_varint x ++ post) (len pre) n = Some (x, len pre + len (hcalc_varint x)).
Proof.
  intros Hx Hn. unfold hdecode_varint.
  destruct (varint_cases x Hx) as [[Hs E]|(c & k & E & Hr & Hc)]; rewrite E in *; cbn [length] in Hn;
    (destruct (Z.ltb_spec (len pre) 0); [lia|]); (destruct (Z.leb_spec n (len pre)); [lia|]); cbn [orb];
    rewrite aget_app;
    cbn [mbind option_bind].
  - destruct (Z.eqb_spec x 0xfd), (Z.eqb_spec x 0xfe), (Z.eqb_spec x 0xff); try lia. done.
  - assert (forall k' : Z, k' = Z.of_nat k ->
      (if n <? len pre + 1 + k' then Some (0, -1)
       else y ← read_at (pre ++ (c :: le_bytes k x) ++ post) (len pre + 1) k'; Some (le_int y, len pre + 1 + k'))
      = Some (x, len pre + len (c :: le_bytes k x))) as W.
    { intros k' ->. rewrite length_le_bytes in Hn. cbn [length]. rewrite length_le_bytes.
      destruct (Z.ltb_spec n (len pre + 1 + Z.of_nat k)); [lia|].
      replace (pre ++ (c :: le_bytes k x) ++ post) with ((pre ++ [c]) ++ le_bytes k x ++ post) by by rewrite <- app_assoc.
      replace (len pre + 1) with (len (pre ++ [c])) by (rewrite length_app; cbn [length]; lia).
      rewrite read_at_app by by rewrite length_le_bytes. cbn [mbind option_bind].
      rewrite le_int_bytes, Z.mod_small by lia. do 2 f_equal. rewrite length_app. cbn [length]. lia. }
    destruct Hc as [[-> ->]|[[-> ->]|[-> ->]]]; cbn [Z.eqb Pos.eqb]; by apply W.
Qed.

(** The text of bytes, and its length-prefixed form. *)
#[local] Abbreviation hex s := (s ≫= hex_digits).
Definition ser_hexstr (s : list Z) : list Z := hcalc_varint (len s) ++ s.

Lemma init_hex_text m n post : n = len m -> exists k, init_hexbytes_noT (m ++ post) n = Some (hex m, k).
Proof.
  intros ->. unfold init_hexbytes_noT. destruct (Z.eqb_spec (len m) 0) as [E|_].
  - destruct m; [by exists 1|simpl in E; lia].
  - rewrite Nat2Z.id, take_exact_le by (rewrite length_app; lia). cbn [mbind option_bind].
    rewrite take_app_length. by eexists.
Qed.

Lemma decode_chars m buf size : bytes m -> m <> [] -> (length m <= length buf)%nat -> 2 * len m + 2 <= size ->
  decode_hex buf (len m) (chars size (hex m)) = Some (m ++ drop (length m) buf, len m).
Proof.
  intros Hm Hne Hl Hs. unfold chars. rewrite length_hex_text.
  replace (Z.to_nat size - 2 * length m)%nat with (S (S (Z.to_nat size - 2 * length m - 2))) by lia.
  cbn [replicate].
  destruct (decode_hex_text m buf 0 (replicate (Z.to_nat size - 2 * length m - 2) 0) Hm Hne Hl) as (text & E & D).
  unfold init_hexbytes_noT in E. destruct (Z.eqb_spec (len m) 0); [destruct m; simpl in *; lia || done|].
  rewrite Nat2Z.id, take_exact_le, firstn_all in E by done. by injection E as <-.
Qed.

Lemma store_hex_app m pre rest size : bytes m -> m <> [] -> (length m <= length rest)%nat -> 2 * len m + 2 <= size ->
  store_hex (pre ++ rest) (len pre) (len m) (chars size (hex m)) = Some (pre ++ m ++ drop (length m) rest).
Proof.
  intros Hm Hne Hl Hs. unfold store_hex. rewrite length_app.
  destruct (Z.ltb_spec (len pre) 0), (Z.ltb_spec (Z.of_nat (length pre + length rest)) (len pre)); try lia. cbn [orb].
  rewrite Nat2Z.id, drop_app_length, take_app_length, decode_chars by done. done.
Qed.

Lemma shiftr_hex s : Z.shiftr (len (hex s)) 1 = len s.
Proof. rewrite length_hex_text, Z.shiftr_div_pow2, Nat2Z.inj_mul, Z.mul_comm by lia. by apply Z.div_mul. Qed.

Lemma writes_hexstr m s size : bytes s -> 2 * len s + 2 <= size ->
  writes m (fun data offset => emit_hexstr data offset size (hex s)) (ser_hexstr s).
Proof.
  intros Hs Hz. unfold emit_hexstr, ser_hexstr. rewrite shiftr_hex.
  apply writes_bind; [apply writes_varint|]. intros pre rest Hl Hm.
  destruct (Z.eqb_spec (len s) 0) as [E|Hne]; cbn [negb].
  - destruct s; [|simpl in E; lia]. by rewrite Z.add_0_r.
  - by rewrite store_hex_app; [|done|by intros ->|done|done].
Qed.

Lemma decode_hexstr_app s size pre post n : 2 * len s + 1 <= size < 2 ^ 32 ->
  len pre + len (ser_hexstr s) <= n ->
  decode_hexstr (pre ++ ser_hexstr s ++ post) (len pre) n size =
    Some (Some (hex s, len pre + len (ser_hexstr s))).
Proof.
  intros Hz Hn. unfold decode_hexstr, ser_hexstr in *. rewrite <- app_assoc. rewrite length_app in Hn.
  rewrite hdecode_varint_app by lia. cbn [mbind option_bind].
  set (v := hcalc_varint (len s)) in *.
  destruct (Z.ltb_spec (len pre + len v) 0), (Z.ltb_spec size (len s)); try lia. cbn [orb].
  replace (Z.to_nat (len pre + len v)) with (length pre + length v)%nat by lia.
  rewrite <- drop_drop, !drop_app_length. destruct (init_hex_text s (len s) post eq_refl) as (k & ->).
  cbn [mbind option_bind]. destruct (Z.ltb_spec size (2 * len s + 1)); [lia|].
  do 3 f_equal. rewrite length_app. lia.
Qed.

(** ** Theorems: inputs and outputs *)

(** The bytes of an input whose strings are hexadecimal and fit their arrays. *)
Inductive input_ser : cointx_input -> list Z -> Prop :=
  | input_ser_intro t s vout seq : bytes t -> length t = 32%nat -> bytes s -> 2 * len s + 2 <= 4096 ->
      0 <= vout < 2 ^ 16 -> 0 <= seq < 2 ^ 32 ->
      input_ser (mk_input (hex t) vout (hex s) seq)
        (rev t ++ le_bytes 4 vout ++ ser_hexstr s ++ le_bytes 4 seq).

Inductive output_ser : rawvout -> list Z -> Prop :=
  | output_ser_intro s v : bytes s -> 2 * len s + 2 <= 2048 -> 0 <= v < 2 ^ 64 ->
      output_ser (mk_rawvout (hex s) v) (le_bytes 4 v ++ le_bytes 4 (Z.shiftr v 32) ++ ser_hexstr s).

Lemma writes_input m vin ser : input_ser vin ser ->
  writes m (fun data offset => _emit_cointx_input data offset vin) ser.
Proof.
  intros [t s vout seq Ht Lt Hs Ls Hv Hq]. unfold _emit_cointx_input. cbn [i_txidstr i_vout i_sigs i_sequence].
  pose proof (decode_chars t (replicate 32 0) 128 Ht) as D. rewrite Lt, app_nil_r in D.
  assert (decode_hex (replicate 32 0) 32 (chars 128 (hex t)) = Some (t, 32)) as ->
    by (apply D; [by intros ->|done|lia]).
  cbn [mbind option_bind].
  eapply (writes_ext _ _ (fun data offset => '(data, offset) ← (data ← store data offset (rev t); Some (data, offset + 32));
     '(data, offset) ← _emit_uint32 data offset vout;
     '(data, offset) ← emit_hexstr data offset 4096 (hex s); _emit_uint32 data offset seq)).
  { intros. by destruct (store _ _ _). }
  repeat first [apply writes_uint32 | apply writes_hexstr; done | apply writes_bind].
  eapply writes_store; [done|]. rewrite length_rev. lia.
Qed.

Lemma le_bytes_u32 v : le_bytes 4 v = le_bytes 4 (u32 v).
Proof.
  unfold u32, wrapU. change (2 ^ 32) with (256 ^ Z.of_nat 4). rewrite <- le_int_bytes. symmetry.
  apply (le_bytes_int (le_bytes 4 v)), le_bytes_ok.
Qed.

Lemma lor_halves v : Z.lor (Z.shiftl (Z.shiftr v 32) 32) (u32 v) = v.
Proof.
  apply Z.bits_inj'. intros i Hi. unfold u32, wrapU. rewrite Z.lor_spec, Z.shiftl_spec by lia.
  destruct (Z.lt_ge_cases i 32).
  - rewrite Z.mod_pow2_bits_low, Z.testbit_neg_r by lia. done.
  - rewrite Z.mod_pow2_bits_high, Z.shiftr_spec, orb_false_r by lia. f_equal. lia.
Qed.

Lemma writes_output m vout ser : output_ser vout ser ->
  writes m (fun data offset => _emit_cointx_output data offset vout) ser.
Proof.
  intros [s v Hs Ls Hv]. unfold _emit_cointx_output. cbn [o_value o_script].
  rewrite (le_bytes_u32 v) at 1.
  apply writes_bind; [apply writes_uint32|]. apply writes_bind; [apply writes_uint32|]. by apply writes_hexstr.
Qed.

(** Reading at a position given by a split of the array. *)
Lemma decode_uint32_at pre post x data offset n : data = pre ++ le_bytes 4 x ++ post -> offset = len pre ->
  0 <= x < 2 ^ 32 -> offset + 4 <= n -> _decode_uint32 data offset n = Some (x, offset + 4).
Proof. intros -> -> Hx Hn. by apply decode_uint32_app. Qed.

Lemma decode_hexstr_at pre post s data offset n size : data = pre ++ ser_hexstr s ++ post -> offset = len pre ->
  2 * len s + 1 <= size < 2 ^ 32 -> offset + len (ser_hexstr s) <= n ->
  decode_hexstr data offset n size = Some (Some (hex s, offset + len (ser_hexstr s))).
Proof. intros -> -> Hx Hn. by apply decode_hexstr_app. Qed.

Ltac split_at := first [by rewrite <- ?app_assoc | rewrite !length_app, ?length_rev, ?length_le_bytes; lia | lia].

Lemma parses_input vin ser : input_ser vin ser -> parses _decode_vin vin ser.
Proof.
  intros [t s vout seq Ht Lt Hs Ls Hv Hq] pre post n Hn.
  rewrite !length_app, length_rev, !length_le_bytes, Lt in Hn.
  unfold _decode_vin. rewrite <- !app_assoc. rewrite read_at_app by (rewrite length_rev; lia).
  cbn [mbind option_bind]. rewrite rev_involutive.
  destruct (init_hex_text t 32 [] ltac:(lia)) as (k & E). rewrite app_nil_r in E. rewrite E. cbn [mbind option_bind].
  rewrite (decode_uint32_at (pre ++ rev t) (ser_hexstr s ++ le_bytes 4 seq ++ post) vout) by split_at.
  cbn [mbind option_bind]. destruct (Z.ltb_spec (len pre + 32 + 4) 0); [lia|].
  rewrite (decode_hexstr_at (pre ++ rev t ++ le_bytes 4 vout) (le_bytes 4 seq ++ post) s) by split_at.
  cbn [mbind option_bind].
  rewrite (decode_uint32_at (pre ++ rev t ++ le_bytes 4 vout ++ ser_hexstr s) post seq) by split_at.
  cbn [mbind option_bind].
  match goal with |- context [?x <? 0] => destruct (Z.ltb_spec x 0); [lia|] end.
  rewrite u16_small by lia. do 3 f_equal. rewrite !length_app, length_rev, !length_le_bytes. lia.
Qed.

Lemma parses_output vout ser : output_ser vout ser -> parses _decode_vout vout ser.
Proof.
  intros [s v Hs Ls Hv] pre post n Hn. rewrite !length_app, !length_le_bytes in Hn.
  assert (0 <= Z.shiftr v 32 < 2 ^ 32) as Hh.
  { rewrite Z.shiftr_div_pow2 by lia. split; [apply Z.div_pos; lia|apply Z.div_lt_upper_bound; lia]. }
  unfold _decode_vout. rewrite <- !app_assoc, (le_bytes_u32 v).
  rewrite (decode_uint32_at pre (le_bytes 4 (Z.shiftr v 32) ++ ser_hexstr s ++ post) (u32 v))
    by first [apply u32_range | split_at].
  cbn [mbind option_bind]. match goal with |- context [?x <? 0] => destruct (Z.ltb_spec x 0); [lia|] end.
  rewrite (decode_uint32_at (pre ++ le_bytes 4 (u32 v)) (ser_hexstr s ++ post) (Z.shiftr v 32)) by split_at.
  cbn [mbind option_bind]. match goal with |- context [?x <? 0] => destruct (Z.ltb_spec x 0); [lia|] end.
  rewrite (decode_hexstr_at (pre ++ le_bytes 4 (u32 v) ++ le_bytes 4 (Z.shiftr v 32)) post s) by split_at.
  cbn [mbind option_bind]. do 3 f_equal; [|rewrite !length_app, !length_le_bytes; lia].
  by rewrite lor_halves.
Qed.

(** ** Theorems: transactions *)

Lemma writes_all {A} m (f : list Z -> Z -> A -> option (list Z * Z)) l sers :
  Forall2 (fun x ser => writes m (fun data offset => f data offset x) ser) l sers -> forall before,
  writes m (fun data offset => emit_all f data offset m (before ++ l) (len before) (length l)) (concat sers).
Proof.
  induction 1 as [|x ser l sers Hx Hl IH]; intros before pre rest Hr Hm.
  - cbn [length emit_all concat app drop]. by rewrite Z.add_0_r.
  - cbn [length emit_all concat] in *. rewrite aget_of_nat, list_lookup_middle by done. cbn [mbind option_bind].
    rewrite length_app in Hr. rewrite Hx by lia. cbn [mbind option_bind].
    destruct (Z.ltb_spec m (len pre + len ser)); [lia|].
    specialize (IH (before ++ [x]) (pre ++ ser) (drop (length ser) rest)).
    rewrite <- !app_assoc, !length_app, length_drop in IH. cbn [app length] in IH.
    replace (len before + 1) with (Z.of_nat (length before + 1)) by lia.
    replace (len pre + len ser) with (Z.of_nat (length pre + length ser)) by lia.
    rewrite IH by lia. rewrite drop_drop, <- !app_assoc, !length_app. do 2 f_equal. lia.
Qed.

Lemma parses_all {A} (f : list Z -> Z -> Z -> option (option (A * Z))) l sers :
  Forall2 (parses f) l sers -> forall pre post n, len pre + len (concat sers) <= n ->
  decode_all f (pre ++ concat sers ++ post) (len pre) n (length l) =
    Some (Some (l, len pre + len (concat sers))).
Proof.
  induction 1 as [|x ser l sers Hx Hl IH]; intros pre post n Hn.
  - cbn [length decode_all concat app]. by rewrite Z.add_0_r.
  - cbn [length decode_all concat] in *. rewrite length_app in Hn. rewrite <- app_assoc, Hx by lia.
    cbn [mbind option_bind]. specialize (IH (pre ++ ser) post n).
    rewrite <- app_assoc, !length_app in IH.
    replace (len pre + len ser) with (Z.of_nat (length pre + length ser)) by lia.
    rewrite IH by lia. cbn [mbind option_bind]. rewrite !length_app. do 3 f_equal. lia.
Qed.

(** The bytes of a transaction; the old format has no timestamp. *)
Inductive cointx_ser (oldtx : Z) : cointx_info -> list Z -> Prop :=
  | cointx_ser_intro version timestamp inputs outputs nlocktime sin sout :
      0 <= version < 2 ^ 32 -> 0 <= timestamp < 2 ^ 32 -> 0 <= nlocktime < 2 ^ 32 ->
      (oldtx <> 0 -> timestamp = 0) ->
      Forall2 input_ser inputs sin -> len inputs <= MAX_COINTX_INPUTS ->
      Forall2 output_ser outputs sout -> len outputs <= MAX_COINTX_OUTPUTS ->
      cointx_ser oldtx (mk_cointx version timestamp (len inputs) (len outputs) inputs outputs nlocktime)
        (le_bytes 4 version ++ (if oldtx =? 0 then le_bytes 4 timestamp else []) ++
         hcalc_varint (len inputs) ++ concat sin ++ hcalc_varint (len outputs) ++ concat sout ++
         le_bytes 4 nlocktime).

Lemma writes_cointx m oldtx x ser : cointx_ser oldtx x ser ->
  writes m (fun data offset =>
    '(data, offset) ← _emit_uint32 data offset (x_version x);
    '(data, offset) ← (if oldtx =? 0 then _emit_uint32 data offset (x_timestamp x) else Some (data, offset));
    '(data, offset) ← emit_varint data offset (x_numinputs x);
    '(data, offset) ← emit_all _emit_cointx_input data offset m (x_inputs x) 0 (Z.to_nat (x_numinputs x));
    if offset <? 0 then Some (data, -1)
    else
      '(data, offset) ← emit_varint data offset (x_numoutputs x);
      '(data, offset) ← emit_all _emit_cointx_output data offset m (x_outputs x) 0 (Z.to_nat (x_numoutputs x));
      if offset <? 0 then Some (data, -1) else _emit_uint32 data offset (x_nlocktime x)) ser.
Proof.
  intros [version timestamp inputs outputs nlocktime sin sout _ _ _ _ Hin _ Hout _].
  cbn [x_version x_timestamp x_numinputs x_numoutputs x_inputs x_outputs x_nlocktime]. rewrite !Nat2Z.id.
  apply writes_bind; [apply writes_uint32|]. apply writes_bind.
  { destruct (oldtx =? 0); [apply writes_uint32|]. intros pre rest _ _. cbn [app length drop]. by rewrite Z.add_0_r. }
  apply writes_bind; [apply writes_varint|]. apply writes_bind_check.
  { apply (writes_all m _ inputs sin) with (before := []). eapply list.Forall2_impl; [exact Hin|apply writes_input]. }
  apply writes_bind; [apply writes_varint|]. apply writes_bind_check; [|apply writes_uint32].
  apply (writes_all m _ outputs sout) with (before := []). eapply list.Forall2_impl; [exact Hout|apply writes_output].
Qed.

Lemma varint_bytes x : 0 <= x < 2 ^ 64 -> bytes (hcalc_varint x).
Proof.
  intros Hx. destruct (varint_cases x Hx) as [[Hs ->]|(c & k & -> & _ & Hc)].
  - repeat constructor; unfold is_byte; lia.
  - constructor; [unfold is_byte; lia|apply le_bytes_ok].
Qed.

Lemma concat_bytes {A} (P : A -> list Z -> Prop) l sers :
  (forall x ser, P x ser -> bytes ser) -> Forall2 P l sers -> bytes (concat sers).
Proof. intros HP. induction 1; [constructor|]. apply Forall_app. split; [by eapply HP|done]. Qed.

Lemma input_bytes vin ser : input_ser vin ser -> bytes ser.
Proof.
  intros [t s vout seq Ht Lt Hs Ls Hv Hq]. repeat apply Forall_app_2; try apply le_bytes_ok.
  - by apply Forall_rev.
  - apply varint_bytes. lia.
  - done.
Qed.

Lemma output_bytes vout ser : output_ser vout ser -> bytes ser.
Proof.
  intros [s v Hs Ls Hv]. repeat apply Forall_app_2; try apply le_bytes_ok; [apply varint_bytes; lia|done].
Qed.

Lemma cointx_ser_bytes oldtx x ser : cointx_ser oldtx x ser -> bytes ser /\ ser <> [].
Proof.
  intros [version timestamp inputs outputs nlocktime sin sout _ _ _ _ Hin Li Hout Lo].
  unfold MAX_COINTX_INPUTS, MAX_COINTX_OUTPUTS in *. split; [|done].
  repeat apply Forall_app_2; try apply le_bytes_ok; try (apply varint_bytes; lia).
  - destruct (oldtx =? 0); [apply le_bytes_ok|constructor].
  - by eapply concat_bytes, Hin; apply input_bytes.
  - by eapply concat_bytes, Hout; apply output_bytes.
Qed.

Lemma emit_cointx_text n oldtx x ser : cointx_ser oldtx x ser -> len ser < Z.quot n 2 - 1 ->
  _emit_cointx n x oldtx = Some (hex ser, len ser).
Proof.
  intros Hx Hn. assert (Z.quot n 2 <= n) as Hq.
  { destruct (Z.lt_ge_cases n 0); [|apply Z.quot_le_upper_bound; lia].
    pose proof (Z.quot_opp_l n 2 ltac:(lia)). pose proof (Z.quot_pos (- n) 2). lia. }
  pose proof (writes_cointx n oldtx x ser Hx [] (replicate (Z.to_nat n) 0)) as W.
  rewrite length_replicate in W. specialize (W ltac:(lia) ltac:(simpl; lia)). cbn [app length] in W.
  unfold _emit_cointx, emit_cointxdata. change (Z.of_nat 0) with 0 in W. rewrite W. cbn [mbind option_bind].
  rewrite Z.add_0_l. destruct (Z.ltb_spec (len ser) (Z.quot n 2 - 1)); [|lia].
  destruct (Z.ltb_spec (len ser) 0); [lia|].
  destruct (init_hex_text ser (len ser) (drop (length ser) (replicate (Z.to_nat n) 0)) eq_refl) as (k & ->). done.
Qed.

Lemma decode_all_at {A} (f : list Z -> Z -> Z -> option (option (A * Z))) l sers pre post data offset n k :
  Forall2 (parses f) l sers -> data = pre ++ concat sers ++ post -> offset = len pre ->
  offset + len (concat sers) <= n -> k = length l ->
  decode_all f data offset n k = Some (Some (l, offset + len (concat sers))).
Proof. intros Hl -> -> Hn ->. by apply parses_all. Qed.

Lemma decode_varint_at pre post x data offset n : data = pre ++ hcalc_varint x ++ post -> offset = len pre ->
  0 <= x < 2 ^ 64 -> offset + len (hcalc_varint x) <= n ->
  hdecode_varint data offset n = Some (x, offset + len (hcalc_varint x)).
Proof. intros -> -> Hx Hn. by apply hdecode_varint_app. Qed.

(** The validation of a transaction against its own text changes nothing. *)
Lemma validate_own oldtx x ser : cointx_ser oldtx x ser ->
  _validate_decoderawtransaction (hex ser) x oldtx = Some (hex ser, true).
Proof.
  intros Hx. assert (10 <= len ser) as L10.
  { destruct Hx. rewrite !length_app, !length_le_bytes.
    assert (forall y, 1 <= len (hcalc_varint y)) as V.
    { intros y. unfold hcalc_varint. case_cmp; cbn [length]; lia. }
    pose proof (V (len inputs)). pose proof (V (len outputs)). lia. }
  unfold _validate_decoderawtransaction. rewrite length_hex_text, (emit_cointx_text _ _ _ ser) by
    (done || (rewrite Nat2Z.inj_mul; replace (Z.of_nat 2 * len ser * 2) with (2 * len ser * 2) by lia;
      rewrite Z.quot_mul by lia; lia)).
  cbn [mbind option_bind]. by rewrite bool_decide_true.
Qed.

Lemma decode_cointx_text stack oldtx x ser : cointx_ser oldtx x ser -> len stack = 8192 ->
  len ser <= 8191 -> _decode_rawtransaction stack (hex ser) oldtx = Some (hex ser, Some x).
Proof.
  intros Hx Ls Hl. destruct (cointx_ser_bytes oldtx x ser Hx) as [Bs Hne]. pose proof (validate_own oldtx x ser Hx) as V.
  unfold _decode_rawtransaction. rewrite is_hexstr_text, shiftr_hex by done.
  destruct (Z.leb_spec (8192 * 2 - 1) (len (hex ser))); [rewrite length_hex_text in *; lia|].
  replace (Z.land (len (hex ser)) 1 =? 0) with true; cbn [orb negb].
  2:{ symmetry. apply Z.eqb_eq. rewrite length_hex_text, Nat2Z.inj_mul. change 1 with (Z.ones 1).
      rewrite Z.land_ones, Z.mul_comm by lia. by apply Z.mod_mul. }
  destruct (decode_hex_text ser stack 0 [] Bs Hne ltac:(lia)) as (text & E & D).
  destruct (init_hex_text ser (len ser) [] eq_refl) as (k & E'). rewrite app_nil_r in E'.
  rewrite E' in E. injection E as <- _. rewrite D. cbn [mbind option_bind]. clear D E'.
  set (post := drop (length ser) stack). clearbody post.
  destruct Hx as [version timestamp inputs outputs nlocktime sin sout Hv Ht Hn Hold Hin Li Hout Lo].
  unfold MAX_COINTX_INPUTS, MAX_COINTX_OUTPUTS in *.
  set (ts := if oldtx =? 0 then le_bytes 4 timestamp else []) in *.
  set (vi := hcalc_varint (len inputs)) in *. set (vo := hcalc_varint (len outputs)) in *.
  match goal with |- context [hex ?y] => set (ser := y) in * end.
  assert (ser ++ post = [] ++ le_bytes 4 version ++ ts ++ vi ++ concat sin ++ vo ++ concat sout ++ le_bytes 4 nlocktime ++ post) as Ed
    by (unfold ser; by rewrite <- !app_assoc).
  assert (len ser = 4 + len ts + len vi + len (concat sin) + len vo + len (concat sout) + 4) as Es
    by (unfold ser; rewrite !length_app, !length_le_bytes; lia).
  clearbody ser.
  rewrite (decode_uint32_at [] (ts ++ vi ++ concat sin ++ vo ++ concat sout ++ le_bytes 4 nlocktime ++ post) version)
    by (exact Ed || split_at).
  cbn [mbind option_bind].
  assert ((if oldtx =? 0 then _decode_uint32 (ser ++ post) (0 + 4) (len ser) else Some (0, 0 + 4)) = Some (timestamp, 4 + len ts)) as ->.
  { revert Ed Es. unfold ts. destruct (Z.eqb_spec oldtx 0); intros Ed Es; [|by rewrite Hold].
    rewrite (decode_uint32_at (le_bytes 4 version) (vi ++ concat sin ++ vo ++ concat sout ++ le_bytes 4 nlocktime ++ post) timestamp)
      by (exact Ed || split_at). by rewrite length_le_bytes. }
  cbn [mbind option_bind].
  rewrite (decode_varint_at (le_bytes 4 version ++ ts) (concat sin ++ vo ++ concat sout ++ le_bytes 4 nlocktime ++ post) (len inputs))
    by first [by (rewrite <- !app_assoc; exact Ed) | fold vi; lia | split_at].
  cbn [mbind option_bind]. fold vi.
  destruct (Z.ltb_spec 256 (len inputs)); [lia|]. rewrite Nat2Z.id.
  rewrite (decode_all_at _ inputs sin (le_bytes 4 version ++ ts ++ vi) (vo ++ concat sout ++ le_bytes 4 nlocktime ++ post))
    by first [by eapply list.Forall2_impl; [exact Hin|apply parses_input] | by (rewrite <- !app_assoc; exact Ed) | split_at | done].
  cbn [mbind option_bind].
  rewrite (decode_varint_at (le_bytes 4 version ++ ts ++ vi ++ concat sin) (concat sout ++ le_bytes 4 nlocktime ++ post) (len outputs))
    by first [by (rewrite <- !app_assoc; exact Ed) | fold vo; lia | split_at].
  cbn [mbind option_bind]. fold vo.
  destruct (Z.ltb_spec 256 (len outputs)); [lia|]. rewrite Nat2Z.id.
  rewrite (decode_all_at _ outputs sout (le_bytes 4 version ++ ts ++ vi ++ concat sin ++ vo) (le_bytes 4 nlocktime ++ post))
    by first [by eapply list.Forall2_impl; [exact Hout|apply parses_output] | by (rewrite <- !app_assoc; exact Ed) | split_at | done].
  cbn [mbind option_bind].
  rewrite (decode_uint32_at (le_bytes 4 version ++ ts ++ vi ++ concat sin ++ vo ++ concat sout) post nlocktime)
    by first [by (rewrite <- !app_assoc; exact Ed) | split_at].
  cbn [mbind option_bind]. by rewrite V.
Qed.

(** C13: transactions are read back: [_emit_cointx] prints the bytes of a
    well-formed transaction, whatever the number of inputs, outputs and the
    lengths of their scripts, and [_decode_rawtransaction] recovers from the text
    exactly the transaction printed, leaves the text as it is and does not depend
    on what the stack held. *)
Theorem cointx_roundtrip oldtx x ser n stack : cointx_ser oldtx x ser -> len ser < Z.quot n 2 - 1 ->
  len stack = 8192 -> len ser <= 8191 ->
  exists text, _emit_cointx n x oldtx = Some (text, len ser) /\ length text = (2 * length ser)%nat /\
    _decode_rawtransaction stack text oldtx = Some (text, Some x).
Proof.
  intros Hx Hn Hs Hl. exists (hex ser). split; [by apply emit_cointx_text|].
  split; [apply length_hex_text|by apply decode_cointx_text].
Qed.

(** One input with a signature of two bytes, one output. *)
Definition sample_input : cointx_input := mk_input (hex (replicate 32 171)) 3 (hex [1; 2]) 4294967295.
Definition sample_output : rawvout := mk_rawvout (hex [118; 169]) 5000000000.
Definition sample_cointx : cointx_info := mk_cointx 1 7 1 1 [sample_input] [sample_output] 0.

Lemma sample_cointx_ser : exists ser, cointx_ser 0 sample_cointx ser /\ len ser < 100.
Proof.
  assert (exists sin, input_ser sample_input sin /\ len sin = 43) as (sin & Hi & Li).
  { eexists. split; [by apply (input_ser_intro (replicate 32 171) [1; 2]); [concrete|done|concrete| | |]|done]. }
  assert (exists sout, output_ser sample_output sout /\ len sout = 11) as (sout & Ho & Lo).
  { eexists. split; [by apply (output_ser_intro [118; 169]); [concrete| |]|done]. }
  eexists. split.
  - apply (cointx_ser_intro 0 1 7 [sample_input] [sample_output] 0 [sin] [sout]); [lia..|done| |done| |done];
      by repeat constructor.
  - cbn [Z.eqb]. rewrite !length_app, !length_le_bytes. cbn [concat]. rewrite !app_nil_r.
    change (length (hcalc_varint (len [sample_input]))) with 1%nat.
    change (length (hcalc_varint (len [sample_output]))) with 1%nat. lia.
Qed.

Lemma stack_length : len (replicate (Z.to_nat 8192) 0) = 8192.
Proof. rewrite length_replicate. lia. Qed.

Lemma cointx_roundtrip_witness : exists text n, _emit_cointx 1000 sample_cointx 0 = Some (text, n) /\
  _decode_rawtransaction (replicate (Z.to_nat 8192) 0) text 0 = Some (text, Some sample_cointx).
Proof.
  destruct sample_cointx_ser as (ser & Hx & Hl).
  destruct (cointx_roundtrip 0 sample_cointx ser 1000 (replicate (Z.to_nat 8192) 0) Hx) as (text & E & _ & D);
    [change (Z.quot 1000 2) with 500; lia|apply stack_length|lia|]. exists text, (len ser). by split.
Defined.

(** The output index of an input has 16 bits of the 32 in the transaction. *)
Lemma vout_truncated : forall t post, bytes t -> length t = 32%nat ->
  exists v k, _decode_vin (rev t ++ le_bytes 4 65538 ++ [0] ++ le_bytes 4 0 ++ post) 0 41 = Some (Some (v, k)) /\ i_vout v = 2.
Proof.
  intros t post Ht Lt. unfold _decode_vin.
  pose proof (read_at_app [] (rev t) (le_bytes 4 65538 ++ [0] ++ le_bytes 4 0 ++ post) 32) as R.
  change (len []) with 0 in R. change ([] ++ ?x) with x in R. rewrite R by (rewrite length_rev; lia).
  cbn [mbind option_bind]. rewrite rev_involutive.
  destruct (init_hex_text t 32 [] ltac:(lia)) as (k & E). rewrite app_nil_r in E. rewrite E. cbn [mbind option_bind].
  rewrite (decode_uint32_at (rev t) ([0] ++ le_bytes 4 0 ++ post) 65538)
    by first [done | lia | rewrite length_rev; lia].
  cbn [mbind option_bind Z.ltb Z.compare Z.add Pos.add Pos.succ].
  pose proof (decode_hexstr_at (rev t ++ le_bytes 4 65538) (le_bytes 4 0 ++ post) []) as D.
  change (ser_hexstr []) with [0] in D. rewrite D by split_at. cbn [mbind option_bind].
  rewrite (decode_uint32_at (rev t ++ le_bytes 4 65538 ++ [0]) post 0) by split_at. cbn [mbind option_bind].
  by do 2 eexists.
Qed.

(** A text too short for the version field: the position -1 is read. *)
Example decode_short_tx : _decode_rawtransaction (replicate 16 0) [48; 49] 0 = None /\
  _decode_uint32 [1; 0; 0; 0; 0] 0 1 = Some (1, -1).
Proof. split; vm_compute; reflexivity. Qed.

(** ** Theorems: scripts *)

Lemma hex_bytes_text k : bytes k -> k <> [] -> hex_bytes (length k) (hex k) = Some k.
Proof.
  intros Hk Hne. unfold hex_bytes.
  destruct (decode_hex_text k (replicate (length k) 0) 0 [] Hk Hne) as (text & E & D); [by rewrite length_replicate|].
  destruct (init_hex_text k (len k) [] eq_refl) as (j & E'). rewrite app_nil_r in E'. rewrite E' in E. injection E as <- _.
  rewrite D. cbn [fmap option_fmap option_map fst]. by rewrite drop_ge, app_nil_r by (rewrite length_replicate; lia).
Qed.

(** the redeem script of an M-of-N account is [OP_M], every player's compressed
    key in order, [OP_N], [OP_CHECKMULTISIG]: decoding the text printed gives
    these bytes back, and the account's script is the hash of exactly this text. *)
Theorem create_MofN_script hash160 base58 addrtype M (keys : list (list Z)) :
  Forall (fun k => bytes k /\ length k = 33%nat) keys -> len keys <= 16 -> 0 <= M <= 16 ->
  exists redeem, create_MofN hash160 base58 addrtype ((fun k => hex k) <$> keys) M (len keys) =
      Some (redeem, p2sh_script (hash160 redeem) ≫= hex_digits, p2sh_address base58 addrtype (hash160 redeem),
            34 * len keys + 3) /\
    hex_bytes (34 * length keys + 3) redeem =
      Some ((0x50 + M) :: (keys ≫= cons 33) ++ [0x50 + len keys; SCRIPT_OP_CHECKMULTISIG]).
Proof.
  intros Hk Hn HM. unfold create_MofN.
  match goal with |- context [for_ ?f 0 _ _] =>
    destruct (for_inv (fun i ks => ks = take (Z.to_nat i) keys ≫= cons 33) f (Z.to_nat (len keys)) 0 [])
      as (ks & E & Hks) end.
  - done.
  - intros i ks Hi ->. destruct (lookup_lt_is_Some_2 keys (Z.to_nat i)) as [k Ek]; [lia|].
    destruct (Forall_lookup_1 _ _ _ _ Hk Ek) as [Bk Lk].
    rewrite (aget_lookup _ i (hex k)) by first [lia | by rewrite list_lookup_fmap, Ek]. cbn [mbind option_bind].
    rewrite <- Lk, hex_bytes_text by first [done | by intros ->]. cbn [mbind option_bind]. eexists. split; [reflexivity|].
    replace (Z.to_nat (i + 1)) with (S (Z.to_nat i)) by lia. rewrite (take_S_r _ _ _ Ek), bind_app.
    cbn [mbind list_bind]. by rewrite app_nil_r.
  - rewrite E. cbn [mbind option_bind]. rewrite Z.add_0_l, !Nat2Z.id, firstn_all in Hks. subst ks.
    set (ks := keys ≫= cons 33).
    assert (length ks = (34 * length keys)%nat) as Lks.
    { unfold ks. clear -Hk. induction Hk as [|k keys [_ Lk] _ IH]; [done|]. cbn [mbind list_bind length app].
      rewrite length_app, IH. lia. }
    assert (bytes ks) as Bks.
    { unfold ks. clear -Hk. induction Hk as [|k keys [Bk _] _ IH]; [constructor|]. cbn [mbind list_bind].
      apply Forall_app. split; [constructor; [unfold is_byte; lia|done]|done]. }
    rewrite !u8_small by lia. set (script := _ :: ks ++ _).
    assert (length script = (34 * length keys + 3)%nat) as Ls by (unfold script; cbn [length]; rewrite length_app; cbn [length]; lia).
    destruct (Z.ltb_spec 4096 (len script)); [lia|]. eexists. split; [do 2 f_equal; lia|].
    rewrite <- Ls. apply hex_bytes_text; [|done].
    constructor; [unfold is_byte; lia|]. apply Forall_app. split; [done|]. repeat constructor; unfold is_byte, SCRIPT_OP_CHECKMULTISIG; lia.
Qed.

Lemma create_MofN_script_witness : exists redeem a b, create_MofN (take 20) (fun _ _ => None) 5 [hex (replicate 33 2)] 1 1 =
  Some (redeem, a, b, 37) /\ hex_bytes 37 redeem = Some (81 :: 33 :: replicate 33 2 ++ [81; 174]).
Proof.
  destruct (create_MofN_script (take 20) (fun _ _ => None) 5 1 [replicate 33 2]) as (redeem & E & D);
    [by repeat constructor; concrete|simpl; lia|lia|]. by do 3 eexists.
Defined.
