(* ===== verification/Deal.v ===== *)
(** * Deal: the messages that make, pass on and open a deck

    Models the dealing handlers of [plugins/games/pangea/pangea777.c]: a new hand
    and its deck, the passage of the deck round the table, the deal before the
    flop, the opening of hole and community cards, the host's timer and the
    dispatch of a received message.  A handler's [data] are the bytes that came
    with the message and [datalen] the length it claims; [None] is an access
    outside an array, a read of bytes that did not come, or a division by zero.
    [now] is [time(NULL)].  The exchange of coin addresses ([pangea_ready]) and
    the debug output are not modelled. *)

From S2P Require Import Prelude GF256 Interp GFShare Cards Bits Table Summary Pots Funds Poker Keys Utils.

Definition PANGEA_HANDGAP : Z := 30.

(** The bytes [data] as an array of [n] values of type [bits256]. *)
Fixpoint bits256s (n : nat) (data : list Z) : option (list bits256) :=
  match n with
  | O => Some []
  | S n => x ← take_exact 32 data; l ← bits256s n (drop 32 data); Some (x :: l)
  end.

(** [memcpy] of whole values to the start of an array. *)
Definition overwrite (dst src : list bits256) : option (list bits256) :=
  if (length src <=? length dst)%nat then Some (src ++ drop (length src) dst) else None.

Definition n_priv_upd (f : cards777_privdata -> cards777_privdata) (n : node) : node :=
  n <| n_priv := f (n_priv n) |>.

Section Deal.
Context {FO : FieldOps} {CO : @CurveOps FO}.

(** ** A new hand *)

(** The public keys and the accounts of the players, by position. *)
Definition players_pubs (sp : pangea_info) (N : Z) : option (list bits256 * list Z) :=
  for_ (fun i '(pubs, act) =>
      slot ← pangea_slot sp i;
      p ← aget (s_playerpubs sp) slot;
      a ← aget (s_active sp) i;
      Some (pubs ++ [p], act ++ [a])) 0 (Z.to_nat N) ([], []).

(** The accounts without chips; the source collects and then ignores them. *)
Definition removelist (sp : pangea_info) (N : Z) : option (list Z) :=
  for_ (fun i l =>
      slot ← pangea_slot sp i;
      b ← aget (s_balances sp) slot;
      if b <=? 0 then a ← aget (s_addrs sp) slot; Some (l ++ [a]) else Some l) 0 (Z.to_nat N) [].

Definition clear_node (n : node) : option node :=
  '(hand, priv) ← pangea_clearhand (n_dp n) (n_hand n) (n_priv n);
  Some (n_priv_upd (fun _ => priv) (on_hand (fun _ => hand) n)).

Definition neworder_node (n : node) (active : option (list Z)) (m : Z) : option node :=
  '(dp, sp, _) ← pangea_neworder (n_dp n) (n_sp n) active m;
  Some (n <| n_dp := dp |> <| n_sp := sp |>).

(** [pangea_newdeck] with the message it leaves to [pangea_sendnewdeck]. *)
Definition pangea_newdeck (now : Z) (rands : list bits256) (n : node) : option node :=
  n ← clear_node n;
  _ ← removelist (n_sp n) (d_N (n_dp n));
  n ← neworder_node n None 0;
  let dp := n_dp n in
  '(pubs, act) ← players_pubs (n_sp n) (d_N dp);
  '(outcards, cardpubs, prod) ← cards777_initdeck rands (p_outcards (n_priv n)) (h_cardpubs (n_hand n))
     (d_numcards dp) (d_N dp) pubs;
  cardpubs ← aset cardpubs (d_numcards dp) prod;
  data ← take_exact (Z.to_nat (d_numcards dp + 1)) cardpubs;
  let n := on_hand (fun h => h <| h_checkprod := prod |> <| h_cardpubs := cardpubs |>
             <| h_startdecktime := u32 now |>) (n_priv_upd (fun p => p <| p_outcards := outcards |>) n) in
  Some (n <| n_dp := n_dp n <| d_newhand := "newhand" |> |>
          <| n_out := mk_message "newhand" (-1) (concat data) 0 0 act :: n_out n |>).

(** The result is the number of seats with chips. *)
Definition pangea_anotherhand (now : Z) (rands : list bits256) (n : node) : option (node * Z) :=
  let sp := n_sp n in
  '(k, activej) ← for_ (fun i '(k, activej) =>
      b ← aget (s_balances sp) i;
      Some (if b =? 0 then (k, activej) else (k + 1, if activej <? 0 then i else activej)))
    0 (Z.to_nat (s_numaddrs sp)) (0, -1);
  if k =? 1 then
    slot ← pangea_slot sp activej;
    _ ← aget (s_balances sp) slot;
    Some (n, 1)
  else n ← pangea_newdeck now rands n; Some (n, k).

(** [active] is the list in the message, if any, read into an array of nine. *)
Definition pangea_newhand (n : node) (active : option (list Z)) (data : list Z) (datalen : Z)
  : option (node * Z) :=
  let numcards := d_numcards (n_dp n) in
  if negb (datalen =? (numcards + 1) * 32) then Some (n, -1)
  else
    n ← (if negb (n_slot n =? 0) then
           n ← clear_node n;
           match active with
           | Some a => if (9 <? length a)%nat then None
                       else neworder_node n (Some a) (Z.of_nat (length a))
           | None => neworder_node n None 0
           end
         else Some n);
    let N := d_N (n_dp n) in
    if N =? 0 then None
    else
      let handid := d_numhands (n_dp n) in
      pubs ← bits256s (Z.to_nat (numcards + 1)) data;
      cardpubs ← overwrite (h_cardpubs (n_hand n)) pubs;
      prod ← cards777_pubkeys cardpubs numcards;
      let n := on_hand (fun h => h <| h_cardpubs := cardpubs |> <| h_checkprod := prod |>) n in
      let n := n <| n_dp := n_dp n <| d_button := handid mod N |> <| d_numhands := u32 (handid + 1) |>
                 <| d_summary := [] |> <| d_summaries := 0 |> <| d_mismatches := 0 |> |> in
      n ← (if 0 <=? s_myind (n_sp n) then
             n ← n_summary n CARDS777_START (le_bytes 4 handid) (concat pubs);
             n_send n "gotdeck" (take 8 prod) (h_cardi (n_hand n)) (h_userinput_starttime (n_hand n))
           else Some n);
      Some (n, 0).

(** Everyone has reported the host's check product. *)
Fixpoint all_gotdeck (others : list Z) (x i : Z) (k : nat) : option bool :=
  match k with
  | O => Some true
  | S k => o ← aget others i; if o =? x then all_gotdeck others x (i + 1) k else Some false
  end.

(** The message is printed into [newhand], the buffer of the previous one. *)
Definition pangea_checkstart (now : Z) (n : node) : option node :=
  let h := n_hand n in
  let dp := n_dp n in
  if negb (txid (h_checkprod h) =? 0) && negb (String.eqb (d_newhand dp) "") && (h_encodestarted h =? 0) then
    all ← all_gotdeck (h_othercardpubs h) (txid (h_checkprod h)) 0 (Z.to_nat (d_N dp));
    if (all : bool) then
      let n := on_hand (fun h => h <| h_encodestarted := u32 now |>) n in
      let count := d_N dp * d_numcards dp in
      dest ← pangea_slotB (n_sp n);
      data ← take_exact (Z.to_nat count) (p_outcards (n_priv n));
      n ← pangea_sendcmd n "encoded" dest (concat data) count (-1);
      Some (n <| n_dp := n_dp n <| d_newhand := "encoded" |> |>)
    else Some n
  else Some n.

Definition set_othercardpub (n : node) (data : list Z) (senderind : Z) : option node :=
  x ← take_exact 8 data;
  others ← aset (h_othercardpubs (n_hand n)) senderind (le_int x);
  Some (on_hand (fun h => h <| h_othercardpubs := others |>) n).

Definition pangea_gotdeck (now : Z) (n : node) (data : list Z) (senderind : Z) : option node :=
  n ← set_othercardpub n data senderind; pangea_checkstart now n.

Definition pangea_ping (n : node) (data : list Z) (senderind : Z) : option node :=
  set_othercardpub n data senderind.

(** ** Passing the deck on *)

(** The audit of a card; the array of the source has room for nine players. *)
Definition read_audit (n : node) (cardi dest : Z) : option (list bits256) :=
  fst <$> pangea_rwaudit false (replicate 9 zero256) (p_audits (n_priv n)) cardi dest (d_N (n_dp n)).

Definition write_audit (n : node) (audit : list bits256) (cardi dest : Z) : option node :=
  '(_, audits) ← pangea_rwaudit true audit (p_audits (n_priv n)) cardi dest (d_N (n_dp n));
  Some (n_priv_upd (fun p => p <| p_audits := audits |>) n).

(** [audit[0] = cards777_decode(&audit[sp->myind], ...)]: this player's layer off. *)
Definition decode_audit (n : node) (audit : list bits256) (dest : Z) : option (list bits256) :=
  let dp := n_dp n in
  c ← aget audit 0;
  '(seed, c) ← cards777_decode (p_xoverz (n_priv n)) dest c (p_outcards (n_priv n)) (d_numcards dp) (d_N dp);
  audit ← aset audit (s_myind (n_sp n)) seed;
  aset audit 0 c.

Definition decode_card (n : node) (cardi dest : Z) : option (node * list bits256) :=
  audit ← read_audit n cardi dest;
  audit ← decode_audit n audit dest;
  n ← write_audit n audit cardi dest;
  Some (n, audit).

(** Opening a card with the player's own key: its key and number, or -1.  The
    result of the validation is only reported. *)
Definition check_audit (privkey : bits256) (n : node) (audit : list bits256) : option (bits256 * Z) :=
  c ← aget audit 0;
  _ ← pangea_ind (n_sp n) (n_slot n);
  cards777_checkcard privkey (h_cardpubs (n_hand n)) (d_numcards (n_dp n)) c.

Definition validate_audit (n : node) (cardpriv : bits256) (audit : list bits256) (cardi dest : Z) : option Z :=
  let N := d_N (n_dp n) in
  f ← aget (h_final (n_hand n)) (cardi * N + dest);
  pub ← aget (s_playerpubs (n_sp n)) (n_slot n);
  cards777_validate cardpriv f audit N pub.

(** A hole card that opened goes to the hand. *)
Definition keep_card (n : node) (ind cardi : Z) (cardpriv : bits256) : option node :=
  let selector := Z.quot cardi (d_N (n_dp n)) in
  let p := n_priv n in
  holecards ← aset (p_holecards p) selector cardpriv;
  cardis ← aset (p_cardis p) selector (u8 cardi);
  b ← aget cardpriv 1;
  hole ← aset (p_hole p) selector b;
  row ← aget (h_hands (n_hand n)) ind;
  row ← aset row (5 + selector) b;
  hands ← aset (h_hands (n_hand n)) ind row;
  Some (n_priv_upd (fun p => p <| p_holecards := holecards |> <| p_cardis := cardis |> <| p_hole := hole |>)
          (on_hand (fun h => h <| h_hands := hands |>) n)).

(** [dest] is the field of the message being handled. *)
Definition pangea_card (privkey : bits256) (n : node) (dest : Z) (data : list Z) (datalen cardi : Z)
  : option (node * Z) :=
  let N := d_N (n_dp n) in
  if negb (datalen =? 32 * N) then Some (n, -1)
  else if N =? 0 then None
  else
    audit ← bits256s (Z.to_nat N) data;
    n ← write_audit n audit cardi dest;
    audit ← read_audit n cardi dest;
    '(cardpriv, card) ← check_audit privkey n audit;
    '(n, validcard) ←
      (if 0 <=? card then
         ind ← pangea_ind (n_sp n) (n_slot n);
         n ← keep_card n ind cardi cardpriv;
         _ ← validate_audit n cardpriv audit cardi ind;
         Some (n, 1)
       else Some (n, -1));
    n ← (if cardi <? N * 2 then n_send n "facedown" (le_bytes 4 cardi) cardi validcard
         else n_send n "faceup" cardpriv cardi 0xff);
    Some (n, 0).

(** A community card on its way back through the players' layers. *)
Definition pangea_decoded (privkey : bits256) (n : node) (cardi turni : Z) (data : list Z) (datalen : Z)
  : option (node * Z) :=
  let N := d_N (n_dp n) in
  if negb (datalen =? 32 * N) then Some (n, -1)
  else if (cardi <? N * 2) || (N * 2 + 5 <=? cardi) then Some (n, -1)
  else if N =? 0 then None
  else
    dest ← pangea_ind (n_sp n) 0;
    audit ← bits256s (Z.to_nat N) data;
    n ← write_audit n audit cardi dest;
    audit ← read_audit n cardi dest;
    ind ← pangea_ind (n_sp n) (n_slot n);
    if negb (turni =? ind) then Some (n, 0)
    else if negb (n_slot n =? pangea_slotA (n_sp n)) then
      audit ← decode_audit n audit dest;
      n ← write_audit n audit cardi dest;
      out ← take_exact (Z.to_nat N) audit;
      n ← n_send n "decoded" (concat out) cardi (pangea_prevnode (n_sp n));
      Some (n, 0)
    else
      '(cardpriv, card) ← check_audit privkey n audit;
      n ← (if 0 <=? card then
             _ ← validate_audit n cardpriv audit cardi dest;
             n_send n "faceup" cardpriv cardi (if txid cardpriv =? 0 then -1 else 0xff)
           else Some n);
      Some (n, 0).

(** Bytes as text, a run of up to sixteen zeros as [Z] and a letter.  The memory
    goes on behind the [datalen] bytes: a run is counted into it. *)
Fixpoint zero_run (mem : list Z) (i j : Z) (k : nat) : option Z :=
  match k with
  | O => Some j
  | S k => b ← aget mem (i + j); if negb (b =? 0) then Some j else zero_run mem i (j + 1) k
  end.

Fixpoint zbuf_from (mem : list Z) (i datalen : Z) (fuel : nat) : option (list Z) :=
  match fuel with
  | O => Some []
  | S fuel =>
      if datalen <=? i then Some []
      else
        b ← aget mem i;
        if negb (b =? 0) then s ← zbuf_from mem (i + 1) datalen fuel; Some (hex_digits b ++ s)
        else j ← zero_run mem i 1 15; s ← zbuf_from mem (i + j) datalen fuel; Some (90 :: (65 + j) :: s)
  end.

Definition pangea_zbuf (mem : list Z) (datalen : Z) : option (list Z) :=
  zbuf_from mem 0 datalen (Z.to_nat datalen).

Fixpoint unzbuf_from (hexstr : list Z) (i len : Z) (fuel : nat) : option (list Z) :=
  match fuel with
  | O => Some []
  | S fuel =>
      if len <=? i then Some []
      else
        c ← aget hexstr i;
        if c =? 90 then
          k ← aget hexstr (i + 1);
          s ← unzbuf_from hexstr (i + 2) len fuel; Some (replicate (Z.to_nat (k - 65)) 0 ++ s)
        else b ← _decode_hex hexstr i; s ← unzbuf_from hexstr (i + 2) len fuel; Some (b :: s)
  end.

(** The bytes written to [buf]. *)
Definition pangea_unzbuf (hexstr : list Z) (len : Z) : option (list Z) :=
  unzbuf_from hexstr 0 len (Z.to_nat len).

(** [audits] and the arrays that follow it in [priv->data]. *)
Definition audit_memory (p : cards777_privdata) : list Z :=
  concat (p_audits p) ++ concat (p_outcards p) ++ concat (p_xoverz p) ++ p_allshares p.

(** [for (iter=cardi=0; iter<2; iter++) for (i=0; i<N; i++,cardi++)]. *)
Definition for_holes (f : Z -> Z -> node -> option node) (N : Z) (n : node) : option node :=
  for_ (fun iter n => for_ (fun i n => f (iter * N + i) i n) 0 (Z.to_nat N) n) 0 2 n.

(** A player other than the host and the dealer takes his layer off every hole
    card and passes the audits back; [jdest] is the handled message's field. *)
Definition pangea_preflop (privkey : bits256) (n : node) (jdest : Z) (data : list Z) (datalen : Z)
  : option (node * Z) :=
  let N := d_N (n_dp n) in
  if negb (datalen =? 2 * N * (N * N * 32)) then Some (n, -1)
  else
    l ← bits256s (Z.to_nat (2 * N * (N * N))) data;
    audits ← overwrite (p_audits (n_priv n)) l;
    let n := n_priv_upd (fun p => p <| p_audits := audits |>) n in
    slotB ← pangea_slotB (n_sp n);
    if negb (n_slot n =? pangea_slotA (n_sp n)) && negb (n_slot n =? slotB) then
      n ← for_ (fun cardi n => for_ (fun dest n => fst <$> decode_card n cardi dest) 0 (Z.to_nat N) n)
            0 (Z.to_nat (N * 2)) n;
      z ← pangea_zbuf (audit_memory (n_priv n)) datalen;
      n ← pangea_sendcmd n "preflop" (pangea_prevnode (n_sp n)) z (N * 2 * N) (-1);
      Some (n, 0)
    else
      n ← for_holes (fun cardi i n =>
            let dest := u32 (d_button (n_dp n) + i) mod N in
            '(n, audit) ← decode_card n cardi dest;
            out ← take_exact (Z.to_nat N) audit;
            ind ← pangea_ind (n_sp n) (n_slot n);
            if dest =? ind then fst <$> pangea_card privkey n jdest (concat out) (32 * N) cardi
            else pangea_sendcmd n "card" dest (concat out) cardi (-1)) N n;
      Some (n, 0).

(** The player's own layer; the last player's deck is the final one. *)
Definition pangea_encoded (privkey : bits256) (e : entropy) (n : node) (jdest : Z) (data : list Z) (datalen : Z)
  : option (node * Z) :=
  let dp := n_dp n in
  let N := d_N dp in
  let count := d_numcards dp * N in
  if negb (datalen =? count * 32) then Some (n, -1)
  else
    ciphers ← bits256s (Z.to_nat count) data;
    ind ← pangea_ind (n_sp n) (n_slot n);
    _ ← aget (h_sharenrs (n_hand n)) ind;
    let p := n_priv n in
    '(l, nrs, _) ← cards777_encode e (mk_layer (p_outcards p) (p_xoverz p) (p_allshares p) (p_myshares p))
       (d_M dp) ciphers (d_numcards dp) N;
    sharenrs ← aset (h_sharenrs (n_hand n)) ind nrs;
    let n := on_hand (fun h => h <| h_sharenrs := sharenrs |>)
       (n_priv_upd (fun p => p <| p_outcards := l_outcards l |> <| p_xoverz := l_xoverz l |>
          <| p_allshares := l_allshares l |> <| p_myshares := l_myshares l |>) n) in
    out ← take_exact (Z.to_nat count) (l_outcards l);
    if negb (0 <? ind) then Some (n, 0)
    else if ind <? s_numactive (n_sp n) - 1 then
      n ← pangea_sendcmd n "encoded" (pangea_nextnode (n_sp n)) (concat out) (N * d_numcards dp) (-1);
      Some (n, 0)
    else
      final ← overwrite (h_final (n_hand n)) out;
      let n := on_hand (fun h => h <| h_final := final |>) n in
      n ← n_send n "final" (concat out) (N * d_numcards dp) (-1);
      n ← for_holes (fun cardi _ n =>
            for_ (fun dest n =>
                audit ← read_audit n cardi dest;
                f ← aget (h_final (n_hand n)) (cardi * N + dest);
                audit ← aset audit 0 f;
                write_audit n audit cardi dest) 0 (Z.to_nat N) n) N n;
      audits ← take_exact (Z.to_nat (2 * N * (N * N))) (p_audits (n_priv n));
      n ← fst <$> pangea_preflop privkey n jdest (concat audits) (2 * N * (N * N * 32));
      Some (n, 0).

Definition pangea_final (n : node) (data : list Z) (datalen : Z) : option (node * Z) :=
  let count := d_numcards (n_dp n) * d_N (n_dp n) in
  if negb (datalen =? count * 32) then Some (n, -1)
  else
    l ← bits256s (Z.to_nat count) data;
    final ← overwrite (h_final (n_hand n)) l;
    Some (on_hand (fun h => h <| h_final := final |>) n, 0).

(** ** Hole and community cards *)

(** Players whose mask counts two hole cards. *)
Definition dealt_count (h : cards777_handinfo) (N : Z) : option Z :=
  for_ (fun i k => m ← aget (h_havemasks h) i; Some (if bitweight m =? 2 then k + 1 else k))
    0 (Z.to_nat N) 0.

Definition pangea_facedown (n : node) (validcard : Z) (data : list Z) (datalen cardi senderind : Z)
  : option (node * Z) :=
  if negb (datalen =? 4) then Some (n, -1)
  else
    masks ← (if 0 <? validcard then
               if (cardi <? 0) || (64 <=? cardi) then None
               else m ← aget (h_havemasks (n_hand n)) senderind;
                    aset (h_havemasks (n_hand n)) senderind (s64 (Z.lor (u64 m) (Z.shiftl 1 cardi)))
             else Some (h_havemasks (n_hand n)));
    let n := on_hand (fun h => h <| h_havemasks := masks |>) n in
    k ← dealt_count (n_hand n) (d_N (n_dp n));
    n ← (if (n_slot n =? pangea_slotA (n_sp n)) && (k =? d_N (n_dp n))
         then pangea_startbets n (d_N (n_dp n) * 2) else Some n);
    Some (n, 0).

(** The known cards of a player's hand of seven, up to the first unknown one;
    the result tells if all are known. *)
Fixpoint fill_hand (community row : list Z) (i : Z) (k : nat) : option (list Z * bool) :=
  match k with
  | O => Some (row, true)
  | S k =>
      row ← (if i <? 5 then c ← aget community i; aset row i c else Some row);
      b ← aget row i;
      if b =? 255 then Some (row, false) else fill_hand community row (i + 1) k
  end.

(** The rank of a player's hand, computed once. *)
Definition pangea_rank (h : cards777_handinfo) (senderind : Z) : option (cards777_handinfo * Z) :=
  r ← aget (h_handranks h) senderind;
  if negb (r =? 0) then Some (h, r)
  else
    row ← aget (h_hands h) senderind;
    '(row, all) ← fill_hand (h_community h) row 0 7;
    hands ← aset (h_hands h) senderind row;
    let h := h <| h_hands := hands |> in
    if (all : bool) then
      score ← set_handstr row;
      ranks ← aset (h_handranks h) senderind score;
      Some (h <| h_handranks := ranks |> <| h_handmask := u32 (Z.lor (h_handmask h) (Z.shiftl 1 senderind)) |>, score)
    else Some (h, 0).

Definition rank_node (n : node) (senderind : Z) : option node :=
  '(h, _) ← pangea_rank (n_hand n) senderind; Some (on_hand (fun _ => h) n).

(** A community card: every player's hand gets it. *)
Definition set_community (h : cards777_handinfo) (N k : Z) (card : bits256) (b : Z) : option cards777_handinfo :=
  community ← aset (h_community h) k b;
  hands ← for_ (fun i hands => row ← aget hands i; row ← aset row k b; aset hands i row)
            0 (Z.to_nat N) (h_hands h);
  c256 ← aset (h_community256 h) k card;
  Some (h <| h_community := community |> <| h_hands := hands |> <| h_community256 := c256 |>).

Definition pangea_faceup (n : node) (cardi turni : Z) (data : list Z) (datalen senderind : Z)
  : option (node * Z) :=
  if negb (datalen =? 32) then Some (n, -1)
  else if turni <? 0 then Some (n, 0)
  else
    card ← take_exact 32 data;
    b ← aget card 1;
    n ← n_summary n CARDS777_FACEUP (le_bytes 2 (Z.lor (u16 (Z.shiftl cardi 8)) (Z.land turni 0xff))) card;
    let N := d_N (n_dp n) in
    n ← (if (N * 2 <=? cardi) && (cardi <? N * 2 + 5) then
           h ← set_community (n_hand n) N (cardi - N * 2) card b;
           let n := on_hand (fun _ => h) n in
           ind ← pangea_ind (n_sp n) (n_slot n);
           n ← (if senderind =? ind then rank_node n senderind else Some n);
           if (n_slot n =? pangea_slotA (n_sp n)) && (N * 2 + 2 <=? cardi)
           then pangea_startbets n (cardi + 1) else Some n
         else if cardi <? N * 2 then
           if N =? 0 then None
           else
             let k := Z.quot cardi N in
             crow ← aget (h_cards (n_hand n)) senderind;
             crow ← aset crow k card;
             cards ← aset (h_cards (n_hand n)) senderind crow;
             row ← aget (h_hands (n_hand n)) senderind;
             row ← aset row (5 + k) b;
             hands ← aset (h_hands (n_hand n)) senderind row;
             rank_node (on_hand (fun h => h <| h_cards := cards |> <| h_hands := hands |>) n) senderind
         else Some n);
    Some (n, 0).

(** ** The host's timer *)

(** The first position whose chips are outside the buy-in limits, or [N]. *)
Fixpoint buyins_ok (sp : pangea_info) (lo hi i : Z) (k : nat) : option bool :=
  match k with
  | O => Some true
  | S k =>
      slot ← pangea_slot sp i;
      b ← aget (s_balances sp) slot;
      if (u64 b <? lo) || (hi <? u64 b) then Some false else buyins_ok sp lo hi (i + 1) k
  end.

(** The report printed once a minute is left out. *)
Definition pangea_serverstate (now : Z) (rands rands' : list bits256) (n : node) : option node :=
  let fin := h_finished (n_hand n) in
  n ← (if negb (fin =? 0) && (u32 (fin + PANGEA_HANDGAP) <? now)
       then fst <$> pangea_anotherhand now rands n else Some n);
  let dp := n_dp n in
  if (h_betstarted (n_hand n) =? 0) && String.eqb (d_newhand dp) "" then
    k ← dealt_count (n_hand n) (d_N dp);
    if k <? d_N dp then
      ok ← buyins_ok (n_sp n) (u64 (d_minbuyin dp * d_bigblind dp)) (u64 (d_maxbuyin dp * d_bigblind dp))
             0 (Z.to_nat (d_N dp));
      if (ok : bool) && (d_numhands dp <? 2) && (u32 (h_startdecktime (n_hand n) + 60) <? now)
      then pangea_newdeck now rands' n else Some n
    else Some n
  else pangea_checkstart now n.
End Deal.

(** ** Theorems: the text of the audits *)

Lemma zero_run_spec mem i k : forall j, 0 <= i -> 1 <= j -> i + j + Z.of_nat k <= Z.of_nat (length mem) ->
  exists r, zero_run mem i j k = Some r /\ j <= r <= j + Z.of_nat k /\
    (forall t, j <= t < r -> mem !! Z.to_nat (i + t) = Some 0) /\
    (r < j + Z.of_nat k -> exists b, mem !! Z.to_nat (i + r) = Some b /\ b <> 0).
Proof.
  induction k as [|k IH]; intros j Hi Hj Hl; cbn [zero_run].
  - exists j. split; [done|]. split; [lia|]. split; intros; lia.
  - destruct (aget_is_Some mem (i + j)) as (b & Hb & ->); [lia|]. cbn [mbind option_bind].
    destruct (Z.eqb_spec b 0) as [->|Hne]; cbn [negb].
    + destruct (IH (j + 1)) as (r & -> & Hr & Hz & Hend); [lia..|]. exists r. split; [done|]. split; [lia|].
      split; [|intros; apply Hend; lia].
      intros t Ht. destruct (decide (t = j)) as [->|]; [done|]. apply Hz. lia.
    + exists j. split; [done|]. split; [lia|]. split; [intros; lia|]. intros _. by exists b.
Qed.

Lemma hex_digit_not_Z b : is_byte b -> hexbyte (Z.land (Z.shiftr b 4) 0xf) <> 90.
Proof.
  intros _. unfold hexbyte. change 0xf with (Z.ones 4). rewrite !Z.land_ones by lia.
  pose proof (Z.mod_pos_bound (Z.shiftr b 4 mod 2 ^ 4) (2 ^ 4)). case_cmp; lia.
Qed.

(** Reading back from the middle of a text that has an even number of characters. *)
Lemma unzbuf_skip pre s fuel : forall i len, 0 <= i ->
  unzbuf_from (pre ++ s) (Z.of_nat (length pre) + i) (Z.of_nat (length pre) + len) fuel = unzbuf_from s i len fuel.
Proof.
  assert (forall j, 0 <= j -> aget (pre ++ s) (Z.of_nat (length pre) + j) = aget s j) as Ha.
  { intros j Hj. unfold aget. destruct (Z.ltb_spec (Z.of_nat (length pre) + j) 0), (Z.ltb_spec j 0); try lia.
    rewrite lookup_app_r by lia. f_equal. lia. }
  induction fuel as [|fuel IH]; intros i len Hi; cbn [unzbuf_from]; [done|].
  replace (Z.of_nat (length pre) + len <=? Z.of_nat (length pre) + i) with (len <=? i) by (case_cmp; symmetry; case_cmp; lia).
  destruct (len <=? i); [done|]. unfold _decode_hex. rewrite <- !Z.add_assoc, !Ha by lia.
  destruct (aget s i) as [c|]; [|done]. cbn [mbind option_bind].
  destruct (aget s (i + 1)) as [k|]; cbn [mbind option_bind]; destruct (c =? 90); try done;
    rewrite IH by lia; done.
Qed.

(** The part of the memory from [i] up to [e]. *)
Definition segment (mem : list Z) (i e : Z) : list Z := take (Z.to_nat (e - i)) (drop (Z.to_nat i) mem).

Lemma segment_cons mem i e b : 0 <= i < e -> mem !! Z.to_nat i = Some b ->
  segment mem i e = b :: segment mem (i + 1) e.
Proof.
  intros Hi Hb. unfold segment. rewrite (drop_S _ _ _ Hb).
  replace (Z.to_nat (e - i)) with (S (Z.to_nat (e - (i + 1)))) by lia.
  cbn [take]. do 3 f_equal. lia.
Qed.

Lemma segment_zeros mem e j : forall i, 0 <= i -> i + Z.of_nat j <= e ->
  (forall t, i <= t < i + Z.of_nat j -> mem !! Z.to_nat t = Some 0) ->
  segment mem i e = replicate j 0 ++ segment mem (i + Z.of_nat j) e.
Proof.
  induction j as [|j IH]; intros i Hi He Hz.
  - by rewrite Z.add_0_r.
  - rewrite (segment_cons _ _ _ 0) by (lia || (apply Hz; lia)). cbn [replicate app]. f_equal.
    rewrite IH; [|lia|lia|intros; apply Hz; lia]. do 2 f_equal. lia.
Qed.

Lemma zbuf_unzbuf mem datalen fuel : bytes mem -> datalen + 15 <= Z.of_nat (length mem) -> forall i,
  0 <= i -> datalen - i <= Z.of_nat fuel ->
  exists s e, zbuf_from mem i datalen fuel = Some s /\ Z.max i datalen <= e <= Z.max i (datalen + 15) /\
    (datalen <= i -> e = i) /\
    (i < datalen -> datalen < e -> forall t, datalen - 1 <= t < e -> mem !! Z.to_nat t = Some 0) /\
    forall fuel', (length s <= fuel')%nat ->
      unzbuf_from s 0 (Z.of_nat (length s)) fuel' = Some (segment mem i e).
Proof.
  intros Bm Hl. induction fuel as [|fuel IH]; intros i Hi Hf; cbn [zbuf_from].
  { exists [], i. split; [done|]. split; [lia|]. split; [done|]. split; [lia|]. intros f _. unfold segment.
    rewrite Z.sub_diag. by destruct f. }
  destruct (Z.leb_spec datalen i).
  { exists [], i. split; [done|]. split; [lia|]. split; [done|]. split; [lia|]. intros f _. unfold segment.
    rewrite Z.sub_diag. by destruct f. }
  destruct (aget_is_Some mem i) as (b & Hb & ->); [lia|]. cbn [mbind option_bind].
  assert (is_byte b) as Bb by apply (Forall_lookup_1 _ _ _ _ Bm Hb).
  destruct (Z.eqb_spec b 0) as [->|Hnz]; cbn [negb].
  - destruct (zero_run_spec mem i 15 1) as (j & -> & Hj & Hz & _); [lia..|].
    cbn [mbind option_bind].
    destruct (IH (i + j)) as (s & e & -> & He & Hend & Hov & Hs); [lia..|]. cbn [mbind option_bind].
    assert (forall t, i <= t < i + j -> mem !! Z.to_nat t = Some 0) as Hzz.
    { intros t Ht. destruct (decide (t = i)) as [->|]; [done|].
      replace t with (i + (t - i)) by lia. apply Hz. lia. }
    exists (90 :: 65 + j :: s), e. split; [done|].
    split; [destruct (Z.lt_ge_cases (i + j) datalen); lia|]. split; [lia|]. split.
    { intros _ Hlt t Ht. destruct (Z.lt_ge_cases (i + j) datalen); [by apply Hov|apply Hzz; lia]. }
    intros f Hfl. destruct f as [|f]; [simpl in Hfl; lia|]. cbn [unzbuf_from length].
    change (aget (90 :: 65 + j :: s) 0) with (Some 90). change (aget (90 :: 65 + j :: s) (0 + 1)) with (Some (65 + j)).
    destruct (Z.leb_spec (Z.of_nat (S (S (length s)))) 0); [lia|]. cbn [mbind option_bind Z.eqb Pos.eqb].
    pose proof (unzbuf_skip [90; 65 + j] s f 0 (Z.of_nat (length s)) ltac:(lia)) as Hk.
    change ([90; 65 + j] ++ s) with (90 :: 65 + j :: s) in Hk. change (Z.of_nat (length [90; 65 + j])) with 2 in Hk.
    replace (Z.of_nat (S (S (length s)))) with (2 + Z.of_nat (length s)) by lia.
    change (0 + 2) with (2 + 0). rewrite Hk, Hs by (simpl in Hfl; lia). cbn [mbind option_bind].
    f_equal. replace (65 + j - 65) with j by lia. rewrite (segment_zeros mem e (Z.to_nat j) i) by (lia || (intros; apply Hzz; lia)).
    by rewrite Z2Nat.id by lia.
  - destruct (IH (i + 1)) as (s & e & -> & He & Hend & Hov & Hs); [lia..|]. cbn [mbind option_bind].
    exists (hex_digits b ++ s), e. split; [done|]. split; [lia|]. split; [lia|]. split.
    { intros _ Hlt t Ht. destruct (Z.lt_ge_cases (i + 1) datalen); [by apply Hov|lia]. }
    intros f Hfl. rewrite length_app in *. destruct f as [|f]; [simpl in Hfl; lia|].
    pose proof (unzbuf_skip (hex_digits b) s f 0 (Z.of_nat (length s)) ltac:(lia)) as Hk.
    change (Z.of_nat (length (hex_digits b))) with 2 in Hk. cbn [length hex_digits Nat.add] in Hfl.
    change (length (hex_digits b)) with 2%nat.
    replace (Z.of_nat (2 + length s)) with (2 + Z.of_nat (length s)) by lia.
    cbn [unzbuf_from]. destruct (Z.leb_spec (2 + Z.of_nat (length s)) 0); [lia|].
    change (aget (hex_digits b ++ s) 0) with (Some (hexbyte (Z.land (Z.shiftr b 4) 0xf))).
    cbn [mbind option_bind]. rewrite (proj2 (Z.eqb_neq _ _) (hex_digit_not_Z b Bb)). unfold _decode_hex.
    change (aget (hex_digits b ++ s) 0) with (Some (hexbyte (Z.land (Z.shiftr b 4) 0xf))).
    change (aget (hex_digits b ++ s) (0 + 1)) with (Some (hexbyte (Z.land b 0xf))).
    cbn [mbind option_bind]. destruct (hex_byte_ok b Bb) as (-> & _).
    change (0 + 2) with (2 + 0). rewrite Hk, Hs by lia. cbn [mbind option_bind].
    by rewrite (segment_cons mem i e b) by (done || lia).
Qed.

(** C35: the text of the audits is read back: what [pangea_unzbuf] recovers from
    [pangea_zbuf]'s text is the memory encoded, from its start to an end [e] that
    is [datalen] unless the data end in a zero; then the zeros behind them, up to
    fifteen, are counted into the last run and [e] is too large. *)
Theorem zbuf_roundtrip mem datalen : bytes mem -> 0 < datalen -> datalen + 15 <= Z.of_nat (length mem) ->
  exists s e, pangea_zbuf mem datalen = Some s /\
    pangea_unzbuf s (Z.of_nat (length s)) = Some (take (Z.to_nat e) mem) /\
    datalen <= e <= datalen + 15 /\
    (mem !! Z.to_nat (datalen - 1) <> Some 0 -> e = datalen) /\
    (mem !! Z.to_nat datalen <> Some 0 -> e = datalen).
Proof.
  intros Bm Hd Hl. unfold pangea_zbuf, pangea_unzbuf.
  destruct (zbuf_unzbuf mem datalen (Z.to_nat datalen) Bm Hl 0) as (s & e & -> & He & _ & Hov & Hs); [lia..|].
  exists s, e. split; [done|]. rewrite Hs by lia. split.
  { unfold segment. by rewrite drop_0, Z.sub_0_r. }
  split; [lia|]. split; intros Hn; (destruct (Z.eq_dec e datalen); [done|]); destruct Hn; apply Hov; lia.
Qed.

(** With a zero at the end and zeros behind it, two bytes come back as five. *)
Lemma zbuf_roundtrip_witness : exists s e, pangea_zbuf ([7; 0; 0; 0; 0; 9] ++ replicate 15 1) 2 = Some s /\
  pangea_unzbuf s (Z.of_nat (length s)) = Some (take (Z.to_nat e) ([7; 0; 0; 0; 0; 9] ++ replicate 15 1)).
Proof.
  destruct (zbuf_roundtrip ([7; 0; 0; 0; 0; 9] ++ replicate 15 1) 2) as (s & e & H1 & H2 & _);
    [concrete|lia|concrete|]. by exists s, e.
Defined.

Example zbuf_overrun : pangea_zbuf [7; 0; 0; 0; 0; 9] 2 = Some [48; 55; 90; 69] /\
  pangea_unzbuf [48; 55; 90; 69] 4 = Some [7; 0; 0; 0; 0].
Proof. split; vm_compute; reflexivity. Qed.

(** ** Theorems: a card on its way back *)

Section Back.
Context {FO : FieldOps} {CO : @CurveOps FO}.

(** The players take their layers off the audit, the last one first. *)
Definition decode_round (ns : list node) (audit : list bits256) (dest : Z) : option (list bits256) :=
  foldr (fun n acc => audit ← acc; decode_audit n audit dest) (Some audit) ns.

(** A node that holds a layer and sits at position [k]. *)
Record holds (numcards N k : Z) (n : node) (l : layer) : Prop := mk_holds {
  ho_out : p_outcards (n_priv n) = l_outcards l;
  ho_xoverz : p_xoverz (n_priv n) = l_xoverz l;
  ho_N : d_N (n_dp n) = N;
  ho_numcards : d_numcards (n_dp n) = numcards;
  ho_myind : s_myind (n_sp n) = k;
}.

(** The nodes sit at the positions from [k] on. *)
Inductive seated (numcards N : Z) : Z -> list node -> list layer -> Prop :=
  | seated_nil k : seated numcards N k [] []
  | seated_cons k n l ns ls : holds numcards N k n l -> seated numcards N (k + 1) ns ls ->
      seated numcards N k (n :: ns) (l :: ls).

Lemma decode_round_spec numcards N k ns ls : seated numcards N k ns ls -> forall f rest dest seeds c,
  1 <= k -> k - 1 + Z.of_nat (length ns) <= Z.of_nat (length rest) ->
  decode_chain ls dest f numcards N = Some (seeds, c) ->
  decode_round ns (f :: rest) dest =
    Some (c :: take (Z.to_nat (k - 1)) rest ++ seeds ++ drop (Z.to_nat (k - 1) + length ns) rest).
Proof.
  induction 1 as [k|k n l ns ls [] Hs IH]; intros f rest dest seeds c Hk Hlen E; cbn [decode_chain] in E.
  - injection E as <- <-. cbn [decode_round foldr length app]. by rewrite Nat.add_0_r, take_drop.
  - cbn [length] in Hlen. destruct (decode_chain ls dest f numcards N) as [[seeds1 c1]|] eqn:E1; [|done].
    cbn [mbind option_bind] in E.
    destruct (cards777_decode (l_xoverz l) dest c1 (l_outcards l) numcards N) as [[seed c2]|] eqn:E2; [|done].
    cbn [mbind option_bind] in E. injection E as <- <-.
    change (decode_round (n :: ns) (f :: rest) dest) with
      (audit ← decode_round ns (f :: rest) dest; decode_audit n audit dest).
    rewrite (IH f rest dest seeds1 c1) by (done || lia). cbn [mbind option_bind].
    unfold decode_audit. rewrite ho_out0, ho_xoverz0, ho_N0, ho_numcards0, ho_myind0.
    replace (Z.to_nat (k + 1 - 1)) with (S (Z.to_nat (k - 1))) by lia.
    set (m := Z.to_nat (k - 1)) in *.
    destruct (lookup_lt_is_Some_2 rest m) as [x Hx]; [lia|].
    rewrite (take_S_r _ _ _ Hx). cbn [mbind option_bind length].
    match goal with |- context [aget (c1 :: ?t) 0] => change (aget (c1 :: t) 0) with (Some c1) end.
    cbn [mbind option_bind]. rewrite E2. cbn [mbind option_bind].
    assert (length (take m rest) = m) as Lm by (rewrite length_take; lia).
    rewrite aset_in_range by (cbn [length]; rewrite !length_app, Lm; simpl; lia). cbn [mbind option_bind].
    replace (Z.to_nat k) with (S m) by lia.
    match goal with |- context [<[S m := seed]> (c1 :: ?t)] =>
      change (<[S m := seed]> (c1 :: t)) with (c1 :: <[m := seed]> t) end.
    rewrite <- app_assoc, insert_app_r_alt by lia. rewrite Lm, Nat.sub_diag. cbn [app insert list_insert].
    match goal with |- aset ?l 0 ?x = _ => rewrite (aset_in_range l 0 x) by (cbn [length]; lia) end.
    replace (m + S (length ns))%nat with (S m + length ns)%nat by lia. reflexivity.
Qed.

(** C27: a card's audit on its way back through the players, each taking his layer
    off with [decode_audit], ends with the card that [decode_chain] computes in
    entry 0 and every player's factor at his own position; nothing else of the
    audit changes.  This is what [cards777_deal] shows to open and validate. *)
Theorem decode_round_chain numcards N ns ls f rest dest seeds c :
  seated numcards N 1 ns ls -> Z.of_nat (length ns) <= Z.of_nat (length rest) ->
  decode_chain ls dest f numcards N = Some (seeds, c) ->
  decode_round ns (f :: rest) dest = Some (c :: seeds ++ drop (length ns) rest).
Proof.
  intros Hs Hl E. pose proof (decode_round_spec numcards N 1 ns ls Hs f rest dest seeds c) as H.
  cbn [Z.to_nat Z.sub Z.add Z.opp Z.pos_sub take app Nat.add] in H. apply H; (done || lia).
Qed.
End Back.

(** A player at position 1 with a layer on one card for two players. *)
Definition back_layer : layer := mk_layer [byte32 5; byte32 6] [byte32 1; byte32 2] [] [].
Definition back_node : node :=
  let n := sample_node [] [] [] in
  n <| n_priv := n_priv n <| p_outcards := l_outcards back_layer |> <| p_xoverz := l_xoverz back_layer |> |>
    <| n_dp := n_dp n <| d_N := 2 |> <| d_numcards := 1 |> |> <| n_sp := n_sp n <| s_myind := 1 |> |>.

Lemma decode_round_chain_witness :
  @decode_round XorOps [back_node] (byte32 5 :: replicate 8 zero256) 0 =
    Some (byte32 4 :: byte32 1 :: replicate 7 zero256).
Proof.
  apply (@decode_round_chain XorOps 1 2 [back_node] [back_layer] (byte32 5) (replicate 8 zero256) 0 [byte32 1] (byte32 4));
    [|simpl; lia|vm_compute; reflexivity].
  apply seated_cons; [by split|apply seated_nil].
Defined.

(** ** Theorems: ranks *)

Definition known (b : Z) : bool := negb (b =? 255).

Lemma fill_hand_spec community row : length community = 5%nat -> length row = 7%nat ->
  exists row', fill_hand community row 0 7 = Some (row', forallb known (community ++ drop 5 row)) /\
    length row' = 7%nat /\
    (forallb known (community ++ drop 5 row) = true -> row' = community ++ drop 5 row).
Proof.
  intros Hc Hr. destruct community as [|c0 [|c1 [|c2 [|c3 [|c4 [|]]]]]]; try done.
  destruct row as [|r0 [|r1 [|r2 [|r3 [|r4 [|r5 [|r6 [|]]]]]]]]; try done.
  clear Hc Hr. cbv -[Z.eqb].
  repeat (match goal with |- context [Z.eqb ?b 255] => destruct (Z.eqb b 255) end; cbv -[Z.eqb]);
    eexists; (split; [reflexivity|]); done.
Qed.

(** a player's rank is computed once, from the five community cards and his
    two hole cards as soon as all seven are known, by the seven-card evaluator;
    before that it is 0, and afterwards it stays; the other players' ranks do not
    change. *)
Theorem pangea_rank_spec h s row r :
  0 <= s -> length (h_community h) = 5%nat -> h_hands h !! Z.to_nat s = Some row -> length row = 7%nat ->
  h_handranks h !! Z.to_nat s = Some r ->
  exists h' r', pangea_rank h s = Some (h', r') /\ h_handranks h' !! Z.to_nat s = Some r' /\
    (forall t, t <> Z.to_nat s -> h_handranks h' !! t = h_handranks h !! t) /\
    if negb (r =? 0) then h' = h /\ r' = r
    else if forallb known (h_community h ++ drop 5 row)
    then set_handstr (h_community h ++ drop 5 row) = Some r' else r' = 0.
Proof.
  intros Hs Hc Hrow Hl Hr. unfold pangea_rank. rewrite (aget_lookup _ _ r) by done. cbn [mbind option_bind].
  destruct (Z.eqb_spec r 0) as [->|Hne]; cbn [negb]; [|by exists h, r].
  rewrite (aget_lookup _ _ row) by done. cbn [mbind option_bind].
  destruct (fill_hand_spec (h_community h) row Hc Hl) as (row' & -> & Hl' & Hk). cbn [mbind option_bind].
  pose proof (lookup_lt_Some _ _ _ Hrow). pose proof (lookup_lt_Some _ _ _ Hr).
  rewrite aset_in_range by lia. cbn [mbind option_bind].
  destruct (forallb known _).
  - rewrite (Hk eq_refl) in *. destruct (set_handstr_total (h_community h ++ drop 5 row) Hl') as [score Es].
    rewrite Es. cbn [mbind option_bind]. simpl h_handranks. rewrite aset_in_range by lia. cbn [mbind option_bind].
    do 2 eexists. split; [reflexivity|]. simpl. split; [by rewrite list_lookup_insert_eq by lia|].
    split; [|done]. intros t Ht. by rewrite list_lookup_insert_ne by lia.
  - do 2 eexists. split; [reflexivity|]. simpl. done.
Qed.

(** The hand of player 1: four aces. *)
Definition rank_hand : cards777_handinfo :=
  let h := sample_hand (replicate 9 0) (replicate 9 0) (replicate 9 0) in
  h <| h_community := [12; 25; 38; 3; 4] |> <| h_hands := replicate 9 [255; 255; 255; 255; 255; 51; 7] |>.

Lemma pangea_rank_spec_witness : exists h' r', pangea_rank rank_hand 1 = Some (h', r') /\
  h_handranks h' !! 1%nat = Some r' /\ set_handstr [12; 25; 38; 3; 4; 51; 7] = Some r'.
Proof.
  destruct (pangea_rank_spec rank_hand 1 [255; 255; 255; 255; 255; 51; 7] 0) as (h' & r' & E & H1 & _ & H2);
    [lia|done|done|done|done|]. by exists h', r'.
Defined.
