(* ===== verification/Handshake.v ===== *)
(** * Handshake: host and players agree on a new hand

    The host makes a deck and announces it ([pangea_newdeck]); every other node
    takes the announcement in ([pangea_newhand]) and reports the check product it
    computes ([gotdeck]), which the host compares with its own.  The theorem of
    this file runs these handlers of [Deal] one after the other on two nodes. *)

From stdpp Require Import sets.
From S2P Require Import Prelude GF256 Interp GFShare Cards Bits Table Summary Pots Funds Poker Keys Utils Deal.

Lemma bits256s_concat l rest : Forall is256 l -> bits256s (length l) (concat l ++ rest) = Some l.
Proof.
  induction 1 as [|x l Hx Hl IH]; [done|]. unfold is256 in Hx. cbn [length bits256s concat].
  rewrite <- app_assoc, take_exact_le by (rewrite length_app; lia). cbn [mbind option_bind].
  by rewrite take_app_length', drop_app_length', IH.
Qed.

Lemma concat_is256_length l : Forall is256 l -> length (concat l) = (32 * length l)%nat.
Proof.
  induction 1 as [|x l Hx Hl IH]; [done|]. unfold is256 in Hx. cbn [concat length]. rewrite length_app, IH. lia.
Qed.

Lemma overwrite_le dst src : (length src <= length dst)%nat -> overwrite dst src = Some (src ++ drop (length src) dst).
Proof. intros H. unfold overwrite. by destruct (Nat.leb_spec (length src) (length dst)); [|lia]. Qed.

(** A node ready for a new hand: its table is well formed, the hand has the active
    players, and the arrays have room for the deck. *)
Record ready_node (n : node) : Prop := mk_ready_node {
  rn_table : table_ok (n_sp n);
  rn_slot : s_myslot (n_sp n) = n_slot n;
  rn_numcards : 0 <= d_numcards (n_dp n) <= 52;
  rn_N : 0 <= d_N (n_dp n);
  rn_cardpubs : d_numcards (n_dp n) + 1 <= Z.of_nat (length (h_cardpubs (n_hand n)));
  rn_final : d_N (n_dp n) * d_numcards (n_dp n) <= Z.of_nat (length (h_final (n_hand n)));
}.

Lemma clear_node_ok n : ready_node n -> exists n', clear_node n = Some n' /\
  n_sp n' = n_sp n /\ n_slot n' = n_slot n /\ n_out n' = n_out n /\
  d_N (n_dp n') = d_N (n_dp n) /\ d_numcards (n_dp n') = d_numcards (n_dp n) /\
  d_numhands (n_dp n') = d_numhands (n_dp n) /\ p_outcards (n_priv n') = p_outcards (n_priv n) /\
  length (h_cardpubs (n_hand n')) = length (h_cardpubs (n_hand n)) /\
  h_othercardpubs (n_hand n') = replicate 9 0 /\ h_encodestarted (n_hand n') = 0 /\
  h_betstarted (n_hand n') = 0 /\ h_finished (n_hand n') = 0.
Proof.
  intros []. unfold clear_node, pangea_clearhand, zero_prefix.
  destruct (Z.ltb_spec (Z.of_nat (length (h_final (n_hand n)))) (d_N (n_dp n) * d_numcards (n_dp n))); [lia|].
  cbn [mbind option_bind].
  destruct (Z.ltb_spec (Z.of_nat (length (h_cardpubs (n_hand n)))) (1 + d_numcards (n_dp n))); [lia|].
  cbn [mbind option_bind]. eexists. split; [reflexivity|]. destruct n as [sp [] priv slot out]. simpl in *.
  repeat split. rewrite length_app, length_replicate, length_drop. lia.
Qed.

(** The players' keys, and the accounts without chips, are found. *)
Lemma players_pubs_ok sp : table_ok sp ->
  exists pubs act, players_pubs sp (s_numactive sp) = Some (pubs, act) /\
    Z.of_nat (length pubs) = s_numactive sp /\ act = take (Z.to_nat (s_numactive sp)) (s_active sp).
Proof.
  intros Hok. pose proof Hok as []. unfold players_pubs.
  match goal with |- context [for_ ?f 0 _ _] =>
    destruct (for_inv (fun i '(pubs, act) => Z.of_nat (length pubs) = i /\ act = take (Z.to_nat i) (s_active sp))
      f (Z.to_nat (s_numactive sp)) 0 ([], [])) as ([pubs act] & E & L & A) end.
  - done.
  - intros i [pubs act] Hi [L ->].
    destruct (slot_spec sp i Hok) as (s & -> & Hs & _); [lia|]. cbn [mbind option_bind].
    destruct (aget_is_Some (s_playerpubs sp) s) as (p & _ & ->); [lia|]. cbn [mbind option_bind].
    destruct (aget_is_Some (s_active sp) i) as (a & Ha & ->); [lia|]. cbn [mbind option_bind].
    eexists. split; [reflexivity|]. split; [rewrite length_app; simpl; lia|].
    replace (Z.to_nat (i + 1)) with (S (Z.to_nat i)) by lia. by rewrite (take_S_r _ _ _ Ha).
  - exists pubs, act. split; [done|]. rewrite Z.add_0_l, Z2Nat.id in * by lia. done.
Qed.

Lemma removelist_ok sp N : table_ok sp -> 0 <= N <= s_numactive sp -> is_Some (removelist sp N).
Proof.
  intros Hok HN. pose proof Hok as []. unfold removelist.
  match goal with |- context [for_ ?f 0 _ _] =>
    destruct (for_inv (fun _ _ => True) f (Z.to_nat N) 0 []) as (l & -> & _); [done| |by eexists] end.
  intros i l Hi _. destruct (slot_spec sp i Hok) as (s & -> & Hs & _); [lia|]. cbn [mbind option_bind].
  destruct (aget_is_Some (s_balances sp) s) as (b & _ & ->); [lia|]. cbn [mbind option_bind].
  destruct (b <=? 0); [|by eexists].
  destruct (aget_is_Some (s_addrs sp) s) as (a & _ & ->); [lia|]. by eexists.
Qed.

(** What a new order of play leaves alone. *)
Lemma neworder_frame dp sp active m dp' sp' r : pangea_neworder dp sp active m = Some (dp', sp', r) ->
  s_addrs sp' = s_addrs sp /\ s_numaddrs sp' = s_numaddrs sp /\ s_myslot sp' = s_myslot sp /\ s_balances sp' = s_balances sp /\
  d_numcards dp' = d_numcards dp /\ d_numhands dp' = d_numhands dp /\ d_hand dp' = d_hand dp.
Proof.
  unfold pangea_neworder. destruct active as [a|]; intros H;
    repeat (match type of H with
      | (x ← ?e; _) = Some _ => destruct e; [cbn [mbind option_bind] in H|done]
      | (if ?b then _ else _) = Some _ => destruct b
      | Some _ = Some _ => injection H as <- <- _
      end); done.
Qed.

(** Seating the players [act] at a node. *)
Lemma neworder_node_ok n active m act k : table_ok (n_sp n) -> s_myslot (n_sp n) = n_slot n ->
  match active with Some a => a = act /\ m = k | None => s_active (n_sp n) = act /\ s_numactive (n_sp n) = k end ->
  1 <= k <= 9 -> k <= Z.of_nat (length act) -> NoDup (take (Z.to_nat k) act) ->
  head act = head (s_addrs (n_sp n)) ->
  take (Z.to_nat k) act ⊆ take (Z.to_nat (s_numaddrs (n_sp n))) (s_addrs (n_sp n)) ->
  exists dp sp, neworder_node n active m = Some (n <| n_dp := dp |> <| n_sp := sp |>) /\
    take (Z.to_nat k) (s_active sp) = take (Z.to_nat k) act /\ s_numactive sp = k /\
    d_N dp = k /\ table_ok sp /\ s_myslot sp = n_slot n /\
    d_numcards dp = d_numcards (n_dp n) /\ d_numhands dp = d_numhands (n_dp n) /\ d_hand dp = n_hand n /\
    s_balances sp = s_balances (n_sp n).
Proof.
  intros Hok Hsl Ha Hk Hl Hnd Hh Hs. unfold neworder_node.
  destruct (neworder_ok (n_dp n) (n_sp n) act k Hok Hk Hl Hnd) as (dp & sp & r & E & H).
  assert (pangea_neworder (n_dp n) (n_sp n) active m = Some (dp, sp, r)) as ->.
  { destruct active as [a|]; destruct Ha as [Ha1 Ha2]; [by subst|]. rewrite <- Ha1, <- Ha2 in E. exact E. }
  cbn [mbind option_bind]. destruct (neworder_frame _ _ _ _ _ _ _ E) as (_ & _ & Hm & Hb & Hc & Hn & Hd).
  destruct H as [(_ & _ & _ & []) | (_ & _ & Ht & Hna & HN & _ & _ & Hok' & _)]; [done|].
  exists dp, sp. rewrite Hm. by destruct n.
Qed.

Section Handshake.
Context {FO : FieldOps} {CO : @CurveOps FO}.

(** The bytes that announce a deck: the public keys of its cards and their product. *)
Lemma newdeck_ok now rands n : ready_node n -> d_N (n_dp n) = s_numactive (n_sp n) -> 0 < s_numactive (n_sp n) ->
  head (s_active (n_sp n)) = head (s_addrs (n_sp n)) ->
  d_numcards (n_dp n) * s_numactive (n_sp n) <= Z.of_nat (length (p_outcards (n_priv n))) ->
  Forall bits256_ok rands -> (forall i, 0 <= i < d_numcards (n_dp n) -> covers rands i) ->
  exists n' pubs prod, pangea_newdeck now rands n = Some n' /\
    n_out n' = mk_message "newhand" (-1) (concat (pubs ++ [prod])) 0 0
                 (take (Z.to_nat (s_numactive (n_sp n))) (s_active (n_sp n))) :: n_out n /\
    Z.of_nat (length pubs) = d_numcards (n_dp n) /\ Forall is256 (pubs ++ [prod]) /\
    prod_of pubs = Some prod /\ h_checkprod (n_hand n') = prod /\ d_newhand (n_dp n') = "newhand" /\
    d_N (n_dp n') = s_numactive (n_sp n) /\ h_othercardpubs (n_hand n') = replicate 9 0 /\
    h_encodestarted (n_hand n') = 0 /\ h_betstarted (n_hand n') = 0 /\ h_finished (n_hand n') = 0 /\
    s_balances (n_sp n') = s_balances (n_sp n).
Proof.
  intros Hn HN Hpos Hhd Hout Hok Hcov. pose proof Hn as []. pose proof rn_table0 as [].
  unfold pangea_newdeck. destruct (clear_node_ok n Hn) as (n1 & -> & E1 & E2 & E3 & E4 & E5 & E6 & E7 & E8 & E9 & E10 & E11 & E12).
  cbn [mbind option_bind].
  destruct (removelist_ok (n_sp n1) (d_N (n_dp n1))) as [l ->]; [by rewrite E1|rewrite E1; lia|]. cbn [mbind option_bind].
  destruct (neworder_node_ok n1 None 0 (s_active (n_sp n)) (s_numactive (n_sp n)))
    as (dp & sp & -> & F1 & F2 & F3 & F4 & F5 & F6 & F7 & F8 & F9); try (rewrite ?E1, ?E2; done || lia).
  cbn [mbind option_bind]. simpl n_dp. simpl n_sp. rewrite F3, <- F2.
  destruct (players_pubs_ok sp F4) as (pubs & act & -> & Lp & ->). cbn [mbind option_bind]. rewrite F2 in *.
  simpl n_priv. simpl n_hand. unfold n_hand. simpl n_dp. rewrite F8.
  destruct (initdeck_spec rands (p_outcards (n_priv n1)) (h_cardpubs (n_hand n1)) (d_numcards dp) (s_numactive (n_sp n)) pubs)
    as (deck & cps & prod & ks & -> & Hp & Ld & Hks & Lcp & Hpubs & Eprod & _);
    try (rewrite ?F6, ?E5, ?E7, ?E8; done || lia).
  cbn [mbind option_bind]. rewrite F6, E5, E7, E8 in *. set (m := d_numcards (n_dp n)) in *.
  rewrite pubkeys_prod in Eprod by lia.
  rewrite aset_in_range by lia. cbn [mbind option_bind].
  rewrite take_exact_le by (rewrite length_insert; lia). cbn [mbind option_bind].
  assert (take (Z.to_nat (m + 1)) (<[Z.to_nat m:=prod]> cps) = take (Z.to_nat m) cps ++ [prod]) as ->.
  { replace (Z.to_nat (m + 1)) with (S (Z.to_nat m)) by lia.
    rewrite (take_S_r _ _ prod) by (apply list_lookup_insert_eq; lia). by rewrite take_insert_ge by lia. }
  do 3 eexists. split; [reflexivity|]. simpl. rewrite E3, F1. split; [done|].
  split; [rewrite length_take; unfold bits256 in *; lia|]. split; [|by rewrite F3, E9, E10, E11, E12, F9, E1].
  apply Forall_app. split; [|repeat constructor; by eapply prod_is256].
  rewrite Hpubs. apply Forall_fmap, (list.Forall_impl _ _ _ Hks). intros k (r & Hr & Er).
  apply curve25519_is256; [|done]. apply (clamp_is256 r); [|done].
  by apply (proj1 (list.Forall_forall _ _) Hok r Hr).
Qed.

(** A node other than the host takes the announcement in. *)
Lemma newhand_ok n act pubs prod : ready_node n -> n_slot n <> 0 ->
  1 <= Z.of_nat (length act) <= 9 -> NoDup act -> head act = head (s_addrs (n_sp n)) ->
  act ⊆ take (Z.to_nat (s_numaddrs (n_sp n))) (s_addrs (n_sp n)) ->
  Z.of_nat (length pubs) = d_numcards (n_dp n) -> Forall is256 (pubs ++ [prod]) -> prod_of pubs = Some prod ->
  exists n' cardi turni, pangea_newhand n (Some act) (concat (pubs ++ [prod])) (32 * (d_numcards (n_dp n) + 1)) = Some (n', 0) /\
    h_checkprod (n_hand n') = prod /\
    take (Z.to_nat (d_numcards (n_dp n) + 1)) (h_cardpubs (n_hand n')) = pubs ++ [prod] /\
    d_N (n_dp n') = Z.of_nat (length act) /\ s_numactive (n_sp n') = Z.of_nat (length act) /\
    take (length act) (s_active (n_sp n')) = act /\
    d_button (n_dp n') = d_numhands (n_dp n) mod Z.of_nat (length act) /\
    n_out n' = if 0 <=? s_myind (n_sp n') then mk_message "gotdeck" (-1) (take 8 prod) cardi turni [] :: n_out n
               else n_out n.
Proof.
  intros Hn Hslot Hk Hnd Hhd Hsub Lp H256 Hprod. pose proof Hn as []. pose proof rn_table0 as [].
  unfold pangea_newhand. set (m := d_numcards (n_dp n)) in *.
  destruct (Z.eqb_spec (32 * (m + 1)) ((m + 1) * 32)); [|lia]. cbn [negb].
  destruct (Z.eqb_spec (n_slot n) 0); [done|]. cbn [negb].
  destruct (clear_node_ok n Hn) as (n1 & -> & E1 & E2 & E3 & E4 & E5 & E6 & E7 & E8 & _). cbn [mbind option_bind].
  destruct (Nat.ltb_spec 9 (length act)); [lia|].
  destruct (neworder_node_ok n1 (Some act) (Z.of_nat (length act)) act (Z.of_nat (length act)))
    as (dp & sp & -> & F1 & F2 & F3 & F4 & F5 & F6 & F7 & F8 & F9);
    try (rewrite ?E1, ?E2, ?Nat2Z.id, ?firstn_all; done || lia).
  cbn [mbind option_bind]. simpl n_dp. rewrite F3. destruct (Z.eqb_spec (Z.of_nat (length act)) 0); [lia|].
  assert (Z.to_nat (m + 1) = length (pubs ++ [prod])) as Lk by (rewrite length_app; simpl; unfold bits256 in *; lia).
  pose proof (bits256s_concat (pubs ++ [prod]) [] H256) as D. rewrite app_nil_r, <- Lk in D. rewrite D.
  cbn [mbind option_bind]. unfold n_hand. simpl n_dp. rewrite F8.
  rewrite overwrite_le by (rewrite <- Lk; unfold n_hand, bits256 in *; lia). cbn [mbind option_bind].
  rewrite pubkeys_prod by (rewrite !length_app; simpl; unfold bits256 in *; lia).
  replace (Z.to_nat m) with (length pubs) by (unfold bits256 in *; lia).
  rewrite <- app_assoc, take_app_length, Hprod. cbn [mbind option_bind].
  assert (take (Z.to_nat (m + 1)) (pubs ++ [prod] ++ drop (length (pubs ++ [prod])) (h_cardpubs (d_hand (n_dp n1)))) = pubs ++ [prod])
    as T by (by rewrite app_assoc, Lk, take_app_length).
  simpl n_sp. destruct (Z.leb_spec 0 (s_myind sp)) as [Hi|Hi].
  - unfold n_summary, pangea_summary. simpl d_summary. cbn [app].
    match goal with |- context [SUMMARYMAX <? ?x] => destruct (Z.ltb_spec SUMMARYMAX x) as [L|L] end.
    { exfalso. cbn [length] in L. rewrite length_app, length_le_bytes, concat_is256_length, <- Lk in L by done.
      unfold SUMMARYMAX in L. lia. }
    cbn [mbind option_bind]. unfold n_send. rewrite sendcmd_broadcast by (simpl; rewrite ?E2; done || lia).
    cbn [mbind option_bind]. do 3 eexists. split; [reflexivity|]. simpl.
    destruct (Z.leb_spec 0 (s_myind sp)); [|lia]. rewrite F3, F7, E3, E6, Nat2Z.id, firstn_all in *. done.
  - eexists _, 0, 0. split; [reflexivity|]. simpl. destruct (Z.leb_spec 0 (s_myind sp)); [lia|].
    rewrite F3, F7, E3, E6, Nat2Z.id, firstn_all in *. done.
Qed.

(** The host enters what a player reports. *)
Lemma set_othercardpub_ok n prod i : is256 prod -> length (h_othercardpubs (n_hand n)) = 9%nat -> 0 <= i < 9 ->
  exists n', set_othercardpub n (take 8 prod) i = Some n' /\ h_checkprod (n_hand n') = h_checkprod (n_hand n) /\
    h_othercardpubs (n_hand n') = <[Z.to_nat i := txid prod]> (h_othercardpubs (n_hand n)).
Proof.
  intros H256 Hl Hi. unfold is256 in H256. unfold set_othercardpub.
  rewrite take_exact_le by (rewrite length_take; lia). cbn [mbind option_bind].
  rewrite take_take. rewrite aset_in_range by lia. cbn [mbind option_bind]. eexists. split; [reflexivity|]. by destruct n as [? []].
Qed.

(** C14: host and players agree on a new hand.  The host's [pangea_newdeck] ends and
    broadcasts one message, [newhand]; any other node with the same accounts that
    takes it in with [pangea_newhand] then plays with the same players in the same
    order, holds the same public keys and computes the same check product; if it
    plays in the hand it reports the product, and when the host enters the report
    for a position that position counts as agreed in [pangea_checkstart]. *)
Theorem newhand_agreement now rands h c :
  ready_node h -> d_N (n_dp h) = s_numactive (n_sp h) -> 0 < s_numactive (n_sp h) ->
  head (s_active (n_sp h)) = head (s_addrs (n_sp h)) ->
  d_numcards (n_dp h) * s_numactive (n_sp h) <= Z.of_nat (length (p_outcards (n_priv h))) ->
  Forall bits256_ok rands -> (forall i, 0 <= i < d_numcards (n_dp h) -> covers rands i) ->
  ready_node c -> n_slot c <> 0 -> d_numcards (n_dp c) = d_numcards (n_dp h) ->
  s_addrs (n_sp c) = s_addrs (n_sp h) -> s_numaddrs (n_sp c) = s_numaddrs (n_sp h) ->
  exists h' msg c', pangea_newdeck now rands h = Some h' /\ n_out h' = msg :: n_out h /\ m_cmd msg = "newhand" /\
    m_active msg = take (Z.to_nat (s_numactive (n_sp h))) (s_active (n_sp h)) /\
    pangea_newhand c (Some (m_active msg)) (m_data msg) (Z.of_nat (length (m_data msg))) = Some (c', 0) /\
    d_N (n_dp c') = d_N (n_dp h') /\ take (Z.to_nat (d_N (n_dp c'))) (s_active (n_sp c')) = m_active msg /\
    concat (take (Z.to_nat (d_numcards (n_dp c) + 1)) (h_cardpubs (n_hand c'))) = m_data msg /\
    h_checkprod (n_hand c') = h_checkprod (n_hand h') /\
    (0 <= s_myind (n_sp c') -> exists reply, n_out c' = reply :: n_out c /\ m_cmd reply = "gotdeck" /\
      forall i, 0 <= i < 9 -> exists h'', set_othercardpub h' (m_data reply) i = Some h'' /\
        h_othercardpubs (n_hand h'') !! Z.to_nat i = Some (txid (h_checkprod (n_hand h'')))).
Proof.
  intros Hh HN Hpos Hhd Hout Hok Hcov Hc Hs Hm Ha Hna. pose proof Hh as []. pose proof rn_table0 as [].
  destruct (newdeck_ok now rands h) as (h' & pubs & prod & Eh & Eo & Lp & H256 & Hprod & Ck & _ & EN & Eoth & _); try done.
  set (act := take (Z.to_nat (s_numactive (n_sp h))) (s_active (n_sp h))) in *.
  assert (Z.of_nat (length act) = s_numactive (n_sp h)) as La by (unfold act; rewrite length_take; lia).
  destruct (newhand_ok c act pubs prod) as (c' & cardi & turni & Ec & Ck' & Tp & EN' & _ & Ta & _ & Eo'); try done;
    [lia| |rewrite Ha, Hna; done|rewrite Hm; done|].
  { rewrite Ha, <- Hhd. unfold act. destruct (s_active (n_sp h)); [done|].
    by replace (Z.to_nat (s_numactive (n_sp h))) with (S (Z.to_nat (s_numactive (n_sp h) - 1))) by lia. }
  do 3 eexists. split; [exact Eh|]. split; [exact Eo|]. cbn [m_cmd m_active m_data]. split; [done|]. split; [done|].
  assert (Z.of_nat (length (concat (pubs ++ [prod]))) = 32 * (d_numcards (n_dp c) + 1)) as ->.
  { rewrite concat_is256_length by done. rewrite length_app, Hm. simpl. unfold bits256 in *. lia. }
  split; [exact Ec|]. split; [congruence|]. split; [by rewrite EN', Nat2Z.id|]. split; [by rewrite Tp|].
  split; [congruence|]. intros Hi. destruct (Z.leb_spec 0 (s_myind (n_sp c'))) as [_|]; [|lia].
  eexists. split; [exact Eo'|]. split; [done|]. intros i Hi9. cbn [m_data].
  destruct (set_othercardpub_ok h' prod i) as (h'' & E & C & O); [by apply Forall_app in H256 as [_ ?%Forall_cons_1]; naive_solver|by rewrite Eoth|done|].
  exists h''. split; [done|]. rewrite O, C, Ck. apply list_lookup_insert_eq. rewrite Eoth. simpl. lia.
Qed.
End Handshake.

(** A table of two cards: the host is in seat 0, the other node in seat 1. *)
Definition handshake_node (slot : Z) : node :=
  let n := sample_node (replicate 9 0) (replicate 9 0) (replicate 9 0) in
  on_hand (fun h => h <| h_cardpubs := replicate 3 zero256 |> <| h_final := replicate 6 zero256 |>)
    (n <| n_slot := slot |> <| n_sp := n_sp n <| s_myslot := slot |> |>
       <| n_dp := n_dp n <| d_numcards := 2 |> <| d_N := 3 |> |>
       <| n_priv := n_priv n <| p_outcards := replicate 6 zero256 |> |>).

Lemma handshake_ready slot : 0 <= slot < 3 -> ready_node (handshake_node slot).
Proof.
  intros Hs. split; [|done|simpl; lia|simpl; lia|vm_compute; discriminate|vm_compute; discriminate].
  destruct sample_info_ok. by split.
Qed.

Lemma newhand_agreement_witness : exists h' msg c',
  @pangea_newdeck XorOps ToyOps 1000 sample_rands (handshake_node 0) = Some h' /\ n_out h' = [msg] /\
  @pangea_newhand XorOps ToyOps (handshake_node 1) (Some (m_active msg)) (m_data msg) (Z.of_nat (length (m_data msg))) = Some (c', 0) /\
  h_checkprod (n_hand c') = h_checkprod (n_hand h').
Proof.
  destruct (@newhand_agreement XorOps ToyOps 1000 sample_rands (handshake_node 0) (handshake_node 1))
    as (h' & msg & c' & E & Eo & _ & _ & Ec & _ & _ & _ & Ck & _);
    [by apply handshake_ready|done|done|done|done|concrete|by apply sample_covers|by apply handshake_ready|done|done|done|done|].
  exists h', msg, c'. split; [exact E|]. split; [exact Eo|]. split; [exact Ec|exact Ck].
Defined.
