(* ===== verification/Poll.v ===== *)
(** * Poll: a message received by a node, and the node's loop

    Models [pangea_poll] and [pangea_ready] of
    [plugins/games/pangea/pangea777.c] and the body of the loop of [pangea_idle]:
    the fields of a message, the decoding of its data into the buffer, the
    dispatch on its command to the handlers of [Funds] and [Deal], the settlement
    and the host's timer.  The fields are what the JSON accessors return; the
    parsing itself belongs to the library cJSON.  The chat command only prints. *)

From S2P Require Import Prelude GF256 Interp GFShare Cards Bits Table Summary Pots Funds Betting Hand Poker Keys Utils Deal Coin Handshake.

(** A received message: [juint] of a missing field is 0. *)
Record packet := mk_packet {
  k_cmd : option string;
  k_sender : Z;
  k_myind : Z;
  k_cardi : Z;
  k_turni : Z;
  k_dest : Z;
  k_n : Z;
  k_data : option (list Z);
  k_active : option (list Z);
}.

(** What the handlers draw from outside: the time, the random numbers and keys of a
    new deck, the random bytes of a layer and the random numbers of a bot. *)
Record environment := mk_environment {
  e_now : Z;
  e_rands : list bits256;
  e_rands' : list bits256;
  e_entropy : entropy;
  e_rand1 : Z;
  e_rand2 : Z;
}.

(** The functions of libraries: cJSON's parse of a request to add funds, the
    comparison of two printed logs, the hash and address encoding of the coins. *)
Record libraries := mk_libraries {
  lib_funds : list Z -> option fundsreq;
  lib_equal : list Z -> list Z -> bool;
  lib_hash160 : list Z -> list Z;
  lib_base58 : Z -> list Z -> option (list Z);
}.

(** [buf] with the bytes [bs] at its start. *)
Definition fill (buf bs : list Z) : option (list Z) :=
  if (length bs <=? length buf)%nat then Some (bs ++ drop (length bs) buf) else None.

Definition text_string (s : list Z) : string :=
  String.string_of_list_ascii ((fun c => Ascii.ascii_of_N (Z.to_N c)) <$> s).

Section Poll.
Context {FO : FieldOps} {CO : @CurveOps FO} (lib : libraries).

(** ** Coin addresses *)

(** Every position's bit of the mask is set. *)
Fixpoint all_ready (mask i : Z) (k : nat) : option bool :=
  match k with
  | O => Some true
  | S k => b ← GETBIT (le_bytes 4 mask) 0 i; if b =? 0 then Some false else all_ready mask (i + 1) k
  end.

Definition ready_pubkeys (sp : pangea_info) (N : Z) : option (list (list Z)) :=
  for_ (fun i l => slot ← pangea_slot sp i; k ← aget (s_btcpubkeys sp) slot; Some (l ++ [k]))
    0 (Z.to_nat N) [].

(** The key and address of the player of a seat. *)
Definition ready_key (sp : pangea_info) (addrtype slot : Z) (data : list Z) : option pangea_info :=
  key ← take_exact 33 data;
  let hexstr := key ≫= hex_digits in
  keys ← aset (s_btcpubkeys sp) slot hexstr;
  addrs ← match btc_coinaddr (lib_hash160 lib) (lib_base58 lib) addrtype hexstr with
          | Some a => aset (s_coinaddrs sp) slot a
          | None => Some (s_coinaddrs sp)
          end;
  Some (sp <| s_btcpubkeys := keys |> <| s_coinaddrs := addrs |>).

(** [stack] is the former value of [p2shtype]. *)
Definition pangea_ready (stack : Z) (n : node) (data : list Z) (datalen senderind : Z) : option node :=
  slot ← pangea_slot (n_sp n) senderind;
  if (slot <? 0) || (31 <? slot) then None
  else
    let n := n <| n_dp := n_dp n <| d_readymask := Z.lor (d_readymask (n_dp n)) (Z.shiftl 1 slot) |> |> in
    let '(addrtype, p2shtype) := coin777_addrtype stack (d_coinstr (n_dp n)) in
    sp ← (if datalen =? 33 then ready_key (n_sp n) addrtype slot data else Some (n_sp n));
    let n := n <| n_sp := sp |> in
    all ← all_ready (d_readymask (n_dp n)) 0 (Z.to_nat (d_N (n_dp n)));
    if (all : bool) then
      n ← (if (n_slot n =? pangea_slotA (n_sp n)) && negb (senderind =? 0)
           then n_send n "ready" (s_btcpub (n_sp n)) 0 0 else Some n);
      pubkeys ← ready_pubkeys (n_sp n) (d_N (n_dp n));
      '(redeem, script, addr, _) ← create_MofN (lib_hash160 lib) (lib_base58 lib) p2shtype pubkeys
         (d_M (n_dp n)) (d_N (n_dp n));
      Some (n <| n_sp := n_sp n <| s_redeemScript := redeem |> <| s_scriptPubKey := script |>
                 <| s_multisigaddr := text_string addr |> |>)
    else Some n.

(** ** The dispatch *)

(** The buffer after the decoding of the data, and the length; [None] inside: the
    message is dropped.  The text of the audits is unpacked without a check against
    the size of the buffer. *)
Definition poll_data (buf : list Z) (k : packet) : option (option (list Z * Z)) :=
  let maxlen := Z.of_nat (length buf) in
  match k_cmd k, k_data k with
  | Some "preflop", Some hexstr =>
      bs ← pangea_unzbuf (hexstr ++ [0]) (k_n k); buf ← fill buf bs; Some (Some (buf, Z.of_nat (length bs)))
  | Some "preflop", None => Some (Some (buf, k_n k))
  | _, Some hexstr =>
      if Z.of_nat (length hexstr) =? u64 (s32 (2 * k_n k)) then
        if maxlen <? k_n k then Some None
        else '(buf, _) ← decode_hex buf (k_n k) (hexstr ++ [0; 0]); Some (Some (buf, k_n k))
      else Some (Some (buf, k_n k))
  | _, None => Some (Some (buf, k_n k))
  end.

(** The handler of a command; [privkey] is the node's own key. *)
Definition poll_handler (privkey : bits256) (e : environment) (stack : Z) (n : node) (k : packet)
    (cmd : string) (buf : list Z) (len : Z) : option node :=
  let now := e_now e in
  let sender := k_myind k in
  if String.eqb cmd "newhand" then fst <$> pangea_newhand n (k_active k) buf len
  else if String.eqb cmd "ping" then pangea_ping n buf sender
  else if String.eqb cmd "gotdeck" then pangea_gotdeck now n buf sender
  else if String.eqb cmd "ready" then pangea_ready stack n buf len sender
  else if String.eqb cmd "encoded" then fst <$> pangea_encoded privkey (e_entropy e) n (k_dest k) buf len
  else if String.eqb cmd "final" then fst <$> pangea_final n buf len
  else if String.eqb cmd "addfunds" then
    d ← (if len =? 8 then inl <$> take_exact 8 buf else Some (inr (lib_funds lib buf)));
    pangea_addfunds n d sender
  else if String.eqb cmd "preflop" then fst <$> pangea_preflop privkey n (k_dest k) buf len
  else if String.eqb cmd "decoded" then fst <$> pangea_decoded privkey n (k_cardi k) (k_turni k) buf len
  else if String.eqb cmd "card" then fst <$> pangea_card privkey n (k_dest k) buf len (k_cardi k)
  else if String.eqb cmd "facedown" then fst <$> pangea_facedown n (k_turni k) buf len (k_cardi k) sender
  else if String.eqb cmd "faceup" then fst <$> pangea_faceup n (k_cardi k) (k_turni k) buf len sender
  else if String.eqb cmd "turn" then pangea_turn n (k_turni k) (k_cardi k) sender
  else if String.eqb cmd "confirmturn" then
    pangea_confirmturn now (e_rand1 e) (e_rand2 e) n (k_turni k) (k_cardi k) buf sender
  else if String.eqb cmd "chat" then Some n
  else if String.eqb cmd "action" then
    a ← take_exact 8 buf; fst <$> pangea_action now n (k_turni k) (le_int a) sender
  else if String.eqb cmd "showdown" then pangea_showdown now n (k_turni k) (k_cardi k) sender
  else if String.eqb cmd "summary" then
    pangea_gotsummary (lib_equal lib) (fun n => fst <$> pangea_anotherhand now (e_rands e) n) n buf len sender
  else Some n.

(** [garbage] is what [malloc] returns, of at least [maxlen] bytes. *)
Definition pangea_poll (privkey : bits256) (e : environment) (stack : Z) (garbage : list Z) (n : node)
    (k : packet) : option node :=
  let dp := n_dp n in
  buf ← take_exact (Z.to_nat (32 * (d_N dp * d_N dp * d_numcards dp))) garbage;
  if (k_myind k <? 0) || (d_N dp <=? k_myind k) then Some n
  else if s_myind (n_sp n) <? 0 then Some n
  else
    r ← poll_data buf k;
    match r, k_cmd k with
    | Some (buf, len), Some cmd => poll_handler privkey e stack n k cmd buf len
    | _, _ => Some n
    end.

(** One pass of the loop for a node, with the message at the head of its queue. *)
Definition pangea_idle (privkey : bits256) (e : environment) (stack : Z) (garbage : list Z) (n : node)
    (queue : option packet) : option node :=
  n ← match queue with Some k => pangea_poll privkey e stack garbage n k | None => Some n end;
  n ← (if (h_handmask (n_hand n) =? Z.shiftl 1 (d_N (n_dp n)) - 1) && (h_finished (n_hand n) =? 0)
       then pangea_finish (e_now e) n else Some n);
  if n_slot n =? pangea_slotA (n_sp n) then pangea_serverstate (e_now e) (e_rands e) (e_rands' e) n else Some n.
End Poll.

(** ** Theorems: the host's loop *)

(** The seats that have chips. *)
Definition rich_seats (sp : pangea_info) : Z :=
  Z.of_nat (length (filter (fun b => b <> 0) (take (Z.to_nat (s_numaddrs sp)) (s_balances sp)))).

Section Loop.
Context {FO : FieldOps} {CO : @CurveOps FO} (lib : libraries).

Lemma anotherhand_next now rands n : table_ok (n_sp n) -> rich_seats (n_sp n) <> 1 ->
  pangea_anotherhand now rands n = (n' ← pangea_newdeck now rands n; Some (n', rich_seats (n_sp n))).
Proof.
  intros Hok Hr. unfold pangea_anotherhand. pose proof Hok as [].
  match goal with |- context [for_ ?f 0 _ _] =>
    destruct (for_inv (fun i '(k, _) => k = Z.of_nat (length (filter (fun b => b <> 0) (take (Z.to_nat i) (s_balances (n_sp n))))))
      f (Z.to_nat (s_numaddrs (n_sp n))) 0 (0, -1)) as ([k j] & -> & Hk) end.
  - done.
  - intros i [k j] Hi ->. destruct (aget_is_Some (s_balances (n_sp n)) i) as (b & Hb & ->); [lia|].
    cbn [mbind option_bind]. eexists. split; [reflexivity|].
    replace (Z.to_nat (i + 1)) with (S (Z.to_nat i)) by lia. rewrite (take_S_r _ _ _ Hb), filter_app, length_app.
    destruct (Z.eqb_spec b 0) as [->|Hne].
    + rewrite filter_cons_False by (intros H; by apply H). simpl. lia.
    + rewrite filter_cons_True by done. simpl. lia.
  - rewrite Z.add_0_l, Z2Nat.id in Hk by lia. subst k. fold (rich_seats (n_sp n)). cbn [mbind option_bind].
    by destruct (Z.eqb_spec (rich_seats (n_sp n)) 1).
Qed.

(** The host of a hand in which everybody has folded or shown: it can be settled,
    and the arrays have room for the deck of the next one. *)
Record hand_over (n : node) : Prop := mk_hand_over {
  ov_settle : ready_to_settle n;
  ov_ready : ready_node n;
  ov_host : n_slot n = 0;
  ov_mask : h_handmask (n_hand n) = Z.shiftl 1 (d_N (n_dp n)) - 1;
  ov_started : h_betstarted (n_hand n) <> 0 /\ h_encodestarted (n_hand n) <> 0;
  ov_first : head (s_active (n_sp n)) = head (s_addrs (n_sp n));
  ov_outcards : d_numcards (n_dp n) * s_numactive (n_sp n) <= Z.of_nat (length (p_outcards (n_priv n)));
}.

Lemma serverstate_waits now rands rands' n : 0 < now < 2 ^ 32 - 31 -> h_finished (n_hand n) = now ->
  h_betstarted (n_hand n) <> 0 -> h_encodestarted (n_hand n) <> 0 ->
  pangea_serverstate now rands rands' n = Some n.
Proof.
  intros Hnow Hf Hb He. unfold pangea_serverstate. rewrite Hf. unfold PANGEA_HANDGAP. rewrite u32_small by lia.
  destruct (Z.ltb_spec (now + 30) now); [lia|]. rewrite andb_false_r. cbn [mbind option_bind].
  destruct (Z.eqb_spec (h_betstarted (n_hand n)) 0); [done|]. cbn [andb]. unfold pangea_checkstart.
  destruct (Z.eqb_spec (h_encodestarted (n_hand n)) 0); [done|]. by rewrite andb_false_r.
Qed.

Lemma serverstate_next now rands rands' n n' : table_ok (n_sp n) -> rich_seats (n_sp n) <> 1 ->
  0 < h_finished (n_hand n) -> h_finished (n_hand n) + PANGEA_HANDGAP < now -> now < 2 ^ 32 ->
  pangea_newdeck now rands n = Some n' -> h_encodestarted (n_hand n') = 0 -> d_newhand (n_dp n') = "newhand" ->
  h_othercardpubs (n_hand n') = replicate 9 0 -> 0 < d_N (n_dp n') ->
  pangea_serverstate now rands rands' n = Some n'.
Proof.
  intros Hok Hr Hf Hg Hn E He Hm Ho HN. unfold PANGEA_HANDGAP in *. unfold pangea_serverstate, PANGEA_HANDGAP.
  rewrite u32_small by lia. destruct (Z.eqb_spec (h_finished (n_hand n)) 0); [lia|].
  destruct (Z.ltb_spec (h_finished (n_hand n) + 30) now); [|lia]. cbn [negb andb].
  rewrite anotherhand_next, E by done. cbn [mbind option_bind fmap option_fmap option_map fst].
  rewrite Hm. rewrite andb_false_r. unfold pangea_checkstart. rewrite He, Ho, Hm.
  destruct (Z.eqb_spec (txid (h_checkprod (n_hand n'))) 0) as [|Ht]; [done|]. cbn [negb andb String.eqb Z.eqb].
  replace (Z.to_nat (d_N (n_dp n'))) with (S (Z.to_nat (d_N (n_dp n') - 1))) by lia.
  cbn [all_gotdeck replicate]. change (aget (0 :: _) 0) with (Some 0). cbn [mbind option_bind].
  destruct (Z.eqb_spec 0 (txid (h_checkprod (n_hand n')))); [congruence|]. done.
Qed.

(** C3: a hand that is over is followed by the next one.  On the host, once every
    player has folded or shown his cards, a pass of the loop settles the hand: it
    ends, the pots are paid out and the clock is set; and a pass more than
    [PANGEA_HANDGAP] seconds later ends too and announces a new deck, with the
    balances of the settlement.  The host sits at slot 0, the hands of the players
    still in have a text ([ready_to_settle]), the arrays have their sizes, the random
    keys of the second pass cover every card, no message comes in between, and not
    exactly one seat has chips left. *)
Theorem idle_next_hand privkey e e' stack g g' n : hand_over n -> 0 < e_now e < 2 ^ 32 - 31 ->
  e_now e + PANGEA_HANDGAP < e_now e' < 2 ^ 32 -> Forall bits256_ok (e_rands e') ->
  (forall i, 0 <= i < d_numcards (n_dp n) -> covers (e_rands e') i) ->
  exists n1, pangea_idle lib privkey e stack g n None = Some n1 /\ settled (e_now e) n n1 /\
    (rich_seats (n_sp n1) <> 1 ->
     exists n2 msg, pangea_idle lib privkey e' stack g' n1 None = Some n2 /\ n_out n2 = msg :: n_out n1 /\
       m_cmd msg = "newhand" /\ h_finished (n_hand n2) = 0 /\ s_balances (n_sp n2) = s_balances (n_sp n1)).
Proof.
  intros [] He He' Hok Hcov. pose proof ov_settle0 as []. pose proof rs_funds as []. pose proof ov_ready0 as [].
  destruct ov_started0 as [Hb Hen]. unfold PANGEA_HANDGAP in He'.
  destruct (finish_spec (e_now e) n ov_settle0) as (n1 & Ef & Hs).
  destruct (se_frame _ _ _ Hs) as (Fs & Fp & Fh & FN & Fc). destruct (se_funds _ _ _ Hs) as [Fsp _].
  pose proof (se_table _ _ _ Hs) as Ht1. pose proof (se_finished _ _ _ Hs) as Hfin. rewrite u32_small in Hfin by lia.
  assert (h_betstarted (n_hand n1) = h_betstarted (n_hand n)) as Fb by by rewrite Fh.
  assert (h_encodestarted (n_hand n1) = h_encodestarted (n_hand n)) as Fe by by rewrite Fh.
  assert (h_cardpubs (n_hand n1) = h_cardpubs (n_hand n)) as Fcp by by rewrite Fh.
  assert (h_final (n_hand n1) = h_final (n_hand n)) as Ffi by by rewrite Fh.
  assert (s_numactive (n_sp n1) = s_numactive (n_sp n)) as Fna by by rewrite Fsp.
  exists n1. split.
  - unfold pangea_idle. cbn [mbind option_bind]. rewrite ov_mask0, Z.eqb_refl, rs_open, Z.eqb_refl. cbn [andb].
    rewrite Ef. cbn [mbind option_bind]. rewrite Fs, ov_host0. cbn [pangea_slotA Z.eqb].
    apply serverstate_waits; [lia|done|by rewrite Fb|by rewrite Fe].
  - split; [done|]. intros Hr.
    assert (ready_node n1) as Hn1.
    { split; rewrite ?FN, ?Fc, ?Fs, ?Fcp, ?Ffi; try done. by rewrite Fsp. }
    destruct (newdeck_ok (e_now e') (e_rands e') n1)
      as (n2 & pubs & prod & E2 & Eo & _ & _ & _ & _ & Em & EN & Eoth & Een & _ & Efi & Ebal);
      try (rewrite ?FN, ?Fc, ?Fp, ?Fna; done || lia).
    { by rewrite Fsp. }
    exists n2. eexists. split; [|by rewrite Eo].
    unfold pangea_idle. cbn [mbind option_bind]. rewrite Hfin.
    destruct (Z.eqb_spec (e_now e) 0); [lia|]. rewrite andb_false_r. cbn [mbind option_bind].
    rewrite Fs, ov_host0. cbn [pangea_slotA Z.eqb].
    apply serverstate_next; try done; rewrite ?Hfin, ?EN, ?Fna; unfold PANGEA_HANDGAP; lia.
Qed.
End Loop.

(** A host with everybody's cards shown: [bet_node] with a deck of two cards. *)
Definition over_node : node :=
  on_hand (fun h => h <| h_handmask := 7 |> <| h_encodestarted := 1 |>
      <| h_cardpubs := replicate 3 zero256 |> <| h_final := replicate 6 zero256 |>)
    (bet_node <| n_dp := n_dp bet_node <| d_numcards := 2 |> |>
       <| n_priv := n_priv bet_node <| p_outcards := replicate 6 zero256 |> |>).

Lemma over_node_over : hand_over over_node.
Proof.
  pose proof bet_node_ready as []. pose proof rs_funds as []. pose proof fo_hand as [].
  assert (funds_ok over_node) by (split; [done|done|done|by split|done..]).
  split; [by split| |done|done|done|done|done].
  split; [done|done|simpl; lia|simpl; lia|vm_compute; discriminate|vm_compute; discriminate].
Qed.

Definition no_libraries : libraries := mk_libraries (fun _ => None) (fun _ _ => false) (take 20) (fun _ _ => None).
Definition env_at (now : Z) : environment := mk_environment now sample_rands [] sample_entropy.1 0 0.

Lemma idle_next_hand_witness : exists n1,
  @pangea_idle XorOps ToyOps no_libraries zero256 (env_at 1000) 0 [] over_node None = Some n1 /\
  settled 1000 over_node n1 /\
  (rich_seats (n_sp n1) <> 1 -> exists n2 msg,
    @pangea_idle XorOps ToyOps no_libraries zero256 (env_at 1031) 0 [] n1 None = Some n2 /\
    n_out n2 = msg :: n_out n1 /\ m_cmd msg = "newhand").
Proof.
  destruct (@idle_next_hand XorOps ToyOps no_libraries zero256 (env_at 1000) (env_at 1031) 0 [] [] over_node)
    as (n1 & E & Hs & Hn); [apply over_node_over|simpl; lia|unfold PANGEA_HANDGAP; simpl; lia|concrete|by apply sample_covers|].
  exists n1. split; [exact E|]. split; [exact Hs|]. intros Hr. destruct (Hn Hr) as (n2 & msg & E2 & Eo & Em & _).
  exists n2, msg. split; [exact E2|]. split; [exact Eo|exact Em].
Defined.

(** ** Theorems: received messages *)

Section Messages.
Context {FO : FieldOps} {CO : @CurveOps FO} (lib : libraries).

(** [m] runs of fifteen zeros. *)
Definition zero_runs (m : nat) : list Z := concat (replicate m [90; 80]).

Lemma unzbuf_runs m post : forall fuel, (2 * m <= fuel)%nat ->
  unzbuf_from (zero_runs m ++ post) 0 (2 * Z.of_nat m) fuel = Some (replicate (15 * m) 0).
Proof.
  induction m as [|m IH]; intros fuel Hf.
  - destruct fuel; [done|]. reflexivity.
  - destruct fuel as [|fuel]; [lia|]. unfold zero_runs. cbn [replicate concat]. fold (zero_runs m).
    cbn [unzbuf_from]. destruct (Z.leb_spec (2 * Z.of_nat (S m)) 0); [lia|].
    change (aget (([90; 80] ++ zero_runs m) ++ post) 0) with (Some 90).
    change (aget (([90; 80] ++ zero_runs m) ++ post) (0 + 1)) with (Some 80). cbn [mbind option_bind Z.eqb Pos.eqb].
    pose proof (unzbuf_skip [90; 80] (zero_runs m ++ post) fuel 0 (2 * Z.of_nat m) ltac:(lia)) as K.
    rewrite app_assoc in K. change (Z.of_nat (length [90; 80])) with 2 in K.
    replace (2 * Z.of_nat (S m)) with (2 + 2 * Z.of_nat m) by lia. change (0 + 2) with (2 + 0).
    rewrite K, IH by lia. cbn [mbind option_bind]. change (Z.to_nat (80 - 65)) with 15%nat.
    rewrite <- replicate_add. do 2 f_equal. lia.
Qed.

(** The size of the buffer a message is decoded into. *)
Definition poll_maxlen (n : node) : Z := 32 * (d_N (n_dp n) * d_N (n_dp n) * d_numcards (n_dp n)).

(** C37: the data of a [preflop] message are unpacked without regard to the size of
    the buffer: a text of about two fifteenths of that size, from any sender, makes
    a seated node write behind the buffer. *)
Theorem poll_preflop_overflow privkey e stack garbage n sender :
  0 <= poll_maxlen n <= Z.of_nat (length garbage) -> 0 <= sender < d_N (n_dp n) -> 0 <= s_myind (n_sp n) ->
  exists k text, k_cmd k = Some "preflop" /\ k_myind k = sender /\ k_data k = Some text /\
    k_n k = Z.of_nat (length text) /\ Z.of_nat (length text) <= 2 * (poll_maxlen n / 15 + 1) /\
    pangea_poll lib privkey e stack garbage n k = None.
Proof.
  intros Hm Hs Hi. set (m := Z.to_nat (poll_maxlen n / 15 + 1)).
  pose proof (Z.div_pos (poll_maxlen n) 15 ltac:(lia) ltac:(lia)).
  assert (Z.of_nat (length (zero_runs m)) = 2 * Z.of_nat m) as L.
  { unfold zero_runs. clear. induction m as [|m IH]; [done|]. cbn [replicate concat]. rewrite length_app. simpl length in *. lia. }
  exists (mk_packet (Some "preflop") 0 sender 0 0 0 (2 * Z.of_nat m) (Some (zero_runs m)) None), (zero_runs m).
  cbn [k_cmd k_myind k_data k_n]. do 3 (split; [done|]). split; [lia|]. split; [lia|].
  unfold pangea_poll. cbn [k_cmd k_myind k_data k_n]. fold (poll_maxlen n).
  rewrite take_exact_le by lia. cbn [mbind option_bind].
  destruct (Z.ltb_spec sender 0), (Z.leb_spec (d_N (n_dp n)) sender), (Z.ltb_spec (s_myind (n_sp n)) 0); try lia.
  cbn [orb]. unfold poll_data. cbn [k_cmd k_data k_n]. unfold pangea_unzbuf. rewrite unzbuf_runs by lia.
  cbn [mbind option_bind]. unfold fill.
  destruct (Nat.leb_spec (length (replicate (15 * m) 0)) (length (take (Z.to_nat (poll_maxlen n)) garbage))) as [L'|]; [|done].
  rewrite length_replicate, length_take in L'. pose proof (Z.mul_succ_div_gt (poll_maxlen n) 15). lia.
Qed.
End Messages.

Lemma poll_preflop_overflow_witness : exists k, k_cmd k = Some "preflop" /\
  @pangea_poll XorOps ToyOps no_libraries zero256 (env_at 1000) 0 (replicate 600 0) over_node k = None.
Proof.
  destruct (@poll_preflop_overflow XorOps ToyOps no_libraries zero256 (env_at 1000) 0 (replicate 600 0) over_node 1)
    as (k & text & Ek & _ & _ & _ & _ & E); [concrete|simpl; lia|simpl; lia|]. by exists k.
Defined.
